(* ===== verification/_CoqProject ===== *)
-Q . S2P
Prelude.v
ClipboardText.v
Shmem.v
Clipboard.v
KeysymUcs.v
WorkQueue.v
Wire.v
Floats.v
Modes.v
Randr.v
Touch.v
EventQueue.v
EventDelivery.v
DeviceClasses.v
InputDevices.v
DeviceFrames.v
DeviceRuns.v
SharedState.v
Fence.v
Renderer.v
RendererThreads.v
CondProxy.v
XorgList.v
Present.v
Buffer.v
Pixmap.v
WindowTree.v
ScreenSize.v
XkbMap.v
Keyboard.v
Server.v
ExactDoubles.v
PointerEvents.v
Activity.v
CommandLine.v
StartUp.v
