(* ===== verification/Prelude.v ===== *)
(** * Verification of the Termux:X11 display server of WinEmulator

    WinEmulator runs Linux programs on Android and shows their windows through a
    display server, Termux:X11: an X server in one process and an Android activity in
    another, connected by a socket and shared memory. This library models the C code
    that the display server adds to the X.Org server, [src/tx11/src/main/cpp/lorie],
    and the parts of X.Org that this code works on directly, and proves what makes
    them correct. File names below are relative to [src/tx11/src/main/cpp].

    ** The parts and how they interact

    The activity ([lorie/activity.c]) sends pointer, touch, key and text events, window
    sizes and its clipboard as 24-byte events. On the server's side the input thread
    reads them ([handleLorieEvents]); it feeds the devices directly and hands the rest
    over to the server thread through the work queue. Text becomes keysyms
    ([ucs2keysym]), for which a key is found, or made, on the keyboard. In the other
    direction the server sends its clipboard, and shares its pixel buffers, which the
    renderer, a thread of the activity, draws to the window; a mutex, condition variables
    and a state in shared memory tie it to the server. A change of the window becomes a
    mode of its size, which resizes the screen: its pixmap is replaced under all windows.
    The events enter X through a mouse, a touch screen, a keyboard and a pen that comes and
    goes ([lorie/InitInput.c]). Independently of all this,
    [lorie/shm/shmem.c] gives programs System V shared memory, which Android does not have.

    - [Prelude]: machine integers, arrays with checked accesses, C strings, bytes.
    - [ClipboardText]: the UTF-8, Latin-1 and line ending conversions of
      [lorie/clipboard.c].
    - [Clipboard]: the selection protocol of [lorie/clipboard.c]: the server as owner on
      behalf of Android with its list of waiting requests, and as client of the X owner.
    - [KeysymUcs]: [xserver/hw/xquartz/keysym2ucs.c], table and searches.
    - [WorkQueue]: the work queue of [xserver/dix/dixutils.c], its pointers and the
      critical sections of both threads.
    - [Wire]: the union [lorieEvent] of [lorie/lorie.h] byte by byte, the key code table
      and the senders of [lorie/activity.c].
    - [Floats]: [float] and [double] arithmetic on the specification of the Standard
      Library, with bounds on the rounding of every operation.
    - [Modes]: the mode lines of [libxcvt/lib/libxcvt.c] and their use in [lorieCvt].
    - [Randr]: modes with their reference counts, outputs and crtcs ([xserver/randr]), the
      requests of clients, and [lorieConfigureNotify] of [lorie/InitOutput.c] over the class
      [ScreenHooks] of the screen that it resizes.
    - [EventQueue], [EventDelivery]: the ring of input events of [xserver/mi/mieq.c], and its
      processing through slave and master devices.
    - [DeviceClasses], [InputDevices]: the callbacks of [lorie/InitInput.c] that make axes,
      buttons and touch points, and the life of the devices from start to reset
      ([xserver/dix/devices.c], [Xi], [Xext/xtest.c]); [DeviceFrames] has the invariant and
      every operation as a change of the devices without their classes, [DeviceRuns] the
      runs, and that their devices are as [EventDelivery] needs them.
    - [Touch]: [handleTouchEvent] of [lorie/cmdentrypoint.c] and the touch points of
      [xserver/dix/touch.c] and [getevents.c].
    - [XorgList]: the intrusive lists of [xserver/include/list.h] on a heap of links, and
      the class [LinkedLists] through which they are used.
    - [Buffer]: [lorie/buffer.c] and [buffer.h], with a ledger of the resources held.
    - [XkbMap]: the keyboard description of [xserver/include/xkbstr.h] and the functions of
      [xserver/xkb] that translate key codes and give a key new symbols.
    - [Keyboard]: all of [lorie/InputXKB.c], from the keysym lookup to the press and
      release of a keysym.
    - [Shmem]: [lorie/shm/shmem.c], the segment table and the four System V calls.
    - [SharedState]: the mutex of [lorie/lorie.h] between the X server and the renderer, with
      processes that die and start and connections that are closed and opened, and the cursor that
      [lorie/InitOutput.c] hands over.
    - [Fence]: the shared fences of [lorie/xshmfence.c] and [libxshmfence], with futexes and
      with a mutex and a condition variable, for any number of threads.
    - [Renderer], [RendererThreads]: [lorie/renderer.c]: its lists of buffers, the window and
      its surface, the references that its lists hold, and the loop of its thread against the main
      thread and the server.
      [CondProxy]: the thread that forwards the server's condition variable to it.
    - [Present]: the vertical blank queue of [lorie/InitOutput.c] on the links of [XorgList],
      with what the present extension answers; [Present.serve] is its loop on a sequence.
    - [Pixmap]: the hooks of EXA, the flips, the imports and [lorieRedraw] of
      [lorie/InitOutput.c], over [Buffer] and [Present].
    - [WindowTree]: the links of the windows and the walk of [xserver/dix/window.c].
    - [ScreenSize]: [lorieRRScreenSetSize] and the screen's pixmap ([lorie/InitOutput.c]) over
      [Buffer], [Pixmap] and [WindowTree]; it is the screen of [Randr].
    - [Server]: the connection handler of [lorie/cmdentrypoint.c] on sockets whose bytes arrive
      at any time and in any pieces, over the class
      [ServerParts] of what it calls; the instance [display_parts] puts the keyboard, the
      clipboard and the touch device together.
    - [ExactDoubles], [PointerEvents]: doubles that are exact, and what the reports of the
      mouse become in [xserver/dix/getevents.c], on the masks of [inpututils.c]: motions, with the
      pointer kept within its limits and on the crtcs ([xserver/mi/mipointer.c],
      [xserver/randr/rrcrtc.c]), the wheel, and the clicks that stand for it.
    - [Activity]: the server's messages and [xcallback] of [lorie/activity.c], over the
      class [BufferTransport].
    - [CommandLine]: the loop over the arguments ([xserver/os/utils.c]) with the options of
      [lorie/InitOutput.c], of the keyboard ([xserver/xkb/xkbInit.c]) and of XDMCP.
    - [StartUp]: the environment that [lorie/cmdentrypoint.c] prepares, the command that is
      started with the server, the test picture, the shared state and the calls of
      [lorieScreenInit] ([lorie/InitOutput.c]), and [rendererTestCapabilities]
      ([lorie/renderer.c]).

    ** Conventions

    A function of the model has the name of the C function. State is passed explicitly
    in a record; what the kernel, Android or the rest of X.Org answers is an argument.
    [None] as a result stands for undefined behaviour (an access outside of an array, a
    use of freed memory, a descriptor closed twice) or for a loop that needs more rounds
    than its fuel; the theorems say which fuel is enough. The loop over
    the clicks of the wheel, which need not end, says whether it has ([PointerEvents.scroll_loop]). The conditions
    of a theorem on the surroundings (memory that is granted, the answers of Android and EGL, how
    the present extension reacts) are stated in its comment, and where they matter an [Example] shows
    what happens without them. Integers wrap at their width
    where the code stores them in a narrower type. [float] and [double] are the binary
    formats of IEEE 754, computed by the specification of the Standard Library. Log output
    is left out.

    ** What is shown

    - Refinement: the byte stream handler delivers the messages one by one
      ([Server.input_thread_delivers]); the pointer-level work queue is a sequence under
      every interleaving of the threads ([WorkQueue.work_queue_refines]); the ring of input
      events is a queue ([EventDelivery.mieqProcessInputEvents_delivers]); the intrusive
      lists are sequences ([XorgList.xorg_list_refines_sequences]), and so is the queue of the
      vertical blanks ([Present.loriePerformVblanks_refines]); both implementations of a
      fence are a flag ([Fence.fence_linearizes]); touches begin, move and end as the fingers do
      ([Touch.touch_protocol]).
    - Invariants: every resource of
      the buffers, the renderer and the pixmaps is accounted for ([Buffer.buffers_account],
      [Renderer.renderer_accounts], [Pixmap.pixmaps_track_locks]), and so is every reference
      to a mode ([Randr.modes_account]); the segment table stays consistent and the mutex
      free ([Shmem.ashv_reachable_ok]); the record of pressed keys is injective; whatever
      resizes and redraws, the pixmap, the windows and the buffers of the screen fit together
      ([ScreenSize.display_accounts]); the devices stay in order however they come and go
      ([DeviceRuns.devices_stay_in_order]).
    - Types: what the callbacks make of a device is well formed and as declared, for all
      answers of the allocator ([DeviceClasses.callbacks_initialise]).
    - Equivalence: the walk over the links of the windows is the preorder traversal of a tree
      ([WindowTree.TraverseTree_is_preorder]); a command line has the effects of a table of
      options ([CommandLine.ProcessCommandLine_effects]).
    - Termination: the loop over the clicks of the wheel ends, and tells every turn once
      ([PointerEvents.wheel_turns_click]); every command line is read to its end or ends the
      server ([CommandLine.ProcessCommandLine_ends]).
    - Safety: only numbers name a display ([CommandLine.VerifyDisplayName_spec]), the shared
      mutex excludes while its users stay connected ([SharedState.lorie_mutex_excludes]), frames have a surface
      ([RendererThreads.frames_have_surface]).
    - Liveness: the mutex of a dead process is recovered
      ([SharedState.lorie_mutex_recovers]), nobody sleeps on a triggered fence
      ([Fence.triggered_awaits_return]), the calls of the main thread return
      ([RendererThreads.setter_returns]), and so does the renderer's change of the condition
      variable that it listens to ([CondProxy.listen_returns]).
    - Functional behaviour: press, lookup and addition of keysyms in [Keyboard], the
      answers of [Clipboard], the life cycle of a segment, the delivery of an event to slave
      and master, the vertical blanks that are due, the refresh of the screen, what a change
      of the window leads to ([Randr.window_change_settles]), where a reported position is
      told to be ([PointerEvents.absolute_motion_lands]), and what the new size does to
      the screen ([ScreenSize.lorieRRScreenSetSize_resizes]).
    - Bounds: the fields of a mode line fit and are in order ([Modes.lorieCvt_well_formed]),
      the name of a display fits its buffer ([StartUp.display_fits]), the test picture the
      screen ([StartUp.drawSquares_draws]), and the events of a report their list
      ([PointerEvents.GetPointerEvents_fits]).
    - Round trips: events on the wire, keysyms and code points, and the
      pen, whose removal restores the devices ([DeviceRuns.stylus_comes_and_goes]).
    - Errors: what goes wrong, as the deadlock with the first window
      ([RendererThreads.first_window_deadlock]), the lost request for a frame
      ([CondProxy.request_lost]), the turn of the wheel that never ends
      ([PointerEvents.huge_turn_hangs]) or the ring that keeps freed buffers
      ([EventQueue.full_ring_use_after_free]); and lemmas named in comments that evaluate
      other cases on concrete inputs.

    ** Fuel and bounds

    The loops over strings and arrays take the length of the data as fuel; the handler of
    the stream takes the number of unread bytes, since every round reads an event; the list
    walks and the clipboard loop take the length of the list; the search in the keysym
    table takes the length of the table; the processing of input events takes the number of
    events in the ring and of those that arrive meanwhile; the walk over the windows takes
    their number and two ([walk_fuel]); the vertical blanks take their number and the depth to which flips
    make flips; the loop over the command line takes the number of
    arguments; the loop over the clicks takes their number, where it ends; a device is disabled with as much fuel as there are
    devices, since devices are only disabled one inside the other. The key loop of [shmget] is the
    exception: nothing in the code bounds it, and [Shmem.key_loop_progress] says when it
    ends. [Touch.touch_protocol] bounds the number of events by 2^31, where the identifiers
    of touches wrap around, and the ring of input events stays below 2^31 slots. Mode lines
    are computed for windows from 8 by 1 to 32767 by 32767 pixels, the sizes of X, and 1 to
    240 frames per second.

    ** What is not modelled

    The formats, callbacks and visuals that [lorieScreenInit] fills in, clip lists and the pixels of windows, further master devices,
    grabs and the state of buttons and keys, the history of motions and the barriers of clients
    ([xserver/Xi/xibarriers.c]), the drawing calls of GLES
    ([lorie/renderer.c]), JNI and logging, the Kotlin and Java application, and the
    vendored libraries apart from the parts named above. *)

From stdpp Require Export base numbers list gmap strings.
From Stdlib Require Export ZArith Lia.

#[global] Open Scope Z_scope.

(** ** Machine integers *)

(** A [w]-bit C integer is a [Z]; conversions to unsigned and signed types wrap
    modulo [2^w] (the server is built with clang for two's complement targets). *)
Definition uwrap (w x : Z) : Z := x mod 2 ^ w.

Definition swrap (w x : Z) : Z := (x + 2 ^ (w - 1)) mod 2 ^ w - 2 ^ (w - 1).

Abbreviation u8 := (uwrap 8).
Abbreviation u16 := (uwrap 16).
Abbreviation u32 := (uwrap 32).
Abbreviation u64 := (uwrap 64).
Abbreviation i8 := (swrap 8).
Abbreviation i16 := (swrap 16).
Abbreviation i32 := (swrap 32).
Abbreviation i64 := (swrap 64).

Lemma uwrap_range w x : 0 <= w -> 0 <= uwrap w x < 2 ^ w.
Proof. intros. apply Z.mod_pos_bound. by apply Z.pow_pos_nonneg. Qed.

Lemma swrap_range w x : 1 <= w -> - 2 ^ (w - 1) <= swrap w x < 2 ^ (w - 1).
Proof.
  intros. unfold swrap.
  pose proof (Z.mod_pos_bound (x + 2 ^ (w - 1)) (2 ^ w)) as H1.
  assert (2 ^ w = 2 * 2 ^ (w - 1)) as H2
    by (rewrite <- Z.pow_succ_r by lia; f_equal; lia).
  assert (0 < 2 ^ (w - 1)) by (apply Z.pow_pos_nonneg; lia). lia.
Qed.

Lemma uwrap_small w x : 0 <= x < 2 ^ w -> uwrap w x = x.
Proof. apply Z.mod_small. Qed.

Lemma swrap_small w x : 1 <= w -> - 2 ^ (w - 1) <= x < 2 ^ (w - 1) -> swrap w x = x.
Proof.
  intros Hw Hx. unfold swrap.
  assert (2 ^ w = 2 * 2 ^ (w - 1)) as H2
    by (rewrite <- Z.pow_succ_r by lia; f_equal; lia).
  rewrite Z.mod_small; lia.
Qed.

Create Rewrite HintDb cint.

#[export] Hint Rewrite uwrap_small swrap_small using lia : cint.

(** ** Masks as arithmetic *)

Lemma land_ones_mod x n : 0 <= n -> Z.land x (2 ^ n - 1) = x mod 2 ^ n.
Proof. intros. rewrite <- Z.land_ones by done. by rewrite Z.ones_equiv, Z.sub_1_r. Qed.

(** Joining disjoint bit fields is addition. *)
Lemma lor_add_low x y n : 0 <= n -> 0 <= y < 2 ^ n -> Z.lor (x * 2 ^ n) y = x * 2 ^ n + y.
Proof.
  intros Hn Hy. rewrite <- Z.shiftl_mul_pow2 by done. rewrite Z.add_nocarry_lxor.
  - apply Z.bits_inj'. intros i Hi. rewrite Z.lor_spec, Z.lxor_spec.
    destruct (decide (i < n)).
    + rewrite Z.shiftl_spec_low by lia. by destruct (Z.testbit y i).
    + replace (Z.testbit y i) with false; [by destruct (Z.testbit _ i)|].
      symmetry. rewrite <- (Z.mod_small y (2 ^ n)) by done. apply Z.mod_pow2_bits_high. lia.
  - apply Z.bits_inj'. intros i Hi. rewrite Z.land_spec, Z.bits_0.
    destruct (decide (i < n)).
    + by rewrite Z.shiftl_spec_low by lia.
    + rewrite <- (Z.mod_small y (2 ^ n)) by done.
      rewrite Z.mod_pow2_bits_high by lia. apply andb_false_r.
Qed.

(** ** Checked memory accesses *)

(** Reading and writing an array through an index that is not in its bounds is
    an error of the C program: the model answers [None]. *)
Definition rd {A} (a : list A) (i : nat) : option A := a !! i.

Definition wr {A} (a : list A) (i : nat) (v : A) : option (list A) :=
  if decide (i < length a)%nat then Some (<[i:=v]> a) else None.

Lemma wr_Some {A} (a : list A) i v :
  (i < length a)%nat -> wr a i v = Some (<[i:=v]> a).
Proof. intros. unfold wr. by rewrite decide_True. Qed.

Lemma wr_app {A} (a : list A) x b v :
  wr (a ++ x :: b) (length a) v = Some (a ++ v :: b).
Proof.
  rewrite wr_Some by (rewrite length_app; simpl; lia).
  f_equal. by rewrite insert_app_r_alt, Nat.sub_diag by lia.
Qed.

Lemma list_delete_insert {A} (l : list A) i x : delete i (<[i:=x]> l) = delete i l.
Proof.
  revert i. induction l as [|y l IH]; intros [|i]; try done.
  change (y :: delete i (<[i:=x]> l) = y :: delete i l). by rewrite IH.
Qed.

(** The same with a C integer as the index, and for runs of cells:
    [slice] is the source and [blit] the destination of a [memcpy]. *)
Definition rdz {A} (a : list A) (i : Z) : option A :=
  if 0 <=? i then a !! Z.to_nat i else None.

Definition wrz {A} (a : list A) (i : Z) (v : A) : option (list A) :=
  if 0 <=? i then wr a (Z.to_nat i) v else None.

Definition slice {A} (a : list A) (off n : Z) : option (list A) :=
  if (0 <=? off) && (0 <=? n) && (off + n <=? Z.of_nat (length a))
  then Some (take (Z.to_nat n) (drop (Z.to_nat off) a)) else None.

Definition blit {A} (a : list A) (off : Z) (b : list A) : option (list A) :=
  if (0 <=? off) && (off + Z.of_nat (length b) <=? Z.of_nat (length a))
  then Some (take (Z.to_nat off) a ++ b ++ drop (Z.to_nat off + length b) a) else None.

(** [cstr a] is the C string stored in [a]: its bytes before the first NUL. *)
Fixpoint cstr (a : list Z) : list Z :=
  match a with
  | [] => []
  | c :: a' => if c =? 0 then [] else c :: cstr a'
  end.

Definition is_byte (c : Z) : Prop := 0 <= c < 256.

#[export] Instance is_byte_dec c : Decision (is_byte c).
Proof. unfold is_byte. apply _. Defined.

(** A boolean fact of every byte is checked by enumeration. *)
Lemma byte_forall (P : Z -> bool) :
  forallb P (seqZ 0 256) = true -> forall c, is_byte c -> P c = true.
Proof.
  intros HP c Hc. rewrite forallb_forall in HP. apply HP.
  apply list_elem_of_In, elem_of_seqZ. unfold is_byte in Hc. lia.
Qed.

Lemma byte_eqb_forall (f g : Z -> bool) :
  forallb (fun c => Bool.eqb (f c) (g c)) (seqZ 0 256) = true ->
  forall c, is_byte c -> f c = g c.
Proof. intros H c Hc. by apply Bool.eqb_prop, (byte_forall (fun c => Bool.eqb (f c) (g c))). Qed.

(** Bytes of a C string proper: in range and not NUL. *)
Definition is_char (c : Z) : Prop := 0 < c < 256.

Lemma cstr_app_nul s t : Forall is_char s -> cstr (s ++ 0 :: t) = s.
Proof.
  induction 1 as [|c s Hc _ IH]; [done|]. simpl.
  unfold is_char in Hc. rewrite (proj2 (Z.eqb_neq c 0)) by lia. by rewrite IH.
Qed.

(** ** Lemmas of checked accesses *)

Lemma rdz_nat {A} (a : list A) (i : nat) : rdz a (Z.of_nat i) = a !! i.
Proof. unfold rdz. by rewrite (proj2 (Z.leb_le 0 _)), Nat2Z.id by lia. Qed.

Lemma rdz_is_Some {A} (a : list A) i : is_Some (rdz a i) <-> 0 <= i < Z.of_nat (length a).
Proof.
  unfold rdz. destruct (Z.leb_spec 0 i).
  - rewrite lookup_lt_is_Some. lia.
  - split; [by intros [? ?]|lia].
Qed.

Lemma rdz_Some_range {A} (a : list A) i x : rdz a i = Some x -> 0 <= i < Z.of_nat (length a).
Proof. intros. apply rdz_is_Some. eauto. Qed.

Lemma wrz_Some {A} (a : list A) i v :
  0 <= i < Z.of_nat (length a) -> wrz a i v = Some (<[Z.to_nat i:=v]> a).
Proof. intros. unfold wrz. rewrite (proj2 (Z.leb_le 0 i)) by lia. rewrite wr_Some; [done|lia]. Qed.

Lemma wrz_length {A} (a a' : list A) i v : wrz a i v = Some a' -> length a' = length a.
Proof.
  unfold wrz, wr. destruct (_ <=? _); [|done]. case_decide; [|done].
  intros [= <-]. apply length_insert.
Qed.

Lemma rdz_wrz {A} (a a' : list A) i j v :
  wrz a i v = Some a' -> rdz a' j = if i =? j then Some v else rdz a j.
Proof.
  unfold wrz, wr. destruct (Z.leb_spec 0 i); [|done]. case_decide; [|done].
  intros [= <-]. unfold rdz. destruct (Z.leb_spec 0 j), (Z.eqb_spec i j); subst; try done; try lia.
  - by rewrite list_lookup_insert_eq.
  - rewrite list_lookup_insert_ne by lia. done.
Qed.

Lemma slice_is_Some {A} (a : list A) off n :
  is_Some (slice a off n) <-> 0 <= off /\ 0 <= n /\ off + n <= Z.of_nat (length a).
Proof.
  unfold slice. destruct (Z.leb_spec 0 off), (Z.leb_spec 0 n), (Z.leb_spec (off + n) (Z.of_nat (length a)));
    simpl; split; try (by intros [? ?]); try lia; eauto.
Qed.

Lemma slice_length {A} (a l : list A) off n : slice a off n = Some l -> length l = Z.to_nat n.
Proof.
  intros H. assert (is_Some (slice a off n)) as Hs by eauto. apply slice_is_Some in Hs.
  revert H. unfold slice. destruct (_ && _)%bool; [|done]. intros [= <-].
  rewrite length_take, length_drop. lia.
Qed.

Lemma blit_is_Some {A} (a b : list A) off :
  is_Some (blit a off b) <-> 0 <= off /\ off + Z.of_nat (length b) <= Z.of_nat (length a).
Proof.
  unfold blit. destruct (Z.leb_spec 0 off), (Z.leb_spec (off + Z.of_nat (length b)) (Z.of_nat (length a)));
    simpl; split; try (by intros [? ?]); try lia; eauto.
Qed.

Lemma blit_length {A} (a a' b : list A) off : blit a off b = Some a' -> length a' = length a.
Proof.
  intros H. assert (is_Some (blit a off b)) as Hs by eauto. apply blit_is_Some in Hs.
  revert H. unfold blit. destruct (_ && _)%bool; [|done]. intros [= <-].
  rewrite !length_app, length_take, length_drop. lia.
Qed.

(** Reading a cell after a [memcpy]: from the source inside the block, from the
    old contents outside it. *)
Lemma rdz_blit {A} (a a' b : list A) off i :
  blit a off b = Some a' ->
  rdz a' i = if (off <=? i) && (i <? off + Z.of_nat (length b)) then rdz b (i - off) else rdz a i.
Proof.
  intros H. assert (is_Some (blit a off b)) as Hs by eauto. apply blit_is_Some in Hs.
  revert H. unfold blit. destruct (_ && _)%bool; [|done]. intros [= <-]. unfold rdz.
  destruct (Z.leb_spec 0 i), (Z.leb_spec off i), (Z.ltb_spec i (off + Z.of_nat (length b)));
    simpl; try lia; try done.
  - rewrite (proj2 (Z.leb_le 0 (i - off))) by lia.
    rewrite lookup_app_r, length_take by (rewrite length_take; lia).
    rewrite lookup_app_l by lia. f_equal. lia.
  - rewrite lookup_app_r, length_take by (rewrite length_take; lia).
    rewrite lookup_app_r by lia. rewrite lookup_drop. f_equal. lia.
  - rewrite lookup_app_l by (rewrite length_take; lia). apply lookup_take_lt. lia.
Qed.

Lemma rdz_slice {A} (a l : list A) off n i :
  slice a off n = Some l -> rdz l i = if (0 <=? i) && (i <? n) then rdz a (off + i) else None.
Proof.
  intros H. assert (is_Some (slice a off n)) as Hs by eauto. apply slice_is_Some in Hs.
  revert H. unfold slice. destruct (_ && _)%bool; [|done]. intros [= <-]. unfold rdz.
  destruct (Z.leb_spec 0 i); simpl; [|done].
  rewrite (proj2 (Z.leb_le 0 (off + i))) by lia.
  destruct (Z.ltb_spec i n); simpl.
  - rewrite lookup_take_lt by lia. rewrite lookup_drop. f_equal. lia.
  - apply lookup_take_ge. lia.
Qed.

Lemma slice_ext {A} (a b : list A) off n off' :
  0 <= off -> 0 <= off' -> 0 <= n -> off + n <= Z.of_nat (length a) -> off' + n <= Z.of_nat (length b) ->
  (forall i, 0 <= i < n -> rdz a (off + i) = rdz b (off' + i)) ->
  slice a off n = slice b off' n.
Proof.
  intros ????? H.
  destruct (proj2 (slice_is_Some a off n)) as [l Hl]; [lia|].
  destruct (proj2 (slice_is_Some b off' n)) as [l' Hl']; [lia|].
  rewrite Hl, Hl'. f_equal. apply list_eq. intros i.
  rewrite <- !rdz_nat. rewrite (rdz_slice _ _ _ _ _ Hl), (rdz_slice _ _ _ _ _ Hl').
  destruct (Z.leb_spec 0 (Z.of_nat i)), (Z.ltb_spec (Z.of_nat i) n); simpl; try done.
  apply H. lia.
Qed.

(** ** Ledgers *)

(** What a process holds is a list; giving back what is not in it is an error. *)
Fixpoint give_back {A} `{EqDecision A} (r : A) (l : list A) : option (list A) :=
  match l with
  | [] => None
  | x :: l' => if decide (x = r) then Some l' else l'' ← give_back r l'; Some (x :: l'')
  end.

Section ledgers.
Context {A : Type} `{EqDecision A}.
Implicit Types (r : A) (l : list A).

Lemma give_back_in r l : r ∈ l -> exists l', give_back r l = Some l' /\ l ≡ₚ r :: l'.
Proof.
  induction l as [|x l IH]; intros H; [by apply elem_of_nil in H|]. cbn [give_back].
  destruct (decide (x = r)) as [->|Hne]; [eauto|].
  apply elem_of_cons in H as [->|H]; [done|]. destruct (IH H) as (l' & -> & Hp). cbn.
  exists (x :: l'). split; [done|]. rewrite Hp. apply Permutation_swap.
Qed.

Lemma give_back_hd r l : give_back r (r :: l) = Some l.
Proof. unfold give_back. by rewrite decide_True. Qed.

Lemma give_back_perm r l l0 : l ≡ₚ r :: l0 -> exists l', give_back r l = Some l' /\ l' ≡ₚ l0.
Proof.
  intros Hp. destruct (give_back_in r l) as (l' & E & Hp'); [rewrite Hp; by left|].
  exists l'. split; [done|]. apply (Permutation_cons_inv (a := r)). by rewrite <- Hp', Hp.
Qed.
End ledgers.

(** ** What the values of a map hold *)

Definition collect {A B} (f : A -> list B) (m : gmap Z A) : list B :=
  concat (map (fun kb => f kb.2) (map_to_list m)).

Section collect.
Context {A B : Type} (f : A -> list B).
Implicit Types (m : gmap Z A).

Lemma collect_insert m p b : m !! p = None -> collect f (<[p:=b]> m) ≡ₚ f b ++ collect f m.
Proof. intros H. unfold collect. by rewrite map_to_list_insert. Qed.

Lemma collect_delete m p b : m !! p = Some b -> collect f m ≡ₚ f b ++ collect f (delete p m).
Proof. intros H. unfold collect. by rewrite <- (map_to_list_delete m p b H). Qed.

Lemma collect_update m p b b' rest rest' : m !! p = Some b ->
  f b ++ rest ≡ₚ f b' ++ rest' -> collect f m ++ rest ≡ₚ collect f (<[p:=b']> m) ++ rest'.
Proof.
  intros H Hp. rewrite (collect_delete m p b H). rewrite <- insert_delete_eq.
  rewrite collect_insert by apply lookup_delete_eq.
  rewrite <- !app_assoc, (Permutation_app_comm (collect f _) rest), (Permutation_app_comm (collect f _) rest').
  by rewrite !app_assoc, Hp.
Qed.

Lemma collect_same m p b b' : m !! p = Some b -> f b' = f b -> collect f (<[p:=b']> m) ≡ₚ collect f m.
Proof.
  intros H E. rewrite (collect_delete m p b H), <- insert_delete_eq, collect_insert by apply lookup_delete_eq.
  by rewrite E.
Qed.

End collect.

(** ** Tactics *)

(** Split the boolean comparisons of the goal and hypotheses. *)
Ltac bcase :=
  repeat match goal with
  | |- context [Z.eqb ?a ?b] => destruct (Z.eqb_spec a b); cbv match
  | |- context [Z.leb ?a ?b] => destruct (Z.leb_spec a b); cbv match
  | |- context [Z.ltb ?a ?b] => destruct (Z.ltb_spec a b); cbv match
  | H : context [Z.eqb ?a ?b] |- _ => destruct (Z.eqb_spec a b)
  | H : context [Z.leb ?a ?b] |- _ => destruct (Z.leb_spec a b)
  | H : context [Z.ltb ?a ?b] |- _ => destruct (Z.ltb_spec a b)
  end.
