(* ===== verification/ClipboardText.v ===== *)
(** * Text conversions of the clipboard bridge (lorie/clipboard.c)

    The routines that translate clipboard contents between X11 selections
    (Latin-1 [STRING], [UTF8_STRING]) and the UTF-8 the Android side sends.
    Arrays are lists of bytes; a read or write out of the array is [None]. *)

From S2P Require Import Prelude.

(** ** [lorieConvertLF] *)

(** The copy loop, at source bytes [src] with [j] bytes already stored. *)
Fixpoint convertLF_loop (src dst : list Z) (j : nat) : option (list Z) :=
  match src with
  | [] => Some dst
  | c :: src' =>
      if c =? 13 then convertLF_loop src' dst j
      else dst' ← wr dst j c; convertLF_loop src' dst' (S j)
  end.

(** [dst] is the caller's buffer; reading [bytes] bytes of a shorter [src] faults. *)
Definition lorieConvertLF (src dst : list Z) (bytes : nat) : option (list Z) :=
  if decide (bytes <= length src)%nat then convertLF_loop (take bytes src) dst 0 else None.

(** ** [lorieLatin1ToUTF8] *)

(** [out] with the write index [j]; the loop stops at the NUL of [inp]. *)
Fixpoint latin1ToUTF8_loop (out inp : list Z) (j : nat) : option (list Z) :=
  match inp with
  | [] => None
  | c :: inp' =>
      if c =? 0 then Some out
      else if c <? 128 then out1 ← wr out j c; latin1ToUTF8_loop out1 inp' (S j)
      else out1 ← wr out j (u8 (0xc2 + (if 0xbf <? c then 1 else 0)));
           out2 ← wr out1 (S j) (u8 (Z.land c 0x3f + 0x80));
           latin1ToUTF8_loop out2 inp' (S (S j))
  end.

Definition lorieLatin1ToUTF8 (out inp : list Z) : option (list Z) := latin1ToUTF8_loop out inp 0.

(** ** [lorieCheckUTF8] *)

(** One round of the [for]: [None] is a read out of [utf], [Some None] leaves
    the function with 0, [Some (Some k)] advances by [k] bytes. *)
Definition checkUTF8_step (utf : list Z) (ix : nat) (c : Z) : option (option nat) :=
  if Z.land c 0x80 =? 0 then Some (Some 1%nat)
  else
    c1 ← rd utf (ix + 1);
    if negb (Z.land c1 0xc0 =? 0x80) then Some None
    else if Z.land c 0xe0 =? 0xe0 then
      c2 ← rd utf (ix + 2);
      if negb (Z.land c2 0xc0 =? 0x80) then Some None
      else if Z.land c 0xf0 =? 0xf0 then
        if negb (Z.land c 0xf8 =? 0xf0) then Some None
        else c3 ← rd utf (ix + 3);
             if negb (Z.land c3 0xc0 =? 0x80) then Some None else Some (Some 4%nat)
      else Some (Some 3%nat)
    else Some (Some 2%nat).

(** The [for] loop; every round advances, so [length utf] rounds are enough. *)
Fixpoint checkUTF8_loop (fuel : nat) (utf : list Z) (size ix : nat) : option bool :=
  match fuel with
  | O => None
  | S fuel' =>
      c ← rd utf ix;
      if c =? 0 then Some true
      else if decide (ix < size)%nat then
        r ← checkUTF8_step utf ix c;
        match r with
        | None => Some false
        | Some k => checkUTF8_loop fuel' utf size (ix + k)
        end
      else Some true
  end.

Definition lorieCheckUTF8 (utf : list Z) (size : nat) : option bool :=
  checkUTF8_loop (S (length utf)) utf size 0.

(** ** [lorieUtf8ToUCS4] *)

(** The continuation bytes: result is the bytes consumed and the code point. *)
Fixpoint ucs4_cont (count : nat) (src : list Z) (max dst consumed : Z) : option (Z * Z) :=
  match count with
  | O => Some (consumed, if (0xd800 <=? dst) && (dst <? 0xe000) then 0xfffd else dst)
  | S count' =>
      if max =? 0 then Some (consumed + 1, 0xfffd)
      else
        c ← head src;
        if negb (Z.land c 0xc0 =? 0x80) then Some (consumed + 1, 0xfffd)
        else ucs4_cont count' (tail src) (max - 1)
               (Z.lor (u32 (Z.shiftl dst 6)) (Z.land c 0x3f)) (consumed + 1)
  end.

(** After an invalid lead byte: consume the continuation bytes that follow. *)
Fixpoint ucs4_skip (src : list Z) (max consumed : Z) : option Z :=
  if max =? 0 then Some consumed
  else match src with
       | [] => None
       | c :: src' => if Z.land c 0xc0 =? 0x80 then ucs4_skip src' (max - 1) (consumed + 1)
                      else Some consumed
       end.

(** [max] is the [size_t] argument; the result is (consumed, *dst). *)
Definition lorieUtf8ToUCS4 (src : list Z) (max : Z) : option (Z * Z) :=
  if max =? 0 then Some (0, 0xfffd)
  else
    c ← head src;
    if Z.land c 0x80 =? 0 then ucs4_cont 0 (tail src) (max - 1) c 1
    else if Z.land c 0xe0 =? 0xc0 then ucs4_cont 1 (tail src) (max - 1) (Z.land c 0x1f) 1
    else if Z.land c 0xf0 =? 0xe0 then ucs4_cont 2 (tail src) (max - 1) (Z.land c 0x0f) 1
    else if Z.land c 0xf8 =? 0xf0 then ucs4_cont 3 (tail src) (max - 1) (Z.land c 0x07) 1
    else k ← ucs4_skip (tail src) (max - 1) 1; Some (k, 0xfffd).

(** ** [lorieUtf8ToLatin1] *)

(** The first loop: count the characters. *)
Fixpoint utf8ToLatin1_size (fuel : nat) (inp : list Z) (in_len sz : Z) : option Z :=
  match fuel with
  | O => None
  | S fuel' =>
      if in_len =? 0 then Some sz
      else
        c ← head inp;
        if c =? 0 then Some sz
        else r ← lorieUtf8ToUCS4 inp in_len;
             utf8ToLatin1_size fuel' (drop (Z.to_nat (fst r)) inp) (u64 (in_len - fst r)) (sz + 1)
  end.

(** The second loop: store the characters at [position]. *)
Fixpoint utf8ToLatin1_store (fuel : nat) (inp : list Z) (in_len : Z)
    (out : list Z) (position : nat) : option (list Z) :=
  match fuel with
  | O => None
  | S fuel' =>
      if in_len =? 0 then Some out
      else
        c ← head inp;
        if c =? 0 then Some out
        else r ← lorieUtf8ToUCS4 inp in_len;
             out' ← wr out position (if 0xff <? snd r then 63 else u8 (snd r));
             utf8ToLatin1_store fuel' (drop (Z.to_nat (fst r)) inp) (u64 (in_len - fst r))
               out' (S position)
  end.

(** The result is the string [strdup] returns; the first loop starts with
    [(size_t) -1], the second with [4.294967295E9]. *)
Definition lorieUtf8ToLatin1 (src : list Z) : option (list Z) :=
  sz ← utf8ToLatin1_size (S (length src)) src (u64 (-1)) 0;
  out ← utf8ToLatin1_store (S (length src)) src 4294967295 (replicate (Z.to_nat sz + 1) 0) 0;
  Some (cstr out).

(** ** Reference encoder *)

(** Unicode scalar values and their UTF-8 encoding (RFC 3629). *)
Definition is_scalar (c : Z) : Prop := 0 <= c < 0xd800 \/ 0xe000 <= c < 0x110000.

Definition utf8_encode (c : Z) : list Z :=
  if c <? 0x80 then [c]
  else if c <? 0x800 then [0xc0 + c / 64; 0x80 + c mod 64]
  else if c <? 0x10000 then [0xe0 + c / 4096; 0x80 + c / 64 mod 64; 0x80 + c mod 64]
  else [0xf0 + c / 262144; 0x80 + c / 4096 mod 64; 0x80 + c / 64 mod 64; 0x80 + c mod 64].

Definition utf8_text (cs : list Z) : list Z := cs ≫= utf8_encode.

(** The text without its carriage returns. *)
Definition strip_cr (s : list Z) : list Z := filter (fun c : Z => c <> 13) s.

(** ** Byte classes *)

(** The mask tests of the source on bytes, as ranges. *)
Section masks.
Context (c : Z) (Hc : is_byte c).

Lemma ascii_test : (Z.land c 0x80 =? 0) = (c <? 0x80).
Proof. by apply (byte_eqb_forall (fun c => Z.land c 0x80 =? 0) (fun c => c <? 0x80)). Qed.

Lemma cont_test : (Z.land c 0xc0 =? 0x80) = (0x80 <=? c) && (c <? 0xc0).
Proof.
  by apply (byte_eqb_forall (fun c => Z.land c 0xc0 =? 0x80)
              (fun c => (0x80 <=? c) && (c <? 0xc0))).
Qed.

Lemma lead2_test : (Z.land c 0xe0 =? 0xc0) = (0xc0 <=? c) && (c <? 0xe0).
Proof.
  by apply (byte_eqb_forall (fun c => Z.land c 0xe0 =? 0xc0)
              (fun c => (0xc0 <=? c) && (c <? 0xe0))).
Qed.

Lemma lead3_test : (Z.land c 0xf0 =? 0xe0) = (0xe0 <=? c) && (c <? 0xf0).
Proof.
  by apply (byte_eqb_forall (fun c => Z.land c 0xf0 =? 0xe0)
              (fun c => (0xe0 <=? c) && (c <? 0xf0))).
Qed.

Lemma lead4_test : (Z.land c 0xf8 =? 0xf0) = (0xf0 <=? c) && (c <? 0xf8).
Proof.
  by apply (byte_eqb_forall (fun c => Z.land c 0xf8 =? 0xf0)
              (fun c => (0xf0 <=? c) && (c <? 0xf8))).
Qed.

Lemma high3_test : (Z.land c 0xe0 =? 0xe0) = (0xe0 <=? c).
Proof. by apply (byte_eqb_forall (fun c => Z.land c 0xe0 =? 0xe0) (fun c => 0xe0 <=? c)). Qed.

Lemma high4_test : (Z.land c 0xf0 =? 0xf0) = (0xf0 <=? c).
Proof. by apply (byte_eqb_forall (fun c => Z.land c 0xf0 =? 0xf0) (fun c => 0xf0 <=? c)). Qed.
End masks.

(** Decide all the tests of the decoder at bytes whose ranges are known. *)
Ltac mask_tests :=
  rewrite ?ascii_test, ?cont_test, ?lead2_test, ?lead3_test, ?lead4_test, ?high3_test,
    ?high4_test by (unfold is_byte; lia);
  repeat match goal with
  | |- context [?a <=? ?b] =>
      first [ rewrite (proj2 (Z.leb_le a b)) by lia | rewrite (proj2 (Z.leb_gt a b)) by lia ]
  | |- context [?a <? ?b] =>
      first [ rewrite (proj2 (Z.ltb_lt a b)) by lia | rewrite (proj2 (Z.ltb_ge a b)) by lia ]
  | |- context [?a =? ?b] =>
      first [ rewrite (proj2 (Z.eqb_eq a b)) by lia | rewrite (proj2 (Z.eqb_neq a b)) by lia ]
  end;
  cbn [negb andb orb].

(** One continuation byte of payload [d] shifts it into the code point. *)
Lemma ucs4_join dst d :
  0 <= dst < 2 ^ 26 -> 0 <= d < 64 ->
  Z.lor (u32 (Z.shiftl dst 6)) (Z.land (0x80 + d) 0x3f) = dst * 64 + d.
Proof.
  intros Hdst Hd. change 0x3f with (2 ^ 6 - 1). rewrite land_ones_mod by lia.
  rewrite Z.shiftl_mul_pow2 by lia. rewrite uwrap_small by lia.
  replace ((0x80 + d) mod 2 ^ 6) with d.
  - apply (lor_add_low dst d 6); lia.
  - change (2 ^ 6) with 64. Z.div_mod_to_equations. lia.
Qed.

Lemma ucs4_cont_step count d src max dst consumed :
  0 <= dst < 2 ^ 26 -> 0 <= d < 64 -> max <> 0 ->
  ucs4_cont (S count) ((0x80 + d) :: src) max dst consumed =
  ucs4_cont count src (max - 1) (dst * 64 + d) (consumed + 1).
Proof.
  intros Hdst Hd Hmax. cbn [ucs4_cont head tail mbind option_bind].
  rewrite ucs4_join by done. by mask_tests.
Qed.

Lemma ucs4_cont_done src max dst consumed :
  is_scalar dst -> ucs4_cont 0 src max dst consumed = Some (consumed, dst).
Proof.
  unfold is_scalar. intros H. cbn [ucs4_cont]. do 2 f_equal.
  destruct (Z.leb_spec 0xd800 dst), (Z.ltb_spec dst 0xe000); simpl; lia.
Qed.

(** The decoder inverts the encoder on scalar values, whatever follows. *)
Lemma ucs4_encode c rest max :
  is_scalar c -> Z.of_nat (length (utf8_encode c)) <= max ->
  lorieUtf8ToUCS4 (utf8_encode c ++ rest) max = Some (Z.of_nat (length (utf8_encode c)), c).
Proof.
  intros Hc. unfold utf8_encode, lorieUtf8ToUCS4.
  assert (0 <= c < 0x110000) as Hr by (unfold is_scalar in Hc; lia).
  destruct (Z.ltb_spec c 0x80); [|destruct (Z.ltb_spec c 0x800); [|destruct (Z.ltb_spec c 0x10000)]];
    cbn [length app head tail mbind option_bind]; intros Hmax;
    pose proof (Z.mod_pos_bound c 64 ltac:(lia));
    pose proof (Z.mod_pos_bound (c / 64) 64 ltac:(lia));
    pose proof (Z.mod_pos_bound (c / 4096) 64 ltac:(lia)).
  - mask_tests. by apply ucs4_cont_done.
  - assert (0 <= c / 64 < 32) by (split; [apply Z.div_pos|apply Z.div_lt_upper_bound]; lia).
    mask_tests. change 0x1f with (2 ^ 5 - 1). rewrite land_ones_mod by lia.
    replace ((0xc0 + c / 64) mod 2 ^ 5) with (c / 64)
      by (change (2 ^ 5) with 32; Z.div_mod_to_equations; lia).
    rewrite ucs4_cont_step by lia.
    replace (c / 64 * 64 + c mod 64) with c by (Z.div_mod_to_equations; lia).
    by apply ucs4_cont_done.
  - assert (0 <= c / 4096 < 16) by (split; [apply Z.div_pos|apply Z.div_lt_upper_bound]; lia).
    mask_tests. change 0x0f with (2 ^ 4 - 1). rewrite land_ones_mod by lia.
    replace ((0xe0 + c / 4096) mod 2 ^ 4) with (c / 4096)
      by (change (2 ^ 4) with 16; Z.div_mod_to_equations; lia).
    rewrite !ucs4_cont_step by lia.
    replace ((c / 4096 * 64 + c / 64 mod 64) * 64 + c mod 64) with c
      by (Z.div_mod_to_equations; lia).
    by apply ucs4_cont_done.
  - assert (0 <= c / 262144 < 8) by (split; [apply Z.div_pos|apply Z.div_lt_upper_bound]; lia).
    mask_tests. change 0x07 with (2 ^ 3 - 1). rewrite land_ones_mod by lia.
    replace ((0xf0 + c / 262144) mod 2 ^ 3) with (c / 262144)
      by (change (2 ^ 3) with 8; Z.div_mod_to_equations; lia).
    rewrite !ucs4_cont_step by lia.
    replace (((c / 262144 * 64 + c / 4096 mod 64) * 64 + c / 64 mod 64) * 64 + c mod 64) with c
      by (Z.div_mod_to_equations; lia).
    by apply ucs4_cont_done.
Qed.

(** A two-byte lead before the NUL: the NUL is consumed. *)
Lemma ucs4_truncated b max :
  0xc0 <= b < 0xe0 -> 2 <= max -> lorieUtf8ToUCS4 [b; 0] max = Some (2, 0xfffd).
Proof.
  intros Hb Hm. unfold lorieUtf8ToUCS4. cbn [head tail mbind option_bind].
  mask_tests. cbn [ucs4_cont head mbind option_bind]. by mask_tests.
Qed.

(** ** The encoder *)

Lemma utf8_encode_length c : (1 <= length (utf8_encode c) <= 4)%nat.
Proof. unfold utf8_encode. repeat case_match; simpl; lia. Qed.

Lemma utf8_encode_latin1 c : 0x80 <= c < 0x100 -> utf8_encode c = [0xc0 + c / 64; 0x80 + c mod 64].
Proof. intros. unfold utf8_encode. bcase; [lia|done|lia|lia]. Qed.

Lemma utf8_encode_byte c : is_scalar c -> Forall is_byte (utf8_encode c).
Proof.
  intros Hc. assert (0 <= c < 0x110000) by (unfold is_scalar in Hc; lia).
  unfold utf8_encode, is_byte.
  bcase; repeat constructor; Z.div_mod_to_equations; lia.
Qed.

Lemma utf8_encode_head c : 0 < c -> exists b t, utf8_encode c = b :: t /\ b <> 0.
Proof.
  intros Hc. unfold utf8_encode.
  repeat case_match; do 2 eexists; (split; [done|]); Z.div_mod_to_equations; lia.
Qed.

Lemma utf8_text_cons c cs : utf8_text (c :: cs) = utf8_encode c ++ utf8_text cs.
Proof. done. Qed.

Lemma utf8_text_length cs : (length cs <= length (utf8_text cs))%nat.
Proof.
  induction cs as [|c cs IH]; [done|]. rewrite utf8_text_cons, length_app.
  pose proof (utf8_encode_length c). simpl. lia.
Qed.

(** Text of the clipboard: non-NUL scalar values. *)
Definition is_text (c : Z) : Prop := 0 < c /\ is_scalar c.

Lemma is_char_text c : is_char c -> is_text c.
Proof. unfold is_char, is_text, is_scalar. lia. Qed.

(** The Latin-1 image of a character. *)
Definition to_latin1 (c : Z) : Z := if 0xff <? c then 63 else c.

Lemma to_latin1_id c : is_char c -> to_latin1 c = c.
Proof. unfold is_char, to_latin1. intros. by bcase; lia. Qed.

Lemma to_latin1_char c : is_text c -> is_char (to_latin1 c).
Proof. unfold is_text, is_char, to_latin1. intros. bcase; lia. Qed.

(** ** The Latin-1 conversion on UTF-8 text *)

(** Counting passes over a text prefix, whatever follows it. *)
Lemma utf8ToLatin1_size_app cs tl fuel in_len sz :
  Forall is_text cs -> Z.of_nat (length (utf8_text cs)) <= in_len < 2 ^ 64 ->
  utf8ToLatin1_size (length cs + fuel) (utf8_text cs ++ tl) in_len sz
  = utf8ToLatin1_size fuel tl (in_len - Z.of_nat (length (utf8_text cs)))
      (sz + Z.of_nat (length cs)).
Proof.
  intros Hcs. revert in_len sz. induction Hcs as [|c cs [Hpos Hc] _ IH]; intros in_len sz Hl.
  - cbn [length utf8_text app Nat.add]. f_equal; simpl; lia.
  - rewrite utf8_text_cons, length_app in Hl |- *. rewrite <- app_assoc.
    pose proof (utf8_encode_length c). destruct (utf8_encode_head c Hpos) as (b & t & E & Hb).
    cbn [length Nat.add utf8ToLatin1_size]. rewrite (proj2 (Z.eqb_neq in_len 0)) by lia.
    rewrite ucs4_encode by (done || lia).
    rewrite E at 1. cbn [app head mbind option_bind]. rewrite (proj2 (Z.eqb_neq b 0)) by done.
    cbn [fst]. rewrite Nat2Z.id, drop_app_length.
    rewrite uwrap_small by lia. rewrite IH by lia. f_equal; lia.
Qed.

Lemma utf8ToLatin1_size_text cs rest fuel in_len sz :
  Forall is_text cs -> (length cs < fuel)%nat ->
  Z.of_nat (length (utf8_text cs)) <= in_len < 2 ^ 64 ->
  utf8ToLatin1_size fuel (utf8_text cs ++ 0 :: rest) in_len sz = Some (sz + Z.of_nat (length cs)).
Proof.
  intros Hcs Hf Hl. replace fuel with (length cs + S (fuel - S (length cs)))%nat by lia.
  rewrite utf8ToLatin1_size_app by done. cbn. by case_match.
Qed.

Lemma utf8ToLatin1_store_text cs rest fuel in_len done_ k :
  Forall is_text cs -> (length cs < fuel)%nat ->
  Z.of_nat (length (utf8_text cs)) <= in_len < 2 ^ 64 ->
  utf8ToLatin1_store fuel (utf8_text cs ++ 0 :: rest) in_len
    (done_ ++ replicate (length cs + k) 0) (length done_)
  = Some (done_ ++ map to_latin1 cs ++ replicate k 0).
Proof.
  intros Hcs. revert fuel in_len done_. induction Hcs as [|c cs [Hpos Hc] _ IH];
    intros [|fuel] in_len done_ Hf Hl; simpl in Hf; try lia.
  - cbn. by case_match.
  - rewrite utf8_text_cons, length_app in Hl. rewrite utf8_text_cons, <- app_assoc.
    pose proof (utf8_encode_length c). destruct (utf8_encode_head c Hpos) as (b & t & E & Hb).
    cbn [utf8ToLatin1_store]. rewrite (proj2 (Z.eqb_neq in_len 0)) by lia.
    rewrite ucs4_encode by (done || lia).
    rewrite E at 1. cbn [app head mbind option_bind]. rewrite (proj2 (Z.eqb_neq b 0)) by done.
    cbn [fst snd length Nat.add replicate]. rewrite wr_app. cbn [mbind option_bind].
    rewrite Nat2Z.id, drop_app_length. rewrite uwrap_small by lia.
    replace (if 0xff <? c then 63 else u8 c) with (to_latin1 c)
      by (unfold to_latin1; bcase; [done|]; symmetry; apply uwrap_small; lia).
    specialize (IH fuel (in_len - Z.of_nat (length (utf8_encode c)))
      (done_ ++ [to_latin1 c]) ltac:(lia) ltac:(lia)).
    rewrite <- app_assoc, length_app, Nat.add_1_r in IH. cbn [app] in IH.
    rewrite IH. by rewrite <- app_assoc.
Qed.

Lemma utf8ToLatin1_text cs rest :
  Forall is_text cs -> Z.of_nat (length (utf8_text cs)) < 4294967295 ->
  lorieUtf8ToLatin1 (utf8_text cs ++ 0 :: rest) = Some (map to_latin1 cs).
Proof.
  intros Hcs Hl. unfold lorieUtf8ToLatin1. pose proof (utf8_text_length cs).
  assert (length cs < S (length (utf8_text cs ++ 0%Z :: rest)))%nat by (rewrite length_app; simpl; lia).
  change (u64 (-1)) with 18446744073709551615.
  rewrite utf8ToLatin1_size_text by (done || lia). cbn [mbind option_bind].
  replace (Z.to_nat (0 + Z.of_nat (length cs)) + 1)%nat with (length cs + 1)%nat by lia.
  rewrite (utf8ToLatin1_store_text cs rest _ _ [] 1) by (done || lia).
  cbn [mbind option_bind app replicate]. f_equal. apply cstr_app_nul.
  apply Forall_map. eapply Forall_impl; [exact Hcs|]. intros c; apply to_latin1_char.
Qed.

(** ** The UTF-8 conversion of Latin-1 text *)

Lemma latin1ToUTF8_loop_text s rest done_ k :
  Forall is_char s -> (2 * length s <= k)%nat ->
  exists k', latin1ToUTF8_loop (done_ ++ replicate k 0) (s ++ 0 :: rest) (length done_)
    = Some (done_ ++ utf8_text s ++ replicate k' 0) /\ (length (utf8_text s) + k' = k)%nat.
Proof.
  intros Hs. revert done_ k. induction Hs as [|c s Hc _ IH]; intros done_ k Hk; simpl in Hk.
  - exists k. split; [done|simpl; lia].
  - unfold is_char in Hc. rewrite utf8_text_cons, length_app. destruct k as [|[|k]]; try lia.
    cbn [app latin1ToUTF8_loop length]. rewrite (proj2 (Z.eqb_neq c 0)) by lia.
    destruct (Z.ltb_spec c 128).
    + change (replicate (S (S k)) 0) with (0 :: replicate (S k) 0).
      rewrite wr_app. cbn [mbind option_bind].
      destruct (IH (done_ ++ [c]) (S k)) as (k' & E & Hk'); [lia|].
      rewrite <- app_assoc, length_app, Nat.add_1_r in E. cbn [app] in E.
      exists k'. rewrite E. unfold utf8_encode. rewrite (proj2 (Z.ltb_lt c 128)) by lia.
      split; [by rewrite <- app_assoc|simpl; lia].
    + change (replicate (S (S k)) 0) with (0 :: 0 :: replicate k 0).
      rewrite wr_app. cbn [mbind option_bind].
      replace (u8 (0xc2 + (if 0xbf <? c then 1 else 0))) with (0xc0 + c / 64)
        by (unfold uwrap; bcase; Z.div_mod_to_equations; lia).
      replace (u8 (Z.land c 0x3f + 0x80)) with (0x80 + c mod 64)
        by (change 0x3f with (2 ^ 6 - 1); rewrite land_ones_mod by lia;
            unfold uwrap; Z.div_mod_to_equations; lia).
      rewrite (cons_middle (0xc0 + c / 64)), app_assoc.
      replace (S (length done_)) with (length (done_ ++ [0xc0 + c / 64]))
        by (rewrite length_app; simpl; lia).
      rewrite wr_app. cbn [mbind option_bind].
      destruct (IH (done_ ++ [0xc0 + c / 64; 0x80 + c mod 64]) k) as (k' & E & Hk'); [lia|].
      exists k'. rewrite utf8_encode_latin1 by lia. split; [|simpl; lia].
      replace (S (length (done_ ++ [0xc0 + c / 64])))
        with (length (done_ ++ [0xc0 + c / 64; 0x80 + c mod 64])) by (rewrite !length_app; simpl; lia).
      rewrite <- !app_assoc in E |- *. exact E.
Qed.

(** ** Checking UTF-8 *)

Lemma checkUTF8_step_encode pre c post b t :
  is_text c -> utf8_encode c = b :: t ->
  checkUTF8_step (pre ++ utf8_encode c ++ post) (length pre) b
  = Some (Some (length (utf8_encode c))).
Proof.
  intros [Hpos Hc] E. assert (0 < c < 0x110000) by (unfold is_scalar in Hc; lia).
  unfold checkUTF8_step, rd.
  rewrite !(lookup_app_r pre) by lia. rewrite !Nat.add_sub_swap, !Nat.sub_diag by lia.
  revert E. unfold utf8_encode.
  destruct (Z.ltb_spec c 0x80); [|destruct (Z.ltb_spec c 0x800); [|destruct (Z.ltb_spec c 0x10000)]];
    intros [= <- <-];
    cbn [app lookup list_lookup mbind option_bind Nat.add length];
    pose proof (Z.mod_pos_bound c 64 ltac:(lia));
    pose proof (Z.mod_pos_bound (c / 64) 64 ltac:(lia));
    pose proof (Z.mod_pos_bound (c / 4096) 64 ltac:(lia)).
  - by mask_tests.
  - assert (0 <= c / 64 < 32) by (split; [apply Z.div_pos|apply Z.div_lt_upper_bound]; lia).
    by mask_tests.
  - assert (0 <= c / 4096 < 16) by (split; [apply Z.div_pos|apply Z.div_lt_upper_bound]; lia).
    by mask_tests.
  - assert (0 <= c / 262144 < 5) by (split; [apply Z.div_pos|apply Z.div_lt_upper_bound]; lia).
    by mask_tests.
Qed.

Lemma checkUTF8_loop_text pre cs rest fuel size :
  Forall is_text cs -> (length cs < fuel)%nat ->
  checkUTF8_loop fuel (pre ++ utf8_text cs ++ 0 :: rest) size (length pre) = Some true.
Proof.
  intros Hcs. revert pre fuel. induction Hcs as [|c cs Ht _ IH]; intros pre [|fuel] Hf;
    simpl in Hf; try lia; cbn [checkUTF8_loop]; unfold rd.
  - rewrite lookup_app_r, Nat.sub_diag by lia. done.
  - rewrite utf8_text_cons, <- app_assoc.
    destruct (utf8_encode_head c (proj1 Ht)) as (b & t & E & Hb).
    rewrite lookup_app_r, Nat.sub_diag by lia.
    replace ((utf8_encode c ++ utf8_text cs ++ 0 :: rest) !! 0%nat) with (Some b) by (by rewrite E).
    cbn [mbind option_bind]. rewrite (proj2 (Z.eqb_neq b 0)) by done.
    case_decide; [|done]. rewrite (checkUTF8_step_encode _ _ _ _ t) by done.
    cbn [mbind option_bind].
    specialize (IH (pre ++ utf8_encode c) fuel ltac:(lia)).
    rewrite <- app_assoc, length_app in IH. exact IH.
Qed.

(** A NUL within the array stops the checker: it never reads past it. *)
Lemma checkUTF8_step_safe s rest ix c k :
  Forall is_char s -> (s ++ 0 :: rest) !! ix = Some c -> c <> 0 ->
  (ix < length s)%nat ->
  exists r, checkUTF8_step (s ++ 0 :: rest) ix c = Some r /\
    (r = Some k -> (1 <= k)%nat /\ (ix + k <= length s)%nat).
Proof.
  intros Hs Hc Hc0 Hix. unfold checkUTF8_step, rd.
  assert (forall j, (j <= length s)%nat -> exists d, (s ++ 0 :: rest) !! j = Some d /\
    (Z.land d 0xc0 = 0x80 -> (j < length s)%nat)) as Hrd.
  { intros j Hj. destruct (decide (j < length s)%nat).
    - destruct (lookup_lt_is_Some_2 s j) as [d Hd]; [done|].
      exists d. rewrite lookup_app_l by done. done.
    - assert (j = length s) as -> by lia. exists 0.
      rewrite lookup_app_r, Nat.sub_diag by lia. split; [done|]. by cbn. }
  destruct (Z.land c 0x80 =? 0); [eexists; split; [done|]; intros [= <-]; lia|].
  destruct (Hrd (ix + 1)%nat ltac:(lia)) as (d1 & -> & Hd1). cbn [mbind option_bind].
  destruct (Z.eqb_spec (Z.land d1 0xc0) 0x80) as [E1|]; cbn [negb]; [|eexists; by split].
  specialize (Hd1 E1).
  case_match; [|eexists; split; [done|]; intros [= <-]; lia].
  destruct (Hrd (ix + 2)%nat ltac:(lia)) as (d2 & -> & Hd2). cbn [mbind option_bind].
  destruct (Z.eqb_spec (Z.land d2 0xc0) 0x80) as [E2|]; cbn [negb]; [|eexists; by split].
  specialize (Hd2 E2).
  case_match; [|eexists; split; [done|]; intros [= <-]; lia].
  case_match; [eexists; by split|].
  destruct (Hrd (ix + 3)%nat ltac:(lia)) as (d3 & -> & Hd3). cbn [mbind option_bind].
  destruct (Z.eqb_spec (Z.land d3 0xc0) 0x80) as [E3|]; cbn [negb]; [|eexists; by split].
  specialize (Hd3 E3). eexists; split; [done|]; intros [= <-]; lia.
Qed.

Lemma checkUTF8_loop_safe s rest fuel size ix :
  Forall is_char s -> (ix <= length s)%nat -> (length s < ix + fuel)%nat ->
  is_Some (checkUTF8_loop fuel (s ++ 0 :: rest) size ix).
Proof.
  intros Hs. revert ix. induction fuel as [|fuel IH]; intros ix Hix Hf; [lia|].
  cbn [checkUTF8_loop]. unfold rd.
  destruct (lookup_lt_is_Some_2 (s ++ 0 :: rest) ix) as [c Hc]; [rewrite length_app; simpl; lia|].
  rewrite Hc. cbn [mbind option_bind].
  destruct (Z.eqb_spec c 0); [done|]. case_decide; [|done].
  assert (ix < length s)%nat.
  { destruct (decide (ix = length s)) as [->|]; [|lia].
    rewrite lookup_app_r, Nat.sub_diag in Hc by lia. by simplify_eq/=. }
  destruct (checkUTF8_step (s ++ 0 :: rest) ix c) as [[k|]|] eqn:E.
  - destruct (checkUTF8_step_safe s rest ix c k) as (r & E' & Hk); try done.
    assert (r = Some k) as -> by congruence. destruct (Hk eq_refl).
    cbn [mbind option_bind]. apply IH; lia.
  - by cbn.
  - destruct (checkUTF8_step_safe s rest ix c 0) as (r & E' & Hk); try done. congruence.
Qed.

Lemma checkUTF8_loop_ascii s fuel ix :
  Forall (fun c => 0 < c < 128) s -> checkUTF8_loop fuel s (length s) ix = None.
Proof.
  intros Hs. revert ix. induction fuel as [|fuel IH]; intros ix; [done|].
  cbn [checkUTF8_loop]. unfold rd. destruct (s !! ix) as [c|] eqn:E; [|done].
  cbn [mbind option_bind]. pose proof (Forall_lookup_1 _ _ _ _ Hs E) as Hc. simpl in Hc.
  rewrite (proj2 (Z.eqb_neq c 0)) by lia. apply lookup_lt_Some in E.
  rewrite decide_True by done. unfold checkUTF8_step. mask_tests. apply IH.
Qed.

Lemma convertLF_loop_spec src done_ k :
  (length src <= k)%nat ->
  exists k', convertLF_loop src (done_ ++ replicate k 0) (length done_)
    = Some (done_ ++ strip_cr src ++ replicate k' 0) /\
    (length (strip_cr src) + k' = k)%nat.
Proof.
  revert done_ k. induction src as [|c src IH]; intros done_ k Hk; simpl in Hk.
  - exists k. split; [done|simpl; lia].
  - cbn [convertLF_loop]. destruct (Z.eqb_spec c 13) as [->|].
    + destruct (IH done_ k) as (k' & E & Hk'); [lia|]. exists k'.
      unfold strip_cr. rewrite filter_cons_False by lia. by split.
    + destruct k as [|k]; [lia|]. cbn [replicate]. rewrite wr_app. cbn [mbind option_bind].
      destruct (IH (done_ ++ [c]) k) as (k' & E & Hk'); [lia|]. exists k'.
      rewrite <- app_assoc, length_app, Nat.add_1_r in E. cbn [app] in E. rewrite E.
      unfold strip_cr in *. rewrite filter_cons_True by done.
      split; [by rewrite <- app_assoc|simpl; lia].
Qed.

Lemma utf8_text_latin1_length s :
  Forall is_char s -> (length (utf8_text s) <= 2 * length s)%nat.
Proof.
  induction 1 as [|c s Hc _ IH]; [done|]. rewrite utf8_text_cons, length_app.
  unfold is_char in Hc. unfold utf8_encode. simpl.
  destruct (Z.ltb_spec c 128), (Z.ltb_spec c 2048); simpl; lia.
Qed.

Lemma utf8_text_char cs : Forall is_text cs -> Forall is_char (utf8_text cs).
Proof.
  induction 1 as [|c cs [Hpos Hc] _ IH]; [constructor|].
  rewrite utf8_text_cons. apply Forall_app_2; [|done].
  assert (0 < c < 0x110000) by (unfold is_scalar in Hc; lia). unfold utf8_encode, is_char.
  bcase; repeat constructor; Z.div_mod_to_equations; lia.
Qed.

(** ** Properties *)

(** Converting a Latin-1 string to UTF-8 in the buffer [lorieHandleSelection]
    allocates never writes out of it, and [lorieUtf8ToLatin1] gives the string back. *)
Theorem latin1_utf8_roundtrip (s : list Z) :
  Forall is_char s -> Z.of_nat (length s) < 2 ^ 30 ->
  exists utf8,
    lorieLatin1ToUTF8 (replicate ((length s + 1) * 2) 0) (s ++ [0]) = Some utf8 /\
    length utf8 = ((length s + 1) * 2)%nat /\
    cstr utf8 = utf8_text s /\
    lorieUtf8ToLatin1 utf8 = Some s.
Proof.
  intros Hs Hl. unfold lorieLatin1ToUTF8. pose proof (utf8_text_latin1_length s Hs).
  destruct (latin1ToUTF8_loop_text s [] [] ((length s + 1) * 2)) as (k & E & Hk); [done|lia|].
  cbn [app length] in E. exists (utf8_text s ++ replicate k 0). split; [done|].
  assert (Forall is_text s) by (eapply Forall_impl; [done|]; apply is_char_text).
  destruct k as [|k]; [lia|]. cbn [replicate].
  split; [rewrite length_app; simpl; rewrite length_replicate; lia|].
  split; [by apply cstr_app_nul, utf8_text_char|].
  rewrite utf8ToLatin1_text by (done || lia). f_equal.
  rewrite <- map_id. apply map_ext_Forall. eapply Forall_impl; [exact Hs|]. apply to_latin1_id.
Qed.

Lemma latin1_utf8_roundtrip_witness :
  Forall is_char [104; 233; 255] /\
  exists utf8, lorieLatin1ToUTF8 (replicate 8 0) [104; 233; 255; 0] = Some utf8 /\
    lorieUtf8ToLatin1 utf8 = Some [104; 233; 255].
Proof.
  assert (Forall is_char [104; 233; 255]) as H by (repeat constructor).
  split; [exact H|].
  destruct (latin1_utf8_roundtrip [104; 233; 255] H eq_refl) as (u & E & _ & _ & R).
  exists u. exact (conj E R).
Defined.

(** [lorieUtf8ToLatin1] decodes every NUL-terminated UTF-8 text into its
    characters, replacing those above U+00FF by '?', without leaving its buffers. *)
Theorem utf8ToLatin1_decodes_text (cs rest : list Z) :
  Forall is_text cs -> Z.of_nat (length (utf8_text cs)) < 4294967295 ->
  lorieUtf8ToLatin1 (utf8_text cs ++ 0 :: rest)
  = Some (map (fun c => if 0xff <? c then 63 else c) cs).
Proof. exact (utf8ToLatin1_text cs rest). Qed.

Lemma utf8ToLatin1_decodes_text_witness :
  lorieUtf8ToLatin1 (utf8_text [65; 0xe9; 0x20ac; 0x1f600] ++ [0]) = Some [65; 0xe9; 63; 63].
Proof.
  apply (utf8ToLatin1_decodes_text [65; 0xe9; 0x20ac; 0x1f600] []); [|reflexivity].
  repeat constructor; unfold is_scalar; lia.
Defined.

(** On NUL-terminated data [lorieCheckUTF8] never reads past the NUL, and it
    accepts every UTF-8 text. *)
Theorem checkUTF8_terminated (s rest : list Z) (size : nat) :
  Forall is_char s ->
  is_Some (lorieCheckUTF8 (s ++ 0 :: rest) size) /\
  (forall cs, Forall is_text cs -> s = utf8_text cs ->
     lorieCheckUTF8 (s ++ 0 :: rest) size = Some true).
Proof.
  intros Hs. unfold lorieCheckUTF8. rewrite length_app. split.
  - apply checkUTF8_loop_safe; [done|simpl; lia..].
  - intros cs Hcs ->. pose proof (utf8_text_length cs).
    apply (checkUTF8_loop_text [] cs); [done|simpl; lia].
Qed.

Lemma checkUTF8_terminated_witness :
  lorieCheckUTF8 (utf8_text [65; 0x20ac] ++ 0 :: []) 4 = Some true.
Proof.
  assert (Forall is_text [65; 0x20ac]) as H by (repeat constructor; unfold is_scalar; lia).
  exact (proj2 (checkUTF8_terminated (utf8_text [65; 0x20ac]) [] 4 (utf8_text_char _ H))
           [65; 0x20ac] H eq_refl).
Defined.

(** C0: [lorieHandleSelection] passes [prop->data] and [prop->size]: on data of
    exactly that size, which X11 does not terminate, the checker reads past the end. *)
Theorem checkUTF8_unterminated_overread (data : list Z) :
  Forall (fun c => 0 < c < 128) data -> lorieCheckUTF8 data (length data) = None.
Proof. intros H. by apply checkUTF8_loop_ascii. Qed.

Lemma checkUTF8_unterminated_overread_witness : lorieCheckUTF8 [104; 105] 2 = None.
Proof. apply (checkUTF8_unterminated_overread [104; 105]). repeat constructor. Defined.

(** Text that ends in a truncated two-byte sequence makes [lorieUtf8ToLatin1]
    swallow the terminating NUL and read past the end of the string. *)
Theorem utf8ToLatin1_truncated_overread (cs : list Z) (b : Z) :
  Forall is_text cs -> 0xc0 <= b < 0xe0 -> Z.of_nat (length (utf8_text cs)) < 2 ^ 32 ->
  lorieUtf8ToLatin1 (utf8_text cs ++ [b; 0]) = None.
Proof.
  intros Hcs Hb Hl. unfold lorieUtf8ToLatin1. pose proof (utf8_text_length cs).
  change (u64 (-1)) with 18446744073709551615. rewrite length_app.
  replace (S (length (utf8_text cs) + length [b; 0%Z]))%nat
    with (length cs + S (S (1 + length (utf8_text cs) - length cs)))%nat by (simpl; lia).
  rewrite utf8ToLatin1_size_app by (done || lia).
  cbn [utf8ToLatin1_size]. rewrite ucs4_truncated by lia.
  cbn [head mbind option_bind fst]. change (Z.to_nat 2) with 2%nat. cbn [drop head].
  rewrite uwrap_small by lia. by mask_tests.
Qed.

Lemma utf8ToLatin1_truncated_overread_witness : lorieUtf8ToLatin1 [65; 0xc3; 0] = None.
Proof.
  apply (utf8ToLatin1_truncated_overread [65] 0xc3); [|lia|reflexivity].
  repeat constructor; unfold is_scalar; lia.
Defined.

(** [lorieConvertLF] removes exactly the carriage returns, into a zeroed buffer
    of [size + 1] bytes it never overruns and leaves NUL-terminated. *)
Theorem convertLF_filters (src : list Z) (size : nat) :
  (size <= length src)%nat ->
  exists k, lorieConvertLF src (replicate (size + 1) 0) size
    = Some (strip_cr (take size src) ++ replicate (S k) 0) /\
  (length (strip_cr (take size src)) + S k = size + 1)%nat.
Proof.
  intros H. unfold lorieConvertLF. rewrite decide_True by done.
  pose proof (length_filter (fun c : Z => c <> 13) (take size src)).
  change (filter (fun c : Z => c <> 13) (take size src)) with (strip_cr (take size src)) in *.
  assert (length (take size src) = size) by (rewrite length_take; lia).
  destruct (convertLF_loop_spec (take size src) [] (size + 1)) as (k & E & Hk); [lia|].
  destruct k as [|k]; [lia|]. by exists k.
Qed.

Lemma convertLF_filters_witness :
  exists k, lorieConvertLF [97; 13; 10; 98] (replicate 5 0) 4 = Some ([97; 10; 98] ++ replicate (S k) 0).
Proof.
  destruct (convertLF_filters [97; 13; 10; 98] 4) as (k & E & _); [simpl; lia|].
  exists k. exact E.
Defined.
