(* ===== verification/Shmem.v ===== *)
(** * System V shared memory over ashmem (lorie/shm/shmem.c)

    The process-wide table of segments, the identifiers that carry the owner's
    socket number, and the operations [shmget], [shmat], [shmdt], [shmctl], with
    the request handler of the listening thread. What the kernel answers to a
    call is an argument ([os]), one record per operation, so that every
    sequence of answers is covered. *)

From S2P Require Import Prelude.

(** ** State *)

Record shmem_t := mk_shmem {
  seg_id : Z;
  seg_addr : Z;               (* 0 is NULL *)
  seg_descriptor : Z;
  seg_size : Z;
  seg_markedForDeletion : bool;
  seg_key : Z;
}.

(** What the operations ask the kernel to do, in order. *)
Inductive os_event :=
| Close (fd : Z)
| Munmap (addr size : Z)
| Unlink (key : Z)
| Symlink (key shmid : Z).

(** The file's globals. [shmem_amount] is the length of [shmem]; [mutex] is
    whether the mutex is held; [trace] is newest first. *)
Record ashv := mk_ashv {
  shmem : list shmem_t;
  ashv_local_socket_id : Z;
  ashv_pid_setup : Z;
  ashv_listening_thread_id : Z;
  shmem_counter : Z;
  mutex : bool;
  errno : Z;
  trace : list os_event;
  syscall_supported : bool;
}.

Definition ashv_init : ashv := mk_ashv [] 0 0 0 0 false 0 [] false.

Definition set_shmem l st := mk_ashv l (ashv_local_socket_id st) (ashv_pid_setup st)
  (ashv_listening_thread_id st) (shmem_counter st) (mutex st) (errno st) (trace st) (syscall_supported st).
Definition set_socket_id v st := mk_ashv (shmem st) v (ashv_pid_setup st)
  (ashv_listening_thread_id st) (shmem_counter st) (mutex st) (errno st) (trace st) (syscall_supported st).
Definition set_pid v st := mk_ashv (shmem st) (ashv_local_socket_id st) v
  (ashv_listening_thread_id st) (shmem_counter st) (mutex st) (errno st) (trace st) (syscall_supported st).
Definition set_thread v st := mk_ashv (shmem st) (ashv_local_socket_id st) (ashv_pid_setup st)
  v (shmem_counter st) (mutex st) (errno st) (trace st) (syscall_supported st).
Definition set_counter v st := mk_ashv (shmem st) (ashv_local_socket_id st) (ashv_pid_setup st)
  (ashv_listening_thread_id st) v (mutex st) (errno st) (trace st) (syscall_supported st).
Definition set_mutex v st := mk_ashv (shmem st) (ashv_local_socket_id st) (ashv_pid_setup st)
  (ashv_listening_thread_id st) (shmem_counter st) v (errno st) (trace st) (syscall_supported st).
Definition set_errno v st := mk_ashv (shmem st) (ashv_local_socket_id st) (ashv_pid_setup st)
  (ashv_listening_thread_id st) (shmem_counter st) (mutex st) v (trace st) (syscall_supported st).
Definition emit e st := mk_ashv (shmem st) (ashv_local_socket_id st) (ashv_pid_setup st)
  (ashv_listening_thread_id st) (shmem_counter st) (mutex st) (errno st) (e :: trace st) (syscall_supported st).

Definition android_shmem_sysv_shm_force (enable : bool) (st : ashv) : ashv :=
  mk_ashv (shmem st) (ashv_local_socket_id st) (ashv_pid_setup st)
    (ashv_listening_thread_id st) (shmem_counter st) (mutex st) (errno st) (trace st) enable.

(** Answers of the owner of a remote segment, in the order they are awaited:
    the calls' results, the key and the descriptor received, the region's size. *)
Record remote_io := mk_remote {
  r_socket : Z; r_connect : Z; r_sent : Z; r_read : Z; r_key : Z; r_fd : Z; r_size : Z;
}.

Record os := mk_os {
  os_getpid : Z;
  os_pagesize : Z;
  os_socket : Z;
  os_bind : Z -> Z;                     (* by socket number *)
  os_listen : Z;
  os_thread : Z;
  os_open_ashmem : Z; os_set_name : Z; os_set_size : Z;
  os_mmap : Z -> Z -> Z -> Z -> option Z;  (* hint, size, prot, fd *)
  os_readlink : nat -> option Z;        (* by round of the loop; the number in the link *)
  os_symlink : nat -> Z;
  os_remote : nat -> Z -> remote_io;
  os_sys_shmget : Z -> Z -> Z -> Z;     (* the kernel's own System V calls *)
  os_sys_shmat : Z -> Z -> Z -> Z;
  os_sys_shmdt : Z -> Z;
  os_sys_shmctl : Z -> Z -> Z;
}.

Definition EINVAL : Z := 22.
Definition ENOMEM : Z := 12.
Definition IPC_PRIVATE : Z := 0.
Definition IPC_RMID : Z := 0.
Definition IPC_STAT : Z := 2.

(** ** Detection of proot *)

(** [status] is what was read of [/proc/self/status] ([None]: it did not open);
    [exe_is_proot] is the outcome of the lines after the test of the tracer.
    [sscanf] on the NULL that [strstr] answered is undefined: [None]. *)
Definition isProot (status : option string) (exe_is_proot : bool) : option bool :=
  match status with
  | None => Some false
  | Some buf =>
      match String.index 0 "TracerPid:" buf with
      | Some _ => Some false
      | None => None
      end
  end.

(** The constructor: probe the system calls under proot; ENOSYS is 38. *)
Definition check_syscall_support (status : option string) (exe_is_proot : bool)
    (errno_after : Z) (st : ashv) : option ashv :=
  isProot status exe_is_proot ≫= fun p : bool =>
    Some (if p then if negb (errno_after =? 38) then android_shmem_sysv_shm_force true st else st
          else st).

(** ** Identifiers *)

(** [ROUND_UP(N, S)] at [size_t]. *)
Definition ROUND_UP (N S : Z) : Z := u64 (u64 (u64 (N + S) - 1) / S * S).

(** [socket_id * 0x10000 + counter]: an [int] product plus an [unsigned]. *)
Definition ashv_shmid_from_counter (st : ashv) (counter : Z) : Z :=
  i32 (u32 (i32 (ashv_local_socket_id st * 0x10000)) + u32 counter).

Definition ashv_socket_id_from_shmid (shmid : Z) : Z := Z.quot shmid 0x10000.

Fixpoint find_index (l : list shmem_t) (shmid : Z) : option nat :=
  match l with
  | [] => None
  | s :: l' => if seg_id s =? shmid then Some 0%nat else S <$> find_index l' shmid
  end.

(** [None] is the [-1] of the source. *)
Definition ashv_find_local_index (st : ashv) (shmid : Z) : option nat :=
  find_index (shmem st) shmid.

(** ** Helpers *)

Section with_os.
Context (o : os).

Definition ashv_check_pid (st : ashv) : ashv :=
  if ashv_pid_setup st =? 0 then set_pid (os_getpid o) st
  else if negb (ashv_pid_setup st =? os_getpid o) then
    set_shmem [] (set_mutex false (set_thread 0 (set_socket_id 0 (set_pid (os_getpid o) st))))
  else st.

(** The descriptor, or a negative error; a failing [ioctl] closes it. *)
Definition ashmem_create_region (st : ashv) : Z * ashv :=
  if os_open_ashmem o <? 0 then (os_open_ashmem o, st)
  else if os_set_name o <? 0 then (os_set_name o, emit (Close (os_open_ashmem o)) st)
  else if os_set_size o <? 0 then (os_set_size o, emit (Close (os_open_ashmem o)) st)
  else (os_open_ashmem o, st).

(** [memmove] over the removed entry; an index out of the table would corrupt it. *)
Definition android_shmem_delete (idx : nat) (st : ashv) : ashv :=
  match shmem st !! idx with
  | None => st
  | Some s =>
      let st1 := if seg_descriptor s =? 0 then st else emit (Close (seg_descriptor s)) st in
      set_shmem (delete idx (shmem st1)) st1
  end.

Definition ashv_read_remote_segment (round : nat) (shmid : Z) (st : ashv) : option nat * ashv :=
  let r := os_remote o round shmid in
  let sock := r_socket r in
  if sock =? -1 then (None, st)
  else if negb (r_connect r =? 0) then (None, emit (Close sock) st)
  else if negb (r_sent r =? 4) then (None, emit (Close sock) st)
  else if negb (r_read r =? 4) then (None, emit (Close sock) st)
  else if r_fd r <? 0 then (None, emit (Close sock) st)
  else
    let st1 := emit (Close sock) st in
    let size := i32 (r_size r) in
    if (size =? 0) || (size =? -1) then (None, st1)
    else
      let idx := length (shmem st1) in
      (Some idx,
       set_shmem (shmem st1 ++ [mk_shmem shmid 0 (r_fd r) (u64 size) false (r_key r)]) st1).

(** ** The listening thread *)

(** One connection that asked for [shmid]: the key and descriptor it is sent. *)
Definition ashv_thread_function (shmid : Z) (st : ashv) : option (Z * Z) :=
  match ashv_find_local_index st shmid with
  | Some idx => s ← shmem st !! idx; Some (seg_key s, seg_descriptor s)
  | None => None
  end.

(** ** [shmget] *)

(** Bind the first free of the 4096 numbers that follow the pid. *)
Fixpoint bind_loop (n : nat) (i : Z) : option Z :=
  match n with
  | O => None
  | S n' =>
      let sid := Z.land (os_getpid o + i) 0xffff in
      if negb (os_bind o sid =? 0) then bind_loop n' (i + 1) else Some sid
  end.

(** Start the listening thread if it does not run; [false] is an error return. *)
Definition shmget_listen (st : ashv) : bool * ashv :=
  if negb (ashv_listening_thread_id st =? 0) then (true, st)
  else if os_socket o =? 0 then (false, set_errno EINVAL st)
  else match bind_loop 4096 0 with
       | None => (false, set_errno ENOMEM (set_socket_id 0 st))
       | Some sid =>
           let st1 := set_socket_id sid st in
           if negb (os_listen o =? 0) then (false, set_errno ENOMEM st1)
           else (true, set_thread (os_thread o) st1)
       end.

Definition next_counter (st : ashv) : ashv :=
  set_counter (Z.land (u64 (shmem_counter st + 1)) 0x7fff) st.

(** The [while (true)] over the key's link, from round [round] on, with the
    identifier taken so far ([None] is -1). [inl] returns an existing segment,
    [inr] leaves the loop as the owner. *)
Fixpoint key_loop (fuel : nat) (key : Z) (round : nat) (shmid : option Z) (st : ashv)
  : option ((Z * ashv) + (option Z * ashv)) :=
  match fuel with
  | O => None
  | S fuel' =>
      let '(found, st1) :=
        match os_readlink o round with
        | None => (None, st)
        | Some target =>
            if target =? 0 then (None, emit (Unlink key) st)
            else
              let '(idx, st') :=
                match ashv_find_local_index st target with
                | Some i => (Some i, st)
                | None => ashv_read_remote_segment round target st
                end in
              match idx with
              | Some i => (Some i, st')
              | None => (None, emit (Unlink key) st')
              end
        end in
      match found with
      | Some i => s ← shmem st1 !! i; Some (inl (seg_id s, set_mutex false st1))
      | None =>
          let '(id, st2) :=
            match shmid with
            | Some id => (id, st1)
            | None => let st2 := next_counter st1 in
                      (ashv_shmid_from_counter st2 (shmem_counter st2), st2)
            end in
          if os_symlink o round =? 0 then Some (inr (Some id, emit (Symlink key id) st2))
          else key_loop fuel' key (S round) (Some id) st2
      end
  end.

(** The creation of the segment after the loop. *)
Definition shmget_create (key size : Z) (shmid : option Z) (st : ashv) : Z * ashv :=
  let '(id, st1) :=
    match shmid with
    | Some id => (id, st)
    | None => let st1 := next_counter st in
              (ashv_shmid_from_counter st1 (shmem_counter st1), st1)
    end in
  let size' := ROUND_UP size (os_pagesize o) in
  let '(fd, st2) := ashmem_create_region st1 in
  if fd <? 0 then (-1, set_mutex false st2)
  else (id, set_mutex false (set_shmem (shmem st2 ++ [mk_shmem id 0 fd size' false key]) st2)).

(** [None] when the key loop is still running after [fuel] rounds. *)
Definition shmget (fuel : nat) (key size flags : Z) (st : ashv) : option (Z * ashv) :=
  if syscall_supported st then
    Some (os_sys_shmget o key (if 2 ^ 63 - 1 <? size then 2 ^ 64 - 1 else size) flags, st)
  else
  let '(ok, st1) := shmget_listen (ashv_check_pid st) in
  if negb ok then Some (-1, st1)
  else
    let st2 := set_mutex true st1 in
    if key =? IPC_PRIVATE then Some (shmget_create key size None st2)
    else
      r ← key_loop fuel key 0 None st2;
      match r with
      | inl (id, st3) => Some (id, st3)
      | inr (id, st3) => Some (shmget_create key size id st3)
      end.

(** ** [shmat], [shmdt], [shmctl] *)

Definition set_addr (a : Z) (s : shmem_t) : shmem_t :=
  mk_shmem (seg_id s) a (seg_descriptor s) (seg_size s) (seg_markedForDeletion s) (seg_key s).
Definition mark (s : shmem_t) : shmem_t :=
  mk_shmem (seg_id s) (seg_addr s) (seg_descriptor s) (seg_size s) true (seg_key s).

(** The end of [shmat], once the segment is looked up: map it if it is not. *)
Definition shmat_attach (shmaddr shmflg : Z) (idx : option nat) (st : ashv) : Z * ashv :=
  match idx ≫= fun i => pair i <$> shmem st !! i with
  | None => (-1, set_errno EINVAL (set_mutex false st))
  | Some (i, s) =>
      let prot := Z.lor 1 (if shmflg =? 0 then 2 else 0) in
      let a := if seg_addr s =? 0
               then default 0 (os_mmap o shmaddr (seg_size s) prot (seg_descriptor s))
               else seg_addr s in
      (if a =? 0 then -1 else a,
       set_mutex false (set_shmem (<[i := set_addr a s]> (shmem st)) st))
  end.

Definition shmat (shmid shmaddr shmflg : Z) (st : ashv) : Z * ashv :=
  if syscall_supported st then (os_sys_shmat o shmid shmaddr shmflg, st)
  else
  let st1 := ashv_check_pid st in
  let socket_id := ashv_socket_id_from_shmid shmid in
  let st2 := set_mutex true st1 in
  match ashv_find_local_index st2 shmid with
  | Some i => shmat_attach shmaddr shmflg (Some i) st2
  | None =>
      if negb (socket_id =? ashv_local_socket_id st2)
      then let '(idx, st3) := ashv_read_remote_segment 0 shmid st2 in
           shmat_attach shmaddr shmflg idx st3
      else shmat_attach shmaddr shmflg None st2
  end.

(** The scan of [shmdt] from index [i]. *)
Fixpoint shmdt_loop (l : list shmem_t) (i : nat) (shmaddr : Z) (st : ashv) : ashv :=
  match l with
  | [] => set_mutex false st
  | s :: l' =>
      if seg_addr s =? shmaddr then
        let st1 := emit (Munmap (seg_addr s) (seg_size s)) st in
        let st2 := set_shmem (<[i := set_addr 0 s]> (shmem st1)) st1 in
        let st3 :=
          if seg_markedForDeletion s
             || negb (ashv_socket_id_from_shmid (seg_id s) =? ashv_local_socket_id st2)
          then android_shmem_delete i st2 else st2 in
        set_mutex false st3
      else shmdt_loop l' (S i) shmaddr st
  end.

Definition shmdt (shmaddr : Z) (st : ashv) : Z * ashv :=
  if syscall_supported st then (os_sys_shmdt o shmaddr, st)
  else
  let st1 := set_mutex true (ashv_check_pid st) in
  (0, shmdt_loop (shmem st1) 0 shmaddr st1).

(** What [IPC_STAT] stores in [buf] (the identity fields are the process's). *)
Record shmid_ds := mk_ds { shm_segsz : Z; shm_nattch : Z; shm_perm_key : Z; shm_perm_mode : Z;
  shm_perm_seq : Z }.

(** [buf] is whether the pointer is not NULL; the last component is what is stored. *)
Definition shmctl (shmid cmd : Z) (buf : bool) (st : ashv) : Z * ashv * option shmid_ds :=
  if syscall_supported st then (os_sys_shmctl o shmid cmd, st, None)
  else
  let st1 := ashv_check_pid st in
  if cmd =? IPC_RMID then
    let st2 := set_mutex true st1 in
    match ashv_find_local_index st2 shmid with
    | None => (0, set_mutex false st2, None)
    | Some i =>
        match shmem st2 !! i with
        | None => (0, set_mutex false st2, None)
        | Some s =>
            let st3 := if negb (seg_addr s =? 0)
                       then set_shmem (<[i := mark s]> (shmem st2)) st2
                       else android_shmem_delete i st2 in
            (0, set_mutex false st3, None)
        end
    end
  else if cmd =? IPC_STAT then
    if negb buf then (-1, set_errno EINVAL st1, None)
    else
      let st2 := set_mutex true st1 in
      match ashv_find_local_index st2 shmid with
      | None => (-1, set_errno EINVAL (set_mutex false st2), None)
      | Some i =>
          match shmem st2 !! i with
          | None => (-1, set_errno EINVAL (set_mutex false st2), None)
          | Some s => (0, set_mutex false st2, Some (mk_ds (seg_size s) 1 (seg_key s) 438 1))
          end
      end
  else (-1, set_errno EINVAL st1, None).
End with_os.

(** ** Steps of the process *)

(** One call of the interface, with whatever the kernel answers. *)
Inductive ashv_step : ashv -> ashv -> Prop :=
| step_shmget o fuel key size flags st r st' :
    shmget o fuel key size flags st = Some (r, st') -> ashv_step st st'
| step_shmat o shmid shmaddr shmflg st : ashv_step st (snd (shmat o shmid shmaddr shmflg st))
| step_shmdt o shmaddr st : ashv_step st (snd (shmdt o shmaddr st))
| step_shmctl o shmid cmd buf st : ashv_step st (snd (fst (shmctl o shmid cmd buf st)))
| step_force b st : ashv_step st (android_shmem_sysv_shm_force b st).

Inductive ashv_reachable : ashv -> Prop :=
| reach_init : ashv_reachable ashv_init
| reach_step st st' : ashv_reachable st -> ashv_step st st' -> ashv_reachable st'.

(** A segment of the table: an open descriptor, marked for deletion only while
    it is attached. *)
Definition seg_ok (s : shmem_t) : Prop :=
  0 <= seg_descriptor s /\ (seg_markedForDeletion s = true -> seg_addr s <> 0).

(** What the operations keep: the mutex free and every segment in order. *)
Definition ashv_ok (st : ashv) : Prop := mutex st = false /\ Forall seg_ok (shmem st).


(** A kernel for the witnesses: pid 1000, one ashmem descriptor, mappings at 4096. *)
Definition demo_os : os := mk_os 1000 4096 3 (fun _ => 0) 0 7 5 0 0 (fun _ _ _ _ => Some 4096)
  (fun _ => None) (fun _ => 0) (fun _ _ => mk_remote (-1) 0 0 0 0 0 0)
  (fun _ _ _ => -1) (fun _ _ _ => -1) (fun _ => -1) (fun _ _ => -1).

(** ** Lemmas *)



Lemma find_index_Some l id i :
  find_index l id = Some i ->
  exists s, l !! i = Some s /\ seg_id s = id /\
    (forall j s', (j < i)%nat -> l !! j = Some s' -> seg_id s' <> id).
Proof.
  revert i. induction l as [|s l IH]; intros i; [done|]. cbn.
  destruct (Z.eqb_spec (seg_id s) id) as [E|N].
  - intros [= <-]. exists s. split_and!; [done..|]. intros j s' Hj. lia.
  - intros (k & Hk & ->)%fmap_Some. destruct (IH _ Hk) as (t & Ht & Hid & Hmin).
    exists t. split_and!; [done..|]. intros [|j] s' Hj; cbn; [by intros [= <-]|].
    apply Hmin. lia.
Qed.



Lemma find_index_insert l i s t id :
  l !! i = Some s -> seg_id t = seg_id s -> find_index (<[i:=t]> l) id = find_index l id.
Proof.
  revert i. induction l as [|u l IH]; intros [|i] H E; try done; cbn in H; simplify_eq.
  - cbn. by rewrite E.
  - change (<[S i:=t]> (u :: l)) with (u :: <[i:=t]> l). cbn [find_index]. by rewrite (IH i).
Qed.

(** *** The invariant *)

Section invariant.
Context (o : os).

Lemma check_pid_ok st : ashv_ok st -> ashv_ok (ashv_check_pid o st).
Proof. intros [Hm Hs]. unfold ashv_check_pid. repeat case_match; by split. Qed.

Lemma delete_ok i st : Forall seg_ok (shmem st) -> Forall seg_ok (shmem (android_shmem_delete i st)).
Proof.
  intros H. unfold android_shmem_delete. case_match; [|done].
  case_match; cbn; by apply Forall_delete.
Qed.

Lemma remote_ok round id st :
  Forall seg_ok (shmem st) -> Forall seg_ok (shmem (snd (ashv_read_remote_segment o round id st))).
Proof.
  intros H. unfold ashv_read_remote_segment.
  do 4 (case_match; [done|]).
  destruct (Z.ltb_spec (r_fd (os_remote o round id)) 0); [done|].
  case_match; [done|]. cbn. apply Forall_app_2; [done|]. repeat constructor; cbn; lia || done.
Qed.

Lemma create_ok key size id st :
  Forall seg_ok (shmem st) -> ashv_ok (snd (shmget_create o key size id st)).
Proof.
  intros H. unfold shmget_create, ashmem_create_region, ashv_ok.
  destruct id; cbn;
    (destruct (Z.ltb_spec (os_open_ashmem o) 0) as [E|];
     [rewrite (proj2 (Z.ltb_lt _ _) E); by split|]);
    (destruct (Z.ltb_spec (os_set_name o) 0) as [E|];
     [rewrite (proj2 (Z.ltb_lt _ _) E); by split|]);
    (destruct (Z.ltb_spec (os_set_size o) 0) as [E|];
     [rewrite (proj2 (Z.ltb_lt _ _) E); by split|]);
    rewrite (proj2 (Z.ltb_ge _ _)) by lia; cbn; (split; [done|]);
    apply Forall_app_2; [done| |done|]; repeat constructor; cbn; lia || done.
Qed.

Lemma key_loop_ok fuel key round id st r :
  key_loop o fuel key round id st = Some r -> Forall seg_ok (shmem st) ->
  match r with
  | inl (_, st') => ashv_ok st'
  | inr (_, st') => Forall seg_ok (shmem st')
  end.
Proof.
  revert round id st. induction fuel as [|fuel IH]; intros round id st; [done|].
  cbn [key_loop]. intros E Hs.
  assert (exists found st1, Forall seg_ok (shmem st1) /\
    match found with
    | Some i => s ← shmem st1 !! i; Some (inl (seg_id s, set_mutex false st1))
    | None =>
        let '(id, st2) :=
          match id with
          | Some id => (id, st1)
          | None => let st2 := next_counter st1 in
                    (ashv_shmid_from_counter st2 (shmem_counter st2), st2)
          end in
        if os_symlink o round =? 0 then Some (inr (Some id, emit (Symlink key id) st2))
        else key_loop o fuel key (S round) (Some id) st2
    end = Some r) as (found & st1 & H1 & E1).
  { revert E. destruct (os_readlink o round) as [z|]; [|by intros E; exists None, st].
    destruct (z =? 0); [by intros E; exists None, (emit (Unlink key) st)|].
    destruct (ashv_find_local_index st z) as [i|]; [by intros E; exists (Some i), st|].
    pose proof (remote_ok round z st Hs) as Hr.
    destruct (ashv_read_remote_segment o round z st) as [[i|] st'] eqn:Er; cbn in Hr; intros E.
    - eexists (Some i), st'. by split.
    - eexists None, (emit (Unlink key) st'). by split. }
  clear E. destruct found as [i|].
  - destruct (shmem st1 !! i); [|done]. cbn in E1. simplify_eq. by split.
  - destruct id as [id|]; cbn in E1; (case_match; [simplify_eq; done|]);
      by apply (IH _ _ _ E1).
Qed.

Lemma shmget_ok fuel key size flags st r st' :
  shmget o fuel key size flags st = Some (r, st') -> ashv_ok st -> ashv_ok st'.
Proof.
  unfold shmget. case_match; [by intros [= <- <-]|]. intros E Hok.
  apply check_pid_ok in Hok. revert E.
  destruct (shmget_listen o (ashv_check_pid o st)) as [ok st1] eqn:El.
  assert (ashv_ok st1) as [Hm Hs].
  { revert El. unfold shmget_listen. repeat case_match; intros [= <- <-]; done. }
  destruct ok; cbn [negb]; [|by intros [= <- <-]]. case_match.
  - intros [= E]. change st' with (snd (r, st')). rewrite <- E. by apply create_ok.
  - destruct (key_loop o fuel key 0 None (set_mutex true st1)) as [[[id st2]|[id st2]]|] eqn:Ek; [| |done].
    + cbn. intros [= <- <-]. by apply (key_loop_ok _ _ _ _ _ _ Ek).
    + cbn. intros [= E]. change st' with (snd (r, st')). rewrite <- E. apply create_ok. by apply (key_loop_ok _ _ _ _ _ _ Ek).
Qed.

Lemma shmat_attach_ok shmaddr shmflg idx st :
  Forall seg_ok (shmem st) -> ashv_ok (snd (shmat_attach o shmaddr shmflg idx st)).
Proof.
  intros Hs. unfold shmat_attach.
  destruct (idx ≫= _) as [[i s]|] eqn:E; [|by split].
  apply bind_Some in E as (j & -> & (s' & E & [= -> ->])%fmap_Some).
  pose proof (Forall_lookup_1 _ _ _ _ Hs E) as [Hd Hm]. split; [done|]. cbn.
  apply Forall_insert; [done|]. split; [done|]. cbn. intros M.
  rewrite (proj2 (Z.eqb_neq (seg_addr s') 0)); by apply Hm.
Qed.

Lemma shmat_ok shmid shmaddr shmflg st :
  ashv_ok st -> ashv_ok (snd (shmat o shmid shmaddr shmflg st)).
Proof.
  intros Hok. unfold shmat. case_match; [done|]. apply check_pid_ok in Hok as [Hm Hs].
  case_match; [by apply shmat_attach_ok|]. case_match; [|by apply shmat_attach_ok].
  pose proof (remote_ok 0 shmid (set_mutex true (ashv_check_pid o st)) Hs) as R.
  destruct (ashv_read_remote_segment _ _ _ _). by apply shmat_attach_ok.
Qed.

Lemma shmdt_loop_ok l i shmaddr st :
  Forall seg_ok (shmem st) -> drop i (shmem st) = l -> ashv_ok (shmdt_loop l i shmaddr st).
Proof.
  revert i. induction l as [|s l IH]; intros i Hs Hl; [by split|].
  assert (shmem st !! i = Some s) as Hi by (by rewrite <- (Nat.add_0_r i), <- lookup_drop, Hl).
  pose proof (Forall_lookup_1 _ _ _ _ Hs Hi) as [Hd Hm].
  cbn [shmdt_loop]. case_match.
  - split; [by case_match|]. cbn [set_mutex shmem].
    destruct (seg_markedForDeletion s) eqn:Em; cbn [orb].
    + unfold android_shmem_delete. cbn. rewrite list_lookup_insert_eq by (by apply lookup_lt_Some in Hi).
      case_match; cbn; rewrite list_delete_insert; by apply Forall_delete.
    + assert (Forall seg_ok (<[i:=set_addr 0 s]> (shmem st))).
      { apply Forall_insert; [done|]. split; [done|]. cbn. by rewrite Em. }
      case_match; [by apply delete_ok|done].
  - apply IH; [done|]. rewrite <- (skipn_skipn 1), Hl. done.
Qed.

Lemma shmdt_ok shmaddr st : ashv_ok st -> ashv_ok (snd (shmdt o shmaddr st)).
Proof.
  intros Hok. unfold shmdt. case_match; [done|]. apply check_pid_ok in Hok as [_ Hs].
  by apply shmdt_loop_ok.
Qed.

Lemma shmctl_ok shmid cmd buf st : ashv_ok st -> ashv_ok (snd (fst (shmctl o shmid cmd buf st))).
Proof.
  intros Hok. unfold shmctl. case_match; [done|]. apply check_pid_ok in Hok as [Hm Hs].
  case_match.
  - case_match; [|done]. case_match; [|done]. cbn. split; [done|]. cbn.
    destruct (Z.eqb_spec (seg_addr s) 0); cbn [negb]; [by apply delete_ok|].
    cbn. apply Forall_insert; [done|].
    by pose proof (Forall_lookup_1 _ _ _ _ Hs H2) as [Hd _].
  - case_match; [|done]. case_match; [done|]. case_match; [|done]. by case_match.
Qed.
End invariant.

(** *** Arithmetic of identifiers *)

Lemma shmid_low sid counter :
  0 <= sid < 0x8000 -> 0 <= counter <= 0x7fff ->
  i32 (u32 (i32 (sid * 0x10000)) + u32 counter) = sid * 65536 + counter.
Proof.
  intros Hs Hc. rewrite (swrap_small 32 (sid * 0x10000)) by lia.
  rewrite !uwrap_small by lia. rewrite swrap_small by lia. lia.
Qed.

Lemma shmid_high sid counter :
  0x8000 <= sid <= 0xffff -> 0 <= counter <= 0x7fff ->
  i32 (u32 (i32 (sid * 0x10000)) + u32 counter) = sid * 65536 + counter - 2 ^ 32.
Proof.
  intros Hs Hc. rewrite (uwrap_small 32 counter) by lia.
  unfold swrap, uwrap. Z.div_mod_to_equations. lia.
Qed.


(** *** The scan of [shmdt] *)

Lemma shmdt_loop_skip l1 l2 i a st :
  Forall (fun s => seg_addr s <> a) l1 ->
  shmdt_loop (l1 ++ l2) i a st = shmdt_loop l2 (i + length l1) a st.
Proof.
  intros H. revert i. induction H as [|s l1 Hs _ IH]; intros i; [by rewrite Nat.add_0_r|].
  cbn. rewrite (proj2 (Z.eqb_neq _ _) Hs), IH. f_equal. lia.
Qed.

(** Detaching at [a] works on the first segment mapped there: it stays, unmapped,
    unless it is marked or looks like another process's. *)
Lemma shmdt_first o l1 s l2 a st :
  syscall_supported st = false -> ashv_pid_setup st = os_getpid o -> shmem st = l1 ++ s :: l2 ->
  Forall (fun t => seg_addr t <> a) l1 -> seg_addr s = a -> seg_descriptor s <> 0 ->
  shmem (snd (shmdt o a st)) =
    (if seg_markedForDeletion s
        || negb (ashv_socket_id_from_shmid (seg_id s) =? ashv_local_socket_id st)
     then l1 ++ l2 else l1 ++ set_addr 0 s :: l2) /\
  trace (snd (shmdt o a st)) =
    (if seg_markedForDeletion s
        || negb (ashv_socket_id_from_shmid (seg_id s) =? ashv_local_socket_id st)
     then [Close (seg_descriptor s)] else []) ++ Munmap a (seg_size s) :: trace st.
Proof.
  intros Hsys Hpid Hl Hl1 Ha Hfd. unfold shmdt. rewrite Hsys.
  assert (ashv_check_pid o st = st \/ ashv_check_pid o st = set_pid (os_getpid o) st) as Hcp.
  { unfold ashv_check_pid. rewrite Hpid, Z.eqb_refl. case_match; auto. }
  assert (shmem (ashv_check_pid o st) = shmem st /\ trace (ashv_check_pid o st) = trace st /\
          ashv_local_socket_id (ashv_check_pid o st) = ashv_local_socket_id st) as (E1 & E2 & E3)
    by (by destruct Hcp as [-> | ->]).
  cbn [snd shmem set_mutex]. rewrite E1, Hl, shmdt_loop_skip by done.
  cbn [shmdt_loop Nat.add]. rewrite (proj2 (Z.eqb_eq _ _) Ha).
  cbn [emit set_shmem set_mutex shmem ashv_local_socket_id]. rewrite E1, Hl, E3.
  rewrite insert_app_r_alt, Nat.sub_diag by lia. cbn [insert list_insert].
  destruct (_ || _); [|cbn; by rewrite E2, Ha].
  unfold android_shmem_delete. cbn [shmem set_shmem].
  rewrite lookup_app_r, Nat.sub_diag by lia. cbn [lookup list_lookup].
  cbn [seg_descriptor set_addr]. rewrite (proj2 (Z.eqb_neq _ _) Hfd). cbn.
  rewrite delete_take_drop, take_app_length, drop_app_ge by lia.
  replace (S (length l1) - length l1)%nat with 1%nat by lia. by rewrite E2, Ha.
Qed.

(** *** The key loop *)

Lemma key_loop_stuck o fuel key round id st :
  (forall n, os_readlink o n = None) -> (forall n, os_symlink o n <> 0) ->
  key_loop o fuel key round id st = None.
Proof.
  intros Hr Hs. revert round id st. induction fuel as [|fuel IH]; intros round id st; [done|].
  cbn [key_loop]. rewrite Hr. destruct id; cbn -[next_counter];
    rewrite (proj2 (Z.eqb_neq _ _) (Hs round)); apply IH.
Qed.

Lemma remote_index o round id st i :
  fst (ashv_read_remote_segment o round id st) = Some i ->
  is_Some (shmem (snd (ashv_read_remote_segment o round id st)) !! i).
Proof.
  unfold ashv_read_remote_segment. repeat (case_match; [done|]). cbn. intros [= <-].
  by rewrite lookup_app_r, Nat.sub_diag by lia.
Qed.

(** The loop ends at the latest in a round whose [symlink] succeeds. *)
Lemma key_loop_ends o k fuel key round id st :
  os_symlink o (round + k) = 0 -> (k < fuel)%nat -> is_Some (key_loop o fuel key round id st).
Proof.
  intros Hsym. revert fuel round id st Hsym.
  induction k as [|k IH]; intros [|fuel] round id st Hsym Hf; try lia; cbn [key_loop].
  - rewrite Nat.add_0_r in Hsym. rewrite Hsym.
    destruct (os_readlink o round) as [t|]; [|by destruct id].
    destruct (t =? 0); [by destruct id|].
    destruct (ashv_find_local_index st t) as [i|] eqn:Ei.
    { destruct (find_index_Some _ _ _ Ei) as (s & -> & _). by cbn. }
    pose proof (remote_index o round t st) as R.
    destruct (ashv_read_remote_segment o round t st) as [[i|] st']; [|by destruct id].
    destruct (R i eq_refl) as [s Es]. cbn in Es. rewrite Es. by cbn.
  - replace (round + S k)%nat with (S round + k)%nat in Hsym by lia.
    assert (forall st', is_Some (key_loop o fuel key (S round) (match id with Some i => Some i
      | None => Some (ashv_shmid_from_counter (next_counter st') (shmem_counter (next_counter st'))) end)
      (match id with Some _ => st' | None => next_counter st' end))) as Hrec
      by (intros st'; apply IH; [done|lia]).
    destruct (os_readlink o round) as [t|];
      [|specialize (Hrec st); destruct id; by case_match].
    destruct (t =? 0); [specialize (Hrec (emit (Unlink key) st)); destruct id; by case_match|].
    destruct (ashv_find_local_index st t) as [i|] eqn:Ei.
    { destruct (find_index_Some _ _ _ Ei) as (s & -> & _). by cbn. }
    pose proof (remote_index o round t st) as R.
    destruct (ashv_read_remote_segment o round t st) as [[i|] st'].
    + destruct (R i eq_refl) as [s Es]. cbn in Es. rewrite Es. by cbn.
    + specialize (Hrec (emit (Unlink key) st')); destruct id; by case_match.
Qed.








(** ** Properties *)

(** C23: every sequence of calls that return, whatever the kernel answers, leaves the mutex free
    and a table whose segments have a descriptor and are marked only while attached. The calls
    that may not return are those of [shmget] with a key: from every such state it returns when
    one of its [symlink]s succeeds, and a private one always does; a call whose [readlink] and
    [symlink] keep failing spins with the mutex held and does not return. *)
Theorem ashv_reachable_ok (st : ashv) : ashv_reachable st ->
  ashv_ok st /\
  (forall o key size flags, (key = IPC_PRIVATE \/ exists k, os_symlink o k = 0) ->
     exists fuel r st', shmget o fuel key size flags st = Some (r, st')) /\
  (forall o key size flags, syscall_supported st = false -> (shmget_listen o (ashv_check_pid o st)).1 = true ->
     key <> IPC_PRIVATE -> (forall n, os_readlink o n = None) -> (forall n, os_symlink o n <> 0) ->
     forall fuel, shmget o fuel key size flags st = None).
Proof.
  intros Hr. split_and!.
  - induction Hr as [|st st' _ IH Hstep]; [by split|].
    inversion Hstep; subst; eauto using shmget_ok, shmat_ok, shmdt_ok, shmctl_ok.
  - intros o key size flags Hk. unfold shmget. destruct (syscall_supported st); [by exists 0%nat; eauto|].
    destruct (shmget_listen o (ashv_check_pid o st)) as [ok st1]. destruct ok; cbn [negb]; [|by exists 0%nat; eauto].
    destruct (Z.eqb_spec key IPC_PRIVATE) as [E|E]; [exists 0%nat; destruct (shmget_create _ _ _ _ _); eauto|].
    destruct Hk as [?|[k Hk]]; [done|]. exists (S k).
    destruct (key_loop_ends o k (S k) key 0 None (set_mutex true st1)) as [[[id st3]|[id st3]] ->]; [done|lia|..]; cbn;
      [eauto|destruct (shmget_create _ _ _ _ _); eauto].
  - intros o key size flags Hsys Hl Hkey Hrl Hsl fuel. unfold shmget. rewrite Hsys.
    destruct (shmget_listen o (ashv_check_pid o st)) as [ok st1]. cbn [fst] in Hl. subst ok. cbn [negb].
    rewrite (proj2 (Z.eqb_neq _ _) Hkey). by rewrite key_loop_stuck.
Qed.

(** The same kernel without a file system that takes links. *)
Definition no_links : os := mk_os 1000 4096 3 (fun _ => 0) 0 7 5 0 0 (fun _ _ _ _ => Some 4096)
  (fun _ => None) (fun _ => -1) (fun _ _ => mk_remote (-1) 0 0 0 0 0 0)
  (fun _ _ _ => -1) (fun _ _ _ => -1) (fun _ => -1) (fun _ _ => -1).

Lemma ashv_reachable_ok_witness :
  exists st, ashv_reachable st /\ length (shmem st) = 1%nat /\ ashv_ok st /\
    forall fuel, shmget no_links fuel 42 100 0 st = None.
Proof.
  destruct (shmget demo_os 5 IPC_PRIVATE 100 0 ashv_init) as [[r st]|] eqn:E; [|vm_compute in E; discriminate].
  exists st. assert (ashv_reachable st) as H
    by (eapply reach_step; [apply reach_init|eapply step_shmget; exact E]).
  destruct (ashv_reachable_ok st H) as (H1 & _ & H3).
  split; [exact H|]. split; [vm_compute in E; inversion E; reflexivity|]. split; [exact H1|].
  apply (H3 no_links); [vm_compute in E; inversion E; reflexivity..|discriminate|reflexivity|by intros n].
Defined.


(** After 32768 segments the counter gives the identifiers of segments that still exist:
    the new segment cannot be found behind the old one. *)
Example wrapped_counter_reuses :
  let st := mk_ashv [mk_shmem 65536001 8192 9 4096 false 0] 1000 1000 7 0x8000 false 0 [] false in
  match shmget demo_os 1 IPC_PRIVATE 100 0 st with
  | Some (id, st') => id = 65536001 /\ length (shmem st') = 2%nat /\ ashv_find_local_index st' id = Some 0%nat
  | None => False
  end.
Proof. by vm_compute. Qed.


(** Identifiers carry their owner: while the socket number has 15 bits, the number and
    the counter are read back from the identifier, so distinct counters give distinct segments. *)
Theorem shmid_carries_owner (st : ashv) (counter : Z) :
  0 <= ashv_local_socket_id st < 0x8000 -> 0 <= counter <= 0x7fff ->
  ashv_socket_id_from_shmid (ashv_shmid_from_counter st counter) = ashv_local_socket_id st /\
  Z.rem (ashv_shmid_from_counter st counter) 0x10000 = counter.
Proof.
  intros Hs Hc. unfold ashv_shmid_from_counter, ashv_socket_id_from_shmid.
  rewrite shmid_low by done. rewrite Z.quot_div_nonneg, Z.rem_mod_nonneg by lia.
  Z.div_mod_to_equations. lia.
Qed.

Lemma shmid_carries_owner_witness :
  ashv_socket_id_from_shmid (ashv_shmid_from_counter (set_socket_id 1000 ashv_init) 5) = 1000.
Proof.
  exact (proj1 (shmid_carries_owner (set_socket_id 1000 ashv_init) 5
    ltac:(cbn; lia) ltac:(lia))).
Defined.

(** When the pid gives a socket number of 16 bits the identifier is negative and its
    owner is misread, so a plain detach destroys the process's own unmarked segment. *)
Theorem shmdt_drops_own_high_pid (o : os) (st : ashv) (counter a : Z) (l1 l2 : list shmem_t) (s : shmem_t) :
  0x8000 <= ashv_local_socket_id st <= 0xffff -> 1 <= counter <= 0x7fff ->
  seg_id s = ashv_shmid_from_counter st counter -> seg_markedForDeletion s = false ->
  seg_addr s = a -> seg_descriptor s <> 0 ->
  syscall_supported st = false -> ashv_pid_setup st = os_getpid o ->
  shmem st = l1 ++ s :: l2 -> Forall (fun t => seg_addr t <> a) l1 ->
  ashv_socket_id_from_shmid (seg_id s) <> ashv_local_socket_id st /\
  shmem (snd (shmdt o a st)) = l1 ++ l2.
Proof.
  intros Hs Hc Hid Hm Ha Hfd Hsys Hpid Hl Hl1.
  assert (ashv_socket_id_from_shmid (seg_id s) <> ashv_local_socket_id st) as Hne.
  { rewrite Hid. unfold ashv_shmid_from_counter, ashv_socket_id_from_shmid.
    rewrite shmid_high by lia. 
    assert (Z.quot (ashv_local_socket_id st * 65536 + counter - 2 ^ 32) 0x10000 <= 0); [|lia].
    change 0 with (Z.quot 0 0x10000). apply Z.quot_le_mono; lia. }
  split; [done|].
  destruct (shmdt_first o l1 s l2 a st) as [-> _]; try done.
  by rewrite (proj2 (Z.eqb_neq _ _) Hne), orb_true_r.
Qed.

Lemma shmdt_drops_own_high_pid_witness :
  shmem (snd (shmdt demo_os 4096 (set_shmem [mk_shmem (-2147483647) 4096 5 4096 false 0]
    (set_pid 1000 (set_socket_id 0x8000 ashv_init))))) = [].
Proof.
  refine (proj2 (shmdt_drops_own_high_pid demo_os (set_shmem [mk_shmem (-2147483647) 4096 5 4096 false 0]
    (set_pid 1000 (set_socket_id 0x8000 ashv_init))) 1 4096 [] []
    (mk_shmem (-2147483647) 4096 5 4096 false 0) _ _ _ _ _ _ _ _ _ _));
    cbn; first [lia | reflexivity | constructor].
Defined.

(** The key loop of [shmget] ends at the latest in the first round whose [symlink]
    succeeds; while it keeps failing and no link can be read, it never ends. *)
Theorem key_loop_progress (o : os) (key : Z) (st : ashv) :
  (forall k, os_symlink o k = 0 -> is_Some (key_loop o (S k) key 0 None st)) /\
  ((forall n, os_readlink o n = None) -> (forall n, os_symlink o n <> 0) ->
   forall fuel, key_loop o fuel key 0 None st = None).
Proof.
  split.
  - intros k Hk. apply (key_loop_ends o k); [done|lia].
  - intros Hr Hs fuel. by apply key_loop_stuck.
Qed.

(** C0: [isProot] never answers true (the test of the tracer is inverted), so the probe of
    the constructor never enables the kernel's System V calls. *)
Theorem check_syscall_support_never_enables (status : option string) (exe : bool) (e : Z) (st st' : ashv) :
  isProot status exe <> Some true /\
  (check_syscall_support status exe e st = Some st' -> syscall_supported st' = syscall_supported st).
Proof.
  unfold check_syscall_support, isProot.
  destruct status as [buf|]; [destruct (String.index 0 "TracerPid:" buf)|]; cbn;
    (split; [done|]); intros [=]; by subst.
Qed.

Lemma check_syscall_support_never_enables_witness :
  exists st', check_syscall_support (Some "Name: x TracerPid: 12"%string) true 0 ashv_init = Some st' /\
    syscall_supported st' = false.
Proof.
  exists ashv_init. split; [reflexivity|].
  exact (proj2 (check_syscall_support_never_enables (Some "Name: x TracerPid: 12"%string) true 0
    ashv_init ashv_init) eq_refl).
Defined.
