(* ===== verification/Clipboard.v ===== *)
(** * The clipboard between X clients and Android ([lorie/clipboard.c])

    The server owns the CLIPBOARD selection on behalf of Android. A client that
    asks for it is answered from the cached text, or waits in a list until
    Android sends the text. In the other direction the server asks the X owner
    for its targets and its text and sends the text to Android. The state has
    the selections, the waiting requests and the clients that are connected:
    using a client that is gone is an error ([None]). *)

From S2P Require Import Prelude ClipboardText.

(** ** Data *)

Definition Success : Z := 0.
Definition BadAtom : Z := 5.
Definition BadMatch : Z := 8.
Definition BadAlloc : Z := 11.
Definition XA_ATOM : Z := 4.
Definition XA_INTEGER : Z := 19.
Definition XA_STRING : Z := 31.

(** The client of the server itself, and the NULL client. *)
Definition serverClient : Z := -1.
Definition NullClient : Z := 0.

Record Selection := { sel_atom : Z; sel_window : Z; sel_client : Z; sel_time : Z }.

(** [struct LorieDataTarget]. *)
Record LorieDataTarget := {
  t_client : Z; t_selection : Z; t_target : Z; t_property : Z; t_requestor : Z; t_time : Z;
}.

Inductive xEvent :=
  | SelectionRequest (owner time requestor selection target property : Z)
  | SelectionNotify (time requestor selection target property : Z)
  | SelectionClear (time window atom : Z).

Inductive effect :=
  | ESend (client : Z) (e : xEvent)
  | EChangeProperty (window property type format : Z) (data : list Z)
  | ERequestClipboard
  | ESendClipboard (text : list Z)
  | EOriginal (client : Z).

(** [effects] is the log of what the code did, oldest first; a string is the list
    of its bytes with the terminating NUL. *)
Record Clip := {
  selections : list Selection;
  pending : list LorieDataTarget;       (* lorieDataTargetHead *)
  cachedData : option (list Z);
  clipboardEnabled : bool;
  alive : gset Z;
  effects : list effect;
}.

Definition set_selections l s := {| selections := l; pending := pending s; cachedData := cachedData s;
  clipboardEnabled := clipboardEnabled s; alive := alive s; effects := effects s |}.
Definition set_pending l s := {| selections := selections s; pending := l; cachedData := cachedData s;
  clipboardEnabled := clipboardEnabled s; alive := alive s; effects := effects s |}.
Definition set_cached c s := {| selections := selections s; pending := pending s; cachedData := c;
  clipboardEnabled := clipboardEnabled s; alive := alive s; effects := effects s |}.
Definition emit e s := {| selections := selections s; pending := pending s; cachedData := cachedData s;
  clipboardEnabled := clipboardEnabled s; alive := alive s; effects := effects s ++ [e] |}.

Definition lorieEnableClipboardSync (enable : bool) (s : Clip) : Clip :=
  {| selections := selections s; pending := pending s; cachedData := cachedData s;
     clipboardEnabled := enable; alive := alive s; effects := effects s |}.

(** ** The server around the clipboard *)

(** [WriteEventsToClient]: nothing for the NULL and the server's client. *)
Definition WriteEventsToClient (client : Z) (e : xEvent) (s : Clip) : option Clip :=
  if (client =? NullClient) || (client =? serverClient) then Some s
  else if decide (client ∈ alive s) then Some (emit (ESend client e) s) else None.

Section clipboard.
(** The atoms of [lorieInitClipboard], the root window and the clock. *)
Context (xaTIMESTAMP xaTEXT xaCLIPBOARD xaTARGETS xaSTRING xaUTF8_STRING : Z) (root now : Z).
(** What the rest of the server answers: the access checks, the window lookup
    and the property operations ([Success] is 0), and the valid atoms. *)
Context (sel_access lookup_window change_property : Z -> Z -> Z) (ValidAtom : Z -> bool).

(** [dixLookupSelection]: it writes the error value of the client first. *)
Definition dixLookupSelection (name client : Z) (s : Clip) : option (Z * option Selection) :=
  if bool_decide (client = serverClient) || bool_decide (client ∈ alive s) then
    match list_find (fun x => sel_atom x = name) (selections s) with
    | None => Some (BadMatch, None)
    | Some (_, x) => Some (sel_access client name, Some x)
    end
  else None.

Definition dixLookupWindow (client window : Z) (s : Clip) : option Z :=
  if bool_decide (client = serverClient) || bool_decide (client ∈ alive s)
  then Some (lookup_window client window) else None.

Definition dixChangeWindowProperty (window property type format : Z) (data : list Z) (s : Clip) : Z * Clip :=
  let rc := change_property window property in
  (rc, if rc =? Success then emit (EChangeProperty window property type format data) s else s).

(** ** Receiving *)

Definition lorieSelectionRequest (selection target : Z) (s : Clip) : option Clip :=
  if negb (clipboardEnabled s) then Some s
  else
    r ← dixLookupSelection selection serverClient s;
    match r with
    | (rc, Some x) =>
        if negb (rc =? Success) then Some s
        else WriteEventsToClient (sel_client x)
               (SelectionRequest (sel_window x) now root selection target target) s
    | (_, None) => Some s
    end.

Definition lorieHasAtom (atom : Z) (l : list Z) : bool := existsb (fun a => a =? atom) l.

(** A property of the root window; [p_data] has [p_size] elements, or more when the
    memory after them is readable. *)
Record Property := { p_type : Z; p_format : Z; p_size : nat; p_data : list Z }.

Definition lorieSendClipboardData (text : list Z) (s : Clip) : Clip := emit (ESendClipboard (cstr text)) s.

Definition lorieHandleSelection (lookup : Z -> option Property) (target : Z) (s : Clip) : option Clip :=
  if negb (target =? xaTARGETS) && negb (target =? xaSTRING) && negb (target =? xaUTF8_STRING) then Some s
  else match lookup target with
  | None => Some s
  | Some prop =>
      if (target =? xaTARGETS) && (p_type prop =? XA_ATOM) && (p_format prop =? 32) then
        if decide (p_size prop <= length (p_data prop))%nat then
          let atoms := take (p_size prop) (p_data prop) in
          if lorieHasAtom xaUTF8_STRING atoms then lorieSelectionRequest xaCLIPBOARD xaUTF8_STRING s
          else if lorieHasAtom xaSTRING atoms then lorieSelectionRequest xaCLIPBOARD xaSTRING s
          else Some s
        else None
      else if (target =? xaSTRING) && (p_type prop =? xaSTRING) && (p_format prop =? 8) then
        filtered ← lorieConvertLF (p_data prop) (replicate (p_size prop + 1) 0) (p_size prop);
        utf8 ← lorieLatin1ToUTF8 (replicate ((p_size prop + 1) * 2) 0) filtered;
        Some (lorieSendClipboardData utf8 s)
      else if (target =? xaUTF8_STRING) && (p_type prop =? xaUTF8_STRING) && (p_format prop =? 8) then
        ok ← lorieCheckUTF8 (p_data prop) (p_size prop);
        if negb ok then Some s
        else filtered ← lorieConvertLF (p_data prop) (replicate (p_size prop + 1) 0) (p_size prop);
             Some (lorieSendClipboardData filtered s)
      else Some s
  end.

(** The fields of a [SendEvent] request that are looked at. *)
Definition lorieProcSendEvent (lookup : Z -> option Property) (client : Z) (is_notify : bool)
    (requestor selection target property : Z) (s : Clip) : option Clip :=
  s1 ← (if clipboardEnabled s && (requestor =? root) && is_notify && (selection =? xaCLIPBOARD) && (target =? property)
        then lorieHandleSelection lookup target s else Some s);
  Some (emit (EOriginal client) s1).

(** [set_owner] says that the kind of the callback is [SelectionSetOwner]. *)
Definition lorieSelectionCallback (selection : Z) (set_owner : bool) (s : Clip) : option Clip :=
  if clipboardEnabled s && (selection =? xaCLIPBOARD) && set_owner
  then lorieSelectionRequest xaCLIPBOARD xaTARGETS s else Some s.

(** ** Sending *)

Definition targets_list : list Z := [xaTARGETS; xaTIMESTAMP; xaSTRING; xaTEXT; xaUTF8_STRING].

(** The value stored for a target when the text is known: the type, the format
    and the data, [inr rc] for an error; [malloc_ok] says whether [lorieUtf8ToLatin1]
    has memory. *)
Definition target_value (malloc_ok : bool) (x : Selection) (target : Z) (text : list Z)
  : option (Z * Z * list Z + Z) :=
  if target =? xaTARGETS then Some (inl (XA_ATOM, 32, targets_list))
  else if target =? xaTIMESTAMP then Some (inl (XA_INTEGER, 32, [sel_time x]))
  else if (target =? xaSTRING) || (target =? xaTEXT) then
    if negb malloc_ok then Some (inr BadAlloc)
    else latin1 ← lorieUtf8ToLatin1 text; Some (inl (XA_STRING, 8, latin1))
  else if target =? xaUTF8_STRING then Some (inl (xaUTF8_STRING, 8, cstr text))
  else Some (inr BadMatch).

(** Storing the value and notifying the client. *)
Definition answer (t : LorieDataTarget) (v : Z * Z * list Z + Z) (s : Clip) : option (Z * Clip) :=
  match v with
  | inr rc => Some (rc, s)
  | inl (type, format, data) =>
      let realProperty := if t_property t =? 0 then t_target t else t_property t in
      let '(rc, s1) := dixChangeWindowProperty (t_requestor t) realProperty type format data s in
      if negb (rc =? Success) then Some (rc, s1)
      else s2 ← WriteEventsToClient (t_client t)
                  (SelectionNotify (t_time t) (t_requestor t) (t_selection t) (t_target t) (t_property t)) s1;
           Some (Success, s2)
  end.

Definition lorieConvertSelection (malloc_ok : bool) (t : LorieDataTarget) (data : option (list Z)) (s : Clip)
  : option (Z * Clip) :=
  r ← dixLookupSelection (t_selection t) (t_client t) s;
  match r with
  | (_, None) => Some (BadMatch, s)
  | (rc, Some x) =>
      if negb (rc =? Success) then Some (rc, s)
      else
        rc ← dixLookupWindow (t_client t) (t_requestor t) s;
        if negb (rc =? Success) then Some (rc, s)
        else match data with
        | Some text => v ← target_value malloc_ok x (t_target t) text; answer t v s
        | None =>
            if (t_target t =? xaTARGETS) || (t_target t =? xaTIMESTAMP)
            then v ← target_value malloc_ok x (t_target t) []; answer t v s
            else if negb (t_target t =? xaSTRING) && negb (t_target t =? xaTEXT) && negb (t_target t =? xaUTF8_STRING)
            then Some (BadMatch, s)
            else if negb malloc_ok then Some (BadAlloc, s)
            else Some (Success, emit ERequestClipboard (set_pending (t :: pending s) s))
        end
  end.

(** The refusal of a request. *)
Definition refuse (t : LorieDataTarget) (s : Clip) : option Clip :=
  WriteEventsToClient (t_client t) (SelectionNotify (t_time t) (t_requestor t) (t_selection t) (t_target t) 0) s.

(** [lorieProcConvertSelection] for the request [t]: the status and the state. *)
Definition lorieProcConvertSelection (malloc_ok : bool) (t : LorieDataTarget) (s : Clip) : option (Z * Clip) :=
  rc ← dixLookupWindow (t_client t) (t_requestor t) s;
  if negb (rc =? Success) then Some (rc, s)
  else if negb (ValidAtom (t_selection t) && ValidAtom (t_target t) && ((t_property t =? 0) || ValidAtom (t_property t)))
  then Some (BadAtom, s)
  else
    r ← dixLookupSelection (t_selection t) (t_client t) s;
    let ours := match r with
                | (rc, Some x) => (rc =? Success) && (sel_client x =? serverClient) && (sel_window x =? root)
                | (_, None) => false
                end in
    if negb ours then Some (Success, emit (EOriginal (t_client t)) s)
    else
      c ← lorieConvertSelection malloc_ok t (cachedData s) s;
      let '(rc, s1) := c in
      s2 ← (if negb (rc =? Success) then refuse t s1 else Some s1);
      Some (Success, s2).

(** The selection list after the server took the selection: changed in place, or put in front. *)
Fixpoint own_in (selection : Z) (l : list Selection) : list Selection :=
  match l with
  | [] => []
  | x :: l' => if sel_atom x =? selection
               then {| sel_atom := selection; sel_window := root; sel_client := serverClient; sel_time := now |} :: l'
               else x :: own_in selection l'
  end.

Definition lorieOwnSelection (malloc_ok : bool) (selection : Z) (s : Clip) : option (Z * Clip) :=
  r ← dixLookupSelection selection serverClient s;
  p ← match r with
      | (_, None) =>
          if negb malloc_ok then Some (inr BadAlloc)
          else let rc := sel_access serverClient selection in
               if negb (rc =? Success) then Some (inr rc)
               else Some (inl (set_selections ({| sel_atom := selection; sel_window := root;
                                                  sel_client := serverClient; sel_time := now |} :: selections s) s))
      | (rc, Some x) =>
          if negb (rc =? Success) then Some (inr rc)
          else
            s1 ← (if negb (sel_client x =? NullClient) && negb (sel_client x =? serverClient)
                  then WriteEventsToClient (sel_client x) (SelectionClear now (sel_window x) (sel_atom x)) s
                  else Some s);
            Some (inl (set_selections (own_in selection (selections s1)) s1))
      end;
  match p with
  | inr rc => Some (rc, s)
  | inl s1 => s2 ← lorieSelectionCallback selection true s1; Some (Success, s2)
  end.

Definition lorieHandleClipboardAnnounce (malloc_ok : bool) (s : Clip) : option Clip :=
  r ← lorieOwnSelection malloc_ok xaCLIPBOARD (set_cached None s); Some r.2.

(** The loop over the waiting requests; [None] when [fuel] rounds are not enough. *)
Fixpoint data_loop (fuel : nat) (malloc_ok : bool) (s : Clip) : option Clip :=
  match pending s with
  | [] => Some s
  | t :: _ =>
      match fuel with
      | O => None
      | S fuel =>
          c ← lorieConvertSelection malloc_ok t (cachedData s) s;
          let '(rc, s1) := c in
          s2 ← (if negb (rc =? Success) then refuse t s1 else Some s1);
          data_loop fuel malloc_ok (set_pending (tail (pending s2)) s2)
      end
  end.

Definition lorieHandleClipboardData (fuel : nat) (malloc_ok : bool) (data : option (list Z)) (s : Clip) : option Clip :=
  data_loop fuel malloc_ok (set_cached data s).

End clipboard.

(** The end of a client: its selections lose their owner
    ([DeleteClientFromAnySelections]) and its memory is freed. *)
Definition CloseDownClient (client : Z) (s : Clip) : Clip :=
  {| selections := map (fun x => if sel_client x =? client
                                 then {| sel_atom := sel_atom x; sel_window := 0; sel_client := NullClient; sel_time := sel_time x |}
                                 else x) (selections s);
     pending := pending s; cachedData := cachedData s; clipboardEnabled := clipboardEnabled s;
     alive := alive s ∖ {[client]}; effects := effects s |}.

(** ** What a client is promised *)

Section promises.
Context (xaTIMESTAMP xaTEXT xaCLIPBOARD xaTARGETS xaSTRING xaUTF8_STRING : Z) (root now : Z).
Context (sel_access lookup_window change_property : Z -> Z -> Z) (ValidAtom : Z -> bool).

Definition notify (t : LorieDataTarget) (property : Z) : effect :=
  ESend (t_client t) (SelectionNotify (t_time t) (t_requestor t) (t_selection t) (t_target t) property).

(** The value of the property for a waiting request, given its text. *)
Definition value_of (malloc_ok : bool) (x : Selection) (target : Z) (text : list Z) : option (Z * Z * list Z) :=
  match target_value xaTIMESTAMP xaTEXT xaTARGETS xaSTRING xaUTF8_STRING malloc_ok x target text with
  | Some (inl v) => Some v
  | _ => None
  end.

(** The reply to a request once the text is known: the stored property and the
    notification, or a single notification of refusal. *)
Definition reply (malloc_ok : bool) (l : list Selection) (text : list Z) (t : LorieDataTarget) : list effect :=
  match list_find (fun x => sel_atom x = t_selection t) l with
  | None => [notify t 0]
  | Some (_, x) =>
      if (sel_access (t_client t) (t_selection t) =? Success) && (lookup_window (t_client t) (t_requestor t) =? Success)
      then match value_of malloc_ok x (t_target t) text with
           | None => [notify t 0]
           | Some (type, format, data) =>
               let p := if t_property t =? 0 then t_target t else t_property t in
               if change_property (t_requestor t) p =? Success
               then [EChangeProperty (t_requestor t) p type format data; notify t (t_property t)]
               else [notify t 0]
           end
      else [notify t 0]
  end.

Definition connected (s : Clip) (t : LorieDataTarget) : Prop :=
  t_client t <> NullClient /\ t_client t <> serverClient /\ t_client t ∈ alive s.

End promises.

(** ** Answering the waiting requests *)

Lemma CloseDownClient_frees c s : c ∉ alive (CloseDownClient c s).
Proof. cbn. rewrite elem_of_difference, elem_of_singleton. tauto. Qed.

Section proofs.
Context (xaTIMESTAMP xaTEXT xaCLIPBOARD xaTARGETS xaSTRING xaUTF8_STRING : Z) (root now : Z).
Context (sel_access lookup_window change_property : Z -> Z -> Z) (ValidAtom : Z -> bool).

Abbreviation convert := (lorieConvertSelection xaTIMESTAMP xaTEXT xaTARGETS xaSTRING xaUTF8_STRING
                       sel_access lookup_window change_property).
Abbreviation loop := (data_loop xaTIMESTAMP xaTEXT xaTARGETS xaSTRING xaUTF8_STRING
                       sel_access lookup_window change_property).
Abbreviation replies := (reply xaTIMESTAMP xaTEXT xaTARGETS xaSTRING xaUTF8_STRING
                       sel_access lookup_window change_property).

Definition log (es : list effect) (s : Clip) : Clip :=
  {| selections := selections s; pending := pending s; cachedData := cachedData s;
     clipboardEnabled := clipboardEnabled s; alive := alive s; effects := effects s ++ es |}.

Lemma write_connected s t e : connected s t -> WriteEventsToClient (t_client t) e s = Some (emit (ESend (t_client t) e) s).
Proof.
  intros (H1 & H2 & H3). unfold WriteEventsToClient.
  by rewrite (proj2 (Z.eqb_neq _ NullClient)), (proj2 (Z.eqb_neq _ serverClient)), decide_True by done.
Qed.

Lemma client_ok_connected s t : connected s t ->
  bool_decide (t_client t = serverClient) || bool_decide (t_client t ∈ alive s) = true.
Proof. intros (_ & _ & H). rewrite (bool_decide_eq_true_2 (_ ∈ alive s)) by done. apply orb_true_r. Qed.

(** Answering with a known value. *)
Lemma answer_spec t v s : connected s t ->
  exists rc s1, answer change_property t v s = Some (rc, s1) /\
    (if negb (rc =? Success) then refuse t s1 else Some s1) =
    Some (log (match v with
               | inr rc => if rc =? Success then [] else [notify t 0]
               | inl (type, format, data) =>
                   let p := if t_property t =? 0 then t_target t else t_property t in
                   if change_property (t_requestor t) p =? Success
                   then [EChangeProperty (t_requestor t) p type format data; notify t (t_property t)]
                   else [notify t 0]
               end) s).
Proof.
  intros Hc. unfold answer. destruct v as [[[type format] data]|rc].
  - set (p := if t_property t =? 0 then _ else _). unfold dixChangeWindowProperty.
    destruct (Z.eqb_spec (change_property (t_requestor t) p) Success) as [E|E]; cbn [negb].
    + rewrite (write_connected (emit _ s)) by done. cbn. eexists _, _. split; [done|].
      cbn. unfold log, emit, notify. cbn. by rewrite <- app_assoc.
    + eexists _, _. split; [done|]. rewrite (proj2 (Z.eqb_neq _ Success)) by done. cbn.
      unfold refuse. by rewrite write_connected.
  - eexists _, _. split; [done|]. destruct (Z.eqb_spec rc Success) as [->|]; cbn.
    + unfold log. rewrite app_nil_r. by destruct s.
    + unfold refuse. by rewrite write_connected.
Qed.

Lemma target_value_total malloc_ok x target text : is_Some (lorieUtf8ToLatin1 text) ->
  exists v, target_value xaTIMESTAMP xaTEXT xaTARGETS xaSTRING xaUTF8_STRING malloc_ok x target text = Some v /\
    v <> inr Success.
Proof.
  intros [l Hl]. unfold target_value.
  destruct (target =? xaTARGETS); [by eexists (inl _)|].
  destruct (target =? xaTIMESTAMP); [by eexists (inl _)|].
  destruct ((target =? xaSTRING) || (target =? xaTEXT)).
  - destruct malloc_ok; cbn [negb]; [rewrite Hl; by eexists (inl _)|by exists (inr BadAlloc)].
  - destruct (target =? xaUTF8_STRING); [by eexists (inl _)|by exists (inr BadMatch)].
Qed.

(** One request with a known text gets exactly its reply. *)
Lemma convert_replies malloc_ok t text s : connected s t -> is_Some (lorieUtf8ToLatin1 text) ->
  exists rc s1, convert malloc_ok t (Some text) s = Some (rc, s1) /\
    (if negb (rc =? Success) then refuse t s1 else Some s1) = Some (log (replies malloc_ok (selections s) text t) s).
Proof.
  intros Hc Ht. unfold lorieConvertSelection, dixLookupSelection, dixLookupWindow, reply, value_of.
  rewrite client_ok_connected by done.
  assert (Hrefuse : forall rc, rc <> Success -> exists rc' s1, Some (rc, s) = Some (rc', s1) /\
    (if negb (rc' =? Success) then refuse t s1 else Some s1) = Some (log [notify t 0] s)).
  { intros rc Hrc. eexists _, _. split; [done|]. rewrite (proj2 (Z.eqb_neq rc Success)) by done. cbn.
    unfold refuse. by rewrite write_connected. }
  destruct (list_find _ _) as [[i x]|]; cbn; [|by apply Hrefuse].
  destruct (Z.eqb_spec (sel_access (t_client t) (t_selection t)) Success); cbn; [|by apply Hrefuse].
  destruct (Z.eqb_spec (lookup_window (t_client t) (t_requestor t)) Success); cbn; [|by apply Hrefuse].
  destruct (target_value_total malloc_ok x (t_target t) text Ht) as (v & -> & Hv). cbn.
  destruct (answer_spec t v s Hc) as (rc & s1 & -> & E). eexists _, _. split; [done|]. rewrite E.
  destruct v as [[[ty f] dt]|rc']; [done|]. by rewrite (proj2 (Z.eqb_neq rc' Success)) by congruence.
Qed.

Lemma log_log es es' s : log es' (log es s) = log (es ++ es') s.
Proof. unfold log. cbn. by rewrite app_assoc. Qed.

Lemma loop_replies malloc_ok text : is_Some (lorieUtf8ToLatin1 text) -> forall l fuel s,
  pending s = l -> cachedData s = Some text -> Forall (connected s) l -> (length l <= fuel)%nat ->
  loop fuel malloc_ok s = Some (set_pending [] (log (concat (map (replies malloc_ok (selections s) text) l)) s)).
Proof.
  intros Ht. induction l as [|t l IH]; intros fuel s Hp Hc Hl Hf.
  - destruct fuel; simpl; rewrite Hp; unfold set_pending, log; cbn; rewrite app_nil_r, <- Hp; by destruct s.
  - destruct fuel as [|fuel]; [simpl in Hf; lia|]. cbn [data_loop]. rewrite Hp, Hc.
    apply Forall_cons in Hl as [Hct Hl].
    destruct (convert_replies malloc_ok t text s Hct Ht) as (rc & s1 & -> & E). cbn [mbind option_bind].
    rewrite E. cbn [mbind option_bind]. rewrite IH with (s := set_pending _ _); cbn.
    + rewrite Hp. cbn. unfold set_pending, log. cbn. by rewrite app_assoc.
    + by rewrite Hp.
    + done.
    + exact Hl.
    + simpl in Hf. lia.
Qed.

(** The loop uses the client of a request that has disconnected. *)
Lemma loop_gone malloc_ok text : is_Some (lorieUtf8ToLatin1 text) -> forall l fuel s,
  pending s = l -> cachedData s = Some text -> Forall (fun t => t_client t <> serverClient /\ t_client t <> NullClient) l ->
  ~ Forall (fun t => t_client t ∈ alive s) l -> (length l <= fuel)%nat -> loop fuel malloc_ok s = None.
Proof.
  intros Ht. induction l as [|t l IH]; intros fuel s Hp Hc Hl Hn Hf; [by destruct Hn|].
  destruct fuel as [|fuel]; [simpl in Hf; lia|]. cbn [data_loop]. rewrite Hp, Hc.
  apply Forall_cons in Hl as [[Hs H0] Hl]. destruct (decide (t_client t ∈ alive s)) as [Ha|Ha].
  - destruct (convert_replies malloc_ok t text s) as (rc & s1 & -> & E); [by split_and!|done|]. cbn [mbind option_bind].
    rewrite E. cbn [mbind option_bind]. apply IH; [by cbn; rewrite Hp|done|done| |simpl in Hf; lia].
    intros Hall. apply Hn. by constructor.
  - unfold lorieConvertSelection, dixLookupSelection.
    by rewrite (bool_decide_eq_false_2 (t_client t = serverClient)), (bool_decide_eq_false_2 (t_client t ∈ alive s)) by done.
Qed.

(** One notification to the client, after at most the stored property. *)
Definition one_reply (t : LorieDataTarget) (es : list effect) : Prop :=
  exists stored p, es = stored ++ [notify t p] /\ (p = 0 \/ p = t_property t) /\
    forall e, e ∈ stored -> exists w pr ty f d, e = EChangeProperty w pr ty f d.

Lemma one_refusal t : one_reply t [notify t 0].
Proof. exists [], 0. split_and!; auto. by intros e ?%elem_of_nil. Qed.

Lemma one_value t w pr ty f d : one_reply t [EChangeProperty w pr ty f d; notify t (t_property t)].
Proof.
  exists [EChangeProperty w pr ty f d], (t_property t). split_and!; auto.
  intros e ->%list_elem_of_singleton. by eexists _, _, _, _, _.
Qed.

Lemma reply_one malloc_ok l text t : one_reply t (replies malloc_ok l text t).
Proof.
  unfold reply. repeat case_match; first [apply one_refusal|apply one_value].
Qed.

(** A request without a text: answered, refused or made to wait. *)
Lemma convert_waits malloc_ok t s : connected s t ->
  exists rc s1, convert malloc_ok t None s = Some (rc, s1) /\
    ((rc = Success /\ s1 = emit ERequestClipboard (set_pending (t :: pending s) s)) \/
     exists es, one_reply t es /\ (if negb (rc =? Success) then refuse t s1 else Some s1) = Some (log es s)).
Proof.
  intros Hc. unfold lorieConvertSelection, dixLookupSelection, dixLookupWindow. rewrite client_ok_connected by done.
  assert (Hrefuse : forall rc, rc <> Success -> exists es, one_reply t es /\
    (if negb (rc =? Success) then refuse t s else Some s) = Some (log es s)).
  { intros rc Hrc. exists [notify t 0]. split; [apply one_refusal|].
    rewrite (proj2 (Z.eqb_neq rc Success)) by done. cbn. unfold refuse. by rewrite write_connected. }
  destruct (list_find _ _) as [[i x]|]; cbn; [|by eexists _, _; split; [done|right; apply Hrefuse]].
  destruct (Z.eqb_spec (sel_access (t_client t) (t_selection t)) Success); cbn;
    [|by eexists _, _; split; [done|right; apply Hrefuse]].
  destruct (Z.eqb_spec (lookup_window (t_client t) (t_requestor t)) Success); cbn;
    [|by eexists _, _; split; [done|right; apply Hrefuse]].
  unfold target_value. destruct (t_target t =? xaTARGETS); cbn [orb].
  { destruct (answer_spec t (inl (XA_ATOM, 32, targets_list xaTIMESTAMP xaTEXT xaTARGETS xaSTRING xaUTF8_STRING)) s Hc)
      as (rc & s1 & E1 & E2). cbn [mbind option_bind]. rewrite E1. eexists _, _. split; [done|]. right.
    eexists. split; [|exact E2]. cbv zeta. destruct (change_property _ _ =? Success); [apply one_value|apply one_refusal]. }
  destruct (t_target t =? xaTIMESTAMP); cbn [orb].
  { destruct (answer_spec t (inl (XA_INTEGER, 32, [sel_time x])) s Hc) as (rc & s1 & E1 & E2).
    cbn [mbind option_bind]. rewrite E1. eexists _, _. split; [done|]. right.
    eexists. split; [|exact E2]. cbv zeta. destruct (change_property _ _ =? Success); [apply one_value|apply one_refusal]. }
  destruct (_ && _ && _)%bool; [by eexists _, _; split; [done|right; apply Hrefuse]|].
  destruct malloc_ok; cbn [negb]; [|by eexists _, _; split; [done|right; apply Hrefuse]].
  eexists _, _. split; [done|]. by left.
Qed.

(** C7: when Android sends its text, UTF-8 behind which the handler put a NUL, every request that
    waited is answered, once and in the order of the list, by exactly the reply it deserves: the
    text (or the list of targets, or the time) stored as a property in the encoding that was asked
    for and a notification, or a notification of refusal; the list is then empty and the text is
    kept for later requests. That is so exactly if the clients of all waiting requests are still
    connected; otherwise the loop reaches a client that was freed. *)
Theorem lorieHandleClipboardData_replies malloc_ok cs rest s fuel :
  Forall is_text cs -> Z.of_nat (length (utf8_text cs)) < 2 ^ 32 - 1 ->
  Forall (fun t => t_client t <> serverClient /\ t_client t <> NullClient) (pending s) ->
  (length (pending s) <= fuel)%nat ->
  let text := utf8_text cs ++ 0 :: rest in
  lorieHandleClipboardData xaTIMESTAMP xaTEXT xaTARGETS xaSTRING xaUTF8_STRING sel_access lookup_window
      change_property fuel malloc_ok (Some text) s =
    (if decide (Forall (fun t => t_client t ∈ alive s) (pending s)) then
       Some (set_pending [] (log (concat (map (replies malloc_ok (selections s) text) (pending s)))
              (set_cached (Some text) s)))
     else None) /\
  forall t, one_reply t (replies malloc_ok (selections s) text t).
Proof.
  intros Hcs Hlen Hr Hf text. assert (Ht : is_Some (lorieUtf8ToLatin1 text)) by (eexists; by apply utf8ToLatin1_text).
  split; [|intros t; apply reply_one]. unfold lorieHandleClipboardData. case_decide as Hd.
  - rewrite (loop_replies malloc_ok text Ht (pending s)); [done..| |done].
    apply Forall_forall. intros t Hin. rewrite Forall_forall in Hr, Hd. destruct (Hr t Hin). split_and!; [done|done|by apply Hd].
  - by apply (loop_gone malloc_ok text Ht (pending s)).
Qed.

(** A request for the selection is answered at once, or waits and asks Android for the
    text, or is left to the server's own handler when the selection is not the server's; the
    only other outcome is an X error for a bad window or atom. *)
Theorem lorieProcConvertSelection_outcome malloc_ok t s :
  connected s t -> (forall text, cachedData s = Some text -> is_Some (lorieUtf8ToLatin1 text)) ->
  exists rc s', lorieProcConvertSelection xaTIMESTAMP xaTEXT xaTARGETS xaSTRING xaUTF8_STRING root
      sel_access lookup_window change_property ValidAtom malloc_ok t s = Some (rc, s') /\
    (s' = emit (EOriginal (t_client t)) s \/
     (rc = Success /\ exists es, one_reply t es /\ s' = log es s) \/
     (rc = Success /\ cachedData s = None /\ s' = emit ERequestClipboard (set_pending (t :: pending s) s)) \/
     (rc <> Success /\ s' = s)).
Proof.
  intros Hc Hcache. unfold lorieProcConvertSelection, dixLookupWindow. rewrite client_ok_connected by done. cbn.
  destruct (Z.eqb_spec (lookup_window (t_client t) (t_requestor t)) Success) as [Ew|Ew]; cbn; [|eauto 10].
  destruct (negb _); [eexists _, _; split; [done|right; right; right; by split]|].
  destruct (dixLookupSelection sel_access (t_selection t) (t_client t) s) as [r|] eqn:El; cycle 1.
  { unfold dixLookupSelection in El. rewrite client_ok_connected in El by done. by destruct (list_find _ _) as [[? ?]|]. }
  cbn. destruct (negb _); [eauto 10|].
  destruct (cachedData s) as [text|].
  - destruct (convert_replies malloc_ok t text s Hc (Hcache text eq_refl)) as (rc & s1 & -> & E). cbn.
    rewrite E. cbn. eexists _, _. split; [done|]. right. left. split; [done|].
    eexists. split; [apply reply_one|done].
  - destruct (convert_waits malloc_ok t s Hc) as (rc & s1 & -> & H). cbn.
    destruct H as [[-> ->]|(es & Hes & E)].
    + cbn. eexists _, _. split; [done|]. right. right. left. done.
    + rewrite E. cbn. eexists _, _. split; [done|]. right. left. split; [done|]. by exists es.
Qed.

(** A client that disconnects while its request waits stays in the list, and the text that
    arrives afterwards is handled with the freed client. *)
Theorem waiting_client_gone malloc_ok text t l s fuel :
  pending s = t :: l -> t_client t <> serverClient ->
  lorieHandleClipboardData xaTIMESTAMP xaTEXT xaTARGETS xaSTRING xaUTF8_STRING sel_access lookup_window
      change_property (S fuel) malloc_ok text (CloseDownClient (t_client t) s) = None.
Proof.
  intros Hp Hs. unfold lorieHandleClipboardData. cbn. rewrite Hp.
  unfold lorieConvertSelection, dixLookupSelection. cbn.
  rewrite bool_decide_eq_false_2 by done. rewrite bool_decide_eq_false_2 by apply CloseDownClient_frees. done.
Qed.


(** The filtered copy of a text, as a C string. *)
Lemma convertLF_text l rest : Forall is_char l ->
  exists k, lorieConvertLF (l ++ rest) (replicate (length l + 1) 0) (length l) = Some (strip_cr l ++ replicate (S k) 0) /\
    Forall is_char (strip_cr l) /\ (length (strip_cr l) <= length l)%nat.
Proof.
  intros Hl. unfold lorieConvertLF. rewrite decide_True by (rewrite length_app; lia).
  rewrite take_app_length. destruct (convertLF_loop_spec l [] (length l + 1)) as (k & E & Hk); [lia|].
  assert (Hle : (length (strip_cr l) <= length l)%nat) by apply length_filter.
  destruct k as [|k]; [lia|]. exists k. split_and!; [done| |done].
  apply Forall_forall. intros c Hc. rewrite Forall_forall in Hl. apply Hl.
  by apply list_elem_of_filter in Hc as [_ ?].
Qed.

Lemma cstr_terminated l k : Forall is_char l -> cstr (l ++ replicate (S k) 0) = l.
Proof. intros H. by apply cstr_app_nul. Qed.

(** When the X owner answers, its text is sent to Android without carriage returns: UTF-8
    text as it is, Latin-1 text converted to UTF-8, through buffers that are never overrun;
    and from the list of targets the UTF-8 text is asked for if it is offered, the Latin-1
    text if only that is, and nothing otherwise. *)
Theorem lorieHandleSelection_receives lookup s :
  NoDup [xaTARGETS; xaSTRING; xaUTF8_STRING] ->
  let handle := lorieHandleSelection xaCLIPBOARD xaTARGETS xaSTRING xaUTF8_STRING root now sel_access lookup in
  let request := fun target => lorieSelectionRequest root now sel_access xaCLIPBOARD target s in
  (forall cs rest, Forall is_text cs ->
     lookup xaUTF8_STRING = Some {| p_type := xaUTF8_STRING; p_format := 8; p_size := length (utf8_text cs);
                                    p_data := utf8_text cs ++ 0 :: rest |} ->
     handle xaUTF8_STRING s = Some (emit (ESendClipboard (strip_cr (utf8_text cs))) s)) /\
  (forall l rest, Forall is_char l ->
     lookup xaSTRING = Some {| p_type := xaSTRING; p_format := 8; p_size := length l; p_data := l ++ rest |} ->
     handle xaSTRING s = Some (emit (ESendClipboard (utf8_text (strip_cr l))) s)) /\
  (forall atoms rest,
     lookup xaTARGETS = Some {| p_type := XA_ATOM; p_format := 32; p_size := length atoms; p_data := atoms ++ rest |} ->
     handle xaTARGETS s = if bool_decide (xaUTF8_STRING ∈ atoms) then request xaUTF8_STRING
                          else if bool_decide (xaSTRING ∈ atoms) then request xaSTRING else Some s).
Proof.
  intros Hnd handle request.
  apply NoDup_cons in Hnd as [H1 Hnd]. apply NoDup_cons in Hnd as [H2 _].
  assert (N1 : xaSTRING <> xaTARGETS) by (intros <-; apply H1; by left).
  assert (N2 : xaUTF8_STRING <> xaTARGETS) by (intros <-; apply H1; by right; left).
  assert (N3 : xaUTF8_STRING <> xaSTRING) by (intros <-; apply H2; by left).
  unfold handle, lorieHandleSelection. split_and!.
  - intros cs rest Hcs Hl. rewrite !Z.eqb_refl, andb_false_r, Hl. cbn [p_type p_format p_size p_data].
    rewrite (proj2 (Z.eqb_neq _ xaTARGETS)), (proj2 (Z.eqb_neq _ xaSTRING)) by done. cbn [andb].
    pose proof (utf8_text_char cs Hcs) as Hch. pose proof (utf8_text_length cs).
    pose proof (checkUTF8_loop_text [] cs rest (S (length (utf8_text cs ++ 0 :: rest))) (length (utf8_text cs)) Hcs) as E.
    cbn [app length] in E. unfold lorieCheckUTF8. rewrite E; [|rewrite length_app; simpl; lia].
    cbn [mbind option_bind negb].
    destruct (convertLF_text (utf8_text cs) (0 :: rest) Hch) as (k & -> & Hs & _). cbn [mbind option_bind].
    unfold lorieSendClipboardData. rewrite cstr_terminated, Z.eqb_refl by done. done.
  - intros l rest Hch Hl. rewrite !Z.eqb_refl, Hl. cbn [p_type p_format p_size p_data].
    rewrite (proj2 (Z.eqb_neq _ xaTARGETS)), (proj2 (Z.eqb_neq xaSTRING xaUTF8_STRING)), Z.eqb_refl by done. cbn [andb negb].
    destruct (convertLF_text l rest Hch) as (k & -> & Hs & Hle). cbn [mbind option_bind].
    unfold lorieLatin1ToUTF8. change (replicate (S k) 0) with (0 :: replicate k 0).
    destruct (latin1ToUTF8_loop_text (strip_cr l) (replicate k 0) [] ((length l + 1) * 2) Hs) as (k2 & E & Hk2); [lia|].
    cbn [app length] in E. rewrite E. cbn [mbind option_bind]. unfold lorieSendClipboardData.
    pose proof (utf8_text_latin1_length _ Hs). destruct k2 as [|k2]; [lia|].
    rewrite cstr_terminated; [done|]. apply utf8_text_char. eapply Forall_impl; [exact Hs|]. apply is_char_text.
  - intros atoms rest Hl. rewrite !Z.eqb_refl, Hl. cbn [p_type p_format p_size p_data andb negb].
    rewrite decide_True by (rewrite length_app; lia). rewrite take_app_length.
    assert (Hat : forall a, lorieHasAtom a atoms = bool_decide (a ∈ atoms)).
    { intros a. apply Bool.eq_iff_eq_true. rewrite bool_decide_eq_true. unfold lorieHasAtom. rewrite existsb_exists.
      split; [intros (x & Hx & ->%Z.eqb_eq); by apply list_elem_of_In|].
      intros Hx. exists a. split; [by apply list_elem_of_In|apply Z.eqb_refl]. }
    by rewrite !Hat.
Qed.

End proofs.

(** ** Witnesses *)

(** Client 7 asks with window 70; the server owns the selection 1; atoms 1 to 6. *)
Definition demo_request : LorieDataTarget :=
  {| t_client := 7; t_selection := 1; t_target := 6; t_property := 40; t_requestor := 70; t_time := 5 |}.

Definition demo_clip : Clip :=
  {| selections := [{| sel_atom := 1; sel_window := 100; sel_client := serverClient; sel_time := 3 |}];
     pending := [demo_request]; cachedData := None; clipboardEnabled := true; alive := {[7]}; effects := [] |}.

Definition yes (_ _ : Z) : Z := Success.

Lemma demo_connected : connected demo_clip demo_request.
Proof. split_and!; [discriminate|discriminate|cbn; set_solver]. Qed.

Lemma lorieHandleClipboardData_replies_witness :
  lorieHandleClipboardData 2 3 4 5 6 yes yes yes 1 true (Some [104; 105; 0]) demo_clip
  = Some (set_pending [] (log [EChangeProperty 70 40 6 8 [104; 105]; notify demo_request 40]
              (set_cached (Some [104; 105; 0]) demo_clip))).
Proof.
  destruct (lorieHandleClipboardData_replies 2 3 4 5 6 yes yes yes true [104; 105] [] demo_clip 1) as [E _];
    [repeat constructor; lia|reflexivity|repeat constructor; discriminate|reflexivity|]. exact E.
Defined.

Lemma lorieProcConvertSelection_outcome_witness :
  exists rc s', lorieProcConvertSelection 2 3 4 5 6 100 yes yes yes (fun _ => true) true demo_request demo_clip = Some (rc, s') /\
    (s' = emit (EOriginal 7) demo_clip \/
     (rc = Success /\ exists es, one_reply demo_request es /\ s' = log es demo_clip) \/
     (rc = Success /\ cachedData demo_clip = None /\
        s' = emit ERequestClipboard (set_pending (demo_request :: pending demo_clip) demo_clip)) \/
     (rc <> Success /\ s' = demo_clip)).
Proof.
  apply (lorieProcConvertSelection_outcome 2 3 4 5 6 100 yes yes yes (fun _ => true) true demo_request demo_clip);
    [apply demo_connected|discriminate].
Defined.

Lemma waiting_client_gone_witness :
  lorieHandleClipboardData 2 3 4 5 6 yes yes yes 5 true (Some [104; 0]) (CloseDownClient 7 demo_clip) = None.
Proof.
  apply (waiting_client_gone 2 3 4 5 6 yes yes yes true (Some [104; 0]) demo_request [] demo_clip 4);
    [reflexivity|discriminate].
Defined.


Lemma lorieHandleSelection_receives_witness :
  lorieHandleSelection 1 4 5 6 100 0 yes
    (fun _ => Some {| p_type := 6; p_format := 8; p_size := 5; p_data := utf8_text [0x20ac; 13; 10] ++ [0] |}) 6 demo_clip
  = Some (emit (ESendClipboard (strip_cr (utf8_text [0x20ac; 13; 10]))) demo_clip).
Proof.
  destruct (lorieHandleSelection_receives 1 4 5 6 100 0 yes
    (fun _ => Some {| p_type := 6; p_format := 8; p_size := 5; p_data := utf8_text [0x20ac; 13; 10] ++ [0] |}) demo_clip)
    as (H & _ & _); [by apply (bool_decide_unpack _); vm_compute|].
  apply (H [0x20ac; 13; 10] []); [|reflexivity]. repeat constructor; unfold is_scalar; lia.
Defined.
