(* ===== verification/WorkQueue.v ===== *)
(** * The work queue between the threads of the server ([dix/dixutils.c])

    The input thread reads the events of the Android activity and hands the work
    that belongs to the server thread over with [QueueWorkProc]; the server thread
    runs it in [ProcessWorkQueue], which releases the spin lock around every call.
    The model works on the pointers of the list, on the cell [workQueueLast] that
    says where the next item is linked, and on the critical sections of both
    threads as steps that interleave in any order. A store through a pointer into
    a freed item is an error ([None]). *)

From S2P Require Import Prelude.

(** ** Data *)

(** What a work procedure is called with. *)
Record work := { function : Z; client : Z; closure : Z }.

Record WorkQueueRec := { next : option Z; item : work }.

(** A [WorkQueuePtr *]: the variable [workQueue] or the field [next] of an item. *)
Inductive slot := Root | NextOf (q : Z).

Record queue := { workQueue : option Z; workQueueLast : slot; nodes : gmap Z WorkQueueRec }.

Definition empty_queue : queue := {| workQueue := None; workQueueLast := Root; nodes := ∅ |}.

Definition load (p : slot) (s : queue) : option (option Z) :=
  match p with
  | Root => Some (workQueue s)
  | NextOf q => next <$> nodes s !! q
  end.

Definition store (p : slot) (v : option Z) (s : queue) : option queue :=
  match p with
  | Root => Some {| workQueue := v; workQueueLast := workQueueLast s; nodes := nodes s |}
  | NextOf q => n ← nodes s !! q;
      Some {| workQueue := workQueue s; workQueueLast := workQueueLast s;
              nodes := <[q := {| next := v; item := item n |}]> (nodes s) |}
  end.

Definition set_last (p : slot) (s : queue) : queue :=
  {| workQueue := workQueue s; workQueueLast := p; nodes := nodes s |}.
Definition set_nodes (m : gmap Z WorkQueueRec) (s : queue) : queue :=
  {| workQueue := workQueue s; workQueueLast := workQueueLast s; nodes := m |}.

(** ** Operations *)

(** [QueueWorkProc] with the answer of [malloc]. *)
Definition QueueWorkProc (addr : option Z) (w : work) (s : queue) : option (bool * queue) :=
  match addr with
  | None => Some (false, s)
  | Some q =>
      let s1 := set_nodes (<[q := {| next := None; item := w |}]> (nodes s)) s in
      s2 ← store (workQueueLast s1) (Some q) s1;
      Some (true, set_last (NextOf q) s2)
  end.

(** Where the server thread is: outside [ProcessWorkQueue], or in the call of the
    item [q] that [p] points to, without the lock. *)
Inductive pc := Waiting | Calling (p : slot) (q : Z).

(** The test of the while loop, up to the next call or the end of the function. *)
Definition scan (p : slot) (s : queue) : option (pc * queue) :=
  v ← load p s;
  match v with
  | None => Some (Waiting, set_last p s)
  | Some q => Some (Calling p q, s)
  end.

Definition ProcessWorkQueue_enter (s : queue) : option (pc * queue) := scan Root s.

(** A call has returned [result]: the item is removed, or skipped. *)
Definition ProcessWorkQueue_return (result : bool) (p : slot) (q : Z) (s : queue) : option (pc * queue) :=
  if result then
    nx ← load (NextOf q) s;
    s1 ← store p nx s;
    scan p (set_nodes (delete q (nodes s1)) s1)
  else scan (NextOf q) s.

(** [ClearWorkQueue]; the pointer [p] stays at [workQueue]. *)
Fixpoint ClearWorkQueue (fuel : nat) (s : queue) : option queue :=
  match workQueue s with
  | None => Some (set_last Root s)
  | Some q =>
      match fuel with
      | O => None
      | S fuel => nx ← load (NextOf q) s; s1 ← store Root nx s;
                  ClearWorkQueue fuel (set_nodes (delete q (nodes s1)) s1)
      end
  end.

(** [ProcessWorkQueueZombies] from [p] on: the items called, oldest first. The lock
    is held during the calls. *)
Fixpoint zombies_loop (fuel : nat) (clientGone : Z -> bool) (p : slot) (s : queue)
  : option (list work * queue) :=
  v ← load p s;
  match v with
  | None => Some ([], set_last p s)
  | Some q =>
      match fuel with
      | O => None
      | S fuel =>
          n ← nodes s !! q;
          if negb (client (item n) =? 0) && clientGone (client (item n)) then
            s1 ← store p (next n) s;
            r ← zombies_loop fuel clientGone p (set_nodes (delete q (nodes s1)) s1);
            Some (item n :: r.1, r.2)
          else zombies_loop fuel clientGone (NextOf q) s
      end
  end.

Definition ProcessWorkQueueZombies (fuel : nat) (clientGone : Z -> bool) (s : queue) :
  option (list work * queue) := zombies_loop fuel clientGone Root s.

(** ** Both threads *)

(** [called] logs the calls that have returned, with their results. *)
Record system := { shared : queue; thread : pc; called : list (work * bool) }.

Inductive action := Queue (addr : option Z) (w : work) | Enter | Return (result : bool).

(** What can happen next: [malloc] answers with memory that is not in use, the
    server enters the function when it is outside, and only a call returns. *)
Definition enabled (a : action) (s : system) : bool :=
  match a, thread s with
  | Queue (Some q) _, _ => bool_decide (q ∉ dom (nodes (shared s)))
  | Queue None _, _ => true
  | Enter, Waiting => true
  | Return _, Calling _ _ => true
  | _, _ => false
  end.

Definition step (a : action) (s : system) : option system :=
  match a, thread s with
  | Queue addr w, _ =>
      r ← QueueWorkProc addr w (shared s);
      Some {| shared := r.2; thread := thread s; called := called s |}
  | Enter, _ =>
      r ← ProcessWorkQueue_enter (shared s);
      Some {| shared := r.2; thread := r.1; called := called s |}
  | Return result, Calling p q =>
      n ← nodes (shared s) !! q;
      r ← ProcessWorkQueue_return result p q (shared s);
      Some {| shared := r.2; thread := r.1; called := called s ++ [(item n, result)] |}
  | Return _, Waiting => None
  end.

(** The states reached from the empty queue, with the actions that led there. *)
Inductive reach : list action -> option system -> Prop :=
  | reach_init : reach [] (Some {| shared := empty_queue; thread := Waiting; called := [] |})
  | reach_step acts a s : reach acts (Some s) -> enabled a s -> reach (acts ++ [a]) (step a s).

(** ** The specification: a sequence with a reader *)

(** The works skipped in this pass, the works to come (the first one is being
    called while [busy]), and the calls that have returned. *)
Record spec := { kept : list work; rest : list work; busy : bool; returned : list (work * bool) }.

Definition spec_scan (k r : list work) (log : list (work * bool)) : spec :=
  match r with
  | [] => {| kept := []; rest := k; busy := false; returned := log |}
  | _ => {| kept := k; rest := r; busy := true; returned := log |}
  end.

Definition spec_step (a : action) (σ : spec) : spec :=
  match a with
  | Queue None _ => σ
  | Queue (Some _) w => {| kept := kept σ; rest := rest σ ++ [w]; busy := busy σ; returned := returned σ |}
  | Enter => spec_scan [] (rest σ) (returned σ)
  | Return result =>
      match rest σ with
      | [] => σ
      | w :: r => spec_scan (if result then kept σ else kept σ ++ [w]) r (returned σ ++ [(w, result)])
      end
  end.

Definition spec_run (acts : list action) : spec :=
  foldl (fun σ a => spec_step a σ) {| kept := []; rest := []; busy := false; returned := [] |} acts.

(** The works that [QueueWorkProc] accepted. *)
Definition accepted (acts : list action) : list work :=
  omap (fun a => match a with Queue (Some _) w => Some w | _ => None end) acts.

(** The items of a client that is gone. *)
Definition is_zombie (clientGone : Z -> bool) (w : work) : bool := negb (client w =? 0) && clientGone (client w).

(** ** Heaps that hold a sequence *)

(** The heap [m] with the items [k] in front, the last of which is linked to [v]. *)
Fixpoint seg (k : list (Z * work)) (v : option Z) (m : gmap Z WorkQueueRec) : gmap Z WorkQueueRec :=
  match k with
  | [] => m
  | (q, w) :: k' => <[q := {| next := match k' with [] => v | (q', _) :: _ => Some q' end; item := w |}]> (seg k' v m)
  end.

Definition first (k : list (Z * work)) (v : option Z) : option Z :=
  match k with [] => v | (q, _) :: _ => Some q end.

Definition heap_of (l : list (Z * work)) : gmap Z WorkQueueRec := seg l None ∅.

Definition last_slot (l : list (Z * work)) : slot :=
  match last l with Some (q, _) => NextOf q | None => Root end.

(** The queue holds the items [l], the cell for the next item is the last link,
    and nothing else is allocated. *)
Definition state_of (l : list (Z * work)) : queue :=
  {| workQueue := first l None; workQueueLast := last_slot l; nodes := heap_of l |}.

Definition holds (s : queue) (l : list (Z * work)) : Prop := NoDup l.*1 /\ s = state_of l.

(** The server thread when it has passed [k] and [r] is to come. *)
Definition at_item (k r : list (Z * work)) : pc :=
  match r with [] => Waiting | (q, _) :: _ => Calling (last_slot k) q end.

(** The state of the two threads for a state of the specification. *)
Definition refines (s : system) (σ : spec) : Prop :=
  exists k r, holds (shared s) (k ++ r) /\ k.*2 = kept σ /\ r.*2 = rest σ /\ called s = returned σ /\
    if busy σ then r <> [] /\ thread s = at_item k r else thread s = Waiting /\ k = [].

(** ** Lemmas on heaps *)

Lemma first_app k r v : first (k ++ r) v = first k (first r v).
Proof. by destruct k as [|[? ?] ?]. Qed.

Lemma seg_app k r v m : seg (k ++ r) v m = seg k (first r v) (seg r v m).
Proof.
  induction k as [|[q w] k IH]; [done|]. cbn [app seg]. rewrite IH. f_equal. f_equal.
  by destruct k as [|[? ?] ?].
Qed.

Lemma seg_lookup_ne k v m q : q ∉ k.*1 -> seg k v m !! q = m !! q.
Proof.
  induction k as [|[p w] k IH]; [done|]. cbn. rewrite not_elem_of_cons. intros [Hp Hk].
  by rewrite lookup_insert_ne, IH.
Qed.

Lemma seg_insert k v m q n : q ∉ k.*1 -> <[q := n]> (seg k v m) = seg k v (<[q := n]> m).
Proof.
  induction k as [|[p w] k IH]; [done|]. cbn. rewrite not_elem_of_cons. intros [Hp Hk].
  by rewrite insert_insert_ne, IH.
Qed.

Lemma seg_delete k v m q : q ∉ k.*1 -> delete q (seg k v m) = seg k v (delete q m).
Proof.
  induction k as [|[p w] k IH]; [done|]. cbn. rewrite not_elem_of_cons. intros [Hp Hk].
  by rewrite delete_insert_ne, IH.
Qed.

Lemma last_slot_snoc k q w : last_slot (k ++ [(q, w)]) = NextOf q.
Proof. unfold last_slot. by rewrite last_snoc. Qed.

Lemma nodup_snoc_fst k (q : Z) (w : work) : NoDup (k ++ [(q, w)]).*1 -> NoDup k.*1 /\ q ∉ k.*1.
Proof. rewrite fmap_app, NoDup_app. intros (H1 & H2 & _). split; [done|]. intros Hq. apply (H2 q Hq). by left. Qed.

(** The link behind [k] can be read and written. *)
Lemma load_seg k v m ls : NoDup k.*1 ->
  load (last_slot k) {| workQueue := first k v; workQueueLast := ls; nodes := seg k v m |} = Some v.
Proof.
  induction k as [|[q w] k _] using rev_ind; intros H; [done|]. apply nodup_snoc_fst in H as [_ Hq].
  rewrite last_slot_snoc. cbn [load nodes]. rewrite seg_app, seg_lookup_ne by done. cbn. by rewrite lookup_insert_eq.
Qed.

Lemma store_seg k v v' m ls : NoDup k.*1 ->
  store (last_slot k) v' {| workQueue := first k v; workQueueLast := ls; nodes := seg k v m |}
  = Some {| workQueue := first k v'; workQueueLast := ls; nodes := seg k v' m |}.
Proof.
  induction k as [|[q w] k _] using rev_ind; intros H; [done|]. apply nodup_snoc_fst in H as [_ Hq].
  rewrite last_slot_snoc. cbn [store nodes]. rewrite !seg_app, seg_lookup_ne by done. cbn.
  rewrite lookup_insert_eq. cbn. rewrite seg_insert by done. rewrite insert_insert_eq. by rewrite !first_app.
Qed.

(** The heap of a sequence, seen from one of its items. *)
Lemma heap_split k q w r : heap_of (k ++ (q, w) :: r)
  = seg k (Some q) (<[q := {| next := first r None; item := w |}]> (heap_of r)).
Proof. unfold heap_of. rewrite seg_app. cbn. by destruct r as [|[? ?] ?]. Qed.

Lemma heap_lookup k q w r : q ∉ k.*1 ->
  heap_of (k ++ (q, w) :: r) !! q = Some {| next := first r None; item := w |}.
Proof. intros H. rewrite heap_split, seg_lookup_ne by done. apply lookup_insert_eq. Qed.

Lemma heap_dom l q : q ∈ dom (heap_of l) <-> q ∈ l.*1.
Proof.
  unfold heap_of. generalize (@None Z). intros v. induction l as [|[p w] l IH]; cbn; [set_solver|].
  rewrite dom_insert, elem_of_union, elem_of_singleton, elem_of_cons. by rewrite IH.
Qed.

Lemma nodup_split k (q : Z) (w : work) r : NoDup (k ++ (q, w) :: r).*1 ->
  NoDup k.*1 /\ (q ∉ k.*1) /\ (q ∉ r.*1) /\ NoDup (k ++ r).*1.
Proof.
  rewrite !fmap_app. cbn. intros H. pose proof H as H'. rewrite NoDup_app in H. destruct H as (H1 & H2 & H3).
  apply NoDup_cons in H3 as [H3 H4]. split_and!; [done| |done|].
  - intros Hq. apply (H2 q Hq). by left.
  - apply NoDup_app. split_and!; [done| |done]. intros x Hx Hr. apply (H2 x Hx). by right.
Qed.

(** ** Lemmas on the operations *)

Lemma queue_holds s l q w : holds s l -> q ∉ dom (nodes s) ->
  QueueWorkProc (Some q) w s = Some (true, state_of (l ++ [(q, w)])) /\ NoDup (l ++ [(q, w)]).*1.
Proof.
  intros [Hn ->] Hq. cbn [nodes state_of] in Hq. rewrite heap_dom in Hq. split.
  - unfold QueueWorkProc, set_nodes, state_of, heap_of. cbn [nodes workQueue workQueueLast].
    rewrite seg_insert by done. rewrite store_seg by done. cbn. unfold set_last. cbn.
    by rewrite first_app, seg_app, last_slot_snoc.
  - rewrite fmap_app, NoDup_app. split_and!; [done| |cbn; apply NoDup_singleton].
    intros x Hx Hx'. by apply list_elem_of_singleton in Hx' as ->.
Qed.

Lemma load_state k r : NoDup (k ++ r).*1 -> load (last_slot k) (state_of (k ++ r)) = Some (first r None).
Proof.
  intros H. unfold state_of, heap_of. rewrite first_app, seg_app. apply load_seg.
  rewrite fmap_app in H. by apply NoDup_app in H as [? _].
Qed.

Lemma scan_state k r : NoDup (k ++ r).*1 ->
  scan (last_slot k) (state_of (k ++ r)) = Some (at_item k r, state_of (k ++ r)).
Proof.
  intros H. unfold scan. rewrite load_state by done. destruct r as [|[q w] r]; [|done].
  cbn. by rewrite app_nil_r.
Qed.

Lemma return_true_state k q w r : NoDup (k ++ (q, w) :: r).*1 ->
  ProcessWorkQueue_return true (last_slot k) q (state_of (k ++ (q, w) :: r))
  = Some (at_item k r, state_of (k ++ r)).
Proof.
  intros H. pose proof (nodup_split _ _ _ _ H) as (Hk & Hqk & Hqr & Hkr).
  unfold ProcessWorkQueue_return. cbn [load nodes state_of]. rewrite heap_lookup by done. cbn [fmap option_fmap option_map next mbind option_bind].
  unfold state_of. rewrite heap_split, first_app. cbn [first]. rewrite store_seg by done. cbn [mbind option_bind].
  unfold set_nodes. cbn [nodes workQueue workQueueLast]. rewrite seg_delete by done.
  rewrite delete_insert_eq, delete_id by (apply not_elem_of_dom; by rewrite heap_dom).
  unfold scan. rewrite load_seg by done. cbn [mbind option_bind]. unfold heap_of. rewrite <- !first_app, <- seg_app.
  destruct r as [|[q' w'] r]; cbn [first at_item]; [by rewrite app_nil_r|].
  f_equal. f_equal. f_equal. unfold last_slot. by rewrite !last_app_cons, last_cons_cons.
Qed.

Lemma return_false_state k q w r : NoDup (k ++ (q, w) :: r).*1 ->
  ProcessWorkQueue_return false (last_slot k) q (state_of (k ++ (q, w) :: r))
  = Some (at_item (k ++ [(q, w)]) r, state_of (k ++ (q, w) :: r)).
Proof.
  intros H. unfold ProcessWorkQueue_return. rewrite <- (last_slot_snoc k q w).
  replace (k ++ (q, w) :: r) with ((k ++ [(q, w)]) ++ r) in * by by rewrite <- app_assoc.
  by apply scan_state.
Qed.

(** ** The simulation *)

Lemma refines_init : refines {| shared := empty_queue; thread := Waiting; called := [] |} (spec_run []).
Proof. exists [], []. split_and!; try done. split; [constructor|done]. Qed.

(** The end of a scan is the scan of the specification. *)
Lemma refines_scan k r log : NoDup (k ++ r).*1 ->
  refines {| shared := state_of (k ++ r); thread := at_item k r; called := log |} (spec_scan k.*2 r.*2 log).
Proof.
  intros H. destruct r as [|[q w] r].
  - exists [], k. rewrite app_nil_r in H |- *. by split_and!.
  - exists k, ((q, w) :: r). by split_and!.
Qed.

Lemma refines_enter s σ : refines s σ -> thread s = Waiting -> exists s', step Enter s = Some s' /\ refines s' (spec_step Enter σ).
Proof.
  intros (k & r & [Hn E] & Hk & Hr & Hl & H) Hw.
  assert (k = []) as ->.
  { destruct (busy σ); [|by destruct H]. destruct H as [Hne H]. rewrite Hw in H. by destruct r as [|[? ?] ?]. }
  destruct s as [h t log]. cbn [shared thread called] in *. subst h. unfold step, ProcessWorkQueue_enter. cbn [shared called thread].
  pose proof (scan_state [] r Hn) as Es. change (last_slot []) with Root in Es. rewrite Es.
  eexists. split; [done|]. unfold spec_step. rewrite <- Hr, <- Hl. by apply (refines_scan [] r).
Qed.

Lemma refines_queue s σ addr w : refines s σ -> enabled (Queue addr w) s ->
  exists s', step (Queue addr w) s = Some s' /\ refines s' (spec_step (Queue addr w) σ).
Proof.
  intros (k & r & Hh & Hk & Hr & Hl & H) He. destruct addr as [q|]; cbn in He; unfold step.
  - apply bool_decide_unpack in He. destruct (queue_holds _ _ q w Hh He) as [-> Hn]. cbn.
    eexists. split; [done|]. exists k, (r ++ [(q, w)]). rewrite app_assoc. cbn. split_and!; [by split|done| |done|].
    { by rewrite fmap_app, Hr. }
    destruct (busy σ); [|done]. destruct H as [Hne ->]. split; [by destruct r|]. by destruct r as [|[? ?] ?].
  - eexists. split; [done|]. exists k, r. by split_and!.
Qed.

Lemma refines_return s σ result : refines s σ -> enabled (Return result) s ->
  exists s', step (Return result) s = Some s' /\ refines s' (spec_step (Return result) σ).
Proof.
  intros (k & r & [Hn E] & Hk & Hr & Hl & H) He. unfold enabled in He.
  destruct s as [h t log]. cbn [shared thread called] in *. destruct t as [|p q]; [done|].
  destruct (busy σ); [|by destruct H]. destruct H as [Hne H].
  destruct r as [|[q' w] r]; [done|]. injection H as -> ->.
  subst h. unfold step. cbn [shared thread called]. cbn [nodes state_of].
  pose proof (nodup_split _ _ _ _ Hn) as (_ & Hq & _ & Hkr). rewrite heap_lookup by done. cbn [mbind option_bind].
  unfold spec_step. rewrite <- Hr, <- Hk, <- Hl. cbn [fmap list_fmap snd]. destruct result.
  - rewrite return_true_state by done. eexists. split; [done|]. by apply refines_scan.
  - rewrite return_false_state by done. eexists. split; [done|]. cbn [fst snd item].
    replace (k ++ (q', w) :: r) with ((k ++ [(q', w)]) ++ r) in * by by rewrite <- app_assoc.
    replace (k.*2 ++ [w]) with ((k ++ [(q', w)]).*2) by by rewrite fmap_app. by apply refines_scan.
Qed.

Lemma step_refines a s σ : refines s σ -> enabled a s -> exists s', step a s = Some s' /\ refines s' (spec_step a σ).
Proof.
  intros H He. destruct a as [addr w| |result]; [by apply refines_queue| |by apply refines_return].
  apply refines_enter; [done|]. unfold enabled in He. by destruct (thread s).
Qed.

Lemma reach_refines acts o : reach acts o -> exists s, o = Some s /\ refines s (spec_run acts).
Proof.
  induction 1 as [|acts a s _ (s1 & [= <-] & Hr) He]; [eexists; split; [done|apply refines_init]|].
  destruct (step_refines a s _ Hr He) as (s' & -> & H). exists s'. split; [done|].
  unfold spec_run. by rewrite foldl_snoc.
Qed.

(** ** Lemmas on the specification *)

Lemma accepted_snoc acts a : accepted (acts ++ [a]) = accepted acts ++ accepted [a].
Proof. unfold accepted. by rewrite omap_app. Qed.

Lemma spec_run_snoc acts a : spec_run (acts ++ [a]) = spec_step a (spec_run acts).
Proof. unfold spec_run. by rewrite foldl_snoc. Qed.

(** Nothing is skipped when every call returns TRUE, and the calls come in order. *)
Lemma spec_fifo acts : (forall a, a ∈ acts -> a <> Return false) ->
  kept (spec_run acts) = [] /\ accepted acts = (returned (spec_run acts)).*1 ++ rest (spec_run acts).
Proof.
  induction acts as [|a acts IH] using rev_ind; intros H; [done|].
  rewrite spec_run_snoc, accepted_snoc. destruct IH as [Hk Ha]; [intros x Hx; apply H; set_solver|].
  rewrite Ha. destruct (spec_run acts) as [k r b log]. cbn [kept rest returned] in *. subst k.
  destruct a as [[q|] w| |[|]]; cbn; rewrite ?app_nil_r.
  - by rewrite <- app_assoc.
  - done.
  - by destruct r.
  - destruct r as [|x r]; cbn; [done|]. by destruct r; cbn; rewrite fmap_app, <- app_assoc.
  - exfalso. apply (H (Return false)); set_solver.
Qed.

(** The end of a pass with the results [rs] of its calls. *)
Definition left_over (ws : list work) (rs : list bool) : list work :=
  (filter (fun p : work * bool => p.2 = false) (zip ws rs)).*1.

Lemma spec_pass ws rs k log : length rs = length ws -> ws <> [] ->
  foldl (fun σ a => spec_step a σ) {| kept := k; rest := ws; busy := true; returned := log |} (map Return rs)
  = {| kept := []; rest := k ++ left_over ws rs; busy := false; returned := log ++ zip ws rs |}.
Proof.
  revert rs k log. induction ws as [|w ws IH]; [done|]. intros [|r rs] k log [= Hlen] _.
  cbn [map foldl spec_step rest kept returned]. destruct ws as [|w' ws].
  - destruct rs; [|done]. destruct r; unfold left_over; cbn; by rewrite ?app_nil_r.
  - cbn [spec_scan]. rewrite IH by done. rewrite <- app_assoc.
    destruct r; unfold left_over; cbn [zip_with]; [rewrite filter_cons_False by done|rewrite filter_cons_True by done];
      cbn [fmap list_fmap fst]; by rewrite <- ?app_assoc.
Qed.

(** As many returns as there are works to come are possible in a row. *)
Lemma reach_returns rs acts s : reach acts (Some s) -> thread s <> Waiting ->
  (length rs <= length (rest (spec_run acts)))%nat ->
  exists s', reach (acts ++ map Return rs) (Some s').
Proof.
  revert acts s. induction rs as [|r rs IH]; intros acts s Hs Hw Hl.
  { exists s. by rewrite app_nil_r. }
  assert (He : enabled (Return r) s) by (unfold enabled; by destruct (thread s)).
  pose proof (reach_step _ _ _ Hs He) as Hs'.
  destruct (reach_refines _ _ Hs') as (s1 & E & k & q & Hh & Hk & Hr & Hc & Hb). rewrite E in Hs'.
  replace (acts ++ map Return (r :: rs)) with ((acts ++ [Return r]) ++ map Return rs) by by rewrite <- app_assoc.
  destruct rs as [|r' rs]; [exists s1; by rewrite app_nil_r|].
  rewrite spec_run_snoc in Hb, Hr. unfold spec_step in Hb, Hr.
  destruct (rest (spec_run acts)) as [|w [|w' ws]] eqn:Er; [simpl in Hl; lia..|].
  apply (IH _ s1 Hs'); [|rewrite spec_run_snoc; unfold spec_step; rewrite Er; cbn in *; lia].
  cbn in Hb. destruct Hb as [Hne ->]. destruct q as [|[? ?] ?]; [done|discriminate].
Qed.

Fixpoint run (acts : list action) (s : system) : option system :=
  match acts with
  | [] => Some s
  | a :: acts => if enabled a s then s ← step a s; run acts s else None
  end.

Lemma run_reach acts acts0 s s' : reach acts0 (Some s) -> run acts s = Some s' -> reach (acts0 ++ acts) (Some s').
Proof.
  revert acts0 s. induction acts as [|a acts IH]; intros acts0 s Hs H; cbn in H.
  { injection H as ->. by rewrite app_nil_r. }
  destruct (enabled a s) eqn:He; [|done]. destruct (step a s) as [s1|] eqn:E; [|done].
  replace (acts0 ++ a :: acts) with ((acts0 ++ [a]) ++ acts) by by rewrite <- app_assoc.
  apply (IH _ s1); [|done]. rewrite <- E. apply reach_step; [done|by rewrite He].
Qed.

(** A queue whose cell for the next item is not known. *)
Definition state_at (ls : slot) (l : list (Z * work)) : queue := set_last ls (state_of l).

Lemma unlink_state ls k q w r : NoDup (k ++ (q, w) :: r).*1 ->
  exists s1, store (last_slot k) (first r None) (state_at ls (k ++ (q, w) :: r)) = Some s1 /\
    set_nodes (delete q (nodes s1)) s1 = state_at ls (k ++ r).
Proof.
  intros H. pose proof (nodup_split _ _ _ _ H) as (Hk & Hqk & Hqr & Hkr).
  unfold state_at, state_of, set_last. cbn [workQueue nodes]. rewrite heap_split, first_app. cbn [first].
  rewrite store_seg by done. eexists. split; [done|]. unfold set_nodes. cbn [nodes workQueue workQueueLast].
  rewrite seg_delete by done. rewrite delete_insert_eq, delete_id by (apply not_elem_of_dom; by rewrite heap_dom).
  unfold heap_of. by rewrite first_app, <- seg_app.
Qed.

Lemma load_state_at ls k r : NoDup (k ++ r).*1 -> load (last_slot k) (state_at ls (k ++ r)) = Some (first r None).
Proof. intros H. rewrite <- (load_state k r H). unfold last_slot. by destruct (last k) as [[? ?]|]. Qed.

Lemma zombies_loop_state fuel gone ls k r : NoDup (k ++ r).*1 -> (length r <= fuel)%nat ->
  zombies_loop fuel gone (last_slot k) (state_at ls (k ++ r))
  = Some (filter (fun w => is_zombie gone w = true) r.*2,
          state_of (k ++ filter (fun x : Z * work => is_zombie gone x.2 = false) r)).
Proof.
  revert ls k r. induction fuel as [|fuel IH]; intros ls k r H Hf.
  - destruct r; [|simpl in Hf; lia]. cbn [zombies_loop]. rewrite load_state_at by done. cbn. by rewrite app_nil_r.
  - cbn [zombies_loop]. rewrite load_state_at by done. cbn [mbind option_bind].
    destruct r as [|[q w] r]; [cbn; by rewrite app_nil_r|]. cbn [first].
    pose proof (nodup_split _ _ _ _ H) as (Hk & Hqk & Hqr & Hkr).
    cbn [state_at state_of set_last nodes]. rewrite heap_lookup by done. cbn [mbind option_bind item].
    fold (is_zombie gone w). destruct (is_zombie gone w) eqn:Ez.
    + cbn [next]. destruct (unlink_state ls k q w r H) as (s1 & Es & En). rewrite Es. cbn [mbind option_bind].
      rewrite En, IH by (done || (simpl in Hf; lia)). cbn [mbind option_bind fmap list_fmap fst snd].
      rewrite filter_cons_True, filter_cons_False by (cbn; congruence). done.
    + rewrite <- (last_slot_snoc k q w).
      change (set_last ls (state_of (k ++ (q, w) :: r))) with (state_at ls (k ++ (q, w) :: r)).
      replace (k ++ (q, w) :: r) with ((k ++ [(q, w)]) ++ r) in * by by rewrite <- app_assoc.
      rewrite IH by (done || (simpl in Hf; lia)). cbn [fmap list_fmap snd].
      rewrite filter_cons_False, filter_cons_True by (cbn; congruence). by rewrite <- app_assoc.
Qed.

Lemma clear_state fuel ls l : NoDup l.*1 -> (length l <= fuel)%nat ->
  ClearWorkQueue fuel (state_at ls l) = Some empty_queue.
Proof.
  revert l. induction fuel as [|fuel IH]; intros [|[q w] l] H Hf; simpl in Hf; try lia; try done.
  cbn [ClearWorkQueue]. cbn [state_at state_of set_last workQueue first load nodes].
  pose proof (nodup_split [] _ _ _ H) as (_ & Hqk & Hqr & Hl).
  pose proof (heap_lookup [] q w l Hqk) as E. cbn [app] in E. rewrite E. cbn [fmap option_fmap option_map next mbind option_bind].
  destruct (unlink_state ls [] q w l H) as (s1 & Es & En). cbn [app] in Es, En. change (last_slot []) with Root in Es.
  change (set_last ls (state_of ((q, w) :: l))) with (state_at ls ((q, w) :: l)).
  rewrite Es. cbn [mbind option_bind]. rewrite En. apply IH; [done|lia].
Qed.

(** ** Theorems *)

(** C2: whatever the interleaving of the two threads, no step writes through a pointer into a
    freed item, every item is freed when it is removed, and the pointers of the queue refine
    the sequence of the works to come. *)
Theorem work_queue_refines acts o :
  reach acts o -> exists s, o = Some s /\ refines s (spec_run acts).
Proof. apply reach_refines. Qed.

(** C0: when the procedures return TRUE, as the procedures of the display server do, the works
    that were accepted are called once each and in the order in which they were queued, also
    those queued during a pass; when the server thread leaves the function none is left. *)
Theorem work_procs_in_order acts s :
  reach acts (Some s) -> (forall a, a ∈ acts -> a <> Return false) ->
  exists ws, accepted acts = (called s).*1 ++ ws /\
    (forall acts' r, acts = acts' ++ [Return r] -> thread s = Waiting -> ws = []).
Proof.
  intros Hs Ha. destruct (reach_refines _ _ Hs) as (s1 & [= <-] & k & q & Hh & Hk & Hr & Hc & Hb).
  destruct (spec_fifo acts Ha) as [Hk0 E]. exists (rest (spec_run acts)). rewrite Hc. split; [done|].
  intros acts' r -> Hw. rewrite spec_run_snoc in *. unfold spec_step in *.
  destruct r; [|exfalso; apply (Ha (Return false)); set_solver].
  destruct (spec_fifo acts') as [Hk1 _]; [intros x Hx; apply Ha; set_solver|]. rewrite Hk1 in *.
  destruct (rest (spec_run acts')) as [|w [|w' ws]] eqn:Er; cbn in *; [|done|].
  - done.
  - destruct Hb as [Hne Ht]. rewrite Hw in Ht. by destruct q as [|[? ?] ?].
Qed.

(** A pass in which nothing is queued calls every work of the queue once, in order, ends,
    and leaves exactly the works whose procedure returned FALSE. *)
Theorem ProcessWorkQueue_pass acts s rs :
  reach acts (Some s) -> thread s = Waiting -> rest (spec_run acts) <> [] ->
  length rs = length (rest (spec_run acts)) ->
  exists s', reach (acts ++ Enter :: map Return rs) (Some s') /\ thread s' = Waiting /\
    called s' = called s ++ zip (rest (spec_run acts)) rs /\
    rest (spec_run (acts ++ Enter :: map Return rs)) = left_over (rest (spec_run acts)) rs.
Proof.
  intros Hs Hw Hne Hl. assert (He : enabled Enter s) by (unfold enabled; by rewrite Hw).
  pose proof (reach_step _ _ _ Hs He) as H1.
  destruct (reach_refines _ _ Hs) as (s0 & [= <-] & k & q & Hh & Hk & Hr & Hc & Hb).
  destruct (reach_refines _ _ H1) as (s1 & E & k1 & q1 & Hh1 & Hk1 & Hr1 & Hc1 & Hb1). rewrite E in H1.
  set (ws := rest (spec_run acts)) in *.
  assert (Hs1 : spec_run (acts ++ [Enter]) = {| kept := []; rest := ws; busy := true; returned := returned (spec_run acts) |}).
  { rewrite spec_run_snoc. cbn. fold ws. destruct ws; done. }
  assert (Hend : spec_run (acts ++ Enter :: map Return rs)
    = {| kept := []; rest := left_over ws rs; busy := false; returned := returned (spec_run acts) ++ zip ws rs |}).
  { replace (acts ++ Enter :: map Return rs) with ((acts ++ [Enter]) ++ map Return rs) by by rewrite <- app_assoc.
    unfold spec_run. rewrite foldl_app. fold (spec_run (acts ++ [Enter])). rewrite Hs1. by rewrite spec_pass. }
  destruct (reach_returns rs _ _ H1) as (s' & H2).
  - rewrite Hs1 in Hb1. cbn in Hb1. destruct Hb1 as [Hq ->]. by destruct q1 as [|[? ?] ?].
  - rewrite Hs1. cbn. lia.
  - rewrite <- app_assoc in H2. cbn [app] in H2. exists s'.
    destruct (reach_refines _ _ H2) as (s2 & [= <-] & k2 & q2 & Hh2 & Hk2 & Hr2 & Hc2 & Hb2).
    rewrite Hend in *. cbn in *. split_and!; [done|by destruct Hb2|by rewrite Hc2, Hc|done].
Qed.

(** The items of the clients that are gone are called in order and freed while the others
    stay queued in order, and clearing the queue frees every item. *)
Theorem ProcessWorkQueueZombies_serves fuel gone s l :
  holds s l -> (length l <= fuel)%nat ->
  ProcessWorkQueueZombies fuel gone s
    = Some (filter (fun w => is_zombie gone w = true) l.*2,
            state_of (filter (fun x : Z * work => is_zombie gone x.2 = false) l)) /\
  ClearWorkQueue fuel s = Some empty_queue.
Proof.
  intros [Hn ->] Hf. split.
  - exact (zombies_loop_state fuel gone (last_slot l) [] l Hn Hf).
  - exact (clear_state fuel (last_slot l) l Hn Hf).
Qed.

(** ** Witnesses *)

(** Two works are queued, the second one while the first is being called; both are called. *)
Definition w1 : work := {| function := 1; client := 0; closure := 10 |}.
Definition w2 : work := {| function := 2; client := 0; closure := 20 |}.
Definition w3 : work := {| function := 3; client := 7; closure := 30 |}.

Definition init : system := {| shared := empty_queue; thread := Waiting; called := [] |}.

Definition demo_acts : list action :=
  [Queue (Some 100) w1; Enter; Queue (Some 200) w2; Return true; Queue (Some 100) w3; Return true; Return true].

Definition demo_end : system := {| shared := empty_queue; thread := Waiting; called := [(w1, true); (w2, true); (w3, true)] |}.

Lemma demo_reach : reach demo_acts (Some demo_end).
Proof. apply (run_reach demo_acts [] init); [constructor|by vm_compute]. Qed.

Lemma work_queue_refines_witness : exists s, Some demo_end = Some s /\ refines s (spec_run demo_acts).
Proof. apply (work_queue_refines demo_acts). apply demo_reach. Defined.

Lemma work_procs_in_order_witness :
  exists ws, accepted demo_acts = (called demo_end).*1 ++ ws /\
    (forall acts' r, demo_acts = acts' ++ [Return r] -> thread demo_end = Waiting -> ws = []).
Proof.
  apply (work_procs_in_order demo_acts demo_end); [apply demo_reach|].
  intros a Ha ->. repeat (apply elem_of_cons in Ha as [Ha|Ha]; [discriminate|]). by apply not_elem_of_nil in Ha.
Defined.

Definition demo_two : system :=
  {| shared := state_of [(100, w1); (200, w2)]; thread := Waiting; called := [] |}.

Lemma ProcessWorkQueue_pass_witness :
  exists s', reach [Queue (Some 100) w1; Queue (Some 200) w2; Enter; Return false; Return true] (Some s') /\
    thread s' = Waiting /\ called s' = [(w1, false); (w2, true)] /\
    rest (spec_run [Queue (Some 100) w1; Queue (Some 200) w2; Enter; Return false; Return true]) = [w1].
Proof.
  apply (ProcessWorkQueue_pass [Queue (Some 100) w1; Queue (Some 200) w2] demo_two [false; true]);
    [apply (run_reach [Queue (Some 100) w1; Queue (Some 200) w2] [] init); [constructor|by vm_compute]
    |reflexivity|discriminate|reflexivity].
Defined.

Lemma ProcessWorkQueueZombies_serves_witness :
  ProcessWorkQueueZombies 2 (fun c => c =? 7) (state_of [(100, w3); (200, w2)]) = Some ([w3], state_of [(200, w2)]) /\
  ClearWorkQueue 2 (state_of [(100, w3); (200, w2)]) = Some empty_queue.
Proof.
  apply (ProcessWorkQueueZombies_serves 2 (fun c => c =? 7) _ [(100, w3); (200, w2)]);
    [split; [by apply (bool_decide_unpack _); vm_compute|reflexivity]|simpl; lia].
Defined.
