(* ===== verification/Wire.v ===== *)
(** * The events on the socket between the activity and the server
    ([lorie.h], the senders of [activity.c] and [cmdentrypoint.c])

    Both processes read and write the union [lorieEvent], 24 bytes on the 64-bit
    targets, little-endian, some of them followed by a text. A [float] is kept as
    the 32-bit pattern that is sent. *)

From S2P Require Import Prelude ClipboardText.

(** ** Data *)

(** [eventType], with what each member of the union carries. *)
Inductive lorieEvent :=
  | EVENT_UNKNOWN (type : Z)
  | EVENT_SHARED_SERVER_STATE
  | EVENT_ADD_BUFFER
  | EVENT_REMOVE_BUFFER (id : Z)
  | EVENT_SCREEN_SIZE (width height framerate name_size : Z)
  | EVENT_TOUCH (type id x y : Z)
  | EVENT_MOUSE (x y detail down relative : Z)
  | EVENT_KEY (key state : Z)
  | EVENT_STYLUS (x y pressure tilt_x tilt_y orientation buttons eraser mouse : Z)
  | EVENT_STYLUS_ENABLE (enable : Z)
  | EVENT_UNICODE (code : Z)
  | EVENT_CLIPBOARD_ENABLE (enable : Z)
  | EVENT_CLIPBOARD_ANNOUNCE
  | EVENT_CLIPBOARD_REQUEST
  | EVENT_CLIPBOARD_SEND (count : Z)
  | EVENT_WINDOW_FOCUS_CHANGED.

Definition event_size : nat := 24.

(** The low [n] bytes of a number, and back. *)
Fixpoint le (n : nat) (z : Z) : list Z :=
  match n with
  | O => []
  | S n => z mod 256 :: le n (z / 256)
  end.

Fixpoint unle (l : list Z) : Z :=
  match l with
  | [] => 0
  | b :: l => b + 256 * unle l
  end.

Definition pad (n : nat) : list Z := replicate n 0.

(** The members of the union, with the padding the compiler puts in. *)
Definition encode (e : lorieEvent) : list Z :=
  match e with
  | EVENT_UNKNOWN t => t :: pad 23
  | EVENT_SHARED_SERVER_STATE => 1 :: pad 23
  | EVENT_ADD_BUFFER => 2 :: pad 23
  | EVENT_REMOVE_BUFFER id => 3 :: pad 7 ++ le 8 id ++ pad 8
  | EVENT_SCREEN_SIZE w h f n => 4 :: pad 1 ++ le 2 w ++ le 2 h ++ le 2 f ++ le 8 n ++ pad 8
  | EVENT_TOUCH t id x y => 5 :: pad 1 ++ le 2 t ++ le 2 id ++ le 2 x ++ le 2 y ++ pad 14
  | EVENT_MOUSE x y d dn r => 6 :: pad 3 ++ le 4 x ++ le 4 y ++ le 1 d ++ le 1 dn ++ le 1 r ++ pad 9
  | EVENT_KEY k s => 7 :: pad 1 ++ le 2 k ++ le 1 s ++ pad 19
  | EVENT_STYLUS x y p tx ty o b er m =>
      8 :: pad 3 ++ le 4 x ++ le 4 y ++ le 2 p ++ le 1 tx ++ le 1 ty ++ le 2 o ++ le 1 b ++ le 1 er ++ le 1 m ++ pad 3
  | EVENT_STYLUS_ENABLE en => 9 :: le 1 en ++ pad 22
  | EVENT_UNICODE c => 10 :: pad 3 ++ le 4 c ++ pad 16
  | EVENT_CLIPBOARD_ENABLE en => 11 :: le 1 en ++ pad 22
  | EVENT_CLIPBOARD_ANNOUNCE => 12 :: pad 23
  | EVENT_CLIPBOARD_REQUEST => 13 :: pad 23
  | EVENT_CLIPBOARD_SEND c => 14 :: pad 3 ++ le 4 c ++ pad 16
  | EVENT_WINDOW_FOCUS_CHANGED => 15 :: pad 23
  end.

Definition field (b : list Z) (off n : nat) : Z := unle (take n (drop off b)).

(** The members that the handlers read, for the type in the first byte. *)
Definition decode (b : list Z) : lorieEvent :=
  let f := field b in
  match f 0%nat 1%nat with
  | 1 => EVENT_SHARED_SERVER_STATE
  | 2 => EVENT_ADD_BUFFER
  | 3 => EVENT_REMOVE_BUFFER (f 8%nat 8%nat)
  | 4 => EVENT_SCREEN_SIZE (f 2%nat 2%nat) (f 4%nat 2%nat) (f 6%nat 2%nat) (f 8%nat 8%nat)
  | 5 => EVENT_TOUCH (f 2%nat 2%nat) (f 4%nat 2%nat) (f 6%nat 2%nat) (f 8%nat 2%nat)
  | 6 => EVENT_MOUSE (f 4%nat 4%nat) (f 8%nat 4%nat) (f 12%nat 1%nat) (f 13%nat 1%nat) (f 14%nat 1%nat)
  | 7 => EVENT_KEY (f 2%nat 2%nat) (f 4%nat 1%nat)
  | 8 => EVENT_STYLUS (f 4%nat 4%nat) (f 8%nat 4%nat) (f 12%nat 2%nat) (i8 (f 14%nat 1%nat)) (i8 (f 15%nat 1%nat))
           (i16 (f 16%nat 2%nat)) (f 18%nat 1%nat) (f 19%nat 1%nat) (f 20%nat 1%nat)
  | 9 => EVENT_STYLUS_ENABLE (f 1%nat 1%nat)
  | 10 => EVENT_UNICODE (f 4%nat 4%nat)
  | 11 => EVENT_CLIPBOARD_ENABLE (f 1%nat 1%nat)
  | 12 => EVENT_CLIPBOARD_ANNOUNCE
  | 13 => EVENT_CLIPBOARD_REQUEST
  | 14 => EVENT_CLIPBOARD_SEND (f 4%nat 4%nat)
  | 15 => EVENT_WINDOW_FOCUS_CHANGED
  | t => EVENT_UNKNOWN t
  end.

(** What fits into the members. *)
Definition fits (e : lorieEvent) : Prop :=
  let u w x := 0 <= x < 2 ^ w in
  let s w x := - 2 ^ (w - 1) <= x < 2 ^ (w - 1) in
  match e with
  | EVENT_UNKNOWN t => t = 0 \/ 16 <= t < 256
  | EVENT_REMOVE_BUFFER id => u 64 id
  | EVENT_SCREEN_SIZE w h f n => u 16 w /\ u 16 h /\ u 16 f /\ u 64 n
  | EVENT_TOUCH t id x y => u 16 t /\ u 16 id /\ u 16 x /\ u 16 y
  | EVENT_MOUSE x y d dn r => u 32 x /\ u 32 y /\ u 8 d /\ u 8 dn /\ u 8 r
  | EVENT_KEY k st => u 16 k /\ u 8 st
  | EVENT_STYLUS x y p tx ty o b er m =>
      u 32 x /\ u 32 y /\ u 16 p /\ s 8 tx /\ s 8 ty /\ s 16 o /\ u 8 b /\ u 8 er /\ u 8 m
  | EVENT_STYLUS_ENABLE en | EVENT_CLIPBOARD_ENABLE en => u 8 en
  | EVENT_UNICODE c | EVENT_CLIPBOARD_SEND c => u 32 c
  | _ => True
  end.

(** ** The key codes of Android *)

(** The initialisers of [android_to_linux_keycode]: an Android key code and the
    number of the Linux key ([linux/input-event-codes.h]). *)
Definition keycode_initialisers : list (Z * Z) :=
  [(4, 1); (7, 11); (8, 2); (9, 3); (10, 4); (11, 5); (12, 6); (13, 7);
   (14, 8); (15, 9); (16, 10); (17, 55); (19, 103); (20, 108); (21, 105); (22, 106);
   (23, 28); (24, 115); (25, 114); (26, 116); (27, 212); (28, 355); (29, 30); (30, 48);
   (31, 46); (32, 32); (33, 18); (34, 33); (35, 34); (36, 35); (37, 23); (38, 36);
   (39, 37); (40, 38); (41, 50); (42, 49); (43, 24); (44, 25); (45, 16); (46, 19);
   (47, 31); (48, 20); (49, 22); (50, 47); (51, 17); (52, 45); (53, 21); (54, 44);
   (55, 51); (56, 52); (57, 56); (58, 100); (59, 42); (60, 54); (61, 15); (62, 57);
   (64, 150); (65, 155); (66, 28); (67, 14); (68, 41); (69, 12); (70, 13); (71, 26);
   (72, 27); (73, 43); (74, 39); (75, 40); (76, 53); (81, 78); (82, 438); (84, 217);
   (85, 164); (86, 625); (87, 163); (88, 165); (89, 168); (90, 208); (91, 113); (92, 104);
   (93, 109); (111, 1); (112, 111); (113, 29); (114, 97); (115, 58); (116, 70); (117, 125);
   (118, 126); (120, 210); (121, 411); (122, 102); (123, 107); (124, 110); (125, 159); (126, 200);
   (127, 201); (128, 160); (129, 161); (130, 167); (131, 59); (132, 60); (133, 61); (134, 62);
   (135, 63); (136, 64); (137, 65); (138, 66); (139, 67); (140, 68); (141, 87); (142, 88);
   (143, 69); (144, 82); (145, 79); (146, 80); (147, 81); (148, 75); (149, 76); (150, 77);
   (151, 71); (152, 72); (153, 73); (154, 98); (155, 55); (156, 74); (157, 78); (158, 83);
   (159, 121); (160, 96); (161, 117); (162, 179); (163, 180); (164, 113); (165, 358); (166, 402);
   (167, 403); (168, 418); (169, 419); (170, 377); (208, 397); (210, 140)].

(** The array of 304 entries; the entries without an initialiser are 0. *)
Definition android_to_linux_keycode : list Z :=
  map (fun k : nat => match list_find (fun p : Z * Z => p.1 = Z.of_nat k) keycode_initialisers with
                      | Some (_, p) => p.2
                      | None => 0
                      end) (seq 0 304).

(** ** Multibyte characters of the C library *)

(** [n] continuation bytes; [Some None] when one is missing. *)
Fixpoint mb_cont (n : nat) (l : list Z) (acc : Z) : option (option Z) :=
  match n with
  | O => Some (Some acc)
  | S n =>
      b ← head l;
      if Z.land b 0xc0 =? 0x80 then mb_cont n (tail l) (Z.lor (Z.shiftl acc 6) (Z.land b 0x3f))
      else Some None
  end.

(** Overlong forms, surrogates and what is above U+10FFFF are invalid. *)
Definition mb_check (n : nat) (low : Z) (wc : option Z) : Z * nat + bool :=
  match wc with
  | None => inr false
  | Some wc => if (wc <? low) || ((0xd800 <=? wc) && (wc <? 0xe000)) || (0x10ffff <? wc)
               then inr false else inl (wc, n)
  end.

(** [mbrtowc] in a UTF-8 locale, at the front of what is left of the array: the
    character and its length, [inr false] for an invalid sequence and [inr true]
    for the terminator; [None] when it reads behind the array. *)
Definition mbrtowc (l : list Z) : option (Z * nat + bool) :=
  c ← head l;
  if c =? 0 then Some (inr true)
  else if Z.land c 0x80 =? 0 then Some (inl (c, 1%nat))
  else if Z.land c 0xe0 =? 0xc0 then r ← mb_cont 1 (tail l) (Z.land c 0x1f); Some (mb_check 2 0x80 r)
  else if Z.land c 0xf0 =? 0xe0 then r ← mb_cont 2 (tail l) (Z.land c 0x0f); Some (mb_check 3 0x800 r)
  else if Z.land c 0xf8 =? 0xf0 then r ← mb_cont 3 (tail l) (Z.land c 0x07); Some (mb_check 4 0x10000 r)
  else Some (inr false).

(** ** The senders of the activity

    Each one gives the bytes it writes; [connected] is [conn_fd != -1]. *)

Section senders.
Context (connected : bool).

Definition send (e : lorieEvent) (payload : list Z) : list Z :=
  if connected then encode e ++ payload else [].

Definition setClipboardSyncEnabled (enable : Z) : list Z := send (EVENT_CLIPBOARD_ENABLE (u8 enable)) [].
Definition sendClipboardAnnounce : list Z := send EVENT_CLIPBOARD_ANNOUNCE [].

(** [text] is the Java array, [None] when it is null. *)
Definition sendClipboardEvent (text : option (list Z)) : list Z :=
  match text with
  | Some l => send (EVENT_CLIPBOARD_SEND (u32 (Z.of_nat (length l)))) l
  | None => []
  end.

(** [jname] is the C string that Java gives, without its NUL. *)
Definition sendWindowChange (width height framerate : Z) (jname : option (list Z)) : list Z :=
  let name := if (width <=? 0) || (height <=? 0) then None else jname in
  send (EVENT_SCREEN_SIZE (u16 width) (u16 height) (u16 framerate)
          (match name with Some n => Z.of_nat (length n) | None => 0 end)) (default [] name).

Definition sendMouseEvent (x y which_button button_down relative : Z) : list Z :=
  send (EVENT_MOUSE x y (u8 which_button) (u8 button_down) (u8 relative)) [].

Definition sendTouchEvent (action id x y : Z) : list Z :=
  if action =? -1 then [] else send (EVENT_TOUCH (u16 action) (u16 id) (u16 x) (u16 y)) [].

Definition sendStylusEvent (x y pressure tilt_x tilt_y orientation buttons eraser mouse : Z) : list Z :=
  send (EVENT_STYLUS x y (u16 pressure) (i8 tilt_x) (i8 tilt_y) (i16 orientation) (u8 buttons) (u8 eraser) (u8 mouse)) [].

Definition requestStylusEnabled (enabled : Z) : list Z := send (EVENT_STYLUS_ENABLE (u8 enabled)) [].

(** [None] when the table is read outside of its bounds. *)
Definition sendKeyEvent (scan_code key_code key_down : Z) : option (list Z) :=
  if connected then
    code ← (if negb (scan_code =? 0) then Some scan_code else rdz android_to_linux_keycode key_code);
    Some (encode (EVENT_KEY (u16 (i32 (code + 8))) (u8 key_down)))
  else Some [].

(** The loop over the text from [p] on; [None] when [fuel] rounds are not enough. *)
Fixpoint text_loop (fuel : nat) (l : list Z) : option (list Z) :=
  match fuel with
  | O => None
  | S fuel =>
      c ← head l;
      if c =? 0 then Some []
      else
        r ← mbrtowc l;
        match r with
        | inr _ => Some []
        | inl (wc, len) =>
            let sent := encode (EVENT_UNICODE (u32 wc)) in
            if decide (length l <= len)%nat then Some sent
            else r ← text_loop fuel (drop len l); Some (sent ++ r)
        end
  end.

(** The bytes of the array are read as unsigned. *)
Definition sendTextEvent (text : option (list Z)) : option (list Z) :=
  match text with
  | Some ((_ :: _) as l) => if connected then text_loop (length l) l else Some []
  | _ => Some []
  end.

End senders.

(** ** Lemmas on bytes *)

Lemma unle_le n z : unle (le n z) = z mod 256 ^ Z.of_nat n.
Proof.
  revert z. induction n as [|n IH]; intros z; [by rewrite Z.mod_1_r|].
  cbn [le unle]. rewrite IH, Nat2Z.inj_succ, Z.pow_succ_r by lia.
  assert (0 < 256 ^ Z.of_nat n) by (apply Z.pow_pos_nonneg; lia).
  rewrite (Z.rem_mul_r z 256) by lia. lia.
Qed.

Lemma unle_le_small n z : 0 <= z < 256 ^ Z.of_nat n -> unle (le n z) = z.
Proof. intros. rewrite unle_le. by apply Z.mod_small. Qed.

Lemma le_length n z : length (le n z) = n.
Proof. revert z. induction n as [|n IH]; intros z; [done|]. cbn. by rewrite IH. Qed.

(** A signed number is sent in two's complement. *)
Lemma swrap_unle n z : - 2 ^ (8 * Z.of_nat n - 1) <= z < 2 ^ (8 * Z.of_nat n - 1) -> (0 < n)%nat ->
  swrap (8 * Z.of_nat n) (unle (le n z)) = z.
Proof.
  intros H Hn. rewrite unle_le. change 256 with (2 ^ 8). rewrite <- Z.pow_mul_r by lia.
  unfold swrap. rewrite Zplus_mod_idemp_l.
  assert (2 ^ (8 * Z.of_nat n) = 2 * 2 ^ (8 * Z.of_nat n - 1)) as E
    by (rewrite <- Z.pow_succ_r by lia; f_equal; lia).
  rewrite Z.mod_small; lia.
Qed.

Lemma encode_length e : length (encode e) = event_size.
Proof. destruct e; reflexivity. Qed.

(** A goal [unle (le n z) = z], unfolded. *)
Ltac decode_field :=
  match goal with
  | |- _ = ?z =>
      first [ change (unle (le 1 z) = z) | change (unle (le 2 z) = z) | change (unle (le 4 z) = z)
            | change (unle (le 8 z) = z) ]; apply unle_le_small; simpl Z.of_nat; lia
  | |- _ = ?z => change (swrap (8 * Z.of_nat 1) (unle (le 1 z)) = z); apply swrap_unle; simpl Z.of_nat; lia
  | |- _ = ?z => change (swrap (8 * Z.of_nat 2) (unle (le 2 z)) = z); apply swrap_unle; simpl Z.of_nat; lia
  end.

Lemma decode_unknown t : t = 0 \/ 16 <= t < 256 -> decode (encode (EVENT_UNKNOWN t)) = EVENT_UNKNOWN t.
Proof.
  intros [->|H]; [reflexivity|]. unfold decode, field. cbn -[Z.mul Z.add].
  replace (t + 256 * 0) with t by lia. destruct t as [|p|p]; [lia| |lia].
  do 4 (destruct p as [p|p|]; try lia; try done).
Qed.

Lemma decode_encode e : fits e -> decode (encode e) = e.
Proof.
  intros H. destruct e; cbn [fits] in H; try reflexivity; [by apply decode_unknown|..];
    destruct_and?; unfold decode, field; cbn -[Z.mul Z.add Z.modulo Z.div swrap]; f_equal; decode_field.
Qed.

Lemma send_decodes e payload : fits e ->
  decode (take event_size (send true e payload)) = e /\ drop event_size (send true e payload) = payload.
Proof.
  intros H. unfold send. rewrite <- (encode_length e), take_app_length, drop_app_length.
  split; [by apply decode_encode|done].
Qed.

(** ** Lemmas on [mbrtowc] *)

Lemma mb_cont_step n l acc d : 0 <= acc -> 0 <= d < 64 ->
  mb_cont (S n) ((0x80 + d) :: l) acc = mb_cont n l (acc * 64 + d).
Proof.
  intros Ha Hd. cbn [mb_cont head tail mbind option_bind]. mask_tests. f_equal.
  rewrite Z.shiftl_mul_pow2 by lia. change 0x3f with (2 ^ 6 - 1). rewrite land_ones_mod by lia.
  replace ((0x80 + d) mod 2 ^ 6) with d by (change (2 ^ 6) with 64; Z.div_mod_to_equations; lia).
  apply (lor_add_low acc d 6); lia.
Qed.

Lemma mb_check_ok n low c : low <= c -> is_scalar c -> mb_check n low (Some c) = inl (c, n).
Proof. unfold is_scalar, mb_check. intros. bcase; (done || lia). Qed.

Lemma mbrtowc_encode c rest : is_text c ->
  mbrtowc (utf8_encode c ++ rest) = Some (inl (c, length (utf8_encode c))).
Proof.
  intros [H0 Hs]. assert (0 <= c < 0x110000) as Hr by (unfold is_scalar in Hs; lia).
  unfold utf8_encode, mbrtowc.
  destruct (Z.ltb_spec c 0x80); [|destruct (Z.ltb_spec c 0x800); [|destruct (Z.ltb_spec c 0x10000)]];
    cbn [length app head tail mbind option_bind];
    pose proof (Z.mod_pos_bound c 64 ltac:(lia));
    pose proof (Z.mod_pos_bound (c / 64) 64 ltac:(lia));
    pose proof (Z.mod_pos_bound (c / 4096) 64 ltac:(lia)).
  - by mask_tests.
  - assert (0 <= c / 64 < 32) by (split; [apply Z.div_pos|apply Z.div_lt_upper_bound]; lia).
    mask_tests. change 0x1f with (2 ^ 5 - 1). rewrite land_ones_mod by lia.
    replace ((0xc0 + c / 64) mod 2 ^ 5) with (c / 64) by (change (2 ^ 5) with 32; Z.div_mod_to_equations; lia).
    rewrite mb_cont_step by lia. cbn [mb_cont mbind option_bind].
    replace (c / 64 * 64 + c mod 64) with c by (Z.div_mod_to_equations; lia). by rewrite mb_check_ok.
  - assert (0 <= c / 4096 < 16) by (split; [apply Z.div_pos|apply Z.div_lt_upper_bound]; lia).
    mask_tests. change 0x0f with (2 ^ 4 - 1). rewrite land_ones_mod by lia.
    replace ((0xe0 + c / 4096) mod 2 ^ 4) with (c / 4096) by (change (2 ^ 4) with 16; Z.div_mod_to_equations; lia).
    rewrite !mb_cont_step by lia. cbn [mb_cont mbind option_bind].
    replace ((c / 4096 * 64 + c / 64 mod 64) * 64 + c mod 64) with c by (Z.div_mod_to_equations; lia). by rewrite mb_check_ok.
  - assert (0 <= c / 262144 < 8) by (split; [apply Z.div_pos|apply Z.div_lt_upper_bound]; lia).
    mask_tests. change 0x07 with (2 ^ 3 - 1). rewrite land_ones_mod by lia.
    replace ((0xf0 + c / 262144) mod 2 ^ 3) with (c / 262144) by (change (2 ^ 3) with 8; Z.div_mod_to_equations; lia).
    rewrite !mb_cont_step by lia. cbn [mb_cont mbind option_bind].
    replace (((c / 262144 * 64 + c / 4096 mod 64) * 64 + c / 64 mod 64) * 64 + c mod 64) with c
      by (Z.div_mod_to_equations; lia). by rewrite mb_check_ok.
Qed.

Definition unicode_events (cs : list Z) : list Z := concat (map (fun c => encode (EVENT_UNICODE c)) cs).

Lemma text_loop_text cs rest fuel : Forall is_text cs -> (rest = [] /\ cs <> [] \/ exists r, rest = 0 :: r) ->
  (length cs < fuel + (if rest is [] then 1 else 0))%nat ->
  text_loop fuel (utf8_text cs ++ rest) = Some (unicode_events cs).
Proof.
  intros Hcs. revert fuel. induction Hcs as [|c cs Hc Hcs IH]; intros fuel Hrest Hf.
  { destruct Hrest as [[_ ?]|[r ->]]; [done|]. destruct fuel; [simpl in Hf; lia|]. done. }
  destruct fuel as [|fuel]; [destruct rest; simpl in Hf; lia|].
  rewrite utf8_text_cons, <- app_assoc. destruct (utf8_encode_head c (proj1 Hc)) as (b & t & E & Hb).
  cbn [text_loop]. rewrite mbrtowc_encode by done. rewrite E at 1. cbn [app head mbind option_bind].
  rewrite (proj2 (Z.eqb_neq b 0)) by done. rewrite drop_app_length, length_app.
  unfold is_text, is_scalar in Hc. rewrite uwrap_small by lia.
  pose proof (utf8_text_length cs). case_decide as Hd.
  - rewrite length_app in Hd. destruct cs; [|simpl in *; lia]. destruct rest; [|simpl in *; lia].
    unfold unicode_events. cbn [map concat]. by rewrite app_nil_r.
  - rewrite IH; [done| |simpl in Hf |- *; destruct rest; lia].
    destruct Hrest as [[-> _]|]; [|by right]. left. split; [done|]. intros ->. cbn [utf8_text] in Hd. simpl in Hd. lia.
Qed.

(** The arguments fit after they were reduced. *)
Ltac fit := repeat first [assumption | apply uwrap_range; lia | apply swrap_range; lia | lia | split].

(** ** Theorems *)

(** C36: what the senders of the activity write for an open connection is read back by the
    server with every argument reduced to the width of its member, and the text follows. *)
Theorem activity_events_arrive :
  (forall action id x y, action <> -1 ->
     decode (sendTouchEvent true action id x y) = EVENT_TOUCH (u16 action) (u16 id) (u16 x) (u16 y)) /\
  (forall x y button down relative, 0 <= x < 2 ^ 32 -> 0 <= y < 2 ^ 32 ->
     decode (sendMouseEvent true x y button down relative) = EVENT_MOUSE x y (u8 button) (u8 down) (u8 relative)) /\
  (forall x y p tx ty o b er m, 0 <= x < 2 ^ 32 -> 0 <= y < 2 ^ 32 ->
     decode (sendStylusEvent true x y p tx ty o b er m)
     = EVENT_STYLUS x y (u16 p) (i8 tx) (i8 ty) (i16 o) (u8 b) (u8 er) (u8 m)) /\
  (forall l, Z.of_nat (length l) < 2 ^ 31 ->
     let b := sendClipboardEvent true (Some l) in
     decode (take event_size b) = EVENT_CLIPBOARD_SEND (Z.of_nat (length l)) /\ drop event_size b = l) /\
  (forall w h f name, 0 < w -> 0 < h -> Z.of_nat (length name) < 2 ^ 64 ->
     let b := sendWindowChange true w h f (Some name) in
     decode (take event_size b) = EVENT_SCREEN_SIZE (u16 w) (u16 h) (u16 f) (Z.of_nat (length name)) /\
     drop event_size b = name).
Proof.
  split_and!.
  - intros action id x y Ha. unfold sendTouchEvent. rewrite (proj2 (Z.eqb_neq action (-1))) by done.
    unfold send. rewrite app_nil_r. apply decode_encode. cbn [fits]. fit.
  - intros x y b d r Hx Hy. unfold sendMouseEvent, send. rewrite app_nil_r. apply decode_encode.
    cbn [fits]. fit.
  - intros x y p tx ty o b er m Hx Hy. unfold sendStylusEvent, send. rewrite app_nil_r. apply decode_encode.
    cbn [fits]. fit.
  - intros l Hl b. unfold b, sendClipboardEvent. rewrite uwrap_small by lia. apply send_decodes. cbn [fits]. lia.
  - intros w h f name Hw Hh Hn b. unfold b, sendWindowChange.
    rewrite (proj2 (Z.leb_gt w 0)), (proj2 (Z.leb_gt h 0)) by done. cbn [orb default].
    apply send_decodes. cbn [fits]. fit.
Qed.

(** A UTF-8 text, ended by its length or by a NUL, is sent as one Unicode event for each of
    its characters, in order, and no byte behind the array is read. *)
Theorem sendTextEvent_types cs rest :
  Forall is_text cs -> (rest = [] \/ exists r, rest = 0 :: r) ->
  sendTextEvent true (Some (utf8_text cs ++ rest)) = Some (unicode_events cs).
Proof.
  intros Hcs Hrest. unfold sendTextEvent. pose proof (utf8_text_length cs).
  destruct (utf8_text cs ++ rest) as [|b l] eqn:E.
  - apply app_eq_nil in E as [E _]. rewrite E in H. by destruct cs; [|simpl in H; lia].
  - rewrite <- E. apply text_loop_text; [done| |].
    + destruct Hrest as [->|?]; [|by right]. left. split; [done|]. intros ->. discriminate.
    + rewrite length_app. destruct rest; simpl; lia.
Qed.

(** A key without a scan code is sent as the Linux key of the table plus 8; the table is
    read inside its 304 entries only for the Android key codes below 304. *)
Theorem sendKeyEvent_code scan key down :
  is_Some (sendKeyEvent true scan key down) <-> scan <> 0 \/ 0 <= key < 304.
Proof.
  unfold sendKeyEvent. destruct (Z.eqb_spec scan 0) as [->|Hs]; cbn [negb].
  - assert (is_Some (rdz android_to_linux_keycode key) <-> 0 <= key < 304) as E.
    { rewrite rdz_is_Some. unfold android_to_linux_keycode. by rewrite length_map, length_seq. }
    destruct (rdz android_to_linux_keycode key) as [c|] eqn:Er; cbn [mbind option_bind].
    + split; [intros _; right; apply E; eauto|eauto].
    + split; [intros [? [=]]|]. intros [?|H]; [done|]. apply E in H as [? [=]].
  - cbn [mbind option_bind]. split; eauto.
Qed.

(** ** Witnesses *)

Lemma sendTextEvent_types_witness :
  sendTextEvent true (Some (utf8_text [72; 0x20ac; 0x1f600] ++ [0; 1])) = Some (unicode_events [72; 0x20ac; 0x1f600]).
Proof.
  apply (sendTextEvent_types [72; 0x20ac; 0x1f600] [0; 1]); [|eauto].
  repeat constructor; unfold is_scalar; lia.
Defined.

(** A character cut by the end of the array makes [mbrtowc] read behind it. *)
Example sendTextEvent_truncated : sendTextEvent true (Some [72; 0xe2; 0x82]) = None.
Proof. reflexivity. Qed.

(** The key A, by its Android key code. *)
Example sendKeyEvent_a : sendKeyEvent true 0 29 1 = Some (encode (EVENT_KEY (30 + 8) 1)).
Proof. by vm_compute. Qed.
