(* ===== verification/Floats.v ===== *)
(** * Floating point

    [float] and [double] are the binary formats of IEEE 754, computed by the
    specification of the Standard Library ([SpecFloat]), so that the functions that use
    them can be evaluated. The lemmas say how far the results are from the exact ones:
    a result is not below a float that the exact value is not below, and not above a
    float that the exact value is not above. *)

From Stdlib Require Import SpecFloat QArith Qpower Lqa.
From S2P Require Import Prelude.

(** ** Floating point *)

Definition float32 := spec_float.
Definition double := spec_float.

(** The number a 32-bit pattern stands for. *)
Definition f32_of_bits (b : Z) : float32 :=
  let s := Z.testbit b 31 in
  let e := Z.land (Z.shiftr b 23) 0xff in
  let m := Z.land b 0x7fffff in
  if e =? 255 then (if m =? 0 then S754_infinity s else S754_nan)
  else if e =? 0 then match m with Zpos p => S754_finite s p (-149) | _ => S754_zero s end
  else match m + 2 ^ 23 with Zpos p => S754_finite s p (e - 150) | _ => S754_nan end.

Definition f32_of_int (z : Z) : float32 := binary_normalize 24 128 z 0 false.
Definition f64_of_int (z : Z) : double := binary_normalize 53 1024 z 0 false.

Definition f64_of_f32 (x : float32) : double :=
  match x with
  | S754_finite s m e => binary_normalize 53 1024 (cond_Zopp s (Zpos m)) e s
  | _ => x
  end.

Definition f64_mul : double -> double -> double := SFmul 53 1024.
Definition f64_div : double -> double -> double := SFdiv 53 1024.

Definition f64_add : double -> double -> double := SFadd 53 1024.
Definition f64_sub : double -> double -> double := SFsub 53 1024.
Definition f32_add : float32 -> float32 -> float32 := SFadd 24 128.
Definition f32_mul : float32 -> float32 -> float32 := SFmul 24 128.
Definition f32_div : float32 -> float32 -> float32 := SFdiv 24 128.

Definition f32_of_f64 (x : double) : float32 :=
  match x with
  | S754_finite s m e => binary_normalize 24 128 (cond_Zopp s (Zpos m)) e s
  | _ => x
  end.

(** A decimal constant with one digit after the point, [n / 10]. *)
Definition tenths (n : Z) : double := f64_div (f64_of_int n) (f64_of_int 10).

(** The integer part, and the conversion to an integer type with the values from [lo] to
    [hi]; what does not fit is undefined. *)
Definition trunc (x : spec_float) : option Z :=
  match x with
  | S754_zero _ => Some 0
  | S754_finite s m e =>
      Some (cond_Zopp s (if 0 <=? e then Zpos m * 2 ^ e else Zpos m / 2 ^ (- e)))
  | _ => None
  end.

Definition to_int (lo hi : Z) (x : spec_float) : option Z :=
  z ← trunc x; if (lo <=? z) && (z <=? hi) then Some z else None.

(** The macros [min] and [max] of the server. *)
Definition fmin (a b : spec_float) : spec_float := if SFltb a b then a else b.
Definition fmax (a b : spec_float) : spec_float := if SFltb b a then a else b.

(** ** Values and results of a rounding *)

(** [m * 2^e]. *)
Definition dy (m e : Z) : Q := inject_Z m * Qpower 2 e.

(** The number a finite float stands for. *)
Definition val (x : spec_float) : Q :=
  match x with S754_finite s m e => dy (cond_Zopp s (Zpos m)) e | _ => 0 end.

(** Something was shifted out. *)
Definition inexact (r : shr_record) : bool := shr_r r || shr_s r.

(** Zero, or below zero. *)
Definition not_positive (x : spec_float) : Prop :=
  match x with
  | S754_zero _ => True
  | S754_infinity s | S754_finite s _ _ => s = true
  | S754_nan => False
  end.

Section formats.

Variables prec emax : Z.

Local Abbreviation emin := (emin prec emax).

(** The float with mantissa [m] up to [2^prec] and exponent [e]. *)
Definition finish (s : bool) (m e : Z) : spec_float :=
  if m =? 0 then S754_zero s
  else
    let '(m', e') := if m =? 2 ^ prec then (2 ^ (prec - 1), e + 1) else (m, e) in
    if e' <=? emax - prec then S754_finite s (Z.to_pos m') e' else S754_infinity s.

(** Zero, or a positive float of the format with all its bits or the least exponent. *)
Definition nonneg_float (x : spec_float) : Prop :=
  x = S754_zero false \/
  exists m e, x = S754_finite false m e /\ (e = emin \/ 2 ^ (prec - 1) <= Zpos m) /\
              Zpos m < 2 ^ prec /\ emin <= e <= emax - prec.

(** The result of a rounding that does not overflow. *)
Definition rounded (lo hi : Q) (x : spec_float) : Prop :=
  (lo <= val x <= hi)%Q /\ nonneg_float x.

(** Bounds that are floats, for an exact result between them. *)
Definition bounds_ok (lo q1 hi q2 : Z) : Prop :=
  lo <= 2 ^ prec /\ hi < 2 ^ prec /\ emin <= q1 /\ emin <= q2 <= emax - prec.

End formats.

(** ** Digits and shifts *)

Lemma digits2_pos_bounds p :
  2 ^ (Zpos (digits2_pos p) - 1) <= Zpos p < 2 ^ Zpos (digits2_pos p).
Proof.
  induction p as [p IH|p IH|]; cbn [digits2_pos]; [| |done].
  all: rewrite Pos2Z.inj_succ; set (d := Zpos (digits2_pos p)) in *.
  all: replace (Z.succ d - 1) with (Z.succ (d - 1)) by lia.
  all: rewrite !Z.pow_succ_r by lia; lia.
Qed.

Lemma iter_pos_nat {A} (f : A -> A) n x : SpecFloat.iter_pos f n x = Nat.iter (Pos.to_nat n) f x.
Proof.
  revert x. induction n as [n IH|n IH|]; intros x; cbn [SpecFloat.iter_pos]; [| |done].
  - rewrite !IH, Pos2Nat.inj_xI.
    replace (S (2 * Pos.to_nat n)) with (Pos.to_nat n + (Pos.to_nat n + 1))%nat by lia.
    by rewrite !Nat.iter_add.
  - rewrite !IH, Pos2Nat.inj_xO.
    replace (2 * Pos.to_nat n)%nat with (Pos.to_nat n + Pos.to_nat n)%nat by lia.
    by rewrite Nat.iter_add.
Qed.

Lemma shr_1_spec r : 0 <= shr_m r ->
  shr_m (shr_1 r) = shr_m r / 2 /\
  inexact (shr_1 r) = inexact r || negb (shr_m r mod 2 =? 0).
Proof.
  destruct r as [m r s]; unfold inexact; cbn [shr_m shr_r shr_s]; intros Hm.
  destruct m as [|[p|p|]|]; cbn [shr_1 shr_m shr_r shr_s]; [| | | |lia].
  - by rewrite orb_false_r.
  - split; [|rewrite Pos2Z.inj_xI, Z.mul_comm, Z.add_comm, Z_mod_plus_full; by destruct r, s].
    rewrite Pos2Z.inj_xI, Z.mul_comm, Z.add_comm, Z_div_plus_full; [done|lia].
  - split; [|rewrite Pos2Z.inj_xO, Z.mul_comm, Z_mod_mult; by destruct r, s].
    rewrite Pos2Z.inj_xO, Z.mul_comm, Z_div_mult_full; [done|lia].
  - split; [done|by destruct r, s].
Qed.

Lemma mod_pow_step m n :
  0 <= m -> (m / 2 ^ Z.of_nat n) mod 2 = 0 /\ m mod 2 ^ Z.of_nat n = 0 <->
            m mod 2 ^ Z.of_nat (S n) = 0.
Proof.
  intros Hm. rewrite Nat2Z.inj_succ, Z.pow_succ_r by lia.
  set (P := 2 ^ Z.of_nat n). assert (0 < P) by (apply Z.pow_pos_nonneg; lia).
  rewrite (Z.mul_comm 2 P), Z.rem_mul_r by lia.
  pose proof (Z.mod_pos_bound m P). pose proof (Z.mod_pos_bound (m / P) 2). nia.
Qed.

Lemma shr_iter_spec n r : 0 <= shr_m r ->
  let r' := Nat.iter n shr_1 r in
  shr_m r' = shr_m r / 2 ^ Z.of_nat n /\
  inexact r' = inexact r || negb (shr_m r mod 2 ^ Z.of_nat n =? 0).
Proof.
  intros Hm. cbv zeta. induction n as [|n [IH1 IH2]].
  - cbn [Nat.iter nat_rect]. rewrite Z.div_1_r, Z.mod_1_r. by rewrite orb_false_r.
  - rewrite !Nat.iter_succ. set (r' := Nat.iter n shr_1 r) in *.
    assert (0 <= shr_m r') as Hr by (rewrite IH1; apply Z.div_pos; [|apply Z.pow_pos_nonneg]; lia).
    destruct (shr_1_spec r' Hr) as [-> ->]. rewrite IH1, IH2. split.
    + rewrite Nat2Z.inj_succ, Z.pow_succ_r, Z.mul_comm, Z.div_div by lia. done.
    + pose proof (mod_pow_step (shr_m r) n Hm).
      destruct (inexact r); [done|cbn [orb]].
      destruct (Z.eqb_spec (shr_m r mod 2 ^ Z.of_nat n) 0),
        (Z.eqb_spec ((shr_m r / 2 ^ Z.of_nat n) mod 2) 0),
        (Z.eqb_spec (shr_m r mod 2 ^ Z.of_nat (S n)) 0); tauto.
Qed.

Section rounding.

Variables prec emax : Z.
Hypothesis Hprec : 1 < prec.

Local Abbreviation fexp := (fexp prec emax).
Local Abbreviation emin := (emin prec emax).
Local Abbreviation finish := (finish prec emax).
Local Abbreviation rounded := (rounded prec emax).
Local Abbreviation bounds_ok := (bounds_ok prec emax).

Lemma Zdigits2_bounds m : 0 < m -> 2 ^ (Zdigits2 m - 1) <= m < 2 ^ Zdigits2 m.
Proof. destruct m as [|p|p]; [lia| |lia]. intros _. apply digits2_pos_bounds. Qed.

Lemma Zdigits2_nonneg m : 0 <= Zdigits2 m.
Proof. by destruct m. Qed.

Lemma Zdigits2_le m n : 0 <= m -> 0 <= n -> m < 2 ^ n -> Zdigits2 m <= n.
Proof.
  intros Hm Hn Hlt. destruct (decide (m = 0)) as [->|]; [done|].
  pose proof (Zdigits2_bounds m ltac:(lia)).
  assert (2 ^ (Zdigits2 m - 1) < 2 ^ n) as Hp by lia.
  apply Z.pow_lt_mono_r_iff in Hp; lia.
Qed.

Lemma Zdigits2_pow n : 0 <= n -> Zdigits2 (2 ^ n) = n + 1.
Proof.
  intros Hn. assert (0 < 2 ^ n) by (apply Z.pow_pos_nonneg; lia).
  pose proof (Zdigits2_bounds (2 ^ n) ltac:(lia)) as [H1 H2].
  pose proof (Zdigits2_nonneg (2 ^ n)).
  apply Z.pow_le_mono_r_iff in H1; [|lia|lia]. apply Z.pow_lt_mono_r_iff in H2; lia.
Qed.

Lemma shr_fexp_spec m e l : 0 <= m ->
  let sh := Z.max 0 (fexp (Zdigits2 m + e) - e) in
  exists r, shr_fexp prec emax m e l = (r, e + sh) /\ shr_m r = m / 2 ^ sh /\
    inexact r = negb (if l is loc_Exact then true else false) || negb (m mod 2 ^ sh =? 0).
Proof.
  intros Hm. cbv zeta. unfold shr_fexp.
  assert (shr_m (shr_record_of_loc m l) = m) as Em by (by destruct l as [|[]]).
  assert (inexact (shr_record_of_loc m l) = negb (if l is loc_Exact then true else false)) as Ei
    by (by destruct l as [|[]]).
  destruct (fexp (Zdigits2 m + e) - e) as [|n|n] eqn:En; cbn [shr].
  1,3: replace (Z.max 0 _) with 0 by lia; exists (shr_record_of_loc m l);
    rewrite Z.pow_0_r, Z.div_1_r, Z.mod_1_r, Z.add_0_r, Ei, orb_false_r; by rewrite Em.
  replace (Z.max 0 (Zpos n)) with (Zpos n) by lia.
  rewrite iter_pos_nat.
  pose proof (shr_iter_spec (Pos.to_nat n) (shr_record_of_loc m l) ltac:(lia)) as H.
  cbv zeta in H. rewrite Em, Ei, positive_nat_Z in H. eauto.
Qed.

Lemma finish_round s m e : 0 <= m <= 2 ^ prec -> emin <= e ->
  (let '(r, e') := shr_fexp prec emax m e loc_Exact in
   match shr_m r with
   | Z0 => S754_zero s
   | Zpos p => if e' <=? emax - prec then S754_finite s p e' else S754_infinity s
   | _ => S754_nan
   end) = finish s m e.
Proof.
  intros Hm He. destruct (shr_fexp_spec m e loc_Exact ltac:(lia)) as (r & -> & -> & _).
  unfold finish, SpecFloat.fexp in *. destruct (Z.eqb_spec m (2 ^ prec)) as [->|].
  - rewrite Zdigits2_pow by lia.
    replace (Z.max 0 _) with 1 by lia.
    replace (2 ^ prec) with (2 ^ (prec - 1) * 2 ^ 1) by (rewrite <- Z.pow_add_r by lia; f_equal; lia).
    rewrite Z.div_mul by lia.
    assert (0 < 2 ^ (prec - 1)) by (apply Z.pow_pos_nonneg; lia).
    destruct (2 ^ (prec - 1)) as [|p|] eqn:Ep; [lia| |lia].
    by rewrite (proj2 (Z.eqb_neq _ 0)) by lia.
  - pose proof (Zdigits2_le m prec ltac:(lia) ltac:(lia) ltac:(lia)).
    replace (Z.max 0 _) with 0 by lia. rewrite Z.pow_0_r, Z.div_1_r, Z.add_0_r.
    destruct m; [done|done|lia].
Qed.

(** Rounding goes to one of the two neighbours, and upwards only when something was
    cut off. *)
Lemma binary_round_aux_spec s mx ex l : 0 < mx ->
  let e' := fexp (Zdigits2 mx + ex) in
  let P := 2 ^ (e' - ex) in
  ex <= e' ->
  exists m1, binary_round_aux prec emax s mx ex l = finish s m1 e' /\ 0 <= m1 <= 2 ^ prec /\
    (m1 = mx / P \/ m1 = mx / P + 1 /\ (mx mod P <> 0 \/ l <> loc_Exact)).
Proof.
  intros Hm e' P He. unfold binary_round_aux.
  destruct (shr_fexp_spec mx ex l ltac:(lia)) as (r & -> & Er & Ei).
  fold e' in Er, Ei |- *. replace (Z.max 0 (e' - ex)) with (e' - ex) in * by lia. fold P in Er, Ei.
  replace (ex + (e' - ex)) with e' by lia.
  assert (0 < P) by (apply Z.pow_pos_nonneg; lia).
  set (m1 := round_nearest_even (shr_m r) (loc_of_shr_record r)).
  assert (m1 = mx / P \/ m1 = mx / P + 1 /\ (mx mod P <> 0 \/ l <> loc_Exact)) as Hm1.
  { rewrite <- Er. destruct r as [m r s']. unfold m1, inexact in *. cbn [shr_m shr_r shr_s] in *.
    destruct r, s'; cbn [loc_of_shr_record round_nearest_even]; [| |by left|by left].
    all: cbn [orb] in Ei; assert (mx mod P <> 0 \/ l <> loc_Exact)
      by (destruct l; [destruct (Z.eqb_spec (mx mod P) 0); [done|by left]|by right]).
    - by right.
    - destruct (Z.even m); [by left|by right]. }
  assert (0 <= mx / P < 2 ^ prec) as Hlt.
  { split; [apply Z.div_pos; lia|]. apply Z.div_lt_upper_bound; [done|].
    pose proof (Zdigits2_bounds mx Hm). unfold P. rewrite <- Z.pow_add_r by lia.
    apply Z.lt_le_trans with (2 ^ Zdigits2 mx); [lia|].
    apply Z.pow_le_mono_r; [lia|]. unfold e', SpecFloat.fexp. lia. }
  exists m1. split; [|split; [|done]]; [|lia].
  apply finish_round; [lia|]. unfold e', SpecFloat.fexp. lia.
Qed.

(** ** Dyadic numbers *)

Lemma pow2_pos e : (0 < Qpower 2 e)%Q.
Proof. by apply Qpower_0_lt. Qed.

Lemma Qpower_Z n : 0 <= n -> (Qpower 2 n == inject_Z (2 ^ n))%Q.
Proof. intros. by rewrite <- (Zpower_Qpower 2 n). Qed.

Lemma dy_shift m e1 e2 : e1 <= e2 -> (dy m e2 == dy (m * 2 ^ (e2 - e1)) e1)%Q.
Proof.
  intros He. unfold dy. rewrite inject_Z_mult, <- Qpower_Z by lia.
  replace e2 with ((e2 - e1) + e1) at 1 by lia.
  rewrite Qpower_plus by done. ring.
Qed.

Lemma dy_le m1 m2 e : (dy m1 e <= dy m2 e)%Q <-> m1 <= m2.
Proof.
  unfold dy. rewrite Qmult_le_r by apply pow2_pos. by rewrite <- Zle_Qle.
Qed.

Lemma dy_lt m1 m2 e : (dy m1 e < dy m2 e)%Q <-> m1 < m2.
Proof.
  unfold dy. rewrite Qmult_lt_r by apply pow2_pos. by rewrite <- Zlt_Qlt.
Qed.

Lemma dy_0 m : (dy m 0 == inject_Z m)%Q.
Proof. unfold dy. cbn [Qpower]. ring. Qed.

Lemma dy_zero e : (dy 0 e == 0)%Q.
Proof. unfold dy. ring. Qed.

Lemma dy_mult m1 e1 m2 e2 : (dy m1 e1 * dy m2 e2 == dy (m1 * m2) (e1 + e2))%Q.
Proof. unfold dy. rewrite inject_Z_mult, Qpower_plus by done. ring. Qed.

Lemma dy_pos m e : 0 < m -> (0 < dy m e)%Q.
Proof. intros. apply Qmult_lt_0_compat; [by rewrite <- (Zlt_Qlt 0)|apply pow2_pos]. Qed.

(** Comparing across exponents. *)
Lemma dy_le_shift m1 e1 m2 e2 : e1 <= e2 -> (dy m1 e1 <= dy m2 e2)%Q <-> m1 <= m2 * 2 ^ (e2 - e1).
Proof. intros. by rewrite (dy_shift m2 e1 e2), dy_le. Qed.

Lemma dy_lt_shift m1 e1 m2 e2 : e1 <= e2 -> (dy m1 e1 < dy m2 e2)%Q <-> m1 < m2 * 2 ^ (e2 - e1).
Proof. intros. by rewrite (dy_shift m2 e1 e2), dy_lt. Qed.

Lemma dy_ge_shift m1 e1 m2 e2 : e1 <= e2 -> (dy m2 e2 <= dy m1 e1)%Q <-> m2 * 2 ^ (e2 - e1) <= m1.
Proof. intros. by rewrite (dy_shift m2 e1 e2), dy_le. Qed.

Lemma dy_pow a b : 0 <= a -> (dy (2 ^ a) b == Qpower 2 (a + b))%Q.
Proof. intros. unfold dy. rewrite Qpower_plus by done. by rewrite (Qpower_Z a) by done. Qed.

Lemma pow2_le a b : a <= b -> (Qpower 2 a <= Qpower 2 b)%Q.
Proof. intros. by apply Qpower_le_compat_l. Qed.

Lemma finish_val s m e : 0 < m <= 2 ^ prec -> (if m =? 2 ^ prec then e + 1 else e) <= emax - prec ->
  exists p e', finish s m e = S754_finite s p e' /\ (dy (Zpos p) e' == dy m e)%Q /\
    (e' = e /\ m = Zpos p \/ 2 ^ (prec - 1) <= Zpos p) /\ Zpos p < 2 ^ prec /\ e <= e' <= emax - prec.
Proof.
  intros Hm He. unfold finish. rewrite (proj2 (Z.eqb_neq m 0)) by lia.
  assert (0 < 2 ^ (prec - 1)) by (apply Z.pow_pos_nonneg; lia).
  destruct (Z.eqb_spec m (2 ^ prec)) as [->|].
  - rewrite (proj2 (Z.leb_le _ _)) by lia.
    exists (Z.to_pos (2 ^ (prec - 1))), (e + 1). rewrite Z2Pos.id by lia.
    assert (2 ^ prec = 2 ^ (prec - 1) * 2 ^ 1) as Ep by (rewrite <- Z.pow_add_r by lia; f_equal; lia).
    split; [done|split; [|split; [by right|lia]]].
    rewrite (dy_shift _ e (e + 1)) by lia. replace (e + 1 - e) with 1 by lia. by rewrite Ep.
  - rewrite (proj2 (Z.leb_le _ _)) by lia.
    exists (Z.to_pos m), e. rewrite Z2Pos.id by lia. split; [done|split; [done|split; [by left|lia]]].
Qed.

(** What is below [2^(prec + q)] is rounded on a grid at least as fine as [2^q]. *)
Lemma grid_fine mx ex hi q : 0 < mx -> hi < 2 ^ prec -> emin <= q ->
  (dy mx ex <= dy hi q)%Q -> fexp (Zdigits2 mx + ex) <= q.
Proof.
  intros Hm Hhi Hq Hle. destruct (Z.le_gt_cases (fexp (Zdigits2 mx + ex)) q) as [|Hgt]; [done|].
  assert (prec + q <= Zdigits2 mx - 1 + ex) as Hd by (unfold SpecFloat.fexp in Hgt; lia).
  pose proof (Zdigits2_bounds mx Hm) as [Hmx _].
  assert (0 <= Zdigits2 mx - 1) by (destruct mx; cbn [Zdigits2]; lia).
  apply (dy_le _ _ ex) in Hmx. rewrite dy_pow in Hmx by done.
  pose proof (pow2_le _ _ Hd) as Hp. apply (dy_lt _ _ q) in Hhi. rewrite dy_pow in Hhi by lia.
  exfalso. lra.
Qed.

(** A float of a coarser grid has all its bits. *)
Lemma grid_coarse mx ex : 0 < mx -> let e' := fexp (Zdigits2 mx + ex) in
  ex <= e' -> e' = emin \/ 2 ^ (prec - 1) <= mx / 2 ^ (e' - ex).
Proof.
  intros Hm e' He. destruct (decide (e' = emin)) as [|Hne]; [by left|right].
  pose proof (Zdigits2_bounds mx Hm) as [Hmx _].
  apply Z.div_le_lower_bound; [apply Z.pow_pos_nonneg; lia|].
  rewrite <- Z.pow_add_r by lia.
  replace (e' - ex + (prec - 1)) with (Zdigits2 mx - 1); [done|].
  unfold e', SpecFloat.fexp in *. lia.
Qed.

Lemma neighbour_le mx ex l hi q m1 : let e' := fexp (Zdigits2 mx + ex) in let P := 2 ^ (e' - ex) in
  ex <= e' <= q ->
  (if l is loc_Exact then dy mx ex <= dy hi q else dy mx ex < dy hi q)%Q ->
  m1 = mx / P \/ m1 = mx / P + 1 /\ (mx mod P <> 0 \/ l <> loc_Exact) ->
  (dy m1 e' <= dy hi q)%Q.
Proof.
  intros e' P He Hu Hm1. rewrite dy_le_shift by lia. set (hi' := hi * 2 ^ (q - e')).
  assert (0 < P) by (apply Z.pow_pos_nonneg; lia).
  assert (hi * 2 ^ (q - ex) = P * hi') as Ehi.
  { replace (q - ex) with ((e' - ex) + (q - e')) by lia.
    rewrite Z.pow_add_r by lia. unfold hi', P. ring. }
  assert (mx <= P * hi' /\ (l <> loc_Exact -> mx < P * hi')) as [Hle Hlt].
  { rewrite <- Ehi. destruct l.
    - by rewrite <- dy_le_shift by lia.
    - apply dy_lt_shift in Hu; lia. }
  assert (mx / P <= hi') by (apply Z.div_le_upper_bound; lia).
  destruct Hm1 as [->|[-> [Hmod|Hl]]]; [done| |].
  - pose proof (Z.div_mod mx P ltac:(lia)). pose proof (Z.mod_pos_bound mx P ltac:(lia)). nia.
  - enough (mx / P < hi') by lia. apply Z.div_lt_upper_bound; auto.
Qed.

Lemma neighbour_ge mx ex lo q m1 : 0 < mx ->
  let e' := fexp (Zdigits2 mx + ex) in let P := 2 ^ (e' - ex) in
  ex <= e' -> lo <= 2 ^ prec -> emin <= q -> (ex <= q -> (dy lo q <= dy mx ex)%Q) ->
  mx / P <= m1 -> (dy lo q <= dy m1 e')%Q.
Proof.
  intros Hm e' P He Hlo Hq Hl Hm1. assert (0 < P) by (apply Z.pow_pos_nonneg; lia).
  destruct (Z.le_gt_cases e' q) as [Heq|Hgt].
  - rewrite dy_ge_shift by lia.
    enough (lo * 2 ^ (q - e') <= mx / P) by lia. apply Z.div_le_lower_bound; [done|].
    specialize (Hl ltac:(lia)). rewrite dy_ge_shift in Hl by lia.
    replace (q - ex) with ((e' - ex) + (q - e')) in Hl by lia.
    rewrite Z.pow_add_r in Hl by lia. fold P in Hl. lia.
  - destruct (grid_coarse mx ex Hm He) as [He'|Hc]; [fold e' in He'; lia|].
    fold e' P in Hc.
    apply Qle_trans with (dy (2 ^ prec) q); [by apply dy_le|].
    apply Qle_trans with (dy (2 ^ (prec - 1)) e'); [|apply dy_le; lia].
    rewrite !dy_pow by lia. apply pow2_le. lia.
Qed.

Lemma round_between mx ex l lo q1 hi q2 :
  0 < mx -> ex <= fexp (Zdigits2 mx + ex) ->
  lo <= 2 ^ prec -> emin <= q1 -> (ex <= q1 -> (dy lo q1 <= dy mx ex)%Q) ->
  hi < 2 ^ prec -> emin <= q2 <= emax - prec ->
  (if l is loc_Exact then dy mx ex <= dy hi q2 else dy mx ex < dy hi q2)%Q ->
  rounded (dy lo q1) (dy hi q2) (binary_round_aux prec emax false mx ex l).
Proof.
  intros Hm Hex Hlo Hq1 Hl Hhi Hq2 Hu.
  destruct (binary_round_aux_spec false mx ex l Hm Hex) as (m1 & -> & Hb & Hm1).
  set (e' := fexp (Zdigits2 mx + ex)) in *. set (P := 2 ^ (e' - ex)) in *.
  assert (dy mx ex <= dy hi q2)%Q as Hu' by (destruct l; [done|by apply Qlt_le_weak]).
  pose proof (grid_fine mx ex hi q2 Hm Hhi ltac:(lia) Hu') as Hfine. fold e' in Hfine.
  pose proof (neighbour_le mx ex l hi q2 m1 ltac:(fold e'; lia) Hu Hm1) as Hle. fold e' in Hle.
  pose proof (neighbour_ge mx ex lo q1 m1 Hm Hex Hlo Hq1 Hl ltac:(fold e' P; lia)) as Hge. fold e' in Hge.
  destruct (decide (m1 = 0)) as [->|Hne].
  - split; [|by left]. unfold finish. cbn [Z.eqb val]. rewrite dy_zero in Hle, Hge. by split.
  - destruct (finish_val false m1 e' ltac:(lia)) as (p & e2 & -> & Ev & Hn & Hp & He2).
    { destruct (Z.eqb_spec m1 (2 ^ prec)) as [->|]; [|lia].
      apply dy_le_shift in Hle; [|done].
      destruct (decide (q2 = e')) as [->|]; [rewrite Z.sub_diag in Hle; lia|lia]. }
    split; [cbn [val cond_Zopp]; rewrite Ev; lra|]. right. exists p, e2.
    split; [done|]. assert (emin <= e') by (unfold e', SpecFloat.fexp; lia). split; [|lia].
    destruct Hn as [[-> ->]|]; [|by right].
    destruct (grid_coarse mx ex Hm Hex) as [|Hc]; [by left|right; fold e' P in Hc; lia].
Qed.

(** ** The operations *)

Lemma pos_iter_xO p d : Zpos (Pos.iter xO p d) = Zpos p * 2 ^ Zpos d.
Proof.
  revert p. induction d as [|d IH] using Pos.peano_ind; intros p; [cbn [Pos.iter]; lia|].
  rewrite Pos.iter_succ, Pos2Z.inj_xO, IH, Pos2Z.inj_succ, Z.pow_succ_r by lia. ring.
Qed.

Lemma Zdigits2_unique m d : 0 < m -> 2 ^ (d - 1) <= m < 2 ^ d -> Zdigits2 m = d.
Proof.
  intros Hm [H1 H2]. pose proof (Zdigits2_bounds m Hm) as [H3 H4]. pose proof (Zdigits2_nonneg m).
  assert (0 <= d) by (destruct (Z.lt_ge_cases d 0); [rewrite Z.pow_neg_r in H2 by lia; lia|lia]).
  assert (2 ^ (d - 1) < 2 ^ Zdigits2 m) as H5 by lia.
  assert (2 ^ (Zdigits2 m - 1) < 2 ^ d) as H6 by lia.
  apply Z.pow_lt_mono_r_iff in H5; [|lia|lia]. apply Z.pow_lt_mono_r_iff in H6; lia.
Qed.

Lemma Zdigits2_shift m d : 0 < m -> 0 <= d -> Zdigits2 (m * 2 ^ d) = Zdigits2 m + d.
Proof.
  intros Hm Hd. assert (0 < 2 ^ d) by (apply Z.pow_pos_nonneg; lia).
  pose proof (Zdigits2_bounds m Hm) as [H1 H2].
  assert (0 <= Zdigits2 m - 1) by (destruct m; cbn [Zdigits2]; lia).
  apply Zdigits2_unique; [lia|].
  replace (Zdigits2 m + d - 1) with (Zdigits2 m - 1 + d) by lia. rewrite !Z.pow_add_r by lia. nia.
Qed.

Lemma shl_align_spec p e e' :
  let '(mz, ez) := shl_align p e e' in
  ez = Z.min e e' /\ Zpos mz = Zpos p * 2 ^ (e - ez).
Proof.
  unfold shl_align. destruct (e' - e) as [|d|d] eqn:Ed.
  1,2: split; [lia|]; by rewrite Z.sub_diag, Z.mul_1_r.
  split; [lia|]. rewrite pos_iter_xO. do 2 f_equal. lia.
Qed.

Lemma normalize_between m e s lo q1 hi q2 : 0 < m -> bounds_ok lo q1 hi q2 ->
  (dy lo q1 <= dy m e <= dy hi q2)%Q ->
  rounded (dy lo q1) (dy hi q2) (binary_normalize prec emax m e s).
Proof.
  intros Hm (Hlo & Hhi & Hq1 & Hq2) [Hl Hu]. destruct m as [|p|]; [lia| |lia].
  cbn [binary_normalize]. unfold binary_round.
  change (Zpos (digits2_pos p)) with (Zdigits2 (Zpos p)).
  pose proof (shl_align_spec p e (fexp (Zdigits2 (Zpos p) + e))) as Hs.
  destruct (shl_align _ _ _) as [mz ez]. destruct Hs as [Ez Emz].
  assert (Zdigits2 (Zpos mz) + ez = Zdigits2 (Zpos p) + e) as Ed
    by (rewrite Emz, Zdigits2_shift by lia; lia).
  assert (dy (Zpos mz) ez == dy (Zpos p) e)%Q as Ev by (rewrite (dy_shift _ ez e), <- Emz by lia; done).
  apply round_between; try done; [rewrite Ed; lia| |by rewrite Ev].
  intros _. by rewrite Ev.
Qed.

Lemma mul_between mx ex my ey lo q1 hi q2 : 2 ^ (prec - 1) <= Zpos mx -> bounds_ok lo q1 hi q2 ->
  let x := S754_finite false mx ex in let y := S754_finite false my ey in
  (dy lo q1 <= val x * val y <= dy hi q2)%Q ->
  rounded (dy lo q1) (dy hi q2) (SFmul prec emax x y).
Proof.
  intros Hx (Hlo & Hhi & Hq1 & Hq2) x y. cbn [val x y cond_Zopp]. rewrite dy_mult. intros [Hl Hu].
  cbn [SFmul x y xorb]. change (Zpos (mx * my)) with (Zpos mx * Zpos my).
  apply round_between; try done.
  enough (prec <= Zdigits2 (Zpos mx * Zpos my)) by (unfold SpecFloat.fexp; lia).
  pose proof (Zdigits2_bounds (Zpos mx * Zpos my) ltac:(lia)) as [_ H].
  assert (2 ^ (prec - 1) < 2 ^ Zdigits2 (Zpos mx * Zpos my)) as Hp by nia.
  apply Z.pow_lt_mono_r_iff in Hp; [lia|lia|apply Zdigits2_nonneg].
Qed.

Lemma new_location_exact n k : new_location n k = loc_Exact <-> k = 0.
Proof.
  unfold new_location, new_location_even, new_location_odd.
  destruct k; destruct (Z.even n); by split.
Qed.

Section division.

Variables (mx : positive) (ex : Z) (my : positive) (ey : Z).

Local Abbreviation d1 := (Zdigits2 (Zpos mx)).
Local Abbreviation d2 := (Zdigits2 (Zpos my)).
Local Abbreviation e' := (Z.min (fexp (d1 + ex - (d2 + ey))) (ex - ey)).
Local Abbreviation s := (ex - ey - e').
Local Abbreviation m' := (Zpos mx * 2 ^ s).

Lemma div_core : SFdiv_core_binary prec emax (Zpos mx) ex (Zpos my) ey =
  (m' / Zpos my, e', new_location (Zpos my) (m' mod Zpos my)).
Proof.
  unfold SFdiv_core_binary.
  assert (forall z, 0 <= z -> match z with Z0 => Zpos mx | Zpos _ => Z.shiftl (Zpos mx) z | Zneg _ => 0 end
                              = Zpos mx * 2 ^ z) as Hz.
  { intros [|p|p] Hp; [lia|by rewrite Z.shiftl_mul_pow2|lia]. }
  rewrite Hz by lia. unfold Z.div, Z.modulo. by destruct (Z.div_eucl m' (Zpos my)).
Qed.

(** The quotient has all its bits, or its exponent is the least one. *)
Lemma quotient_bits : e' <= emin \/ 2 ^ (prec - 1) <= m' / Zpos my.
Proof.
  destruct (Z.le_gt_cases e' emin) as [|Hgt]; [by left|right].
  assert (d2 + prec <= d1 + s) as Hd by (unfold SpecFloat.fexp in *; lia).
  pose proof (Zdigits2_bounds (Zpos mx) ltac:(lia)) as [H1 _].
  pose proof (Zdigits2_bounds (Zpos my) ltac:(lia)) as [_ H2].
  apply Z.div_le_lower_bound; [lia|].
  assert (0 < 2 ^ (prec - 1)) by (apply Z.pow_pos_nonneg; lia).
  assert (0 <= d1 - 1 /\ 0 <= d2) by (split; [cbn [Zdigits2]; lia|apply Zdigits2_nonneg]).
  apply Z.le_trans with (2 ^ d2 * 2 ^ (prec - 1)); [nia|].
  apply Z.le_trans with (2 ^ (d1 - 1) * 2 ^ s); [|assert (0 < 2 ^ s) by (apply Z.pow_pos_nonneg; lia); nia].
  rewrite <- !Z.pow_add_r by lia. apply Z.pow_le_mono_r; lia.
Qed.

Lemma dividend_value : (dy (Zpos mx) ex == dy m' (e' + ey))%Q.
Proof. rewrite (dy_shift _ (e' + ey) ex) by lia. do 3 f_equiv. lia. Qed.

Lemma div_between lo q1 hi q2 : 1 <= lo -> bounds_ok lo q1 hi q2 ->
  let x := S754_finite false mx ex in let y := S754_finite false my ey in
  (dy lo q1 * val y <= val x <= dy hi q2 * val y)%Q ->
  rounded (dy lo q1) (dy hi q2) (SFdiv prec emax x y).
Proof.
  intros Hlo1 (Hlo & Hhi & Hq1 & Hq2) x y. cbn [val x y cond_Zopp SFdiv xorb].
  rewrite div_core, dividend_value. set (n := m') in *. set (q := n / Zpos my).
  pose proof (Z.div_mod n (Zpos my) ltac:(lia)) as Hdm. fold q in Hdm.
  pose proof (Z.mod_pos_bound n (Zpos my) ltac:(lia)). set (r := n mod Zpos my) in *.
  intros [Hl Hu]. pose proof quotient_bits as Hq. fold n q in Hq.
  assert (0 < 2 ^ (prec - 1)) by (apply Z.pow_pos_nonneg; lia).
  assert (e' <= q1 -> lo * 2 ^ (q1 - e') <= q) as Hlow.
  { intros Hle. rewrite (dy_shift lo e' q1), dy_mult, dy_le in Hl by done.
    apply Z.div_le_lower_bound; lia. }
  assert (0 < q) as Hpos.
  { destruct Hq as [Hle|]; [|lia]. specialize (Hlow ltac:(lia)).
    assert (0 < 2 ^ (q1 - e')) by (apply Z.pow_pos_nonneg; lia). nia. }
  apply round_between; try done.
  - destruct Hq as [Hle|Hge]; [unfold SpecFloat.fexp in *; lia|].
    pose proof (Zdigits2_bounds q Hpos) as [_ Hb].
    assert (2 ^ (prec - 1) < 2 ^ Zdigits2 q) as Hp by lia.
    apply Z.pow_lt_mono_r_iff in Hp; [|lia|apply Zdigits2_nonneg].
    enough (e' <= Zdigits2 q + e' - prec) by (unfold SpecFloat.fexp at 2; lia). lia.
  - intros Hle. rewrite dy_ge_shift by done. auto.
  - rewrite Hdm in Hu. pose proof (dy_pos (Zpos my) ey ltac:(lia)) as Hy.
    destruct (new_location (Zpos my) r) eqn:El.
    + apply new_location_exact in El. rewrite El, Z.add_0_r, Z.mul_comm, <- dy_mult in Hu.
      by apply Qmult_le_r in Hu.
    + assert (r <> 0) by (intros Er; apply (new_location_exact (Zpos my)) in Er; by rewrite Er in El).
      apply (Qmult_lt_r _ _ (dy (Zpos my) ey)); [done|]. eapply Qlt_le_trans; [|apply Hu].
      rewrite dy_mult. apply dy_lt. lia.
Qed.

End division.

Lemma round_negative m e s : 0 < m ->
  not_positive (binary_normalize prec emax (- m) e s).
Proof.
  intros Hm. destruct m as [|p|]; [lia| |lia]. change (not_positive (binary_round prec emax true p e)).
  unfold binary_round.
  change (Zpos (digits2_pos p)) with (Zdigits2 (Zpos p)).
  pose proof (shl_align_spec p e (fexp (Zdigits2 (Zpos p) + e))) as Hs.
  destruct (shl_align _ _ _) as [mz ez]. destruct Hs as [Ez Emz].
  assert (Zdigits2 (Zpos mz) + ez = Zdigits2 (Zpos p) + e) as Ed
    by (rewrite Emz, Zdigits2_shift by lia; lia).
  destruct (binary_round_aux_spec true (Zpos mz) ez loc_Exact ltac:(lia)) as (m1 & -> & _).
  { rewrite Ed. lia. }
  unfold finish. destruct (_ =? 0); [done|]. destruct (if _ =? _ then _ else _) as [m2 e2].
  by destruct (_ <=? _).
Qed.

Lemma inject_Z_sub a b : (inject_Z (a - b) == inject_Z a - inject_Z b)%Q.
Proof. unfold Z.sub. rewrite inject_Z_plus, inject_Z_opp. ring. Qed.

(** The operands of an addition or subtraction on the finer of their grids. *)
Lemma aligned mx ex my ey : let ez := Z.min ex ey in
  exists zx zy, Zpos (fst (shl_align mx ex ez)) = Zpos zx /\ Zpos (fst (shl_align my ey ez)) = Zpos zy /\
    (dy (Zpos mx) ex == dy (Zpos zx) ez)%Q /\ (dy (Zpos my) ey == dy (Zpos zy) ez)%Q.
Proof.
  intros ez. pose proof (shl_align_spec mx ex ez) as Hx. pose proof (shl_align_spec my ey ez) as Hy.
  destruct (shl_align mx ex ez) as [zx ex'], (shl_align my ey ez) as [zy ey'].
  destruct Hx as [Ex Hx], Hy as [Ey Hy]. replace (Z.min ex ez) with ez in Ex by lia.
  replace (Z.min ey ez) with ez in Ey by lia. subst ex' ey'.
  exists zx, zy. cbn [fst]. rewrite (dy_shift _ ez ex), (dy_shift _ ez ey), Hx, Hy by lia. done.
Qed.

Lemma float_add_between mx ex my ey lo q1 hi q2 : bounds_ok lo q1 hi q2 ->
  let x := S754_finite false mx ex in let y := S754_finite false my ey in
  (dy lo q1 <= val x + val y <= dy hi q2)%Q -> rounded (dy lo q1) (dy hi q2) (SFadd prec emax x y).
Proof.
  intros Hb x y H. cbn [val SFadd x y cond_Zopp] in *.
  destruct (aligned mx ex my ey) as (zx & zy & -> & -> & Ex & Ey).
  rewrite Ex, Ey in H. apply normalize_between; [lia|done|].
  assert (dy (Zpos zx + Zpos zy) (Z.min ex ey) == dy (Zpos zx) (Z.min ex ey) + dy (Zpos zy) (Z.min ex ey))%Q as ->
    by (unfold dy; rewrite inject_Z_plus; ring).
  done.
Qed.

Lemma sub_between mx ex my ey lo q1 hi q2 : bounds_ok lo q1 hi q2 ->
  let x := S754_finite false mx ex in let y := S754_finite false my ey in
  (val y < val x)%Q -> (dy lo q1 <= val x - val y <= dy hi q2)%Q ->
  rounded (dy lo q1) (dy hi q2) (SFsub prec emax x y).
Proof.
  intros Hb x y Hlt H. cbn [val SFsub x y cond_Zopp] in *.
  destruct (aligned mx ex my ey) as (zx & zy & -> & -> & Ex & Ey).
  rewrite Ex, Ey in Hlt, H. rewrite dy_lt in Hlt. apply normalize_between; [lia|done|].
  assert (dy (Zpos zx - Zpos zy) (Z.min ex ey) == dy (Zpos zx) (Z.min ex ey) - dy (Zpos zy) (Z.min ex ey))%Q as ->
    by (unfold dy; rewrite inject_Z_sub; ring).
  done.
Qed.

Lemma sub_not_positive mx ex my ey :
  let x := S754_finite false mx ex in let y := S754_finite false my ey in
  (val x <= val y)%Q -> not_positive (SFsub prec emax x y).
Proof.
  intros x y H. cbn [val SFsub x y cond_Zopp] in *.
  destruct (aligned mx ex my ey) as (zx & zy & -> & -> & Ex & Ey).
  rewrite Ex, Ey, dy_le in H.
  destruct (Zpos zx - Zpos zy) as [|p|p] eqn:E; [exact I|lia|].
  apply (round_negative (Zpos p)). lia.
Qed.

(** Comparison with a normal float. *)
Lemma ltb_false m1 e1 m2 e2 : (e1 = emin \/ 2 ^ (prec - 1) <= Zpos m1) -> Zpos m2 < 2 ^ prec -> emin <= e2 ->
  let x := S754_finite false m1 e1 in let y := S754_finite false m2 e2 in
  SFltb x y = false -> (val y <= val x)%Q.
Proof.
  intros Hn Hm2 He x y. unfold SFltb. cbn [SFcompare x y val cond_Zopp].
  destruct (Z.compare_spec e1 e2) as [->| |Hgt]; [|done|].
  - rewrite dy_le. destruct (Pos.compare_cont Eq m1 m2) eqn:E; try done; intros _.
    + apply Pos.compare_eq in E as ->. done.
    + apply Pos.compare_gt_iff in E. lia.
  - intros _. destruct Hn as [->|Hn]; [lia|].
    apply dy_le_shift; [lia|].
    replace (e1 - e2) with (Z.succ (e1 - e2 - 1)) by lia. rewrite Z.pow_succ_r by lia.
    replace prec with (Z.succ (prec - 1)) in Hm2 by lia. rewrite Z.pow_succ_r in Hm2 by lia.
    assert (0 < 2 ^ (e1 - e2 - 1)) by (apply Z.pow_pos_nonneg; lia). nia.
Qed.

(** An integer is a float when it has few enough bits. *)
Lemma of_int_exact n : 0 < n < 2 ^ prec -> emin + prec <= 1 -> prec <= emax ->
  exists m e, binary_normalize prec emax n 0 false = S754_finite false m e /\
    2 ^ (prec - 1) <= Zpos m < 2 ^ prec /\ emin <= e <= emax - prec /\ (dy (Zpos m) e == inject_Z n)%Q.
Proof.
  intros Hn He1 He2.
  destruct (normalize_between n 0 false n 0 n 0) as [Hv [Hz|(m & e & Hf & Hm & Hlt & He)]].
  - lia.
  - repeat split; lia.
  - split; apply Qle_refl.
  - rewrite Hz in Hv. cbn [val] in Hv. pose proof (dy_pos n 0 ltac:(lia)). lra.
  - rewrite Hf in Hv |- *. cbn [val cond_Zopp] in Hv. rewrite dy_0 in Hv.
    exists m, e. assert (dy (Zpos m) e == inject_Z n)%Q as Ev by lra.
    split; [done|split; [|done]]. split; [|done]. destruct Hm as [->|]; [|done].
    rewrite <- (dy_0 n) in Ev. rewrite (dy_shift n emin 0) in Ev by lia.
    assert (Zpos m = n * 2 ^ (0 - emin)) as -> by (apply Z.le_antisymm; apply (dy_le _ _ emin); rewrite Ev; apply Qle_refl).
    assert (2 ^ (prec - 1) <= 2 ^ (0 - emin)) by (apply Z.pow_le_mono_r; lia). nia.
Qed.

End rounding.

(** ** Integer parts *)

Lemma trunc_between prec emax lo hi x : 0 <= lo ->
  rounded prec emax (inject_Z lo) (inject_Z hi) x ->
  exists z, trunc x = Some z /\ lo <= z <= hi.
Proof.
  intros Hlo [[Hl Hu] [->|(m & e & -> & _)]].
  - exists 0. change (inject_Z lo <= inject_Z 0)%Q in Hl. change (inject_Z 0 <= inject_Z hi)%Q in Hu.
    rewrite <- Zle_Qle in Hl, Hu. by split.
  - cbn [trunc cond_Zopp val] in *. eexists; split; [done|].
    rewrite <- (dy_0 lo) in Hl. rewrite <- (dy_0 hi) in Hu.
    destruct (Z.leb_spec 0 e).
    + rewrite dy_le_shift, Z.sub_0_r in Hl by done. rewrite dy_ge_shift, Z.sub_0_r in Hu by done. lia.
    + rewrite dy_ge_shift in Hl by lia. rewrite dy_le_shift in Hu by lia. rewrite Z.sub_0_l in *.
      assert (0 < 2 ^ (- e)) by (apply Z.pow_pos_nonneg; lia).
      split; [apply Z.div_le_lower_bound; lia|].
      apply Z.div_le_upper_bound; lia.
Qed.

Lemma to_int_between prec emax a b lo hi x : 0 <= lo -> a <= lo -> hi <= b ->
  rounded prec emax (inject_Z lo) (inject_Z hi) x ->
  exists z, to_int a b x = Some z /\ lo <= z <= hi.
Proof.
  intros Hlo Ha Hb Hx. destruct (trunc_between prec emax lo hi x Hlo Hx) as (z & Ez & Hz).
  exists z. unfold to_int. rewrite Ez. cbn [mbind option_bind].
  by rewrite (proj2 (Z.leb_le a z)), (proj2 (Z.leb_le z b)) by lia.
Qed.

(** ** The two formats *)

(** A positive finite float of a format. *)
Definition pos_float (prec emax : Z) (x : spec_float) : Prop :=
  exists m e, x = S754_finite false m e /\ (e = emin prec emax \/ 2 ^ (prec - 1) <= Zpos m) /\
    Zpos m < 2 ^ prec /\ emin prec emax <= e <= emax - prec.

Abbreviation pos32 := (pos_float 24 128).
Abbreviation pos64 := (pos_float 53 1024).
Abbreviation rounded32 := (rounded 24 128).
Abbreviation rounded64 := (rounded 53 1024).

Lemma pos_float_val prec emax x : pos_float prec emax x -> (0 < val x)%Q.
Proof. intros (m & e & -> & _). by apply (dy_pos (Zpos m)). Qed.

Lemma rounded_pos prec emax lo hi x : (0 < lo)%Q -> rounded prec emax lo hi x ->
  pos_float prec emax x /\ (lo <= val x <= hi)%Q.
Proof.
  intros Hlo [Hv [->|Hx]]; [|by split]. cbn [val] in Hv. exfalso. lra.
Qed.

Lemma rounded_weaken prec emax lo hi lo' hi' x : (lo' <= lo)%Q -> (hi <= hi')%Q ->
  rounded prec emax lo hi x -> rounded prec emax lo' hi' x.
Proof. intros Hl Hh [Hv Hx]. split; [lra|done]. Qed.

Lemma f32_of_int_exact n : 0 < n < 2 ^ 24 ->
  exists m e, f32_of_int n = S754_finite false m e /\ 2 ^ 23 <= Zpos m /\
    pos32 (f32_of_int n) /\ (val (f32_of_int n) == inject_Z n)%Q.
Proof.
  intros Hn. destruct (of_int_exact 24 128 ltac:(lia) n) as (m & e & E & Hm & He & Ev); try done.
  change (24 - 1) with 23 in Hm. change (emin 24 128) with (-149) in He.
  unfold f32_of_int. rewrite E. exists m, e. split; [done|split; [lia|split; [|done]]].
  exists m, e. change (24 - 1) with 23. change (emin 24 128) with (-149).
  split; [done|split; [right|]; lia].
Qed.

Lemma f64_of_int_exact n : 0 < n < 2 ^ 53 ->
  exists m e, f64_of_int n = S754_finite false m e /\ 2 ^ 52 <= Zpos m /\
    pos64 (f64_of_int n) /\ (val (f64_of_int n) == inject_Z n)%Q.
Proof.
  intros Hn. destruct (of_int_exact 53 1024 ltac:(lia) n) as (m & e & E & Hm & He & Ev); try done.
  change (53 - 1) with 52 in Hm. change (emin 53 1024) with (-1074) in He.
  unfold f64_of_int. rewrite E. exists m, e. split; [done|split; [lia|split; [|done]]].
  exists m, e. change (53 - 1) with 52. change (emin 53 1024) with (-1074).
  split; [done|split; [right|]; lia].
Qed.

(** Every [float] is a [double]. *)
Lemma f64_of_f32_exact x : pos32 x -> pos64 (f64_of_f32 x) /\ (val (f64_of_f32 x) == val x)%Q.
Proof.
  intros (m & e & -> & _ & Hm & He). cbn [f64_of_f32 cond_Zopp].
  change (emin 24 128) with (-149) in He.
  destruct (rounded_pos 53 1024 (dy (Zpos m) e) (dy (Zpos m) e) (binary_normalize 53 1024 (Zpos m) e false)) as [Hp Hv].
  - apply dy_pos. lia.
  - apply normalize_between; [lia|lia| |split; apply Qle_refl].
    change (emin 53 1024) with (-1074). repeat split; change (emin 53 1024) with (-1074); lia.
  - split; [done|]. cbn [val cond_Zopp] in *. lra.
Qed.
