(* ===== verification/Modes.v ===== *)
(** * Mode lines ([libxcvt/lib/libxcvt.c], [lorieCvt] of [lorie/InitOutput.c])

    The mode of the only output of the X server is made up from the size of the window
    on the Android side and its frame rate, by the formulas of the VESA standard for
    coordinated video timings. They mix [int], [float] and [double] and store what comes
    out in narrow fields. *)

From Stdlib Require Import SpecFloat QArith Lqa.
From stdpp Require Import pretty.
From S2P Require Import Prelude Floats.

(** ** Data *)

Definition LIBXCVT_MODE_FLAG_HSYNC_POSITIVE : Z := 1.
Definition LIBXCVT_MODE_FLAG_HSYNC_NEGATIVE : Z := 2.
Definition LIBXCVT_MODE_FLAG_VSYNC_POSITIVE : Z := 4.
Definition LIBXCVT_MODE_FLAG_VSYNC_NEGATIVE : Z := 8.
Definition LIBXCVT_MODE_FLAG_INTERLACE : Z := 16.

(** [struct libxcvt_mode_info]: [hdisplay] and [vdisplay] have 32 bits, [dot_clock] has
    64, the rest 16. *)
Record libxcvt_mode_info := {
  hdisplay : Z; vdisplay : Z; vrefresh : float32; hsync : float32; dot_clock : Z;
  hsync_start : Z; hsync_end : Z; htotal : Z;
  vsync_start : Z; vsync_end : Z; vtotal : Z; mode_flags : Z;
}.

(** ** Arithmetic on [int] *)

(** The result of an operation on [int]; an overflow is undefined. *)
Definition int_op (z : Z) : option Z :=
  if (- 2 ^ 31 <=? z) && (z <? 2 ^ 31) then Some z else None.

Definition f32_to_int : float32 -> option Z := to_int (- 2 ^ 31) (2 ^ 31 - 1).
Definition f64_to_int : double -> option Z := to_int (- 2 ^ 31) (2 ^ 31 - 1).
Definition f32_to_u16 : float32 -> option Z := to_int 0 (2 ^ 16 - 1).
Definition f64_to_u16 : double -> option Z := to_int 0 (2 ^ 16 - 1).
Definition f64_to_u64 : double -> option Z := to_int 0 (2 ^ 64 - 1).
Definition f64_to_u32 : double -> option Z := to_int 0 (2 ^ 32 - 1).

(** ** The generator *)

Definition CVT_H_GRANULARITY : Z := 8.
Definition CVT_MIN_V_PORCH_RND : Z := 3.
Definition CVT_MIN_V_BPORCH : Z := 6.
Definition CVT_CLOCK_STEP : Z := 250.
Definition CVT_HSYNC_PERCENTAGE : Z := 8.
Definition CVT_MIN_VSYNC_BP : double := f64_of_int 550.
Definition CVT_M_PRIME : Z := 600 * 128 / 256.
Definition CVT_C_PRIME : Z := (40 - 20) * 128 / 256 + 20.
Definition CVT_RB_MIN_VBLANK : double := f64_of_int 460.
Definition CVT_RB_H_SYNC : double := f64_of_int 32.
Definition CVT_RB_H_BLANK : double := f64_of_int 160.
Definition CVT_RB_VFPORCH : Z := 3.

(** The width of the vertical sync tells the aspect ratio of the screen. *)
Definition vsync_width (hdisplay vdisplay : Z) : Z :=
  if (vdisplay mod 3 =? 0) && (u32 (vdisplay * 4) / 3 =? hdisplay) then 4
  else if (vdisplay mod 9 =? 0) && (u32 (vdisplay * 16) / 9 =? hdisplay) then 5
  else if (vdisplay mod 10 =? 0) && (u32 (vdisplay * 16) / 10 =? hdisplay) then 6
  else if (vdisplay mod 4 =? 0) && (u32 (vdisplay * 5) / 4 =? hdisplay) then 7
  else if (vdisplay mod 9 =? 0) && (u32 (vdisplay * 15) / 9 =? hdisplay) then 7
  else 10.

(** What [blank] microseconds leave of a field, in microseconds, and the time of a line. *)
Definition field_time (vfield_rate : float32) (blank : double) : float32 :=
  f32_of_f64 (f64_sub (f64_div (f64_of_int 1000000) (f64_of_f32 vfield_rate)) blank).

Definition line_period (vfield_rate : float32) (blank : double) (lines : float32) : float32 :=
  f32_div (field_time vfield_rate blank) lines.

(** The share of the blanking in a line in percent, at least 20. *)
Definition blanking_share (hperiod : float32) : float32 :=
  let p := f32_of_f64 (f64_sub (f64_of_int CVT_C_PRIME)
             (f64_div (f64_of_f32 (f32_mul (f32_of_int CVT_M_PRIME) hperiod)) (f64_of_int 1000))) in
  if SFltb p (f32_of_int 20) then f32_of_int 20 else p.

(** What both formulas give: the period of a line and the timings [hsync_start],
    [hsync_end], [htotal], [vsync_start], [vsync_end] and [vtotal]. *)
Definition timings : Type := float32 * (Z * Z * Z) * (Z * Z * Z).

Definition standard_timings (vfield_rate interlace : float32) (hdisplay vdisplay vdisplay_rnd vsync : Z) : option timings :=
  lines ← int_op (vdisplay_rnd + CVT_MIN_V_PORCH_RND);
  let hperiod := line_period vfield_rate CVT_MIN_VSYNC_BP (f32_add (f32_of_int lines) interlace) in
  n ← f64_to_int (f64_div CVT_MIN_VSYNC_BP (f64_of_f32 hperiod));
  n1 ← int_op (n + 1);
  let vsync_and_back_porch := if n1 <? vsync + CVT_MIN_V_BPORCH then vsync + CVT_MIN_V_BPORCH else n1 in
  sum ← int_op (vdisplay_rnd + vsync_and_back_porch);
  vtotal ← f32_to_u16 (f32_add (f32_add (f32_of_int sum) interlace) (f32_of_int CVT_MIN_V_PORCH_RND));
  let hblank_percentage := blanking_share hperiod in
  hblank ← f64_to_int (f64_div (f64_of_f32 (f32_mul (f32_of_int hdisplay) hblank_percentage))
                               (f64_sub (f64_of_int 100) (f64_of_f32 hblank_percentage)));
  let hblank := hblank - Z.rem hblank (2 * CVT_H_GRANULARITY) in
  let htotal := u16 (hdisplay + hblank) in
  let hsync_end := u16 (hdisplay + Z.quot hblank 2) in
  let hsync_w := htotal * CVT_HSYNC_PERCENTAGE / 100 in
  let hsync_w := hsync_w - hsync_w mod CVT_H_GRANULARITY in
  let hsync_start := u16 (hsync_end - hsync_w) in
  let vsync_start := u16 (vdisplay + CVT_MIN_V_PORCH_RND) in
  Some (hperiod, (hsync_start, hsync_end, htotal), (vsync_start, u16 (vsync_start + vsync), vtotal)).

Definition reduced_timings (vfield_rate interlace : float32) (hdisplay vdisplay vdisplay_rnd vsync : Z) : option timings :=
  let hperiod := line_period vfield_rate CVT_RB_MIN_VBLANK (f32_of_int vdisplay_rnd) in
  n ← f32_to_int (f32_add (f32_div (f32_of_f64 CVT_RB_MIN_VBLANK) hperiod) (f32_of_int 1));
  let least := CVT_RB_VFPORCH + vsync + CVT_MIN_V_BPORCH in
  let vblank_interval_lines := if n <? least then least else n in
  vtotal ← f32_to_u16 (f32_add (f32_add (f32_of_int vdisplay_rnd) interlace) (f32_of_int vblank_interval_lines));
  htotal ← f64_to_u16 (f64_add (f64_of_int hdisplay) CVT_RB_H_BLANK);
  hsync_end ← f64_to_u16 (f64_add (f64_of_int hdisplay) (f64_div CVT_RB_H_BLANK (f64_of_int 2)));
  hsync_start ← f64_to_u16 (f64_sub (f64_of_int hsync_end) CVT_RB_H_SYNC);
  let vsync_start := u16 (vdisplay + CVT_RB_VFPORCH) in
  Some (hperiod, (hsync_start, hsync_end, htotal), (vsync_start, u16 (vsync_start + vsync), vtotal)).

(** The margins are switched off in the code. [None] is undefined behaviour, [Some None]
    the answer [NULL] when there is no memory. *)
Definition libxcvt_gen_mode_info (memory : bool) (width height : Z) (refresh : float32) (reduced interlaced : bool)
    : option (option libxcvt_mode_info) :=
  if negb memory then Some None
  else
    let vrefresh := if SFeqb refresh (f32_of_int 0) then f32_of_int 60 else refresh in
    let vfield_rate := if interlaced then f32_mul vrefresh (f32_of_int 2) else vrefresh in
    let hdisplay := u32 (i32 (u32 width - u32 width mod CVT_H_GRANULARITY)) in
    let vdisplay := u32 height in
    let vdisplay_rnd := i32 (if interlaced then vdisplay / 2 else vdisplay) in
    let interlace := if interlaced then f32_of_f64 (tenths 5) else f32_of_int 0 in
    let vsync := vsync_width hdisplay vdisplay in
    '(hperiod, (hsync_start, hsync_end, htotal), (vsync_start, vsync_end, vtotal)) ←
      (if reduced then reduced_timings else standard_timings)
        vfield_rate interlace hdisplay vdisplay vdisplay_rnd vsync;
    clock ← f64_to_u64 (f64_div (f64_mul (f64_of_int htotal) (f64_of_int 1000)) (f64_of_f32 hperiod));
    let clock := clock - clock mod CVT_CLOCK_STEP in
    pixels ← int_op (htotal * vtotal);
    let fwxga := (hdisplay =? 1360) && (vdisplay =? 768) in
    Some (Some {|
      hdisplay := if fwxga then 1366 else hdisplay;
      vdisplay := vdisplay;
      vrefresh := f32_of_f64 (f64_div (f64_mul (f64_of_int 1000) (f64_of_f32 (f32_of_int clock)))
                                      (f64_of_f32 (f32_of_int pixels)));
      hsync := f32_div (f32_of_int clock) (f32_of_int htotal);
      dot_clock := clock;
      hsync_start := if fwxga then u16 (hsync_start - 1) else hsync_start;
      hsync_end := if fwxga then u16 (hsync_end - 1) else hsync_end;
      htotal := htotal; vsync_start := vsync_start; vsync_end := vsync_end;
      vtotal := if interlaced then u16 (vtotal * 2) else vtotal;
      mode_flags :=
        Z.lor (if reduced then Z.lor LIBXCVT_MODE_FLAG_HSYNC_POSITIVE LIBXCVT_MODE_FLAG_VSYNC_NEGATIVE
               else Z.lor LIBXCVT_MODE_FLAG_HSYNC_NEGATIVE LIBXCVT_MODE_FLAG_VSYNC_POSITIVE)
              (if interlaced then LIBXCVT_MODE_FLAG_INTERLACE else 0) |}).

(** [xRRModeInfo] of the resize and rotate extension, without the identifier. *)
Record xRRModeInfo := {
  mi_width : Z; mi_height : Z; mi_dotClock : Z;
  mi_hSyncStart : Z; mi_hSyncEnd : Z; mi_hTotal : Z; mi_hSkew : Z;
  mi_vSyncStart : Z; mi_vSyncEnd : Z; mi_vTotal : Z;
  mi_nameLength : Z; mi_modeFlags : Z;
}.

#[export] Instance xRRModeInfo_eq_dec : EqDecision xRRModeInfo.
Proof. solve_decision. Defined.

(** The first half of [lorieCvt]: the name and the description of the mode. Without
    memory the code follows a null pointer. *)
Definition lorieCvt_info (memory : bool) (width height framerate : Z) : option (string * xRRModeInfo) :=
  '(info : option libxcvt_mode_info) ← libxcvt_gen_mode_info memory width height (f32_of_int framerate) false false;
  info ← info;
  let name := (pretty (i32 (hdisplay info)) +:+ "x" +:+ pretty (i32 (vdisplay info)))%string in
  dotClock ← f64_to_u32 (f64_mul (f64_of_int (dot_clock info)) (f64_of_int 1000));
  Some (name, {|
    mi_width := u16 (hdisplay info); mi_height := u16 (vdisplay info); mi_dotClock := dotClock;
    mi_hSyncStart := hsync_start info; mi_hSyncEnd := hsync_end info; mi_hTotal := htotal info; mi_hSkew := 0;
    mi_vSyncStart := vsync_start info; mi_vSyncEnd := vsync_end info; mi_vTotal := vtotal info;
    mi_nameLength := Z.of_nat (String.length name); mi_modeFlags := mode_flags info |}).

(** ** The time of a line *)

(** The lines of a frame have between 3600 and 1000000 microseconds. *)
Definition frame_time_ok (f : Z) : bool :=
  match field_time (f32_of_int f) CVT_MIN_VSYNC_BP with
  | S754_finite false m e => (e <? 0) && (3600 * 2 ^ (- e) <=? Zpos m) && (Zpos m <=? 1000000 * 2 ^ (- e))
  | _ => false
  end.

Lemma frame_times : forallb frame_time_ok (seqZ 1 240) = true.
Proof. vm_compute. reflexivity. Qed.

Lemma frame_time_spec f : 1 <= f <= 240 ->
  exists m e, let t := field_time (f32_of_int f) CVT_MIN_VSYNC_BP in
    t = S754_finite false m e /\ (3600 <= val t <= 1000000)%Q.
Proof.
  intros Hf. pose proof frame_times as H. rewrite forallb_forall in H.
  specialize (H f). rewrite <- list_elem_of_In, elem_of_seqZ in H. specialize (H ltac:(lia)).
  unfold frame_time_ok in H. destruct (field_time (f32_of_int f) CVT_MIN_VSYNC_BP) as [| | |[] m e]; try done.
  rewrite !andb_true_iff, !Z.leb_le, Z.ltb_lt in H. destruct H as [[He Hl] Hu].
  exists m, e. split; [done|]. cbn [val cond_Zopp].
  change 3600%Q with (inject_Z 3600). change 1000000%Q with (inject_Z 1000000).
  rewrite <- (dy_0 3600), <- (dy_0 1000000), dy_ge_shift, dy_le_shift by lia.
  by rewrite Z.sub_0_l.
Qed.

(** [Z] inequalities as inequalities of rational numbers. *)
Lemma Q_le a b : a <= b -> (inject_Z a <= inject_Z b)%Q.
Proof. by rewrite Zle_Qle. Qed.

Lemma Q_le_mult a b c : a * b <= c -> (inject_Z a * inject_Z b <= inject_Z c)%Q.
Proof. intros. rewrite <- inject_Z_mult. by apply Q_le. Qed.

Lemma Q_ge_mult a b c : c <= a * b -> (inject_Z c <= inject_Z a * inject_Z b)%Q.
Proof. intros. rewrite <- inject_Z_mult. by apply Q_le. Qed.

(** The lemmas are about [b] lines, the visible ones and the porch. *)
Section line.

Variables (f b : Z).
Hypotheses (Hf : 1 <= f <= 240) (Hb : 4 <= b <= 32770).

Local Abbreviation hperiod := (line_period (f32_of_int f) CVT_MIN_VSYNC_BP (f32_of_int b)).

Lemma line_period_between : pos32 hperiod /\ (3300 <= val hperiod * inject_Z b)%Q /\ (val hperiod <= 250000)%Q.
Proof.
  destruct (frame_time_spec f Hf) as (m & e & Et & Hl & Hu). unfold line_period. rewrite Et in *.
  destruct (f32_of_int_exact b ltac:(lia)) as (mb & eb & Eb & _ & _ & Vb). rewrite Eb in *.
  set (lo := 3300 * 128 / b + 1).
  assert (3300 * 128 <= lo * b <= 3300 * 128 + b) as Hlo.
  { pose proof (Z.div_mod (3300 * 128) b ltac:(lia)). pose proof (Z.mod_pos_bound (3300 * 128) b ltac:(lia)). lia. }
  assert (1 <= lo <= 105601) as Hlo' by nia.
  assert (inject_Z lo * inject_Z b <= 455170)%Q as H1 by (apply (Q_le_mult lo b 455170); lia).
  assert (422400 <= inject_Z lo * inject_Z b)%Q as H2 by (apply (Q_ge_mult lo b 422400); lia).
  assert (4 <= inject_Z b)%Q as H3 by (apply (Q_le 4 b); lia).
  assert (dy lo (-7) == inject_Z lo * (1 # 128))%Q as Elo by done. assert (dy 250000 0 == 250000)%Q as E25 by done.
  destruct (rounded_pos 24 128 (dy lo (-7)) (dy 250000 0) (f32_div (S754_finite false m e) (S754_finite false mb eb)))
    as [Hp Hv].
  - apply dy_pos. lia.
  - apply div_between; [lia|lia|repeat split; try done; lia|]. rewrite Vb, Elo, E25. split; lra.
  - split; [done|]. rewrite Elo, E25 in Hv. split; [|lra]. nra.
Qed.

(** The sync and the back porch of the standard take at most a sixth of the lines. *)
Lemma vsync_lines : exists n, f64_to_int (f64_div CVT_MIN_VSYNC_BP (f64_of_f32 hperiod)) = Some n /\ 0 <= n <= b / 6 + 1.
Proof.
  destruct line_period_between as (Hp & Hl & Hu).
  destruct (f64_of_f32_exact _ Hp) as [(m & e & E & _) Ev]. rewrite E in *.
  destruct (f64_of_int_exact 550 ltac:(lia)) as (m5 & e5 & E5 & _ & _ & V5).
  unfold CVT_MIN_VSYNC_BP. rewrite E5 in *.
  assert (inject_Z b <= inject_Z (b / 6 + 1) * 6)%Q as H1.
  { apply (Q_ge_mult (b / 6 + 1) 6 b). pose proof (Z.div_mod b 6). pose proof (Z.mod_pos_bound b 6). lia. }
  assert (0 <= b / 6 <= 5461) by (split; [apply Z.div_pos; lia|]; apply Z.lt_succ_r, Z.div_lt_upper_bound; lia).
  eapply to_int_between; [lia|lia|lia|]. 
  apply (rounded_weaken _ _ (dy 1 (-9)) (dy (b / 6 + 1) 0)); [easy|rewrite dy_0; apply Qle_refl|].
  apply div_between; [lia|lia|repeat split; try done; lia|].
  assert (dy 1 (-9) == 1 # 512)%Q as -> by done. rewrite V5, Ev, dy_0. change (inject_Z 550) with 550%Q.
  pose proof (Qmult_le_compat_r _ _ _ H1 (Qlt_le_weak _ _ (pos_float_val _ _ _ Hp))). split; lra.
Qed.

End line.

Lemma below_20 x : not_positive x \/ x = S754_zero false -> SFltb x (f32_of_int 20) = true.
Proof. by intros [H| ->]; [destruct x as [| [] | |[]]|]. Qed.

(** From [double] to [float], below a bound. *)
Lemma f32_of_f64_below x hi : 0 <= hi < 2 ^ 24 -> not_positive x \/ rounded64 0 (inject_Z hi) x ->
  not_positive (f32_of_f64 x) \/ rounded32 0 (inject_Z hi) (f32_of_f64 x).
Proof.
  intros Hhi [Hx|[Hv [->|(m & e & -> & _ & Hm & He)]]].
  - left. destruct x as [| | |s m e]; try done. cbn [not_positive] in Hx. subst s.
    apply (round_negative 24 128 ltac:(lia) (Zpos m)). lia.
  - by left.
  - right. cbn [f32_of_f64 cond_Zopp val] in *.
    apply (rounded_weaken _ _ (dy 0 0) (dy hi 0)); [easy|rewrite dy_0; apply Qle_refl|].
    apply normalize_between; [lia|lia|repeat split; try done; lia|].
    by rewrite dy_zero, dy_0.
Qed.

(** The time of a line in thousandths, times 300. *)
Lemma blanking_gradient hp : pos32 hp -> (30 <= 300 * val hp)%Q -> (val hp <= 250000)%Q ->
  pos64 (f64_div (f64_of_f32 (f32_mul (f32_of_int 300) hp)) (f64_of_int 1000)).
Proof.
  intros (m & e & -> & _) Hl Hu.
  destruct (f32_of_int_exact 300 ltac:(lia)) as (m3 & e3 & E3 & H3 & _ & V3). rewrite E3 in *.
  assert (dy 4687500 4 == 75000000)%Q as Eh by done.
  destruct (rounded_pos 24 128 (dy 1 0) (dy 4687500 4) (f32_mul (S754_finite false m3 e3) (S754_finite false m e)))
    as [Hx Vx]; [done|apply mul_between; [lia|lia|repeat split; try done; lia|]|].
  { rewrite V3, Eh, dy_0. change (inject_Z 300) with 300%Q. change (inject_Z 1) with 1%Q. split; lra. }
  rewrite Eh, dy_0 in Vx. change (inject_Z 1) with 1%Q in Vx.
  destruct (f64_of_f32_exact _ Hx) as [(m4 & e4 & E4 & _) V4]. rewrite E4 in *.
  destruct (f64_of_int_exact 1000 ltac:(lia)) as (m5 & e5 & E5 & _ & _ & V5). rewrite E5 in *.
  apply (rounded_pos 53 1024 (dy 1 (-10)) (dy 75000 0)); [done|].
  apply div_between; [lia|lia|repeat split; try done; lia|].
  rewrite V4, V5, dy_0. assert (dy 1 (-10) == 1 # 1024)%Q as -> by done.
  change (inject_Z 75000) with 75000%Q. change (inject_Z 1000) with 1000%Q. split; lra.
Qed.

(** 30 percent less something. *)
Lemma blanking_difference y : pos64 y ->
  let p := f32_of_f64 (f64_sub (f64_of_int 30) y) in not_positive p \/ rounded32 0 30 p.
Proof.
  intros (m & e & -> & _) p. apply (f32_of_f64_below _ 30); [lia|].
  destruct (f64_of_int_exact 30 ltac:(lia)) as (m7 & e7 & E7 & _ & _ & V7). rewrite E7 in *.
  destruct (Qlt_le_dec (val (S754_finite false m e)) (val (S754_finite false m7 e7))) as [Hlt|Hle].
  - right. apply (rounded_weaken _ _ (dy 0 0) (dy 30 0)); [easy|easy|].
    apply sub_between; [lia|repeat split; try done; lia|done|]. rewrite dy_zero. split; [lra|].
    pose proof (dy_pos (Zpos m) e ltac:(lia)) as Hm. rewrite V7, dy_0. cbn [val cond_Zopp]. lra.
  - left. by apply sub_not_positive.
Qed.

Lemma blanking_share_between hp : pos32 hp -> (30 <= 300 * val hp)%Q -> (val hp <= 250000)%Q ->
  pos32 (blanking_share hp) /\ (20 <= val (blanking_share hp) <= 30)%Q.
Proof.
  intros Hp Hl Hu. unfold blanking_share. change CVT_C_PRIME with 30. change CVT_M_PRIME with 300.
  pose proof (blanking_difference _ (blanking_gradient hp Hp Hl Hu)) as Hshare. cbv zeta in Hshare |- *.
  destruct (SFltb _ _) eqn:Elt.
  - destruct (f32_of_int_exact 20 ltac:(lia)) as (m & e & _ & _ & H20 & V20). split; [done|].
    rewrite V20. change (inject_Z 20) with 20%Q. lra.
  - destruct Hshare as [Hn|[Hv [Hz|Hp']]].
    1,2: by rewrite below_20 in Elt by auto.
    split; [done|]. split; [|apply Hv]. destruct Hp' as (m & e & E & Hn & _). rewrite E in *.
    assert (20 == val (f32_of_int 20))%Q as -> by done.
    by apply (ltb_false 24 128) in Elt.
Qed.

(** The blanking of [w] pixels: between a fourth and three sevenths of them. *)
Lemma hblank_between w p : 8 <= w <= 32767 -> w mod 4 = 0 -> pos32 p -> (20 <= val p <= 30)%Q ->
  exists n, f64_to_int (f64_div (f64_of_f32 (f32_mul (f32_of_int w) p)) (f64_sub (f64_of_int 100) (f64_of_f32 p))) = Some n /\
    w / 4 <= n <= w * 3 / 7 + 1.
Proof.
  intros Hw Hmod Hp Vp. destruct (f64_of_f32_exact p Hp) as [(md & ed & Ed & _) Vd]. rewrite Ed in *.
  destruct (f64_of_int_exact 100 ltac:(lia)) as (m1 & e1 & E1 & _ & _ & V1). rewrite E1 in *.
  change (inject_Z 100) with 100%Q in V1.
  assert (dy 70 0 == 70 /\ dy 80 0 == 80)%Q as [E70 E80] by done.
  destruct (rounded_pos 53 1024 (dy 70 0) (dy 80 0) (f64_sub (S754_finite false m1 e1) (S754_finite false md ed)))
    as [(m2 & e2 & E2 & _) V2]; [done|apply sub_between; [lia|repeat split; try done; lia| |]|].
  { rewrite V1, Vd. lra. } { rewrite V1, Vd, E70, E80. split; lra. }
  rewrite E2, E70, E80 in *.
  destruct (f32_of_int_exact w ltac:(lia)) as (m3 & e3 & E3 & H3 & _ & V3). rewrite E3 in *.
  assert (8 <= inject_Z w)%Q as Qw by (apply (Q_le 8); lia).
  assert (dy (w * 20) 0 == inject_Z w * 20 /\ dy (w * 30) 0 == inject_Z w * 30)%Q as [Ew Ew']
    by (rewrite !dy_0, !inject_Z_mult; done).
  destruct Hp as (mp & ep & -> & _).
  destruct (rounded_pos 24 128 (dy (w * 20) 0) (dy (w * 30) 0) (f32_mul (S754_finite false m3 e3) (S754_finite false mp ep)))
    as [Hx Vx]; [apply dy_pos; lia|apply mul_between; [lia|lia|repeat split; try done; lia|]|].
  { rewrite V3, Ew, Ew'. split; nra. }
  rewrite Ew, Ew' in Vx. destruct (f64_of_f32_exact _ Hx) as [(m4 & e4 & E4 & _) V4]. rewrite E4 in *.
  assert (inject_Z w == inject_Z (w / 4) * 4)%Q as Q4.
  { change 4%Q with (inject_Z 4). rewrite <- inject_Z_mult. f_equiv. pose proof (Z.div_mod w 4). lia. }
  assert (inject_Z w * 3 <= inject_Z (w * 3 / 7 + 1) * 7)%Q as Q7.
  { change 3%Q with (inject_Z 3). rewrite <- inject_Z_mult. apply (Q_ge_mult (w * 3 / 7 + 1) 7).
    pose proof (Z.div_mod (w * 3) 7). pose proof (Z.mod_pos_bound (w * 3) 7). lia. }
  assert (0 <= w * 3 / 7 <= 14043) by (split; [apply Z.div_pos; lia|]; apply Z.lt_succ_r, Z.div_lt_upper_bound; lia).
  assert (2 <= w / 4 <= 8192) as H4 by (pose proof (Z.div_mod w 4); lia).
  assert (2 <= inject_Z (w / 4))%Q as Q2 by (apply (Q_le 2); lia).
  eapply to_int_between; [lia|lia|lia|].
  apply (rounded_weaken _ _ (dy (w / 4) 0) (dy (w * 3 / 7 + 1) 0)); [rewrite dy_0; apply Qle_refl..|].
  apply div_between; [lia|lia|repeat split; try done; lia|]. rewrite V4, !dy_0. split; nra.
Qed.

Lemma vtotal_exact n : 0 < n <= 65532 ->
  f32_to_u16 (f32_add (f32_add (f32_of_int n) (f32_of_int 0)) (f32_of_int CVT_MIN_V_PORCH_RND)) = Some (n + 3).
Proof.
  intros Hn. change CVT_MIN_V_PORCH_RND with 3.
  destruct (f32_of_int_exact n ltac:(lia)) as (m & e & E & _ & _ & V). rewrite E in *.
  destruct (f32_of_int_exact 3 ltac:(lia)) as (m3 & e3 & E3 & _ & _ & V3). rewrite E3 in *.
  change (f32_add (S754_finite false m e) (f32_of_int 0)) with (S754_finite false m e).
  destruct (to_int_between 24 128 0 (2 ^ 16 - 1) (n + 3) (n + 3)
              (f32_add (S754_finite false m e) (S754_finite false m3 e3))) as (z & Ez & Hz); [lia..| |].
  - apply (rounded_weaken _ _ (dy (n + 3) 0) (dy (n + 3) 0)); [rewrite dy_0; apply Qle_refl..|].
    apply float_add_between; [lia|repeat split; try done; lia|].
    rewrite V, V3, dy_0, inject_Z_plus. split; apply Qle_refl.
  - unfold f32_to_u16. rewrite Ez. f_equal. lia.
Qed.

(** The pixel clock in kHz. *)
Lemma clock_between t hp b : 8 <= t <= 65535 -> 4 <= b <= 32770 ->
  pos32 hp -> (3300 <= val hp * inject_Z b)%Q -> (val hp <= 250000)%Q ->
  exists n, f64_to_u64 (f64_div (f64_mul (f64_of_int t) (f64_of_int 1000)) (f64_of_f32 hp)) = Some n /\
    0 <= n <= t * b * 1000 / 3300 + 1.
Proof.
  intros Ht Hb Hp Hl Hu. destruct (f64_of_f32_exact _ Hp) as [(m & e & E & _) V]. rewrite E in *.
  destruct (f64_of_int_exact 1000 ltac:(lia)) as (m1 & e1 & E1 & _ & _ & V1). rewrite E1 in *.
  destruct (f64_of_int_exact t ltac:(lia)) as (m2 & e2 & E2 & H2 & _ & V2). rewrite E2 in *.
  destruct (rounded_pos 53 1024 (dy (t * 1000) 0) (dy (t * 1000) 0) (f64_mul (S754_finite false m2 e2) (S754_finite false m1 e1)))
    as [(m3 & e3 & E3 & _) V3]; [apply dy_pos; lia|apply mul_between; [lia|lia|repeat split; try done; lia|]|].
  { rewrite V1, V2, dy_0, inject_Z_mult. split; apply Qle_refl. }
  rewrite E3, dy_0, inject_Z_mult in *. change (inject_Z 1000) with 1000%Q in V3.
  set (k := t * b * 1000 / 3300 + 1).
  assert (t * b * 1000 <= k * 3300 /\ 0 <= k <= 650789365) as [H1 Hk].
  { pose proof (Z.div_mod (t * b * 1000) 3300). pose proof (Z.mod_pos_bound (t * b * 1000) 3300).
    assert (32 <= t * b <= 65535 * 32770) by nia. lia. }
  assert (inject_Z t * inject_Z b * 1000 <= inject_Z k * 3300)%Q as Q1.
  { change 1000%Q with (inject_Z 1000). rewrite <- !inject_Z_mult. by apply (Q_ge_mult k 3300). }
  assert (8 <= inject_Z t)%Q as Q8 by (apply (Q_le 8); lia).
  assert (0 <= inject_Z k)%Q as Q0 by (apply (Q_le 0); lia).
  pose proof (pos_float_val _ _ _ Hp) as Hpos.
  eapply to_int_between; [lia|lia|lia|].
  apply (rounded_weaken _ _ (dy 1 (-6)) (dy k 0)); [easy|rewrite dy_0; apply Qle_refl|].
  apply div_between; [lia|lia|repeat split; try done; lia|].
  assert (dy 1 (-6) == 1 # 64)%Q as -> by done. rewrite V, dy_0. split; [lra|].
  assert (inject_Z t * 3300 <= inject_Z t * (val hp * inject_Z b))%Q as Q2 by (apply Qmult_le_l; [lra|done]).
  pose proof (Qmult_le_compat_r _ _ (val hp) Q1 (Qlt_le_weak _ _ Hpos)) as Q3. lra.
Qed.

(** ** The vertical and horizontal timings *)

Lemma vsync_width_range w h : 4 <= vsync_width w h <= 10.
Proof. unfold vsync_width. repeat case_match; lia. Qed.

Lemma int_op_ok z : - 2 ^ 31 <= z < 2 ^ 31 -> int_op z = Some z.
Proof.
  intros. unfold int_op. by rewrite (proj2 (Z.leb_le _ z)), (proj2 (Z.ltb_lt z _)) by lia.
Qed.

Lemma f32_add_0 n : 0 < n < 2 ^ 24 -> f32_add (f32_of_int n) (f32_of_int 0) = f32_of_int n.
Proof. intros Hn. by destruct (f32_of_int_exact n Hn) as (m & e & -> & _). Qed.

(** What [standard_timings] gives for [w] pixels and [h] lines. *)
Definition timings_of (w h vsync n hb : Z) : (Z * Z * Z) * (Z * Z * Z) :=
  let hb := hb - hb mod 16 in
  let total := w + hb in
  let sync := total * 8 / 100 in
  ((w + hb / 2 - (sync - sync mod 8), w + hb / 2, total),
   (h + 3, h + 3 + vsync, h + Z.max (vsync + 6) (n + 1) + 3)).

Lemma standard_timings_spec f w h vsync : 1 <= f <= 240 -> 8 <= w <= 32767 -> w mod 8 = 0 -> 1 <= h <= 32767 ->
  4 <= vsync <= 10 ->
  exists n hb, let hp := line_period (f32_of_int f) CVT_MIN_VSYNC_BP (f32_of_int (h + 3)) in
    let '(hs, vs) := timings_of w h vsync n hb in
    standard_timings (f32_of_int f) (f32_of_int 0) w h h vsync = Some (hp, hs, vs) /\
    0 <= n <= (h + 3) / 6 + 1 /\ w / 4 <= hb <= w * 3 / 7 + 1.
Proof.
  intros Hf Hw Hmod Hh Hvs. pose proof (line_period_between f (h + 3) Hf ltac:(lia)) as (Hp & Hl & Hu).
  destruct (vsync_lines f (h + 3) Hf ltac:(lia)) as (n & En & Hn).
  set (hp := line_period _ _ _) in *.
  assert (inject_Z (h + 3) <= 32770)%Q as Qb by (apply (Q_le _ 32770); lia).
  pose proof (pos_float_val _ _ _ Hp) as Hpos.
  destruct (blanking_share_between hp Hp ltac:(nra) Hu) as [Hs Vs].
  assert (w mod 4 = 0) as Hmod4 by (Z.div_mod_to_equations; lia).
  destruct (hblank_between w (blanking_share hp) Hw Hmod4 Hs Vs) as (hb & Ehb & Hhb).
  assert (0 <= w * 3 / 7 <= 14043 /\ 0 <= (h + 3) / 6 <= 5461 /\ 0 <= w / 4) as (H7 & H6 & H4)
    by (Z.div_mod_to_equations; lia).
  pose proof (Z.mod_pos_bound hb 16 ltac:(lia)).
  exists n, hb. cbn [timings_of]. split; [|done].
  unfold standard_timings, CVT_MIN_V_PORCH_RND, CVT_MIN_V_BPORCH, CVT_H_GRANULARITY, CVT_HSYNC_PERCENTAGE.
  rewrite int_op_ok by lia. cbn [mbind option_bind]. rewrite f32_add_0 by lia. fold hp.
  rewrite En. cbn [mbind option_bind]. rewrite int_op_ok by lia. cbn [mbind option_bind].
  replace (if n + 1 <? vsync + 6 then vsync + 6 else n + 1) with (Z.max (vsync + 6) (n + 1))
    by (destruct (Z.ltb_spec (n + 1) (vsync + 6)); lia).
  rewrite int_op_ok by lia. cbn [mbind option_bind]. fold CVT_MIN_V_PORCH_RND. rewrite vtotal_exact by lia. unfold CVT_MIN_V_PORCH_RND.
  cbn [mbind option_bind]. rewrite Ehb. cbn [mbind option_bind].
  rewrite Z.rem_mod_nonneg by lia. change (2 * 8) with 16. set (hb' := hb - hb mod 16).
  assert (0 <= hb' <= hb) as Hb' by (pose proof (Z.mod_le hb 16); lia).
  rewrite Z.quot_div_nonneg by lia.
  assert (0 <= hb' / 2 <= hb' /\ 0 <= (w + hb') * 8 / 100 <= w + hb' / 2) as [Hb2 Hsync]
    by (Z.div_mod_to_equations; lia).
  pose proof (Z.mod_pos_bound ((w + hb') * 8 / 100) 8 ltac:(lia)).
  pose proof (Z.mod_le ((w + hb') * 8 / 100) 8 ltac:(lia) ltac:(lia)).
  rewrite (uwrap_small 16 (w + hb')), (uwrap_small 16 (w + hb' / 2)), (uwrap_small 16 (_ - _)) by lia.
  rewrite (uwrap_small 16 (h + 3)), (uwrap_small 16 (h + 3 + vsync)) by lia.
  done.
Qed.

(** A mode line that a monitor can follow: the display, the sync and the rest of the
    blanking come one after the other, in both directions, and nothing was cut to 16
    bits. *)
Definition well_formed_mode (m : libxcvt_mode_info) : Prop :=
  hdisplay m <= hsync_start m <= hsync_end m /\ hsync_end m <= htotal m < 2 ^ 16 /\
  vdisplay m + 3 = vsync_start m /\ vsync_start m + 4 <= vsync_end m <= vsync_start m + 10 /\
  vsync_end m + 6 <= vtotal m < 2 ^ 16 /\
  dot_clock m mod 250 = 0.

(** The width that a mode has for a window. *)
Definition mode_width (width height : Z) : Z :=
  let w := width - width mod 8 in if (w =? 1360) && (height =? 768) then 1366 else w.

Lemma horizontal_order w hb : 8 <= w <= 32767 -> w / 4 <= hb <= w * 3 / 7 + 1 ->
  let hb := hb - hb mod 16 in let sync := (w + hb) * 8 / 100 in
  0 <= hb /\ w + hb <= 46811 /\ 0 <= sync - sync mod 8 <= hb / 2 /\ hb / 2 * 2 = hb /\
  (w = 1360 -> 38 <= hb / 2 - (sync - sync mod 8)).
Proof.
  intros Hw Hhb. cbv zeta. pose proof (Z.div_mod hb 16 ltac:(lia)) as E1.
  pose proof (Z.mod_pos_bound hb 16 ltac:(lia)) as B1. set (c := hb / 16) in *.
  replace (hb - hb mod 16) with (16 * c) by lia.
  replace (16 * c / 2) with (8 * c) by (replace (16 * c) with (8 * c * 2) by lia; by rewrite Z.div_mul).
  set (s := (w + 16 * c) * 8 / 100).
  pose proof (Z.div_mod s 8 ltac:(lia)) as E2. pose proof (Z.mod_pos_bound s 8 ltac:(lia)) as B2.
  assert (100 * s <= (w + 16 * c) * 8) as Hs by (apply Z.mul_div_le; lia).
  assert (0 <= s) by (apply Z.div_pos; [Z.div_mod_to_equations|]; lia).
  assert (w < 64 * c + 64 /\ 7 * (16 * c) <= w * 3 + 7 /\ 0 <= c) as (H1 & H2 & H3) by (Z.div_mod_to_equations; lia).
  replace (s - s mod 8) with (8 * (s / 8)) by lia.
  assert (0 <= s / 8) by (apply Z.div_pos; lia).
  repeat split; try lia.
Qed.

Lemma gen_mode_lines f w h :
  1 <= f <= 240 -> 8 <= w <= 32767 -> w mod 8 = 0 -> 1 <= h <= 32767 ->
  exists hp hs he ht vs ve vt,
    standard_timings (f32_of_int f) (f32_of_int 0) w h h (vsync_width w h) = Some (hp, (hs, he, ht), (vs, ve, vt)) /\
    w <= hs <= he /\ he <= ht <= 46811 /\ vs = h + 3 /\ vs + 4 <= ve <= vs + 10 /\ ve + 6 <= vt <= 38234 /\
    (w = 1360 -> w + 7 <= hs) /\
    exists n, f64_to_u64 (f64_div (f64_mul (f64_of_int ht) (f64_of_int 1000)) (f64_of_f32 hp)) = Some n /\
      0 <= n <= 500000000.
Proof.
  intros Hf Hw Hmod Hh. pose proof (vsync_width_range w h) as Hv.
  destruct (standard_timings_spec f w h (vsync_width w h) Hf Hw Hmod Hh Hv) as (n & hb & H).
  cbn zeta in H. destruct H as (E & Hn & Hhb).
  pose proof (horizontal_order w hb Hw Hhb) as (H1 & H2 & H3 & H4 & H5).
  pose proof (line_period_between f (h + 3) Hf ltac:(lia)) as (Hp & Hl & Hu).
  assert ((h + 3) / 6 <= 5461) by (apply Z.lt_succ_r, Z.div_lt_upper_bound; lia).
  set (hb' := hb - hb mod 16) in *. set (s := (w + hb') * 8 / 100) in *.
  do 7 eexists. split; [apply E|].
  destruct (clock_between (w + hb') _ (h + 3) ltac:(lia) ltac:(lia) Hp Hl Hu) as (k & Ek & Hk).
  assert ((w + hb') * (h + 3) * 1000 / 3300 <= 499999999) by (apply Z.lt_succ_r, Z.div_lt_upper_bound; nia).
  repeat split; try lia. exists k. split; [done|lia].
Qed.

Lemma gen_mode_spec width height framerate :
  8 <= width <= 32767 -> 1 <= height <= 32767 -> 1 <= framerate <= 240 ->
  exists m, libxcvt_gen_mode_info true width height (f32_of_int framerate) false false = Some (Some m) /\
    well_formed_mode m /\ hdisplay m = mode_width width height /\ vdisplay m = height /\
    0 <= dot_clock m <= 500000000.
Proof.
  intros Hw Hh Hf. pose proof (Z.mod_pos_bound width 8 ltac:(lia)) as Hmod.
  set (w := width - width mod 8).
  assert (8 <= w <= 32767 /\ w mod 8 = 0) as [Hw' Hw8].
  { unfold w. Z.div_mod_to_equations. lia. }
  destruct (gen_mode_lines framerate w height Hf Hw' Hw8 Hh)
    as (hp & hs & he & ht & vs & ve & vt & E & Hhs & Hht & Hvs & Hve & Hvt & H60 & n & En & Hn).
  unfold libxcvt_gen_mode_info. cbn [negb].
  assert (SFeqb (f32_of_int framerate) (f32_of_int 0) = false) as ->.
  { by destruct (f32_of_int_exact framerate ltac:(lia)) as (m & e & -> & _). }
  unfold CVT_H_GRANULARITY. rewrite (uwrap_small 32 width), (uwrap_small 32 height) by lia. fold w.
  rewrite !swrap_small, uwrap_small by lia. cbv zeta. rewrite E. cbn [mbind option_bind].
  rewrite En. cbn [mbind option_bind]. rewrite int_op_ok by nia. cbn [mbind option_bind].
  eexists. split; [done|]. unfold well_formed_mode, mode_width.
  cbn [hdisplay vdisplay hsync_start hsync_end htotal vsync_start vsync_end vtotal dot_clock]. fold w.
  assert (0 <= n - n mod 250 <= n) by (pose proof (Z.mod_le n 250); pose proof (Z.mod_pos_bound n 250); lia).
  split; [|split; [done|split; [done|unfold CVT_CLOCK_STEP; lia]]].
  destruct (Z.eqb_spec w 1360) as [Ew|]; cbn [andb]; [destruct (Z.eqb_spec height 768)|].
  1: rewrite (uwrap_small 16 (hs - 1)), (uwrap_small 16 (he - 1)) by lia.
  all: repeat split; try lia.
  all: unfold CVT_CLOCK_STEP; rewrite Zminus_mod_idemp_r, Z.sub_diag; done.
Qed.

(** What [lorieCvt] makes of a mode line. *)
Definition info_of (m : libxcvt_mode_info) : string * xRRModeInfo :=
  let name := (pretty (i32 (hdisplay m)) +:+ "x" +:+ pretty (i32 (vdisplay m)))%string in
  (name, {| mi_width := u16 (hdisplay m); mi_height := u16 (vdisplay m); mi_dotClock := dot_clock m * 1000;
     mi_hSyncStart := hsync_start m; mi_hSyncEnd := hsync_end m; mi_hTotal := htotal m; mi_hSkew := 0;
     mi_vSyncStart := vsync_start m; mi_vSyncEnd := vsync_end m; mi_vTotal := vtotal m;
     mi_nameLength := Z.of_nat (String.length name); mi_modeFlags := mode_flags m |}).

Lemma clock_in_hertz n : 0 <= n <= 500000000 ->
  f64_to_u32 (f64_mul (f64_of_int n) (f64_of_int 1000)) = if n * 1000 <? 2 ^ 32 then Some (n * 1000) else None.
Proof.
  intros Hn. destruct (decide (n = 0)) as [->|]; [by vm_compute|].
  destruct (f64_of_int_exact 1000 ltac:(lia)) as (m1 & e1 & E1 & _ & _ & V1). rewrite E1 in *.
  destruct (f64_of_int_exact n ltac:(lia)) as (m2 & e2 & E2 & H2 & _ & V2). rewrite E2 in *.
  destruct (trunc_between 53 1024 (n * 1000) (n * 1000) (f64_mul (S754_finite false m2 e2) (S754_finite false m1 e1)))
    as (z & Ez & Hz); [lia| |].
  - apply (rounded_weaken _ _ (dy (n * 1000) 0) (dy (n * 1000) 0)); [rewrite dy_0; apply Qle_refl..|].
    apply mul_between; [lia|lia|repeat split; try done; lia|].
    rewrite V1, V2, dy_0, inject_Z_mult. split; apply Qle_refl.
  - unfold f64_to_u32, to_int. rewrite Ez. cbn [mbind option_bind]. replace z with (n * 1000) by lia.
    rewrite (proj2 (Z.leb_le 0 _)) by lia. cbn [andb].
    destruct (Z.leb_spec (n * 1000) (2 ^ 32 - 1)), (Z.ltb_spec (n * 1000) (2 ^ 32)); [done|lia|lia|done].
Qed.

(** C25: For every window from 8 by 1 to 32767 by 32767 pixels and every frame rate from 1
    to 240, [lorieCvt] describes a mode whose display, sync and back porch follow one
    another in both directions, whose fields fit their 16 bits, and whose clock is a
    multiple of 250 kHz; the mode is as high as the window, and as wide up to the last
    multiple of 8. Only the conversion of the clock to Hertz can be undefined, from 2^32
    on. *)
Theorem lorieCvt_well_formed width height framerate :
  8 <= width <= 32767 -> 1 <= height <= 32767 -> 1 <= framerate <= 240 ->
  exists m, well_formed_mode m /\ hdisplay m = mode_width width height /\ vdisplay m = height /\
    lorieCvt_info true width height framerate = if dot_clock m * 1000 <? 2 ^ 32 then Some (info_of m) else None.
Proof.
  intros Hw Hh Hf. destruct (gen_mode_spec width height framerate Hw Hh Hf) as (m & E & Hm & Ew & Eh & Hc).
  exists m. repeat (split; [done|]). unfold lorieCvt_info. rewrite E. cbn [mbind option_bind].
  rewrite clock_in_hertz by done. by destruct (dot_clock m * 1000 <? 2 ^ 32).
Qed.

(** ** On concrete windows *)

Lemma lorieCvt_well_formed_witness : exists m, well_formed_mode m /\ hdisplay m = 1080 /\
  lorieCvt_info true 1080 2400 120 = if dot_clock m * 1000 <? 2 ^ 32 then Some (info_of m) else None.
Proof.
  destruct (lorieCvt_well_formed 1080 2400 120 ltac:(lia) ltac:(lia) ltac:(lia)) as (m & Hm & Ew & _ & E).
  exists m. split; [exact Hm|split; [exact Ew|exact E]].
Defined.

(** The mode lines that the tools of X.Org print for a full HD screen: 173.00 MHz, and
    138.50 MHz with reduced blanking. *)
Definition mode_line (reduced : bool) (width height framerate : Z) :=
  m ← libxcvt_gen_mode_info true width height (f32_of_int framerate) reduced false;
  m ← m;
  Some (dot_clock m, (hdisplay m, hsync_start m, hsync_end m, htotal m), (vdisplay m, vsync_start m, vsync_end m, vtotal m)).

Example full_hd : mode_line false 1920 1080 60 =
  Some (173000, (1920, 2048, 2248, 2576), (1080, 1083, 1088, 1120)).
Proof. vm_compute. reflexivity. Qed.

Example full_hd_reduced : mode_line true 1920 1080 60 =
  Some (138500, (1920, 1968, 2000, 2080), (1080, 1083, 1088, 1111)).
Proof. vm_compute. reflexivity. Qed.

(** A window that is less than 8 pixels wide gets a mode without pixels, a frame rate
    beyond 1818 leaves no time for lines, and the clock of an 8K screen at 120 frames does
    not fit the 32 bits that [lorieCvt] converts it to. *)
Example narrow_window : mode_line false 7 1080 60 = Some (0, (0, 0, 0, 0), (1080, 1083, 1093, 1120)).
Proof. vm_compute. reflexivity. Qed.

Example too_fast : mode_line false 1920 1080 2000 = None.
Proof. vm_compute. reflexivity. Qed.

Example clock_overflows : (fst <$> mode_line false 7680 4320 120) <> None /\ lorieCvt_info true 7680 4320 120 = None.
Proof. split; vm_compute; congruence. Qed.
