(* ===== verification/Randr.v ===== *)
(** * Modes, outputs and the size of the screen ([xserver/randr], [lorie/InitOutput.c])

    Modes are shared: the resource table, the outputs and the crtcs point to them, and
    so does a function that has just been given one. A mode counts its references and is
    freed with the last one. When the window on the Android side changes,
    [lorieConfigureNotify] makes a mode for it, gives it to the only output and the only
    crtc, and resizes the screen; clients make, list and delete modes of their own. *)

From Stdlib Require Import SpecFloat QArith Lqa.
From S2P Require Import Prelude Floats Modes.

(** ** Data *)

(** [RRModeRec], [RROutputRec] and [RRCrtcRec]; [userScreen] is whether the field is set.
    Transforms are never set on this driver's crtc. *)
Record RRModeRec := { refcnt : Z; rm_mode : xRRModeInfo; rm_id : Z; rm_name : string; userScreen : bool }.

Record RROutputRec := {
  o_name : list Z; o_crtc : option Z; o_numPreferred : Z; o_modes : list Z; o_userModes : list Z; o_changed : bool;
}.

Record RRCrtcRec := {
  c_mode : option Z; c_x : Z; c_y : Z; c_rotation : Z; c_outputs : list Z; c_changed : bool;
}.

(** The allocated modes by address, the array [modes], the resources of type [RRModeType]
    by identifier, and [rrScrPriv] with its arrays of outputs and crtcs. *)
Record RandR := {
  heap : gmap Z RRModeRec; modes : list Z; resources : gmap Z Z;
  outputs : gmap Z RROutputRec; output_array : list Z;
  crtcs : gmap Z RRCrtcRec; crtc_array : list Z; primaryOutput : option Z;
  changed : bool; configChanged : bool; layoutChanged : bool;
}.

Definition set_heap h s := {| heap := h; modes := modes s; resources := resources s; outputs := outputs s;
  output_array := output_array s; crtcs := crtcs s; crtc_array := crtc_array s; primaryOutput := primaryOutput s;
  changed := changed s; configChanged := configChanged s; layoutChanged := layoutChanged s |}.
Definition set_modes l s := {| heap := heap s; modes := l; resources := resources s; outputs := outputs s;
  output_array := output_array s; crtcs := crtcs s; crtc_array := crtc_array s; primaryOutput := primaryOutput s;
  changed := changed s; configChanged := configChanged s; layoutChanged := layoutChanged s |}.
Definition set_resources m s := {| heap := heap s; modes := modes s; resources := m; outputs := outputs s;
  output_array := output_array s; crtcs := crtcs s; crtc_array := crtc_array s; primaryOutput := primaryOutput s;
  changed := changed s; configChanged := configChanged s; layoutChanged := layoutChanged s |}.
Definition set_outputs m s := {| heap := heap s; modes := modes s; resources := resources s; outputs := m;
  output_array := output_array s; crtcs := crtcs s; crtc_array := crtc_array s; primaryOutput := primaryOutput s;
  changed := changed s; configChanged := configChanged s; layoutChanged := layoutChanged s |}.
Definition set_crtcs m s := {| heap := heap s; modes := modes s; resources := resources s; outputs := outputs s;
  output_array := output_array s; crtcs := m; crtc_array := crtc_array s; primaryOutput := primaryOutput s;
  changed := changed s; configChanged := configChanged s; layoutChanged := layoutChanged s |}.
Definition set_flags c cc lc s := {| heap := heap s; modes := modes s; resources := resources s; outputs := outputs s;
  output_array := output_array s; crtcs := crtcs s; crtc_array := crtc_array s; primaryOutput := primaryOutput s;
  changed := c; configChanged := cc; layoutChanged := lc |}.

Definition with_refcnt (n : Z) (r : RRModeRec) : RRModeRec :=
  {| refcnt := n; rm_mode := rm_mode r; rm_id := rm_id r; rm_name := rm_name r; userScreen := userScreen r |}.
Definition put_mode (m : Z) (r : RRModeRec) (s : RandR) : RandR := set_heap (<[m := r]> (heap s)) s.
Definition put_output (o : Z) (r : RROutputRec) (s : RandR) : RandR := set_outputs (<[o := r]> (outputs s)) s.
Definition put_crtc (c : Z) (r : RRCrtcRec) (s : RandR) : RandR := set_crtcs (<[c := r]> (crtcs s)) s.

Definition with_modes l n u (r : RROutputRec) : RROutputRec :=
  {| o_name := o_name r; o_crtc := o_crtc r; o_numPreferred := n; o_modes := l; o_userModes := u; o_changed := o_changed r |}.
Definition with_crtc c (r : RROutputRec) : RROutputRec :=
  {| o_name := o_name r; o_crtc := c; o_numPreferred := o_numPreferred r; o_modes := o_modes r;
     o_userModes := o_userModes r; o_changed := o_changed r |}.
Definition with_name l (r : RROutputRec) : RROutputRec :=
  {| o_name := l; o_crtc := o_crtc r; o_numPreferred := o_numPreferred r; o_modes := o_modes r;
     o_userModes := o_userModes r; o_changed := o_changed r |}.
Definition mark_output (r : RROutputRec) : RROutputRec :=
  {| o_name := o_name r; o_crtc := o_crtc r; o_numPreferred := o_numPreferred r; o_modes := o_modes r;
     o_userModes := o_userModes r; o_changed := true |}.
Definition with_place m x y rot outs (r : RRCrtcRec) : RRCrtcRec :=
  {| c_mode := m; c_x := x; c_y := y; c_rotation := rot; c_outputs := outs; c_changed := c_changed r |}.
Definition mark_crtc (r : RRCrtcRec) : RRCrtcRec :=
  {| c_mode := c_mode r; c_x := c_x r; c_y := c_y r; c_rotation := c_rotation r; c_outputs := c_outputs r; c_changed := true |}.

(** ** Changes *)

Definition RRSetChanged (s : RandR) : RandR := set_flags true (configChanged s) (layoutChanged s) s.

Definition RROutputChanged (o : Z) (config : bool) (s : RandR) : option RandR :=
  r ← outputs s !! o;
  let s := RRSetChanged (put_output o (mark_output r) s) in
  Some (if config then set_flags (changed s) true (layoutChanged s) s else s).

Definition RRCrtcChanged (c : Z) (layout : bool) (s : RandR) : option RandR :=
  r ← crtcs s !! c;
  let s := RRSetChanged (put_crtc c (mark_crtc r) s) in
  Some (if layout then set_flags (changed s) (configChanged s) true s else s).

(** ** Modes *)

(** [RRModeEqual], which leaves out the identifier. *)
Definition RRModeEqual (a b : xRRModeInfo) : bool := bool_decide (a = b).

(** The first mode of the array for which a test holds; [None] when the array holds a
    pointer to memory that was freed. *)
Fixpoint find_mode (test : RRModeRec -> bool) (l : list Z) (h : gmap Z RRModeRec) : option (option Z) :=
  match l with
  | [] => Some None
  | m :: l => r ← h !! m; if test r then Some (Some m) else find_mode test l h
  end.

(** The first [n] characters of both names are the same ([memcmp]). *)
Definition same_name (n : Z) (a b : string) : bool :=
  bool_decide (String.substring 0 (Z.to_nat n) a = String.substring 0 (Z.to_nat n) b).

Definition RRModeFindByName (name : string) (nameLength : Z) (s : RandR) : option (option Z) :=
  find_mode (fun r => (mi_nameLength (rm_mode r) =? nameLength) && same_name nameLength name (rm_name r)) (modes s) (heap s).

(** The first occurrence leaves the array ([memmove]). *)
Fixpoint remove_first (m : Z) (l : list Z) : list Z :=
  match l with [] => [] | x :: l => if x =? m then l else x :: remove_first m l end.

Definition RRModeDestroy (m : Z) (s : RandR) : option RandR :=
  r ← heap s !! m;
  let n := refcnt r - 1 in
  if 0 <? n then Some (put_mode m (with_refcnt n r) s)
  else Some (set_modes (remove_first m (modes s)) (set_heap (delete m (heap s)) s)).

(** The answers of the allocations: the address of the mode (0 for NULL), whether the
    array grows, whether [AddResource] has memory, and the new identifier. *)
Record ModeEnv := { me_init : bool; me_mode : Z; me_array : bool; me_resource : bool; me_id : Z }.

(** When [AddResource] fails it drops the mode's only reference, for which [RRModeDestroy]
    looks through the array: but the array was handed to [reallocarray] before, so that
    this is an access to freed memory unless the array was empty. *)
Definition RRModeCreate (e : ModeEnv) (info : xRRModeInfo) (name : string) (user : bool) (s : RandR)
    : option (option Z * RandR) :=
  if negb (me_init e) || (me_mode e =? 0) || negb (me_array e) then Some (None, s)
  else if negb (me_resource e) then match modes s with [] => Some (None, s) | _ => None end
  else
    let r := {| refcnt := 2; rm_mode := info; rm_id := me_id e;
                rm_name := String.substring 0 (Z.to_nat (mi_nameLength info)) name; userScreen := user |} in
    Some (Some (me_mode e), set_resources (<[me_id e := me_mode e]> (resources s))
            (set_modes (modes s ++ [me_mode e]) (put_mode (me_mode e) r s))).

Definition RRModeGet (e : ModeEnv) (info : xRRModeInfo) (name : string) (s : RandR) : option (option Z * RandR) :=
  found ← find_mode (fun r => RRModeEqual (rm_mode r) info && same_name (mi_nameLength info) name (rm_name r))
            (modes s) (heap s);
  match found with
  | Some m => r ← heap s !! m; Some (Some m, put_mode m (with_refcnt (refcnt r + 1) r) s)
  | None => RRModeCreate e info name false s
  end.

Inductive request_result := Success | BadValue | BadName | BadAlloc | BadAccess | BadMatch | BadRRMode | BadRROutput.

Definition RRModeCreateUser (e : ModeEnv) (info : xRRModeInfo) (name : string) (s : RandR)
    : option (request_result * option Z * RandR) :=
  found ← RRModeFindByName name (mi_nameLength info) s;
  match found with
  | Some _ => Some (BadName, None, s)
  | None =>
      r ← RRModeCreate e info name true s;
      let '(m, s) := r in
      Some (if m is Some _ then Success else BadAlloc, m, s)
  end.

(** [FreeResource] for a mode. *)
Definition free_mode_resource (id : Z) (s : RandR) : option RandR :=
  match resources s !! id with
  | Some m => RRModeDestroy m (set_resources (delete id (resources s)) s)
  | None => Some s
  end.

(** ** Outputs *)

Fixpoint destroy_modes (l : list Z) (s : RandR) : option RandR :=
  match l with [] => Some s | m :: l => s ← RRModeDestroy m s; destroy_modes l s end.

Definition RROutputSetModes (alloc_ok : bool) (o : Z) (l : list Z) (numPreferred : Z) (s : RandR) : option (bool * RandR) :=
  r ← outputs s !! o;
  if bool_decide (o_modes r = l) && (o_numPreferred r =? numPreferred) then
    s ← destroy_modes l s; Some (true, s)
  else if negb (Z.of_nat (length l) =? 0) && negb alloc_ok then Some (false, s)
  else
    s ← destroy_modes (o_modes r) s;
    r ← outputs s !! o;
    s ← RROutputChanged o true (put_output o (with_modes l numPreferred (o_userModes r) r) s);
    Some (true, s).

(** The server's driver has no [rrOutputValidateMode]; the flags that [RRTellChanged]
    resets are about events for clients. *)
Definition RROutputAddUserMode (alloc_ok : bool) (o m : Z) (s : RandR) : option (request_result * RandR) :=
  r ← outputs s !! o;
  if bool_decide (m ∈ (o_modes r ++ o_userModes r)) then Some (Success, s)
  else if negb alloc_ok then Some (BadAlloc, s)
  else
    rm ← heap s !! m;
    let s := put_output o (with_modes (o_modes r) (o_numPreferred r) (o_userModes r ++ [m]) r)
               (put_mode m (with_refcnt (refcnt rm + 1) rm) s) in
    s ← RROutputChanged o true s; Some (Success, s).

Definition RROutputDeleteUserMode (o m : Z) (s : RandR) : option (request_result * RandR) :=
  r ← outputs s !! o;
  if negb (bool_decide (m ∈ o_userModes r)) then Some (BadAccess, s)
  else
    '(active : bool) ← match o_crtc r with
             | Some c => rc ← crtcs s !! c; Some (bool_decide (c_mode rc = Some m))
             | None => Some false
             end;
    if active then Some (BadMatch, s)
    else
      s ← RRModeDestroy m (put_output o (with_modes (o_modes r) (o_numPreferred r) (remove_first m (o_userModes r)) r) s);
      Some (Success, s).

(** ** Crtcs *)

(** The new outputs that the crtc did not have, and the old ones that it loses. *)
Fixpoint attach_outputs (c : Z) (outs : list Z) (s : RandR) : option RandR :=
  match outs with
  | [] => Some s
  | o :: outs =>
      rc ← crtcs s !! c;
      if bool_decide (o ∈ c_outputs rc) then attach_outputs c outs s
      else
        r ← outputs s !! o;
        s ← RROutputChanged o false (put_output o (with_crtc (Some c) r) s);
        s ← RRCrtcChanged c false s;
        attach_outputs c outs s
  end.

Fixpoint detach_outputs (c : Z) (outs old : list Z) (s : RandR) : option RandR :=
  match old with
  | [] => Some s
  | o :: old =>
      if bool_decide (o ∈ outs) then detach_outputs c outs old s
      else
        r ← outputs s !! o;
        let s := if bool_decide (o_crtc r = Some c) then put_output o (with_crtc None r) s else s in
        s ← RROutputChanged o false s;
        s ← RRCrtcChanged c false s;
        detach_outputs c outs old s
  end.

(** The mode of the crtc is replaced: its reference goes to the new mode. *)
Definition move_mode (c : Z) (mode : option Z) (s : RandR) : option RandR :=
  rc ← crtcs s !! c;
  if bool_decide (mode = c_mode rc) then Some s
  else
    s ← match c_mode rc with Some old => RRModeDestroy old s | None => Some s end;
    let s := put_crtc c (with_place mode (c_x rc) (c_y rc) (c_rotation rc) (c_outputs rc) rc) s in
    s ← match mode with
        | Some m => r ← heap s !! m; Some (put_mode m (with_refcnt (refcnt r + 1) r) s)
        | None => Some s
        end;
    RRCrtcChanged c true s.

(** A field of the crtc that differs is stored and marks the crtc. *)
Definition place_crtc (c x y rotation : Z) (s : RandR) : option RandR :=
  rc ← crtcs s !! c;
  s ← (if x =? c_x rc then Some s
       else RRCrtcChanged c true (put_crtc c (with_place (c_mode rc) x (c_y rc) (c_rotation rc) (c_outputs rc) rc) s));
  rc ← crtcs s !! c;
  s ← (if y =? c_y rc then Some s
       else RRCrtcChanged c true (put_crtc c (with_place (c_mode rc) (c_x rc) y (c_rotation rc) (c_outputs rc) rc) s));
  rc ← crtcs s !! c;
  if rotation =? c_rotation rc then Some s
  else RRCrtcChanged c true (put_crtc c (with_place (c_mode rc) (c_x rc) (c_y rc) rotation (c_outputs rc) rc) s).

(** Without a transform, like all calls of this driver. *)
Definition RRCrtcNotify (alloc_ok : bool) (c : Z) (mode : option Z) (x y rotation : Z) (outs : list Z) (s : RandR)
    : option (bool * RandR) :=
  rc ← crtcs s !! c;
  s ← attach_outputs c outs s;
  s ← detach_outputs c outs (c_outputs rc) s;
  let n := Z.of_nat (length outs) in
  if negb (n =? Z.of_nat (length (c_outputs rc))) && negb (n =? 0) && negb alloc_ok then Some (false, s)
  else
    rc ← crtcs s !! c;
    let s := put_crtc c (with_place (c_mode rc) (c_x rc) (c_y rc) (c_rotation rc) outs rc) s in
    s ← move_mode c mode s;
    s ← place_crtc c x y rotation s;
    Some (true, s).

(** The handler of [RRSetCrtcConfig]. *)
Definition lorieRRCrtcSet (alloc_ok : bool) (crtc mode : option Z) (x y rotation : Z) (outs : list Z) (s : RandR)
    : option (bool * RandR) :=
  match crtc, mode with
  | Some c, Some _ => RRCrtcNotify alloc_ok c mode x y rotation outs s
  | _, _ => Some (false, s)
  end.

(** The first output of the array with the crtc, over the crtcs in their order. *)
Fixpoint output_of (c : Z) (l : list Z) (s : RandR) : option (option Z) :=
  match l with
  | [] => Some None
  | o :: l => r ← outputs s !! o; if bool_decide (o_crtc r = Some c) then Some (Some o) else output_of c l s
  end.

Definition active_primary (s : RandR) : option (option (Z * Z)) :=
  match primaryOutput s with
  | Some o => r ← outputs s !! o; Some (pair o <$> o_crtc r)
  | None => Some None
  end.

Fixpoint first_output (cs : list Z) (s : RandR) : option (option Z) :=
  match cs with
  | [] => Some None
  | c :: cs => '(found : option Z) ← output_of c (output_array s) s;
               if found is Some o then Some (Some o) else first_output cs s
  end.

Definition RRFirstOutput (s : RandR) : option (option Z) :=
  '(p : option (Z * Z)) ← active_primary s;
  match p with Some (o, _) => Some (Some o) | None => first_output (crtc_array s) s end.

Fixpoint first_enabled (cs : list Z) (s : RandR) : option (option Z) :=
  match cs with
  | [] => Some None
  | c :: cs =>
      '(found : option Z) ← output_of c (output_array s) s;
      rc ← crtcs s !! c;
      if found is Some _ then if c_mode rc is Some _ then Some (Some c) else first_enabled cs s
      else first_enabled cs s
  end.

Definition RRFirstEnabledCrtc (s : RandR) : option (option Z) :=
  '(p : option (Z * Z)) ← active_primary s;
  match p with Some (_, c) => Some (Some c) | None => first_enabled (crtc_array s) s end.

(** ** Requests of clients *)

(** Outputs are not leased. *)
Definition ProcRRCreateMode (e : ModeEnv) (info : xRRModeInfo) (name : string) (s : RandR)
    : option (request_result * RandR) :=
  r ← RRModeCreateUser e info name s;
  let '(res, m, s) := r in
  match m with
  | Some m => s ← RRModeDestroy m s; Some (Success, s)
  | None => Some (res, s)
  end.

Definition ProcRRDestroyMode (id : Z) (s : RandR) : option (request_result * RandR) :=
  match resources s !! id with
  | None => Some (BadRRMode, s)
  | Some m =>
      r ← heap s !! m;
      if negb (userScreen r) then Some (BadMatch, s)
      else if 1 <? refcnt r then Some (BadAccess, s)
      else s ← free_mode_resource id s; Some (Success, s)
  end.

Definition ProcRRAddOutputMode (alloc_ok : bool) (o id : Z) (s : RandR) : option (request_result * RandR) :=
  match outputs s !! o, resources s !! id with
  | None, _ => Some (BadRROutput, s)
  | _, None => Some (BadRRMode, s)
  | Some _, Some m => RROutputAddUserMode alloc_ok o m s
  end.

Definition ProcRRDeleteOutputMode (o id : Z) (s : RandR) : option (request_result * RandR) :=
  match outputs s !! o, resources s !! id with
  | None, _ => Some (BadRROutput, s)
  | _, None => Some (BadRRMode, s)
  | Some _, Some m => RROutputDeleteUserMode o m s
  end.

(** Whether a screen of this size shows all of the modes of the crtcs; 2 and 8 are the
    rotations by 90 and 270 degrees. *)
Fixpoint modes_fit (cs : list Z) (width height : Z) (s : RandR) : option bool :=
  match cs with
  | [] => Some true
  | c :: cs =>
      rc ← crtcs s !! c;
      '(fits : bool) ← match c_mode rc with
              | Some m =>
                  r ← heap s !! m;
                  let '(w, h) := (mi_width (rm_mode r), mi_height (rm_mode r)) in
                  let '(w, h) := if negb (Z.land (c_rotation rc) 10 =? 0) then (h, w) else (w, h) in
                  Some ((c_x rc + w <=? width) && (c_y rc + h <=? height))
              | None => Some true
              end;
      if fits then modes_fit cs width height s else Some false
  end.

(** The mode part of the handlers that free an output and a crtc. *)
Definition RROutputDestroyResource (o : Z) (s : RandR) : option RandR :=
  r ← outputs s !! o;
  s ← destroy_modes (o_modes r) (set_outputs (delete o (outputs s)) s);
  destroy_modes (o_userModes r) s.

Definition RRCrtcDestroyResource (c : Z) (s : RandR) : option RandR :=
  r ← crtcs s !! c;
  let s := set_crtcs (delete c (crtcs s)) s in
  match c_mode r with Some m => RRModeDestroy m s | None => Some s end.

(** ** The window changes *)

(** The mode for a window, from the table or new; NULL when there is no memory for it. *)
Definition lorieCvt (cvt_memory : bool) (e : ModeEnv) (width height rate : Z) (s : RandR) : option (option Z * RandR) :=
  cvt ← lorieCvt_info cvt_memory width height rate;
  let '(name, info) := cvt in RRModeGet e info name s.

(** What the RandR extension asks of the screen: its size, and the hook [rrScreenSetSize]
    that resizes it to a width and height in pixels and millimetres. *)
Class ScreenHooks (S : Type) := {
  screen_size : S -> Z * Z;
  rrScreenSetSize : Z -> Z -> Z -> Z -> S -> option S;
}.

(** What the screen promises: it stays usable, and has the size that was asked for, up to
    the largest size that [lorieRandRInit] allows. *)
Class ScreenLaws (S : Type) `{ScreenHooks S} := {
  screen_ok : S -> Prop;
  rrScreenSetSize_ok w h mw mh s : screen_ok s -> 1 <= w <= 32767 -> 1 <= h <= 32767 ->
    exists s', rrScreenSetSize w h mw mh s = Some s' /\ screen_ok s' /\ screen_size s' = (w, h);
}.

(** The fields [root.framerate], [root.name] and [vblank_interval] of [pvfb]. *)
Record Pvfb := { framerate : Z; root_name : list Z; vblank_interval : Z }.

(** [strncpy] into a field that was cleared: what is before the NUL, up to [n] bytes. *)
Fixpoint strncpy (n : nat) (l : list Z) : list Z :=
  match n, l with
  | S n, c :: l => if c =? 0 then [] else c :: strncpy n l
  | _, _ => []
  end.

(** Millimetres of [n] pixels at [dpi] dots per inch. *)
Definition in_millimetres (n dpi : Z) : double :=
  f64_div (f64_mul (f64_of_int n) (tenths 254)) (f64_of_int dpi).

Definition millimetres (n dpi : Z) : option Z := f64_to_u32 (in_millimetres n dpi).

(** The new name is kept for a reset of the server, and given to the output, where it ends
    with a NUL. *)
Definition store_name (o : Z) (name : option (list Z)) (s : RandR) (pv : Pvfb) : option (RandR * Pvfb) :=
  match name with
  | Some l =>
      r ← outputs s !! o;
      let n := Nat.min (length l) 1024 in
      Some (put_output o (with_name (take 1023 (strncpy n l)) r) s,
            {| framerate := framerate pv; root_name := strncpy n l; vblank_interval := vblank_interval pv |})
  | None => Some (s, pv)
  end.

(** Whether there is anything to do. *)
Definition window_changed {S} `{ScreenHooks S} (width height rate : Z) (pv : Pvfb) (scr : S) : bool :=
  negb (width =? 0) && negb (height =? 0) &&
  (negb ((screen_size scr).1 =? width) || negb ((screen_size scr).2 =? height) || negb (framerate pv =? rate)).

(** [cvt_memory] and [e] are the answers to the allocations of the mode, [modes_ok] and
    [crtc_ok] to the arrays of the output and the crtc; [dpi] is [monitorResolution]. *)
Definition lorieConfigureNotify {S} `{ScreenHooks S} (cvt_memory modes_ok crtc_ok : bool) (e : ModeEnv) (dpi width height rate : Z)
    (name : option (list Z)) (st : RandR * Pvfb * S) : option (RandR * Pvfb * S) :=
  let '(s, pv, scr) := st in
  '(output : option Z) ← RRFirstOutput s;
  let rate := if rate =? 0 then 30 else rate in
  match output with
  | None => Some st
  | Some o =>
      named ← store_name o name s pv;
      let '(s, pv) := named in
      if window_changed width height rate pv scr then
        got ← lorieCvt cvt_memory e width height rate s;
        let '(mode, s) := got in
        m ← mode;
        r ← heap s !! m;
        mm ← millimetres (mi_width (rm_mode r)) dpi;
        res ← RROutputSetModes modes_ok o [m] 0 s;
        '(crtc : option Z) ← RRFirstEnabledCrtc (snd res);
        c ← crtc;
        res ← RRCrtcNotify crtc_ok c (Some m) 0 0 1 [o] (snd res);
        let s := snd res in
        r ← heap s !! m;
        scr ← rrScreenSetSize (mi_width (rm_mode r)) (mi_height (rm_mode r)) mm mm scr;
        Some (s, {| framerate := rate; root_name := root_name pv; vblank_interval := Z.quot 1000000 rate |}, scr)
      else Some (s, pv, scr)
  end.

(** The largest size is the one that [lorieRandRInit] allows, the smallest 1 by 1. *)
Definition ProcRRSetScreenSize {S} `{ScreenHooks S} (width height mmWidth mmHeight : Z) (st : RandR * Pvfb * S)
    : option (request_result * (RandR * Pvfb * S)) :=
  let '(s, pv, scr) := st in
  if (width <? 1) || (32767 <? width) || (height <? 1) || (32767 <? height) then Some (BadValue, st)
  else
    '(fit : bool) ← modes_fit (crtc_array s) width height s;
    if negb fit then Some (BadMatch, st)
    else if (mmWidth =? 0) || (mmHeight =? 0) then Some (BadValue, st)
    else scr ← rrScreenSetSize width height mmWidth mmHeight scr; Some (Success, (s, pv, scr)).

(** ** The start *)

Definition RRCrtcCreate (c : Z) (s : RandR) : RandR :=
  {| heap := heap s; modes := modes s; resources := resources s; outputs := outputs s; output_array := output_array s;
     crtcs := <[c := {| c_mode := None; c_x := 0; c_y := 0; c_rotation := 1; c_outputs := []; c_changed := false |}]> (crtcs s);
     crtc_array := crtc_array s ++ [c]; primaryOutput := primaryOutput s;
     changed := changed s; configChanged := configChanged s; layoutChanged := layoutChanged s |}.

Definition RROutputCreate (o : Z) (name : list Z) (s : RandR) : RandR :=
  {| heap := heap s; modes := modes s; resources := resources s;
     outputs := <[o := {| o_name := name; o_crtc := None; o_numPreferred := 0; o_modes := []; o_userModes := []; o_changed := false |}]> (outputs s);
     output_array := output_array s ++ [o]; crtcs := crtcs s; crtc_array := crtc_array s; primaryOutput := primaryOutput s;
     changed := changed s; configChanged := configChanged s; layoutChanged := layoutChanged s |}.

(** The crtc [c] and the output [o] are made, with memory for both. *)
Definition lorieRandRInit (e : ModeEnv) (c o width height rate : Z) (name : list Z) (s : RandR) : option (bool * RandR) :=
  got ← lorieCvt true e width height rate s;
  let '(mode, s) := got in
  match mode with
  | None => Some (false, s)
  | Some m =>
      let s := RROutputCreate o (strncpy 1024 name) (RRCrtcCreate c s) in
      res ← RROutputSetModes true o [m] 0 s;
      s ← RROutputChanged o true (snd res);    (* [RROutputSetCrtcs] *)
      s ← RROutputChanged o true s;            (* [RROutputSetConnection] *)
      RRCrtcNotify true c (Some m) 0 0 1 [o] s
  end.

(** ** Counting references *)

(** How often [m] is in a list of references. *)
Definition refs (m : Z) (l : list Z) : Z := Z.of_nat (length (filter (fun x => x = m) l)).

(** [l] are all references to modes: they are what the modes count, every one leads to a
    mode, and the array holds the modes, each once. *)
Record counts (l : list Z) (h : gmap Z RRModeRec) (ms : list Z) : Prop := {
  ct_count : forall m r, h !! m = Some r -> refcnt r = refs m l;
  ct_live : forall m, m ∈ l <-> is_Some (h !! m);
  ct_nodup : NoDup ms;
  ct_array : forall m, m ∈ ms <-> is_Some (h !! m);
}.

Definition holders (s : RandR) : list Z :=
  collect (fun r => o_modes r ++ o_userModes r) (outputs s) ++
  collect (fun r => option_list (c_mode r)) (crtcs s) ++ collect (fun m => [m]) (resources s).

(** [held] are the references of the functions that run. *)
Definition accounts (held : list Z) (s : RandR) : Prop := counts (held ++ holders s) (heap s) (modes s).

(** Outputs and crtcs lead to one another, and every crtc shows a mode. *)
Record structure_ok (s : RandR) : Prop := {
  so_outputs : forall o, o ∈ output_array s -> is_Some (outputs s !! o);
  so_crtcs : forall c, c ∈ crtc_array s -> is_Some (crtcs s !! c);
  so_crtc : forall o r c, outputs s !! o = Some r -> o_crtc r = Some c -> is_Some (crtcs s !! c);
  so_outs : forall c r o, crtcs s !! c = Some r -> o ∈ c_outputs r -> is_Some (outputs s !! o);
  so_primary : forall o, primaryOutput s = Some o -> is_Some (outputs s !! o);
  so_on : forall c r, crtcs s !! c = Some r -> is_Some (c_mode r);
}.

#[export] Instance refs_perm m : Proper ((≡ₚ) ==> eq) (refs m).
Proof. intros l l' H. unfold refs. by rewrite H. Qed.

#[export] Instance counts_perm : Proper ((≡ₚ) ==> eq ==> eq ==> iff) counts.
Proof.
  assert (forall l l' h ms, l ≡ₚ l' -> counts l h ms -> counts l' h ms) as H.
  { intros l l' h ms Hp [H1 H2 H3 H4]. split; [|intros m; by rewrite <- Hp|done..].
    intros m r Hm. rewrite <- Hp. auto. }
  intros l l' Hp h _ <- ms _ <-. split; apply H; by rewrite Hp.
Qed.

Lemma refs_cons m x l : refs m (x :: l) = refs m l + (if decide (x = m) then 1 else 0).
Proof.
  unfold refs. rewrite filter_cons. destruct (decide (x = m)); cbn [length]; lia.
Qed.

Lemma refs_pos m l : 0 < refs m l <-> m ∈ l.
Proof.
  induction l as [|x l IH]; [split; [intros H; exfalso; by apply Z.lt_irrefl in H|by intros H%elem_of_nil]|].
  rewrite refs_cons, elem_of_cons, <- IH. unfold refs.
  destruct (decide (x = m)) as [->|]; [split; [by left|lia]|].
  split; [right; lia|intros [->|]; [done|lia]].
Qed.

Lemma elem_of_remove_first m x l : NoDup l -> x ∈ remove_first m l <-> x ∈ l /\ x <> m.
Proof.
  induction l as [|y l IH]; intros Hn; cbn [remove_first]; [by rewrite elem_of_nil; intuition|].
  apply NoDup_cons in Hn as [Hy Hn]. destruct (Z.eqb_spec y m) as [->|].
  - rewrite elem_of_cons. split; [intros Hx; split; [by right|by intros ->]|by intros [[->|] ?]].
  - rewrite !elem_of_cons, IH by done. intuition congruence.
Qed.

Lemma NoDup_remove_first m l : NoDup l -> NoDup (remove_first m l).
Proof.
  induction l as [|y l IH]; intros Hn; cbn [remove_first]; [done|].
  pose proof Hn as Hn'. apply NoDup_cons in Hn as [Hy Hn]. destruct (y =? m); [done|].
  apply NoDup_cons. split; [by rewrite elem_of_remove_first by done; intros []|auto].
Qed.

Lemma remove_first_perm m l : m ∈ l -> l ≡ₚ m :: remove_first m l.
Proof.
  induction l as [|y l IH]; intros H; [by apply elem_of_nil in H|]. cbn [remove_first].
  destruct (Z.eqb_spec y m) as [->|]; [done|].
  apply elem_of_cons in H as [->|H]; [done|]. rewrite (IH H) at 1. apply Permutation_swap.
Qed.

(** A reference is dropped. *)
Lemma counts_destroy m l s : counts (m :: l) (heap s) (modes s) -> exists s', RRModeDestroy m s = Some s' /\
  counts l (heap s') (modes s') /\ s' = set_modes (modes s') (set_heap (heap s') s).
Proof.
  intros [H1 H2 H3 H4]. destruct (proj1 (H2 m) ltac:(by left)) as [r Er].
  pose proof (H1 _ _ Er) as Hr. rewrite refs_cons, decide_True in Hr by done.
  unfold RRModeDestroy. rewrite Er. cbn [mbind option_bind].
  replace (refcnt r - 1) with (refs m l) by lia.
  destruct (Z.ltb_spec 0 (refs m l)) as [Hp|Hp].
  - eexists; split; [done|]. split; [|by destruct s]. cbn [heap modes put_mode set_heap]. split; [| |done|].
    + intros m' r' Hm. destruct (decide (m' = m)) as [->|Hne].
      * rewrite lookup_insert_eq in Hm. by injection Hm as <-.
      * rewrite lookup_insert_ne in Hm by done. rewrite (H1 _ _ Hm), refs_cons, decide_False by done. lia.
    + intros m'. destruct (decide (m' = m)) as [->|Hne].
      * rewrite lookup_insert_eq. apply refs_pos in Hp. by split.
      * rewrite lookup_insert_ne, <- H2, elem_of_cons by done. intuition congruence.
    + intros m'. rewrite H4. destruct (decide (m' = m)) as [->|Hne].
      * rewrite lookup_insert_eq, Er. by split.
      * by rewrite lookup_insert_ne by done.
  - assert (m ∉ l) as Hm by (rewrite <- refs_pos; lia).
    eexists; split; [done|]. split; [|by destruct s]. cbn [heap modes set_modes set_heap].
    split; [| |by apply NoDup_remove_first|].
    + intros m' r' Hr'. apply lookup_delete_Some in Hr' as [Hne Hr'].
      rewrite (H1 _ _ Hr'), refs_cons, decide_False by done. lia.
    + intros m'. destruct (decide (m' = m)) as [->|Hne].
      * rewrite lookup_delete_eq. split; [done|by intros []].
      * rewrite lookup_delete_ne, <- H2, elem_of_cons by done. intuition congruence.
    + intros m'. rewrite elem_of_remove_first, H4 by done. destruct (decide (m' = m)) as [->|Hne].
      * rewrite lookup_delete_eq. split; [by intros []|by intros []].
      * rewrite lookup_delete_ne by done. intuition.
Qed.

(** Only the heap and the array of modes differ. *)
Definition only_modes (s s' : RandR) : Prop := s' = set_modes (modes s') (set_heap (heap s') s).

Lemma only_modes_trans s1 s2 s3 : only_modes s1 s2 -> only_modes s2 s3 -> only_modes s1 s3.
Proof. unfold only_modes. intros H1 H2. rewrite H2, H1. by destruct s1, s2, s3. Qed.

Lemma only_modes_same s s' : only_modes s s' -> outputs s' = outputs s /\ crtcs s' = crtcs s /\ resources s' = resources s /\
  output_array s' = output_array s /\ crtc_array s' = crtc_array s /\ primaryOutput s' = primaryOutput s.
Proof. intros ->. by destruct s. Qed.

Lemma only_modes_holders s s' : only_modes s s' -> holders s' = holders s.
Proof. intros H. unfold holders. by destruct (only_modes_same _ _ H) as (-> & -> & -> & _). Qed.

Lemma only_modes_structure s s' : only_modes s s' -> structure_ok s -> structure_ok s'.
Proof.
  intros H [H1 H2 H3 H4 H5 H6]. destruct (only_modes_same _ _ H) as (Eo & Ec & _ & Ea & Eb & Ep).
  split; rewrite ?Eo, ?Ec, ?Ea, ?Eb, ?Ep; done.
Qed.

Lemma destroy_modes_counts L : forall X s, counts (L ++ X) (heap s) (modes s) -> exists s', destroy_modes L s = Some s' /\
  counts X (heap s') (modes s') /\ only_modes s s'.
Proof.
  induction L as [|m L IH]; intros X s H; cbn [destroy_modes].
  - exists s. split; [done|split; [done|by destruct s]].
  - destruct (counts_destroy m (L ++ X) s H) as (s1 & -> & H1 & O1). cbn [mbind option_bind].
    destruct (IH X s1 H1) as (s2 & -> & H2 & O2). exists s2. split; [done|split; [done|by apply only_modes_trans with s1]].
Qed.

Lemma destroy_modes_ok L held s : accounts (L ++ held) s -> exists s', destroy_modes L s = Some s' /\
  accounts held s' /\ only_modes s s'.
Proof.
  unfold accounts. rewrite <- (assoc_L (++)). intros H. destruct (destroy_modes_counts _ _ _ H) as (s' & E & Hc & Ho).
  exists s'. by rewrite (only_modes_holders _ _ Ho).
Qed.

Lemma mode_destroy_ok m held s : accounts (m :: held) s -> exists s', RRModeDestroy m s = Some s' /\
  accounts held s' /\ only_modes s s'.
Proof.
  intros H. destruct (destroy_modes_ok [m] held s H) as (s' & E & Hs). exists s'. split; [|done].
  cbn [destroy_modes] in E. by destruct (RRModeDestroy m s).
Qed.

(** A reference is taken. *)
Lemma counts_acquire m r l h ms : h !! m = Some r -> counts l h ms ->
  counts (m :: l) (<[m := with_refcnt (refcnt r + 1) r]> h) ms.
Proof.
  intros Er [H1 H2 H3 H4]. split; [| |done|].
  - intros m' r' Hm. rewrite refs_cons. destruct (decide (m = m')) as [<-|Hne].
    + rewrite lookup_insert_eq in Hm. injection Hm as <-. cbn [with_refcnt refcnt]. by rewrite (H1 _ _ Er).
    + rewrite lookup_insert_ne in Hm by done. rewrite (H1 _ _ Hm). lia.
  - intros m'. rewrite elem_of_cons, H2.
    destruct (decide (m = m')) as [<-|Hne]; [rewrite lookup_insert_eq, Er; intuition|rewrite lookup_insert_ne by done; intuition congruence].
  - intros m'. rewrite H4.
    destruct (decide (m = m')) as [<-|Hne]; [rewrite lookup_insert_eq, Er; done|by rewrite lookup_insert_ne].
Qed.

Lemma mode_acquire_ok m r held s : heap s !! m = Some r -> accounts held s ->
  accounts (m :: held) (put_mode m (with_refcnt (refcnt r + 1) r) s).
Proof. intros Er H. by apply (counts_acquire m r (held ++ holders s)). Qed.

(** The answers of the allocations are new addresses and identifiers, and [AddResource]
    has memory. *)
Definition env_ok (e : ModeEnv) (s : RandR) : Prop :=
  heap s !! me_mode e = None /\ resources s !! me_id e = None /\ me_resource e = true.

Definition keeps (s s' : RandR) : Prop :=
  outputs s' = outputs s /\ crtcs s' = crtcs s /\ output_array s' = output_array s /\ crtc_array s' = crtc_array s /\
  primaryOutput s' = primaryOutput s.

Lemma keeps_structure s s' : keeps s s' -> structure_ok s -> structure_ok s'.
Proof.
  intros (Eo & Ec & Ea & Eb & Ep) [H1 H2 H3 H4 H5 H6]. split; rewrite ?Eo, ?Ec, ?Ea, ?Eb, ?Ep; done.
Qed.

Lemma only_modes_keeps s s' : only_modes s s' -> keeps s s'.
Proof. intros H. by destruct (only_modes_same _ _ H) as (? & ? & _ & ? & ? & ?). Qed.

Lemma mode_create_ok e info name user held s : env_ok e s -> accounts held s -> exists m s',
  RRModeCreate e info name user s = Some (m, s') /\ accounts (option_list m ++ held) s' /\ keeps s s' /\
  (m = None \/ exists r, m = Some (me_mode e) /\ heap s' !! me_mode e = Some r /\ rm_mode r = info) /\
  (me_init e && negb (me_mode e =? 0) && me_array e = true -> m <> None).
Proof.
  intros (Hh & Hr & Hm) H. unfold RRModeCreate. rewrite Hm. cbn [negb].
  destruct (negb (me_init e) || (me_mode e =? 0) || negb (me_array e)) eqn:Em.
  { exists None, s. split; [done|split; [done|split; [done|split; [by left|]]]].
    by destruct (me_init e), (me_mode e =? 0), (me_array e). }
  eexists _, _. split; [done|]. set (m := me_mode e) in *.
  split; [|split; [done|split; [right; eexists; split; [done|cbn; by rewrite lookup_insert_eq]|done]]].
  destruct H as [H1 H2 H3 H4]. unfold accounts, holders.
  cbn [option_list app set_resources set_modes put_mode set_heap heap modes outputs crtcs resources].
  rewrite collect_insert by done.
  set (l := held ++ holders s) in *.
  assert (m :: held ++ collect (fun r => o_modes r ++ o_userModes r) (outputs s) ++
    collect (fun r => option_list (c_mode r)) (crtcs s) ++ [m] ++ collect (fun m => [m]) (resources s) ≡ₚ m :: m :: l) as ->.
  { unfold l, holders. apply perm_skip. cbn [app]. by rewrite <- !Permutation_middle. }
  assert (m ∉ l) as Hl by (rewrite H2, Hh; by intros []).
  split.
  - intros m' r' Hm'. rewrite !refs_cons. destruct (decide (m = m')) as [<-|Hne].
    + rewrite lookup_insert_eq in Hm'. injection Hm' as <-. cbn [refcnt]. rewrite <- refs_pos in Hl.
      unfold refs in *. lia.
    + rewrite lookup_insert_ne in Hm' by done. rewrite (H1 _ _ Hm'). lia.
  - intros m'. rewrite !elem_of_cons, H2. destruct (decide (m = m')) as [<-|Hne].
    + rewrite lookup_insert_eq. split; [done|by left].
    + rewrite lookup_insert_ne by done. intuition congruence.
  - apply NoDup_app. split; [done|]. split; [|apply NoDup_singleton].
    intros x Hx ->%list_elem_of_singleton. apply H4 in Hx. rewrite Hh in Hx. by destruct Hx.
  - intros m'. rewrite elem_of_app, list_elem_of_singleton, H4. destruct (decide (m = m')) as [<-|Hne].
    + rewrite lookup_insert_eq. split; [done|by right].
    + rewrite lookup_insert_ne by done. intuition congruence.
Qed.

(** Every mode that is there was there, with the same timings. *)
Definition modes_kept (s s' : RandR) : Prop :=
  forall m r, heap s' !! m = Some r -> exists r0, heap s !! m = Some r0 /\ rm_mode r0 = rm_mode r.

Lemma modes_kept_refl s : modes_kept s s.
Proof. intros m r Hm. by exists r. Qed.

Lemma modes_kept_trans s1 s2 s3 : modes_kept s1 s2 -> modes_kept s2 s3 -> modes_kept s1 s3.
Proof.
  intros H1 H2 m r Hm. destruct (H2 m r Hm) as (r2 & E2 & M2). destruct (H1 m r2 E2) as (r1 & E1 & M1).
  exists r1. split; [done|congruence].
Qed.

Lemma put_mode_kept m r n s : heap s !! m = Some r -> modes_kept s (put_mode m (with_refcnt n r) s).
Proof.
  intros Er m' r' Hm. cbn [put_mode set_heap heap] in Hm. destruct (decide (m = m')) as [<-|Hne].
  - rewrite lookup_insert_eq in Hm. injection Hm as <-. by exists r.
  - rewrite lookup_insert_ne in Hm by done. by exists r'.
Qed.

Lemma destroy_kept m s s' : RRModeDestroy m s = Some s' -> modes_kept s s'.
Proof.
  unfold RRModeDestroy. destruct (heap s !! m) as [r|] eqn:Er; [|done]. cbn [mbind option_bind].
  destruct (_ <? _); intros [= <-]; [by apply put_mode_kept|].
  intros m' r' Hm. cbn [heap set_modes set_heap] in Hm. apply lookup_delete_Some in Hm as [_ Hm]. by exists r'.
Qed.

Lemma destroy_modes_kept l : forall s s', destroy_modes l s = Some s' -> modes_kept s s'.
Proof.
  induction l as [|m l IH]; intros s s' E; cbn [destroy_modes] in E; [injection E as <-; apply modes_kept_refl|].
  destruct (RRModeDestroy m s) as [s1|] eqn:E1; [|done]. cbn [mbind option_bind] in E.
  apply modes_kept_trans with s1; [by apply (destroy_kept m)|by apply IH].
Qed.

(** ** The invariant *)

Definition sound (held : list Z) (s : RandR) : Prop := accounts held s /\ structure_ok s.

Lemma sound_flags held s a b c : sound held s -> sound held (set_flags a b c s).
Proof. intros [H1 [? ? ? ? ? ?]]. by split. Qed.

Lemma sound_perm held held' s : held ≡ₚ held' -> sound held s -> sound held' s.
Proof. intros Hp [H1 H2]. split; [|done]. unfold accounts in *. by rewrite <- Hp. Qed.

(** The references of an output or a crtc are exchanged against those of the caller. *)
Lemma sound_put_output o r r' held held' s : outputs s !! o = Some r ->
  held ++ (o_modes r ++ o_userModes r) ≡ₚ held' ++ (o_modes r' ++ o_userModes r') ->
  (forall c, o_crtc r' = Some c -> is_Some (crtcs s !! c)) ->
  sound held s -> sound held' (put_output o r' s).
Proof.
  intros Er Hp Hc [Ha [H1 H2 H3 H4 H5 H6]]. split.
  - unfold accounts, holders in *. cbn [put_output set_outputs heap modes outputs crtcs resources].
    assert (forall g X : list Z, g ++ X ≡ₚ X ++ g) as Hcomm by (intros; apply Permutation_app_comm).
    pose proof (collect_update (fun r => o_modes r ++ o_userModes r) (outputs s) o r r' held held' Er) as Hu.
    rewrite (Hcomm (o_modes r ++ _) held), (Hcomm (o_modes r' ++ _) held') in Hu. specialize (Hu Hp).
    rewrite (assoc_L (++)), (Hcomm held'), <- Hu, (Hcomm _ held), <- (assoc_L (++)). done.
  - assert (forall x, is_Some (outputs s !! x) -> is_Some (outputs (put_output o r' s) !! x)) as Hdom.
    { intros x Hx. cbn. destruct (decide (o = x)) as [<-|]; [by rewrite lookup_insert_eq|by rewrite lookup_insert_ne]. }
    split; [intros; apply Hdom; auto|done| |intros c rc x Hx Hin; apply Hdom; eauto|intros; apply Hdom; auto|done].
    intros x rx c. cbn [put_output set_outputs outputs crtcs].
    destruct (decide (o = x)) as [<-|]; [rewrite lookup_insert_eq; intros [= <-]; auto|rewrite lookup_insert_ne by done; eauto].
Qed.

Lemma sound_put_crtc c r r' held held' s : crtcs s !! c = Some r ->
  held ++ option_list (c_mode r) ≡ₚ held' ++ option_list (c_mode r') ->
  (forall o, o ∈ c_outputs r' -> is_Some (outputs s !! o)) -> is_Some (c_mode r') ->
  sound held s -> sound held' (put_crtc c r' s).
Proof.
  intros Er Hp Ho Hon [Ha [H1 H2 H3 H4 H5 H6]]. split.
  - unfold accounts, holders in *. cbn [put_crtc set_crtcs heap modes outputs crtcs resources].
    set (A := collect _ (outputs s)) in *. set (R := collect _ (resources s)) in *.
    assert (forall g X : list Z, g ++ X ≡ₚ X ++ g) as Hcomm by (intros; apply Permutation_app_comm).
    pose proof (collect_update (fun r => option_list (c_mode r)) (crtcs s) c r r' held held' Er) as Hu.
    rewrite (Hcomm (option_list (c_mode r)) held), (Hcomm (option_list (c_mode r')) held') in Hu. specialize (Hu Hp).
    set (C := collect _ (crtcs s)) in *. set (C' := collect _ (<[c:=r']> (crtcs s))) in *.
    assert (held' ++ A ++ C' ++ R ≡ₚ held ++ A ++ C ++ R) as ->; [|done].
    rewrite (Hcomm A), (Hcomm A), !(assoc_L (++)), (Hcomm held'), (Hcomm held), Hu. done.
  - assert (forall x, is_Some (crtcs s !! x) -> is_Some (crtcs (put_crtc c r' s) !! x)) as Hdom.
    { intros x Hx. cbn. destruct (decide (c = x)) as [<-|]; [by rewrite lookup_insert_eq|by rewrite lookup_insert_ne]. }
    split; [done|intros; apply Hdom; auto|intros; apply Hdom; eauto| |done|].
    + intros x rx o. cbn [put_crtc set_crtcs outputs crtcs].
      destruct (decide (c = x)) as [<-|]; [rewrite lookup_insert_eq; intros [= <-]; auto|rewrite lookup_insert_ne by done; eauto].
    + intros x rx. cbn [put_crtc set_crtcs outputs crtcs].
      destruct (decide (c = x)) as [<-|]; [by rewrite lookup_insert_eq; intros [= <-]|rewrite lookup_insert_ne by done; eauto].
Qed.

Lemma sound_only_modes held' s s' : only_modes s s' -> structure_ok s -> accounts held' s' -> sound held' s'.
Proof. intros Ho Hs Ha. split; [done|by apply only_modes_structure with s]. Qed.

(** ** The operations keep the invariant *)

Lemma find_mode_ok test l h : (forall m, m ∈ l -> is_Some (h !! m)) -> exists res, find_mode test l h = Some res /\
  match res with Some m => m ∈ l /\ exists r, h !! m = Some r /\ test r = true | None => True end.
Proof.
  induction l as [|m l IH]; intros Hl; cbn [find_mode]; [by exists None|].
  destruct (Hl m ltac:(by left)) as [r Er]. rewrite Er. cbn [mbind option_bind]. destruct (test r) eqn:Et.
  - exists (Some m). split; [done|split; [by left|eauto]].
  - destruct (IH ltac:(intros; apply Hl; by right)) as (res & E & Hres). exists res. split; [done|].
    destruct res; [destruct Hres as [? ?]; split; [by right|done]|done].
Qed.

Lemma modes_live (held : list Z) s m : accounts held s -> m ∈ modes s -> is_Some (heap s !! m).
Proof. intros H Hm. by apply (ct_array _ _ _ H). Qed.

Lemma RRModeGet_ok e info name held s : env_ok e s -> sound held s -> exists m s',
  RRModeGet e info name s = Some (m, s') /\ sound (option_list m ++ held) s' /\ keeps s s' /\
  (forall x, m = Some x -> exists r, heap s' !! x = Some r /\ rm_mode r = info) /\
  (me_init e && negb (me_mode e =? 0) && me_array e = true -> m <> None).
Proof.
  intros He [Ha Hs]. unfold RRModeGet.
  destruct (find_mode_ok (fun r => RRModeEqual (rm_mode r) info && same_name (mi_nameLength info) name (rm_name r))
              (modes s) (heap s)) as (res & -> & Hres); [intros; by apply (modes_live held)|]. cbn [mbind option_bind].
  destruct res as [m|].
  - destruct Hres as (Hm & r & Er & Ht). rewrite Er. cbn [mbind option_bind].
    exists (Some m). eexists. split; [done|]. split; [split; [by apply mode_acquire_ok|destruct Hs; by split]|split; [done|split; [|done]]].
    intros x [= <-]. eexists. split; [cbn; by rewrite lookup_insert_eq|]. cbn.
    apply andb_true_iff in Ht as [Ht _]. by apply bool_decide_eq_true in Ht.
  - destruct (mode_create_ok e info name false held s He Ha) as (m & s' & -> & Ha' & Hk & Hm & Hn).
    exists m, s'. split; [done|]. split; [split; [done|by apply keeps_structure with s]|split; [done|split; [|done]]].
    intros x ->. destruct Hm as [|(r & [= ->] & Er & Ei)]; [done|by exists r].
Qed.

Lemma holders_output o r s : outputs s !! o = Some r ->
  holders s ≡ₚ (o_modes r ++ o_userModes r) ++ holders (set_outputs (delete o (outputs s)) s).
Proof.
  intros Er. unfold holders. cbn [set_outputs outputs crtcs resources].
  by rewrite (collect_delete _ _ _ _ Er), <- !(assoc_L (++)).
Qed.

Lemma holders_crtc c r s : crtcs s !! c = Some r ->
  holders s ≡ₚ option_list (c_mode r) ++ holders (set_crtcs (delete c (crtcs s)) s).
Proof.
  intros Er. unfold holders. cbn [set_crtcs outputs crtcs resources].
  rewrite (collect_delete _ _ _ _ Er). by rewrite !(assoc_L (++)), (Permutation_app_comm (collect _ (outputs s))).
Qed.

Lemma delete_put_output o r s : set_outputs (delete o (outputs (put_output o r s))) (put_output o r s) =
  set_outputs (delete o (outputs s)) s.
Proof. cbn [put_output set_outputs outputs]. unfold set_outputs. cbn. by rewrite delete_insert_eq. Qed.

Lemma delete_put_crtc c r s : set_crtcs (delete c (crtcs (put_crtc c r s))) (put_crtc c r s) =
  set_crtcs (delete c (crtcs s)) s.
Proof. unfold put_crtc, set_crtcs. cbn. by rewrite delete_insert_eq. Qed.

Lemma RROutputChanged_eq o r cfg s : outputs s !! o = Some r -> exists a b c,
  RROutputChanged o cfg s = Some (set_flags a b c (put_output o (mark_output r) s)).
Proof. intros Er. unfold RROutputChanged. rewrite Er. destruct cfg; cbn [mbind option_bind]; by eexists _, _, _. Qed.

Lemma RRCrtcChanged_eq c r layout s : crtcs s !! c = Some r -> exists a b d,
  RRCrtcChanged c layout s = Some (set_flags a b d (put_crtc c (mark_crtc r) s)).
Proof. intros Er. unfold RRCrtcChanged. rewrite Er. destruct layout; cbn [mbind option_bind]; by eexists _, _, _. Qed.

Lemma sound_output_changed o r cfg held s : outputs s !! o = Some r -> sound held s -> exists s',
  RROutputChanged o cfg s = Some s' /\ sound held s' /\ outputs s' = <[o := mark_output r]> (outputs s) /\
  crtcs s' = crtcs s /\ heap s' = heap s /\ modes s' = modes s /\ resources s' = resources s /\
  output_array s' = output_array s /\ crtc_array s' = crtc_array s /\ primaryOutput s' = primaryOutput s.
Proof.
  intros Er Hs. destruct (RROutputChanged_eq o r cfg s Er) as (a & b & c & ->).
  eexists. split; [done|]. split; [|done]. apply sound_flags, (sound_put_output o r _ held held); [done|done| |done].
  intros c'. by apply (so_crtc _ (proj2 Hs) o r).
Qed.

Lemma sound_crtc_changed c r layout held s : crtcs s !! c = Some r -> sound held s -> exists s',
  RRCrtcChanged c layout s = Some s' /\ sound held s' /\ crtcs s' = <[c := mark_crtc r]> (crtcs s) /\
  outputs s' = outputs s /\ heap s' = heap s /\ modes s' = modes s /\ resources s' = resources s /\
  output_array s' = output_array s /\ crtc_array s' = crtc_array s /\ primaryOutput s' = primaryOutput s.
Proof.
  intros Er Hs. destruct (RRCrtcChanged_eq c r layout s Er) as (a & b & d & ->).
  eexists. split; [done|]. split; [|done]. apply sound_flags, (sound_put_crtc c r _ held held); [done|done| | |done].
  - intros o. by apply (so_outs _ (proj2 Hs) c r).
  - by apply (so_on _ (proj2 Hs) c r).
Qed.

Lemma put_output_structure o r r' s : outputs s !! o = Some r -> o_crtc r' = o_crtc r ->
  structure_ok s -> structure_ok (put_output o r' s).
Proof.
  intros Er Ec [H1 H2 H3 H4 H5 H6].
  assert (forall x, is_Some (outputs s !! x) -> is_Some (outputs (put_output o r' s) !! x)) as Hdom.
  { intros x Hx. cbn. destruct (decide (o = x)) as [<-|]; [by rewrite lookup_insert_eq|by rewrite lookup_insert_ne]. }
  split; [intros; apply Hdom; auto|done| |intros; apply Hdom; eauto|intros; apply Hdom; auto|done].
  intros x rx c. cbn [put_output set_outputs outputs crtcs].
  destruct (decide (o = x)) as [<-|]; [|rewrite lookup_insert_ne by done; eauto].
  rewrite lookup_insert_eq; intros [= <-]. rewrite Ec. eauto.
Qed.

(** The old modes of an output are dropped, then the new ones take their place. *)
Lemma exchange_modes o l n held s r : outputs s !! o = Some r -> sound (l ++ held) s -> exists s1,
  destroy_modes (o_modes r) s = Some s1 /\ only_modes s s1 /\ modes_kept s s1 /\
  sound held (put_output o (with_modes l n (o_userModes r) r) s1).
Proof.
  intros Er [Ha Hs]. unfold accounts in Ha. rewrite (holders_output o r s Er) in Ha.
  set (R := holders (set_outputs (delete o (outputs s)) s)) in *.
  assert ((l ++ held) ++ (o_modes r ++ o_userModes r) ++ R ≡ₚ o_modes r ++ (held ++ (l ++ o_userModes r) ++ R)) as Hp.
  { rewrite (Permutation_app_comm l held), <- !(assoc_L (++)).
    by rewrite (Permutation_app_swap_app (o_modes r) held), (Permutation_app_swap_app (o_modes r) l). }
  rewrite Hp in Ha. destruct (destroy_modes_counts _ _ _ Ha) as (s1 & E1 & Hc & Ho).
  exists s1. destruct (only_modes_same _ _ Ho) as (Eo & _).
  split; [done|split; [done|split; [by apply (destroy_modes_kept (o_modes r))|]]]. split.
  - unfold accounts. rewrite (holders_output o (with_modes l n (o_userModes r) r)) by (cbn; apply lookup_insert_eq).
    rewrite delete_put_output.
    assert (holders (set_outputs (delete o (outputs s1)) s1) = R) as ->; [|done].
    unfold R. by rewrite Ho.
  - apply (put_output_structure o r); [by rewrite Eo|done|by apply only_modes_structure with s].
Qed.

(** What an operation on outputs leaves as it is. *)
Definition same_crtcs (s s' : RandR) : Prop :=
  crtcs s' = crtcs s /\ output_array s' = output_array s /\ crtc_array s' = crtc_array s /\
  primaryOutput s' = primaryOutput s.

Lemma RROutputSetModes_ok o l n held s r : outputs s !! o = Some r -> sound (l ++ held) s -> exists r' s',
  RROutputSetModes true o l n s = Some (true, s') /\ sound held s' /\ modes_kept s s' /\
  outputs s' = <[o := r']> (outputs s) /\ o_modes r' = l /\ o_crtc r' = o_crtc r /\ same_crtcs s s'.
Proof.
  intros Er Hsl. unfold RROutputSetModes. rewrite Er. cbn [mbind option_bind].
  destruct (bool_decide (o_modes r = l) && (o_numPreferred r =? n)) eqn:Et.
  - apply andb_true_iff in Et as [El%bool_decide_eq_true _].
    destruct (destroy_modes_ok _ _ _ (proj1 Hsl)) as (s1 & E1 & Ha1 & Ho). pose proof (destroy_modes_kept _ _ _ E1).
    rewrite E1. cbn [mbind option_bind]. destruct (only_modes_same _ _ Ho) as (Eo & Ec & _ & Ea & Eb & Ep).
    exists r, s1. rewrite Eo, insert_id by done.
    split; [done|split; [apply sound_only_modes with s; by destruct Hsl|done]].
  - rewrite andb_false_r. destruct (exchange_modes o l n held s r Er Hsl) as (s1 & -> & Ho & Hk & H2).
    cbn [mbind option_bind]. destruct (only_modes_same _ _ Ho) as (Eo & Ec & _ & Ea & Eb & Ep).
    rewrite Eo, Er. cbn [mbind option_bind]. set (r1 := with_modes l n (o_userModes r) r) in *.
    destruct (sound_output_changed o r1 true held (put_output o r1 s1)) as (s3 & -> & H3 & Eo3 & Ec3 & Eh3 & _ & _ & Ea3 & Eb3 & Ep3);
      [cbn; apply lookup_insert_eq|done|].
    exists (mark_output r1), s3. split; [done|split; [done|]]. split.
    + intros m rm Hm. rewrite Eh3 in Hm. by apply Hk.
    + rewrite Eo3. cbn [put_output set_outputs outputs]. rewrite insert_insert_eq, Eo.
      split; [done|split; [done|split; [done|]]]. split; [exact (eq_trans Ec3 Ec)|split; [exact (eq_trans Ea3 Ea)|split; [exact (eq_trans Eb3 Eb)|exact (eq_trans Ep3 Ep)]]].
Qed.

Lemma RROutputAddUserMode_ok ok o m held s r : outputs s !! o = Some r -> is_Some (heap s !! m) -> sound held s ->
  exists res s', RROutputAddUserMode ok o m s = Some (res, s') /\ sound held s'.
Proof.
  intros Er [rm Em] Hs. unfold RROutputAddUserMode. rewrite Er. cbn [mbind option_bind].
  destruct (bool_decide _); [by exists Success, s|]. destruct ok; [|by exists BadAlloc, s]. cbn [negb].
  rewrite Em. cbn [mbind option_bind].
  set (r1 := with_modes _ _ _ r). set (s1 := put_mode m _ s).
  assert (sound (m :: held) s1) as H1 by (split; [apply mode_acquire_ok; [done|apply Hs]|destruct Hs as [_ []]; by split]).
  assert (sound held (put_output o r1 s1)) as H2.
  { apply (sound_put_output o r r1 (m :: held) held); [done| | |done].
    - cbn [r1 with_modes o_modes o_userModes]. by rewrite !(assoc_L (++)), <- Permutation_cons_append.
    - intros c. apply (so_crtc _ (proj2 Hs) o r c Er). }
  destruct (sound_output_changed o r1 true held (put_output o r1 s1)) as (s3 & -> & H3 & _);
    [cbn; apply lookup_insert_eq|done|].
  cbn [mbind option_bind]. by exists Success, s3.
Qed.

Lemma RROutputDeleteUserMode_ok o m held s r : outputs s !! o = Some r -> sound held s ->
  exists res s', RROutputDeleteUserMode o m s = Some (res, s') /\ sound held s'.
Proof.
  intros Er Hs. unfold RROutputDeleteUserMode. rewrite Er. cbn [mbind option_bind].
  destruct (bool_decide_reflect (m ∈ o_userModes r)) as [Hm|]; [|by exists BadAccess, s]. cbn [negb].
  assert (exists b, match o_crtc r with Some c => rc ← crtcs s !! c; Some (bool_decide (c_mode rc = Some m)) | None => Some false end = Some b)
    as [b ->].
  { destruct (o_crtc r) as [c|] eqn:Ec; [|eauto]. destruct (so_crtc _ (proj2 Hs) o r c Er Ec) as [rc ->]. cbn. eauto. }
  cbn [mbind option_bind]. destruct b; [by exists BadMatch, s|].
  set (r1 := with_modes _ _ _ r).
  assert (sound (m :: held) (put_output o r1 s)) as H1.
  { apply (sound_put_output o r r1 held (m :: held)); [done| | |done].
    - cbn [r1 with_modes o_modes o_userModes]. rewrite (remove_first_perm m _ Hm) at 1.
      by rewrite !(assoc_L (++)), <- Permutation_middle.
    - intros c. apply (so_crtc _ (proj2 Hs) o r c Er). }
  destruct (mode_destroy_ok m held _ (proj1 H1)) as (s2 & -> & Ha & Ho). cbn [mbind option_bind].
  exists Success, s2. split; [done|]. apply sound_only_modes with (put_output o r1 s); [done|apply H1|done].
Qed.

(** Outputs and crtcs are linked in another way, with the modes they had. *)
Definition relinked (s s' : RandR) : Prop :=
  heap s' = heap s /\ resources s' = resources s /\
  (forall o, o_modes <$> outputs s' !! o = o_modes <$> outputs s !! o) /\
  (forall c, (fun r => (c_mode r, c_outputs r)) <$> crtcs s' !! c = (fun r => (c_mode r, c_outputs r)) <$> crtcs s !! c).

Lemma relinked_refl s : relinked s s.
Proof. done. Qed.

Lemma relinked_trans s1 s2 s3 : relinked s1 s2 -> relinked s2 s3 -> relinked s1 s3.
Proof.
  intros (H1 & R1 & O1 & C1) (H2 & R2 & O2 & C2).
  split; [congruence|split; [congruence|split; [intros; by rewrite O2|intros; by rewrite C2]]].
Qed.

Lemma relinked_output s s' o : relinked s s' -> is_Some (outputs s !! o) -> is_Some (outputs s' !! o).
Proof. intros (_ & _ & H & _) [r Er]. specialize (H o). rewrite Er in H. by destruct (outputs s' !! o). Qed.

Lemma relinked_crtc s s' c r : relinked s s' -> crtcs s !! c = Some r -> exists r', crtcs s' !! c = Some r' /\
  c_mode r' = c_mode r /\ c_outputs r' = c_outputs r.
Proof.
  intros (_ & _ & _ & H) Er. specialize (H c). rewrite Er in H. destruct (crtcs s' !! c) as [r'|]; [|done].
  injection H as Hm Ho. by exists r'.
Qed.

Lemma relink_output o r r' s t : outputs s !! o = Some r -> o_modes r' = o_modes r -> outputs t = <[o := r']> (outputs s) ->
  crtcs t = crtcs s -> heap t = heap s -> resources t = resources s -> relinked s t.
Proof.
  intros Er Em Eo Ec Eh Es. split; [done|split; [done|split; [|by rewrite Ec]]]. intros x. rewrite Eo.
  destruct (decide (o = x)) as [<-|]; [by rewrite lookup_insert_eq, Er; cbn; rewrite Em|by rewrite lookup_insert_ne].
Qed.

Lemma relink_crtc c r r' s t : crtcs s !! c = Some r -> c_mode r' = c_mode r -> c_outputs r' = c_outputs r ->
  crtcs t = <[c := r']> (crtcs s) -> outputs t = outputs s -> heap t = heap s -> resources t = resources s -> relinked s t.
Proof.
  intros Er Em Eu Ec Eo Eh Es. split; [done|split; [done|split; [by rewrite Eo|]]]. intros x. rewrite Ec.
  destruct (decide (c = x)) as [<-|]; [by rewrite lookup_insert_eq, Er; cbn; rewrite Em, Eu|by rewrite lookup_insert_ne].
Qed.

(** An output is stored with another crtc, and both are marked. *)
Lemma link_ok o r oc c rc held s : outputs s !! o = Some r -> crtcs s !! c = Some rc ->
  (forall x, oc = Some x -> x = c \/ o_crtc r = Some x) -> sound held s -> exists s1 s2,
  RROutputChanged o false (put_output o (with_crtc oc r) s) = Some s1 /\ RRCrtcChanged c false s1 = Some s2 /\
  sound held s2 /\ relinked s s2.
Proof.
  intros Er Ec Hoc Hs. set (r1 := with_crtc oc r). set (s0 := put_output o r1 s).
  assert (sound held s0) as H0.
  { apply (sound_put_output o r r1 held held); [done|done| |done]. intros x Hx.
    destruct (Hoc x Hx) as [->|Hr]; [by rewrite Ec|by apply (so_crtc _ (proj2 Hs) o r)]. }
  destruct (sound_output_changed o r1 false held s0) as (s1 & E1 & H1 & Eo1 & Ec1 & Eh1 & _ & Es1 & _);
    [cbn; apply lookup_insert_eq|done|].
  assert (crtcs s1 !! c = Some rc) as Erc by (by rewrite Ec1).
  destruct (sound_crtc_changed c rc false held s1 Erc H1) as (s2 & E2 & H2 & Ec2 & Eo2 & Eh2 & _ & Es2 & _).
  exists s1, s2. split; [done|split; [done|split; [done|]]]. apply relinked_trans with s1.
  - apply (relink_output o r (mark_output r1)); [done|done| |by rewrite Ec1|by rewrite Eh1|by rewrite Es1].
    rewrite Eo1. cbn [s0 put_output set_outputs outputs]. by rewrite insert_insert_eq.
  - by apply (relink_crtc c rc (mark_crtc rc)).
Qed.

Lemma attach_ok c outs held : forall s, is_Some (crtcs s !! c) -> (forall o, o ∈ outs -> is_Some (outputs s !! o)) ->
  sound held s -> exists s', attach_outputs c outs s = Some s' /\ sound held s' /\ relinked s s'.
Proof.
  induction outs as [|o outs IH]; intros s [rc Ec] Ho Hs; cbn [attach_outputs]; [by exists s|].
  rewrite Ec. cbn [mbind option_bind]. destruct (bool_decide _).
  { apply IH; [eauto|intros; apply Ho; by right|done]. }
  destruct (Ho o ltac:(by left)) as [r Er]. rewrite Er. cbn [mbind option_bind].
  destruct (link_ok o r (Some c) c rc held s Er Ec) as (s1 & s2 & -> & E2 & H2 & R2); [intros x [= <-]; by left|done|].
  cbn [mbind option_bind]. rewrite E2. cbn [mbind option_bind].
  destruct (relinked_crtc _ _ _ _ R2 Ec) as (rc2 & Ec2 & _).
  destruct (IH s2) as (s3 & -> & H3 & R3); [eauto|intros x Hx; apply (relinked_output s); [done|apply Ho; by right]|done|].
  exists s3. split; [done|split; [done|by apply relinked_trans with s2]].
Qed.

Lemma with_same_crtc r s o : outputs s !! o = Some r -> put_output o (with_crtc (o_crtc r) r) s = s.
Proof.
  intros Er. unfold put_output, set_outputs, with_crtc. rewrite insert_id; [by destruct s|]. rewrite Er. by destruct r.
Qed.

Lemma detach_ok c outs old held : forall s, is_Some (crtcs s !! c) -> (forall o, o ∈ old -> is_Some (outputs s !! o)) ->
  sound held s -> exists s', detach_outputs c outs old s = Some s' /\ sound held s' /\ relinked s s'.
Proof.
  induction old as [|o old IH]; intros s [rc Ec] Ho Hs; cbn [detach_outputs]; [by exists s|].
  destruct (bool_decide (o ∈ outs)). { apply IH; [eauto|intros; apply Ho; by right|done]. }
  destruct (Ho o ltac:(by left)) as [r Er]. rewrite Er. cbn [mbind option_bind].
  set (oc := if bool_decide (o_crtc r = Some c) then None else o_crtc r).
  assert ((if bool_decide (o_crtc r = Some c) then put_output o (with_crtc None r) s else s) = put_output o (with_crtc oc r) s) as ->
    by (unfold oc; destruct (bool_decide _); [done|by rewrite with_same_crtc]).
  destruct (link_ok o r oc c rc held s Er Ec) as (s1 & s2 & -> & E2 & H2 & R2);
    [intros x; unfold oc; destruct (bool_decide _); [done|by right]|done|].
  cbn [mbind option_bind]. rewrite E2. cbn [mbind option_bind].
  destruct (relinked_crtc _ _ _ _ R2 Ec) as (rc2 & Ec2 & _).
  destruct (IH s2) as (s3 & -> & H3 & R3); [eauto|intros x Hx; apply (relinked_output s); [done|apply Ho; by right]|done|].
  exists s3. split; [done|split; [done|by apply relinked_trans with s2]].
Qed.

(** A mode that an output or the resource table holds. *)
Definition listed (m : Z) (s : RandR) : Prop :=
  (exists o r, outputs s !! o = Some r /\ m ∈ o_modes r) \/ (exists id, resources s !! id = Some m).

Lemma elem_of_collect {A} (f : A -> list Z) (mp : gmap Z A) k a x : mp !! k = Some a -> x ∈ f a -> x ∈ collect f mp.
Proof. intros Ek Hx. rewrite (collect_delete f mp k a Ek), elem_of_app. by left. Qed.

Lemma listed_held m c s : listed m s -> m ∈ holders (set_crtcs (delete c (crtcs s)) s).
Proof.
  unfold holders. cbn [set_crtcs outputs crtcs resources]. rewrite !elem_of_app.
  intros [(o & r & Er & Hm)|(id & Eid)].
  - left. apply (elem_of_collect _ _ o r); [done|]. rewrite elem_of_app. by left.
  - right; right. apply (elem_of_collect _ _ id m); [done|]. by apply list_elem_of_singleton.
Qed.

Lemma put_crtc_structure c r r' s : crtcs s !! c = Some r -> c_outputs r' = c_outputs r -> is_Some (c_mode r') ->
  structure_ok s -> structure_ok (put_crtc c r' s).
Proof.
  intros Er Eo Hm [H1 H2 H3 H4 H5 H6].
  assert (forall x, is_Some (crtcs s !! x) -> is_Some (crtcs (put_crtc c r' s) !! x)) as Hdom.
  { intros x Hx. cbn. destruct (decide (c = x)) as [<-|]; [by rewrite lookup_insert_eq|by rewrite lookup_insert_ne]. }
  split; [done|intros; apply Hdom; auto|intros; apply Hdom; eauto| |done|].
  - intros x rx o. cbn [put_crtc set_crtcs outputs crtcs].
    destruct (decide (c = x)) as [<-|]; [|rewrite lookup_insert_ne by done; eauto].
    rewrite lookup_insert_eq. intros [= <-]. rewrite Eo. eauto.
  - intros x rx. cbn [put_crtc set_crtcs outputs crtcs].
    destruct (decide (c = x)) as [<-|]; [by rewrite lookup_insert_eq; intros [= <-]|rewrite lookup_insert_ne by done; eauto].
Qed.

(** The crtc gets the mode [m]: the old mode loses a reference, the new one gains one. *)
Lemma move_mode_ok c m held s rc : crtcs s !! c = Some rc -> listed m s -> sound held s ->
  exists rc' s', move_mode c (Some m) s = Some s' /\ sound held s' /\ modes_kept s s' /\
    crtcs s' = <[c := rc']> (crtcs s) /\ c_mode rc' = Some m /\ c_outputs rc' = c_outputs rc /\ outputs s' = outputs s.
Proof.
  intros Ec Hm Hs. unfold move_mode. rewrite Ec. cbn [mbind option_bind].
  destruct (bool_decide_reflect (Some m = c_mode rc)) as [Em|Hne].
  { exists rc, s. rewrite insert_id by done. split; [done|split; [done|split; [apply modes_kept_refl|done]]]. }
  destruct (so_on _ (proj2 Hs) c rc Ec) as [old Eold]. rewrite Eold.
  destruct Hs as [Ha Hst]. unfold accounts in Ha. rewrite (holders_crtc c rc s Ec), Eold in Ha.
  set (R := holders (set_crtcs (delete c (crtcs s)) s)) in *. cbn [option_list] in Ha.
  rewrite (Permutation_app_swap_app held [old] R) in Ha.
  destruct (counts_destroy old (held ++ R) s Ha) as (s1 & E1 & Hc1 & Ho). pose proof (destroy_kept _ _ _ E1) as Hk1.
  rewrite E1. cbn [mbind option_bind].
  assert (m ∈ (held ++ R)) as Hin by (apply elem_of_app; right; by apply listed_held).
  destruct (proj1 (ct_live _ _ _ Hc1 m) Hin) as [r Er].
  set (rc1 := with_place (Some m) (c_x rc) (c_y rc) (c_rotation rc) (c_outputs rc) rc).
  change (heap (put_crtc c rc1 s1)) with (heap s1). rewrite Er. cbn [mbind option_bind].
  set (s3 := put_mode m (with_refcnt (refcnt r + 1) r) (put_crtc c rc1 s1)).
  destruct (only_modes_same _ _ Ho) as (Eo & Ecr & _).
  assert (sound held s3) as H3.
  { split.
    - unfold accounts. change (holders s3) with (holders (put_crtc c rc1 s1)).
      rewrite (holders_crtc c rc1 (put_crtc c rc1 s1)) by (cbn; apply lookup_insert_eq). rewrite delete_put_crtc.
      assert (holders (set_crtcs (delete c (crtcs s1)) s1) = R) as -> by (unfold R; by rewrite Ho).
      change (option_list (c_mode rc1)) with [m]. rewrite (Permutation_app_swap_app held [m] R). by apply counts_acquire.
    - apply (keeps_structure (put_crtc c rc1 s1) s3); [done|]. apply (put_crtc_structure c rc rc1 s1); [by rewrite Ecr|done|done|by apply only_modes_structure with s]. }
  destruct (sound_crtc_changed c rc1 true held s3) as (s4 & -> & H4 & Ec4 & Eo4 & Eh4 & _); [cbn; apply lookup_insert_eq|done|].
  exists (mark_crtc rc1), s4. split; [done|split; [done|split]].
  - intros x rx Hx. rewrite Eh4 in Hx. apply (modes_kept_trans s s1 s3) with (m := x); [done| |done].
    intros y ry Hy. cbn [s3 put_mode set_heap heap put_crtc set_crtcs] in Hy.
    destruct (decide (m = y)) as [<-|]; [rewrite lookup_insert_eq in Hy; injection Hy as <-; by exists r|].
    rewrite lookup_insert_ne in Hy by done. by exists ry.
  - rewrite Ec4. cbn [s3 put_mode set_heap put_crtc set_crtcs crtcs]. rewrite insert_insert_eq, Ecr.
    split; [done|split; [done|split; [done|]]]. rewrite Eo4. exact Eo.
Qed.

Lemma place_field_ok c x x' r r' held s : crtcs s !! c = Some r -> c_mode r' = c_mode r -> c_outputs r' = c_outputs r ->
  sound held s -> exists r2 s', (if x =? x' then Some s else RRCrtcChanged c true (put_crtc c r' s)) = Some s' /\
    sound held s' /\ heap s' = heap s /\ outputs s' = outputs s /\ crtcs s' = <[c := r2]> (crtcs s) /\
    c_mode r2 = c_mode r /\ c_outputs r2 = c_outputs r.
Proof.
  intros Er Em Eo Hs. destruct (x =? x').
  { exists r, s. by rewrite insert_id. }
  assert (sound held (put_crtc c r' s)) as H1.
  { apply (sound_put_crtc c r r' held held); [done|by rewrite Em| | |done].
    - rewrite Eo. intros o. by apply (so_outs _ (proj2 Hs) c r).
    - rewrite Em. by apply (so_on _ (proj2 Hs) c r). }
  destruct (sound_crtc_changed c r' true held (put_crtc c r' s)) as (s2 & E2 & H2 & Ec2 & Eo2 & Eh2 & _);
    [cbn; apply lookup_insert_eq|done|].
  exists (mark_crtc r'), s2. split; [done|split; [done|split; [done|split; [done|]]]].
  rewrite Ec2. cbn [put_crtc set_crtcs crtcs]. by rewrite insert_insert_eq.
Qed.

Lemma place_crtc_ok c x y rot held s r : crtcs s !! c = Some r -> sound held s -> exists r' s',
  place_crtc c x y rot s = Some s' /\ sound held s' /\ heap s' = heap s /\ outputs s' = outputs s /\
  crtcs s' = <[c := r']> (crtcs s) /\ c_mode r' = c_mode r /\ c_outputs r' = c_outputs r.
Proof.
  intros Er Hs. unfold place_crtc. rewrite Er. cbn [mbind option_bind].
  destruct (place_field_ok c x (c_x r) r (with_place (c_mode r) x (c_y r) (c_rotation r) (c_outputs r) r) held s)
    as (r1 & s1 & -> & H1 & Eh1 & Eo1 & Ec1 & Em1 & Eu1); [done..|]. cbn [mbind option_bind].
  assert (crtcs s1 !! c = Some r1) as Er1 by (rewrite Ec1; apply lookup_insert_eq). rewrite Er1. cbn [mbind option_bind].
  destruct (place_field_ok c y (c_y r1) r1 (with_place (c_mode r1) (c_x r1) y (c_rotation r1) (c_outputs r1) r1) held s1)
    as (r2 & s2 & -> & H2 & Eh2 & Eo2 & Ec2 & Em2 & Eu2); [done..|]. cbn [mbind option_bind].
  assert (crtcs s2 !! c = Some r2) as Er2 by (rewrite Ec2; apply lookup_insert_eq). rewrite Er2. cbn [mbind option_bind].
  destruct (place_field_ok c rot (c_rotation r2) r2 (with_place (c_mode r2) (c_x r2) (c_y r2) rot (c_outputs r2) r2) held s2)
    as (r3 & s3 & E3 & H3 & Eh3 & Eo3 & Ec3 & Em3 & Eu3); [done..|].
  exists r3, s3. split; [done|split; [done|split; [congruence|split; [congruence|]]]].
  rewrite Ec3, Ec2, Ec1, !insert_insert_eq. split; [done|split; congruence].
Qed.

Lemma relinked_listed s s' m : relinked s s' -> listed m s -> listed m s'.
Proof.
  intros (_ & Er & Ho & _) [(o & r & Eo & Hm)|(id & Hid)]; [left|right; exists id; by rewrite Er].
  specialize (Ho o). rewrite Eo in Ho. destruct (outputs s' !! o) as [r'|] eqn:Eo'; [|done].
  injection Ho as Em. exists o, r'. by rewrite Em.
Qed.

Lemma relinked_kept s s' : relinked s s' -> modes_kept s s'.
Proof. intros (Eh & _) m r Hm. rewrite Eh in Hm. by exists r. Qed.

(** The crtc [c] shows the mode [m] on the outputs [outs] afterwards, if the array of
    outputs could grow. *)
Lemma RRCrtcNotify_ok ok c m x y rot outs held s : is_Some (crtcs s !! c) -> (forall o, o ∈ outs -> is_Some (outputs s !! o)) ->
  listed m s -> sound held s -> exists res s', RRCrtcNotify ok c (Some m) x y rot outs s = Some (res, s') /\
    sound held s' /\ modes_kept s s' /\ (forall o, o_modes <$> outputs s' !! o = o_modes <$> outputs s !! o) /\
    (ok = true -> exists r, crtcs s' !! c = Some r /\ c_mode r = Some m /\ c_outputs r = outs).
Proof.
  intros Hc Ho Hm Hs. unfold RRCrtcNotify. destruct Hc as [rc Ec]. rewrite Ec. cbn [mbind option_bind].
  destruct (attach_ok c outs held s ltac:(eauto) Ho Hs) as (s1 & -> & H1 & R1). cbn [mbind option_bind].
  destruct (relinked_crtc _ _ _ _ R1 Ec) as (rc1 & Ec1 & Em1 & Eu1).
  destruct (detach_ok c outs (c_outputs rc) held s1) as (s2 & -> & H2 & R2); [eauto| |done|].
  { rewrite <- Eu1. intros o Hin. by apply (so_outs _ (proj2 H1) c rc1). }
  cbn [mbind option_bind]. pose proof (relinked_trans _ _ _ R1 R2) as R.
  destruct (negb _ && negb _ && negb ok) eqn:Ealloc.
  { exists false, s2. split; [done|split; [done|split; [by apply relinked_kept|split; [apply R|intros ->]]]].
    by rewrite andb_false_r in Ealloc. }
  destruct (relinked_crtc _ _ _ _ R Ec) as (rc2 & Ec2 & Em2 & Eu2). rewrite Ec2. cbn [mbind option_bind].
  set (rc3 := with_place (c_mode rc2) (c_x rc2) (c_y rc2) (c_rotation rc2) outs rc2).
  assert (sound held (put_crtc c rc3 s2)) as H3.
  { apply (sound_put_crtc c rc2 rc3 held held); [done|done| |by apply (so_on _ (proj2 H2) c rc2)|done].
    intros o Hin. apply (relinked_output s); [done|auto]. }
  assert (listed m (put_crtc c rc3 s2)) as L3 by (apply (relinked_listed _ _ m R) in Hm; exact Hm).
  destruct (move_mode_ok c m held (put_crtc c rc3 s2) rc3) as (rc4 & s4 & -> & H4 & K4 & Ec4 & Em4 & Eu4 & Eo4);
    [cbn; apply lookup_insert_eq|done|done|]. cbn [mbind option_bind].
  assert (crtcs s4 !! c = Some rc4) as Er4 by (rewrite Ec4; apply lookup_insert_eq).
  destruct (place_crtc_ok c x y rot held s4 rc4 Er4 H4) as (rc5 & s5 & -> & H5 & Eh5 & Eo5 & Ec5 & Em5 & Eu5).
  cbn [mbind option_bind]. exists true, s5. split; [done|split; [done|split; [|split]]].
  - intros a ra Ha. rewrite Eh5 in Ha.
    apply (modes_kept_trans s s2 s4) with (m := a); [by apply relinked_kept|exact K4|done].
  - intros o. rewrite Eo5, Eo4. apply R.
  - intros _. exists rc5. rewrite Ec5, lookup_insert_eq, Em5, Eu5, Eu4. done.
Qed.

(** ** The first output and crtc *)

Lemma output_of_ok c l s : (forall o, o ∈ l -> is_Some (outputs s !! o)) -> exists res, output_of c l s = Some res /\
  forall o, res = Some o -> is_Some (outputs s !! o).
Proof.
  induction l as [|o l IH]; intros Hl; cbn [output_of]; [by exists None|].
  destruct (Hl o ltac:(by left)) as [r Er]. rewrite Er. cbn [mbind option_bind].
  destruct (bool_decide _); [exists (Some o); split; [done|intros x [= <-]; by rewrite Er]|].
  apply IH. intros; apply Hl; by right.
Qed.

Lemma active_primary_ok s : structure_ok s -> exists res, active_primary s = Some res /\
  forall o c, res = Some (o, c) -> is_Some (outputs s !! o) /\ is_Some (crtcs s !! c).
Proof.
  intros Hs. unfold active_primary. destruct (primaryOutput s) as [o|] eqn:Ep; [|by exists None].
  destruct (so_primary _ Hs o Ep) as [r Er]. rewrite Er. cbn [mbind option_bind]. eexists. split; [done|].
  intros o' c H. destruct (o_crtc r) as [c'|] eqn:Ec; [|done]. injection H as <- <-.
  split; [by rewrite Er|by apply (so_crtc _ Hs o r)].
Qed.

Lemma first_output_ok cs s : structure_ok s -> exists res, first_output cs s = Some res /\
  forall o, res = Some o -> is_Some (outputs s !! o).
Proof.
  intros Hs. induction cs as [|c cs IH]; cbn [first_output]; [by exists None|].
  destruct (output_of_ok c (output_array s) s (so_outputs _ Hs)) as (res & -> & Hres). cbn [mbind option_bind].
  destruct res as [o|]; [by exists (Some o)|done].
Qed.

Lemma RRFirstOutput_ok s : structure_ok s -> exists res, RRFirstOutput s = Some res /\
  forall o, res = Some o -> is_Some (outputs s !! o).
Proof.
  intros Hs. unfold RRFirstOutput. destruct (active_primary_ok s Hs) as (p & -> & Hp). cbn [mbind option_bind].
  destruct p as [[o c]|]; [|by apply first_output_ok].
  exists (Some o). split; [done|]. intros x [= <-]. by apply (Hp o c).
Qed.

(** Every crtc is on, so that the crtc of the first output is found. *)
Lemma RRFirstEnabledCrtc_ok s o : structure_ok s -> RRFirstOutput s = Some (Some o) ->
  exists c, RRFirstEnabledCrtc s = Some (Some c) /\ is_Some (crtcs s !! c).
Proof.
  intros Hs. unfold RRFirstOutput, RRFirstEnabledCrtc. destruct (active_primary_ok s Hs) as (p & -> & Hp).
  cbn [mbind option_bind]. destruct p as [[o' c]|]; [intros _; exists c; by split; [|apply (Hp o' c)]|].
  pose proof (so_crtcs _ Hs) as Hcs. revert Hcs. generalize (crtc_array s). intros cs Hcs.
  induction cs as [|c cs IH]; cbn [first_output first_enabled]; [done|].
  destruct (output_of_ok c (output_array s) s (so_outputs _ Hs)) as (res & -> & _). cbn [mbind option_bind].
  destruct (Hcs c ltac:(by left)) as [rc Ec]. rewrite Ec. cbn [mbind option_bind].
  destruct res as [o'|]; [intros _|apply IH; intros; apply Hcs; by right].
  destruct (so_on _ Hs c rc Ec) as [m ->]. exists c. by rewrite Ec.
Qed.

Lemma output_of_ext c l s s' : (forall o, o_crtc <$> outputs s' !! o = o_crtc <$> outputs s !! o) ->
  output_of c l s' = output_of c l s.
Proof.
  intros H. induction l as [|o l IH]; cbn [output_of]; [done|]. specialize (H o).
  destruct (outputs s' !! o) as [r'|], (outputs s !! o) as [r|]; cbn in H |- *; try done.
  injection H as ->. by rewrite IH.
Qed.

Lemma RRFirstOutput_ext s s' : (forall o, o_crtc <$> outputs s' !! o = o_crtc <$> outputs s !! o) ->
  same_crtcs s s' -> RRFirstOutput s' = RRFirstOutput s.
Proof.
  intros Ho (_ & Ea & Eb & Ep). unfold RRFirstOutput, active_primary. rewrite Ep, Eb.
  assert (forall cs, first_output cs s' = first_output cs s) as Hf.
  { induction cs as [|c cs IH]; cbn [first_output]; [done|]. by rewrite Ea, (output_of_ext _ _ s s' Ho), IH. }
  destruct (primaryOutput s) as [o|]; cbn [mbind option_bind]; [|by rewrite Hf]. specialize (Ho o).
  destruct (outputs s' !! o) as [r'|], (outputs s !! o) as [r|]; cbn in Ho |- *; try done.
  injection Ho as ->. destruct (o_crtc r); cbn; [done|by rewrite Hf].
Qed.

(** ** Requests *)

Lemma ProcRRCreateMode_ok e info name s : env_ok e s -> sound [] s ->
  exists res s', ProcRRCreateMode e info name s = Some (res, s') /\ sound [] s' /\ keeps s s'.
Proof.
  intros He Hs. unfold ProcRRCreateMode, RRModeCreateUser, RRModeFindByName.
  destruct (find_mode_ok (fun r => (mi_nameLength (rm_mode r) =? mi_nameLength info) && same_name (mi_nameLength info) name (rm_name r))
    (modes s) (heap s)) as (found & -> & _); [intros m; by apply (modes_live [] s m), Hs|]. cbn [mbind option_bind].
  destruct found as [m|]; [cbn [mbind option_bind]; by exists BadName, s|].
  destruct (mode_create_ok e info name true [] s He (proj1 Hs)) as (m & s1 & -> & Ha & Hk & _ & _). cbn [mbind option_bind].
  destruct m as [m|].
  - destruct (mode_destroy_ok m [] s1 Ha) as (s2 & -> & Ha2 & Ho2). cbn [mbind option_bind].
    assert (structure_ok s1) as H1 by (apply keeps_structure with s; [done|apply Hs]).
    exists Success, s2. split; [done|split; [by apply sound_only_modes with s1|]].
    destruct Hk as (K1 & K2 & K3 & K4 & K5), (only_modes_keeps _ _ Ho2) as (L1 & L2 & L3 & L4 & L5).
    by repeat split; etransitivity.
  - exists BadAlloc, s1. split; [done|split; [split; [done|apply keeps_structure with s; [done|apply Hs]]|done]].
Qed.

Lemma ProcRRDestroyMode_ok id s : sound [] s ->
  exists res s', ProcRRDestroyMode id s = Some (res, s') /\ sound [] s' /\ keeps s s'.
Proof.
  intros [Ha Hs]. unfold ProcRRDestroyMode, free_mode_resource. destruct (resources s !! id) as [m|] eqn:Em; [|by exists BadRRMode, s].
  assert (holders s ≡ₚ m :: holders (set_resources (delete id (resources s)) s)) as Hp.
  { unfold holders. cbn [set_resources outputs crtcs resources]. rewrite (collect_delete _ (resources s) id m Em).
    cbn [app]. by rewrite <- !Permutation_middle. }
  assert (m ∈ holders s) as Hin by (rewrite Hp; by left).
  destruct (proj1 (ct_live _ _ _ Ha m) Hin) as [r Er]. rewrite Er. cbn [mbind option_bind].
  destruct (negb (userScreen r)); [by exists BadMatch, s|]. destruct (1 <? refcnt r); [by exists BadAccess, s|].
  set (s1 := set_resources _ s). assert (accounts [m] s1) as H1 by (unfold accounts in *; cbn [app] in *; by rewrite Hp in Ha).
  destruct (mode_destroy_ok m [] s1 H1) as (s2 & -> & Ha2 & Ho2). cbn [mbind option_bind].
  assert (structure_ok s1) as Hs1 by (by apply keeps_structure with s).
  exists Success, s2. split; [done|split; [by apply sound_only_modes with s1|by apply (only_modes_keeps s1)]].
Qed.

Lemma resource_live id m held s : accounts held s -> resources s !! id = Some m -> is_Some (heap s !! m).
Proof.
  intros Ha Em. apply (ct_live _ _ _ Ha). apply elem_of_app. right. unfold holders. rewrite !elem_of_app.
  right; right. apply (elem_of_collect _ _ id m); [done|]. by apply list_elem_of_singleton.
Qed.

Lemma crtc_mode_live c rc m held s : accounts held s -> crtcs s !! c = Some rc -> c_mode rc = Some m -> is_Some (heap s !! m).
Proof.
  intros Ha Ec Em. apply (ct_live _ _ _ Ha). apply elem_of_app. right. unfold holders. rewrite !elem_of_app.
  right; left. apply (elem_of_collect _ _ c rc); [done|]. rewrite Em. by apply list_elem_of_singleton.
Qed.

(** ** The window *)

(** An inch has less than 26 millimetres, so that [hi] bounds the result. *)
Lemma in_millimetres_int a b hi n dpi : a <= 0 -> 0 <= hi <= b -> hi < 2 ^ 53 -> 0 <= n <= 65535 -> 1 <= dpi <= 1000000 ->
  n * 26 <= hi * dpi -> exists z, to_int a b (in_millimetres n dpi) = Some z /\ 0 <= z <= hi.
Proof.
  intros Ha Hb Hhi Hn Hd Hle. unfold in_millimetres.
  destruct (f64_of_int_exact dpi ltac:(lia)) as (md & ed & Ed & _ & _ & Vd).
  destruct (decide (n = 0)) as [->|Hne].
  { exists 0. split; [|lia]. rewrite Ed. unfold to_int. change (trunc _) with (Some 0). cbn [mbind option_bind].
    by rewrite (proj2 (Z.leb_le a 0)), (proj2 (Z.leb_le 0 b)) by lia. }
  destruct (f64_of_int_exact n ltac:(lia)) as (mn & en & En & Hmn & _ & Vn). rewrite Ed, En in *.
  assert (exists mt et, tenths 254 = S754_finite false mt et /\ (25 <= val (tenths 254) <= 26)%Q) as (mt & et & Et & Vt)
    by (eexists _, _; split; [vm_compute; reflexivity|vm_compute; split; congruence]).
  rewrite Et in *.
  assert (1 <= inject_Z n)%Q as Q1 by (apply (Q_le 1); lia).
  assert (inject_Z dpi <= 1000000)%Q as Q3 by (apply (Q_le _ 1000000); lia).
  assert (dy (n * 25) 0 == inject_Z n * 25 /\ dy (n * 26) 0 == inject_Z n * 26)%Q as [E25 E26]
    by (rewrite !dy_0, !inject_Z_mult; done).
  destruct (rounded_pos 53 1024 (dy (n * 25) 0) (dy (n * 26) 0) (f64_mul (S754_finite false mn en) (S754_finite false mt et)))
    as [(m1 & e1 & E1 & _) V1]; [apply dy_pos; lia|apply mul_between; [lia|lia|repeat split; try done; lia|]|].
  { rewrite Vn, E25, E26. split; apply Qmult_le_l; lra. }
  rewrite E1, E25, E26 in *.
  destruct (to_int_between 53 1024 a b 0 hi (f64_div (S754_finite false m1 e1) (S754_finite false md ed)))
    as (z & Ez & Hz); [lia..| |by exists z].
  apply (rounded_weaken _ _ (dy 1 (-20)) (dy hi 0)); [by apply Qlt_le_weak, dy_pos|rewrite dy_0; apply Qle_refl|].
  apply div_between; [lia|lia|repeat split; try done; lia|].
  assert (dy 1 (-20) == 1 # 1048576)%Q as -> by done. rewrite Vd, dy_0.
  assert (inject_Z (n * 26) <= inject_Z (hi * dpi))%Q as Q4 by (apply Q_le; lia). rewrite !inject_Z_mult in Q4.
  split; [lra|]. apply (Qle_trans _ (inject_Z n * 26)); [lra|exact Q4].
Qed.

Lemma millimetres_ok n dpi : 0 <= n <= 65535 -> 1 <= dpi <= 1000000 -> is_Some (millimetres n dpi).
Proof.
  intros Hn Hd. unfold millimetres, f64_to_u32.
  destruct (in_millimetres_int 0 (2 ^ 32 - 1) (n * 26) n dpi) as (z & -> & _); [lia..|nia|by exists z].
Qed.

(** The memory for a new mode is there. *)
Definition mode_memory (e : ModeEnv) : Prop := me_init e && negb (me_mode e =? 0) && me_array e = true.

Section window.
Context {S : Type} `{ScreenLaws S}.

(** The output [o] offers the mode [m] alone, and the crtc [c] shows it. *)
Definition shows (m : Z) (info : xRRModeInfo) (s : RandR) : Prop :=
  exists o c ro rc rm, outputs s !! o = Some ro /\ o_modes ro = [m] /\ crtcs s !! c = Some rc /\ c_mode rc = Some m /\
    c_outputs rc = [o] /\ heap s !! m = Some rm /\ rm_mode rm = info.

(** The part of [lorieConfigureNotify] that gives the mode [m] to the output [o]. *)
Lemma give_mode_ok crtc_ok o m info r s : sound [m] s -> heap s !! m = Some r -> rm_mode r = info ->
  RRFirstOutput s = Some (Some o) -> is_Some (outputs s !! o) -> exists s1 c res s2 r2,
    RROutputSetModes true o [m] 0 s = Some (true, s1) /\ RRFirstEnabledCrtc s1 = Some (Some c) /\
    RRCrtcNotify crtc_ok c (Some m) 0 0 1 [o] s1 = Some (res, s2) /\ sound [] s2 /\
    heap s2 !! m = Some r2 /\ rm_mode r2 = info /\ (crtc_ok = true -> shows m info s2).
Proof.
  intros Hs Er Ei Hf [ro Eo].
  destruct (RROutputSetModes_ok o [m] 0 [] s ro Eo Hs) as (ro1 & s1 & E1 & H1 & K1 & Eo1 & Em1 & Ec1 & Hsame).
  assert (RRFirstOutput s1 = Some (Some o)) as Hf1.
  { rewrite (RRFirstOutput_ext s s1); [done| |done]. intros x. rewrite Eo1.
    destruct (decide (o = x)) as [<-|]; [by rewrite lookup_insert_eq, Eo; cbn; rewrite Ec1|by rewrite lookup_insert_ne]. }
  destruct (RRFirstEnabledCrtc_ok s1 o (proj2 H1) Hf1) as (c & Ec & Hc).
  assert (outputs s1 !! o = Some ro1) as Ero1 by (rewrite Eo1; apply lookup_insert_eq).
  assert (m ∈ o_modes ro1) as Hm by (rewrite Em1; by left).
  destruct (RRCrtcNotify_ok crtc_ok c m 0 0 1 [o] [] s1 Hc) as (res & s2 & E2 & H2 & K2 & Eo2 & Hshow); [| |done|].
  { intros x ->%list_elem_of_singleton. by rewrite Ero1. } { left. eauto. }
  specialize (Eo2 o). rewrite Ero1 in Eo2. destruct (outputs s2 !! o) as [ro2|] eqn:Ero2; [|done]. injection Eo2 as Em2.
  assert (is_Some (heap s2 !! m)) as [r2 Er2].
  { apply (ct_live _ _ _ (proj1 H2)). cbn [app]. unfold holders. apply elem_of_app. left.
    apply (elem_of_collect _ _ o ro2); [done|]. apply elem_of_app. left. by rewrite Em2. }
  destruct (modes_kept_trans _ _ _ K1 K2 m r2 Er2) as (r0 & E0 & Hr0).
  exists s1, c, res, s2, r2. rewrite Er in E0. injection E0 as <-.
  split; [done|split; [done|split; [done|split; [done|split; [done|split; [congruence|]]]]]].
  intros Hok. destruct (Hshow Hok) as (rc & Erc & Emc & Euc).
  exists o, c, ro2, rc, r2. rewrite Em2, Em1. repeat (split; [done|]). congruence.
Qed.

Lemma named_ok name o s pv : sound [] s -> is_Some (outputs s !! o) -> RRFirstOutput s = Some (Some o) -> exists s' pv',
  store_name o name s pv = Some (s', pv') /\ sound [] s' /\ is_Some (outputs s' !! o) /\ RRFirstOutput s' = Some (Some o) /\
  framerate pv' = framerate pv /\ heap s' = heap s /\ resources s' = resources s.
Proof.
  intros Hs [r Er] Hf. unfold store_name. destruct name as [l|]; [|by exists s, pv; rewrite Er].
  rewrite Er. cbn [mbind option_bind]. eexists _, _. split; [done|]. set (r1 := with_name _ r).
  split; [apply (sound_put_output o r r1 [] []); [done|done| |done]; intros c; by apply (so_crtc _ (proj2 Hs) o r)|].
  split; [cbn; by rewrite lookup_insert_eq|]. split; [|done].
  rewrite (RRFirstOutput_ext s); [done| |done]. intros x. cbn [put_output set_outputs outputs].
  destruct (decide (o = x)) as [<-|]; [by rewrite lookup_insert_eq, Er|by rewrite lookup_insert_ne].
Qed.

Lemma configure_ok crtc_ok e dpi width height rate name s pv scr nm info :
  let rate' := if rate =? 0 then 30 else rate in
  sound [] s -> screen_ok scr -> env_ok e s -> mode_memory e -> 1 <= dpi <= 1000000 ->
  lorieCvt_info true width height rate' = Some (nm, info) -> 1 <= mi_width info <= 32767 -> 1 <= mi_height info <= 32767 ->
  exists s' pv' scr', lorieConfigureNotify true true crtc_ok e dpi width height rate name (s, pv, scr) = Some (s', pv', scr') /\
    sound [] s' /\ screen_ok scr' /\
    (RRFirstOutput s <> Some None -> window_changed width height rate' pv scr = true ->
     screen_size scr' = (mi_width info, mi_height info) /\ framerate pv' = rate' /\
     vblank_interval pv' = Z.quot 1000000 rate' /\ (crtc_ok = true -> exists m, shows m info s')).
Proof.
  intros rate' Hs Hinv He Hmem Hd Ecvt Hw Hh. unfold lorieConfigureNotify. fold rate'.
  destruct (RRFirstOutput_ok s (proj2 Hs)) as (res & Ef & Hres). rewrite Ef. cbn [mbind option_bind].
  destruct res as [o|]; [|by exists s, pv, scr; repeat (split; [done|])].
  destruct (named_ok name o s pv Hs (Hres o eq_refl) Ef) as (s1 & pv1 & E1 & H1 & Ho1 & Hf1 & Efr & Eh1 & Er1).
  rewrite E1. cbn [mbind option_bind].
  assert (window_changed width height rate' pv1 scr = window_changed width height rate' pv scr) as ->
    by (unfold window_changed; by rewrite Efr).
  destruct (window_changed width height rate' pv scr); [|by exists s1, pv1, scr; repeat (split; [done|])].
  unfold lorieCvt. rewrite Ecvt. cbn [mbind option_bind].
  assert (env_ok e s1) as He1 by (unfold env_ok in *; by rewrite Eh1, Er1).
  destruct (RRModeGet_ok e info nm [] s1 He1 H1) as (m & s2 & -> & H2 & Hk2 & Hm2 & Hmem2). cbn [mbind option_bind].
  destruct m as [m|]; [|by destruct (Hmem2 Hmem)]. cbn [mbind option_bind].
  destruct (Hm2 m eq_refl) as (r & Er & Ei). rewrite Er. cbn [mbind option_bind].
  destruct (millimetres_ok (mi_width info) dpi ltac:(lia) Hd) as [mm Emm]. rewrite Ei, Emm. cbn [mbind option_bind].
  destruct Hk2 as (Ko & Kc & Ka & Kb & Kp).
  assert (RRFirstOutput s2 = Some (Some o)) as Hf2 by (rewrite (RRFirstOutput_ext s1 s2); [done|by rewrite Ko|done]).
  destruct (give_mode_ok crtc_ok o m info r s2 H2 Er Ei Hf2 ltac:(by rewrite Ko))
    as (s3 & c & res4 & s4 & r4 & -> & E4 & E5 & H4 & Er4 & Ei4 & Hshow).
  cbn [mbind option_bind snd]. rewrite E4. cbn [mbind option_bind]. rewrite E5. cbn [mbind option_bind snd].
  rewrite Er4. cbn [mbind option_bind]. rewrite Ei4.
  destruct (rrScreenSetSize_ok (mi_width info) (mi_height info) mm mm scr Hinv Hw Hh) as (scr' & Escr & Hinv' & Esize).
  rewrite Escr. cbn [mbind option_bind]. eexists _, _, _. split; [done|split; [done|split; [done|]]].
  intros _ _. split; [done|split; [done|split; [done|]]]. intros Hok. eauto.
Qed.

End window.

(** ** Runs *)

(** The window changes, and clients send requests; a mode and outputs are named by their
    resources, which the dispatcher looks up. *)
Inductive rr_op :=
  | OpWindow (crtc_ok : bool) (e : ModeEnv) (width height rate : Z) (name : option (list Z))
  | OpCreateMode (e : ModeEnv) (info : xRRModeInfo) (name : string)
  | OpDestroyMode (id : Z)
  | OpAddMode (alloc_ok : bool) (o id : Z)
  | OpDeleteMode (o id : Z)
  | OpSetCrtc (alloc_ok : bool) (c id x y rotation : Z) (outs : list Z)
  | OpSetScreenSize (width height mmWidth mmHeight : Z).

Section runs.
Context {S : Type} `{ScreenHooks S} (dpi : Z).
Implicit Types (st : RandR * Pvfb * S).

Definition on_modes {A} (r : option (A * RandR)) st : option (RandR * Pvfb * S) :=
  '(_, s) ← r; Some (s, st.1.2, st.2).

Definition rr_exec (op : rr_op) st : option (RandR * Pvfb * S) :=
  let s := st.1.1 in
  match op with
  | OpWindow crtc_ok e width height rate name => lorieConfigureNotify true true crtc_ok e dpi width height rate name st
  | OpCreateMode e info name => on_modes (ProcRRCreateMode e info name s) st
  | OpDestroyMode id => on_modes (ProcRRDestroyMode id s) st
  | OpAddMode ok o id => on_modes (ProcRRAddOutputMode ok o id s) st
  | OpDeleteMode o id => on_modes (ProcRRDeleteOutputMode o id s) st
  | OpSetCrtc ok c id x y rot outs =>
      match crtcs s !! c, resources s !! id, forallb (fun o => bool_decide (is_Some (outputs s !! o))) outs with
      | Some _, Some m, true => on_modes (lorieRRCrtcSet ok (Some c) (Some m) x y rot outs s) st
      | _, _, _ => Some st
      end
  | OpSetScreenSize width height mw mh => snd <$> ProcRRSetScreenSize width height mw mh st
  end.

Fixpoint run_rr (ops : list rr_op) st : option (RandR * Pvfb * S) :=
  match ops with [] => Some st | op :: ops => st ← rr_exec op st; run_rr ops st end.

Definition window_ok (width height rate : Z) : Prop :=
  8 <= width <= 32767 /\ 1 <= height <= 32767 /\ 0 <= rate <= 240 /\
  is_Some (lorieCvt_info true width height (if rate =? 0 then 30 else rate)).

Definition rr_op_ok (op : rr_op) st : Prop :=
  match op with
  | OpWindow _ e width height rate _ => env_ok e st.1.1 /\ mode_memory e /\ window_ok width height rate
  | OpCreateMode e _ _ => env_ok e st.1.1
  | _ => True
  end.

Fixpoint rr_ops_ok (ops : list rr_op) st : Prop :=
  match ops with
  | [] => True
  | op :: ops => rr_op_ok op st /\ match rr_exec op st with Some st' => rr_ops_ok ops st' | None => True end
  end.

Context `{!ScreenLaws S}.
Hypothesis dpi_ok : 1 <= dpi <= 1000000.

(** The description that [lorieCvt] makes of a window. *)
Lemma cvt_size width height rate : window_ok width height rate -> exists nm info,
  lorieCvt_info true width height (if rate =? 0 then 30 else rate) = Some (nm, info) /\
  mi_width info = mode_width width height /\ mi_height info = height /\ 1 <= mode_width width height <= 32767.
Proof.
  intros (Hw & Hh & Hr & [[nm info] E]). set (rate' := if rate =? 0 then 30 else rate) in *.
  assert (1 <= rate' <= 240) as Hr' by (unfold rate'; destruct (Z.eqb_spec rate 0); lia).
  exists nm, info. split; [done|].
  destruct (gen_mode_spec width height rate' Hw Hh Hr') as (m & Eg & _ & Ew & Eh & Hc).
  unfold lorieCvt_info in E. rewrite Eg in E. cbn [mbind option_bind] in E. rewrite clock_in_hertz in E by done.
  destruct (dot_clock m * 1000 <? 2 ^ 32); [|done]. cbn [mbind option_bind] in E. injection E as _ <-.
  cbn [mi_width mi_height]. rewrite Ew, Eh.
  assert (1 <= mode_width width height <= 32767) as Hb.
  { unfold mode_width. pose proof (Z.mod_pos_bound width 8). destruct (_ && _); lia. }
  by rewrite !uwrap_small by lia.
Qed.

Lemma modes_fit_ok cs w h s : sound [] s -> (forall c, c ∈ cs -> is_Some (crtcs s !! c)) -> is_Some (modes_fit cs w h s).
Proof.
  intros Hs. induction cs as [|c cs IH]; intros Hc; [by eexists|]. cbn [modes_fit].
  destruct (Hc c ltac:(by left)) as [rc Erc]. rewrite Erc. cbn [mbind option_bind].
  specialize (IH ltac:(intros x Hx; apply Hc; by right)). destruct (c_mode rc) as [m|] eqn:Em.
  - destruct (crtc_mode_live c rc m [] s (proj1 Hs) Erc Em) as [r ->]. cbn [mbind option_bind].
    destruct (negb _), (_ && _); [exact IH|by eexists|exact IH|by eexists].
  - cbn [mbind option_bind]. exact IH.
Qed.

Lemma rr_step_ok op st : sound [] st.1.1 -> screen_ok st.2 -> rr_op_ok op st -> exists st', rr_exec op st = Some st' /\
  sound [] st'.1.1 /\ screen_ok st'.2.
Proof.
  destruct st as [[s pv] scr]. cbn [fst snd]. intros Hs Hinv Hop.
  destruct op as [crtc_ok e width height rate name|e info name|id|ok o id|o id|ok c id x y rot outs|w h mw mh]; cbn [rr_exec rr_op_ok fst snd] in *.
  - destruct Hop as (He & Hmem & Hwin). destruct (cvt_size width height rate Hwin) as (nm & info & Ecvt & Ew & Eh & Hb).
    destruct Hwin as (_ & Hh & _).
    destruct (configure_ok crtc_ok e dpi width height rate name s pv scr nm info Hs Hinv He Hmem dpi_ok Ecvt ltac:(lia) ltac:(lia))
      as (s' & pv' & scr' & -> & H' & Hi & _). by eexists.
  - destruct (ProcRRCreateMode_ok e info name s Hop Hs) as (res & s' & -> & H' & _). by eexists.
  - destruct (ProcRRDestroyMode_ok id s Hs) as (res & s' & -> & H' & _). by eexists.
  - unfold ProcRRAddOutputMode. destruct (outputs s !! o) as [r|] eqn:Er, (resources s !! id) as [m|] eqn:Em; try by eexists.
    destruct (RROutputAddUserMode_ok ok o m [] s r Er (resource_live id m [] s (proj1 Hs) Em) Hs) as (res & s' & -> & H').
    by eexists.
  - unfold ProcRRDeleteOutputMode. destruct (outputs s !! o) as [r|] eqn:Er, (resources s !! id) as [m|] eqn:Em; try by eexists.
    destruct (RROutputDeleteUserMode_ok o m [] s r Er Hs) as (res & s' & -> & H'). by eexists.
  - destruct (crtcs s !! c) as [rc|] eqn:Ec; [|by eexists]. destruct (resources s !! id) as [m|] eqn:Em; [|by eexists].
    destruct (forallb _ outs) eqn:Eo; [|by eexists]. rewrite forallb_forall in Eo.
    destruct (RRCrtcNotify_ok ok c m x y rot outs [] s) as (res & s' & E & H' & _); [eauto| |right; eauto|done|].
    + intros o Ho. apply list_elem_of_In in Ho. specialize (Eo o Ho). by apply bool_decide_eq_true in Eo.
    + cbn [lorieRRCrtcSet]. rewrite E. by eexists.
  - unfold ProcRRSetScreenSize. destruct (_ || _) eqn:Eb; [by eexists|]. rewrite !orb_false_iff, !Z.ltb_ge in Eb.
    destruct (modes_fit_ok (crtc_array s) w h s Hs) as [[] ->]; [apply (so_crtcs s (proj2 Hs))| |by eexists].
    cbn [mbind option_bind negb]. destruct (_ || _); [by eexists|].
    destruct (rrScreenSetSize_ok w h mw mh scr Hinv) as (scr' & -> & Hok & _); [lia..|]. by eexists.
Qed.

Lemma run_rr_ok ops : forall st, sound [] st.1.1 -> screen_ok st.2 -> rr_ops_ok ops st -> exists st', run_rr ops st = Some st' /\
  sound [] st'.1.1 /\ screen_ok st'.2.
Proof.
  induction ops as [|op ops IH]; intros st Hs Hinv Hok; cbn [run_rr]; [by exists st|].
  destruct Hok as [Hop Hok]. destruct (rr_step_ok op st Hs Hinv Hop) as (st1 & E & H1 & I1).
  rewrite E in Hok |- *. by apply IH.
Qed.

End runs.

(** ** The properties *)

(** C12: In every run of window changes and requests of clients, no mode is used after it
    was freed: the run reaches its end, every pointer to a mode leads to one, and every mode
    counts the outputs, crtcs and resources that point to it. This holds as long as [AddResource] and the
    arrays of the outputs get memory and new modes are at new addresses and under new identifiers ([env_ok],
    [mode_memory]; [no_memory_for_resource] is a run without memory), and windows are 8 to 32767 pixels
    wide and 1 to 32767 high, with a rate of at most 240 for which the timings are defined ([window_ok]). *)
Theorem modes_account {S} `{ScreenLaws S} dpi ops s pv scr :
  1 <= dpi <= 1000000 -> accounts [] s -> structure_ok s -> screen_ok scr -> rr_ops_ok dpi ops (s, pv, scr) ->
  exists s' pv' scr', run_rr dpi ops (s, pv, scr) = Some (s', pv', scr') /\ accounts [] s' /\
    (forall m r, heap s' !! m = Some r -> refcnt r = refs m (holders s') /\ 0 < refcnt r).
Proof.
  intros Hd Ha Hs Hinv Hok.
  destruct (run_rr_ok dpi Hd ops (s, pv, scr) (conj Ha Hs) Hinv Hok) as ([[s' pv'] scr'] & E & [Ha' _] & _).
  exists s', pv', scr'. split; [done|split; [done|]]. cbn [fst] in Ha'.
  intros m r Er. pose proof (ct_count _ _ _ Ha' m r Er) as Hc. cbn [app] in Hc. split; [done|].
  rewrite Hc, refs_pos. apply (ct_live _ _ _ Ha'). by rewrite Er.
Qed.

(** C33: When the window has changed, the screen gets the size of its mode, the output offers
    this mode alone and its crtc shows it, and the vertical blanks follow the frame rate.
    The same message again changes the screen again unless the window is as wide as its
    mode, a multiple of 8 pixels or 1366 by 768. *)
Theorem window_change_settles {S} `{ScreenLaws S} dpi e width height rate name s pv scr o :
  1 <= dpi <= 1000000 -> accounts [] s -> structure_ok s -> screen_ok scr -> env_ok e s -> mode_memory e ->
  window_ok width height rate -> RRFirstOutput s = Some (Some o) ->
  window_changed width height (if rate =? 0 then 30 else rate) pv scr = true ->
  exists s' pv' scr' m info,
    lorieConfigureNotify true true true e dpi width height rate name (s, pv, scr) = Some (s', pv', scr') /\
    screen_size scr' = (mode_width width height, height) /\ shows m info s' /\
    mi_width info = mode_width width height /\ mi_height info = height /\
    vblank_interval pv' = Z.quot 1000000 (if rate =? 0 then 30 else rate) /\
    window_changed width height (if rate =? 0 then 30 else rate) pv' scr' = negb (mode_width width height =? width).
Proof.
  intros Hd Ha Hs Hinv He Hmem Hwin Hf Hchanged.
  destruct (cvt_size width height rate Hwin) as (nm & info & Ecvt & Ew & Eh & Hb).
  destruct (configure_ok true e dpi width height rate name s pv scr nm info (conj Ha Hs) Hinv He Hmem Hd Ecvt ltac:(lia) ltac:(destruct Hwin as (_ & ? & _); lia))
    as (s' & pv' & scr' & E & _ & _ & Hfun).
  destruct (Hfun ltac:(by rewrite Hf) Hchanged) as (Esize & Erate & Evb & Hshow).
  destruct (Hshow eq_refl) as [m Hm]. rewrite Ew, Eh in Esize.
  exists s', pv', scr', m, info. split; [done|split; [done|split; [done|split; [done|split; [done|split; [done|]]]]]].
  unfold window_changed. rewrite Esize, Erate. cbn [fst snd]. rewrite !Z.eqb_refl. cbn [negb orb].
  destruct Hwin as (Hw & Hh & _). rewrite (proj2 (Z.eqb_neq width 0)), (proj2 (Z.eqb_neq height 0)) by lia.
  cbn [negb andb]. by rewrite !orb_false_r.
Qed.

(** ** On concrete windows *)

(** A screen that is only its size. *)
#[local] Instance plain_screen : ScreenHooks (Z * Z).
Proof. exact {| screen_size := id; rrScreenSetSize w h _ _ _ := Some (w, h) |}. Defined.

#[local] Instance plain_laws : ScreenLaws (Z * Z).
Proof.
  refine {| screen_ok _ := True |}. intros w h mw mh s _ _ _. by exists (w, h).
Defined.

Definition no_modes : RandR :=
  {| heap := ∅; modes := []; resources := ∅; outputs := ∅; output_array := []; crtcs := ∅; crtc_array := [];
     primaryOutput := None; changed := false; configChanged := false; layoutChanged := false |}.

Definition memory_at (m : Z) : ModeEnv :=
  {| me_init := true; me_mode := m; me_array := true; me_resource := true; me_id := m + 1000 |}.

Definition started : RandR := default no_modes (snd <$> lorieRandRInit (memory_at 1) 10 20 1280 1024 30 [] no_modes).
Definition started_pvfb : Pvfb := {| framerate := 30; root_name := []; vblank_interval := 33333 |}.

Lemma started_heap : exists r, heap started = {[1 := r]} /\ refcnt r = 3.
Proof. eexists. split; vm_compute; reflexivity. Qed.

Lemma started_output : exists r, outputs started = {[20 := r]} /\ o_crtc r = Some 10 /\ o_modes r = [1].
Proof. eexists. split; [|split]; vm_compute; reflexivity. Qed.

Lemma started_crtc : exists r, crtcs started = {[10 := r]} /\ c_outputs r = [20] /\ c_mode r = Some 1.
Proof. eexists. split; [|split]; vm_compute; reflexivity. Qed.

(** The mode of the start has three references: the resource, the output and the crtc. *)
Lemma started_accounts : accounts [] started.
Proof.
  unfold accounts. assert (holders started = [1; 1; 1]) as -> by (vm_compute; reflexivity).
  assert (modes started = [1]) as -> by (vm_compute; reflexivity).
  destruct started_heap as (r & -> & Hr). cbn [app]. split.
  - intros m x [<- <-]%lookup_singleton_Some. by rewrite Hr.
  - intros m. rewrite !elem_of_cons, elem_of_nil. destruct (decide (m = 1)) as [->|Hne].
    + rewrite lookup_singleton_eq. split; [done|by left].
    + rewrite lookup_singleton_ne by done. split; [intuition|by intros []].
  - apply NoDup_singleton.
  - intros m. rewrite list_elem_of_singleton. destruct (decide (m = 1)) as [->|Hne].
    + by rewrite lookup_singleton_eq.
    + rewrite lookup_singleton_ne by done. split; [done|by intros []].
Qed.

Lemma started_structure : structure_ok started.
Proof.
  assert (output_array started = [20] /\ crtc_array started = [10] /\ primaryOutput started = None) as (Ea & Eb & Ep)
    by (split; [|split]; vm_compute; reflexivity).
  destruct started_output as (ro & Eo & Hoc & _), started_crtc as (rc & Ec & Hco & Hcm).
  split; rewrite ?Ea, ?Eb, ?Ep, ?Eo, ?Ec.
  - intros o ->%list_elem_of_singleton. by rewrite lookup_singleton_eq.
  - intros c ->%list_elem_of_singleton. by rewrite lookup_singleton_eq.
  - intros o r c [<- <-]%lookup_singleton_Some. rewrite Hoc. intros [= <-]. by rewrite lookup_singleton_eq.
  - intros c r o [<- <-]%lookup_singleton_Some. rewrite Hco. intros ->%list_elem_of_singleton. by rewrite lookup_singleton_eq.
  - done.
  - intros c r [<- <-]%lookup_singleton_Some. by rewrite Hcm.
Qed.

(** A client makes a mode, lists it and shows it; the window changes; the client removes its
    mode. *)
Definition demo_rr_ops : list rr_op :=
  [OpCreateMode (memory_at 2) (info_of (Build_libxcvt_mode_info 640 480 (S754_zero false) (S754_zero false) 0 0 0 0 0 0 0 0)).2 "640x480";
   OpAddMode true 20 1002; OpSetCrtc true 10 1002 0 0 1 [20]; OpDeleteMode 20 1002;
   OpWindow true (memory_at 3) 1080 2400 120 None; OpSetScreenSize 1280 2400 100 200; OpDeleteMode 20 1002; OpDestroyMode 1002].

Lemma demo_window_ok : window_ok 1080 2400 120.
Proof. unfold window_ok. split; [lia|split; [lia|split; [lia|]]]. eexists. vm_compute. reflexivity. Qed.

Lemma demo_rr_ops_ok : rr_ops_ok 96 demo_rr_ops (started, started_pvfb, (1280, 1024)).
Proof.
  vm_compute. repeat split; try congruence. eauto.
Qed.

Lemma modes_account_witness : exists s' pv' scr',
  run_rr 96 demo_rr_ops (started, started_pvfb, (1280, 1024)) = Some (s', pv', scr') /\ accounts [] s'.
Proof.
  destruct (modes_account 96 demo_rr_ops started started_pvfb (1280, 1024)) as (s' & pv' & scr' & E & Ha & _).
  - lia.
  - exact started_accounts.
  - exact started_structure.
  - exact I.
  - exact demo_rr_ops_ok.
  - exists s', pv', scr'. split; [exact E|exact Ha].
Defined.

Lemma window_change_settles_witness : exists s' pv' scr',
  lorieConfigureNotify true true true (memory_at 3) 96 1083 2400 120 None (started, started_pvfb, (1280, 1024)) = Some (s', pv', scr') /\
  screen_size scr' = (1080, 2400) /\ window_changed 1083 2400 120 pv' scr' = true.
Proof.
  destruct (window_change_settles 96 (memory_at 3) 1083 2400 120 None started started_pvfb (1280, 1024) 20)
    as (s' & pv' & scr' & m & info & E & Esize & _ & _ & _ & _ & Ech).
  - lia.
  - exact started_accounts.
  - exact started_structure.
  - exact I.
  - split; [|split]; vm_compute; reflexivity.
  - vm_compute; reflexivity.
  - split; [lia|split; [lia|split; [lia|]]]. eexists. vm_compute. reflexivity.
  - vm_compute; reflexivity.
  - vm_compute; reflexivity.
  - exists s', pv', scr'. split; [exact E|split; [exact Esize|exact Ech]].
Defined.

(** A mode that nothing shows any more keeps the reference of its resource: every new size
    of the window leaves one behind. *)
Definition resized : option (RandR * Pvfb * (Z * Z)) :=
  run_rr 96 [OpWindow true (memory_at 2) 800 600 60 None; OpWindow true (memory_at 3) 808 600 60 None;
             OpWindow true (memory_at 4) 816 600 60 None] (started, started_pvfb, (1280, 1024)).

Example old_modes_stay : (fun st => (fun m => refcnt <$> heap st.1.1 !! m) <$> modes st.1.1) <$> resized =
  Some [Some 1; Some 1; Some 1; Some 3].
Proof. vm_compute. reflexivity. Qed.

(** When [AddResource] has no memory, the array that [RRModeDestroy] looks through was
    already handed to [reallocarray]. *)
Example no_memory_for_resource :
  lorieCvt true {| me_init := true; me_mode := 2; me_array := true; me_resource := false; me_id := 1002 |} 800 600 60 started = None.
Proof. vm_compute. reflexivity. Qed.

(** A window of less than 8 pixels makes a screen without pixels. *)
Example screen_without_pixels :
  (fun st => st.2) <$> lorieConfigureNotify true true true (memory_at 2) 96 7 600 60 None (started, started_pvfb, (1280, 1024)) = Some (0, 600).
Proof. vm_compute. reflexivity. Qed.
