(* ===== verification/Touch.v ===== *)
(** * Touch events ([handleTouchEvent] of [lorie/cmdentrypoint.c], [dix/touch.c])

    The activity sends touches by the identifier Android gives to a finger. The
    handler scales the position and hands the event to the touch points of the
    device, which give the finger the identifier that X clients see. [double] and
    [float] are the binary formats of IEEE 754 as executable data. *)

From Stdlib Require Import SpecFloat.
From S2P Require Import Prelude Floats.

(** ** Touch points *)

(** [ValuatorMask]: the valuators that are set. *)
Abbreviation mask := (gmap Z double).

Definition XI_TouchBegin : Z := 18.
Definition XI_TouchUpdate : Z := 19.
Definition XI_TouchEnd : Z := 20.

(** [DDXTouchPointInfoRec]. *)
Record DDXTouchPointInfo := {
  active : bool; ddx_id : Z; client_id : Z; emulate_pointer : bool; valuators : mask;
}.

(** What is put into the event queue. *)
Record TouchEvent := { ev_type : Z; ev_touchid : Z; ev_emulated : bool; ev_mask : mask }.

(** [dev->last.touches] of the touch device, the static [next_client_id] of
    [TouchBeginDDXTouch] and the queued events, oldest first. *)
Record TouchDevice := {
  touches : list DDXTouchPointInfo; next_client_id : Z; queued : list TouchEvent;
}.

Definition set_touches (l : list DDXTouchPointInfo) (s : TouchDevice) : TouchDevice :=
  {| touches := l; next_client_id := next_client_id s; queued := queued s |}.

Definition TouchInitDDXTouchPoint : DDXTouchPointInfo :=
  {| active := false; ddx_id := 0; client_id := 0; emulate_pointer := false; valuators := ∅ |}.

(** The index of an active touch point. *)
Definition find_active (id : Z) (l : list DDXTouchPointInfo) : option nat :=
  fst <$> list_find (fun t => active t && (ddx_id t =? id) = true) l.

Definition TouchResizeQueue (s : TouchDevice) : TouchDevice :=
  set_touches (touches s ++ replicate (length (touches s) / 2 + 1) TouchInitDDXTouchPoint) s.

(** The scan for a free touch point: whether the pointer is emulated, and the
    first free index. *)
Fixpoint free_scan (l : list DDXTouchPointInfo) (i : nat) (emulate : bool) (ti : option nat) : bool * option nat :=
  match l with
  | [] => (emulate, ti)
  | t :: l =>
      let emulate := if active t then false else emulate in
      let ti := if active t then ti else match ti with None => Some i | Some _ => ti end in
      if negb emulate && (if ti is Some _ then true else false) then (emulate, ti)
      else free_scan l (S i) emulate ti
  end.

(** The outer loop; [resize_ok] is the answer of the allocation. *)
Fixpoint begin_loop (fuel : nat) (resize_ok : bool) (emulate : bool) (s : TouchDevice)
  : bool * option nat * TouchDevice :=
  match fuel with
  | O => (emulate, None, s)
  | S fuel =>
      let '(emulate, ti) := free_scan (touches s) 0 emulate None in
      match ti with
      | Some _ => (emulate, ti, s)
      | None => if resize_ok then begin_loop fuel resize_ok emulate (TouchResizeQueue s)
                else (emulate, None, s)
      end
  end.

(** [touchEmulatePointer] is TRUE and the device is direct. *)
Definition TouchBeginDDXTouch (resize_ok : bool) (id : Z) (s : TouchDevice) : option nat * TouchDevice :=
  match find_active id (touches s) with
  | Some _ => (None, s)
  | None =>
      let '(emulate, ti, s) := begin_loop 2 resize_ok true s in
      match ti with
      | None => (None, s)
      | Some i =>
          let n := i32 (next_client_id s + 1) in
          (Some i,
           {| touches := alter (fun t => {| active := true; ddx_id := id; client_id := next_client_id s;
                                            emulate_pointer := emulate; valuators := valuators t |}) i (touches s);
              next_client_id := if n =? 0 then 1 else n; queued := queued s |})
      end
  end.

Definition TouchFindByDDXID (resize_ok : bool) (id : Z) (create : bool) (s : TouchDevice) : option nat * TouchDevice :=
  match find_active id (touches s) with
  | Some i => (Some i, s)
  | None => if create then TouchBeginDDXTouch resize_ok id s else (None, s)
  end.

Definition TouchEndDDXTouch (t : DDXTouchPointInfo) : DDXTouchPointInfo :=
  {| active := false; ddx_id := ddx_id t; client_id := client_id t;
     emulate_pointer := emulate_pointer t; valuators := valuators t |}.

Definition set_valuators (m : mask) (t : DDXTouchPointInfo) : DDXTouchPointInfo :=
  {| active := active t; ddx_id := ddx_id t; client_id := client_id t;
     emulate_pointer := emulate_pointer t; valuators := m |}.

(** The position of an event: the valuators it sets, and the last ones of the
    touch point where it does not set x or y. *)
Definition fill_position (t : DDXTouchPointInfo) (m : mask) : mask :=
  m ∪ filter (fun p => p.1 = 0 \/ p.1 = 1) (valuators t).

(** [QueueTouchEvents]: [GetTouchEvents] of the enabled touch device, up to the
    transformation of the position, and the queue. *)
Definition QueueTouchEvents (resize_ok : bool) (type id : Z) (m : mask) (s : TouchDevice) : TouchDevice :=
  let '(found, s) := TouchFindByDDXID resize_ok id (type =? XI_TouchBegin) s in
  match found with
  | None => s
  | Some i =>
      match touches s !! i with
      | None => s
      | Some t =>
          if negb ((type =? XI_TouchBegin) || (type =? XI_TouchUpdate) || (type =? XI_TouchEnd)) then s
          else if (type =? XI_TouchBegin) && negb (bool_decide (is_Some (m !! 0)) && bool_decide (is_Some (m !! 1))) then s
          else
            let t1 := if type =? XI_TouchEnd then TouchEndDDXTouch t else t in
            {| touches := <[i := set_valuators (m ∪ valuators t) t1]> (touches s);
               next_client_id := next_client_id s;
               queued := queued s ++ [{| ev_type := type; ev_touchid := client_id t;
                                         ev_emulated := emulate_pointer t; ev_mask := fill_position t m |}] |}
      end
  end.

(** ** The handler *)

(** The screen is [width] by [height]; the event has the type, the identifier and
    the position that were sent. *)
Definition handleTouchEvent (resize_ok : bool) (width height : Z) (e : Z * Z * Z * Z) (s : TouchDevice) : TouchDevice :=
  let '(type, id, ex, ey) := e in
  let zero := f32_of_int 0 in
  let x := f64_of_f32 (fmax (fmin (f32_of_int ex) (f32_of_int width)) zero) in
  let y := f64_of_f32 (fmax (fmin (f32_of_int ey) (f32_of_int height)) zero) in
  let touch := i ← find_active id (touches s); touches s !! i in
  let duplicate :=
    match touch with
    | Some t => (type =? XI_TouchUpdate) &&
        match valuators t !! 0, valuators t !! 1 with
        | Some oldx, Some oldy => SFeqb oldx x && SFeqb oldy y
        | _, _ => false
        end
    | None => false
    end in
  if duplicate then s
  else
    let type := if (type =? XI_TouchUpdate) && (if touch is None then true else false) then XI_TouchBegin else type in
    if (type =? XI_TouchEnd) && (if touch is None then true else false) then s
    else
      let scale := fun v size => f64_div (f64_mul v (f64_of_int 0xffff)) (f64_of_f32 (f32_of_int size)) in
      QueueTouchEvents resize_ok type id (<[1 := scale y height]> (<[0 := scale x width]> ∅)) s.

(** A sequence of events with the answers of the allocations. *)
Definition handle_touches (width height : Z) (es : list (bool * (Z * Z * Z * Z))) (s : TouchDevice) : TouchDevice :=
  foldl (fun s e => handleTouchEvent e.1 width height e.2 s) s es.

(** ** The protocol of the touch events *)

(** A client sees the begin of a touch that is not open, then its updates, then its
    end; [None] when an event does not fit. *)
Definition track (o : option (gset Z)) (e : TouchEvent) : option (gset Z) :=
  open ← o;
  if ev_type e =? XI_TouchBegin then
    if bool_decide (ev_touchid e ∈ open) then None else Some ({[ev_touchid e]} ∪ open)
  else if bool_decide (ev_touchid e ∈ open) then
    Some (if ev_type e =? XI_TouchEnd then open ∖ {[ev_touchid e]} else open)
  else None.

Definition tracks (es : list TouchEvent) : option (gset Z) := foldl track (Some ∅) es.

(** The touches of the active fingers. *)
Definition active_ids (l : list DDXTouchPointInfo) : gset Z :=
  list_to_set (client_id <$> filter (fun t => active t = true) l).

(** No finger is announced while it is down. *)
Definition announced_once (width height : Z) (es : list (bool * (Z * Z * Z * Z))) (s : TouchDevice) : Prop :=
  forall es1 ok id x y es2, es = es1 ++ (ok, (XI_TouchBegin, id, x, y)) :: es2 ->
    find_active id (touches (handle_touches width height es1 s)) = None.

(** A device after [TouchInitDDXTouchPoint]. *)
Definition fresh_device (s : TouchDevice) : Prop :=
  Forall (fun t => active t = false) (touches s) /\ next_client_id s = 1 /\ queued s = [].

(** Active touch points are told apart by both identifiers, the identifiers that
    were given out lie below the next one, and the events so far fit. *)
Record device_ok (bound : Z) (s : TouchDevice) : Prop := {
  ok_distinct : forall i j t u, touches s !! i = Some t -> touches s !! j = Some u ->
    active t = true -> active u = true -> ddx_id t = ddx_id u \/ client_id t = client_id u -> i = j;
  ok_below : forall i t, touches s !! i = Some t -> active t = true -> client_id t < next_client_id s;
  ok_next : 1 <= next_client_id s <= bound;
  ok_tracks : tracks (queued s) = Some (active_ids (touches s));
}.

(** ** The reference: fingers and what is told about them *)

(** A finger that is down: the identifier of its touch, whether it emulates the pointer
    and the position it was last told at. *)
Record finger := { fi_touch : Z; fi_emulated : bool; fi_x : double; fi_y : double }.

Record Fingers := { fi_down : gmap Z finger; fi_next : Z; fi_told : list TouchEvent }.

(** A coordinate on the screen, and in the range of the device. *)
Definition on_screen (v size : Z) : double :=
  f64_of_f32 (fmax (fmin (f32_of_int v) (f32_of_int size)) (f32_of_int 0)).
Definition in_device (v size : Z) : double :=
  f64_div (f64_mul (on_screen v size) (f64_of_int 0xffff)) (f64_of_f32 (f32_of_int size)).

Definition tell (type : Z) (f : finger) : TouchEvent :=
  {| ev_type := type; ev_touchid := fi_touch f; ev_emulated := fi_emulated f;
     ev_mask := <[1 := fi_y f]> (<[0 := fi_x f]> ∅) |}.

(** An update or a begin of a finger that is up begins a touch with the next identifier,
    and the first finger emulates the pointer. A finger that is down is moved by an update,
    unless the position last told, which is in the range of the device, equals the new one
    on the screen; an end tells the position and lifts it. *)
Definition finger_step (width height : Z) (e : Z * Z * Z * Z) (r : Fingers) : Fingers :=
  let '(type, id, ex, ey) := e in
  let dx := in_device ex width in
  let dy := in_device ey height in
  match fi_down r !! id with
  | None =>
      if (type =? XI_TouchBegin) || (type =? XI_TouchUpdate) then
        let f := {| fi_touch := fi_next r; fi_emulated := bool_decide (fi_down r = ∅); fi_x := dx; fi_y := dy |} in
        {| fi_down := <[id := f]> (fi_down r); fi_next := fi_next r + 1; fi_told := fi_told r ++ [tell XI_TouchBegin f] |}
      else r
  | Some f =>
      let g := {| fi_touch := fi_touch f; fi_emulated := fi_emulated f; fi_x := dx; fi_y := dy |} in
      let told := {| fi_down := <[id := g]> (fi_down r); fi_next := fi_next r; fi_told := fi_told r ++ [tell type g] |} in
      if type =? XI_TouchUpdate then
        if SFeqb (fi_x f) (on_screen ex width) && SFeqb (fi_y f) (on_screen ey height) then r else told
      else if type =? XI_TouchEnd then
        {| fi_down := delete id (fi_down r); fi_next := fi_next r; fi_told := fi_told told |}
      else if type =? XI_TouchBegin then told else r
  end.

Definition fingers (width height : Z) (es : list (bool * (Z * Z * Z * Z))) : Fingers :=
  foldl (fun r e => finger_step width height e.2 r) {| fi_down := ∅; fi_next := 1; fi_told := [] |} es.

(** The touch points that are active are the fingers that are down. *)
Record shows (s : TouchDevice) (r : Fingers) : Prop := {
  sh_distinct : forall i j t u, touches s !! i = Some t -> touches s !! j = Some u ->
    active t = true -> active u = true -> ddx_id t = ddx_id u -> i = j;
  sh_point : forall i t, touches s !! i = Some t -> active t = true -> is_Some (fi_down r !! ddx_id t);
  sh_finger : forall id f, fi_down r !! id = Some f -> exists i t, touches s !! i = Some t /\ active t = true /\
    ddx_id t = id /\ client_id t = fi_touch f /\ emulate_pointer t = fi_emulated f /\
    valuators t !! 0 = Some (fi_x f) /\ valuators t !! 1 = Some (fi_y f);
  sh_next : next_client_id s = fi_next r;
  sh_told : queued s = fi_told r;
}.

(** ** Lemmas on touch points *)

Lemma find_active_Some id l i : find_active id l = Some i ->
  exists t, l !! i = Some t /\ active t = true /\ ddx_id t = id.
Proof.
  unfold find_active. intros H. destruct (list_find _ l) as [[j t]|] eqn:E; [|done]. injection H as ->.
  apply list_find_Some in E as (Hl & Ht & _). apply andb_prop in Ht as [Ha Hid]. exists t. split_and!; [done..|lia].
Qed.

Lemma find_active_None id l i t : find_active id l = None -> l !! i = Some t -> active t = true -> ddx_id t <> id.
Proof.
  unfold find_active. intros H Hl Ha E. destruct (list_find _ l) as [[j u]|] eqn:El; [done|].
  apply list_find_None in El. rewrite Forall_lookup in El. apply (El i t Hl). rewrite Ha, E. cbn. apply Z.eqb_refl.
Qed.

Lemma free_scan_spec l n em ti : match (free_scan l n em ti).2 with
  | Some k => ti = Some k \/ exists j t, k = (n + j)%nat /\ l !! j = Some t /\ active t = false
  | None => ti = None /\ Forall (fun t => active t = true) l
  end.
Proof.
  revert n em ti. induction l as [|t l IH]; intros n em ti; cbn [free_scan]; [destruct ti; [by left|by split]|].
  set (em' := if active t then false else em). set (ti' := if active t then ti else _).
  assert (Hti : match ti' with Some k => ti = Some k \/ (k = n /\ active t = false) | None => ti = None /\ active t = true end).
  { unfold ti'. destruct (active t), ti; eauto. }
  destruct (negb em' && _) eqn:Ec.
  - cbn. destruct ti' as [k|]; [|by rewrite andb_false_r in Ec].
    destruct Hti as [->|[-> Ha]]; [by left|]. right. exists 0%nat, t. split_and!; [lia|done|done].
  - specialize (IH (S n) em' ti'). destruct (free_scan l (S n) em' ti') as [? [k|]]; cbn in *.
    + destruct IH as [->|(j & u & -> & Hj & Hu)].
      * destruct Hti as [->|[-> Ha]]; [by left|]. right. exists 0%nat, t. split_and!; [lia|done|done].
      * right. exists (S j), u. split_and!; [lia|done|done].
    + destruct IH as [-> Hl]. destruct Hti as [-> Ha]. split; [done|by constructor].
Qed.

Lemma begin_loop_spec fuel ok em s : let '(_, ti, s') := begin_loop fuel ok em s in
  next_client_id s' = next_client_id s /\ queued s' = queued s /\
  (exists k, touches s' = touches s ++ replicate k TouchInitDDXTouchPoint) /\
  match ti with Some i => exists t, touches s' !! i = Some t /\ active t = false | None => True end.
Proof.
  revert em s. induction fuel as [|fuel IH]; intros em s; cbn [begin_loop].
  { split_and!; try done. exists 0%nat. by rewrite app_nil_r. }
  pose proof (free_scan_spec (touches s) 0 em None) as H.
  destruct (free_scan (touches s) 0 em None) as [em' [i|]]; cbn [snd] in H.
  - split_and!; try done; [exists 0%nat; by rewrite app_nil_r|].
    destruct H as [[=]|(j & t & -> & Hj & Ht)]. by exists t.
  - destruct ok; [|split_and!; try done; exists 0%nat; by rewrite app_nil_r].
    specialize (IH em' (TouchResizeQueue s)). destruct (begin_loop fuel true em' (TouchResizeQueue s)) as [[? ti] s'].
    destruct IH as (-> & -> & (k & E) & Hti). split_and!; [done|done| |done]. rewrite E. cbn [touches set_touches TouchResizeQueue].
    eexists. by rewrite <- app_assoc, <- replicate_add.
Qed.

(** With two rounds the loop finds a touch point whenever the allocation succeeds. *)
Lemma begin_loop_finds em s : (begin_loop 2 true em s).1.2 <> None.
Proof.
  cbn [begin_loop]. destruct (free_scan (touches s) 0 em None) as [em' [i|]] eqn:E; [done|].
  pose proof (free_scan_spec (touches (TouchResizeQueue s)) 0 em' None) as H.
  destruct (free_scan (touches (TouchResizeQueue s)) 0 em' None) as [em'' [i|]]; [done|]. exfalso.
  destruct H as [_ H]. cbn [touches set_touches TouchResizeQueue] in H.
  rewrite Nat.add_1_r in H. cbn [replicate] in H. apply Forall_app in H as [_ H]. by apply Forall_cons in H as [H _].
Qed.

Lemma elem_of_active_ids l c : c ∈ active_ids l <-> exists i t, l !! i = Some t /\ active t = true /\ client_id t = c.
Proof.
  unfold active_ids. rewrite elem_of_list_to_set, list_elem_of_fmap. split.
  - intros (t & -> & [Ha Ht]%list_elem_of_filter). apply list_elem_of_lookup in Ht as [i Hi]. eauto.
  - intros (i & t & Hi & Ha & <-). exists t. split; [done|]. apply list_elem_of_filter.
    split; [done|by eapply list_elem_of_lookup_2].
Qed.

Lemma active_ids_fresh l k : active_ids (l ++ replicate k TouchInitDDXTouchPoint) = active_ids l.
Proof.
  unfold active_ids. rewrite filter_app.
  assert (filter (fun t => active t = true) (replicate k TouchInitDDXTouchPoint) = []) as ->; [|by rewrite app_nil_r].
  induction k as [|k IH]; [done|]. cbn [replicate]. by rewrite filter_cons_False.
Qed.

(** ** The steps keep the device in order *)

Lemma grow_ok bound s s' k : device_ok bound s -> touches s' = touches s ++ replicate k TouchInitDDXTouchPoint ->
  next_client_id s' = next_client_id s -> queued s' = queued s -> device_ok bound s'.
Proof.
  intros [H1 H2 H3 H4] Et En Eq.
  assert (Hl : forall i t, touches s' !! i = Some t -> active t = true -> touches s !! i = Some t).
  { intros i t Hi Ha. rewrite Et in Hi. apply lookup_app_Some in Hi as [?|[_ Hi]]; [done|].
    apply lookup_replicate in Hi as [-> _]. done. }
  split; rewrite ?En, ?Eq.
  - intros i j t u Hi Hj Ha Hb. by eapply H1; eauto.
  - intros i t Hi Ha. by eapply H2; eauto.
  - done.
  - rewrite H4, Et. by rewrite active_ids_fresh.
Qed.

Lemma find_active_grow id l k : find_active id l = None ->
  find_active id (l ++ replicate k TouchInitDDXTouchPoint) = None.
Proof.
  intros H. destruct (find_active id (l ++ _)) as [i|] eqn:E; [|done].
  apply find_active_Some in E as (t & Hi & Ha & Hid). apply lookup_app_Some in Hi as [Hi|[_ Hi]].
  - by destruct (find_active_None _ _ _ _ H Hi Ha).
  - apply lookup_replicate in Hi as [-> _]. done.
Qed.

Lemma active_ids_insert l i t u : l !! i = Some t -> active u = true ->
  (forall c, c ∈ active_ids (<[i := u]> l) <->
     c = client_id u \/ exists j v, j <> i /\ l !! j = Some v /\ active v = true /\ client_id v = c).
Proof.
  intros Hi Hu c. rewrite elem_of_active_ids. assert (i < length l)%nat by by eapply lookup_lt_Some. split.
  - intros (j & v & Hj & Ha & <-). destruct (decide (j = i)) as [->|Hne].
    + rewrite list_lookup_insert_eq in Hj by done. injection Hj as ->. by left.
    + rewrite list_lookup_insert_ne in Hj by done. right. by exists j, v.
  - intros [->|(j & v & Hne & Hj & Ha & <-)].
    + exists i, u. by rewrite list_lookup_insert_eq.
    + exists j, v. by rewrite list_lookup_insert_ne.
Qed.

Lemma tracks_snoc es e : tracks (es ++ [e]) = track (tracks es) e.
Proof. unfold tracks. by rewrite foldl_snoc. Qed.

(** A new touch is opened at the free touch point [i]. *)
Lemma open_ok bound s i t u e : device_ok bound s -> touches s !! i = Some t -> active t = false ->
  find_active (ddx_id u) (touches s) = None -> active u = true -> client_id u = next_client_id s ->
  ev_type e = XI_TouchBegin -> ev_touchid e = client_id u ->
  device_ok (bound + 1) {| touches := <[i := u]> (touches s); next_client_id := next_client_id s + 1;
                           queued := queued s ++ [e] |}.
Proof.
  intros [H1 H2 H3 H4] Hi Ht Hf Hu Hc He Hid. assert (i < length (touches s))%nat by by eapply lookup_lt_Some.
  assert (Hother : forall j v, touches s !! j = Some v -> active v = true ->
    j <> i /\ ddx_id v <> ddx_id u /\ client_id v < client_id u).
  { intros j v Hj Ha. split_and!; [intros ->; congruence|by eapply find_active_None|]. rewrite Hc. by eapply H2. }
  split; cbn [touches next_client_id queued].
  - intros j k v w Hj Hk Hv Hw Heq. apply list_lookup_insert_Some in Hj as [(<- & <- & _)|[Hji Hj]];
      apply list_lookup_insert_Some in Hk as [(? & ? & _)|[Hki Hk]]; subst; try done.
    + destruct (Hother k w Hk Hw) as (_ & ? & ?). exfalso. destruct Heq; [congruence|lia].
    + destruct (Hother j v Hj Hv) as (_ & ? & ?). exfalso. destruct Heq; [congruence|lia].
    + by eapply H1.
  - intros j v Hj Ha. apply list_lookup_insert_Some in Hj as [(<- & <- & _)|[Hji Hj]]; [lia|].
    destruct (Hother j v Hj Ha) as (_ & _ & ?). lia.
  - lia.
  - rewrite tracks_snoc, H4. unfold track. cbn [mbind option_bind]. rewrite He, Hid. cbn [Z.eqb XI_TouchBegin Pos.eqb].
    rewrite bool_decide_eq_false_2.
    + f_equal. apply set_eq. intros c. rewrite elem_of_union, elem_of_singleton, elem_of_active_ids.
      rewrite (active_ids_insert _ _ _ _ Hi Hu). split; (intros [->|Hc']; [by left|right]).
      * destruct Hc' as (j & v & Hj & Ha & <-). exists j, v. split; [|done]. by destruct (Hother j v Hj Ha) as (? & _).
      * destruct Hc' as (j & v & _ & Hj & Ha & <-). by exists j, v.
    + rewrite elem_of_active_ids. intros (j & v & Hj & Ha & E). destruct (Hother j v Hj Ha) as (_ & _ & ?). lia.
Qed.

(** The open touch at [i] is moved, or closed. *)
Lemma move_ok bound s i t u e : device_ok bound s -> touches s !! i = Some t -> active t = true ->
  ddx_id u = ddx_id t -> client_id u = client_id t -> ev_touchid e = client_id t ->
  (active u = true /\ ev_type e = XI_TouchUpdate \/ active u = false /\ ev_type e = XI_TouchEnd) ->
  device_ok bound {| touches := <[i := u]> (touches s); next_client_id := next_client_id s; queued := queued s ++ [e] |}.
Proof.
  intros [H1 H2 H3 H4] Hi Ht Hd Hc Hid Hcase. assert (i < length (touches s))%nat by by eapply lookup_lt_Some.
  assert (Hat : forall j v, <[i := u]> (touches s) !! j = Some v -> active v = true ->
    exists w, touches s !! j = Some w /\ active w = true /\ ddx_id w = ddx_id v /\ client_id w = client_id v).
  { intros j v Hj Ha. apply list_lookup_insert_Some in Hj as [(<- & <- & _)|[Hji Hj]]; [by exists t|by exists v]. }
  split; cbn [touches next_client_id queued].
  - intros j k v w Hj Hk Hv Hw Heq. destruct (Hat j v Hj Hv) as (v' & Hj' & ? & ? & ?).
    destruct (Hat k w Hk Hw) as (w' & Hk' & ? & ? & ?). eapply (H1 j k v' w'); eauto. destruct Heq; [left|right]; congruence.
  - intros j v Hj Hv. destruct (Hat j v Hj Hv) as (v' & Hj' & ? & ? & <-). by eapply H2.
  - done.
  - rewrite tracks_snoc, H4. unfold track. cbn [mbind option_bind]. rewrite Hid.
    assert (client_id t ∈ active_ids (touches s)) as Hin by (apply elem_of_active_ids; by exists i, t).
    rewrite (bool_decide_eq_true_2 _ Hin). destruct Hcase as [[Hu ->]|[Hu ->]]; cbn; f_equal; apply set_eq; intros c.
    + rewrite (active_ids_insert _ _ _ _ Hi Hu), elem_of_active_ids, Hc. split.
      * intros (j & v & Hj & Ha & <-). destruct (decide (j = i)) as [->|]; [left; congruence|]. right. by exists j, v.
      * intros [->|(j & v & _ & Hj & Ha & <-)]; [by exists i, t|by exists j, v].
    + rewrite elem_of_difference, elem_of_singleton, !elem_of_active_ids. split.
      * intros [(j & v & Hj & Ha & <-) Hne]. exists j, v. split; [|done]. rewrite list_lookup_insert_ne; [done|].
        intros <-. congruence.
      * intros (j & v & Hj & Ha & <-). apply list_lookup_insert_Some in Hj as [(<- & <- & _)|[Hji Hj]]; [congruence|].
        split; [by exists j, v|]. intros Heq. apply Hji. eapply (H1 i j t v); eauto.
Qed.

Lemma insert_alter {A} (g : A -> A) (l : list A) i x : <[i := x]> (alter g i l) = <[i := x]> l.
Proof. revert i. induction l as [|a l IH]; intros [|i]; cbn; try done. f_equal. apply IH. Qed.

Lemma queue_ok bound ok type id m s : device_ok bound s -> bound < 2 ^ 31 - 1 ->
  (type = XI_TouchBegin -> find_active id (touches s) = None) -> is_Some (m !! 0) -> is_Some (m !! 1) ->
  exists bound', bound <= bound' <= bound + 1 /\ device_ok bound' (QueueTouchEvents ok type id m s).
Proof.
  intros Hok Hb Hbegin H0 H1. unfold QueueTouchEvents, TouchFindByDDXID.
  destruct (find_active id (touches s)) as [i|] eqn:Ef.
  - assert (type <> XI_TouchBegin) as Hne by (intros ->; discriminate (Hbegin eq_refl)).
    apply find_active_Some in Ef as (t & Hi & Ha & Hid). rewrite Hi.
    rewrite (proj2 (Z.eqb_neq type XI_TouchBegin)) by done. cbn [orb andb].
    exists bound. split; [lia|]. destruct (Z.eqb_spec type XI_TouchUpdate) as [->|Hu]; cbn [orb negb andb].
    + eapply move_ok; [done..|]. by left.
    + destruct (Z.eqb_spec type XI_TouchEnd) as [->|He]; cbn [orb negb andb]; [|done].
      eapply move_ok; [done..|]. by right.
  - destruct (Z.eqb_spec type XI_TouchBegin) as [->|Hne]; [|exists bound; split; [lia|done]].
    unfold TouchBeginDDXTouch. rewrite Ef. pose proof (begin_loop_spec 2 ok true s) as Hbl.
    destruct (begin_loop 2 ok true s) as [[em [i|]] s'].
    + destruct Hbl as (En & Eq & (k & Et) & (t & Hi & Ha)).
      assert (device_ok bound s') as Hok' by by eapply grow_ok.
      cbn [touches next_client_id]. rewrite list_lookup_alter_eq, Hi. cbn [fmap option_fmap option_map].
      cbn [Z.eqb XI_TouchBegin XI_TouchUpdate XI_TouchEnd Pos.eqb orb negb andb].
      rewrite (bool_decide_eq_true_2 _ H0), (bool_decide_eq_true_2 _ H1). cbn [andb negb].
      destruct (ok_next _ _ Hok') as [Hn1 Hn2].
      rewrite swrap_small by lia. rewrite (proj2 (Z.eqb_neq (next_client_id s' + 1) 0)) by lia.
      exists (bound + 1). split; [lia|]. cbn [touches next_client_id queued client_id emulate_pointer valuators].
      rewrite insert_alter.
      eapply open_ok; [exact Hok'|exact Hi|done| |done..]. cbn. rewrite Et. by apply find_active_grow.
    + destruct Hbl as (En & Eq & (k & Et) & _). exists bound. split; [lia|]. by eapply grow_ok.
Qed.

Lemma handle_ok bound ok width height type id ex ey s : device_ok bound s -> bound < 2 ^ 31 - 1 ->
  (type = XI_TouchBegin -> find_active id (touches s) = None) ->
  exists bound', bound <= bound' <= bound + 1 /\
    device_ok bound' (handleTouchEvent ok width height (type, id, ex, ey) s).
Proof.
  intros Hok Hb Hbegin. unfold handleTouchEvent.
  assert (Hsame : exists bound', bound <= bound' <= bound + 1 /\ device_ok bound' s) by (exists bound; split; [lia|done]).
  destruct (i ← find_active id (touches s); touches s !! i) as [t|] eqn:Et.
  - case_match; [done|]. rewrite !andb_false_r. apply queue_ok; [done..| |]; rewrite ?lookup_insert_eq; [|eauto].
    rewrite lookup_insert_ne by done. rewrite lookup_insert_eq. eauto.
  - assert (find_active id (touches s) = None) as Hf.
    { destruct (find_active id (touches s)) as [i|] eqn:Ef; [|done].
      apply find_active_Some in Ef as (t & Hi & _). cbn in Et. congruence. }
    rewrite !andb_true_r. case_match; [done|].
    apply queue_ok; [done|done|done| |]; rewrite ?lookup_insert_eq; [|eauto].
    rewrite lookup_insert_ne by done. rewrite lookup_insert_eq. eauto.
Qed.

Lemma fresh_ok s : fresh_device s -> device_ok 1 s.
Proof.
  intros (Ha & Hn & Hq). rewrite Forall_lookup in Ha. split.
  - intros i j t u Hi _ Ht. by rewrite (Ha i t Hi) in Ht.
  - intros i t Hi Ht. by rewrite (Ha i t Hi) in Ht.
  - lia.
  - rewrite Hq. cbn. f_equal. symmetry. apply set_eq. intros c. rewrite elem_of_active_ids.
    split; [|set_solver]. intros (i & t & Hi & Ht & _). by rewrite (Ha i t Hi) in Ht.
Qed.

Lemma announced_once_app width height es1 es2 s :
  announced_once width height (es1 ++ es2) s -> announced_once width height es1 s.
Proof. intros H l ok id x y l' E. apply (H l ok id x y (l' ++ es2)). by rewrite E, <- app_assoc. Qed.

Lemma handle_touches_ok width height es s : fresh_device s ->
  Z.of_nat (length es) < 2 ^ 31 - 1 -> announced_once width height es s ->
  exists bound, bound <= 1 + Z.of_nat (length es) /\ device_ok bound (handle_touches width height es s).
Proof.
  intros Hs. induction es as [|[ok [[[type id] x] y]] es IH] using rev_ind; intros Hl Ha.
  { exists 1. split; [done|]. by apply fresh_ok. }
  rewrite length_app in Hl |- *. cbn [length] in Hl |- *.
  destruct IH as (b & Hb & Hok); [lia|by eapply announced_once_app|].
  unfold handle_touches. rewrite foldl_snoc. cbn [fst snd]. fold (handle_touches width height es s).
  destruct (handle_ok b ok width height type id x y (handle_touches width height es s)) as (b' & Hb' & Hok'); [done|lia| |].
  - intros ->. by apply (Ha es ok id x y []).
  - exists b'. split; [lia|done].
Qed.

(** ** The steps show the reference *)

Lemma free_scan_emulate l n em ti :
  (free_scan l n em ti).1 = em && forallb (fun t => negb (active t)) l.
Proof.
  revert n em ti. induction l as [|t l IH]; intros n em ti; cbn [free_scan forallb]; [by rewrite andb_true_r|].
  destruct (negb _ && _) eqn:E.
  - cbn. apply andb_prop in E as [E _]. destruct (active t), em; done.
  - rewrite IH. by destruct (active t), em.
Qed.

Lemma begin_loop_emulate fuel em s : (begin_loop (S fuel) true em s).1.1 = em && forallb (fun t => negb (active t)) (touches s).
Proof.
  revert em s. induction fuel as [|fuel IH]; intros em s; cbn [begin_loop];
    pose proof (free_scan_emulate (touches s) 0 em None) as H;
    destruct (free_scan (touches s) 0 em None) as [em' [i|]]; cbn [fst] in H |- *; try done.
  cbn [begin_loop] in IH. rewrite IH, H. cbn [touches set_touches TouchResizeQueue]. rewrite forallb_app.
  assert (forallb (fun t => negb (active t)) (replicate (length (touches s) / 2 + 1) TouchInitDDXTouchPoint) = true) as ->.
  { by induction (_ + 1)%nat. }
  rewrite andb_true_r. by destruct em, (forallb _ _).
Qed.

Lemma shows_find s r id : shows s r ->
  match fi_down r !! id with
  | Some f => exists i t, find_active id (touches s) = Some i /\ touches s !! i = Some t /\ active t = true /\
      ddx_id t = id /\ client_id t = fi_touch f /\ emulate_pointer t = fi_emulated f /\
      valuators t !! 0 = Some (fi_x f) /\ valuators t !! 1 = Some (fi_y f)
  | None => find_active id (touches s) = None
  end.
Proof.
  intros [H1 H2 H3 _ _]. destruct (fi_down r !! id) as [f|] eqn:Ef.
  - destruct (H3 _ _ Ef) as (i & t & Hi & Ha & Hid & Hrest). exists i, t. split; [|done].
    destruct (find_active id (touches s)) as [j|] eqn:Ej.
    + apply find_active_Some in Ej as (u & Hj & Hu & Hidu). f_equal. eapply H1; try done. congruence.
    + by destruct (find_active_None _ _ _ _ Ej Hi Ha).
  - destruct (find_active id (touches s)) as [i|] eqn:Ei; [|done].
    apply find_active_Some in Ei as (t & Hi & Ha & <-). destruct (H2 _ _ Hi Ha). congruence.
Qed.

Lemma shows_none_active s r : shows s r -> forallb (fun t => negb (active t)) (touches s) = bool_decide (fi_down r = ∅).
Proof.
  intros [_ H2 H3 _ _]. case_bool_decide as He.
  - apply forallb_forall. intros t Ht. destruct (active t) eqn:Ha; [|done]. apply list_elem_of_In, list_elem_of_lookup in Ht as [i Hi].
    destruct (H2 _ _ Hi Ha) as [f Hf]. by rewrite He, lookup_empty in Hf.
  - apply not_true_is_false. intros Hall. apply He, map_empty. intros id. apply eq_None_not_Some. intros [f Hf].
    destruct (H3 _ _ Hf) as (i & t & Hi & Ha & _). rewrite forallb_forall in Hall.
    specialize (Hall t). rewrite Ha in Hall. discriminate Hall. apply list_elem_of_In. by eapply list_elem_of_lookup_2.
Qed.

Lemma shows_grow s s' r k : shows s r -> touches s' = touches s ++ replicate k TouchInitDDXTouchPoint ->
  next_client_id s' = next_client_id s -> queued s' = queued s -> shows s' r.
Proof.
  intros [H1 H2 H3 H4 H5] Et En Eq.
  assert (Hl : forall i t, touches s' !! i = Some t -> active t = true -> touches s !! i = Some t).
  { intros i t Hi Ha. rewrite Et in Hi. apply lookup_app_Some in Hi as [?|[_ Hi]]; [done|].
    apply lookup_replicate in Hi as [-> _]. done. }
  split; try congruence; eauto.
  intros id f Hf. destruct (H3 _ _ Hf) as (i & t & Hi & Hr). exists i, t. split; [|done].
  rewrite Et. by apply lookup_app_l_Some.
Qed.

(** A touch point at [i] becomes, or stays, that of the finger [id]. *)
Lemma shows_put s r i t u id f n told : shows s r -> touches s !! i = Some t ->
  (active t = true /\ ddx_id t = id \/ active t = false /\ fi_down r !! id = None) ->
  active u = true -> ddx_id u = id -> client_id u = fi_touch f -> emulate_pointer u = fi_emulated f ->
  valuators u !! 0 = Some (fi_x f) -> valuators u !! 1 = Some (fi_y f) ->
  shows {| touches := <[i := u]> (touches s); next_client_id := n; queued := told |}
        {| fi_down := <[id := f]> (fi_down r); fi_next := n; fi_told := told |}.
Proof.
  intros [H1 H2 H3 H4 H5] Hi Hcase Hu <- Hc He Hx Hy. assert (Hlt : (i < length (touches s))%nat) by by eapply lookup_lt_Some.
  assert (Hother : forall j v, j <> i -> touches s !! j = Some v -> active v = true -> ddx_id v <> ddx_id u).
  { intros j v Hne Hj Ha E. destruct Hcase as [[Ht Hd]|[Ht Hd]].
    - apply Hne. eapply H1; eauto. congruence.
    - destruct (H2 _ _ Hj Ha). congruence. }
  split; cbn [touches next_client_id queued fi_down fi_next fi_told]; [| | |done|done].
  - intros j k v w Hj Hk Hv Hw Heq. apply list_lookup_insert_Some in Hj as [(<- & <- & _)|[Hji Hj]];
      apply list_lookup_insert_Some in Hk as [(? & ? & _)|[Hki Hk]]; subst; try done.
    + by destruct (Hother k w (not_eq_sym Hki) Hk Hw).
    + by destruct (Hother j v (not_eq_sym Hji) Hj Hv).
    + by eapply H1.
  - intros j v Hj Hv. apply list_lookup_insert_Some in Hj as [(<- & <- & _)|[Hji Hj]]; [rewrite lookup_insert_eq; eauto|].
    rewrite lookup_insert_ne by (apply not_eq_sym; eapply Hother; eauto). by eapply H2.
  - intros id g Hg. apply lookup_insert_Some in Hg as [[<- <-]|[Hne Hg]].
    + exists i, u. by rewrite list_lookup_insert_eq.
    + destruct (H3 _ _ Hg) as (j & v & Hj & Hv & Hd & Hrest). exists j, v. split; [|done].
      rewrite list_lookup_insert_ne; [done|]. intros <-. rewrite Hi in Hj. injection Hj as <-.
      destruct Hcase as [[_ Hd']|[Hv' _]]; congruence.
Qed.

(** The touch point of a finger becomes free. *)
Lemma shows_lift s r i t u n told : shows s r -> touches s !! i = Some t -> active t = true -> active u = false ->
  shows {| touches := <[i := u]> (touches s); next_client_id := n; queued := told |}
        {| fi_down := delete (ddx_id t) (fi_down r); fi_next := n; fi_told := told |}.
Proof.
  intros [H1 H2 H3 H4 H5] Hi Ht Hu.
  assert (Hl : forall j v, <[i := u]> (touches s) !! j = Some v -> active v = true -> j <> i /\ touches s !! j = Some v).
  { intros j v Hj Hv. apply list_lookup_insert_Some in Hj as [(<- & <- & _)|[Hji Hj]]; [congruence|]. by split; [apply not_eq_sym|]. }
  split; cbn [touches next_client_id queued fi_down fi_next fi_told]; [| | |done|done].
  - intros j k v w Hj Hk Hv Hw Heq. destruct (Hl _ _ Hj Hv), (Hl _ _ Hk Hw). by eapply H1.
  - intros j v Hj Hv. destruct (Hl _ _ Hj Hv) as [Hne Hj']. rewrite lookup_delete_ne; [by eapply H2|].
    intros E. by apply Hne, eq_sym, (H1 _ _ _ _ Hi Hj' Ht Hv).
  - intros id g Hg. apply lookup_delete_Some in Hg as [Hne Hg]. destruct (H3 _ _ Hg) as (j & v & Hj & Hv & Hd & Hrest).
    exists j, v. split; [|done]. rewrite list_lookup_insert_ne; [done|]. intros <-. congruence.
Qed.

Lemma fill_position_both t (x y : double) : fill_position t (<[1 := y]> (<[0 := x]> ∅)) = <[1 := y]> (<[0 := x]> ∅).
Proof.
  unfold fill_position. apply map_eq. intros k. rewrite lookup_union.
  destruct (decide (k = 1)) as [->|H1]; [rewrite lookup_insert_eq; by destruct (filter _ _ !! 1)|].
  destruct (decide (k = 0)) as [->|H0].
  - rewrite lookup_insert_ne, lookup_insert_eq by done. by destruct (filter _ _ !! 0).
  - rewrite !lookup_insert_ne, lookup_empty by done. destruct (filter _ _ !! k) eqn:E; [|done].
    apply map_lookup_filter_Some in E as [_ [?|?]]; cbn in *; congruence.
Qed.

Lemma position_valuators (x y : double) (m : mask) :
  (<[1 := y]> (<[0 := x]> ∅) ∪ m) !! 0 = Some x /\ (<[1 := y]> (<[0 := x]> ∅) ∪ m) !! 1 = Some y.
Proof.
  rewrite !lookup_union. rewrite (lookup_insert_ne _ 1 0), !lookup_insert_eq by done.
  destruct (m !! 0), (m !! 1); done.
Qed.

Definition moved (f : finger) (x y : double) : finger :=
  {| fi_touch := fi_touch f; fi_emulated := fi_emulated f; fi_x := x; fi_y := y |}.

(** An event of a finger that is down. *)
Lemma queue_known ok s r id f type x y : shows s r -> fi_down r !! id = Some f ->
  shows (QueueTouchEvents ok type id (<[1 := y]> (<[0 := x]> ∅)) s)
    (if (type =? XI_TouchBegin) || (type =? XI_TouchUpdate) then
       {| fi_down := <[id := moved f x y]> (fi_down r); fi_next := fi_next r; fi_told := fi_told r ++ [tell type (moved f x y)] |}
     else if type =? XI_TouchEnd then
       {| fi_down := delete id (fi_down r); fi_next := fi_next r; fi_told := fi_told r ++ [tell type (moved f x y)] |}
     else r).
Proof.
  intros Hs Hf. pose proof (shows_find s r id Hs) as H. rewrite Hf in H.
  destruct H as (i & t & Hfind & Hi & Ha & Hid & Hc & He & _).
  destruct (position_valuators x y (valuators t)) as [Hx Hy].
  unfold QueueTouchEvents, TouchFindByDDXID. rewrite Hfind, Hi, fill_position_both, <- (sh_next _ _ Hs), <- (sh_told _ _ Hs), Hc, He.
  rewrite (bool_decide_eq_true_2 (is_Some (_ !! 0))), (bool_decide_eq_true_2 (is_Some (_ !! 1)))
    by (rewrite ?(lookup_insert_ne _ 1 0), lookup_insert_eq by done; eauto).
  destruct (Z.eqb_spec type XI_TouchBegin) as [->|Hb]; [|destruct (Z.eqb_spec type XI_TouchUpdate) as [->|Hu]];
    [| |destruct (Z.eqb_spec type XI_TouchEnd) as [->|Hn]; [|done]]; cbn [orb andb negb Z.eqb Pos.eqb XI_TouchUpdate XI_TouchBegin XI_TouchEnd].
  1,2: eapply (shows_put s r i t _ id (moved f x y)); try done; by left.
  rewrite <- Hid. eapply shows_lift; done.
Qed.

(** The begin of a finger that is up. *)
Lemma queue_begin s r id x y : shows s r -> fi_down r !! id = None -> 1 <= fi_next r < 2 ^ 31 - 1 ->
  let f := {| fi_touch := fi_next r; fi_emulated := bool_decide (fi_down r = ∅); fi_x := x; fi_y := y |} in
  shows (QueueTouchEvents true XI_TouchBegin id (<[1 := y]> (<[0 := x]> ∅)) s)
    {| fi_down := <[id := f]> (fi_down r); fi_next := fi_next r + 1; fi_told := fi_told r ++ [tell XI_TouchBegin f] |}.
Proof.
  intros Hs Hf Hn f. pose proof (shows_find s r id Hs) as Hfind. rewrite Hf in Hfind.
  unfold QueueTouchEvents, TouchFindByDDXID, TouchBeginDDXTouch. rewrite Hfind. cbn [Z.eqb XI_TouchBegin Pos.eqb].
  pose proof (begin_loop_spec 2 true true s) as Hbl. pose proof (begin_loop_emulate 1 true s) as Hem.
  pose proof (begin_loop_finds true s) as Hfs.
  destruct (begin_loop 2 true true s) as [[em [i|]] s']; [|done]. clear Hfs. cbn [fst] in Hem.
  destruct Hbl as (En & Eq & (k & Et) & (t & Hi & Ha)).
  rewrite (shows_none_active _ _ Hs) in Hem. cbn [andb] in Hem. subst em.
  assert (Hs' : shows s' r) by by eapply shows_grow.
  cbn [touches next_client_id queued]. rewrite list_lookup_alter_eq, Hi. cbn [fmap option_fmap option_map].
  cbn [XI_TouchBegin XI_TouchUpdate XI_TouchEnd orb andb negb client_id emulate_pointer valuators].
  rewrite fill_position_both, insert_alter, (sh_next _ _ Hs'), (sh_told _ _ Hs').
  rewrite (bool_decide_eq_true_2 (is_Some (_ !! 0))), (bool_decide_eq_true_2 (is_Some (_ !! 1)))
    by (rewrite ?(lookup_insert_ne _ 1 0), lookup_insert_eq by done; eauto).
  cbn [andb negb]. rewrite swrap_small by lia. rewrite (proj2 (Z.eqb_neq (fi_next r + 1) 0)) by lia.
  destruct (position_valuators x y (valuators t)) as [Hx Hy].
  eapply (shows_put s' r i t _ id f); try done. by right.
Qed.

Lemma handle_shows width height e s r : shows s r -> 1 <= fi_next r < 2 ^ 31 - 1 ->
  shows (handleTouchEvent true width height e s) (finger_step width height e r) /\
  fi_next r <= fi_next (finger_step width height e r) <= fi_next r + 1.
Proof.
  destruct e as [[[type id] ex] ey]. intros Hs Hn. unfold handleTouchEvent, finger_step. cbv beta zeta.
  fold (on_screen ex width) (on_screen ey height). fold (in_device ex width) (in_device ey height).
  pose proof (shows_find s r id Hs) as H. destruct (fi_down r !! id) as [f|] eqn:Ef.
  - destruct H as (i & t & -> & Hi & _ & _ & _ & _ & Hx & Hy). cbn [mbind option_bind]. rewrite Hi.
    change (@lookup Z spec_float) with (@lookup Z double). rewrite Hx, Hy.
    rewrite !andb_false_r.
    pose proof (queue_known true s r id f type (in_device ex width) (in_device ey height) Hs Ef) as Hq. unfold moved in Hq.
    destruct (Z.eqb_spec type XI_TouchUpdate) as [->|Hu]; cbn [andb].
    + destruct (SFeqb _ _ && SFeqb _ _); [split; [done|lia]|]. split; [exact Hq|cbn; lia].
    + destruct (Z.eqb_spec type XI_TouchBegin) as [->|Hb]; [split; [exact Hq|cbn; lia]|].
      cbn [orb] in Hq. destruct (Z.eqb_spec type XI_TouchEnd); (split; [exact Hq|cbn; lia]).
  - rewrite H. cbn [mbind option_bind]. rewrite !andb_true_r.
    pose proof (queue_begin s r id (in_device ex width) (in_device ey height) Hs Ef Hn) as Hq.
    destruct (Z.eqb_spec type XI_TouchUpdate) as [->|Hu]; [split; [exact Hq|cbn; lia]|].
    rewrite orb_false_r. destruct (Z.eqb_spec type XI_TouchEnd) as [->|He]; [split; [done|cbn; lia]|].
    destruct (Z.eqb_spec type XI_TouchBegin) as [->|Hb]; [split; [exact Hq|cbn; lia]|].
    split; [|lia]. unfold QueueTouchEvents, TouchFindByDDXID. by rewrite H, (proj2 (Z.eqb_neq _ _) Hb).
Qed.

Lemma fresh_shows s : fresh_device s -> shows s {| fi_down := ∅; fi_next := 1; fi_told := [] |}.
Proof.
  intros (Ha & Hn & Hq). rewrite Forall_lookup in Ha. split; [| | |done|done].
  - intros i j t u Hi _ Ht. by rewrite (Ha i t Hi) in Ht.
  - intros i t Hi Ht. by rewrite (Ha i t Hi) in Ht.
  - intros id f Hf. cbn [fi_down] in Hf. by rewrite lookup_empty in Hf.
Qed.

Lemma handle_touches_show width height es s : fresh_device s -> Z.of_nat (length es) < 2 ^ 31 - 1 ->
  Forall (fun e => e.1 = true) es ->
  shows (handle_touches width height es s) (fingers width height es) /\
  1 <= fi_next (fingers width height es) <= 1 + Z.of_nat (length es).
Proof.
  intros Hs. induction es as [|[ok e] es IH] using rev_ind; intros Hl Hok.
  { split; [by apply fresh_shows|cbn; lia]. }
  rewrite length_app in Hl |- *. cbn [length] in Hl |- *. apply Forall_app in Hok as [Hes Hok].
  apply Forall_cons in Hok as [Hok _]. cbn in Hok. subst ok. destruct IH as [H1 H2]; [lia|done|].
  unfold handle_touches, fingers. rewrite !foldl_snoc. cbn [fst snd].
  fold (handle_touches width height es s) (fingers width height es).
  destruct (handle_shows width height e _ _ H1) as [H3 H4]; [lia|]. split; [exact H3|lia].
Qed.

(** ** Theorems *)

(** C5: on a fresh device whose allocations succeed, every sequence of touch events is told to the
    X clients as the reference tells it for fingers: a finger that is up begins a touch under a new
    identifier even when the activity sent only an update, a finger that is down is moved, apart
    from the updates that the test for duplicates drops, an end is told once, and nothing else
    is told. And if no finger is announced while it is down, what is told is for every touch a begin,
    updates and an end under an identifier that no other open touch has, whatever the allocations
    answer. *)
Theorem touch_protocol width height es s :
  fresh_device s -> Z.of_nat (length es) < 2 ^ 31 - 1 ->
  let s' := handle_touches width height es s in
  (Forall (fun e => e.1 = true) es ->
     queued s' = fi_told (fingers width height es) /\
     forall id, match fi_down (fingers width height es) !! id with
                | Some f => exists i t, find_active id (touches s') = Some i /\ touches s' !! i = Some t /\
                    client_id t = fi_touch f
                | None => find_active id (touches s') = None
                end) /\
  (announced_once width height es s -> tracks (queued s') = Some (active_ids (touches s'))).
Proof.
  intros Hs Hl s'. split.
  - intros Hok. destruct (handle_touches_show width height es s Hs Hl Hok) as [Hsh _]. split; [apply Hsh|].
    intros id. pose proof (shows_find _ _ id Hsh) as H. destruct (fi_down _ !! id) as [f|]; [|done].
    destruct H as (i & t & ? & ? & ? & ? & ? & _). by exists i, t.
  - intros Ha. destruct (handle_touches_ok width height es s Hs Hl Ha) as (b & _ & [_ _ _ H4]). done.
Qed.

(** ** Witness *)

(** The device of [lorieTouchProc]: 20 touch points. *)
Definition demo_device : TouchDevice :=
  {| touches := replicate 20 TouchInitDDXTouchPoint; next_client_id := 1; queued := [] |}.

(** Finger 3 moves without a begin, finger 4 begins, finger 3 ends twice. *)
Definition demo_touches : list (bool * (Z * Z * Z * Z)) :=
  [(true, (XI_TouchUpdate, 3, 10, 10)); (true, (XI_TouchBegin, 4, 10, 500));
   (true, (XI_TouchEnd, 3, 1, 1)); (true, (XI_TouchEnd, 3, 1, 1))].

Lemma demo_announced : announced_once 1000 500 demo_touches demo_device.
Proof.
  intros es1 ok id x y es2 E. destruct es1 as [|e1 [|e2 [|e3 [|e4 es1]]]]; cbn in E; try discriminate.
  - injection E as <- <- <- <- <- <-. by vm_compute.
  - by destruct es1.
Qed.

Lemma touch_protocol_witness :
  map (fun e => (ev_type e, ev_touchid e)) (fi_told (fingers 1000 500 demo_touches)) =
    [(XI_TouchBegin, 1); (XI_TouchBegin, 2); (XI_TouchEnd, 1)] /\
  queued (handle_touches 1000 500 demo_touches demo_device) = fi_told (fingers 1000 500 demo_touches) /\
  tracks (queued (handle_touches 1000 500 demo_touches demo_device))
    = Some (active_ids (touches (handle_touches 1000 500 demo_touches demo_device))).
Proof.
  destruct (touch_protocol 1000 500 demo_touches demo_device) as [H1 H2];
    [split_and!; [by apply Forall_replicate|done|done]|by vm_compute|].
  split; [by vm_compute|]. split; [apply H1; by repeat constructor|apply H2, demo_announced].
Defined.

(** The test for duplicates compares the scaled position that is stored with the
    position on the screen: a finger that has not moved is reported again, and on a
    screen of 771 by 771 the move from (1,1) to (85,85) is taken for a duplicate. *)
Example duplicate_test_mixes_units :
  let reports := fun width height es => length (queued (handle_touches width height es demo_device)) in
  let still := [(true, (XI_TouchBegin, 3, 10, 10)); (true, (XI_TouchUpdate, 3, 10, 10))] in
  let moved := [(true, (XI_TouchBegin, 3, 1, 1)); (true, (XI_TouchUpdate, 3, 85, 85))] in
  reports 1000 500 still = 2%nat /\ reports 771 771 moved = 1%nat.
Proof. by vm_compute. Qed.
