(* ===== verification/EventQueue.v ===== *)
(** * The queue of input events ([xserver/mi/mieq.c])

    Every key, button, motion and touch event that [lorie/cmdentrypoint.c] and
    [lorie/InputXKB.c] make goes through this ring buffer. The input thread enqueues
    under [input_lock]; the server thread takes the events out and processes them
    without the lock ([EventDelivery]). The slots of the ring point to buffers on the
    heap, so that the use of a freed buffer is visible ([None]). The lemmas refine every
    operation to one on the sequence of the entries. *)

From S2P Require Import Prelude.

(** ** Data *)

Inductive EventType :=
  | ET_KeyPress | ET_KeyRelease | ET_ButtonPress | ET_ButtonRelease | ET_Motion
  | ET_TouchBegin | ET_TouchUpdate | ET_TouchEnd | ET_TouchOwnership
  | ET_Enter | ET_Leave | ET_FocusIn | ET_FocusOut | ET_ProximityIn | ET_ProximityOut
  | ET_DeviceChanged | ET_Hierarchy | ET_DGAEvent
  | ET_RawKeyPress | ET_RawKeyRelease | ET_RawButtonPress | ET_RawButtonRelease | ET_RawMotion
  | ET_RawTouchBegin | ET_RawTouchUpdate | ET_RawTouchEnd
  | ET_XQuartz | ET_BarrierHit | ET_BarrierLeave
  | ET_GesturePinchBegin | ET_GesturePinchUpdate | ET_GesturePinchEnd
  | ET_GestureSwipeBegin | ET_GestureSwipeUpdate | ET_GestureSwipeEnd.

#[export] Instance EventType_eq_dec : EqDecision EventType.
Proof. solve_decision. Defined.

(** [InternalEvent]: the fields that the queue looks at, [body] standing for the rest. *)
Record InternalEvent := {
  type : EventType; time : Z; deviceid : Z; button : Z; pointer_emulated : bool;
  root_x : Z; root_y : Z; body : Z;
}.

#[export] Instance InternalEvent_eq_dec : EqDecision InternalEvent.
Proof. solve_decision. Defined.

Definition set_time (t : Z) (e : InternalEvent) : InternalEvent :=
  {| type := type e; time := t; deviceid := deviceid e; button := button e; pointer_emulated := pointer_emulated e;
     root_x := root_x e; root_y := root_y e; body := body e |}.
Definition set_deviceid (d : Z) (e : InternalEvent) : InternalEvent :=
  {| type := type e; time := time e; deviceid := d; button := button e; pointer_emulated := pointer_emulated e;
     root_x := root_x e; root_y := root_y e; body := body e |}.
Definition set_button (b : Z) (e : InternalEvent) : InternalEvent :=
  {| type := type e; time := time e; deviceid := deviceid e; button := b; pointer_emulated := pointer_emulated e;
     root_x := root_x e; root_y := root_y e; body := body e |}.

(** The zeroed memory that [InitEventList] gives. *)
Definition no_event : InternalEvent :=
  {| type := ET_KeyPress; time := 0; deviceid := 0; button := 0; pointer_emulated := false;
     root_x := 0; root_y := 0; body := 0 |}.

(** Pointers are addresses, 0 for NULL. *)
Record EventRec := { events : Z; pScreen : Z; pDev : Z }.

(** [array] is [miEventQueue.events] (NULL when [nevents] is 0) and [buffers] the event
    buffers that are allocated. *)
Record EventQueue := {
  head : Z; tail : Z; lastEventTime : Z; lastMotion : Z; array : list EventRec; nevents : Z; dropped : Z;
  buffers : gmap Z InternalEvent;
}.

Definition set_ring (h t : Z) (a : list EventRec) (n : Z) (q : EventQueue) : EventQueue :=
  {| head := h; tail := t; lastEventTime := lastEventTime q; lastMotion := lastMotion q; array := a; nevents := n;
     dropped := dropped q; buffers := buffers q |}.
Definition set_buffers (m : gmap Z InternalEvent) (q : EventQueue) : EventQueue :=
  {| head := head q; tail := tail q; lastEventTime := lastEventTime q; lastMotion := lastMotion q; array := array q;
     nevents := nevents q; dropped := dropped q; buffers := m |}.
Definition set_last (t m : Z) (q : EventQueue) : EventQueue :=
  {| head := head q; tail := tail q; lastEventTime := t; lastMotion := m; array := array q;
     nevents := nevents q; dropped := dropped q; buffers := buffers q |}.
Definition set_dropped (n : Z) (q : EventQueue) : EventQueue :=
  {| head := head q; tail := tail q; lastEventTime := lastEventTime q; lastMotion := lastMotion q; array := array q;
     nevents := nevents q; dropped := n; buffers := buffers q |}.

(** ** The ring *)

Definition QUEUE_INITIAL_SIZE : Z := 512.

Definition mieqNumEnqueued (q : EventQueue) : Z :=
  if negb (nevents q =? 0) then
    let n := u64 (u64 (i32 (tail q - head q)) + nevents q) in
    if nevents q <=? n then u64 (n - nevents q) else n
  else 0.

(** Freeing the buffers of the first [i] slots; freeing NULL does nothing, freeing a
    buffer that is not allocated is an error. *)
Fixpoint free_slots (a : list EventRec) (i : nat) (m : gmap Z InternalEvent) : option (gmap Z InternalEvent) :=
  match i, a with
  | O, _ => Some m
  | S i, s :: a =>
      if events s =? 0 then free_slots a i m
      else _ ← m !! events s; free_slots a i (delete (events s) m)
  | S _, [] => None
  end.

(** The loop over the new portion: slots [i], [i+1], ... of [a] get buffers; [mem i] is
    the answer of [InitEventList]. [inr] is the array and the heap when one fails at [i]. *)
Fixpoint init_slots (mem : Z -> Z) (fuel : nat) (i : Z) (a : list EventRec) (m : gmap Z InternalEvent)
  : option (list EventRec * gmap Z InternalEvent + Z * list EventRec * gmap Z InternalEvent) :=
  match fuel with
  | O => Some (inl (a, m))
  | S fuel =>
      if mem i =? 0 then Some (inr (i, a, m))
      else
        a ← wrz a i {| events := mem i; pScreen := 0; pDev := 0 |};
        init_slots mem fuel (i + 1) a (<[mem i := no_event]> m)
  end.

(** [calloc_ok] says whether there is memory for the array. The result is the Bool. *)
Definition mieqGrowQueue (calloc_ok : bool) (mem : Z -> Z) (new_nevents : Z) (q : EventQueue) : option (bool * EventQueue) :=
  if new_nevents <=? nevents q then Some (false, q)
  else if negb calloc_ok then Some (false, q)
  else
    let new_events := replicate (Z.to_nat new_nevents) {| events := 0; pScreen := 0; pDev := 0 |} in
    let n_enqueued := mieqNumEnqueued q in
    let first_hunk := nevents q - head q in
    a1 ← slice (array q) (head q) first_hunk;
    new_events ← blit new_events 0 a1;
    a2 ← slice (array q) 0 (head q);
    new_events ← blit new_events first_hunk a2;
    r ← init_slots mem (Z.to_nat (new_nevents - nevents q)) (nevents q) new_events (buffers q);
    match r with
    | inl (new_events, m) => Some (true, set_ring 0 (i32 n_enqueued) new_events new_nevents (set_buffers m q))
    | inr (i, new_events, m) =>
        m ← free_slots new_events (Z.to_nat i) m;
        Some (false, set_buffers m q)
    end.

(** ** Devices *)

Inductive device_type := MASTER_POINTER | MASTER_KEYBOARD | SLAVE.

#[export] Instance device_type_eq_dec : EqDecision device_type.
Proof. solve_decision. Defined.

(** [which] of [GetMaster]. *)
Inductive which := WANT_POINTER | WANT_KEYBOARD | MASTER_ATTACHED | POINTER_OR_FLOAT | KEYBOARD_OR_FLOAT.

(** [sprite] is [spriteInfo->sprite]; [button_map] is [button->map] of a device with buttons. *)
Record Device := {
  id : Z; enabled : bool; dtype : device_type; master : Z; paired : Z; sprite : Z;
  button_map : option (list Z); lastSlave : Z;
}.

(** [pEnqueueScreen] and [pDequeueScreen]. *)
Record Sprite := { enqueue_screen : Z; dequeue_screen : Z }.

Record Devices := { devices : gmap Z Device; sprites : gmap Z Sprite }.

Definition sprite_of (d : Z) (s : Devices) : option Sprite := v ← devices s !! d; sprites s !! sprite v.

Definition IsMaster (v : Device) : bool := match dtype v with SLAVE => false | _ => true end.

(** 0 for NULL. *)
Definition GetMaster (d : Z) (w : which) (s : Devices) : option Z :=
  v ← devices s !! d;
  let m := if IsMaster v then d else master v in
  if m =? 0 then Some (match w with POINTER_OR_FLOAT | KEYBOARD_OR_FLOAT => d | _ => 0 end)
  else
    mv ← devices s !! m;
    match w, dtype mv with
    | MASTER_ATTACHED, _ => Some m
    | (WANT_KEYBOARD | KEYBOARD_OR_FLOAT), MASTER_KEYBOARD => Some m
    | (WANT_POINTER | POINTER_OR_FLOAT), MASTER_POINTER => Some m
    | _, _ => Some (paired mv)
    end.

Definition IsFloating (d : Z) (s : Devices) : option bool :=
  v ← devices s !! d;
  if IsMaster v then Some false else m ← GetMaster d WANT_KEYBOARD s; Some (m =? 0).

(** ** Enqueueing *)

Definition enqueue_screen_of (dev : Z) (ds : Devices) : option Z :=
  if dev =? 0 then Some 0 else enqueue_screen <$> sprite_of dev ds.

(** The event goes to the slot [oldtail]; the caller's event gets a new time. *)
Definition put_event (oldtail isMotion dev : Z) (e : InternalEvent) (ds : Devices) (q : EventQueue)
  : option (InternalEvent * EventQueue) :=
  slot ← rdz (array q) oldtail;
  _ ← buffers q !! events slot;
  let evt := e in
  let q := set_buffers (<[events slot := evt]> (buffers q)) q in
  let e := if (time e <? lastEventTime q) && (lastEventTime q - time e <? 10000)
           then set_time (lastEventTime q) e else e in
  screen ← enqueue_screen_of dev ds;
  a ← wrz (array q) oldtail {| events := events slot; pScreen := screen; pDev := dev |};
  Some (e, set_last (time evt) isMotion
             (set_ring (head q) (i32 (u32 (oldtail + 1) mod nevents q)) a (nevents q) q)).

(** The device [dev] has made [e]; [e] with its new time is the caller's event
    afterwards. [calloc_ok] and [mem] are the answers when the ring must grow. *)
Definition mieqEnqueue (calloc_ok : bool) (mem : Z -> Z) (dev : Z) (e : InternalEvent) (ds : Devices) (q : EventQueue)
  : option (InternalEvent * EventQueue) :=
  let n_enqueued := mieqNumEnqueued q in
  isMotion ← (if decide (type e = ET_Motion) then id <$> devices ds !! dev else Some 0);
  r ← (if negb (isMotion =? 0) && (isMotion =? lastMotion q) && negb (u32 (tail q) =? u32 (head q)) then
         Some (true, u32 (u32 (tail q) - 1) mod nevents q, q)
       else if n_enqueued + 1 =? nevents q then
         r ← mieqGrowQueue calloc_ok mem (u64 (Z.shiftl (nevents q) 1)) q;
         let '(ok, q) := r in
         Some (ok, u32 (tail q), q)
       else Some (true, u32 (tail q), q));
  let '(ok, oldtail, q) := r in
  if negb ok then Some (e, set_dropped (u64 (dropped q + 1)) q)
  else put_event oldtail isMotion dev e ds q.

(** [mieqSwitchScreen]. *)
Definition mieqSwitchScreen (d screen : Z) (set_dequeue_screen : bool) (s : Devices) : option Devices :=
  v ← devices s !! d;
  sp ← sprites s !! sprite v;
  Some {| devices := devices s;
          sprites := <[sprite v := {| enqueue_screen := screen;
                                      dequeue_screen := if set_dequeue_screen then screen else dequeue_screen sp |}]> (sprites s) |}.

(** The head of the queue is taken out, under the lock; [None] inside when it is empty. *)
Definition take_event (q : EventQueue) : option (option (InternalEvent * Z * Z) * EventQueue) :=
  if head q =? tail q then Some (None, q)
  else
    slot ← rdz (array q) (head q);
    event ← buffers q !! events slot;
    Some (Some (event, pDev slot, pScreen slot),
          set_ring (i32 (u64 (head q + 1) mod nevents q)) (tail q) (array q) (nevents q) q).

Definition mieqInit (mem : Z -> Z) (now : Z) : option (bool * EventQueue) :=
  mieqGrowQueue true mem QUEUE_INITIAL_SIZE
    {| head := 0; tail := 0; lastEventTime := now; lastMotion := 0; array := []; nevents := 0; dropped := 0; buffers := ∅ |}.

(** ** The ring as a sequence *)

(** An entry: the event with its device and its screen. *)
Abbreviation entry := (InternalEvent * Z * Z)%type.

Definition slot_of (h n : Z) (k : nat) : Z := (h + Z.of_nat k) mod n.

(** The value of [isMotion]: the identifier of the device that moves. *)
Definition motion_of (ids : Z -> option Z) (x : entry) : option Z :=
  let '(e, d, _) := x in if decide (type e = ET_Motion) then ids d else Some 0.

(** Every slot has a buffer of its own, and the slots from [head] on hold [l]. *)
Record slots_ok (h n : Z) (a : list EventRec) (m : gmap Z InternalEvent) (l : list entry) : Prop := {
  slots_length : Z.of_nat (length a) = n;
  slots_some : forall i s, rdz a i = Some s -> events s <> 0;
  slots_live : forall i s, rdz a i = Some s -> is_Some (m !! events s);
  slots_own : forall i j s t, rdz a i = Some s -> rdz a j = Some t -> events s = events t -> i = j;
  slots_hold : forall k x, l !! k = Some x ->
    exists s e, rdz a (slot_of h n k) = Some s /\ m !! events s = Some e /\ x = (e, pDev s, pScreen s);
}.

Record ring (ids : Z -> option Z) (q : EventQueue) (l : list entry) : Prop := {
  ring_size : exists k, 1 <= k <= 31 /\ nevents q = 2 ^ k;
  ring_head : 0 <= head q < nevents q;
  ring_length : Z.of_nat (length l) < nevents q;
  ring_tail : tail q = slot_of (head q) (nevents q) (length l);
  ring_slots : slots_ok (head q) (nevents q) (array q) (buffers q) l;
  ring_last : forall x, last l = Some x -> motion_of ids x = Some (lastMotion q);
}.

Lemma ring_pos ids q l : ring ids q l -> 2 <= nevents q <= 2 ^ 31.
Proof.
  intros [[k [Hk ->]] _ _ _ _ _]. split.
  - change 2 with (2 ^ 1) at 1. apply Z.pow_le_mono_r; lia.
  - apply Z.pow_le_mono_r; lia.
Qed.

Lemma slot_of_range h n k : 0 < n -> 0 <= slot_of h n k < n.
Proof. apply Z.mod_pos_bound. Qed.

(** Slots are taken round the ring once. *)
Lemma slot_of_cases h n k :
  0 <= h < n -> Z.of_nat k < n ->
  slot_of h n k = if h + Z.of_nat k <? n then h + Z.of_nat k else h + Z.of_nat k - n.
Proof.
  intros Hh Hk. unfold slot_of. bcase; [by apply Z.mod_small; lia|].
  rewrite <- (Z.mod_small (h + Z.of_nat k - n) n) by lia.
  replace (h + Z.of_nat k) with (h + Z.of_nat k - n + 1 * n) at 1 by lia. apply Z.mod_add. lia.
Qed.

Lemma slot_of_inj h n j k :
  0 <= h < n -> Z.of_nat j < n -> Z.of_nat k < n -> slot_of h n j = slot_of h n k -> j = k.
Proof. intros ???. rewrite !slot_of_cases by done. bcase; lia. Qed.

Lemma slot_of_0 h n : 0 <= h < n -> slot_of h n 0 = h.
Proof. intros. unfold slot_of. rewrite Z.add_0_r. by apply Z.mod_small. Qed.

Lemma slot_of_S h n k : 0 < n -> slot_of h n (S k) = (slot_of h n k + 1) mod n.
Proof. intros. unfold slot_of. rewrite Z.add_mod_idemp_l by lia. f_equal. lia. Qed.

Lemma slot_of_next h n k : 0 < n -> slot_of ((h + 1) mod n) n k = slot_of h n (S k).
Proof. intros. unfold slot_of. rewrite Z.add_mod_idemp_l by lia. f_equal. lia. Qed.

(** The count that the code computes from [head] and [tail]. *)
Lemma mieqNumEnqueued_ring ids q l : ring ids q l -> mieqNumEnqueued q = Z.of_nat (length l).
Proof.
  intros R. pose proof (ring_pos _ _ _ R). destruct R as [_ Hh Hl Ht _ _].
  unfold mieqNumEnqueued. rewrite (proj2 (Z.eqb_neq _ _)) by lia. cbv [negb].
  rewrite Ht, slot_of_cases by lia.
  destruct (Z.ltb_spec (head q + Z.of_nat (length l)) (nevents q)).
  - replace (head q + Z.of_nat (length l) - head q) with (Z.of_nat (length l)) by lia.
    rewrite swrap_small by lia. rewrite (uwrap_small 64 (Z.of_nat (length l))) by lia. rewrite uwrap_small by lia.
    rewrite (proj2 (Z.leb_le _ _)) by lia. rewrite uwrap_small by lia. lia.
  - rewrite swrap_small by lia.
    replace (u64 (u64 (head q + Z.of_nat (length l) - nevents q - head q) + nevents q)) with (Z.of_nat (length l)).
    + rewrite (proj2 (Z.leb_gt _ _)) by lia. done.
    + unfold uwrap. rewrite Z.add_mod_idemp_l by lia. rewrite Z.mod_small; lia.
Qed.

(** Taking an event out is taking the first entry. *)
Lemma take_event_ring ids q l :
  ring ids q l ->
  match l with
  | [] => take_event q = Some (None, q)
  | x :: l' => exists q', take_event q = Some (Some x, q') /\ ring ids q' l' /\ dropped q' = dropped q
  end.
Proof.
  intros R. pose proof (ring_pos _ _ _ R). destruct R as [Hs Hh Hl Ht S Hm].
  unfold take_event. destruct l as [|[[e d] scr] l'].
  - rewrite Ht. cbn [length]. rewrite slot_of_0 by done. by rewrite Z.eqb_refl.
  - rewrite (proj2 (Z.eqb_neq _ _)).
    2:{ rewrite Ht, <- (slot_of_0 (head q) (nevents q)) at 1 by done. intros E.
        by apply slot_of_inj in E; cbn [length] in *; [|lia..]. }
    destruct (slots_hold _ _ _ _ _ S 0 _ eq_refl) as (s & e' & Hr & Hb & [= -> -> ->]).
    rewrite slot_of_0 in Hr by done. rewrite Hr. cbn [mbind option_bind]. rewrite Hb. cbn [mbind option_bind].
    eexists. split; [reflexivity|]. split; [|done].
    assert (i32 (u64 (head q + 1) mod nevents q) = (head q + 1) mod nevents q) as ->.
    { pose proof (Z.mod_pos_bound (head q + 1) (nevents q)). rewrite uwrap_small by lia. apply swrap_small; lia. }
    cbn [length] in Hl, Ht. split; cbn [nevents head tail array buffers lastMotion set_ring]; try done.
    + apply Z.mod_pos_bound. lia.
    + lia.
    + by rewrite Ht, slot_of_next by lia.
    + destruct S as [SL SN SV SO SH]. split; try done. intros k x Hx. rewrite slot_of_next by lia. by apply SH.
    + intros x Hlast. apply Hm. by destruct l'.
Qed.

(** Writing an entry behind the first [k] of the queue drops the ones from [k] on. *)
Lemma slots_store h n a a' m l k s e d scr :
  0 <= h < n -> slots_ok h n a m l -> (k <= length l)%nat -> Z.of_nat (length l) < n ->
  rdz a (slot_of h n k) = Some s ->
  wrz a (slot_of h n k) {| events := events s; pScreen := scr; pDev := d |} = Some a' ->
  slots_ok h n a' (<[events s := e]> m) (take k l ++ [(e, d, scr)]).
Proof.
  intros Hh [SL SN SV SO SH] Hk Hl Hs Hw.
  assert (forall j, rdz a' j = if slot_of h n k =? j then Some {| events := events s; pScreen := scr; pDev := d |}
                               else rdz a j) as R by (intros; by apply rdz_wrz).
  split.
  - by rewrite (wrz_length _ _ _ _ Hw).
  - intros i s'. rewrite R. bcase; [intros [= <-]|]; cbn; eauto.
  - intros i s'. rewrite R. bcase; [intros [= <-]|intros ?]; apply lookup_insert_is_Some'; cbn; eauto.
  - intros i j s1 s2. rewrite !R. bcase; intros H1 H2 E; try congruence.
    + injection H1 as <-. exfalso. cbn in E. specialize (SO _ _ _ _ Hs H2 E). congruence.
    + injection H2 as <-. exfalso. cbn in E. specialize (SO _ _ _ _ H1 Hs E). congruence.
    + by apply (SO _ _ _ _ H1 H2).
  - intros j x Hx. rewrite R. destruct (decide (j < k)%nat) as [Hj|Hj].
    + rewrite lookup_app_l, lookup_take_lt in Hx by (rewrite ?length_take; lia).
      destruct (SH _ _ Hx) as (s' & e' & Hs' & He' & ->). exists s', e'.
      destruct (Z.eqb_spec (slot_of h n k) (slot_of h n j)) as [E|E].
      { apply slot_of_inj in E; lia. }
      split; [done|]. split; [|done]. rewrite lookup_insert_ne; [done|].
      intros E'. apply E. by apply (SO _ _ _ _ Hs Hs').
    + assert (length (take k l) = k) as Hlk by (rewrite length_take; lia).
      assert (j = k) as ->.
      { apply lookup_lt_Some in Hx. rewrite length_app, Hlk in Hx. cbn in Hx. lia. }
      rewrite lookup_app_r, Hlk, Nat.sub_diag in Hx by lia. injection Hx as <-.
      rewrite Z.eqb_refl. eexists _, e. split; [reflexivity|]. cbn. by rewrite lookup_insert_eq.
Qed.

(** [put_event] at such a place. *)
Lemma put_event_ring ids q l k isMotion dev e ds scr :
  ring ids q l -> (k <= length l)%nat -> Z.of_nat (S k) < nevents q ->
  enqueue_screen_of dev ds = Some scr -> motion_of ids (e, dev, scr) = Some isMotion ->
  exists e' q', put_event (slot_of (head q) (nevents q) k) isMotion dev e ds q = Some (e', q') /\
    ring ids q' (take k l ++ [(e, dev, scr)]) /\ dropped q' = dropped q /\ nevents q' = nevents q.
Proof.
  intros R Hk Hn Hscr Hm. pose proof (ring_pos _ _ _ R). destruct R as [Hs Hh Hl Ht S Hlast].
  pose proof (slot_of_range (head q) (nevents q) k ltac:(lia)) as Hr.
  assert (is_Some (rdz (array q) (slot_of (head q) (nevents q) k))) as [s Hrd].
  { apply rdz_is_Some. rewrite (slots_length _ _ _ _ _ S). lia. }
  destruct (slots_live _ _ _ _ _ S _ _ Hrd) as [old Hold].
  unfold put_event. rewrite Hrd. cbn [mbind option_bind]. rewrite Hold. cbn [mbind option_bind]. rewrite Hscr.
  cbn [mbind option_bind set_buffers array head nevents set_ring].
  rewrite wrz_Some by (rewrite (slots_length _ _ _ _ _ S); lia). cbn [mbind option_bind].
  eexists _, _. split; [reflexivity|]. split; [|done].
  assert (i32 (u32 (slot_of (head q) (nevents q) k + 1) mod nevents q) = slot_of (head q) (nevents q) (Datatypes.S k)) as ->.
  { rewrite slot_of_S by lia. pose proof (Z.mod_pos_bound (slot_of (head q) (nevents q) k + 1) (nevents q)).
    rewrite uwrap_small by lia. apply swrap_small; lia. }
  assert (length (take k l ++ [(e, dev, scr)]) = Datatypes.S k) as Hlen.
  { rewrite length_app, length_take. cbn. lia. }
  split; cbn [nevents head tail array buffers lastMotion set_ring set_last set_buffers]; rewrite ?Hlen; try done.
  - eapply slots_store; eauto; try lia. apply wrz_Some. rewrite (slots_length _ _ _ _ _ S). lia.
  - intros x. rewrite last_snoc. by intros [= <-].
Qed.

(** *** Growth *)

(** What the allocator promises for the slots from [n] to [n'] on: buffers that are not
    NULL, not in use and different from one another. *)
Record fresh_buffers (mem : Z -> Z) (n n' : Z) (m : gmap Z InternalEvent) : Prop := {
  fresh_some : forall i, n <= i < n' -> mem i <> 0;
  fresh_new : forall i, n <= i < n' -> m !! mem i = None;
  fresh_inj : forall i j, n <= i < n' -> n <= j < n' -> mem i = mem j -> i = j;
}.

Lemma init_slots_succeeds mem fuel i a m :
  0 <= i -> Z.of_nat (length a) = i + Z.of_nat fuel -> (forall j, i <= j < Z.of_nat (length a) -> mem j <> 0) ->
  exists a' m', init_slots mem fuel i a m = Some (inl (a', m')) /\ length a' = length a /\
    (forall j, rdz a' j = if (i <=? j) && (j <? Z.of_nat (length a)) then Some {| events := mem j; pScreen := 0; pDev := 0 |}
                          else rdz a j) /\
    (forall p v, m !! p = Some v -> (forall j, i <= j < Z.of_nat (length a) -> mem j <> p) -> m' !! p = Some v) /\
    (forall j, i <= j < Z.of_nat (length a) -> is_Some (m' !! mem j)) /\
    (forall p, is_Some (m !! p) -> is_Some (m' !! p)).
Proof.
  revert i a m. induction fuel as [|fuel IH]; intros i a m Hi Ha Hmem.
  - exists a, m. split; [done|]. split; [done|]. split; [|split; [done|split; [intros; lia|done]]].
    intros j. bcase; cbn; try done; lia.
  - cbn [init_slots]. rewrite (proj2 (Z.eqb_neq (mem i) 0)) by (apply Hmem; lia).
    rewrite wrz_Some by lia. cbn [mbind option_bind].
    set (a1 := <[Z.to_nat i := _]> a).
    assert (wrz a i {| events := mem i; pScreen := 0; pDev := 0 |} = Some a1) as Hw by (apply wrz_Some; lia).
    assert (length a1 = length a) as Hl1 by apply length_insert.
    destruct (IH (i + 1) a1 (<[mem i := no_event]> m)) as (a' & m' & E & Hl & Hr & Hm & Hn & Hk);
      rewrite ?Hl1; try lia. { intros. apply Hmem. lia. }
    rewrite Hl1 in Hl, Hr, Hm, Hn. exists a', m'. repeat split; [done|done| | | |].
    + intros j. rewrite Hr, (rdz_wrz _ _ _ j _ Hw). bcase; cbn; try done; try lia; by subst.
    + intros p v Hp Hj. apply Hm; [|intros; apply Hj; lia]. rewrite lookup_insert_ne; [done|apply Hj; lia].
    + intros j Hj. destruct (decide (j = i)) as [->|]; [|apply Hn; lia].
      apply Hk. rewrite lookup_insert_eq. eauto.
    + intros p Hp. apply Hk, lookup_insert_is_Some'. by right.
Qed.

(** The two copies put the ring in order: the slot of the [k]-th entry is slot [k]. *)
Lemma unroll_ring (a b : list EventRec) h n n' :
  Z.of_nat (length a) = n -> Z.of_nat (length b) = n' -> 0 <= h < n -> n <= n' ->
  exists a1 b1 a2 b2, slice a h (n - h) = Some a1 /\ blit b 0 a1 = Some b1 /\
    slice a 0 h = Some a2 /\ blit b1 (n - h) a2 = Some b2 /\ length b2 = length b /\
    (forall k, Z.of_nat k < n -> rdz b2 (Z.of_nat k) = rdz a (slot_of h n k)).
Proof.
  intros Ha Hb Hh Hn.
  destruct (proj2 (slice_is_Some a h (n - h))) as [a1 H1]; [lia|]. pose proof (slice_length _ _ _ _ H1) as L1.
  destruct (proj2 (blit_is_Some b a1 0)) as [b1 H2]; [lia|]. pose proof (blit_length _ _ _ _ H2) as L2.
  destruct (proj2 (slice_is_Some a 0 h)) as [a2 H3]; [lia|]. pose proof (slice_length _ _ _ _ H3) as L3.
  destruct (proj2 (blit_is_Some b1 a2 (n - h))) as [b2 H4]; [lia|]. pose proof (blit_length _ _ _ _ H4) as L4.
  exists a1, b1, a2, b2. repeat split; [done..|by rewrite L4|].
  intros k Hk. rewrite (rdz_blit _ _ _ _ _ H4), (rdz_blit _ _ _ _ _ H2), (rdz_slice _ _ _ _ _ H1), (rdz_slice _ _ _ _ _ H3).
  rewrite slot_of_cases by lia. bcase; cbn; try lia; f_equal; lia.
Qed.

(** The old slots in order and the new ones behind them hold the same queue. *)
Lemma slots_grow h n n' a a' m m' mem l :
  0 <= h < n -> n <= n' -> Z.of_nat (length l) < n -> slots_ok h n a m l -> fresh_buffers mem n n' m ->
  Z.of_nat (length a') = n' ->
  (forall k, Z.of_nat k < n -> rdz a' (Z.of_nat k) = rdz a (slot_of h n k)) ->
  (forall i, n <= i < n' -> rdz a' i = Some {| events := mem i; pScreen := 0; pDev := 0 |}) ->
  (forall p v, m !! p = Some v -> m' !! p = Some v) -> (forall i, n <= i < n' -> is_Some (m' !! mem i)) ->
  slots_ok 0 n' a' m' l.
Proof.
  intros Hh Hn Hl [SL SN SV SO SH] [F1 F2 F3] La Rold Rnew Mo Mn.
  assert (forall i s, rdz a' i = Some s ->
    (exists k, i = Z.of_nat k /\ Z.of_nat k < n /\ rdz a (slot_of h n k) = Some s) \/ n <= i < n' /\ events s = mem i) as Cases.
  { intros i s Hi. pose proof (rdz_Some_range _ _ _ Hi). destruct (decide (i < n)).
    - left. exists (Z.to_nat i). rewrite <- Rold, Z2Nat.id by lia. split; [lia|]. split; [lia|done].
    - right. rewrite Rnew in Hi by lia. injection Hi as <-. split; [lia|done]. }
  assert (forall i s, n <= i < n' -> is_Some (m !! events s) -> events s <> mem i) as Fresh.
  { intros i s Hi [v Hv] E. rewrite E, F2 in Hv by done. done. }
  split; [done| | | |].
  - intros i s Hi. destruct (Cases _ _ Hi) as [(k & -> & Hk & Hs)|[Hr ->]]; [by eapply SN|by apply F1].
  - intros i s Hi. destruct (Cases _ _ Hi) as [(k & -> & Hk & Hs)|[Hr ->]]; [|by apply Mn].
    destruct (SV _ _ Hs) as [v Hv]. exists v. by apply Mo.
  - intros i j s t Hi Hj E.
    destruct (Cases _ _ Hi) as [(k & -> & Hk & Hs)|[Hr E1]], (Cases _ _ Hj) as [(k' & -> & Hk' & Hs')|[Hr' E2]].
    + pose proof (SO _ _ _ _ Hs Hs' E) as Es. apply slot_of_inj in Es; [by subst|done..].
    + exfalso. apply (Fresh j s Hr'); [eauto|congruence].
    + exfalso. apply (Fresh i t Hr); [eauto|congruence].
    + apply F3; [done..|congruence].
  - intros j x Hx. destruct (SH _ _ Hx) as (s & e & Hs & He & ->). apply lookup_lt_Some in Hx.
    exists s, e. rewrite slot_of_cases by lia. rewrite (proj2 (Z.ltb_lt _ _)) by lia.
    split; [|split; [by apply Mo|done]]. rewrite Z.add_0_l, Rold by lia. done.
Qed.

(** A growth that finds memory keeps the queue, in a ring of the new size. *)
Lemma mieqGrowQueue_ring ids q l mem k :
  ring ids q l -> nevents q < 2 ^ k -> k <= 31 -> fresh_buffers mem (nevents q) (2 ^ k) (buffers q) ->
  exists q', mieqGrowQueue true mem (2 ^ k) q = Some (true, q') /\ ring ids q' l /\
    nevents q' = 2 ^ k /\ dropped q' = dropped q.
Proof.
  intros R Hk Hk' F. pose proof (ring_pos _ _ _ R) as Hp.
  pose proof (mieqNumEnqueued_ring _ _ _ R) as En. destruct R as [Hs Hh Hl Ht S Hlast].
  assert (2 ^ k <= 2 ^ 31) by (apply Z.pow_le_mono_r; lia).
  assert (1 <= k). { destruct (decide (1 <= k)); [done|]. assert (2 ^ k <= 2 ^ 0); [|lia]. apply Z.pow_le_mono_r; lia. }
  unfold mieqGrowQueue. rewrite (proj2 (Z.leb_gt _ _)) by lia. cbn [negb]. rewrite En.
  set (b := replicate _ _). assert (Z.of_nat (length b) = 2 ^ k) as Hb by (unfold b; rewrite length_replicate; lia).
  destruct (unroll_ring (array q) b (head q) (nevents q) (2 ^ k)) as (a1 & b1 & a2 & b2 & -> & H1 & -> & H2 & Lb & Hr);
    [apply S|done|lia|lia|]. cbn [mbind option_bind]. rewrite H1. cbn [mbind option_bind]. rewrite H2. cbn [mbind option_bind].
  destruct (init_slots_succeeds mem (Z.to_nat (2 ^ k - nevents q)) (nevents q) b2 (buffers q))
    as (a' & m' & -> & La & Ra & Mo & Mn & Ml); [lia|rewrite Lb; lia|rewrite Lb, Hb; apply F|].
  rewrite Lb in La. rewrite Lb, Hb in Ra, Mo, Mn. cbn [mbind option_bind].
  eexists. split; [reflexivity|]. split; [|done].
  split; cbn [nevents head tail array buffers lastMotion set_ring set_buffers]; try done; try lia.
  - exists k. lia.
  - rewrite swrap_small, slot_of_cases by lia. bcase; lia.
  - eapply slots_grow; [| | |exact S|exact F|..]; try lia; try done.
    + intros j Hj. rewrite Ra, <- Hr by done. bcase; cbn; try lia; done.
    + intros i Hi. rewrite Ra. bcase; cbn; try lia; done.
    + intros p v Hv. apply Mo; [done|]. intros i Hi E. rewrite <- E, (fresh_new _ _ _ _ F) in Hv by lia. done.
Qed.

(** *** Enqueueing as an operation on the sequence *)

(** A motion takes the place of the last entry when that is a motion of the same device. *)
Definition supersedes (ids : Z -> option Z) (x y : entry) : bool :=
  bool_decide (motion_of ids y <> Some 0 /\ motion_of ids x = motion_of ids y).

Definition queue_after (ids : Z -> option Z) (l : list entry) (y : entry) : list entry :=
  match last l with
  | Some x => if supersedes ids x y then take (pred (length l)) l ++ [y] else l ++ [y]
  | None => l ++ [y]
  end.

(** Stepping back from [tail], with the wrap at 0 done by the unsigned subtraction. *)
Lemma slot_before h n k :
  (exists j, 1 <= j <= 31 /\ n = 2 ^ j) -> u32 (u32 (slot_of h n (S k)) - 1) mod n = slot_of h n k.
Proof.
  intros (j & Hj & ->). pose proof (slot_of_range h (2 ^ j) k ltac:(lia)) as Hr.
  assert (2 ^ j <= 2 ^ 31) by (apply Z.pow_le_mono_r; lia).
  rewrite slot_of_S by lia. destruct (decide (slot_of h (2 ^ j) k + 1 = 2 ^ j)) as [E|E].
  - rewrite E, Z.mod_same by lia. change (u32 (u32 0 - 1)) with (2 ^ 32 - 1).
    replace (2 ^ 32 - 1) with (slot_of h (2 ^ j) k + (2 ^ (32 - j) - 1) * 2 ^ j).
    + rewrite Z.mod_add by lia. by apply Z.mod_small.
    + rewrite Z.mul_sub_distr_r, <- Z.pow_add_r by lia. replace (32 - j + j) with 32 by lia. lia.
  - rewrite (Z.mod_small (_ + 1)) by lia. rewrite (uwrap_small 32 (_ + 1)) by lia. rewrite uwrap_small by lia.
    rewrite Z.add_simpl_r. by apply Z.mod_small.
Qed.

(** The queue is empty when [tail] is [head], read as unsigned. *)
Lemma ring_empty_test ids q l :
  ring ids q l -> negb (u32 (tail q) =? u32 (head q)) = negb (bool_decide (l = [])).
Proof.
  intros R. pose proof (ring_pos _ _ _ R). destruct R as [_ Hh Hl Ht _ _].
  rewrite Ht, !uwrap_small by (pose proof (slot_of_range (head q) (nevents q) (length l) ltac:(lia)); lia). f_equal.
  apply Bool.eq_iff_eq_true. rewrite Z.eqb_eq, bool_decide_eq_true. split.
  - intros E. rewrite <- (slot_of_0 (head q) (nevents q)) in E at 2 by done.
    apply slot_of_inj in E; [by apply nil_length_inv|lia|lia|cbn; lia].
  - intros ->. by apply slot_of_0.
Qed.

(** The test of the code is the one of the specification. *)
Lemma merge_test ids q l m y :
  ring ids q l -> motion_of ids y = Some m ->
  (negb (m =? 0) && (m =? lastMotion q) && negb (u32 (tail q) =? u32 (head q)) =
   match last l with Some x => supersedes ids x y | None => false end)%bool.
Proof.
  intros R Hm. rewrite (ring_empty_test _ _ _ R). pose proof (ring_last _ _ _ R) as HL.
  destruct (last l) as [x|] eqn:E.
  - specialize (HL _ eq_refl). unfold supersedes. rewrite Hm, HL.
    rewrite (bool_decide_eq_false_2 (l = [])) by (intros ->; done).
    apply Bool.eq_iff_eq_true. rewrite !andb_true_iff, bool_decide_eq_true, !negb_true_iff, Z.eqb_neq, Z.eqb_eq.
    split; [intros [[? ->] _]; split; congruence|]. intros [H1 [= ->]]. split; [|done]. split; congruence.
  - apply last_None in E as ->. rewrite bool_decide_true by done. apply andb_false_r.
Qed.

(** What the memory must do when the ring is full: the array is not got, or it is and all
    the buffers are. *)
Definition memory_ok (calloc_ok : bool) (mem : Z -> Z) (q : EventQueue) : Prop :=
  mieqNumEnqueued q + 1 = nevents q -> calloc_ok = true ->
  nevents q < 2 ^ 31 /\ fresh_buffers mem (nevents q) (2 * nevents q) (buffers q).

Lemma set_dropped_ring ids q l n : ring ids q l -> ring ids (set_dropped n q) l.
Proof. by intros [? ? ? ? ? ?]. Qed.

(** Appending, when there is a slot. *)
Lemma append_ring ids q l m dev e dv scr :
  ring ids q l -> Z.of_nat (S (length l)) < nevents q ->
  enqueue_screen_of dev dv = Some scr -> motion_of ids (e, dev, scr) = Some m ->
  exists e' q', put_event (u32 (tail q)) m dev e dv q = Some (e', q') /\
    ring ids q' (l ++ [(e, dev, scr)]) /\ dropped q' = dropped q.
Proof.
  intros R Hl Hscr Hm. pose proof (ring_pos _ _ _ R). rewrite (ring_tail _ _ _ R), uwrap_small.
  - destruct (put_event_ring ids q l (length l) m dev e dv scr R) as (e' & q' & E & R' & D & _); [lia|done..|].
    rewrite firstn_all in R'. eauto.
  - pose proof (slot_of_range (head q) (nevents q) (length l)). lia.
Qed.

Lemma mieqEnqueue_refines calloc_ok mem dev e dv q l ids scr :
  ring ids q l -> (forall d, ids d = id <$> devices dv !! d) ->
  enqueue_screen_of dev dv = Some scr -> is_Some (motion_of ids (e, dev, scr)) -> memory_ok calloc_ok mem q ->
  exists e' q', mieqEnqueue calloc_ok mem dev e dv q = Some (e', q') /\
    (ring ids q' (queue_after ids l (e, dev, scr)) /\ dropped q' = dropped q
     \/ calloc_ok = false /\ Z.of_nat (length l) + 1 = nevents q /\ ring ids q' l /\ dropped q' = u64 (dropped q + 1)).
Proof.
  intros R Hids Hscr [m Hm] Hmem. pose proof (ring_pos _ _ _ R) as Hp. pose proof (ring_size _ _ _ R) as (k & Hk & Ek).
  pose proof (ring_length _ _ _ R) as Hl.
  unfold mieqEnqueue, memory_ok in *. rewrite (mieqNumEnqueued_ring _ _ _ R) in *.
  assert ((if decide (type e = ET_Motion) then id <$> devices dv !! dev else Some 0) = Some m) as ->.
  { rewrite <- Hm. cbn. by rewrite Hids. }
  cbn [mbind option_bind]. rewrite (merge_test ids _ l _ (e, dev, scr)) by done.
  destruct (match last l with Some x => supersedes ids x (e, dev, scr) | None => false end) eqn:Es.
  - destruct (last l) as [x|] eqn:El; [|done]. cbn [mbind option_bind negb].
    assert (length l = S (pred (length l))) as Hs by (destruct l; [done|cbn; lia]).
    assert (u32 (u32 (tail q) - 1) mod nevents q = slot_of (head q) (nevents q) (pred (length l))) as ->.
    { rewrite (ring_tail _ _ _ R), Hs at 1. apply slot_before. eauto. }
    destruct (put_event_ring ids q l (pred (length l)) m dev e dv scr R) as (e' & q' & E & R' & D & _); [lia|lia|done..|].
    exists e', q'. split; [done|]. left. unfold queue_after. by rewrite El, Es.
  - assert (queue_after ids l (e, dev, scr) = l ++ [(e, dev, scr)]) as ->.
    { unfold queue_after. destruct (last l); [by rewrite Es|done]. }
    destruct (Z.eqb_spec (Z.of_nat (length l) + 1) (nevents q)) as [Hf|Hf].
    + destruct calloc_ok.
      * destruct (Hmem Hf eq_refl) as [Hb F].
        assert (u64 (nevents q ≪ 1) = 2 ^ (k + 1)) as ->.
        { rewrite Z.shiftl_mul_pow2, Ek, <- Z.pow_add_r by lia. apply uwrap_small. split; [lia|].
          apply Z.pow_lt_mono_r; lia. }
        assert (k < 31) by (apply (Z.pow_lt_mono_r_iff 2); lia).
        destruct (mieqGrowQueue_ring ids q l mem (k + 1) R) as (q2 & -> & R2 & N2 & D2);
          [rewrite Ek; apply Z.pow_lt_mono_r; lia|lia| |].
        { rewrite Z.pow_add_r, <- Ek by lia. change (2 ^ 1) with 2. by rewrite Z.mul_comm. }
        cbn [mbind option_bind negb].
        destruct (append_ring ids q2 l m dev e dv scr R2) as (e' & q' & E & R' & D); [|done..|].
        { rewrite N2, Z.pow_add_r, <- Ek by lia. lia. }
        rewrite D2 in D. exists e', q'. eauto.
      * unfold mieqGrowQueue. destruct (_ <=? _); cbn [mbind option_bind negb]; eexists _, _; (split; [reflexivity|]);
          right; (split; [done|split; [done|split; [by apply set_dropped_ring|done]]]).
    + cbn [mbind option_bind negb]. destruct (append_ring ids q l m dev e dv scr R) as (e' & q' & E & R' & D); [lia|done..|].
      exists e', q'. eauto.
Qed.

(** *** What is taken out *)

(** [kept made taken]: an event is left out only when the next one made is a motion of the
    same device. *)
Inductive kept (ids : Z -> option Z) : list entry -> list entry -> Prop :=
  | kept_nil : kept ids [] []
  | kept_keep x l t : kept ids l t -> kept ids (x :: l) (x :: t)
  | kept_skip x y l t : supersedes ids x y = true -> kept ids (y :: l) t -> kept ids (x :: y :: l) t.

#[local] Hint Constructors kept : core.

Lemma kept_refl ids l : kept ids l l.
Proof. induction l; eauto. Qed.

Lemma supersedes_trans ids x y z : supersedes ids x z = true -> supersedes ids y z = true -> supersedes ids x y = true.
Proof. unfold supersedes. rewrite !bool_decide_eq_true. intros [? ?] [? ?]. split; congruence. Qed.

Lemma kept_insert ids l x y r t :
  supersedes ids x y = true -> kept ids (l ++ y :: r) t -> kept ids (l ++ x :: y :: r) t.
Proof.
  intros Hs. revert t. induction l as [|z l IH]; intros t H; cbn in *; [eauto|].
  inversion H; subst; [eauto|]. destruct l as [|w l]; simplify_eq/=.
  - apply kept_skip; [by eapply supersedes_trans|]. eauto.
  - apply kept_skip; [done|]. by apply IH.
Qed.

(** An arrival in the queue is an arrival behind it. *)
Lemma kept_queue_after ids l y r t : kept ids (queue_after ids l y ++ r) t -> kept ids (l ++ y :: r) t.
Proof.
  unfold queue_after. destruct (last l) as [x|] eqn:E; [|by rewrite <- app_assoc].
  destruct (supersedes ids x y) eqn:Es; [|by rewrite <- app_assoc].
  apply last_Some in E as [l' ->]. rewrite length_app, Nat.add_comm. cbn [length Nat.add Nat.pred].
  rewrite take_app_length, <- !app_assoc. by apply kept_insert.
Qed.

Lemma queue_after_length ids l y : (length (queue_after ids l y) <= S (length l))%nat.
Proof.
  unfold queue_after. destruct (last l); [destruct (supersedes _ _ _)|]; rewrite length_app, ?length_take; cbn; lia.
Qed.

(** ** Start and errors *)

Lemma grow_from_nothing ids mem k now :
  1 <= k <= 31 -> fresh_buffers mem 0 (2 ^ k) ∅ ->
  exists q, mieqGrowQueue true mem (2 ^ k)
      {| head := 0; tail := 0; lastEventTime := now; lastMotion := 0; array := []; nevents := 0; dropped := 0; buffers := ∅ |} =
      Some (true, q) /\
    ring ids q [] /\ dropped q = 0 /\ lastEventTime q = now.
Proof.
  intros Hk F. assert (0 < 2 ^ k) by lia.
  unfold mieqGrowQueue, mieqNumEnqueued. cbn [nevents head array buffers negb Z.eqb].
  rewrite (proj2 (Z.leb_gt _ _)) by done. set (b := replicate _ _).
  assert (Z.of_nat (length b) = 2 ^ k) as Hb by (unfold b; rewrite length_replicate; lia). clearbody b.
  change (slice [] 0 (0 - 0)) with (Some (@nil EventRec)). change (slice [] 0 0) with (Some (@nil EventRec)).
  assert (blit b 0 [] = Some b) as Hbl.
  { unfold blit. cbn [length Z.of_nat Z.add Z.leb andb Z.compare]. rewrite (proj2 (Z.leb_le _ _)) by lia. done. }
  cbn [mbind option_bind]. change (0 - 0) with 0. rewrite Hbl. cbn [mbind option_bind]. rewrite Hbl. cbn [mbind option_bind].
  destruct (init_slots_succeeds mem (Z.to_nat (2 ^ k - 0)) 0 b ∅)
    as (a' & m' & -> & La & Ra & Mo & Mn & Ml); [lia|lia|rewrite Hb; apply F|].
  rewrite Hb in Ra, Mn. cbn [mbind option_bind]. eexists. split; [reflexivity|]. split; [|done].
  assert (forall i s, rdz a' i = Some s -> 0 <= i < 2 ^ k /\ events s = mem i) as R.
  { intros i s Hi. pose proof (rdz_Some_range _ _ _ Hi). rewrite Ra in Hi.
    destruct (Z.leb_spec 0 i), (Z.ltb_spec i (2 ^ k)); cbn in Hi; try lia. injection Hi as <-. done. }
  split; cbn [nevents head tail array buffers lastMotion set_ring set_buffers length]; try done.
  - by exists k.
  - split; [lia| | | |].
    + intros i s Hi. destruct (R _ _ Hi) as [Hr ->]. by apply F.
    + intros i s Hi. destruct (R _ _ Hi) as [Hr ->]. by apply Mn.
    + intros i j s t Hi Hj E. destruct (R _ _ Hi) as [Hr E1], (R _ _ Hj) as [Hr' E2]. apply F; congruence.
    + done.
Qed.

(** [mieqInit] makes an empty ring of 512 slots. *)
Lemma mieqInit_ring ids mem now :
  fresh_buffers mem 0 QUEUE_INITIAL_SIZE ∅ ->
  exists q, mieqInit mem now = Some (true, q) /\ ring ids q [] /\ dropped q = 0 /\ lastEventTime q = now.
Proof. by apply (grow_from_nothing ids mem 9 now). Qed.

Lemma free_slots_deletes a i m :
  (i <= length a)%nat -> (forall j s, (j < i)%nat -> a !! j = Some s -> events s <> 0 /\ is_Some (m !! events s)) ->
  (forall j k s t, (j < i)%nat -> (k < i)%nat -> a !! j = Some s -> a !! k = Some t -> events s = events t -> j = k) ->
  exists m', free_slots a i m = Some m' /\ (forall j s, (j < i)%nat -> a !! j = Some s -> m' !! events s = None) /\
    (forall p, m !! p = None -> m' !! p = None).
Proof.
  revert i m. induction a as [|s a IH]; intros i m Hi HL HO; [cbn in Hi; destruct i; [|lia]|destruct i as [|i]].
  1,2: exists m; split; [done|split; [intros; lia|done]].
  destruct (HL 0%nat s) as [Hne [v Hv]]; [lia|done|]. cbn [free_slots]. rewrite (proj2 (Z.eqb_neq _ _)), Hv by done.
  cbn [mbind option_bind]. destruct (IH i (delete (events s) m)) as (m' & E & D & K).
  - cbn in Hi. lia.
  - intros j t Hj Ht. destruct (HL (S j) t) as [? ?]; [lia|done|]. split; [done|].
    rewrite lookup_delete_ne; [done|]. intros E. specialize (HO 0%nat (S j) s t ltac:(lia) ltac:(lia) eq_refl Ht E). done.
  - intros j k t t' Hj Hk Ht Ht' E. specialize (HO (S j) (S k) t t' ltac:(lia) ltac:(lia) Ht Ht' E). lia.
  - exists m'. split; [done|]. split; [|intros p Hp; apply K, lookup_delete_None; eauto].
    intros [|j] t Hj Ht; [injection Ht as <-; apply K, lookup_delete_eq|apply (D j); [lia|done]].
Qed.

(** When the memory for a buffer cannot be got, the buffers of the events that wait are
    freed with the new array, but the ring keeps pointing to them: the next event that is
    taken out, or put in, is a use after free. *)
Lemma growth_failure_frees ids q l mem n :
  ring ids q l -> nevents q < n -> mem (nevents q) = 0 ->
  exists q', mieqGrowQueue true mem n q = Some (false, q') /\ head q' = head q /\ tail q' = tail q /\ array q' = array q /\
    (forall i s, rdz (array q') i = Some s -> buffers q' !! events s = None).
Proof.
  intros R Hn Hmem. pose proof (ring_pos _ _ _ R) as Hp. destruct R as [Hs Hh Hl Ht [SL SN SV SO SH] Hlast].
  unfold mieqGrowQueue. rewrite (proj2 (Z.leb_gt _ _)) by lia. cbn [negb].
  set (b := replicate _ _). assert (Z.of_nat (length b) = n) as Hb by (unfold b; rewrite length_replicate; lia).
  destruct (unroll_ring (array q) b (head q) (nevents q) n) as (a1 & b1 & a2 & b2 & -> & H1 & -> & H2 & Lb & Hr);
    [done|done|lia|lia|]. cbn [mbind option_bind]. rewrite H1. cbn [mbind option_bind]. rewrite H2. cbn [mbind option_bind].
  assert (exists f, Z.to_nat (n - nevents q) = S f) as [f ->] by (exists (pred (Z.to_nat (n - nevents q))); lia).
  cbn [init_slots]. rewrite Hmem. cbn [Z.eqb mbind option_bind].
  assert (forall j s, (j < Z.to_nat (nevents q))%nat -> b2 !! j = Some s ->
    rdz (array q) (slot_of (head q) (nevents q) j) = Some s) as Rj.
  { intros j s Hj. rewrite <- Hr, rdz_nat by lia. done. }
  destruct (free_slots_deletes b2 (Z.to_nat (nevents q)) (buffers q)) as (m' & -> & D & K).
  - lia.
  - intros j s Hj Hb2. specialize (Rj _ _ Hj Hb2). eauto.
  - intros j k s t Hj Hk Hb2 Hb2' E. apply Rj in Hb2, Hb2'; [|done..].
    pose proof (SO _ _ _ _ Hb2 Hb2' E) as Es. apply slot_of_inj in Es; [done|lia..].
  - cbn [mbind option_bind]. eexists. split; [reflexivity|]. split_and!; try done. cbn. intros i s Hi.
    pose proof (rdz_Some_range _ _ _ Hi) as Hri. set (k := Z.to_nat (if head q <=? i then i - head q else i - head q + nevents q)).
    assert (slot_of (head q) (nevents q) k = i /\ (k < Z.to_nat (nevents q))%nat) as [Ek Hk].
    { unfold k. destruct (Z.leb_spec (head q) i); (rewrite slot_of_cases; [|lia|lia]); bcase; lia. }
    apply (D k); [done|]. rewrite <- rdz_nat, Hr, Ek by lia. done.
Qed.

Lemma mieqGrowQueue_dropped ok mem n q b q' : mieqGrowQueue ok mem n q = Some (b, q') -> dropped q' = dropped q.
Proof.
  unfold mieqGrowQueue. intros H. destruct (_ <=? _); [by simplify_eq|]. destruct (negb ok); [by simplify_eq|].
  repeat (apply bind_Some in H as (? & _ & H)).
  match type of H with match ?r with _ => _ end = _ => destruct r as [[? ?]|[[? ?] ?]] end; [by simplify_eq|].
  apply bind_Some in H as (? & _ & H). by simplify_eq.
Qed.

(** When the ring is full and there is memory for a larger array but not for its
    first new buffer, the event is counted as dropped, but the buffers of the events that
    wait were freed with the new array: the server thread reads freed memory when it takes
    the next one out. *)
Theorem full_ring_use_after_free ids q l mem dev e dv :
  ring ids q l -> Z.of_nat (length l) + 1 = nevents q -> type e <> ET_Motion -> mem (nevents q) = 0 ->
  exists q', mieqEnqueue true mem dev e dv q = Some (e, q') /\ dropped q' = u64 (dropped q + 1) /\ take_event q' = None.
Proof.
  intros R Hfull Hm Hmem. pose proof (ring_pos _ _ _ R) as Hp. pose proof (mieqNumEnqueued_ring _ _ _ R) as En.
  assert (nevents q < u64 (nevents q ≪ 1)) as Hn.
  { rewrite Z.shiftl_mul_pow2 by lia. rewrite uwrap_small; lia. }
  destruct (growth_failure_frees ids q l mem _ R Hn Hmem) as (q1 & E & Hh & Ht & Ha & D).
  unfold mieqEnqueue. rewrite decide_False by done. cbn [mbind option_bind]. rewrite En.
  cbn [Z.eqb negb andb]. rewrite (proj2 (Z.eqb_eq _ _)), E by done. cbn [mbind option_bind negb].
  assert (dropped q1 = dropped q) as Hd by apply (mieqGrowQueue_dropped _ _ _ _ _ _ E).
  eexists. split; [done|]. split; [by rewrite Hd|]. unfold take_event. cbn [head tail array buffers set_dropped].
  rewrite Hh, Ht, (ring_tail _ _ _ R). destruct R as [Hs Hhd Hl Htl S Hlast].
  assert (l <> []) as Hne by (intros ->; cbn in Hfull; lia).
  rewrite (proj2 (Z.eqb_neq _ _)).
  2:{ rewrite <- (slot_of_0 (head q) (nevents q)) at 1 by done. intros E'. apply slot_of_inj in E'; [by destruct l|lia|lia|lia]. }
  assert (is_Some (rdz (array q1) (head q))) as [s Hs1].
  { apply rdz_is_Some. rewrite Ha, (slots_length _ _ _ _ _ S). lia. }
  rewrite Hs1. cbn [mbind option_bind]. by rewrite (D _ _ Hs1).
Qed.

(** ** A mouse with its masters and a ring of two slots *)

Definition ids_of (s : Devices) (d : Z) : option Z := id <$> devices s !! d.

(** Devices 2 and 3 are the masters, 6 is the mouse, with its buttons 1 and 3 swapped. *)
Definition demo_buttons : list Z := [0; 3; 2; 1] ++ seqZ 4 252.
Definition demo_device (i : Z) (t : device_type) (m p : Z) (b : option (list Z)) : Device :=
  {| id := i; enabled := true; dtype := t; master := m; paired := p; sprite := 1; button_map := b; lastSlave := 0 |}.
Definition demo_devices : Devices :=
  {| devices := <[2 := demo_device 2 MASTER_POINTER 0 3 None]> (<[3 := demo_device 3 MASTER_KEYBOARD 0 2 None]>
                  (<[6 := demo_device 6 SLAVE 2 0 (Some demo_buttons)]> ∅));
     sprites := {[1 := {| enqueue_screen := 9; dequeue_screen := 9 |}]} |}.
Definition demo_event (t : EventType) (at_ b : Z) : InternalEvent :=
  {| type := t; time := at_; deviceid := 6; button := b; pointer_emulated := false; root_x := 1; root_y := 2; body := 0 |}.

(** A ring of two slots that holds a motion. *)
Definition demo_entry : InternalEvent * Z * Z := (demo_event ET_Motion 100 0, 6, 9).
Definition demo_ring : EventQueue :=
  {| head := 1; tail := 0; lastEventTime := 100; lastMotion := 6;
     array := [{| events := 11; pScreen := 0; pDev := 0 |}; {| events := 12; pScreen := 9; pDev := 6 |}];
     nevents := 2; dropped := 0; buffers := <[11 := no_event]> {[12 := demo_event ET_Motion 100 0]} |}.

Lemma demo_ring_ok : ring (ids_of demo_devices) demo_ring [demo_entry].
Proof.
  split; try done.
  - by exists 1.
  - assert (forall i s, rdz (array demo_ring) i = Some s -> i = 0 /\ events s = 11 \/ i = 1 /\ events s = 12) as R.
    { intros i s Hi. pose proof (rdz_Some_range _ _ _ Hi) as Hr. cbn in Hr.
      assert (i = 0 \/ i = 1) as [-> | ->] by lia; injection Hi as <-; auto. }
    split; [done| | | |].
    + intros i s Hi. destruct (R _ _ Hi) as [[_ ->]|[_ ->]]; done.
    + intros i s Hi. destruct (R _ _ Hi) as [[_ ->]|[_ ->]]; cbn; eauto.
    + intros i j s t Hi Hj E. destruct (R _ _ Hi) as [[-> E1]|[-> E1]], (R _ _ Hj) as [[-> E2]|[-> E2]]; congruence.
    + intros [|k] x [= <-]. eexists _, _. split; [reflexivity|]. split; [|reflexivity]. reflexivity.
  - intros x [= <-]. reflexivity.
Qed.

Lemma full_ring_use_after_free_witness :
  exists q', mieqEnqueue true (fun _ => 0) 6 (demo_event ET_ButtonPress 130 1) demo_devices demo_ring =
      Some (demo_event ET_ButtonPress 130 1, q') /\ dropped q' = u64 (dropped demo_ring + 1) /\ take_event q' = None.
Proof.
  apply (full_ring_use_after_free (ids_of demo_devices) demo_ring [demo_entry]); [apply demo_ring_ok|done..].
Defined.
