(* ===== verification/EventDelivery.v ===== *)
(** * The delivery of input events ([xserver/mi/mieq.c])

    The server thread takes the events out of the ring of [EventQueue] and gives each one to
    the slave device that made it and to a master, while the input thread goes on
    enqueueing. The devices and the screens behind the calls are not modelled: a call is
    recorded, and [effect] says what it does to the device hierarchy. *)

From S2P Require Import Prelude EventQueue.

(** ** Processing *)

(** The events that carry a device, and those that move the sprite to a new screen. *)
Definition carries_device (t : EventType) : bool :=
  match t with
  | ET_Motion | ET_KeyPress | ET_KeyRelease | ET_ButtonPress | ET_ButtonRelease | ET_ProximityIn | ET_ProximityOut
  | ET_Hierarchy | ET_DeviceChanged | ET_TouchBegin | ET_TouchUpdate | ET_TouchEnd | ET_TouchOwnership
  | ET_RawKeyPress | ET_RawKeyRelease | ET_RawButtonPress | ET_RawButtonRelease | ET_RawMotion
  | ET_RawTouchBegin | ET_RawTouchEnd | ET_RawTouchUpdate | ET_BarrierHit | ET_BarrierLeave
  | ET_GesturePinchBegin | ET_GesturePinchUpdate | ET_GesturePinchEnd
  | ET_GestureSwipeBegin | ET_GestureSwipeUpdate | ET_GestureSwipeEnd => true
  | _ => false
  end.

Definition ChangeDeviceID (dev : Device) (e : InternalEvent) : InternalEvent :=
  if carries_device (type e) then set_deviceid (id dev) e else e.

(** [original] is not changed before, so that its button is the copy's. *)
Definition FixUpEventForMaster (sdev : Device) (original master : InternalEvent) : option InternalEvent :=
  match type original with
  | ET_ButtonPress | ET_ButtonRelease =>
      match button_map sdev with
      | None => Some master
      | Some m => b ← rdz m (button original); Some (set_button b master)
      end
  | _ => Some master
  end.

Definition master_wanted (t : EventType) : which :=
  match t with
  | ET_KeyPress | ET_KeyRelease => WANT_KEYBOARD
  | ET_ButtonPress | ET_ButtonRelease | ET_Motion | ET_ProximityIn | ET_ProximityOut => WANT_POINTER
  | _ => MASTER_ATTACHED
  end.

(** [None] inside is the NULL of a device without a master. *)
Definition CopyGetMasterEvent (sdev : Z) (original : InternalEvent) (s : Devices) : option (option (Z * InternalEvent)) :=
  if sdev =? 0 then Some None
  else
    v ← devices s !! sdev;
    floating ← IsFloating sdev s;
    if IsMaster v || floating then Some None
    else
      mdev ← GetMaster sdev (master_wanted (type original)) s;
      mv ← devices s !! mdev;
      copy ← FixUpEventForMaster v original (ChangeDeviceID mv original);
      Some (Some (mdev, copy)).

(** The calls that leave the queue, oldest first. *)
Inductive call :=
  | Process (dev : Z) (e : InternalEvent)               (* dev->public.processInputProc *)
  | Handle (h screenNum : Z) (e : InternalEvent) (dev : Z)
  | NewCurrentScreen (dev screen x y : Z)
  | UpdateSprite (dev : Z).

Record Dix := { ds : Devices; calls : list call }.

Section processing.
(** [miEventQueue.handlers] (0 for none), the numbers of the screens, and what a call does to
    the devices. *)
Context (handlers : EventType -> Z) (myNum : Z -> Z) (effect : call -> Devices -> Devices).

Definition do_call (c : call) (s : Dix) : Dix := {| ds := effect c (ds s); calls := calls s ++ [c] |}.

Definition put_device (d : Z) (v : Device) (s : Devices) : Devices :=
  {| devices := <[d := v]> (devices s); sprites := sprites s |}.

Definition set_lastSlave (d : Z) (v : Device) : Device :=
  {| id := id v; enabled := enabled v; dtype := dtype v; master := master v; paired := paired v; sprite := sprite v;
     button_map := button_map v; lastSlave := d |}.

Definition mieqMoveToNewScreen (dev screen : Z) (e : InternalEvent) (s : Dix) : option Dix :=
  if (dev =? 0) || (screen =? 0) then Some s
  else
    v ← devices (ds s) !! dev;
    sp ← sprites (ds s) !! sprite v;
    if screen =? dequeue_screen sp then Some s
    else
      let sprites' := <[sprite v := {| enqueue_screen := enqueue_screen sp; dequeue_screen := screen |}]> (sprites (ds s)) in
      Some (do_call (NewCurrentScreen dev screen (root_x e) (root_y e))
              {| ds := {| devices := devices (ds s); sprites := sprites' |}; calls := calls s |}).

Definition moves_screen (e : InternalEvent) : bool :=
  match type e with
  | ET_Motion | ET_KeyPress | ET_KeyRelease | ET_ButtonPress | ET_ButtonRelease => true
  | ET_TouchBegin | ET_TouchUpdate | ET_TouchEnd => pointer_emulated e
  | _ => false
  end.

Definition mieqProcessDeviceEvent (dev : Z) (e : InternalEvent) (screen : Z) (s : Dix) : option Dix :=
  off ← (if dev =? 0 then Some false else v ← devices (ds s) !! dev; Some (negb (enabled v)));
  if off : bool then Some s
  else
    let handler := handlers (type e) in
    s ← (if (handler =? 0) && moves_screen e then mieqMoveToNewScreen dev screen e s else Some s);
    m ← CopyGetMasterEvent dev e (ds s);
    s ← match m with
        | Some (mdev, _) =>
            mv ← devices (ds s) !! mdev;
            Some {| ds := put_device mdev (set_lastSlave dev mv) (ds s); calls := calls s |}
        | None => Some s
        end;
    if negb (handler =? 0) then
      screenNum ← (if dev =? 0 then Some (if screen =? 0 then 0 else myNum screen)
                   else sp ← sprite_of dev (ds s);
                        Some (if negb (dequeue_screen sp =? 0) then myNum (dequeue_screen sp)
                              else if screen =? 0 then 0 else myNum screen));
      let s := do_call (Handle handler screenNum e dev) s in
      match m with
      | Some (mdev, mevent) =>
          floating ← IsFloating dev (ds s);
          Some (if floating : bool then s else do_call (Handle handler screenNum mevent mdev) s)
      | None => Some s
      end
    else if dev =? 0 then None
    else
      let s := do_call (Process dev e) s in
      match m with
      | Some (mdev, mevent) =>
          floating ← IsFloating dev (ds s);
          Some (if floating : bool then s else do_call (Process mdev mevent) s)
      | None => Some s
      end.

(** The iteration of the loop of [mieqProcessInputEvents] behind the dequeue: the screen
    saver and the power management are left out. *)
Definition process_event (event : InternalEvent) (dev screen : Z) (s : Dix) : option Dix :=
  m ← (if dev =? 0 then Some 0 else GetMaster dev MASTER_ATTACHED (ds s));
  s ← mieqProcessDeviceEvent dev event screen s;
  Some (if negb (m =? 0) &&
           match type event with
           | ET_Motion => true
           | ET_TouchBegin | ET_TouchUpdate => pointer_emulated event
           | _ => false
           end
        then do_call (UpdateSprite dev) s else s).

(** An event that a device makes, and the answers of the allocator, which know the heap. *)
Record arrival := { calloc_ok : bool; alloc : gmap Z InternalEvent -> Z -> Z; source : Z; made : InternalEvent }.

Fixpoint enqueue_all (l : list arrival) (d : Devices) (q : EventQueue) : option EventQueue :=
  match l with
  | [] => Some q
  | a :: l =>
      r ← mieqEnqueue (calloc_ok a) (alloc a (buffers q)) (source a) (made a) d q;
      enqueue_all l d (snd r)
  end.

(** The loop of [mieqProcessInputEvents]; while the n-th event is processed, without the
    lock, the input thread enqueues the n-th list of [arrivals]. *)
Fixpoint process_loop (fuel : nat) (arrivals : list (list arrival)) (s : Dix) (q : EventQueue)
  : option (Dix * EventQueue) :=
  match fuel with
  | O => None
  | S fuel =>
      r ← take_event q;
      match r with
      | (None, q) => Some (s, q)
      | (Some (event, dev, screen), q) =>
          s ← process_event event dev screen s;
          q ← enqueue_all (hd [] arrivals) (ds s) q;
          process_loop fuel (tl arrivals) s q
      end
  end.

(** The callbacks that wait for the queue to be empty are left out. *)
Definition mieqProcessInputEvents (fuel : nat) (arrivals : list (list arrival)) (s : Dix) (q : EventQueue)
  : option (Dix * EventQueue) :=
  process_loop fuel arrivals s (if negb (dropped q =? 0) then set_dropped 0 q else q).

End processing.

(** ** The device hierarchy *)

(** What the device hierarchy keeps: sprites exist, an attached slave has a master, masters
    come in pairs, and a button map has an entry for every button. *)
Record devices_ok (s : Devices) : Prop := {
  device_sprite : forall d v, devices s !! d = Some v -> is_Some (sprites s !! sprite v);
  device_master : forall d v, devices s !! d = Some v -> dtype v = SLAVE -> master v <> 0 ->
    exists m, devices s !! master v = Some m /\ IsMaster m = true;
  device_paired : forall d v, devices s !! d = Some v -> IsMaster v = true -> is_Some (devices s !! paired v);
  device_buttons : forall d v m, devices s !! d = Some v -> button_map v = Some m -> length m = 256%nat;
  device_null : devices s !! 0 = None;
}.

Lemma ids_of_is_Some s d : is_Some (ids_of s d) <-> is_Some (devices s !! d).
Proof. apply fmap_is_Some. Qed.

Lemma IsMaster_slave v : IsMaster v = false -> dtype v = SLAVE.
Proof. unfold IsMaster. by destruct (dtype v). Qed.

Lemma GetMaster_total s d w :
  devices_ok s -> is_Some (devices s !! d) ->
  exists m, GetMaster d w s = Some m /\ (m = 0 \/ is_Some (devices s !! m)).
Proof.
  intros [HS HM HP HB H0] [v Hv]. unfold GetMaster. rewrite Hv. cbn [mbind option_bind].
  assert (forall m mv, devices s !! m = Some mv -> IsMaster mv = true ->
    exists m', (mv ← devices s !! m;
      match w, dtype mv with
      | MASTER_ATTACHED, _ => Some m
      | (WANT_KEYBOARD | KEYBOARD_OR_FLOAT), MASTER_KEYBOARD => Some m
      | (WANT_POINTER | POINTER_OR_FLOAT), MASTER_POINTER => Some m
      | _, _ => Some (paired mv)
      end) = Some m' /\ (m' = 0 \/ is_Some (devices s !! m'))) as Pair.
  { intros m mv Hm Hmv. rewrite Hm. cbn [mbind option_bind]. specialize (HP _ _ Hm Hmv).
    destruct w, (dtype mv); eexists; (split; [reflexivity|]); eauto. }
  destruct (IsMaster v) eqn:Ev.
  - destruct (Z.eqb_spec d 0) as [->|]; [by rewrite H0 in Hv|]. by apply (Pair d v).
  - destruct (Z.eqb_spec (master v) 0) as [E|E]; [destruct w; eauto|].
    destruct (HM _ _ Hv (IsMaster_slave _ Ev) E) as (m & Hm & Im). by apply (Pair _ m).
Qed.

Lemma IsFloating_total s d :
  devices_ok s -> is_Some (devices s !! d) -> is_Some (IsFloating d s).
Proof.
  intros H Hd. unfold IsFloating. destruct (GetMaster_total s d WANT_KEYBOARD H Hd) as (m & -> & _).
  destruct Hd as [v ->]. cbn. destruct (IsMaster v); eauto.
Qed.

(** The button of an event is an index of the button map. *)
Definition event_ok (e : InternalEvent) : Prop := 0 <= button e < 256.

Lemma FixUpEventForMaster_total s d v e c :
  devices_ok s -> devices s !! d = Some v -> event_ok e -> is_Some (FixUpEventForMaster v e c).
Proof.
  intros H Hv He. unfold FixUpEventForMaster.
  destruct (button_map v) as [m|] eqn:E; [|by destruct (type e)].
  assert (is_Some (rdz m (button e))) as [b Hb].
  { apply rdz_is_Some. rewrite (device_buttons _ H _ _ _ Hv E). apply He. }
  rewrite Hb. destruct (type e); cbn; eauto.
Qed.

(** A slave that is attached has a keyboard and so a master of every kind. *)
Lemma attached_master s d v w :
  devices_ok s -> devices s !! d = Some v -> IsMaster v = false -> IsFloating d s = Some false ->
  exists m mv, GetMaster d w s = Some m /\ devices s !! m = Some mv.
Proof.
  intros H Hv Ev Hf.
  assert (master v <> 0) as Hm.
  { intros E. revert Hf. unfold IsFloating, GetMaster. rewrite Hv. cbn [mbind option_bind]. by rewrite Ev, E. }
  destruct (device_master _ H _ _ Hv (IsMaster_slave _ Ev) Hm) as (mv & Hmv & Im).
  destruct (device_paired _ H _ _ Hmv Im) as [pv Hpv].
  unfold GetMaster. rewrite Hv. cbn [mbind option_bind]. rewrite Ev, (proj2 (Z.eqb_neq _ _)) by done.
  rewrite Hmv. cbn [mbind option_bind]. destruct w, (dtype mv); eauto.
Qed.

Lemma CopyGetMasterEvent_total s d e :
  devices_ok s -> is_Some (devices s !! d) -> event_ok e ->
  exists m, CopyGetMasterEvent d e s = Some m /\
    (forall mdev c, m = Some (mdev, c) -> is_Some (devices s !! mdev)).
Proof.
  intros H [v Hv] He. unfold CopyGetMasterEvent. destruct (d =? 0); [by eexists|].
  rewrite Hv. cbn [mbind option_bind].
  destruct (IsFloating_total s d H) as [f Hf]; [eauto|]. rewrite Hf. cbn [mbind option_bind].
  destruct (IsMaster v) eqn:Ev; [by eexists|]. destruct f; [by eexists|]. cbn [orb].
  destruct (attached_master s d v (master_wanted (type e)) H Hv Ev Hf) as (m & mv & -> & Hmv).
  cbn [mbind option_bind]. rewrite Hmv. cbn [mbind option_bind].
  destruct (FixUpEventForMaster_total s d v e (ChangeDeviceID mv e) H Hv He) as [c ->]. cbn [mbind option_bind].
  eexists. split; [done|]. intros ?? [= <- <-]. eauto.
Qed.

Section deliver.
Context (handlers : EventType -> Z) (myNum : Z -> Z) (effect : call -> Devices -> Devices).

(** What the calls out of the queue do: devices may be attached, detached, enabled and
    disabled, but not made or destroyed, and they keep their identifiers. *)
Context (effect_ok : forall c s, devices_ok s -> devices_ok (effect c s)).
Context (effect_ids : forall c s d, ids_of (effect c s) d = ids_of s d).

(** The devices are well formed and are the ones that [ids] names. *)
Definition dix_ok (ids : Z -> option Z) (s : Dix) : Prop := devices_ok (ds s) /\ forall d, ids d = ids_of (ds s) d.

Lemma do_call_ok ids c s : dix_ok ids s -> dix_ok ids (do_call effect c s).
Proof using effect_ok effect_ids. intros [H I]. split; cbn; [by apply effect_ok|]. intros d. by rewrite effect_ids. Qed.

Lemma dix_device ids s d : dix_ok ids s -> is_Some (ids d) -> is_Some (devices (ds s) !! d).
Proof. intros [H I]. rewrite I. apply ids_of_is_Some. Qed.

Lemma mieqMoveToNewScreen_total ids dev screen e s :
  dix_ok ids s -> is_Some (ids dev) ->
  exists s', mieqMoveToNewScreen effect dev screen e s = Some s' /\ dix_ok ids s'.
Proof using effect_ok effect_ids.
  intros H Hd. destruct (dix_device _ _ _ H Hd) as [v Hv]. unfold mieqMoveToNewScreen.
  destruct (_ || _)%bool; [eauto|]. rewrite Hv. cbn [mbind option_bind].
  destruct (device_sprite _ (proj1 H) _ _ Hv) as [sp Hsp]. rewrite Hsp. cbn [mbind option_bind].
  destruct (screen =? _); [eauto|]. eexists. split; [done|]. apply do_call_ok.
  destruct H as [[HS HM HP HB H0] I]. split; [|done]. split; cbn; try done.
  intros d w Hw. apply lookup_insert_is_Some'. eauto.
Qed.

Lemma set_lastSlave_ok ids mdev mv d s :
  dix_ok ids s -> devices (ds s) !! mdev = Some mv ->
  dix_ok ids {| ds := put_device mdev (set_lastSlave d mv) (ds s); calls := calls s |}.
Proof.
  intros [[HS HM HP HB H0] I] Hm.
  assert (forall d' v', devices (put_device mdev (set_lastSlave d mv) (ds s)) !! d' = Some v' ->
    exists v, devices (ds s) !! d' = Some v /\ (v' = v \/ v' = set_lastSlave d v)) as L.
  { intros d' v'. cbn. rewrite lookup_insert_Some. intros [[-> <-]|[_ Hv]]; eauto. }
  assert (forall d', is_Some (devices (ds s) !! d') -> is_Some (<[mdev := set_lastSlave d mv]> (devices (ds s)) !! d')) as K.
  { intros d' Hd'. apply lookup_insert_is_Some'. by right. }
  split; [split|].
  - intros d' v' Hv'. destruct (L _ _ Hv') as (v & Hv & [-> | ->]); cbn; eauto.
  - intros d' v' Hv' Ht Hn. destruct (L _ _ Hv') as (v & Hv & E).
    destruct (HM d' v) as (m & Hm' & Im); [done|by destruct E as [-> | ->]..|].
    assert (master v' = master v) as -> by (by destruct E as [-> | ->]). cbn.
    destruct (decide (master v = mdev)) as [E'|E'].
    + exists (set_lastSlave d mv). rewrite E', lookup_insert_eq. split; [done|]. rewrite E' in Hm'. by simplify_eq.
    + exists m. by rewrite lookup_insert_ne.
  - intros d' v' Hv' Hi. destruct (L _ _ Hv') as (v & Hv & [-> | ->]); cbn; eauto.
  - intros d' v' b Hv' Hb. destruct (L _ _ Hv') as (v & Hv & [-> | ->]); cbn in *; eauto.
  - cbn. rewrite lookup_insert_ne; [done|]. intros ->. congruence.
  - intros d'. rewrite I. unfold ids_of. cbn. destruct (decide (d' = mdev)) as [->|].
    + by rewrite lookup_insert_eq, Hm.
    + by rewrite lookup_insert_ne.
Qed.

Lemma screenNum_total ids s dev :
  dix_ok ids s -> is_Some (ids dev) -> is_Some (sprite_of dev (ds s)).
Proof.
  intros H Hd. destruct (dix_device _ _ _ H Hd) as [v Hv]. unfold sprite_of. rewrite Hv. cbn.
  by apply (device_sprite _ (proj1 H) _ _ Hv).
Qed.

(** The second call, for the master. *)
Lemma master_call_total ids (c1 : call) (m : option (Z * InternalEvent)) (c2 : Z -> InternalEvent -> call) dev s :
  dix_ok ids s -> is_Some (ids dev) ->
  exists s', match m with
             | Some (mdev, mevent) =>
                 floating ← IsFloating dev (ds (do_call effect c1 s));
                 Some (if floating : bool then do_call effect c1 s
                       else do_call effect (c2 mdev mevent) (do_call effect c1 s))
             | None => Some (do_call effect c1 s)
             end = Some s' /\ dix_ok ids s'.
Proof using effect_ok effect_ids.
  intros H Hd. pose proof (do_call_ok _ c1 _ H) as H1. destruct m as [[mdev mevent]|]; [|eauto].
  destruct (IsFloating_total _ _ (proj1 H1) (dix_device _ _ _ H1 Hd)) as [f ->]. cbn [mbind option_bind].
  eexists. split; [done|]. destruct f; [done|by apply do_call_ok].
Qed.

Lemma mieqProcessDeviceEvent_total ids dev e screen s :
  dix_ok ids s -> is_Some (ids dev) -> event_ok e ->
  exists s', mieqProcessDeviceEvent handlers myNum effect dev e screen s = Some s' /\ dix_ok ids s'.
Proof using effect_ok effect_ids.
  intros H Hd He. destruct (dix_device _ _ _ H Hd) as [v Hv].
  assert (dev <> 0) as Hne by (intros ->; by rewrite (device_null _ (proj1 H)) in Hv).
  unfold mieqProcessDeviceEvent. rewrite !(proj2 (Z.eqb_neq dev 0)) by done. rewrite Hv. cbn [mbind option_bind].
  destruct (negb (enabled v)); [eauto|].
  assert (exists s1, (if (handlers (type e) =? 0) && moves_screen e then mieqMoveToNewScreen effect dev screen e s
                      else Some s) = Some s1 /\ dix_ok ids s1) as (s1 & -> & H1).
  { destruct (_ && _)%bool; [by apply mieqMoveToNewScreen_total|eauto]. }
  cbn [mbind option_bind].
  destruct (CopyGetMasterEvent_total (ds s1) dev e (proj1 H1) (dix_device _ _ _ H1 Hd) He) as (m & -> & Hm).
  cbn [mbind option_bind].
  assert (exists s2, match m with
                     | Some (mdev, _) => mv ← devices (ds s1) !! mdev;
                         Some {| ds := put_device mdev (set_lastSlave dev mv) (ds s1); calls := calls s1 |}
                     | None => Some s1
                     end = Some s2 /\ dix_ok ids s2) as (s2 & -> & H2).
  { destruct m as [[mdev c]|]; [|eauto]. destruct (Hm _ _ eq_refl) as [mv Hmv]. rewrite Hmv. cbn [mbind option_bind].
    eexists. split; [done|]. by apply set_lastSlave_ok. }
  cbn [mbind option_bind]. destruct (negb _).
  - destruct (screenNum_total _ _ _ H2 Hd) as [sp Hsp]. rewrite Hsp. cbn [mbind option_bind]. by apply master_call_total.
  - by apply (master_call_total ids (Process dev e) m Process).
Qed.

Definition entry_ok (ids : Z -> option Z) (x : entry) : Prop := let '(e, d, _) := x in event_ok e /\ is_Some (ids d).

Definition process_entry (s : option Dix) (x : entry) : option Dix :=
  let '(e, dev, screen) := x in s ← s; process_event handlers myNum effect e dev screen s.

Lemma process_event_total ids x s :
  dix_ok ids s -> entry_ok ids x -> exists s', process_entry (Some s) x = Some s' /\ dix_ok ids s'.
Proof using effect_ok effect_ids.
  destruct x as [[e dev] screen]. intros H [He Hd]. cbn. unfold process_event.
  destruct (dix_device _ _ _ H Hd) as [v Hv].
  assert (dev <> 0) as Hne by (intros ->; by rewrite (device_null _ (proj1 H)) in Hv).
  rewrite (proj2 (Z.eqb_neq dev 0)) by done.
  destruct (GetMaster_total (ds s) dev MASTER_ATTACHED (proj1 H)) as (m & -> & _); [eauto|]. cbn [mbind option_bind].
  destruct (mieqProcessDeviceEvent_total _ dev e screen s H Hd He) as (s1 & -> & H1). cbn [mbind option_bind].
  eexists. split; [done|]. destruct (_ && _)%bool; [by apply do_call_ok|done].
Qed.

(** *** The events that arrive while others are processed *)

(** There is memory, for buffers that are not in use. *)
Definition arrival_ok (ids : Z -> option Z) (a : arrival) : Prop :=
  calloc_ok a = true /\ (forall m n n', 0 <= n -> fresh_buffers (alloc a m) n n' m) /\
  event_ok (made a) /\ is_Some (ids (source a)).

(** The entry that an arrival makes: the screen is the one of its device then. *)
Definition makes (a : arrival) (x : entry) : Prop := exists scr, x = (made a, source a, scr).

Lemma enqueue_screen_total ids s dev :
  dix_ok ids s -> is_Some (ids dev) -> is_Some (enqueue_screen_of dev (ds s)).
Proof.
  intros H Hd. unfold enqueue_screen_of. destruct (dev =? 0); [eauto|].
  destruct (screenNum_total _ _ _ H Hd) as [sp ->]. cbn. eauto.
Qed.

Lemma entry_ok_queue_after ids l y :
  Forall (entry_ok ids) l -> entry_ok ids y -> Forall (entry_ok ids) (queue_after ids l y).
Proof.
  intros Hl Hy. unfold queue_after. destruct (last l); [destruct (supersedes _ _ _)|]; apply Forall_app; split; auto.
  by apply Forall_take.
Qed.

Lemma enqueue_all_refines ids s arr q l :
  dix_ok ids s -> ring ids q l -> Forall (entry_ok ids) l -> Forall (arrival_ok ids) arr ->
  Z.of_nat (length l + length arr) + 1 < 2 ^ 31 ->
  exists q' l' new, enqueue_all arr (ds s) q = Some q' /\ ring ids q' l' /\ Forall (entry_ok ids) l' /\
    (length l' <= length l + length arr)%nat /\ dropped q' = dropped q /\ Forall2 makes arr new /\
    (forall r t, kept ids (l' ++ r) t -> kept ids (l ++ new ++ r) t).
Proof.
  intros Hs. revert q l. induction arr as [|a arr IH]; intros q l R Hl Ha Hn.
  - exists q, l, []. cbn. split_and!; [done..|lia|done|constructor|done].
  - inversion Ha as [|? ? (Hc & Hf & He & Hd) Ha']; subst. cbn [length] in Hn.
    destruct (enqueue_screen_total _ _ _ Hs Hd) as [scr Hscr].
    set (y := (made a, source a, scr) : entry).
    assert (is_Some (motion_of ids y)) as Hm.
    { cbn. destruct (decide _); [done|eauto]. }
    destruct (mieqEnqueue_refines (calloc_ok a) (alloc a (buffers q)) (source a) (made a) (ds s) q l ids scr R)
      as (e' & q1 & E & Q); [apply Hs|done|done| |].
    { intros Hfull _. rewrite (mieqNumEnqueued_ring _ _ _ R) in Hfull. pose proof (ring_pos _ _ _ R). split; [lia|apply Hf; lia]. }
    destruct Q as [[R1 D1]|[Hc' _]]; [|congruence].
    pose proof (queue_after_length ids l y) as Hlen.
    destruct (IH q1 (queue_after ids l y) R1) as (q' & l' & new & E' & R' & Hl' & Hn' & D' & M & K); [|done| |].
    { apply entry_ok_queue_after; [done|]. by split. }
    { fold y in Hlen. lia. }
    exists q', l', (y :: new). cbn [enqueue_all]. rewrite E. cbn [mbind option_bind snd]. split_and!; [done..| | | |].
    + cbn [length]. lia.
    + by rewrite D'.
    + constructor; [by exists scr|done].
    + intros r t Hk. apply K in Hk. by apply kept_queue_after in Hk.
Qed.

(** All that arrives while the first [n] events are processed. *)
Definition arrived (n : nat) (arrivals : list (list arrival)) : list arrival := concat (take n arrivals).

(** The loop on a ring that holds [l]. *)
Lemma process_loop_delivers ids fuel arrivals s q l :
  dix_ok ids s -> ring ids q l -> Forall (entry_ok ids) l -> Forall (Forall (arrival_ok ids)) arrivals ->
  (length l + length (concat arrivals) < fuel)%nat -> Z.of_nat (length l + length (concat arrivals)) + 1 < 2 ^ 31 ->
  exists s' q' taken new, process_loop handlers myNum effect fuel arrivals s q = Some (s', q') /\
    ring ids q' [] /\ dropped q' = dropped q /\ dix_ok ids s' /\
    foldl process_entry (Some s) taken = Some s' /\
    Forall2 makes (arrived (length taken) arrivals) new /\ kept ids (l ++ new) taken.
Proof using effect_ok effect_ids.
  revert arrivals s q l. induction fuel as [|fuel IH]; intros arrivals s q l Hs R Hl Ha Hf Hn; [lia|].
  cbn [process_loop]. pose proof (take_event_ring _ _ _ R) as T. destruct l as [|x l].
  - rewrite T. exists s, q, [], []. cbn. split_and!; try done; [constructor..].
  - destruct T as (q1 & -> & R1 & D1). cbn [mbind option_bind]. inversion Hl as [|? ? Hx Hl']; subst.
    destruct x as [[e dev] screen].
    destruct (process_event_total _ _ _ Hs Hx) as (s1 & E1 & Hs1). cbn in E1. rewrite E1. cbn [mbind option_bind].
    assert (length (concat arrivals) = length (hd [] arrivals) + length (concat (tl arrivals)))%nat as Hc.
    { destruct arrivals; cbn; [done|]. by rewrite length_app. }
    cbn [length] in Hf, Hn. rewrite Hc in Hf, Hn.
    assert (Forall (arrival_ok ids) (hd [] arrivals) /\ Forall (Forall (arrival_ok ids)) (tl arrivals)) as [Hh Ht].
    { destruct arrivals; cbn; [done|]. by inversion Ha. }
    destruct (enqueue_all_refines ids s1 (hd [] arrivals) q1 l Hs1 R1 Hl' Hh) as
      (q2 & l2 & new & -> & R2 & Hl2 & Hn2 & D2 & M2 & K2); [lia|]. cbn [mbind option_bind].
    destruct (IH (tl arrivals) s1 q2 l2 Hs1 R2 Hl2 Ht) as
      (s' & q' & taken & new' & -> & R' & D' & Hs' & F & M' & K'); [lia|lia|].
    exists s', q', ((e, dev, screen) :: taken), (new ++ new'). split_and!; try done.
    + congruence.
    + cbn. by rewrite E1.
    + unfold arrived in *. cbn [length].
      destruct arrivals as [|a arrivals]; cbn in *.
      * inversion M2; subst. by destruct (length taken).
      * by apply Forall2_app.
    + cbn. apply kept_keep. by apply K2.
Qed.

(** C3: the ring buffer of input events is a queue for every sequence of arrivals during
    the processing: with well-formed devices and memory for the buffers,
    [mieqProcessInputEvents] ends after at most one round per event, with an empty ring and
    no event dropped, and it has processed one by one, in the order in which they were made,
    all events of the ring and all that arrived, except motions that the next event made
    replaced by a later motion of the same device. *)
Theorem mieqProcessInputEvents_delivers ids fuel arrivals s q l :
  dix_ok ids s -> ring ids q l -> Forall (entry_ok ids) l -> Forall (Forall (arrival_ok ids)) arrivals ->
  (length l + length (concat arrivals) < fuel)%nat -> Z.of_nat (length l + length (concat arrivals)) + 1 < 2 ^ 31 ->
  exists s' q' taken new, mieqProcessInputEvents handlers myNum effect fuel arrivals s q = Some (s', q') /\
    ring ids q' [] /\ dropped q' = 0 /\ dix_ok ids s' /\
    foldl process_entry (Some s) taken = Some s' /\
    Forall2 makes (arrived (length taken) arrivals) new /\ kept ids (l ++ new) taken.
Proof using effect_ok effect_ids.
  intros Hs R Hl Ha Hf Hn. unfold mieqProcessInputEvents.
  destruct (Z.eqb_spec (dropped q) 0) as [E|E]; cbn [negb].
  - destruct (process_loop_delivers ids fuel arrivals s q l) as (s' & q' & t & n & ? & ? & D & ?); [done..|].
    exists s', q', t, n. rewrite D, E. done.
  - destruct (process_loop_delivers ids fuel arrivals s (set_dropped 0 q) l) as (s' & q' & t & n & ? & ? & D & ?);
      [done|by apply set_dropped_ring|done..|].
    exists s', q', t, n. rewrite D. done.
Qed.

End deliver.

(** *** The order of the calls *)

(** What a button event becomes for the master: the button that the slave maps it to. *)
Definition mapped_button (v : Device) (e : InternalEvent) (b : Z) : Prop :=
  match type e, button_map v with
  | (ET_ButtonPress | ET_ButtonRelease), Some m => rdz m (button e) = Some b
  | _, _ => b = button e
  end.

Lemma master_copy v mv e c :
  FixUpEventForMaster v e (ChangeDeviceID mv e) = Some c ->
  exists b, mapped_button v e b /\
    c = set_button b (if carries_device (type e) then set_deviceid (id mv) e else e).
Proof.
  unfold FixUpEventForMaster, ChangeDeviceID, mapped_button. intros H. destruct e as [t ? ? b ? ? ? ?], (button_map v) as [m|];
    destruct t; cbn in *; try (exists b; by simplify_eq);
    (apply bind_Some in H as (b' & Hb & H); exists b'; by simplify_eq).
Qed.

Section order.
Context (handlers : EventType -> Z) (myNum : Z -> Z) (effect : call -> Devices -> Devices).

(** The event does not move the pointer to another screen. *)
Definition stays (dev screen : Z) (e : InternalEvent) (d : Devices) : Prop :=
  moves_screen e = false \/ screen = 0 \/ dequeue_screen <$> sprite_of dev d = Some screen.

Lemma stays_same dev screen e s :
  devices_ok (ds s) -> is_Some (devices (ds s) !! dev) -> stays dev screen e (ds s) ->
  (if (handlers (type e) =? 0) && moves_screen e then mieqMoveToNewScreen effect dev screen e s else Some s) = Some s.
Proof.
  intros Hok [v Hv] [-> | Hst]; [by rewrite andb_false_r|]. destruct (_ && _)%bool; [|done].
  unfold mieqMoveToNewScreen. destruct Hst as [-> | Hst]; [by rewrite orb_true_r|]. destruct (_ || _)%bool; [done|].
  unfold sprite_of in Hst. rewrite Hv in *. cbn [mbind option_bind] in *.
  destruct (sprites (ds s) !! sprite v); [|done]. simplify_eq/=. by rewrite Z.eqb_refl.
Qed.

(** An event that stays on its screen and has no handler goes to its enabled slave
    first, unchanged, and then to the master that the kind of event asks for, with the
    master's identifier and the button that the slave maps the button to, unless the first
    call has detached the slave; the master remembers the slave. *)
Theorem slave_first_then_master s dev e screen v :
  devices_ok (ds s) -> devices (ds s) !! dev = Some v -> enabled v = true -> IsMaster v = false -> master v <> 0 ->
  handlers (type e) = 0 -> stays dev screen e (ds s) -> event_ok e ->
  exists mdev mv b, GetMaster dev (master_wanted (type e)) (ds s) = Some mdev /\ devices (ds s) !! mdev = Some mv /\
    mapped_button v e b /\
    let copy := set_button b (if carries_device (type e) then set_deviceid (id mv) e else e) in
    let s1 := do_call effect (Process dev e)
                {| ds := put_device mdev (set_lastSlave dev mv) (ds s); calls := calls s |} in
    mieqProcessDeviceEvent handlers myNum effect dev e screen s =
      (f ← IsFloating dev (ds s1);
       Some (if f : bool then s1 else do_call effect (Process mdev copy) s1)).
Proof.
  intros Hok Hv Hen Hsl Hm Hh Hst He.
  assert (dev <> 0) as Hne by (intros ->; by rewrite (device_null _ Hok) in Hv).
  assert (IsFloating dev (ds s) = Some false) as Hf.
  { unfold IsFloating, GetMaster. rewrite Hv. cbn [mbind option_bind]. rewrite Hsl, (proj2 (Z.eqb_neq _ _)) by done.
    destruct (device_master _ Hok _ _ Hv (IsMaster_slave _ Hsl) Hm) as (mv & Hmv & Im). rewrite Hmv. cbn [mbind option_bind].
    destruct (device_paired _ Hok _ _ Hmv Im) as [pv Hpv].
    destruct (dtype mv); cbn [mbind option_bind]; rewrite ?(proj2 (Z.eqb_neq _ _)); try done;
      intros E; rewrite E, (device_null _ Hok) in *; done. }
  destruct (attached_master _ dev v (master_wanted (type e)) Hok Hv Hsl Hf) as (mdev & mv & Hg & Hmv).
  destruct (FixUpEventForMaster_total _ dev v e (ChangeDeviceID mv e) Hok Hv He) as [c Hc].
  destruct (master_copy _ _ _ _ Hc) as (b & Hb & Ec). exists mdev, mv, b. do 3 (split; [done|]). cbv zeta.
  assert (CopyGetMasterEvent dev e (ds s) = Some (Some (mdev, c))) as HC.
  { unfold CopyGetMasterEvent. rewrite (proj2 (Z.eqb_neq dev 0)), Hv by done. cbn [mbind option_bind]. rewrite Hf.
    cbn [mbind option_bind]. rewrite Hsl, Hg. cbn [orb mbind option_bind]. rewrite Hmv. cbn [mbind option_bind]. by rewrite Hc. }
  unfold mieqProcessDeviceEvent. rewrite !(proj2 (Z.eqb_neq dev 0)), Hv by done. cbn [mbind option_bind]. rewrite Hen.
  cbn [negb]. rewrite stays_same by eauto. cbn [mbind option_bind]. rewrite HC. cbn [mbind option_bind]. rewrite Hmv.
  cbn [mbind option_bind]. rewrite Hh. cbn [Z.eqb negb]. by rewrite Ec.
Qed.

End order.

(** Events of a device that is disabled go nowhere. *)
Lemma disabled_device_silent handlers myNum effect s dev e screen v :
  dev <> 0 -> devices (ds s) !! dev = Some v -> enabled v = false ->
  mieqProcessDeviceEvent handlers myNum effect dev e screen s = Some s.
Proof.
  intros Hd Hv He. unfold mieqProcessDeviceEvent. rewrite (proj2 (Z.eqb_neq dev 0)), Hv by done.
  cbn [mbind option_bind]. by rewrite He.
Qed.

(** ** A mouse with its masters *)

(** An allocator that gives addresses above all those in use. *)
Definition top (m : gmap Z InternalEvent) : Z := foldr Z.max 0 (fst <$> map_to_list m).
Definition demo_alloc (m : gmap Z InternalEvent) (i : Z) : Z := top m + 1 + i.
Definition demo_arrival (t : EventType) (at_ b : Z) : arrival :=
  {| calloc_ok := true; alloc := demo_alloc; source := 6; made := demo_event t at_ b |}.

Lemma top_above m p v : m !! p = Some v -> p <= top m.
Proof.
  intros H. apply elem_of_map_to_list in H. apply (list_elem_of_fmap_2 fst) in H. cbn in H. unfold top.
  induction (fst <$> map_to_list m) as [|k l IH]; [by apply not_elem_of_nil in H|]. cbn.
  apply elem_of_cons in H as [-> | H]; [lia|]. specialize (IH H). lia.
Qed.

Lemma top_nonneg m : 0 <= top m.
Proof. unfold top. induction (fst <$> map_to_list m); cbn; lia. Qed.

Lemma demo_alloc_fresh m n n' : 0 <= n -> fresh_buffers (demo_alloc m) n n' m.
Proof.
  intros Hn. pose proof (top_nonneg m). unfold demo_alloc. split; intros; try lia.
  destruct (m !! _) eqn:E; [|done]. apply top_above in E. lia.
Qed.

Lemma demo_devices_cases d v :
  devices demo_devices !! d = Some v ->
  d = 2 /\ v = demo_device 2 MASTER_POINTER 0 3 None \/ d = 3 /\ v = demo_device 3 MASTER_KEYBOARD 0 2 None \/
  d = 6 /\ v = demo_device 6 SLAVE 2 0 (Some demo_buttons).
Proof. cbn. rewrite !lookup_insert_Some, lookup_empty.
  intros [[<- <-]|[_ [[<- <-]|[_ [[<- <-]|[_ [=]]]]]]]; auto. Qed.

Lemma demo_devices_ok : devices_ok demo_devices.
Proof.
  split; intros; try (destruct (demo_devices_cases _ _ H) as [[-> ->]|[[-> ->]|[-> ->]]]); try done; cbn in *; eauto.
  - injection H0 as <-. reflexivity.
Qed.

Definition demo_dix : Dix := {| ds := demo_devices; calls := [] |}.

Lemma demo_dix_ok : dix_ok (ids_of demo_devices) demo_dix.
Proof. split; [apply demo_devices_ok|done]. Qed.

Lemma demo_arrivals_ok t at_ b : 0 <= b < 256 -> arrival_ok (ids_of demo_devices) (demo_arrival t at_ b).
Proof. intros Hb. split; [done|]. split; [apply demo_alloc_fresh|]. split; [done|]. by eexists. Qed.

(** While the motion is processed, the mouse moves twice and presses a button: the ring
    grows, and the second of three motions is left out. *)
Definition demo_arrivals : list (list arrival) :=
  [[demo_arrival ET_Motion 110 0; demo_arrival ET_Motion 120 0; demo_arrival ET_ButtonPress 130 1]].

Lemma mieqProcessInputEvents_delivers_witness :
  exists s' q' taken new,
    mieqProcessInputEvents (fun _ => 0) (fun s => s) (fun _ d => d) 5 demo_arrivals demo_dix demo_ring = Some (s', q') /\
    ring (ids_of demo_devices) q' [] /\ dropped q' = 0 /\ dix_ok (ids_of demo_devices) s' /\
    foldl (process_entry (fun _ => 0) (fun s => s) (fun _ d => d)) (Some demo_dix) taken = Some s' /\
    Forall2 makes (arrived (length taken) demo_arrivals) new /\ kept (ids_of demo_devices) ([demo_entry] ++ new) taken.
Proof.
  apply (mieqProcessInputEvents_delivers (fun _ => 0) (fun s => s) (fun _ d => d)).
  - done.
  - done.
  - apply demo_dix_ok.
  - apply demo_ring_ok.
  - constructor; [split; [done|by eexists]|constructor].
  - repeat constructor; try apply demo_alloc_fresh; try done; by eexists.
  - cbn. lia.
  - cbn. lia.
Defined.

Definition motion_calls (at_ : Z) : list call :=
  [Process 6 (demo_event ET_Motion at_ 0); Process 2 (set_deviceid 2 (demo_event ET_Motion at_ 0)); UpdateSprite 6].

Example demo_processing :
  option_map (fun r => calls (fst r))
    (mieqProcessInputEvents (fun _ => 0) (fun s => s) (fun _ d => d) 5 demo_arrivals demo_dix demo_ring) =
  Some (motion_calls 100 ++ motion_calls 120 ++
        [Process 6 (demo_event ET_ButtonPress 130 1); Process 2 (set_button 3 (set_deviceid 2 (demo_event ET_ButtonPress 130 1)))]).
Proof. vm_compute. reflexivity. Qed.

Lemma slave_first_then_master_witness :
  exists mdev mv b, GetMaster 6 (master_wanted ET_ButtonPress) demo_devices = Some mdev /\ devices demo_devices !! mdev = Some mv /\
    mapped_button (demo_device 6 SLAVE 2 0 (Some demo_buttons)) (demo_event ET_ButtonPress 130 1) b /\
    let copy := set_button b (set_deviceid (id mv) (demo_event ET_ButtonPress 130 1)) in
    let s1 := do_call (fun _ d => d) (Process 6 (demo_event ET_ButtonPress 130 1))
                {| ds := put_device mdev (set_lastSlave 6 mv) demo_devices; calls := [] |} in
    mieqProcessDeviceEvent (fun _ => 0) (fun s => s) (fun _ d => d) 6 (demo_event ET_ButtonPress 130 1) 9 demo_dix =
      (f ← IsFloating 6 (ds s1); Some (if f : bool then s1 else do_call (fun _ d => d) (Process mdev copy) s1)).
Proof.
  apply (slave_first_then_master (fun _ => 0) (fun s => s) (fun _ d => d) demo_dix 6 (demo_event ET_ButtonPress 130 1) 9
           (demo_device 6 SLAVE 2 0 (Some demo_buttons))); try done.
  - apply demo_devices_ok.
  - right. right. reflexivity.
Defined.

(** A time that goes back is corrected in the caller's event only: the ring holds 100 and
    then 90. *)
Example queued_times_go_back :
  option_map (fun r => (time (fst r), map_to_list (time <$> buffers (snd r))))
    (mieqEnqueue true (demo_alloc (buffers demo_ring)) 6 (demo_event ET_ButtonPress 90 1) demo_devices demo_ring) =
  Some (100, map_to_list (<[11 := 90]> (<[12 := 100]> (<[15 := 0]> {[16 := 0]} : gmap Z Z)))).
Proof. vm_compute. reflexivity. Qed.
