(* ===== verification/DeviceClasses.v ===== *)
(** * The classes of the input devices ([lorie/InitInput.c] over [xserver/dix/devices.c])

    What a device can do is in its classes: axes, buttons, touch points, keys. The callbacks
    of lorie and of the server make them when a device is initialised, with an allocator
    that may refuse at any point. *)

From Stdlib Require Import String.
From S2P Require Import Prelude EventQueue EventDelivery.

(** ** Constants *)

Definition MAXDEVICES : Z := 256.
Definition MAX_BUTTONS : Z := 256.
Definition MAP_LENGTH : Z := MAX_BUTTONS.
Definition MAX_VALUATORS : Z := 36.
Definition NO_AXIS_LIMITS : Z := -1.
Definition MOTION_HISTORY_SIZE : Z := 256.
Definition Relative : Z := 0.
Definition Absolute : Z := 1.
Definition OutOfProximity : Z := 2.
Definition XIDirectTouch : Z := 1.
Definition XIDependentTouch : Z := 2.
Definition SCROLL_FLAG_NONE : Z := 0.
Definition SCROLL_FLAG_PREFERRED : Z := 4.
Definition PtrAccelNoOp : Z := 0.
Definition PtrAccelPredictable : Z := 1.
Definition PtrAccelLightweight : Z := 2.
Definition PtrAccelDefault : Z := PtrAccelPredictable.

Definition Success : Z := 0.
Definition BadValue : Z := 2.
Definition BadMatch : Z := 8.
Definition BadAccess : Z := 10.
Definition BadAlloc : Z := 11.
Definition BadImplementation : Z := 17.
Definition BadDevice : Z := 128.

(** ** Data *)

(** What a callback is asked for. *)
Inductive What := DEVICE_INIT | DEVICE_ON | DEVICE_OFF | DEVICE_CLOSE | OtherRequest.

(** The callbacks of the devices. *)
Inductive Proc := CorePointerProc | CoreKeyboardProc | lorieMouseProc | lorieTouchProc | lorieKeybdProc | lorieStylusProc.

Inductive ScrollType := SCROLL_TYPE_NONE | SCROLL_TYPE_VERTICAL | SCROLL_TYPE_HORIZONTAL.

#[export] Instance ScrollType_eq_dec : EqDecision ScrollType.
Proof. solve_decision. Defined.

(** An atom is the name behind it, the empty string for none. The increment of a scroll
    axis is a whole number everywhere. *)
Record AxisInfo := {
  resolution : Z; min_resolution : Z; max_resolution : Z; min_value : Z; max_value : Z;
  label : string; mode : Z; scroll_type : ScrollType; increment : Z; scroll_flags : Z;
}.

(** [accelScheme]: its number, and whether it has data. *)
Record Accel := { number : Z; accelData : bool }.

(** [motion] says that there is memory for the history. *)
Record ValuatorClass := {
  axes : list AxisInfo; axisVal : list Z; valuator_source : Z; numMotionEvents : Z; motion : bool;
  accelScheme : Accel; h_scroll_axis : Z; v_scroll_axis : Z;
}.

(** [xkb_acts] is the number of actions, 0 for NULL. *)
Record ButtonClass := { button_source : Z; numButtons : Z; map : list Z; labels : list string; xkb_acts : Z }.

(** For every touch point whether it has its memory. *)
Record TouchClass := { touch_source : Z; touches : list bool; max_touches : Z; touch_mode : Z }.

(** The classes of a device and the fields of [last] that go with them. [ptrfeed] are the
    identifiers of the feedbacks. *)
Record Classes := {
  key : bool; valuator : option ValuatorClass; touch : option TouchClass; button : option ButtonClass;
  proximity : bool; ptrfeed : list Z; last_scroll : bool; last_numValuators : Z; last_touches : list bool;
}.

Definition no_classes : Classes :=
  {| key := false; valuator := None; touch := None; button := None; proximity := false; ptrfeed := [];
     last_scroll := false; last_numValuators := 0; last_touches := [] |}.

(** The pointers of a device to others: [last_slave] is [last.slave], the sprite and the
    paired device are those of [spriteInfo]. 0 is NULL. *)
Record Links := { master : Z; lastSlave : Z; last_slave : Z; spriteOwner : bool; sprite : Z; paired : Z }.

Definition no_links : Links :=
  {| master := 0; lastSlave := 0; last_slave := 0; spriteOwner := false; sprite := 0; paired := 0 |}.

(** [dtype] is [type], [None] for a device that was never given one. *)
Record Device := {
  id : Z; dtype : option device_type; deviceProc : Proc; startup : bool; xtest_master_id : Z;
  xinput_type : string; name : string; inited : bool; enabled : bool; on : bool; links : Links; classes : Classes;
}.

(** A device as it is allocated. *)
Definition fresh_device (i : Z) (p : Proc) (b : bool) : Device :=
  {| id := i; dtype := None; deviceProc := p; startup := b; xtest_master_id := 0; xinput_type := EmptyString; name := EmptyString;
     inited := false; enabled := false; on := false; links := no_links; classes := no_classes |}.

Definition set_classes c v := {| id := id v; dtype := dtype v; deviceProc := deviceProc v; startup := startup v;
  xtest_master_id := xtest_master_id v; xinput_type := xinput_type v; name := name v; inited := inited v;
  enabled := enabled v; on := on v; links := links v; classes := c |}.
Definition set_links l v := {| id := id v; dtype := dtype v; deviceProc := deviceProc v; startup := startup v;
  xtest_master_id := xtest_master_id v; xinput_type := xinput_type v; name := name v; inited := inited v;
  enabled := enabled v; on := on v; links := l; classes := classes v |}.
Definition set_power i e o v := {| id := id v; dtype := dtype v; deviceProc := deviceProc v; startup := startup v;
  xtest_master_id := xtest_master_id v; xinput_type := xinput_type v; name := name v; inited := i;
  enabled := e; on := o; links := links v; classes := classes v |}.
Definition set_on o v := set_power (inited v) (enabled v) o v.
Definition set_enabled e v := set_power (inited v) e (on v) v.
Definition set_inited i v := set_power i (enabled v) (on v) v.
Definition set_name t n v := {| id := id v; dtype := dtype v; deviceProc := deviceProc v; startup := startup v;
  xtest_master_id := xtest_master_id v; xinput_type := t; name := n; inited := inited v;
  enabled := enabled v; on := on v; links := links v; classes := classes v |}.
Definition set_kind t n x l v := {| id := id v; dtype := t; deviceProc := deviceProc v; startup := startup v;
  xtest_master_id := x; xinput_type := xinput_type v; name := n; inited := inited v;
  enabled := enabled v; on := on v; links := l; classes := classes v |}.

Definition set_key b c := {| key := b; valuator := valuator c; touch := touch c; button := button c; proximity := proximity c;
  ptrfeed := ptrfeed c; last_scroll := last_scroll c; last_numValuators := last_numValuators c; last_touches := last_touches c |}.
Definition set_valuator x c := {| key := key c; valuator := x; touch := touch c; button := button c; proximity := proximity c;
  ptrfeed := ptrfeed c; last_scroll := last_scroll c; last_numValuators := last_numValuators c; last_touches := last_touches c |}.
Definition set_touch x l c := {| key := key c; valuator := valuator c; touch := x; button := button c; proximity := proximity c;
  ptrfeed := ptrfeed c; last_scroll := last_scroll c; last_numValuators := last_numValuators c; last_touches := l |}.
Definition set_button x c := {| key := key c; valuator := valuator c; touch := touch c; button := x; proximity := proximity c;
  ptrfeed := ptrfeed c; last_scroll := last_scroll c; last_numValuators := last_numValuators c; last_touches := last_touches c |}.
Definition set_proximity b c := {| key := key c; valuator := valuator c; touch := touch c; button := button c; proximity := b;
  ptrfeed := ptrfeed c; last_scroll := last_scroll c; last_numValuators := last_numValuators c; last_touches := last_touches c |}.
Definition set_ptrfeed l c := {| key := key c; valuator := valuator c; touch := touch c; button := button c; proximity := proximity c;
  ptrfeed := l; last_scroll := last_scroll c; last_numValuators := last_numValuators c; last_touches := last_touches c |}.
Definition set_last b n c := {| key := key c; valuator := valuator c; touch := touch c; button := button c; proximity := proximity c;
  ptrfeed := ptrfeed c; last_scroll := b; last_numValuators := n; last_touches := last_touches c |}.

Definition IsMaster (v : Device) : bool :=
  match dtype v with Some MASTER_POINTER | Some MASTER_KEYBOARD => true | _ => false end.

Definition IsPointerDevice (v : Device) : bool :=
  let c := classes v in
  bool_decide (dtype v = Some MASTER_POINTER) || bool_decide (is_Some (valuator c)) && bool_decide (is_Some (button c))
  || bool_decide (is_Some (valuator c)) && negb (key c).

Definition IsKeyboardDevice (v : Device) : bool :=
  bool_decide (dtype v = Some MASTER_KEYBOARD) || key (classes v) && negb (IsPointerDevice v).

Definition IsXTestDevice (v : Device) : bool := negb (IsMaster v) && negb (xtest_master_id v =? 0).

(** ** Making the classes of a device *)

(** A step of an initialisation works on the device and on the answers of the allocator
    still to come (there is memory when none is left); [None] is an access through NULL
    or outside of an array. *)
Definition Init (A : Type) : Type := Device -> list bool -> option (A * (Device * list bool)).

Definition ret {A} (x : A) : Init A := fun v l => Some (x, (v, l)).
Definition bind {A B} (m : Init A) (f : A -> Init B) : Init B :=
  fun v l => '((x, (v, l)) : A * (Device * list bool)) ← m v l; f x v l.
Definition crash {A} : Init A := fun _ _ => None.
Definition device : Init Device := fun v l => Some (v, (v, l)).
Definition put (f : Device -> Device) : Init unit := fun v l => Some (tt, (f v, l)).
Definition alloc : Init bool := fun v l => Some (hd true l, (v, tl l)).

Declare Scope init_scope.
Delimit Scope init_scope with init.
Bind Scope init_scope with Init.
Open Scope init_scope.
Notation "x <- m ;; k" := (bind m (fun x => k)) (at level 100, m at next level, k at level 200, right associativity) : init_scope.
Notation "m ;; k" := (bind m (fun _ => k)) (at level 100, k at level 200, right associativity) : init_scope.
(** [!a || !b] of the code, turned round. *)
Notation "a >&& b" := (bind a (fun ok : bool => if ok then b else ret false)) (at level 60, right associativity) : init_scope.

Definition change (f : Classes -> Classes) : Init unit := put (fun v => set_classes (f (classes v)) v).

(** [n] allocations. *)
Fixpoint allocs (n : nat) : Init (list bool) :=
  match n with O => ret [] | S n => ok <- alloc;; l <- allocs n;; ret (ok :: l) end.

(** [map] is an array of [numButtons + 1] bytes at least, [btn_labels] of [numButtons]. *)
Definition InitButtonClassDeviceStruct (numButtons : Z) (btn_labels : list string) (m : list Z) : Init bool :=
  v <- device;;
  if bool_decide (is_Some (button (classes v))) || (MAX_BUTTONS <=? numButtons) then ret false
  else
    ok <- alloc;;
    if negb ok then ret false
    else
      match slice m 1 numButtons, slice btn_labels 0 numButtons with
      | Some used, Some names =>
          change (set_button (Some {| button_source := id v; numButtons := numButtons;
                    map := 0 :: used ++ seqZ (numButtons + 1) (MAP_LENGTH - numButtons - 1);
                    labels := names ++ replicate (Z.to_nat (MAX_BUTTONS - numButtons)) EmptyString; xkb_acts := 0 |}));;
          ret true
      | _, _ => crash
      end.

Definition InitProximityClassDeviceStruct : Init bool :=
  v <- device;;
  if proximity (classes v) then ret false
  else ok <- alloc;; if ok then change (set_proximity true);; ret true else ret false.

Definition set_axis (i : Z) (ax : AxisInfo) (w : ValuatorClass) : option ValuatorClass :=
  l ← wrz (axes w) i ax;
  Some {| axes := l; axisVal := axisVal w; valuator_source := valuator_source w; numMotionEvents := numMotionEvents w;
          motion := motion w; accelScheme := accelScheme w; h_scroll_axis := h_scroll_axis w; v_scroll_axis := v_scroll_axis w |}.
Definition set_scroll_axes (h v : Z) (w : ValuatorClass) : ValuatorClass :=
  {| axes := axes w; axisVal := axisVal w; valuator_source := valuator_source w; numMotionEvents := numMotionEvents w;
     motion := motion w; accelScheme := accelScheme w; h_scroll_axis := h; v_scroll_axis := v |}.
Definition set_accel (a : Accel) (w : ValuatorClass) : ValuatorClass :=
  {| axes := axes w; axisVal := axisVal w; valuator_source := valuator_source w; numMotionEvents := numMotionEvents w;
     motion := motion w; accelScheme := a; h_scroll_axis := h_scroll_axis w; v_scroll_axis := v_scroll_axis w |}.
Definition set_motion (b : bool) (w : ValuatorClass) : ValuatorClass :=
  {| axes := axes w; axisVal := axisVal w; valuator_source := valuator_source w; numMotionEvents := numMotionEvents w;
     motion := b; accelScheme := accelScheme w; h_scroll_axis := h_scroll_axis w; v_scroll_axis := v_scroll_axis w |}.

Definition store_axis (i : Z) (ax : AxisInfo) (w : ValuatorClass) : Init unit :=
  match set_axis i ax w with Some w => change (set_valuator (Some w)) | None => crash end.

Definition scrolls (t : ScrollType) (inc flags : Z) (ax : AxisInfo) : AxisInfo :=
  {| resolution := resolution ax; min_resolution := min_resolution ax; max_resolution := max_resolution ax;
     min_value := min_value ax; max_value := max_value ax; label := label ax; mode := mode ax;
     scroll_type := t; increment := inc; scroll_flags := flags |}.

(** The number of axes is that of the list; the events to clients and the update of the
    master are left out, a device that is being initialised is not in use. *)
Definition SetScrollValuator (axnum : Z) (t : ScrollType) (inc flags : Z) : Init bool :=
  v <- device;;
  match valuator (classes v) with
  | None => ret false
  | Some w =>
      if Z.of_nat (length (axes w)) <=? axnum then ret false
      else
        match rdz (axes w) axnum with
        | None => crash
        | Some ax =>
            if decide (t = SCROLL_TYPE_NONE) then
              store_axis axnum (scrolls t (increment ax) (scroll_flags ax) ax) w;; ret true
            else if inc =? 0 then ret false
            else
              let vertical := bool_decide (t = SCROLL_TYPE_VERTICAL) in
              let current := if vertical then v_scroll_axis w else h_scroll_axis w in
              let taken := match rdz (axes w) current with
                           | Some a => bool_decide (scroll_type a = t) && Z.testbit flags 2 && Z.testbit (scroll_flags a) 2
                           | None => false
                           end in
              if negb (current =? -1) && negb (axnum =? current) && taken then ret false
              else
                let w := if vertical then set_scroll_axes (h_scroll_axis w) axnum w else set_scroll_axes axnum (v_scroll_axis w) w in
                store_axis axnum (scrolls t inc flags ax) w;; ret true
        end
  end.

(** With [OutOfProximity] it writes to the proximity class. *)
Definition InitValuatorAxisStruct (axnum : Z) (l : string) (minval maxval res min_res max_res m : Z) : Init bool :=
  v <- device;;
  match valuator (classes v) with
  | None => ret false
  | Some w =>
      if (Z.of_nat (length (axes w)) <=? axnum) || (maxval <? minval) && (m =? Absolute) then ret false
      else
        match rdz (axes w) axnum with
        | None => crash
        | Some ax =>
            let ax := {| resolution := res; min_resolution := min_res; max_resolution := max_res; min_value := minval;
                         max_value := maxval; label := l; mode := u8 m; scroll_type := scroll_type ax;
                         increment := increment ax; scroll_flags := scroll_flags ax |} in
            store_axis axnum ax w;;
            if Z.testbit m 1 && negb (proximity (classes v)) then crash
            else SetScrollValuator axnum SCROLL_TYPE_NONE 0 SCROLL_FLAG_NONE
        end
  end.

(** The history of the motion: without memory there is none. *)
Definition AllocateMotionHistory : Init unit :=
  v <- device;;
  match valuator (classes v) with
  | None => crash
  | Some w =>
      if numMotionEvents w <? 1 then ret tt
      else ok <- alloc;; change (set_valuator (Some (set_motion ok w)))
  end.

(** The old scheme is cleaned up before the new one has its memory. The first two
    allocations are both made. *)
Definition InitPredictableAccelerationScheme : Init bool :=
  vel <- alloc;; schemeData <- alloc;;
  if negb (vel && schemeData) then ret false
  else
    prop_handlers <- alloc;;
    if negb prop_handlers then ret false
    else
      v <- device;;
      match valuator (classes v) with
      | None => crash
      | Some w => change (set_valuator (Some (set_accel {| number := PtrAccelPredictable; accelData := true |} w)));; ret true
      end.

Definition InitPointerAccelerationScheme (scheme : Z) : Init bool :=
  v <- device;;
  match valuator (classes v) with
  | None => ret false
  | Some w =>
      if IsMaster v && negb (scheme =? PtrAccelNoOp) then ret false
      else if negb (bool_decide (scheme ∈ [PtrAccelNoOp; PtrAccelPredictable; PtrAccelLightweight])) then ret false
      else
        (if number (accelScheme w) =? PtrAccelPredictable then
           change (set_valuator (Some (set_accel {| number := PtrAccelPredictable; accelData := false |} w)))
         else ret tt);;
        if scheme =? PtrAccelPredictable then InitPredictableAccelerationScheme
        else change (set_valuator (Some (set_accel {| number := scheme; accelData := false |} w)));; ret true
  end.

Definition no_axis : AxisInfo :=
  {| resolution := 0; min_resolution := 0; max_resolution := 0; min_value := 0; max_value := 0; label := EmptyString;
     mode := 0; scroll_type := SCROLL_TYPE_NONE; increment := 0; scroll_flags := 0 |}.

(** The loop over the axes from [i] on. *)
Fixpoint init_axes (n : nat) (i : Z) (axis_labels : list string) (m : Z) : Init unit :=
  match n with
  | O => ret tt
  | S n =>
      match rdz axis_labels i with
      | None => crash
      | Some l => InitValuatorAxisStruct i l NO_AXIS_LIMITS NO_AXIS_LIMITS 0 0 0 m;; init_axes n (i + 1) axis_labels m
      end
  end.

Definition InitValuatorClassDeviceStruct (numAxes : Z) (axis_labels : list string) (numMotionEvents m : Z) : Init bool :=
  let numAxes := Z.min numAxes MAX_VALUATORS in
  valc <- alloc;;
  if negb valc then ret false
  else
    scroll <- alloc;;
    if negb scroll then change (fun c => set_last false (last_numValuators c) c);; ret false
    else
      v <- device;;
      (if Z.testbit m 1 && negb (proximity (classes v)) then InitProximityClassDeviceStruct;; ret tt else ret tt);;
      change (fun c => set_last true (last_numValuators c)
        (set_valuator (Some {| axes := replicate (Z.to_nat numAxes) no_axis; axisVal := replicate (Z.to_nat numAxes) 0;
           valuator_source := id v; numMotionEvents := numMotionEvents; motion := false;
           accelScheme := {| number := 0; accelData := false |}; h_scroll_axis := -1; v_scroll_axis := -1 |}) c));;
      AllocateMotionHistory;;
      init_axes (Z.to_nat numAxes) 0 axis_labels m;;
      change (fun c => set_last true numAxes c);;
      InitPointerAccelerationScheme (if IsMaster v || IsXTestDevice v then PtrAccelNoOp else PtrAccelDefault);;
      ret true.

Definition InitPtrFeedbackClassDeviceStruct : Init bool :=
  ok <- alloc;;
  if ok then change (fun c => set_ptrfeed (match ptrfeed c with [] => 0 | i :: _ => i + 1 end :: ptrfeed c) c);; ret true
  else ret false.

(** A touch point needs two allocations; the second is not made without the first. *)
Fixpoint init_touches (n : nat) : Init (list bool) :=
  match n with
  | O => ret []
  | S n => valuators <- alloc;; trace <- (if valuators then alloc else ret false);; l <- init_touches n;; ret (trace :: l)
  end.

(** The array [last.touches] is used without a test for NULL. *)
Definition InitTouchClassDeviceStruct (max_touches mode num_axes : Z) : Init bool :=
  v <- device;;
  if bool_decide (is_Some (touch (classes v))) || bool_decide (valuator (classes v) = None)
     || negb ((mode =? XIDirectTouch) || (mode =? XIDependentTouch)) || (num_axes <? 2) then ret false
  else
    ok <- alloc;;
    if negb ok then ret false
    else
      let n := if max_touches =? 0 then 5 else max_touches in
      array <- alloc;;
      if negb array then ret false
      else
        points <- init_touches (Z.to_nat n);;
        last <- alloc;;
        if negb last then crash
        else
          ddx <- allocs (Z.to_nat n);;
          change (set_touch (Some {| touch_source := id v; touches := points; max_touches := max_touches; touch_mode := mode |}) ddx);;
          ret true.

(** The keyboard description is made by [XkbCompileKeymap], which calls another program;
    the answer says whether all went well. On a failure everything is undone. *)
Definition InitKeyboardDeviceStruct : Init bool :=
  v <- device;;
  if key (classes v) then ret false
  else ok <- alloc;; if ok then change (set_key true);; ret true else ret false.

Definition InitPointerDeviceStruct (m : list Z) (numButtons : Z) (btn_labels : list string) (numMotionEvents numAxes : Z)
    (axes_labels : list string) : Init bool :=
  v <- device;;
  let c := classes v in
  if bool_decide (is_Some (button c)) || bool_decide (is_Some (valuator c)) || negb (bool_decide (ptrfeed c = [])) then ret false
  else
    InitButtonClassDeviceStruct numButtons btn_labels m >&&
    InitValuatorClassDeviceStruct numAxes axes_labels numMotionEvents Relative >&&
    InitPtrFeedbackClassDeviceStruct.

(** ** The callbacks *)

(** A switch over what is asked for; where the code sets [public.on] depends on it. *)
Definition switch_on (b : bool) : Init Z := put (set_on b);; ret Success.

Definition or_bad_value (m : Init bool) : Init Z := ok <- m;; ret (if ok then Success else BadValue).

Definition lorieKeybdProc_body (onoff : What) : Init Z :=
  match onoff with
  | DEVICE_INIT => InitKeyboardDeviceStruct;; ret Success
  | DEVICE_ON => switch_on true
  | DEVICE_OFF => switch_on false
  | DEVICE_CLOSE => ret Success
  | OtherRequest => ret BadMatch
  end.

(** The array [map] of [n] buttons that map to themselves; its first byte is not used. *)
Definition identity_map (n : Z) : list Z := seqZ 0 (n + 1).

Definition pointer_labels : list string :=
  ["Button Left"; "Button Middle"; "Button Right"; "Button Wheel Up"; "Button Wheel Down"; "Button Horiz Wheel Left";
   "Button Horiz Wheel Right"; ""; ""; ""]%string.

Definition lorieInitPointerButtons : Init bool := InitButtonClassDeviceStruct 10 pointer_labels (identity_map 10).

Definition mouse_axis (i : Z) (l : string) : Init bool :=
  InitValuatorAxisStruct i l NO_AXIS_LIMITS NO_AXIS_LIMITS 0 0 0 Relative.

Definition lorieMouseProc_body (what : What) : Init Z :=
  match what with
  | DEVICE_INIT =>
      put (set_on false);;
      or_bad_value (
        lorieInitPointerButtons >&&
        InitValuatorClassDeviceStruct 4 ["Rel X"; "Rel Y"; "Rel Horiz Wheel"; "Rel Vert Wheel"]%string MOTION_HISTORY_SIZE Relative >&&
        mouse_axis 0 "Rel X" >&& mouse_axis 1 "Rel Y" >&& mouse_axis 2 "Rel Horiz Wheel" >&& mouse_axis 3 "Rel Vert Wheel" >&&
        SetScrollValuator 2 SCROLL_TYPE_HORIZONTAL 1 SCROLL_FLAG_NONE >&&
        SetScrollValuator 3 SCROLL_TYPE_VERTICAL 1 SCROLL_FLAG_PREFERRED >&&
        InitPtrFeedbackClassDeviceStruct >&&
        InitPointerAccelerationScheme PtrAccelPredictable)
  | DEVICE_ON => switch_on true
  | DEVICE_OFF | DEVICE_CLOSE => switch_on false
  | OtherRequest => ret BadMatch
  end.

(** The only button is mapped in [map[0]], which is not used. *)
Definition lorieTouchProc_body (what : What) : Init Z :=
  match what with
  | DEVICE_INIT =>
      put (set_on false);;
      or_bad_value (
        InitValuatorClassDeviceStruct 2 ["Abs MT Position X"; "Abs MT Position Y"]%string MOTION_HISTORY_SIZE Absolute >&&
        InitButtonClassDeviceStruct 1 ["Button Left"]%string [1; 0] >&&
        InitTouchClassDeviceStruct 20 XIDirectTouch 2 >&&
        InitValuatorAxisStruct 0 "Abs MT Position X" 0 0xFFFF 10000 0 10000 Absolute >&&
        InitValuatorAxisStruct 1 "Abs MT Position Y" 0 0xFFFF 10000 0 10000 Absolute)
  | DEVICE_ON => switch_on true
  | DEVICE_OFF | DEVICE_CLOSE => switch_on false
  | OtherRequest => ret BadMatch
  end.

Definition stylus_labels : list string :=
  ["Abs X"; "Abs Y"; "Abs Pressure"; "Abs Tilt X"; "Abs Tilt Y"; "Abs Wheel"]%string.

Definition lorieStylusProc_body (what : What) : Init Z :=
  match what with
  | DEVICE_INIT =>
      put (set_on false);;
      or_bad_value (
        InitValuatorClassDeviceStruct 6 stylus_labels MOTION_HISTORY_SIZE Absolute >&&
        InitValuatorAxisStruct 0 "Abs X" 0 0x3FFFF 10000 0 10000 Absolute >&&
        InitValuatorAxisStruct 1 "Abs Y" 0 0x3FFFF 10000 0 10000 Absolute >&&
        InitValuatorAxisStruct 2 "Abs Pressure" 0 0xFFFF 1 0 1 Absolute >&&
        InitValuatorAxisStruct 3 "Abs Tilt X" (-64) 63 57 0 57 Absolute >&&
        InitValuatorAxisStruct 4 "Abs Tilt Y" (-64) 63 57 0 57 Absolute >&&
        InitValuatorAxisStruct 5 "Abs Wheel" (-900) 899 1 0 1 Absolute >&&
        InitPtrFeedbackClassDeviceStruct >&&
        InitButtonClassDeviceStruct 3 [""; ""; ""]%string (identity_map 3))
  | DEVICE_ON => switch_on true
  | DEVICE_OFF | DEVICE_CLOSE => switch_on false
  | OtherRequest => ret BadMatch
  end.

Definition CoreKeyboardProc_body (what : What) : Init Z :=
  match what with
  | DEVICE_INIT => or_bad_value InitKeyboardDeviceStruct
  | OtherRequest => ret BadMatch
  | _ => ret Success
  end.

Definition set_position (x y : Z) (w : ValuatorClass) : option ValuatorClass :=
  l ← wrz (axisVal w) 0 x; l ← wrz l 1 y;
  Some {| axes := axes w; axisVal := l; valuator_source := valuator_source w; numMotionEvents := numMotionEvents w;
          motion := motion w; accelScheme := accelScheme w; h_scroll_axis := h_scroll_axis w; v_scroll_axis := v_scroll_axis w |}.

(** The pointer starts in the middle of a screen of this size. *)
Definition CorePointerProc_body (size : Z * Z) (what : What) : Init Z :=
  match what with
  | DEVICE_INIT =>
      ok <- InitPointerDeviceStruct (identity_map 10) 10 pointer_labels MOTION_HISTORY_SIZE 2 ["Rel X"; "Rel Y"]%string;;
      if negb ok then ret BadAlloc
      else
        v <- device;;
        match (w ← valuator (classes v); set_position (Z.quot (fst size) 2) (Z.quot (snd size) 2) w) with
        | Some w => change (set_valuator (Some w));; ret Success
        | None => crash
        end
  | _ => ret Success
  end.

Definition call_proc (size : Z * Z) (p : Proc) (what : What) : Init Z :=
  match p with
  | CorePointerProc => CorePointerProc_body size what
  | CoreKeyboardProc => CoreKeyboardProc_body what
  | lorieMouseProc => lorieMouseProc_body what
  | lorieTouchProc => lorieTouchProc_body what
  | lorieKeybdProc => lorieKeybdProc_body what
  | lorieStylusProc => lorieStylusProc_body what
  end.
Close Scope init_scope.

(** ** Well-formed classes *)

(** The classes of a device are within the limits of the protocol. *)
Record valuator_ok (w : ValuatorClass) : Prop := {
  vo_axes : Z.of_nat (length (axes w)) <= MAX_VALUATORS;
  vo_values : length (axisVal w) = length (axes w);
  vo_ranges : Forall (fun a => mode a = Absolute -> min_value a <= max_value a) (axes w);
  vo_scroll : forall i, i = h_scroll_axis w \/ i = v_scroll_axis w -> i = -1 \/ is_Some (rdz (axes w) i);
}.

Record button_ok (b : ButtonClass) : Prop := {
  bo_number : 0 <= numButtons b < MAX_BUTTONS;
  bo_map : Z.of_nat (length (map b)) = MAP_LENGTH;
  bo_bytes : Forall is_byte (map b);
  bo_labels : Z.of_nat (length (labels b)) = MAX_BUTTONS;
}.

Record classes_ok (c : Classes) : Prop := {
  co_valuator : forall w, valuator c = Some w -> valuator_ok w;
  co_button : forall b, button c = Some b -> button_ok b;
  co_touch : forall t, touch c = Some t -> is_Some (valuator c) /\ length (last_touches c) = length (touches t);
}.

(** What the life of a device is about. *)
Record Core := {
  c_id : Z; c_type : option device_type; c_xtest : Z; c_proc : Proc; c_inited : bool; c_enabled : bool; c_links : Links;
}.

Definition core_of (v : Device) : Core :=
  {| c_id := id v; c_type := dtype v; c_xtest := xtest_master_id v; c_proc := deviceProc v; c_inited := inited v;
     c_enabled := enabled v; c_links := links v |}.

Definition c_master (c : Core) : bool :=
  match c_type c with Some MASTER_POINTER | Some MASTER_KEYBOARD => true | _ => false end.


(** ** What the initialisations do *)

(** For every answer of the allocator the step [m] on [v] ends in a state of [Q]; it may go
    wrong only if [c]. *)
Definition wp {A} (c : Prop) (m : Init A) (v : Device) (Q : A -> Device -> Prop) : Prop :=
  forall l, match m v l with Some (a, (v', _)) => Q a v' | None => c end.

Section wp.
Context (c : Prop).

Lemma wp_ret {A} (a : A) v Q : Q a v -> wp c (ret a) v Q.
Proof. intros H l. exact H. Qed.

Lemma wp_bind {A B} (m : Init A) (f : A -> Init B) v Q : wp c m v (fun a v => wp c (f a) v Q) -> wp c (bind m f) v Q.
Proof.
  intros H l. specialize (H l). unfold bind. destruct (m v l) as [[a [v' l']]|]; [|done]. cbn [mbind option_bind]. apply H.
Qed.

Lemma wp_device v Q : Q v v -> wp c device v Q.
Proof. intros H l. exact H. Qed.

Lemma wp_put f v Q : Q tt (f v) -> wp c (put f) v Q.
Proof. intros H l. exact H. Qed.

Lemma wp_change f v Q : Q tt (set_classes (f (classes v)) v) -> wp c (change f) v Q.
Proof. intros H l. exact H. Qed.

Lemma wp_alloc v Q : (forall b, Q b v) -> wp c alloc v Q.
Proof. intros H l. apply H. Qed.

Lemma wp_mono {A} (m : Init A) v (Q R : A -> Device -> Prop) : (forall a v, Q a v -> R a v) -> wp c m v Q -> wp c m v R.
Proof. intros H Hm l. specialize (Hm l). destruct (m v l) as [[a [v' l']]|]; auto. Qed.

Lemma wp_and m n v Q : wp c m v (fun b v => if b : bool then wp c n v Q else Q false v) ->
  wp c (bind m (fun ok : bool => if ok then n else ret false)) v Q.
Proof. intros H. apply wp_bind. eapply wp_mono, H. intros [] v'; [done|apply wp_ret]. Qed.

Lemma wp_or_bad_value m v Q : wp c m v (fun b v => Q (if b : bool then Success else BadValue) v) -> wp c (or_bad_value m) v Q.
Proof. intros H. apply wp_bind. eapply wp_mono, H. intros b v' Hb. by apply wp_ret. Qed.

Lemma wp_allocs n v Q : (forall l, length l = n -> Q l v) -> wp c (allocs n) v Q.
Proof.
  revert Q. induction n as [|n IH]; intros Q H; cbn [allocs]; [apply wp_ret; by apply H|].
  apply wp_bind, wp_alloc. intros b. apply wp_bind, IH. intros l Hl. apply wp_ret, H. cbn. by rewrite Hl.
Qed.

Lemma wp_init_touches n v Q : (forall l, length l = n -> Q l v) -> wp c (init_touches n) v Q.
Proof.
  revert Q. induction n as [|n IH]; intros Q H; cbn [init_touches]; [apply wp_ret; by apply H|].
  apply wp_bind, wp_alloc. intros b. apply wp_bind.
  assert (forall b', wp c (bind (init_touches n) (fun l => ret (b' :: l))) v Q) as Hrest.
  { intros b'. apply wp_bind, IH. intros l Hl. apply wp_ret, H. cbn. by rewrite Hl. }
  destruct b; [apply wp_alloc|apply wp_ret]; auto.
Qed.

(** *** The classes *)

Definition new_button (i n : Z) (used : list Z) (names : list string) : ButtonClass :=
  {| button_source := i; numButtons := n; map := 0 :: used ++ seqZ (n + 1) (MAP_LENGTH - n - 1);
     labels := names ++ replicate (Z.to_nat (MAX_BUTTONS - n)) EmptyString; xkb_acts := 0 |}.

Lemma wp_button n names m v Q used : button (classes v) = None -> n < MAX_BUTTONS -> slice m 1 n = Some used -> slice names 0 n = Some names ->
  Q false v -> Q true (set_classes (set_button (Some (new_button (id v) n used names)) (classes v)) v) ->
  wp c (InitButtonClassDeviceStruct n names m) v Q.
Proof.
  intros Hb Hn Hm Hl HF HT. unfold InitButtonClassDeviceStruct. apply wp_bind, wp_device. rewrite Hb, (proj2 (Z.leb_gt _ n)) by done.
  cbn [bool_decide orb]. rewrite bool_decide_false by (by intros [x [=]]). cbn [orb].
  apply wp_bind, wp_alloc. intros []; cbn [negb]; [|by apply wp_ret]. rewrite Hm, Hl. apply wp_bind, wp_change. by apply wp_ret.
Qed.

Lemma wp_ptrfeed v Q : Q false v ->
  Q true (set_classes (set_ptrfeed (match ptrfeed (classes v) with [] => 0 | i :: _ => i + 1 end :: ptrfeed (classes v)) (classes v)) v) ->
  wp c InitPtrFeedbackClassDeviceStruct v Q.
Proof.
  intros HF HT. unfold InitPtrFeedbackClassDeviceStruct. apply wp_bind, wp_alloc. intros []; [|by apply wp_ret].
  apply wp_bind, wp_change. by apply wp_ret.
Qed.

Lemma wp_keyboard v Q : key (classes v) = false -> Q false v -> Q true (set_classes (set_key true (classes v)) v) ->
  wp c InitKeyboardDeviceStruct v Q.
Proof.
  intros Hk HF HT. unfold InitKeyboardDeviceStruct. apply wp_bind, wp_device. rewrite Hk. apply wp_bind, wp_alloc.
  intros []; [|by apply wp_ret]. apply wp_bind, wp_change. by apply wp_ret.
Qed.

Lemma wp_touch max md n v Q w : touch (classes v) = None -> valuator (classes v) = Some w -> (md =? XIDirectTouch) || (md =? XIDependentTouch) = true ->
  2 <= n -> 0 < max -> c -> Q false v ->
  (forall points ddx, length points = Z.to_nat max -> length ddx = Z.to_nat max ->
    Q true (set_classes (set_touch (Some {| touch_source := id v; touches := points; max_touches := max; touch_mode := md |}) ddx (classes v)) v)) ->
  wp c (InitTouchClassDeviceStruct max md n) v Q.
Proof.
  intros Ht Hv Hm Hn Hmax Hc HF HT. unfold InitTouchClassDeviceStruct. apply wp_bind, wp_device. rewrite Ht, Hv, Hm.
  rewrite (bool_decide_false (is_Some None)) by (by intros [x [=]]). rewrite bool_decide_false by done.
  rewrite (proj2 (Z.ltb_ge n 2)) by lia. cbn [orb negb].
  apply wp_bind, wp_alloc. intros []; cbn [negb]; [|by apply wp_ret]. rewrite (proj2 (Z.eqb_neq max 0)) by lia.
  apply wp_bind, wp_alloc. intros []; cbn [negb]; [|by apply wp_ret].
  apply wp_bind, wp_init_touches. intros points Hp. apply wp_bind, wp_alloc. intros []; cbn [negb]; [|by intros l].
  apply wp_bind, wp_allocs. intros ddx Hd. apply wp_bind, wp_change. apply wp_ret. by apply HT.
Qed.
End wp.

(** *** Axes *)

Definition with_axes (l : list AxisInfo) (w : ValuatorClass) : ValuatorClass :=
  {| axes := l; axisVal := axisVal w; valuator_source := valuator_source w; numMotionEvents := numMotionEvents w;
     motion := motion w; accelScheme := accelScheme w; h_scroll_axis := h_scroll_axis w; v_scroll_axis := v_scroll_axis w |}.

(** An axis as [InitValuatorAxisStruct] leaves it. *)
Definition described (l : string) (minval maxval res min_res max_res m : Z) (ax : AxisInfo) : AxisInfo :=
  {| resolution := res; min_resolution := min_res; max_resolution := max_res; min_value := minval; max_value := maxval; label := l;
     mode := u8 m; scroll_type := SCROLL_TYPE_NONE; increment := increment ax; scroll_flags := scroll_flags ax |}.

Definition plain_axis (m : Z) (l : string) : AxisInfo := described l NO_AXIS_LIMITS NO_AXIS_LIMITS 0 0 0 m no_axis.

Lemma set_axis_Some (i : nat) ax a w : axes w !! i = Some a -> set_axis (Z.of_nat i) ax w = Some (with_axes (<[i := ax]> (axes w)) w).
Proof.
  intros H. apply lookup_lt_Some in H. unfold set_axis. rewrite wrz_Some by lia. by rewrite Nat2Z.id.
Qed.

Section axes.
Context (c : Prop).

Lemma wp_store_axis (i : nat) ax a w v Q : axes w !! i = Some a ->
  Q tt (set_classes (set_valuator (Some (with_axes (<[i := ax]> (axes w)) w)) (classes v)) v) -> wp c (store_axis (Z.of_nat i) ax w) v Q.
Proof. intros Ha H. unfold store_axis. rewrite (set_axis_Some i ax a w Ha). by apply wp_change. Qed.

Lemma in_range {A} (l : list A) (i : nat) a : l !! i = Some a -> (Z.of_nat (length l) <=? Z.of_nat i) = false.
Proof. intros H. apply lookup_lt_Some in H. apply Z.leb_gt. lia. Qed.

Lemma wp_no_scroll (i : nat) inc flags w a v Q : valuator (classes v) = Some w -> axes w !! i = Some a ->
  Q true (set_classes (set_valuator (Some (with_axes (<[i := scrolls SCROLL_TYPE_NONE (increment a) (scroll_flags a) a]> (axes w)) w)) (classes v)) v) ->
  wp c (SetScrollValuator (Z.of_nat i) SCROLL_TYPE_NONE inc flags) v Q.
Proof.
  intros Hv Ha H. unfold SetScrollValuator. apply wp_bind, wp_device. rewrite Hv, (in_range _ _ _ Ha), rdz_nat, Ha.
  rewrite decide_True by done. apply wp_bind. apply (wp_store_axis i _ a); [done|]. by apply wp_ret.
Qed.

Lemma wp_axis (i : nat) l lo hi res r1 r2 m w a v Q : valuator (classes v) = Some w -> axes w !! i = Some a ->
  m = Relative \/ m = Absolute /\ lo <= hi ->
  Q true (set_classes (set_valuator (Some (with_axes (<[i := described l lo hi res r1 r2 m a]> (axes w)) w)) (classes v)) v) ->
  wp c (InitValuatorAxisStruct (Z.of_nat i) l lo hi res r1 r2 m) v Q.
Proof.
  intros Hv Ha Hm H. unfold InitValuatorAxisStruct. apply wp_bind, wp_device. rewrite Hv, (in_range _ _ _ Ha), rdz_nat, Ha.
  replace ((hi <? lo) && (m =? Absolute)) with false.
  2: { destruct Hm as [->|[-> ?]]; [by rewrite andb_false_r|]. by rewrite (proj2 (Z.ltb_ge hi lo)). }
  cbn [orb]. apply wp_bind. apply (wp_store_axis i _ a); [done|].
  replace (Z.testbit m 1) with false by (by destruct Hm as [->|[-> _]]). cbn [andb].
  eapply wp_no_scroll; [reflexivity|cbn; apply list_lookup_insert_eq; by apply lookup_lt_Some in Ha|]. cbn.
  by rewrite list_insert_insert_eq.
Qed.

Lemma wp_scroll (i : nat) t inc flags w a v Q : valuator (classes v) = Some w -> axes w !! i = Some a -> inc <> 0 ->
  t = SCROLL_TYPE_VERTICAL /\ v_scroll_axis w = -1 \/ t = SCROLL_TYPE_HORIZONTAL /\ h_scroll_axis w = -1 ->
  Q true (set_classes (set_valuator (Some (with_axes (<[i := scrolls t inc flags a]> (axes w))
    (if decide (t = SCROLL_TYPE_VERTICAL) then set_scroll_axes (h_scroll_axis w) (Z.of_nat i) w
     else set_scroll_axes (Z.of_nat i) (v_scroll_axis w) w))) (classes v)) v) ->
  wp c (SetScrollValuator (Z.of_nat i) t inc flags) v Q.
Proof.
  intros Hv Ha Hi Ht H. unfold SetScrollValuator. apply wp_bind, wp_device. rewrite Hv, (in_range _ _ _ Ha), rdz_nat, Ha.
  rewrite (proj2 (Z.eqb_neq inc 0)) by done.
  destruct Ht as [[-> E]|[-> E]]; rewrite decide_False by done; cbn -[store_axis]; rewrite E; cbn [Z.eqb negb andb];
    apply wp_bind; by apply (wp_store_axis i _ a); [|apply wp_ret].
Qed.

Lemma wp_init_axes m rest pre fin w v Q : m = Relative \/ m = Absolute -> valuator (classes v) = Some w ->
  axes w = fin ++ replicate (length rest) no_axis -> length fin = length pre ->
  Q tt (set_classes (set_valuator (Some (with_axes (fin ++ (plain_axis m <$> rest)) w)) (classes v)) v) ->
  wp c (init_axes (length rest) (Z.of_nat (length pre)) (pre ++ rest) m) v Q.
Proof.
  intros Hm. revert pre fin w v Q. induction rest as [|l rest IH]; intros pre fin w v Q Hv Ha Hl H; cbn [init_axes length].
  { apply wp_ret. cbn in H, Ha. rewrite app_nil_r in *. rewrite <- Ha in H. 
    replace (set_classes _ v) with v in H; [done|]. destruct v as [? ? ? ? ? ? ? ? ? ? ? []], w. cbn in Hv. by subst. }
  rewrite rdz_nat, list_lookup_middle by done. apply wp_bind.
  assert (axes w !! length pre = Some no_axis) as Hax by (rewrite Ha; by apply list_lookup_middle).
  apply (wp_axis _ _ _ _ _ _ _ _ w no_axis); [done|done|destruct Hm as [->| ->]; [by left|by right]|].
  replace (Z.of_nat (length pre) + 1) with (Z.of_nat (length (pre ++ [l]))) by (rewrite length_app; cbn; lia).
  rewrite (cons_middle l pre rest), app_assoc. eapply (IH (pre ++ [l]) (fin ++ [plain_axis m l])); [reflexivity| | |].
  - cbn. rewrite Ha, <- Hl, insert_app_r_alt, Nat.sub_diag by lia. cbn. by rewrite <- app_assoc.
  - rewrite !length_app. by rewrite Hl.
  - cbn in *. by rewrite <- app_assoc.
Qed.
End axes.

(** *** The whole class *)

Lemma same_valuator v w : valuator (classes v) = Some w -> set_classes (set_valuator (Some w) (classes v)) v = v.
Proof. intros H. destruct v as [? ? ? ? ? ? ? ? ? ? ? []]. cbn in H. by subst. Qed.

Section valuators.
Context (c : Prop).

(** The acceleration of a device is new, or the old one without its data. *)
Lemma wp_accel scheme w v Q : valuator (classes v) = Some w ->
  (forall b a, (b = true -> a = {| number := scheme; accelData := scheme =? PtrAccelPredictable |}) ->
    Q b (set_classes (set_valuator (Some (set_accel a w)) (classes v)) v)) ->
  wp c (InitPointerAccelerationScheme scheme) v Q.
Proof.
  intros Hv H. unfold InitPointerAccelerationScheme. apply wp_bind, wp_device. rewrite Hv.
  assert (Q false v) as HF.
  { replace v with (set_classes (set_valuator (Some (set_accel (accelScheme w) w)) (classes v)) v) at 1; [by apply H|].
    replace (set_accel (accelScheme w) w) with w by by destruct w. by apply same_valuator. }
  destruct (IsMaster v && _); [by apply wp_ret|]. destruct (negb _); [by apply wp_ret|].
  apply wp_bind. set (K := fun (_ : unit) v => wp c _ v Q).
  assert (forall a, K tt (set_classes (set_valuator (Some (set_accel a w)) (classes v)) v)) as HK.
  { intros a. unfold K. destruct (Z.eqb_spec scheme PtrAccelPredictable) as [->|Hs].
    - unfold InitPredictableAccelerationScheme. apply wp_bind, wp_alloc. intros b1. apply wp_bind, wp_alloc. intros b2.
      destruct (negb (b1 && b2)); [by apply wp_ret, H|]. apply wp_bind, wp_alloc. intros []; cbn [negb]; [|by apply wp_ret, H].
      apply wp_bind, wp_device. cbn [valuator classes set_classes set_valuator]. apply wp_bind, wp_change. apply wp_ret.
      apply (H true {| number := PtrAccelPredictable; accelData := true |}). done.
    - apply wp_bind, wp_change, wp_ret. apply (H true {| number := scheme; accelData := false |}). done. }
  destruct (number (accelScheme w) =? PtrAccelPredictable); [apply wp_change|apply wp_ret]; [apply HK|].
  replace v with (set_classes (set_valuator (Some (set_accel (accelScheme w) w)) (classes v)) v) at 1; [by apply HK|].
  replace (set_accel (accelScheme w) w) with w by by destruct w. by apply same_valuator.
Qed.

Lemma wp_history w v Q : valuator (classes v) = Some w ->
  (forall b, Q tt (set_classes (set_valuator (Some (set_motion b w)) (classes v)) v)) -> wp c AllocateMotionHistory v Q.
Proof.
  intros Hv H. unfold AllocateMotionHistory. apply wp_bind, wp_device. rewrite Hv. destruct (numMotionEvents w <? 1).
  - apply wp_ret. replace v with (set_classes (set_valuator (Some (set_motion (motion w) w)) (classes v)) v) at 1; [done|].
    replace (set_motion (motion w) w) with w by by destruct w. by apply same_valuator.
  - apply wp_bind, wp_alloc. intros b. by apply wp_change.
Qed.

(** The class of a device whose axes are only named. *)
Definition plain_valuator (i : Z) (names : list string) (ev m : Z) (history : bool) (a : Accel) : ValuatorClass :=
  {| axes := plain_axis m <$> names; axisVal := replicate (length names) 0; valuator_source := i; numMotionEvents := ev;
     motion := history; accelScheme := a; h_scroll_axis := -1; v_scroll_axis := -1 |}.

Lemma wp_valuator names ev m v Q : Z.of_nat (length names) <= MAX_VALUATORS -> m = Relative \/ m = Absolute ->
  Q false v -> Q false (set_classes (set_last false (last_numValuators (classes v)) (classes v)) v) ->
  (forall history a, Q true (set_classes (set_last true (Z.of_nat (length names))
     (set_valuator (Some (plain_valuator (id v) names ev m history a)) (classes v))) v)) ->
  wp c (InitValuatorClassDeviceStruct (Z.of_nat (length names)) names ev m) v Q.
Proof.
  intros Hn Hm H0 H1 H. unfold InitValuatorClassDeviceStruct. rewrite Z.min_l by done.
  apply wp_bind, wp_alloc. intros []; cbn [negb]; [|by apply wp_ret].
  apply wp_bind, wp_alloc. intros []; cbn [negb]; [|by apply wp_bind, wp_change, wp_ret].
  apply wp_bind, wp_device. apply wp_bind. replace (Z.testbit m 1) with false by (by destruct Hm as [->| ->]). cbn [andb].
  apply wp_ret. apply wp_bind, wp_change. rewrite Nat2Z.id. apply wp_bind. eapply wp_history; [reflexivity|]. intros history.
  apply wp_bind. eapply (wp_init_axes c m names [] []); [done|reflexivity|done|done|]. cbn.
  apply wp_bind, wp_change. apply wp_bind. eapply wp_accel; [reflexivity|]. intros b a _. apply wp_ret. exact (H history a).
Qed.
End valuators.

(** ** The callbacks *)

(** What a device tells the clients about itself: its axes with those that scroll
    (horizontally and vertically), its buttons with their map, the touch points. *)
Record Declaration := {
  d_axes : list AxisInfo; d_scroll : Z * Z; d_buttons : option (Z * list Z); d_touch : option (Z * Z); d_key : bool; d_feedbacks : nat;
}.

Definition declared (c : Classes) : Declaration :=
  {| d_axes := from_option axes [] (valuator c);
     d_scroll := from_option (fun w => (h_scroll_axis w, v_scroll_axis w)) (-1, -1) (valuator c);
     d_buttons := (fun b => (numButtons b, map b)) <$> button c;
     d_touch := (fun t => (Z.of_nat (length (touches t)), touch_mode t)) <$> touch c; d_key := key c; d_feedbacks := length (ptrfeed c) |}.

Definition absolute_axis (l : string) (lo hi res r2 : Z) : AxisInfo := described l lo hi res 0 r2 Absolute no_axis.

Definition declaration (p : Proc) : Declaration :=
  match p with
  | CorePointerProc =>
      {| d_axes := [plain_axis Relative "Rel X"; plain_axis Relative "Rel Y"]%string; d_scroll := (-1, -1);
         d_buttons := Some (10, seqZ 0 256); d_touch := None; d_key := false; d_feedbacks := 1 |}
  | CoreKeyboardProc | lorieKeybdProc =>
      {| d_axes := []; d_scroll := (-1, -1); d_buttons := None; d_touch := None; d_key := true; d_feedbacks := 0 |}
  | lorieMouseProc =>
      {| d_axes := [plain_axis Relative "Rel X"; plain_axis Relative "Rel Y";
           scrolls SCROLL_TYPE_HORIZONTAL 1 SCROLL_FLAG_NONE (plain_axis Relative "Rel Horiz Wheel");
           scrolls SCROLL_TYPE_VERTICAL 1 SCROLL_FLAG_PREFERRED (plain_axis Relative "Rel Vert Wheel")]%string;
         d_scroll := (2, 3); d_buttons := Some (10, seqZ 0 256); d_touch := None; d_key := false; d_feedbacks := 1 |}
  | lorieTouchProc =>
      {| d_axes := [absolute_axis "Abs MT Position X" 0 0xFFFF 10000 10000; absolute_axis "Abs MT Position Y" 0 0xFFFF 10000 10000]%string;
         d_scroll := (-1, -1); d_buttons := Some (1, 0 :: 0 :: seqZ 2 254); d_touch := Some (20, XIDirectTouch); d_key := false; d_feedbacks := 0 |}
  | lorieStylusProc =>
      {| d_axes := [absolute_axis "Abs X" 0 0x3FFFF 10000 10000; absolute_axis "Abs Y" 0 0x3FFFF 10000 10000;
           absolute_axis "Abs Pressure" 0 0xFFFF 1 1; absolute_axis "Abs Tilt X" (-64) 63 57 57; absolute_axis "Abs Tilt Y" (-64) 63 57 57;
           absolute_axis "Abs Wheel" (-900) 899 1 1]%string;
         d_scroll := (-1, -1); d_buttons := Some (3, seqZ 0 256); d_touch := None; d_key := false; d_feedbacks := 1 |}
  end.

(** What an initialisation by [p] makes of the device [v]. *)
Definition initialised (p : Proc) (v : Device) (r : Z) (v' : Device) : Prop :=
  core_of v' = core_of v /\ classes_ok (classes v') /\
  (r = Success -> declared (classes v') = declaration p \/ p = lorieKeybdProc /\ classes v' = no_classes).

(** *** The classes are well made *)

Lemma new_button_ok i n used names : 0 <= n < MAX_BUTTONS -> Z.of_nat (length used) = n -> Forall is_byte used -> Z.of_nat (length names) = n ->
  button_ok (new_button i n used names).
Proof.
  intros Hn Hu Hb Hl. unfold MAX_BUTTONS in *. split; cbn [numButtons map labels new_button].
  - done.
  - cbn [length]. rewrite length_app, length_seqZ. unfold MAP_LENGTH, MAX_BUTTONS. lia.
  - apply Forall_cons. split; [done|]. apply Forall_app. split; [done|]. apply Forall_forall. intros x Hx%elem_of_seqZ.
    unfold MAP_LENGTH, MAX_BUTTONS in Hx. unfold is_byte. lia.
  - rewrite length_app, length_replicate. unfold MAX_BUTTONS. lia.
Qed.

(** A decision for the classes whose axes are known. *)
Definition axis_okb (a : AxisInfo) : bool := negb (mode a =? Absolute) || (min_value a <=? max_value a).
Definition valuator_okb (w : ValuatorClass) : bool :=
  (Z.of_nat (length (axes w)) <=? MAX_VALUATORS) && (length (axisVal w) =? length (axes w))%nat && forallb axis_okb (axes w)
  && forallb (fun i => (i =? -1) || bool_decide (is_Some (rdz (axes w) i))) [h_scroll_axis w; v_scroll_axis w].

Lemma valuator_okb_ok w : valuator_okb w = true -> valuator_ok w.
Proof.
  unfold valuator_okb. intros [[[A B]%andb_true_iff C]%andb_true_iff D]%andb_true_iff. split.
  - by apply Z.leb_le.
  - by apply Nat.eqb_eq.
  - apply Forall_forall. intros a Ha%list_elem_of_In Hm. apply (proj1 (forallb_forall _ _) C), orb_true_iff in Ha as [E|E];
      [|by apply Z.leb_le]. by rewrite Hm in E.
  - cbn [forallb] in D. apply andb_true_iff in D as [D1 [D2 _]%andb_true_iff].
    intros i [-> | ->]; [apply orb_true_iff in D1 as [E|E]|apply orb_true_iff in D2 as [E|E]];
      first [left; by apply Z.eqb_eq|right; by apply bool_decide_eq_true in E].
Qed.

Lemma classes_okI c : from_option valuator_okb true (valuator c) = true -> (forall b, button c = Some b -> button_ok b) ->
  (forall t, touch c = Some t -> is_Some (valuator c) /\ length (last_touches c) = length (touches t)) -> classes_ok c.
Proof. intros Hw Hb Ht. split; [|done|done]. intros w E. rewrite E in Hw. by apply valuator_okb_ok. Qed.

(** *** Their initialisation *)

Lemma core_classes k v : core_of (set_classes k v) = core_of v.
Proof. done. Qed.

(** The steps of an initialisation whose effect is known. *)
Ltac normal := match goal with |- wp _ _ ?v _ => let w := eval cbv -[new_button] in v in change v with w end.

Ltac init_axis i := apply wp_and; eapply (wp_axis _ i); [reflexivity|reflexivity|right; split; [done|by vm_compute]|]; cbn beta iota; normal.

Ltac init_rel i := apply wp_and; eapply (wp_axis _ i); [reflexivity|reflexivity|by left|]; cbn beta iota; normal.

Ltac well_made :=
  split; [rewrite ?core_classes; reflexivity|split; [apply classes_okI; [by vm_compute| |by intros t [=]]|]];
  [intros b Eb; first [discriminate Eb|injection Eb as <-; apply new_button_ok; [by vm_compute|done|by repeat constructor|done]]
  |intros Er; first [discriminate Er|left; reflexivity]].

Section callbacks.
Context (c : Prop) (screen : Z * Z) (v : Device) (Hv : classes v = no_classes).

Lemma stylus_initialised : wp c (lorieStylusProc_body DEVICE_INIT) v (initialised lorieStylusProc v).
Proof.
  destruct v as [i ty pr st xt xi nm ini en o li k]. cbn in Hv. subst k.
  apply wp_bind, wp_put, wp_or_bad_value, wp_and.
  apply (wp_valuator c stylus_labels); [done|by right|well_made..|]. intros history a.
  init_axis 0%nat. init_axis 1%nat. init_axis 2%nat. init_axis 3%nat. init_axis 4%nat. init_axis 5%nat.
  apply wp_and, wp_ptrfeed; [well_made|]. eapply wp_button; [reflexivity|done|reflexivity|reflexivity|well_made|well_made].
Qed.

Lemma mouse_initialised : wp c (lorieMouseProc_body DEVICE_INIT) v (initialised lorieMouseProc v).
Proof.
  destruct v as [i ty pr st xt xi nm ini en o li k]. cbn in Hv. subst k.
  apply wp_bind, wp_put, wp_or_bad_value, wp_and. unfold lorieInitPointerButtons.
  eapply wp_button; [reflexivity|done|reflexivity|reflexivity|well_made|]. apply wp_and.
  apply (wp_valuator c ["Rel X"; "Rel Y"; "Rel Horiz Wheel"; "Rel Vert Wheel"]%string); [done|by left|well_made..|]. intros history a.
  init_rel 0%nat. init_rel 1%nat. init_rel 2%nat. init_rel 3%nat.
  apply wp_and. eapply (wp_scroll c 2%nat); [reflexivity|reflexivity|done|by right|]. cbn beta iota. normal.
  apply wp_and. eapply (wp_scroll c 3%nat); [reflexivity|reflexivity|done|by left|]. cbn beta iota. normal.
  apply wp_and, wp_ptrfeed; [well_made|]. eapply wp_accel; [reflexivity|]. intros [] a' _; well_made.
Qed.

Lemma touch_initialised : c -> wp c (lorieTouchProc_body DEVICE_INIT) v (initialised lorieTouchProc v).
Proof.
  intros Hc. destruct v as [i ty pr st xt xi nm ini en o li k]. cbn in Hv. subst k.
  apply wp_bind, wp_put, wp_or_bad_value, wp_and.
  apply (wp_valuator c ["Abs MT Position X"; "Abs MT Position Y"]%string); [done|by right|well_made..|]. intros history a.
  apply wp_and. eapply wp_button; [reflexivity|done|reflexivity|reflexivity|well_made|].
  apply wp_and. eapply wp_touch; [reflexivity|reflexivity|done|done|done|done|well_made|]. intros points ddx Hp Hd.
  init_axis 0%nat. eapply (wp_axis _ 1); [reflexivity|reflexivity|right; split; [done|by vm_compute]|].
  split; [rewrite ?core_classes; reflexivity|split; [apply classes_okI; [by vm_compute| |]|]].
  - intros b Eb. injection Eb as <-. apply new_button_ok; [by vm_compute|done|by repeat constructor|done].
  - intros t [= <-]. split; [by eexists|]. cbn. congruence.
  - intros _. left. unfold declared, declaration. cbn [touch classes set_classes set_valuator set_touch]. cbn [fmap option_fmap option_map touches touch_mode].
    rewrite Hp. reflexivity.
Qed.

Lemma keyboard_initialised : wp c (lorieKeybdProc_body DEVICE_INIT) v (initialised lorieKeybdProc v).
Proof.
  destruct v as [i ty pr st xt xi nm ini en o li k]. cbn in Hv. subst k.
  apply wp_bind, wp_keyboard; [done| |]; apply wp_ret.
  - split; [done|]. split; [by split|]. by right.
  - split; [done|]. split; [by split|]. by left.
Qed.

Lemma core_keyboard_initialised : wp c (CoreKeyboardProc_body DEVICE_INIT) v (initialised CoreKeyboardProc v).
Proof.
  destruct v as [i ty pr st xt xi nm ini en o li k]. cbn in Hv. subst k.
  apply wp_or_bad_value, wp_keyboard; [done| |]; (split; [done|split; [by split|]]); [done|by left].
Qed.

Lemma core_pointer_initialised : wp c (CorePointerProc_body screen DEVICE_INIT) v (initialised CorePointerProc v).
Proof.
  destruct v as [i ty pr st xt xi nm ini en o li k]. cbn in Hv. subst k.
  apply wp_bind. unfold InitPointerDeviceStruct. apply wp_bind, wp_device.
  cbn [classes button valuator ptrfeed no_classes]. rewrite !(bool_decide_false (is_Some None)) by (by intros [? [=]]).
  rewrite (bool_decide_true ([] = [])) by done. cbn [orb negb]. apply wp_and.
  eapply wp_button; [reflexivity|done|reflexivity|reflexivity|apply wp_ret; well_made|].
  apply wp_and. apply (wp_valuator c ["Rel X"; "Rel Y"]%string); [done|by left|apply wp_ret; well_made..|]. intros history a.
  apply wp_ptrfeed; [apply wp_ret; well_made|]. cbn [negb]. apply wp_bind, wp_device. apply wp_bind, wp_change, wp_ret. well_made.
Qed.
End callbacks.

Section all_callbacks.
Context (screen : Z * Z).

Lemma call_proc_initialised c p v : classes v = no_classes -> (p = lorieTouchProc -> c) ->
  wp c (call_proc screen p DEVICE_INIT) v (initialised p v).
Proof.
  intros Hv Hc. destruct p; cbn [call_proc].
  - by apply core_pointer_initialised.
  - by apply core_keyboard_initialised.
  - by apply mouse_initialised.
  - apply touch_initialised; auto.
  - by apply keyboard_initialised.
  - by apply stylus_initialised.
Qed.

(** C17: For every callback and all answers of the allocator the initialisation of a device
    without classes leaves its identity and links, and classes that are well formed: as
    many values as axes, ranges in order, scroll axes that exist, full button maps, as many
    touch points in the queue as in the class. If it is reported as a success the axes,
    buttons and touch points are those declared (a keyboard reports success even without
    its map). It goes wrong only for a touch screen, whose last allocation is not tested. *)
Theorem callbacks_initialise p v l : classes v = no_classes ->
  match call_proc screen p DEVICE_INIT v l with
  | Some (r, (v', _)) => initialised p v r v'
  | None => p = lorieTouchProc
  end.
Proof. intros Hv. by apply (call_proc_initialised (p = lorieTouchProc) p v Hv). Qed.
End all_callbacks.

Lemma callbacks_initialise_witness : match call_proc (800, 600) lorieStylusProc DEVICE_INIT (fresh_device 9 lorieStylusProc true) [] with
  | Some (r, (v', _)) => initialised lorieStylusProc (fresh_device 9 lorieStylusProc true) r v'
  | None => lorieStylusProc = lorieTouchProc
  end.
Proof. apply (callbacks_initialise (800, 600) lorieStylusProc (fresh_device 9 lorieStylusProc true) []). reflexivity. Defined.
