(* ===== verification/InputDevices.v ===== *)
(** * The input devices ([lorie/InitInput.c] over [xserver/dix/devices.c])

    The life of a device: it is added under a free identifier, initialised, attached to a
    master, enabled, disabled and removed. The masters and the devices of XTest are made by
    the server itself; the mouse, the touch screen and the keyboard by lorie, as the pen and
    the eraser whenever they are switched on; clients may enable, disable, attach and detach
    slaves. *)

From Stdlib Require Import String.
From S2P Require Import Prelude EventQueue EventDelivery DeviceClasses.

(** ** The server's devices *)

(** [heap] has the devices by address. The chains of [inputInfo.devices] and
    [inputInfo.off_devices] are sequences of addresses. [sprites] are the allocated
    sprites. [memory] are the addresses that the allocator will give for devices and
    sprites (none when it is empty), [answers] its answers for everything else.
    [released] are the buttons and keys for which a release was made. *)
Record InputInfo := {
  heap : gmap Z Device; devices : list Z; off_devices : list Z; pointer : Z; keyboard : Z; numDevices : Z;
  sprites : gset Z; lorieMouse : Z; lorieTouch : Z; lorieKeyboard : Z; loriePen : Z; lorieEraser : Z;
  memory : list Z; answers : list bool; released : list (Z * Z);
}.

Definition set_heap h s := {| heap := h; devices := devices s; off_devices := off_devices s; pointer := pointer s;
  keyboard := keyboard s; numDevices := numDevices s; sprites := sprites s; lorieMouse := lorieMouse s; lorieTouch := lorieTouch s;
  lorieKeyboard := lorieKeyboard s; loriePen := loriePen s; lorieEraser := lorieEraser s; memory := memory s;
  answers := answers s; released := released s |}.
Definition set_lists l o n s := {| heap := heap s; devices := l; off_devices := o; pointer := pointer s;
  keyboard := keyboard s; numDevices := n; sprites := sprites s; lorieMouse := lorieMouse s; lorieTouch := lorieTouch s;
  lorieKeyboard := lorieKeyboard s; loriePen := loriePen s; lorieEraser := lorieEraser s; memory := memory s;
  answers := answers s; released := released s |}.
Definition set_core p k s := {| heap := heap s; devices := devices s; off_devices := off_devices s; pointer := p;
  keyboard := k; numDevices := numDevices s; sprites := sprites s; lorieMouse := lorieMouse s; lorieTouch := lorieTouch s;
  lorieKeyboard := lorieKeyboard s; loriePen := loriePen s; lorieEraser := lorieEraser s; memory := memory s;
  answers := answers s; released := released s |}.
Definition set_sprites x s := {| heap := heap s; devices := devices s; off_devices := off_devices s; pointer := pointer s;
  keyboard := keyboard s; numDevices := numDevices s; sprites := x; lorieMouse := lorieMouse s; lorieTouch := lorieTouch s;
  lorieKeyboard := lorieKeyboard s; loriePen := loriePen s; lorieEraser := lorieEraser s; memory := memory s;
  answers := answers s; released := released s |}.
Definition set_lorie m t k s := {| heap := heap s; devices := devices s; off_devices := off_devices s; pointer := pointer s;
  keyboard := keyboard s; numDevices := numDevices s; sprites := sprites s; lorieMouse := m; lorieTouch := t;
  lorieKeyboard := k; loriePen := loriePen s; lorieEraser := lorieEraser s; memory := memory s;
  answers := answers s; released := released s |}.
Definition set_stylus p e s := {| heap := heap s; devices := devices s; off_devices := off_devices s; pointer := pointer s;
  keyboard := keyboard s; numDevices := numDevices s; sprites := sprites s; lorieMouse := lorieMouse s; lorieTouch := lorieTouch s;
  lorieKeyboard := lorieKeyboard s; loriePen := p; lorieEraser := e; memory := memory s;
  answers := answers s; released := released s |}.
Definition set_memory m a s := {| heap := heap s; devices := devices s; off_devices := off_devices s; pointer := pointer s;
  keyboard := keyboard s; numDevices := numDevices s; sprites := sprites s; lorieMouse := lorieMouse s; lorieTouch := lorieTouch s;
  lorieKeyboard := lorieKeyboard s; loriePen := loriePen s; lorieEraser := lorieEraser s; memory := m;
  answers := a; released := released s |}.
Definition set_released r s := {| heap := heap s; devices := devices s; off_devices := off_devices s; pointer := pointer s;
  keyboard := keyboard s; numDevices := numDevices s; sprites := sprites s; lorieMouse := lorieMouse s; lorieTouch := lorieTouch s;
  lorieKeyboard := lorieKeyboard s; loriePen := loriePen s; lorieEraser := lorieEraser s; memory := memory s;
  answers := answers s; released := r |}.

(** A change of a device, which must exist. *)
Definition upd (d : Z) (f : Device -> Device) (s : InputInfo) : option InputInfo :=
  v ← heap s !! d; Some (set_heap (<[d := f v]> (heap s)) s).

Definition on_links (f : Links -> Links) (v : Device) : Device := set_links (f (links v)) v.
Definition with_master m l := {| master := m; lastSlave := lastSlave l; last_slave := last_slave l; spriteOwner := spriteOwner l;
  sprite := sprite l; paired := paired l |}.
Definition with_last a b l := {| master := master l; lastSlave := a; last_slave := b; spriteOwner := spriteOwner l;
  sprite := sprite l; paired := paired l |}.
Definition with_sprite o x p l := {| master := master l; lastSlave := lastSlave l; last_slave := last_slave l; spriteOwner := o;
  sprite := x; paired := p |}.

Definition malloc (s : InputInfo) : Z * InputInfo := (hd 0 (memory s), set_memory (tl (memory s)) (answers s) s).
Definition answer (s : InputInfo) : bool * InputInfo := (hd true (answers s), set_memory (memory s) (tl (answers s)) s).

(** The device as the queue of events sees it. *)
Definition as_seen (v : Device) : EventQueue.Device :=
  {| EventQueue.id := id v; EventQueue.enabled := enabled v; EventQueue.dtype := default SLAVE (dtype v);
     EventQueue.master := master (links v); EventQueue.paired := paired (links v); EventQueue.sprite := sprite (links v);
     EventQueue.button_map := map <$> button (classes v); EventQueue.lastSlave := lastSlave (links v) |}.

Definition seen (s : InputInfo) : EventQueue.Devices :=
  {| EventQueue.devices := as_seen <$> heap s; EventQueue.sprites := ∅ |}.

Definition GetMaster (d : Z) (w : which) (s : InputInfo) : option Z := EventQueue.GetMaster d w (seen s).
Definition IsFloating (d : Z) (s : InputInfo) : option bool := EventQueue.IsFloating d (seen s).

(** A request to the callback of a device. *)
Definition call_device (size : Z * Z) (d : Z) (what : What) (s : InputInfo) : option (Z * InputInfo) :=
  v ← heap s !! d;
  '((r, (v, l)) : Z * (Device * list bool)) ← call_proc size (deviceProc v) what v (answers s);
  Some (r, set_memory (memory s) l (set_heap (<[d := v]> (heap s)) s)).

Section operations.
(** The size of the screen, and the buttons and keys of a device that are down, which the
    processing of events keeps. *)
Context (screen : Z * Z) (down : Z -> Z -> bool) (key_down : Z -> Z -> bool).

(** ** Sprites *)

Definition free_sprite (p : Z) (s : InputInfo) : option InputInfo :=
  if p =? 0 then Some s else if decide (p ∈ sprites s) then Some (set_sprites (sprites s ∖ {[p]}) s) else None.

Definition FreeSprite (d : Z) (s : InputInfo) : option InputInfo :=
  v ← heap s !! d;
  s ← (if spriteOwner (links v) then free_sprite (sprite (links v)) s else Some s);
  upd d (on_links (fun l => with_sprite (spriteOwner l) 0 (paired l) l)) s.

(** The devices of [l] that are paired with [d] get its sprite. *)
Fixpoint share_sprite (d p : Z) (l : list Z) (s : InputInfo) : option InputInfo :=
  match l with
  | [] => Some s
  | it :: l =>
      v ← heap s !! it;
      s ← (if paired (links v) =? d then upd it (on_links (fun k => with_sprite (spriteOwner k) p (paired k) k)) s else Some s);
      share_sprite d p l s
  end.

(** Without memory for a sprite the server ends. Its position, window and cursor are left
    out. *)
Definition InitializeSprite (d : Z) (s : InputInfo) : option InputInfo :=
  v ← heap s !! d;
  s ← (if sprite (links v) =? 0 then
         let '(p, s) := malloc s in
         if p =? 0 then None
         else
           s ← upd d (on_links (fun l => with_sprite (spriteOwner l) p (paired l) l)) (set_sprites ({[p]} ∪ sprites s) s);
           share_sprite d p (devices s ++ [keyboard s]) s
       else if decide (sprite (links v) ∈ sprites s) then Some s else None);
  upd d (on_links (fun l => with_sprite true (sprite l) (paired l) l)) s.

(** ** Masters and slaves *)

Definition NextFreePointerDevice (s : InputInfo) : option Z :=
  (fix go l := match l with
   | [] => Some 0
   | d :: l => v ← heap s !! d; if IsMaster v && spriteOwner (links v) && (paired (links v) =? 0) then Some d else go l
   end) (devices s).

Definition PairDevices (ptr kbd : Z) (s : InputInfo) : option (Z * InputInfo) :=
  if ptr =? 0 then Some (BadDevice, s)
  else
    p ← heap s !! ptr; k ← heap s !! kbd;
    if negb (IsMaster p) || negb (IsMaster k) || negb (paired (links p) =? 0) then Some (BadDevice, s)
    else
      s ← (if spriteOwner (links k) then free_sprite (sprite (links k)) s else Some s);
      s ← upd kbd (on_links (fun l => with_sprite false (sprite (links p)) ptr l)) s;
      s ← upd ptr (on_links (fun l => with_sprite (spriteOwner l) (sprite l) kbd l)) s;
      Some (Success, s).

(** The most buttons that an attached slave has. *)
Fixpoint max_buttons (m : Z) (l : list Z) (s : InputInfo) (n : Z) : option Z :=
  match l with
  | [] => Some n
  | d :: l =>
      v ← heap s !! d;
      if IsMaster v then max_buttons m l s n
      else
        a ← GetMaster d MASTER_ATTACHED s;
        match button (classes v) with
        | Some b => max_buttons m l s (if a =? m then Z.max n (numButtons b) else n)
        | None => max_buttons m l s n
        end
  end.

Definition resize_buttons (n : Z) (b : ButtonClass) : ButtonClass :=
  {| button_source := button_source b; numButtons := n; map := map b; labels := labels b;
     xkb_acts := if numButtons b <? n then n else xkb_acts b |}.

(** The event to clients holds the labels of all buttons. *)
Definition RecalculateMasterButtons (slave : Z) (s : InputInfo) : option InputInfo :=
  v ← heap s !! slave;
  if bool_decide (button (classes v) = None) || IsMaster v then Some s
  else
    m ← GetMaster slave WANT_POINTER s;
    if m =? 0 then Some s
    else
      n ← max_buttons m (devices s) s 0;
      mv ← heap s !! m;
      match button (classes mv) with
      | Some b =>
          if numButtons b =? n then Some s
          else _ ← slice (labels b) 0 n; upd m (fun v => set_classes (set_button (Some (resize_buttons n b)) (classes v)) v) s
      | None => Some s
      end.

(** The loop ends before the last button. *)
Definition ReleaseButtonsAndKeys (d : Z) (s : InputInfo) : option InputInfo :=
  v ← heap s !! d;
  let '(ok, s) := answer s in
  if negb (ok : bool) then Some s
  else
    let buttons := match button (classes v) with Some b => filter (fun i => down d i = true) (seqZ 0 (numButtons b)) | None => [] end in
    let keys := if key (classes v) then filter (fun i => key_down d i = true) (seqZ 0 MAP_LENGTH) else [] in
    Some (set_released (released s ++ (pair d <$> buttons ++ keys)) s).

(** The state of the keyboard that a new slave is told is left out. *)
Definition AttachDevice (d m : Z) (s : InputInfo) : option (Z * InputInfo) :=
  if d =? 0 then Some (BadDevice, s)
  else
    v ← heap s !! d;
    if IsMaster v then Some (BadDevice, s)
    else
      '(allowed : bool) ← (if m =? 0 then Some true else IsMaster <$> heap s !! m);
      if negb allowed then Some (BadDevice, s)
      else
        '(floating : bool) ← IsFloating d s;
        if floating && (m =? 0) && enabled v then Some (Success, s)
        else
          s ← (if floating && (paired (links v) =? d) then free_sprite (sprite (links v)) s else Some s);
          s ← upd d (on_links (with_master m)) s;
          if m =? 0 then
            (* the root window is that of the sprite *)
            if negb (sprite (links v) =? 0) && negb (bool_decide (sprite (links v) ∈ sprites s)) then None
            else
              s ← upd d (on_links (fun l => with_sprite (spriteOwner l) 0 (paired l) l)) s;
              s ← InitializeSprite d s;
              s ← upd d (on_links (fun l => with_sprite false (sprite l) d l)) s;
              Some (Success, s)
          else
            k ← GetMaster d WANT_KEYBOARD s;
            _ ← (if k =? 0 then Some tt else _ ← heap s !! k; Some tt);
            mv ← heap s !! m;
            s ← upd d (on_links (with_sprite false (sprite (links mv)) m)) s;
            s ← RecalculateMasterButtons m s;
            Some (Success, s).

(** ** Adding, enabling and disabling *)

Fixpoint ids_of_list (l : list Z) (s : InputInfo) : option (list Z) :=
  match l with [] => Some [] | d :: l => v ← heap s !! d; r ← ids_of_list l s; Some (id v :: r) end.

(** The first identifier from [i] on that is not in [used], [MAXDEVICES] for none. *)
Fixpoint free_id (n : nat) (i : Z) (used : list Z) : Z :=
  match n with O => i | S n => if bool_decide (i ∈ used) then free_id n (i + 1) used else i end.

(** 0 for NULL. A device has its private fields with its memory, and no client is refused. *)
Definition AddInputDevice (proc : Proc) (autoStart : bool) (s : InputInfo) : option (Z * InputInfo) :=
  used ← ids_of_list (devices s ++ off_devices s) s;
  let devid := free_id (Z.to_nat (MAXDEVICES - 2)) 2 used in
  if MAXDEVICES <=? devid then Some (0, s)
  else
    let '(p, s) := malloc s in
    if p =? 0 then Some (0, s)
    else
      let v := fresh_device devid proc autoStart in
      Some (p, set_lists (devices s) (off_devices s ++ [p]) (numDevices s + 1) (set_heap (<[p := v]> (heap s)) s)).

Definition AssignTypeAndName (d : Z) (type n : string) (s : InputInfo) : option InputInfo := upd d (set_name type n) s.

(** The events to clients and the sprite's memory on the screen are left out. *)
Definition ActivateDevice (d : Z) (s : InputInfo) : option (Z * InputInfo) :=
  if d =? 0 then Some (BadImplementation, s)
  else
    '(r, s) ← call_device screen d DEVICE_INIT s;
    s ← upd d (set_inited (r =? Success)) s;
    Some (r, s).

(** The sprite of a device that is to be enabled; [false] when there is no pointer to pair
    a master keyboard with. *)
Definition prepare_sprite (d : Z) (v : Device) (s : InputInfo) : option (bool * InputInfo) :=
  if negb (sprite (links v) =? 0) then Some (true, s)
  else if IsMaster v then
    if spriteOwner (links v) then s ← InitializeSprite d s; Some (true, s)
    else
      other ← NextFreePointerDevice s;
      if other =? 0 then Some (false, s) else r ← PairDevices other d s; Some (true, snd r)
  else r ← AttachDevice d (if IsPointerDevice v then pointer s else keyboard s) s; Some (true, snd r).

Definition remove_device (d : Z) (l : list Z) : list Z := filter (fun x => x <> d) l.

Definition EnableDevice (d : Z) (s : InputInfo) : option (bool * InputInfo) :=
  v ← heap s !! d;
  r ← prepare_sprite d v s;
  let '(ok, s) := r in
  if negb ok then Some (false, s)
  else
    v ← heap s !! d;
    if negb (bool_decide (d ∈ off_devices s)) || negb (inited v) then Some (false, s)
    else
      '(r, s) ← call_device screen d DEVICE_ON s;
      if negb (r =? Success) then Some (false, s)
      else
        s ← upd d (set_enabled true) s;
        s ← RecalculateMasterButtons d (set_lists (devices s ++ [d]) (remove_device d (off_devices s)) (numDevices s) s);
        Some (true, s).

(** The device behind [d] in its chain. *)
Fixpoint successor (d : Z) (l : list Z) : option Z :=
  match l with [] => None | x :: l => if x =? d then Some (hd 0 l) else successor d l end.

Definition next (d : Z) (s : InputInfo) : Z :=
  match successor d (devices s) with Some x => x | None => default 0 (successor d (off_devices s)) end.

(** The slaves of a master in [l] are set floating. *)
Fixpoint float_slaves (m : Z) (l : list Z) (s : InputInfo) : option InputInfo :=
  match l with
  | [] => Some s
  | d :: l =>
      v ← heap s !! d;
      s ← (if IsMaster v then Some s
           else a ← GetMaster d MASTER_ATTACHED s; if a =? m then r ← AttachDevice d 0 s; Some (snd r) else Some s);
      float_slaves m l s
  end.

(** The masters forget their last slave; with [events], its last event as well. *)
Fixpoint forget_slave (events : bool) (d : Z) (l : list Z) (s : InputInfo) : option InputInfo :=
  match l with
  | [] => Some s
  | m :: l =>
      v ← heap s !! m;
      s ← upd m (on_links (fun k =>
             with_last (if negb events && IsMaster v && (lastSlave k =? d) then 0 else lastSlave k)
                       (if events && (last_slave k =? d) then 0 else last_slave k) k)) s;
      forget_slave events d l s
  end.

(** The walk over the chains from [other] on; a device that was disabled leads on to those
    that are off. *)
Fixpoint disable_paired (disable : Z -> InputInfo -> option (bool * InputInfo)) (steps : nat) (d other : Z) (s : InputInfo)
  : option InputInfo :=
  if other =? 0 then Some s
  else
    match steps with
    | O => None
    | S steps =>
        v ← heap s !! other;
        s ← (if (paired (links v) =? d) && negb (spriteOwner (links v)) then r ← disable other s; Some (snd r) else Some s);
        disable_paired disable steps d (next other s) s
    end.

(** [fuel] bounds the devices that are disabled one inside the other; a walk over the
    chains meets no device twice. *)
Fixpoint DisableDevice (fuel : nat) (d : Z) (s : InputInfo) : option (bool * InputInfo) :=
  match fuel with
  | O => None
  | S fuel =>
      v ← heap s !! d;
      if negb (enabled v) then Some (true, s)
      else if negb (bool_decide (d ∈ devices s)) then Some (false, s)
      else
        s ← ReleaseButtonsAndKeys d s;
        s ← (if IsMaster v then s ← float_slaves d (devices s) s; float_slaves d (off_devices s) s
             else forget_slave false d (devices s) s);
        v ← heap s !! d;
        s ← (if IsMaster v && negb (sprite (links v) =? 0)
             then disable_paired (DisableDevice fuel) (size (heap s)) d (hd 0 (devices s)) s else Some s);
        s ← upd d (on_links (fun l => with_sprite (spriteOwner l) (sprite l) 0 l)) s;
        r ← call_device screen d DEVICE_OFF s;
        s ← upd d (set_enabled false) (snd r);
        s ← forget_slave true d (devices s) s;
        s ← FreeSprite d s;
        let s := set_lists (remove_device d (devices s)) (d :: off_devices s) (numDevices s) s in
        s ← RecalculateMasterButtons d s;
        s ← upd d (on_links (with_master 0)) s;
        Some (true, s)
  end.

(** ** Removing *)

Definition disable (d : Z) (s : InputInfo) : option (bool * InputInfo) := DisableDevice (S (size (heap s))) d s.

Definition CloseDevice (d : Z) (s : InputInfo) : option InputInfo :=
  if d =? 0 then Some s
  else
    v ← heap s !! d;
    s ← (if inited v then r ← call_device screen d DEVICE_CLOSE s; Some (snd r) else Some s);
    s ← FreeSprite d s;
    Some (set_heap (delete d (heap s)) s).

Definition RemoveDevice (d : Z) (s : InputInfo) : option (Z * InputInfo) :=
  if (d =? 0) || (d =? keyboard s) || (d =? pointer s) then Some (BadImplementation, s)
  else
    v ← heap s !! d;
    s ← (if inited v then r ← disable d s; Some (snd r) else Some s);
    r ← (if decide (d ∈ devices s) then
           s ← CloseDevice d (set_lists (remove_device d (devices s)) (off_devices s) (numDevices s) s); Some (Success, s)
         else Some (BadMatch, s));
    let '(rc, s) := r in
    r ← (if decide (d ∈ off_devices s) then
           s ← CloseDevice d s; Some (Success, set_lists (devices s) (remove_device d (off_devices s)) (numDevices s) s)
         else Some (rc, s));
    let '(rc, s) := r in
    Some (rc, if (rc =? Success) && inited v then set_lists (devices s) (off_devices s) (numDevices s - 1) s else s).

(** Every list is walked from its head after each removal; [tried] are the identifiers of
    those that were tried. *)
Fixpoint CloseDeviceList (fuel : nat) (off : bool) (tried : list Z) (s : InputInfo) : option InputInfo :=
  let l := if off then off_devices s else devices s in
  d ← (fix go l := match l with
        | [] => Some 0
        | d :: l => v ← heap s !! d; if decide (id v ∈ tried) then go l else Some d
        end) l;
  if d =? 0 then Some s
  else
    match fuel with
    | O => None
    | S fuel => v ← heap s !! d; r ← RemoveDevice d s; CloseDeviceList fuel off (id v :: tried) (snd r)
    end.

Fixpoint unattach (l : list Z) (s : InputInfo) : option InputInfo :=
  match l with
  | [] => Some s
  | d :: l =>
      v ← heap s !! d;
      s ← (if IsMaster v then Some s
           else '(f : bool) ← IsFloating d s; if f then Some s else upd d (on_links (with_master 0)) s);
      unattach l s
  end.

Definition CloseDownDevices (s : InputInfo) : option InputInfo :=
  s ← unattach (devices s) s; s ← unattach (off_devices s) s;
  s ← CloseDeviceList (size (heap s)) false [] s;
  s ← CloseDeviceList (size (heap s)) true [] s;
  s ← CloseDevice (pointer s) s; s ← CloseDevice (keyboard s) s;
  Some (set_core 0 0 (set_lists [] [] (numDevices s) s)).

(** The next device is read before a device is disabled. *)
Fixpoint disable_each (wanted : Device -> bool) (l : list Z) (s : InputInfo) : option InputInfo :=
  match l with
  | [] => Some s
  | d :: l =>
      v ← heap s !! d;
      s ← (if wanted v then r ← disable d s; Some (snd r) else Some s);
      disable_each wanted l s
  end.

(** Slaves, those of XTest, keyboards and then the rest. *)
Definition DisableAllDevices (s : InputInfo) : option InputInfo :=
  s ← disable_each (fun v => negb (IsXTestDevice v) && negb (IsMaster v)) (devices s) s;
  s ← disable_each (fun v => negb (IsMaster v)) (devices s) s;
  s ← disable_each (fun v => enabled v && IsMaster v && IsKeyboardDevice v) (devices s) s;
  disable_each (fun v => enabled v) (devices s) s.

(** ** The start of the server *)

(** The names have their memory. *)
Definition AllocDevicePair (n : string) (ptr_proc keybd_proc : Proc) (master : bool) (s : InputInfo)
  : option (Z * (Z * Z) * InputInfo) :=
  '((p, s) : Z * InputInfo) ← AddInputDevice ptr_proc true s;
  if p =? 0 then Some (BadAlloc, (0, 0), s)
  else
    s ← upd p (fun v => set_kind (Some (if master then MASTER_POINTER else SLAVE)) (n ++ " pointer")%string (xtest_master_id v)
                          (with_last 0 0 (with_sprite true (sprite (links v)) (paired (links v)) (links v))) v) s;
    '((k, s) : Z * InputInfo) ← AddInputDevice keybd_proc true s;
    if k =? 0 then '((_, s) : Z * InputInfo) ← RemoveDevice p s; Some (BadAlloc, (0, 0), s)
    else
      s ← upd k (fun v => set_kind (Some (if master then MASTER_KEYBOARD else SLAVE)) (n ++ " keyboard")%string (xtest_master_id v)
                            (with_last 0 0 (with_sprite false (sprite (links v)) (paired (links v)) (links v))) v) s;
      Some (Success, (p, k), s).

Definition AllocXTestDevice (n : string) (mp mk : Z) (s : InputInfo) : option (Z * (Z * Z) * InputInfo) :=
  '((rc, (p, k), s) : Z * (Z * Z) * InputInfo) ← AllocDevicePair (n ++ " XTEST")%string CorePointerProc CoreKeyboardProc false s;
  if rc =? Success then
    pv ← heap s !! mp; kv ← heap s !! mk;
    s ← upd p (fun v => set_kind (dtype v) (name v) (id pv) (links v) v) s;
    s ← upd k (fun v => set_kind (dtype v) (name v) (id kv) (links v) v) s;
    Some (rc, (p, k), s)
  else Some (rc, (p, k), s).

(** Both devices of a pair are activated and enabled, or the server ends. *)
Definition start_pair (p k : Z) (s : InputInfo) : option InputInfo :=
  '((r, s) : Z * InputInfo) ← ActivateDevice p s;
  if negb (r =? Success) then None
  else
    '((r, s) : Z * InputInfo) ← ActivateDevice k s;
    if negb (r =? Success) then None
    else
      '((ok, s) : bool * InputInfo) ← EnableDevice p s;
      if negb ok then None
      else '((ok, s) : bool * InputInfo) ← EnableDevice k s; if negb ok then None else Some s.

Definition InitXTestDevices (s : InputInfo) : option InputInfo :=
  '((rc, (p, k), s) : Z * (Z * Z) * InputInfo) ← AllocXTestDevice "Virtual core" (pointer s) (keyboard s) s;
  if negb (rc =? Success) then None
  else
    s ← start_pair p k s;
    r ← AttachDevice p (pointer s) s; r ← AttachDevice k (keyboard s) (snd r); Some (snd r).

Definition InitCoreDevices (s : InputInfo) : option InputInfo :=
  '((rc, (p, k), s) : Z * (Z * Z) * InputInfo) ← AllocDevicePair "Virtual core" CorePointerProc CoreKeyboardProc true s;
  if negb (rc =? Success) then None
  else s ← start_pair p k (set_core p k s); InitXTestDevices s.

(** The devices that are off are initialised if they were not, and then enabled. *)
Fixpoint each_off (f : Z -> Device -> InputInfo -> option InputInfo) (l : list Z) (s : InputInfo) : option InputInfo :=
  match l with [] => Some s | d :: l => v ← heap s !! d; s ← f d v s; each_off f l s end.

Definition InitAndStartDevices (s : InputInfo) : option InputInfo :=
  s ← each_off (fun d v s => if inited v then Some s else r ← ActivateDevice d s; Some (snd r)) (off_devices s) s;
  each_off (fun d v s => if inited v && startup v then r ← EnableDevice d s; Some (snd r) else Some s) (off_devices s) s.

(** ** Lorie *)

(** A device of lorie; NULL is used without a test. *)
Definition add_slave (p : Proc) (type n : string) (s : InputInfo) : option (Z * InputInfo) :=
  '((d, s) : Z * InputInfo) ← AddInputDevice p true s; s ← AssignTypeAndName d type n s; Some (d, s).

Definition start_slave (d m : Z) (s : InputInfo) : option InputInfo :=
  r ← ActivateDevice d s; r ← EnableDevice d (snd r); r ← AttachDevice d m (snd r); Some (snd r).

Definition add_stylus (type n : string) (s : InputInfo) : option (Z * InputInfo) :=
  '((d, s) : Z * InputInfo) ← add_slave lorieStylusProc type n s; s ← start_slave d (pointer s) s; Some (d, s).

Definition lorieSetStylusEnabled (enabled : bool) (s : InputInfo) : option InputInfo :=
  if enabled then
    s ← (if loriePen s =? 0 then
           '((d, s) : Z * InputInfo) ← add_stylus "TERMUX-X11 PEN" "Lorie pen" s; Some (set_stylus d (lorieEraser s) s)
         else Some s);
    if lorieEraser s =? 0 then
      '((d, s) : Z * InputInfo) ← add_stylus "TERMUX-X11 ERASER" "Lorie eraser" s; Some (set_stylus (loriePen s) d s)
    else Some s
  else
    s ← (if negb (loriePen s =? 0) then r ← RemoveDevice (loriePen s) s; Some (set_stylus 0 (lorieEraser (snd r)) (snd r)) else Some s);
    if negb (lorieEraser s =? 0) then r ← RemoveDevice (lorieEraser s) s; Some (set_stylus (loriePen (snd r)) 0 (snd r)) else Some s.

(** After a reset of the server the pen and the eraser are those of the devices that are
    gone. *)
Definition InitInput (s : InputInfo) : option InputInfo :=
  '((m, s) : Z * InputInfo) ← AddInputDevice lorieMouseProc true s;
  '((t, s) : Z * InputInfo) ← AddInputDevice lorieTouchProc true s;
  '((k, s) : Z * InputInfo) ← AddInputDevice lorieKeybdProc true s;
  s ← AssignTypeAndName m "MOUSE" "Lorie mouse" (set_lorie m t k s);
  s ← AssignTypeAndName t "TOUCHSCREEN" "Lorie touch" s;
  s ← AssignTypeAndName k "KEYBOARD" "Lorie keyboard" s;
  r ← ActivateDevice m s; r ← ActivateDevice t (snd r); r ← ActivateDevice k (snd r);
  r ← EnableDevice m (snd r); r ← EnableDevice t (snd r); r ← EnableDevice k (snd r);
  let s := snd r in
  r ← AttachDevice m (pointer s) s; r ← AttachDevice t (pointer s) (snd r); r ← AttachDevice k (keyboard s) (snd r);
  let s := snd r in
  if negb (loriePen s =? 0) && negb (lorieEraser s =? 0) then lorieSetStylusEnabled true (set_stylus 0 0 s) else Some s.

(** ** Requests of clients *)

Definition dixLookupDevice (i : Z) (s : InputInfo) : option Z :=
  (fix go l := match l with
   | [] => Some 0
   | d :: l => v ← heap s !! d; if id v =? i then Some d else go l
   end) (devices s ++ off_devices s).

(** The property [Device Enabled] of a device gets a value. *)
Definition set_property_enabled (d : Z) (b : bool) (s : InputInfo) : option (Z * InputInfo) :=
  v ← heap s !! d;
  if ((d =? pointer s) || (d =? keyboard s) || IsXTestDevice v) && negb b then Some (BadAccess, s)
  else if b && negb (enabled v) then r ← EnableDevice d s; Some (Success, snd r)
  else if negb b && enabled v then r ← disable d s; Some (Success, snd r)
  else Some (Success, s).

Definition detach_slave (deviceid : Z) (s : InputInfo) : option (Z * InputInfo) :=
  d ← dixLookupDevice deviceid s;
  if d =? 0 then Some (BadDevice, s)
  else
    v ← heap s !! d;
    if IsMaster v || IsXTestDevice v then Some (BadDevice, s)
    else s ← ReleaseButtonsAndKeys d s; r ← AttachDevice d 0 s; Some (Success, snd r).

Definition attach_slave (deviceid new_master : Z) (s : InputInfo) : option (Z * InputInfo) :=
  d ← dixLookupDevice deviceid s;
  if d =? 0 then Some (BadDevice, s)
  else
    v ← heap s !! d;
    if IsMaster v || IsXTestDevice v then Some (BadDevice, s)
    else
      m ← dixLookupDevice new_master s;
      if m =? 0 then Some (BadDevice, s)
      else
        mv ← heap s !! m;
        if negb (IsMaster mv) || negb (IsPointerDevice mv && IsPointerDevice v || IsKeyboardDevice mv && IsKeyboardDevice v)
        then Some (BadDevice, s)
        else s ← ReleaseButtonsAndKeys d s; r ← AttachDevice d m s; Some (Success, snd r).

(** ** Runs *)

(** A slave makes an event ([last.slave] of the master), or its event is processed
    ([lastSlave]). *)
Definition note_slave (processed : bool) (d : Z) (w : which) (s : InputInfo) : option InputInfo :=
  m ← GetMaster d w s;
  if m =? 0 then Some s
  else upd m (on_links (fun l => if processed then with_last d (last_slave l) l else with_last (lastSlave l) d l)) s.

(** What happens to the devices while the server runs, with the memory that is given. *)
Inductive dev_op :=
  | OpStylus (enabled : bool)
  | OpEnabled (deviceid : Z) (enabled : bool)
  | OpAttach (deviceid new_master : Z)
  | OpDetach (deviceid : Z)
  | OpEvent (processed : bool) (d : Z) (w : which).

Definition dev_step (o : dev_op) (s : InputInfo) : option InputInfo :=
  match o with
  | OpStylus b => lorieSetStylusEnabled b s
  | OpEnabled i b =>
      d ← dixLookupDevice i s;
      if d =? 0 then Some s else r ← set_property_enabled d b s; Some (snd r)
  | OpAttach i m => r ← attach_slave i m s; Some (snd r)
  | OpDetach i => r ← detach_slave i s; Some (snd r)
  | OpEvent p d w => note_slave p d w s
  end.
End operations.

(** ** The start of the server *)

Definition nothing (mem : list Z) : InputInfo :=
  {| heap := ∅; devices := []; off_devices := []; pointer := 0; keyboard := 0; numDevices := 0; sprites := ∅; lorieMouse := 0;
     lorieTouch := 0; lorieKeyboard := 0; loriePen := 0; lorieEraser := 0; memory := mem; answers := []; released := [] |}.

Definition nothing_down : Z -> Z -> bool := fun _ _ => false.

(** The server's and lorie's devices are made and started. *)
Definition start_up (screen : Z * Z) (mem : list Z) : option InputInfo :=
  s ← InitCoreDevices screen nothing_down nothing_down (nothing mem); s ← InitInput screen nothing_down nothing_down s; InitAndStartDevices screen s.
