(* ===== verification/DeviceFrames.v ===== *)
(** * The devices without their classes

    What the operations on one slave do to the devices, their links, the lists and the
    sprites: the invariant of the devices, and every operation as a change of the frame. *)

From Stdlib Require Import String.
From S2P Require Import Prelude EventQueue EventDelivery DeviceClasses InputDevices.

(** ** The frame and its invariant *)

Definition c_set_links (l : Links) (c : Core) : Core :=
  {| c_id := c_id c; c_type := c_type c; c_xtest := c_xtest c; c_proc := c_proc c; c_inited := c_inited c;
     c_enabled := c_enabled c; c_links := l |}.
Definition c_power (i e : bool) (c : Core) : Core :=
  {| c_id := c_id c; c_type := c_type c; c_xtest := c_xtest c; c_proc := c_proc c; c_inited := i; c_enabled := e; c_links := c_links c |}.

(** The devices without their classes, and the lists. *)
Record Frame := {
  cores : gmap Z Core; ons : list Z; offs : list Z; vcp : Z; vck : Z; live : gset Z; slaves : list Z; pen : Z; eraser : Z;
}.

Definition frame_of (s : InputInfo) : Frame :=
  {| cores := core_of <$> heap s; ons := devices s; offs := off_devices s; vcp := pointer s; vck := keyboard s;
     live := sprites s; slaves := [lorieMouse s; lorieTouch s; lorieKeyboard s]; pen := loriePen s; eraser := lorieEraser s |}.

Definition f_core (d : Z) (c : Core) (f : Frame) : Frame :=
  {| cores := <[d := c]> (cores f); ons := ons f; offs := offs f; vcp := vcp f; vck := vck f; live := live f;
     slaves := slaves f; pen := pen f; eraser := eraser f |}.
Definition f_live (x : gset Z) (f : Frame) : Frame :=
  {| cores := cores f; ons := ons f; offs := offs f; vcp := vcp f; vck := vck f; live := x;
     slaves := slaves f; pen := pen f; eraser := eraser f |}.
Definition f_lists (l o : list Z) (f : Frame) : Frame :=
  {| cores := cores f; ons := l; offs := o; vcp := vcp f; vck := vck f; live := live f;
     slaves := slaves f; pen := pen f; eraser := eraser f |}.
Definition f_cores (m : gmap Z Core) (f : Frame) : Frame :=
  {| cores := m; ons := ons f; offs := offs f; vcp := vcp f; vck := vck f; live := live f;
     slaves := slaves f; pen := pen f; eraser := eraser f |}.
Definition f_stylus (p e : Z) (f : Frame) : Frame :=
  {| cores := cores f; ons := ons f; offs := offs f; vcp := vcp f; vck := vck f; live := live f;
     slaves := slaves f; pen := p; eraser := e |}.

(** The sprite of the pointer, which the keyboard and all attached slaves have as well. *)
Definition shown (f : Frame) : Z := default 0 ((fun c => sprite (c_links c)) <$> cores f !! vcp f).

Definition attached_links (m x : Z) : Links :=
  {| master := m; lastSlave := 0; last_slave := 0; spriteOwner := false; sprite := x; paired := m |}.
Definition floating_links (d x : Z) : Links :=
  {| master := 0; lastSlave := 0; last_slave := 0; spriteOwner := false; sprite := x; paired := d |}.

(** A slave is attached to one of the masters, or floating with a sprite of its own, or
    off with neither. *)
Inductive placed (f : Frame) (d : Z) (c : Core) : Prop :=
  | Attached m : m = vcp f \/ m = vck f -> c_links c = attached_links m (shown f) -> placed f d c
  | Floating x : x ∈ live f -> x <> shown f -> c_links c = floating_links d x -> placed f d c
  | Off : c_enabled c = false -> c_links c = no_links -> placed f d c.

Definition is_slave (f : Frame) (d : Z) : Prop := exists c, cores f !! d = Some c /\ c_master c = false.

(** A slave that lorie may remove. *)
Definition is_own (f : Frame) (d : Z) : Prop := exists c, cores f !! d = Some c /\ c_master c = false /\ c_xtest c = 0.

Record masters_ok (f : Frame) (p k : Core) : Prop := {
  mo_pointer : cores f !! vcp f = Some p; mo_keyboard : cores f !! vck f = Some k;
  mo_types : c_type p = Some MASTER_POINTER /\ c_type k = Some MASTER_KEYBOARD;
  mo_enabled : c_enabled p = true /\ c_enabled k = true;
  mo_owner : spriteOwner (c_links p) = true /\ spriteOwner (c_links k) = false;
  mo_sprite : sprite (c_links p) ∈ live f /\ sprite (c_links k) = sprite (c_links p);
  mo_paired : paired (c_links p) = vck f /\ paired (c_links k) = vcp f;
}.

Record frame_ok (f : Frame) : Prop := {
  fo_null : cores f !! 0 = None;
  fo_live : 0 ∉ live f;
  fo_nodup : NoDup (ons f ++ offs f);
  fo_dom : forall d, is_Some (cores f !! d) <-> d ∈ (ons f ++ offs f);
  fo_ids : forall d e c c', cores f !! d = Some c -> cores f !! e = Some c' -> c_id c = c_id c' -> d = e;
  fo_range : forall d c, cores f !! d = Some c -> 2 <= c_id c < MAXDEVICES;
  fo_enabled : forall d c, cores f !! d = Some c -> (c_enabled c = true <-> d ∈ ons f);
  fo_inited : forall d c, cores f !! d = Some c -> c_enabled c = true -> c_inited c = true;
  fo_core : exists p k, masters_ok f p k;
  fo_masters : forall d c, cores f !! d = Some c -> c_master c = true -> d = vcp f \/ d = vck f;
  fo_placed : forall d c, cores f !! d = Some c -> c_master c = false -> placed f d c;
  fo_own : forall d e c c' x, cores f !! d = Some c -> cores f !! e = Some c' ->
    c_links c = floating_links d x -> c_links c' = floating_links e x -> d = e;
  fo_last : forall d c x, cores f !! d = Some c -> c_master c = true -> x = lastSlave (c_links c) \/ x = last_slave (c_links c) ->
    x = 0 \/ is_slave f x /\ x ∈ ons f;
}.

(** The devices of lorie exist; the pen and the eraser come and go together. *)
Record lorie_ok (f : Frame) : Prop := {
  lo_slaves : Forall (is_own f) (slaves f);
  lo_stylus : pen f = 0 /\ eraser f = 0 \/
    is_own f (pen f) /\ is_own f (eraser f) /\ pen f <> eraser f /\ (pen f ∉ slaves f) /\ (eraser f ∉ slaves f);
}.

Definition typed (s : InputInfo) : Prop := forall d v, heap s !! d = Some v -> classes_ok (classes v).

Definition input_ok (s : InputInfo) : Prop := frame_ok (frame_of s) /\ lorie_ok (frame_of s) /\ typed s.

(** A step that changes nothing but classes, memory and the events that are made. *)
Record quiet (s s' : InputInfo) : Prop := {
  q_frame : frame_of s' = frame_of s; q_typed : typed s -> typed s'; q_memory : memory s' = memory s;
}.

#[export] Instance quiet_preorder : PreOrder quiet.
Proof. split; [by split|]. intros s1 s2 s3 [F1 T1 M1] [F2 T2 M2]. split; [congruence|auto|congruence]. Qed.

(** ** Lookups and changes *)

Lemma frame_lookup s d c : cores (frame_of s) !! d = Some c <-> exists v, heap s !! d = Some v /\ core_of v = c.
Proof. cbn. rewrite lookup_fmap_Some. split; intros (v & A & B); eauto. Qed.

Lemma frame_heap s d v : heap s !! d = Some v -> cores (frame_of s) !! d = Some (core_of v).
Proof. intros H. apply frame_lookup. eauto. Qed.

Lemma frame_insert s d v : frame_of (set_heap (<[d := v]> (heap s)) s) = f_core d (core_of v) (frame_of s).
Proof. unfold frame_of, f_core. cbn. by rewrite fmap_insert. Qed.

Lemma f_core_id d c f : cores f !! d = Some c -> f_core d c f = f.
Proof. intros H. destruct f. unfold f_core. cbn in *. by rewrite insert_id. Qed.

Lemma upd_Some d f s v : heap s !! d = Some v -> upd d f s = Some (set_heap (<[d := f v]> (heap s)) s).
Proof. intros H. unfold upd. by rewrite H. Qed.

(** A change that keeps the core of a device. *)
Lemma quiet_insert s d v v' : heap s !! d = Some v -> core_of v' = core_of v -> (classes_ok (classes v) -> classes_ok (classes v')) ->
  quiet s (set_heap (<[d := v']> (heap s)) s).
Proof.
  intros H Hc Hk. split; [| |done].
  - rewrite frame_insert, Hc. apply f_core_id, frame_heap, H.
  - intros Ht e w. cbn [heap set_heap]. rewrite lookup_insert_Some. intros [[<- <-]|[_ E]]; [apply Hk; by apply (Ht d)|by apply (Ht e)].
Qed.

Lemma quiet_answers a s : quiet s (set_memory (memory s) a s).
Proof. by split. Qed.

Lemma quiet_released r s : quiet s (set_released r s).
Proof. by split. Qed.

Lemma quiet_input_ok s s' : quiet s s' -> input_ok s -> input_ok s'.
Proof. intros [F T _] (H1 & H2 & H3). unfold input_ok. rewrite F. auto. Qed.

Lemma typed_links s d v l : typed s -> heap s !! d = Some v -> typed (set_heap (<[d := set_links l v]> (heap s)) s).
Proof.
  intros Ht Hv e w. cbn [heap set_heap]. rewrite lookup_insert_Some. intros [[<- <-]|[_ E]]; [exact (Ht d v Hv)|by apply (Ht e)].
Qed.

Lemma core_links l v : core_of (set_links l v) = c_set_links l (core_of v).
Proof. done. Qed.

Lemma heap_null s : frame_ok (frame_of s) -> heap s !! 0 = None.
Proof. intros H. pose proof (fo_null _ H) as E. cbn in E. by rewrite lookup_fmap, fmap_None in E. Qed.

Lemma heap_live s d v : frame_ok (frame_of s) -> heap s !! d = Some v -> d <> 0.
Proof. intros H Hv ->. by rewrite heap_null in Hv. Qed.

Lemma heap_listed s d : frame_ok (frame_of s) -> d ∈ (devices s ++ off_devices s) <-> is_Some (heap s !! d).
Proof. intros H. rewrite <- (fo_dom _ H d). cbn. by rewrite lookup_fmap, fmap_is_Some. Qed.

(** ** Masters and places *)

(** The two masters, as devices. *)
Lemma masters s : frame_ok (frame_of s) -> exists p k, heap s !! pointer s = Some p /\ heap s !! keyboard s = Some k /\
  masters_ok (frame_of s) (core_of p) (core_of k) /\ shown (frame_of s) = sprite (links p).
Proof.
  intros H. destruct (fo_core _ H) as (cp & ck & M).
  destruct (proj1 (frame_lookup _ _ _) (mo_pointer _ _ _ M)) as (p & Hp & <-).
  destruct (proj1 (frame_lookup _ _ _) (mo_keyboard _ _ _ M)) as (k & Hk & <-).
  exists p, k. do 3 (split; [done|]). unfold shown. by rewrite (mo_pointer _ _ _ M).
Qed.

Lemma seen_lookup s d : EventQueue.devices (seen s) !! d = as_seen <$> heap s !! d.
Proof. apply lookup_fmap. Qed.

Lemma seen_master v : EventQueue.IsMaster (as_seen v) = IsMaster v.
Proof. unfold EventQueue.IsMaster, IsMaster. cbn. by destruct (dtype v) as [[]|]. Qed.

Lemma c_master_of v : c_master (core_of v) = IsMaster v.
Proof. done. Qed.

(** All that the search for masters needs. *)
Record wired (s : InputInfo) : Prop := {
  wi_null : heap s !! 0 = None;
  wi_masters : exists p k, heap s !! pointer s = Some p /\ heap s !! keyboard s = Some k /\
    (dtype p = Some MASTER_POINTER /\ paired (links p) = keyboard s) /\ dtype k = Some MASTER_KEYBOARD /\ paired (links k) = pointer s;
  wi_slaves : forall d v, heap s !! d = Some v -> IsMaster v = false ->
    master (links v) = 0 \/ master (links v) = pointer s \/ master (links v) = keyboard s;
  wi_listed : forall d, d ∈ devices s -> is_Some (heap s !! d);
}.

Lemma frame_wired s : frame_ok (frame_of s) -> wired s.
Proof.
  intros H. split.
  - by apply heap_null.
  - destruct (masters s H) as (p & k & Hp & Hk & M & _). exists p, k. do 2 (split; [done|]).
    pose proof (mo_types _ _ _ M) as [T1 T2]. by pose proof (mo_paired _ _ _ M) as [P1 P2].
  - intros d v Hv Hs. destruct (fo_placed _ H d (core_of v) (frame_heap _ _ _ Hv) Hs) as [m Hm E|x _ _ E|_ E];
      cbn in E; rewrite E; cbn; auto.
  - intros d Hd. apply (heap_listed _ _ H), elem_of_app. by left.
Qed.

Lemma wired_live s d v : wired s -> heap s !! d = Some v -> d <> 0.
Proof. intros H Hv ->. by rewrite (wi_null _ H) in Hv. Qed.

Lemma GetMaster_alone s d v w : heap s !! d = Some v -> IsMaster v = false -> master (links v) = 0 ->
  w = MASTER_ATTACHED \/ w = WANT_POINTER \/ w = WANT_KEYBOARD -> GetMaster d w s = Some 0.
Proof.
  intros Hv Hs Hm Hw. unfold GetMaster, EventQueue.GetMaster. rewrite seen_lookup, Hv. cbn [fmap option_fmap option_map mbind option_bind].
  rewrite seen_master, Hs. cbn [EventQueue.master as_seen]. rewrite Hm. cbn [Z.eqb]. by destruct Hw as [->|[->| ->]].
Qed.

Lemma GetMaster_attached s d v : wired s -> heap s !! d = Some v -> IsMaster v = false ->
  master (links v) = pointer s \/ master (links v) = keyboard s ->
  GetMaster d MASTER_ATTACHED s = Some (master (links v)) /\ GetMaster d WANT_POINTER s = Some (pointer s) /\
  GetMaster d WANT_KEYBOARD s = Some (keyboard s).
Proof.
  intros H Hv Hs Hm. destruct (wi_masters _ H) as (p & k & Hp & Hk & [T1 P1] & T2 & P2).
  pose proof (wired_live _ _ _ H Hp). pose proof (wired_live _ _ _ H Hk).
  unfold GetMaster, EventQueue.GetMaster. rewrite seen_lookup, Hv. cbn [fmap option_fmap option_map mbind option_bind].
  rewrite seen_master, Hs. cbn [EventQueue.master as_seen].
  destruct Hm as [-> | ->]; rewrite (proj2 (Z.eqb_neq _ 0)), seen_lookup by done; rewrite ?Hp, ?Hk;
    cbn [fmap option_fmap option_map mbind option_bind EventQueue.dtype EventQueue.paired as_seen]; rewrite ?T1, ?T2, ?P1, ?P2; done.
Qed.

Lemma IsFloating_slave s d v : wired s -> heap s !! d = Some v -> IsMaster v = false ->
  IsFloating d s = Some (master (links v) =? 0).
Proof.
  intros H Hv Hs. unfold IsFloating, EventQueue.IsFloating. rewrite seen_lookup, Hv. cbn [fmap option_fmap option_map mbind option_bind].
  rewrite seen_master, Hs. fold (GetMaster d WANT_KEYBOARD s).
  destruct (wi_slaves _ H d v Hv Hs) as [E|Hm].
  - rewrite (GetMaster_alone s d v); [|done|done|done|auto]. by rewrite E.
  - destruct (GetMaster_attached s d v H Hv Hs Hm) as (_ & _ & ->). cbn [mbind option_bind].
    destruct (wi_masters _ H) as (p & k & Hp & Hk & _). pose proof (wired_live _ _ _ H Hk). pose proof (wired_live _ _ _ H Hp).
    rewrite (proj2 (Z.eqb_neq (keyboard s) 0)) by done. by destruct Hm as [-> | ->]; rewrite (proj2 (Z.eqb_neq _ 0)).
Qed.

(** The search depends on the links of the devices alone. *)
Lemma wired_insert s d v v' : wired s -> heap s !! d = Some v -> dtype v' = dtype v ->
  (IsMaster v = true -> paired (links v') = paired (links v)) -> 
  (master (links v') = master (links v) \/ master (links v') = 0 \/ master (links v') = pointer s \/ master (links v') = keyboard s) ->
  wired (set_heap (<[d := v']> (heap s)) s).
Proof.
  intros [W1 (p & k & Hp & Hk & [T1 P1] & T2 & P2) W3 W4] Hv Ht Hpair Hm. assert (IsMaster v' = IsMaster v) as Ei by (unfold IsMaster; by rewrite Ht).
  split; cbn [heap devices pointer keyboard set_heap].
  - rewrite lookup_insert_None. split; [done|]. intros ->. congruence.
  - assert (forall e w, heap s !! e = Some w -> IsMaster w = true -> exists w', <[d := v']> (heap s) !! e = Some w' /\
      dtype w' = dtype w /\ paired (links w') = paired (links w)) as Hkeep.
    { intros e w He Hw. destruct (decide (d = e)) as [<-|Hne].
      - exists v'. rewrite lookup_insert_eq. assert (w = v) as -> by congruence. auto.
      - exists w. by rewrite lookup_insert_ne. }
    destruct (Hkeep _ p Hp) as (p' & ? & ? & ?); [unfold IsMaster; by rewrite T1|].
    destruct (Hkeep _ k Hk) as (k' & ? & ? & ?); [unfold IsMaster; by rewrite T2|].
    exists p', k'. repeat split; congruence.
  - intros e w. rewrite lookup_insert_Some. intros [[<- <-]|[_ He]] Hs; [|by apply (W3 e)].
    destruct Hm as [E|Hm]; [rewrite E; apply (W3 d v Hv); congruence|done].
  - intros e He. rewrite lookup_insert_is_Some'. right. by apply W4.
Qed.

(** ** Steps without effect on the frame *)

Section quiet.
Context (screen : Z * Z) (down key_down : Z -> Z -> bool).

Lemma call_simple p what v l : what = DEVICE_ON \/ what = DEVICE_OFF \/ what = DEVICE_CLOSE ->
  exists v', call_proc screen p what v l = Some (Success, (v', l)) /\ core_of v' = core_of v /\ classes v' = classes v.
Proof. intros [->|[->| ->]]; destruct p; eexists; split; try reflexivity; done. Qed.

Lemma call_device_simple d what v s : heap s !! d = Some v -> what = DEVICE_ON \/ what = DEVICE_OFF \/ what = DEVICE_CLOSE ->
  exists s', call_device screen d what s = Some (Success, s') /\ quiet s s'.
Proof.
  intros Hv Hw. destruct (call_simple (deviceProc v) what v (answers s) Hw) as (v' & E & Hc & Hk).
  exists (set_memory (memory s) (answers s) (set_heap (<[d := v']> (heap s)) s)). split.
  - unfold call_device. rewrite Hv. cbn [mbind option_bind]. by rewrite E.
  - etrans; [apply (quiet_insert s d v v' Hv Hc); by rewrite Hk|apply (quiet_answers (answers s) (set_heap (<[d:=v']> (heap s)) s))].
Qed.

Lemma release_quiet d v s : heap s !! d = Some v -> exists s', ReleaseButtonsAndKeys down key_down d s = Some s' /\ quiet s s'.
Proof.
  intros Hv. unfold ReleaseButtonsAndKeys. rewrite Hv. cbn [mbind option_bind answer]. unfold answer.
  destruct (hd true (answers s)); cbn [negb]; eexists; split; try reflexivity; by split.
Qed.

Lemma max_buttons_total m s l n : wired s -> typed s -> (forall d, d ∈ l -> is_Some (heap s !! d)) -> 0 <= n < MAX_BUTTONS ->
  exists n', max_buttons m l s n = Some n' /\ 0 <= n' < MAX_BUTTONS.
Proof.
  intros H Ht. revert n. induction l as [|d l IH]; intros n Hl Hn; [by eexists|]. cbn [max_buttons].
  destruct (Hl d ltac:(by left)) as [v Hv]. rewrite Hv. cbn [mbind option_bind].
  assert (Hl' : forall e, e ∈ l -> is_Some (heap s !! e)) by (intros e He; apply Hl; by right).
  destruct (IsMaster v) eqn:Em; [by apply IH|].
  assert (exists a, GetMaster d MASTER_ATTACHED s = Some a) as [a ->].
  { destruct (wi_slaves s H d v Hv Em) as [E|E]; [|eexists; by apply (GetMaster_attached s d v)].
    exists 0. apply (GetMaster_alone s d v); auto. }
  cbn [mbind option_bind]. destruct (button (classes v)) as [b|] eqn:Eb; [|by apply IH].
  apply IH; [done|]. destruct (co_button _ (Ht d v Hv) b Eb) as [Hb _ _ _]. destruct (a =? m); lia.
Qed.

Lemma resize_buttons_ok n b : button_ok b -> 0 <= n < MAX_BUTTONS -> button_ok (resize_buttons n b).
Proof. intros [A B C D] Hn. by split. Qed.

Lemma classes_button c x : classes_ok c -> (forall b, x = Some b -> button_ok b) -> classes_ok (set_button x c).
Proof. intros [A B C] Hx. by split. Qed.

Lemma recalculate_quiet d v s : wired s -> typed s -> heap s !! d = Some v ->
  exists s', RecalculateMasterButtons d s = Some s' /\ quiet s s'.
Proof.
  intros H Ht Hv. unfold RecalculateMasterButtons. rewrite Hv. cbn [mbind option_bind].
  destruct (bool_decide _ || IsMaster v) eqn:E; [by exists s|]. apply orb_false_iff in E as [_ Em].
  destruct (wi_slaves s H d v Hv Em) as [E|E].
  { rewrite (GetMaster_alone s d v) by auto. by exists s. }
  destruct (GetMaster_attached s d v H Hv Em E) as (_ & -> & _). cbn [mbind option_bind].
  destruct (wi_masters s H) as (p & k & Hp & _). rewrite (proj2 (Z.eqb_neq (pointer s) 0)) by (by apply (wired_live _ _ _ H Hp)).
  destruct (max_buttons_total (pointer s) s (devices s) 0 H Ht) as (n & -> & Hn); [apply (wi_listed _ H)|done|].
  cbn [mbind option_bind]. rewrite Hp. cbn [mbind option_bind].
  destruct (button (classes p)) as [b|] eqn:Eb; [|by exists s]. destruct (numButtons b =? n); [by exists s|].
  pose proof (co_button _ (Ht _ _ Hp) b Eb) as Hb.
  destruct (proj2 (slice_is_Some (labels b) 0 n)) as [x ->]; [rewrite (bo_labels _ Hb); lia|]. cbn [mbind option_bind].
  rewrite (upd_Some _ _ _ p) by done. eexists. split; [done|].
  apply (quiet_insert s (pointer s) p); [done|done|]. intros Hc. cbn [classes set_classes].
  apply classes_button; [done|]. intros b' [= <-]. by apply resize_buttons_ok.
Qed.
End quiet.

(** ** Changes of the frame *)

Section frames.
Context (f : Frame) (Hf : frame_ok f).

Lemma null_key d c : cores f !! d = Some c -> d <> 0.
Proof. intros H ->. by rewrite (fo_null _ Hf) in H. Qed.

Lemma slave_not_core d c : cores f !! d = Some c -> c_master c = false -> d <> vcp f /\ d <> vck f.
Proof.
  intros Hc Hs. destruct (fo_core _ Hf) as (p & k & M).
  destruct (mo_types _ _ _ M) as [T1 T2]. unfold c_master in Hs.
  split; intros ->; [rewrite (mo_pointer _ _ _ M) in Hc|rewrite (mo_keyboard _ _ _ M) in Hc]; injection Hc as <-;
    by rewrite ?T1, ?T2 in Hs.
Qed.

Lemma shown_live : shown f ∈ live f.
Proof.
  destruct (fo_core _ Hf) as (p & k & M). unfold shown. rewrite (mo_pointer _ _ _ M). apply (mo_sprite _ _ _ M).
Qed.

(** A floating device has its sprite to itself. *)
Lemma floating_live d c x : cores f !! d = Some c -> c_master c = false -> c_links c = floating_links d x ->
  x ∈ live f /\ x <> shown f.
Proof.
  intros Hc Hs E. pose proof (null_key d c Hc). destruct (fo_placed _ Hf d c Hc Hs) as [m Hm E'|y Hy Hn E'|_ E']; rewrite E in E'.
  - injection E'. congruence.
  - injection E' as ->. done.
  - injection E'. congruence.
Qed.

Lemma core_apart : vcp f <> vck f.
Proof.
  destruct (fo_core _ Hf) as (p & k & [A B [C D] _ _ _ _]). intros E. rewrite E, B in A. injection A as ->. congruence.
Qed.

Lemma master_not_floating d c x : cores f !! d = Some c -> c_master c = true -> c_links c <> floating_links d x.
Proof.
  intros Hc Hm E. pose proof core_apart. destruct (fo_core _ Hf) as (p & k & [A B _ _ _ _ [P1 P2]]).
  destruct (fo_masters _ Hf d c Hc Hm) as [-> | ->].
  - rewrite A in Hc. injection Hc as ->. rewrite E in P1. by cbn in P1.
  - rewrite B in Hc. injection Hc as ->. rewrite E in P2. by cbn in P2.
Qed.

Lemma master_on d c : cores f !! d = Some c -> c_master c = true -> d ∈ ons f.
Proof.
  intros Hc Hm. destruct (fo_core _ Hf) as (p & k & [A B _ [E1 E2] _ _ _]). apply (fo_enabled _ Hf d c Hc).
  destruct (fo_masters _ Hf d c Hc Hm) as [-> | ->]; congruence.
Qed.

Lemma seated_mono g e c : placed f e c -> vcp g = vcp f -> vck g = vck f -> shown g = shown f ->
  (forall x, c_links c = floating_links e x -> x ∈ live f -> x ∈ live g) -> placed g e c.
Proof.
  intros [m Hm E|x Hx Hn E|He E] E1 E2 E3 Hl.
  - apply (Attached _ _ _ m); rewrite ?E1, ?E2, ?E3; done.
  - apply (Floating _ _ _ x); rewrite ?E3; auto.
  - by apply Off.
Qed.

Lemma shown_insert d c : d <> vcp f -> shown (f_core d c f) = shown f.
Proof. intros H. unfold shown. cbn [cores vcp f_core]. by rewrite lookup_insert_ne. Qed.

Lemma masters_keep g p k : masters_ok f p k -> cores g !! vcp f = Some p -> cores g !! vck f = Some k -> vcp g = vcp f -> vck g = vck f ->
  sprite (c_links p) ∈ live g -> masters_ok g p k.
Proof. intros [A B C D E [G1 G2] I] H1 H2 H3 H4 H5. split; rewrite ?H3, ?H4; done. Qed.

Lemma is_slave_insert d c e : (forall c0, cores f !! d = Some c0 -> c_master c = c_master c0) -> is_slave f e -> is_slave (f_core d c f) e.
Proof.
  intros Hd (c' & Hc & Hs). unfold is_slave. cbn [cores f_core]. destruct (decide (d = e)) as [<-|Hne].
  - exists c. rewrite lookup_insert_eq. split; [done|]. by rewrite (Hd c').
  - exists c'. by rewrite lookup_insert_ne.
Qed.

Lemma is_own_insert d c e : (forall c0, cores f !! d = Some c0 -> c_master c = c_master c0 /\ c_xtest c = c_xtest c0) -> is_own f e ->
  is_own (f_core d c f) e.
Proof.
  intros Hd (c' & Hc & Hs & Hx). unfold is_own. cbn [cores f_core]. destruct (decide (d = e)) as [<-|Hne].
  - exists c. rewrite lookup_insert_eq. destruct (Hd c' Hc) as [-> ->]. auto.
  - exists c'. by rewrite lookup_insert_ne.
Qed.

(** A slave gets other links. *)
Lemma relink_ok d c l X : cores f !! d = Some c -> c_master c = false -> 0 ∉ X -> shown f ∈ X ->
  (forall e c' x, e <> d -> cores f !! e = Some c' -> c_links c' = floating_links e x -> x ∈ live f -> x ∈ X) ->
  placed (f_live X f) d (c_set_links l c) ->
  (forall e c' x, e <> d -> cores f !! e = Some c' -> c_links c' = floating_links e x -> l <> floating_links d x) ->
  frame_ok (f_core d (c_set_links l c) (f_live X f)).
Proof.
  intros Hc Hs HX Hshown Hkeep Hp Hown. destruct (slave_not_core d c Hc Hs) as [Np Nk].
  pose proof Hf as [F1 F2 F3 F4 F5 F6 F7 F8 (p & k & M) F10 F11 F12 F13].
  assert (Hin : forall e c', <[d := c_set_links l c]> (cores f) !! e = Some c' -> exists c0, cores f !! e = Some c0 /\
     c_id c' = c_id c0 /\ c_enabled c' = c_enabled c0 /\ c_inited c' = c_inited c0 /\ c_master c' = c_master c0 /\
     (e <> d -> c' = c0) /\ (e = d -> c_links c' = l)).
  { intros e c'. rewrite lookup_insert_Some. intros [[<- <-]|[Hne He]]; [exists c|exists c']; repeat split; try done; congruence. }
  split; cbn [cores ons offs vcp vck live f_core f_live]; try done.
  - rewrite lookup_insert_None. split; [done|]. intros ->. congruence.
  - intros e. rewrite lookup_insert_is_Some', <- F4. split; [intros [<-|?]; [by exists c|done]|by right].
  - intros e e' c1 c2 H1 H2. apply Hin in H1 as (x1 & H1 & -> & _), H2 as (x2 & H2 & -> & _). by apply (F5 _ _ x1 x2).
  - intros e c1 H1. apply Hin in H1 as (x1 & H1 & -> & _). by apply (F6 e x1).
  - intros e c1 H1. apply Hin in H1 as (x1 & H1 & _ & -> & _). by apply (F7 e x1).
  - intros e c1 H1. apply Hin in H1 as (x1 & H1 & _ & -> & -> & _). by apply (F8 e x1).
  - exists p, k. apply masters_keep; try done; cbn [cores live f_core f_live].
    + rewrite lookup_insert_ne by done. apply M.
    + rewrite lookup_insert_ne by done. apply M.
    + replace (sprite (c_links p)) with (shown f); [done|]. unfold shown. by rewrite (mo_pointer _ _ _ M).
  - intros e c1 H1. apply Hin in H1 as (x1 & H1 & _ & _ & _ & -> & _). by apply (F10 e x1).
  - intros e c1 H1 Hm. assert (shown (f_core d (c_set_links l c) (f_live X f)) = shown f) as Hsh.
    { unfold shown. cbn [cores vcp f_core f_live]. by rewrite lookup_insert_ne. }
    destruct (decide (e = d)) as [->|Hne].
    + rewrite lookup_insert_eq in H1. injection H1 as <-.
      destruct Hp as [m Hm' E|x Hx Hn E|He E]; [apply (Attached _ _ _ m)|apply (Floating _ _ _ x)|apply Off]; rewrite ?Hsh; done.
    + rewrite lookup_insert_ne in H1 by done. apply seated_mono; [by apply F11|done|done|done|].
      intros x Ex Hx. by apply (Hkeep e c1).
  - intros e e' c1 c2 x H1 H2 E1 E2. apply Hin in H1 as (x1 & H1 & _ & _ & _ & _ & N1 & D1), H2 as (x2 & H2 & _ & _ & _ & _ & N2 & D2).
    destruct (decide (e = d)) as [->|Ne], (decide (e' = d)) as [->|Ne']; try done.
    + exfalso. rewrite (N2 Ne') in E2. apply (Hown e' x2 x Ne' H2 E2). by rewrite <- D1.
    + exfalso. rewrite (N1 Ne) in E1. apply (Hown e x1 x Ne H1 E1). by rewrite <- D2.
    + rewrite (N1 Ne) in E1. rewrite (N2 Ne') in E2. by apply (F12 _ _ x1 x2 x).
  - intros e c1 x H1 Hm Hx. destruct (decide (e = d)) as [->|Ne].
    { rewrite lookup_insert_eq in H1. injection H1 as <-. unfold c_master in Hm, Hs. cbn in Hm. congruence. }
    rewrite lookup_insert_ne in H1 by done. destruct (F13 e c1 x H1 Hm Hx) as [->|[H2 H3]]; [by left|right].
    split; [|done]. unfold is_slave. cbn [cores f_core f_live]. destruct (decide (d = x)) as [<-|Nx].
    + exists (c_set_links l c). by rewrite lookup_insert_eq.
    + destruct H2 as (c2 & ? & ?). exists c2. by rewrite lookup_insert_ne.
Qed.
End frames.

(** ** Attaching *)

Lemma upd_links d f s v : heap s !! d = Some v ->
  upd d (on_links f) s = Some (set_heap (<[d := set_links (f (links v)) v]> (heap s)) s).
Proof. intros H. by rewrite (upd_Some _ _ _ v). Qed.

(** Two changes of a device are one. *)
Lemma set_heap_twice d v w s : set_heap (<[d := w]> (heap (set_heap (<[d := v]> (heap s)) s))) (set_heap (<[d := v]> (heap s)) s)
  = set_heap (<[d := w]> (heap s)) s.
Proof. unfold set_heap. cbn. by rewrite insert_insert_eq. Qed.

Lemma set_links_twice l l' v : set_links l (set_links l' v) = set_links l v.
Proof. done. Qed.

Lemma heap_insert d v s : heap (set_heap (<[d := v]> (heap s)) s) !! d = Some v.
Proof. cbn. apply lookup_insert_eq. Qed.

Lemma recalculate_master d v s : heap s !! d = Some v -> IsMaster v = true -> RecalculateMasterButtons d s = Some s.
Proof. intros Hv Hm. unfold RecalculateMasterButtons. rewrite Hv. cbn [mbind option_bind]. by rewrite Hm, orb_true_r. Qed.

(** The sprite that a slave has for itself. *)
Definition own_sprite (d : Z) (l : Links) : gset Z := if (master l =? 0) && (paired l =? d) then {[sprite l]} else ∅.

Definition attached_frame (d m : Z) (c : Core) (f : Frame) : Frame :=
  f_core d (c_set_links (attached_links m (shown f)) c) (f_live (live f ∖ own_sprite d (c_links c)) f).

Definition floating_frame (d x : Z) (c : Core) (f : Frame) : Frame :=
  f_core d (c_set_links (floating_links d x) c) (f_live ({[x]} ∪ live f) f).

Section attach.
Context (s : InputInfo) (d : Z) (v : Device) (H : frame_ok (frame_of s)) (Ht : typed s).
Context (Hv : heap s !! d = Some v) (Hs : IsMaster v = false).
Let f := frame_of s.

Lemma own_sprite_placed : own_sprite d (links v) = ∅ /\ (master (links v) <> 0 /\ sprite (links v) = shown f \/ links v = no_links) \/
  exists x, links v = floating_links d x /\ own_sprite d (links v) = {[x]} /\ x ∈ live f /\ x <> shown f.
Proof.
  unfold own_sprite. pose proof (heap_live _ _ _ H Hv) as Hd.
  destruct (fo_placed _ H d (core_of v) (frame_heap _ _ _ Hv) Hs) as [m Hm E|x Hx Hn E|_ E]; cbn in E; rewrite E.
  - left. destruct (masters s H) as (p & k & Hp & Hk & _). pose proof (heap_live _ _ _ H Hp). pose proof (heap_live _ _ _ H Hk).
    cbn [master paired sprite attached_links]. rewrite (proj2 (Z.eqb_neq m 0)) by (cbn in Hm; by destruct Hm as [-> | ->]).
    split; [done|]. left. cbn in Hm. by destruct Hm as [-> | ->].
  - right. exists x. cbn [master paired sprite floating_links]. rewrite !Z.eqb_refl.
    split; [done|]. split; [done|]. by split.
  - left. cbn [master paired sprite no_links]. rewrite (proj2 (Z.eqb_neq 0 d)) by done. rewrite andb_false_r. auto.
Qed.

Lemma free_own : exists s', (if (master (links v) =? 0) && (paired (links v) =? d) then free_sprite (sprite (links v)) s else Some s) = Some s' /\
  s' = set_sprites (sprites s ∖ own_sprite d (links v)) s.
Proof.
  destruct own_sprite_placed as [(E & _)|(x & E & -> & Hx & _)].
  - rewrite E. unfold own_sprite in E. destruct ((_ =? 0) && _) eqn:Eb; [by apply non_empty_singleton_L in E|].
    eexists. split; [done|]. rewrite difference_empty_L. by destruct s.
  - rewrite E. cbn [master paired sprite floating_links]. rewrite !Z.eqb_refl. cbn [andb]. unfold free_sprite.
    rewrite (proj2 (Z.eqb_neq x 0)) by (intros ->; by apply (fo_live _ H)). rewrite decide_True by done. by eexists.
Qed.

Lemma attached_frame_ok m : m = pointer s \/ m = keyboard s -> frame_ok (attached_frame d m (core_of v) f).
Proof.
  intros Hm. pose proof (frame_heap _ _ _ Hv) as Hc. apply relink_ok; try done.
  - intros [? _]%elem_of_difference. by apply (fo_live _ H).
  - apply elem_of_difference. split; [by apply shown_live|]. cbn [c_links core_of].
    destruct own_sprite_placed as [(-> & _)|(x & _ & E & _ & Hn)]; [by apply not_elem_of_empty|]. rewrite E. by apply not_elem_of_singleton.
  - intros e c' x Hne He E Hx. apply elem_of_difference. split; [done|]. cbn [c_links core_of].
    destruct own_sprite_placed as [(-> & _)|(y & Ey & E' & _ & _)]; [by apply not_elem_of_empty|]. rewrite E'. apply not_elem_of_singleton. intros ->. apply Hne. by apply (fo_own _ H e d c' (core_of v) y).
  - apply (Attached _ _ _ m); done.
  - intros e c' x Hne He E [= E1 _ E3]. pose proof (heap_live _ _ _ H Hv). congruence.
Qed.

Lemma AttachDevice_master m : m = pointer s \/ m = keyboard s -> exists s', AttachDevice d m s = Some (Success, s') /\
  frame_of s' = attached_frame d m (core_of v) f /\ typed s' /\ memory s' = memory s.
Proof.
  intros Hm. pose proof (frame_wired s H) as W. destruct (wi_masters _ W) as (p & k & Hp & Hk & [T1 P1] & T2 & P2).
  assert (exists mv, heap s !! m = Some mv /\ IsMaster mv = true /\ sprite (links mv) = shown f) as (mv & Hmv & Im & Sm).
  { destruct (masters s H) as (p' & k' & Hp' & Hk' & M & Sh). destruct (mo_sprite _ _ _ M) as [_ E]. cbn in E. unfold f.
    destruct Hm as [-> | ->]; [exists p|exists k]; unfold IsMaster; rewrite ?T1, ?T2; repeat split; try done; congruence. }
  pose proof (heap_live _ _ _ H Hv) as Hd. pose proof (heap_live _ _ _ H Hmv) as Hm0.
  assert (m <> d) as Hmd by (intros ->; congruence). unfold AttachDevice.
  rewrite (proj2 (Z.eqb_neq d 0)), Hv by done. cbn [mbind option_bind]. rewrite Hs, (proj2 (Z.eqb_neq m 0)), Hmv by done.
  cbn [mbind option_bind fmap option_fmap option_map]. rewrite Im. cbn [negb].
  rewrite (IsFloating_slave s d v W Hv Hs). cbn [mbind option_bind]. rewrite andb_false_r. cbn [andb].
  destruct free_own as (s1 & -> & ->). cbn [mbind option_bind].
  set (s1 := set_sprites _ s). assert (heap s1 = heap s) as Eh by done.
  rewrite (upd_links d _ s1 v) by done. cbn [mbind option_bind]. set (s2 := set_heap _ s1).
  assert (wired s2) as W2. { apply (wired_insert s1 d v); [by destruct W|done|done|by rewrite Hs|]. right. right. by destruct Hm; [left|right]. }
  assert (heap s2 !! d = Some (set_links (with_master m (links v)) v)) as Hv2 by (cbn; apply lookup_insert_eq).
  destruct (GetMaster_attached s2 d _ W2 Hv2 Hs) as (_ & _ & ->); [by destruct Hm; [left|right]|]. cbn [mbind option_bind].
  assert (is_Some (heap s2 !! keyboard s2)) as [kv Hkv] by (destruct (wi_masters _ W2) as (? & ? & ? & ? & _); by eexists).
  rewrite Hkv. assert (heap s2 !! m = Some mv) as Hmv2 by (cbn; by rewrite lookup_insert_ne). rewrite Hmv2.
  destruct (keyboard s2 =? 0); cbn [mbind option_bind]; rewrite (upd_links d _ s2 _ Hv2); cbn [mbind option_bind];
    rewrite (recalculate_master m mv) by (done || by cbn; rewrite lookup_insert_ne); cbn [mbind option_bind];
    eexists; (split; [reflexivity|]); subst s2; rewrite set_heap_twice, set_links_twice; (split; [|split; [by apply (typed_links s1)|done]]);
    rewrite frame_insert, core_links; unfold attached_frame; f_equal; f_equal; unfold attached_links; cbn; rewrite Sm;
    unfold with_sprite, with_master; cbn; f_equal;
    destruct (fo_placed _ H d (core_of v) (frame_heap _ _ _ Hv) Hs) as [? ? E|? ? ? E|? E]; cbn in E; by rewrite E.
Qed.

Lemma floating_frame_ok x : x <> 0 -> x ∉ sprites s -> frame_ok (floating_frame d x (core_of v) f).
Proof.
  intros Hx0 Hx. pose proof (frame_heap _ _ _ Hv) as Hc. pose proof (shown_live _ H) as Hsh. apply relink_ok; try done.
  - rewrite elem_of_union, elem_of_singleton. intros [?|?]; [done|by apply (fo_live _ H)].
  - apply elem_of_union. by right.
  - intros e c' y _ _ _ Hy. apply elem_of_union. by right.
  - apply (Floating _ _ _ x); [apply elem_of_union; left; by apply elem_of_singleton|intros Ex; apply Hx; rewrite Ex; exact Hsh|done].
  - intros e c' y Hne He E [= ->]. assert (c_master c' = false) as Hm.
    { destruct (c_master c') eqn:Em; [|done]. by destruct (master_not_floating _ H e c' y He Em). }
    by apply Hx, (floating_live _ H e c').
Qed.

Lemma share_sprite_none p l s' : (forall e, e ∈ l -> exists w, heap s' !! e = Some w /\ paired (links w) <> d) ->
  share_sprite d p l s' = Some s'.
Proof.
  induction l as [|e l IH]; intros Hl; [done|]. destruct (Hl e ltac:(by left)) as (w & Hw & Hn). cbn [share_sprite].
  rewrite Hw. cbn [mbind option_bind]. rewrite (proj2 (Z.eqb_neq _ d)) by done. cbn [mbind option_bind]. apply IH.
  intros e' He'. apply Hl. by right.
Qed.

(** Nobody else is paired with a slave. *)
Lemma not_paired e w : heap s !! e = Some w -> e <> d -> paired (links w) <> d.
Proof.
  intros Hw Hne E. pose proof (slave_not_core _ H d (core_of v) (frame_heap _ _ _ Hv) Hs) as [N1 N2]. cbn in N1, N2.
  pose proof (heap_live _ _ _ H Hv) as Hd. destruct (IsMaster w) eqn:Em.
  - destruct (masters s H) as (p & k & Hp & Hk & M & _). destruct (mo_paired _ _ _ M) as [P1 P2]. cbn in P1, P2.
    destruct (fo_masters _ H e (core_of w) (frame_heap _ _ _ Hw) Em) as [-> | ->]; cbn in Hw; congruence.
  - destruct (fo_placed _ H e (core_of w) (frame_heap _ _ _ Hw) Em) as [m Hm E'|x _ _ E'|_ E']; cbn in E'; rewrite E' in E; cbn in E;
      try done. subst m. by destruct Hm.
Qed.

Lemma InitializeSprite_fresh x : hd 0 (memory s) = x -> x <> 0 -> forall l s1 v1, s1 = set_heap (<[d := set_links l v]> (heap s)) s ->
  v1 = set_links l v -> sprite l = 0 -> paired l <> d -> exists s', InitializeSprite d s1 = Some s' /\
  s' = set_sprites ({[x]} ∪ sprites s) (set_memory (tl (memory s)) (answers s)
    (set_heap (<[d := set_links (with_sprite true x (paired l) l) v]> (heap s)) s)).
Proof.
  intros Hx Hx0 l s1 v1 E1 -> El Ep. assert (heap s1 !! d = Some (set_links l v)) as Hv1 by (subst s1; apply heap_insert).
  unfold InitializeSprite. rewrite Hv1. cbn [mbind option_bind]. cbn [links set_links]. rewrite El. cbn [Z.eqb]. unfold malloc.
  subst s1. cbn [memory set_heap]. rewrite Hx. rewrite (proj2 (Z.eqb_neq x 0)) by done.
  rewrite (upd_links d _ _ (set_links l v)) by (cbn; apply lookup_insert_eq). cbn [mbind option_bind].
  rewrite share_sprite_none.
  - cbn [mbind option_bind]. erewrite upd_links by (cbn; apply lookup_insert_eq). eexists. split; [done|].
    unfold set_heap, set_sprites, set_memory. cbn. by rewrite !insert_insert_eq.
  - intros e He. cbn. rewrite !insert_insert_eq. destruct (decide (d = e)) as [<-|Hne].
    + eexists. split; [apply lookup_insert_eq|done].
    + rewrite lookup_insert_ne by done. cbn in He.
      assert (is_Some (heap s !! e)) as [w Hw].
      { apply elem_of_app in He as [He|He]; [by apply (wi_listed _ (frame_wired _ H))|].
        apply list_elem_of_singleton in He as ->. destruct (masters s H) as (p & k & _ & Hk & _). by eexists. }
      exists w. split; [done|]. apply (not_paired e w Hw). by intros ->.
Qed.

Lemma AttachDevice_float x : hd 0 (memory s) = x -> x <> 0 -> x ∉ sprites s -> own_sprite d (links v) = ∅ ->
  exists s', AttachDevice d 0 s = Some (Success, s') /\ frame_of s' = floating_frame d x (core_of v) f /\ typed s'.
Proof.
  intros Hx Hx0 Hxf Ho. pose proof (frame_wired s H) as W. pose proof (heap_live _ _ _ H Hv) as Hd.
  assert (Hl : paired (links v) <> d /\ lastSlave (links v) = 0 /\ last_slave (links v) = 0 /\
    (sprite (links v) = 0 \/ sprite (links v) ∈ sprites s) /\ (master (links v) =? 0) && enabled v = false).
  { destruct (fo_placed _ H d (core_of v) (frame_heap _ _ _ Hv) Hs) as [m Hm E|y Hy Hn E|He E]; cbn in E; rewrite E in *.
    - destruct (slave_not_core _ H d (core_of v) (frame_heap _ _ _ Hv) Hs). cbn in Hm |- *.
      pose proof (shown_live _ H). destruct (masters s H) as (p & k & Hp & Hk & _).
      pose proof (heap_live _ _ _ H Hp). pose proof (heap_live _ _ _ H Hk).
      rewrite (proj2 (Z.eqb_neq m 0)) by (by destruct Hm as [-> | ->]). split; [by intros ->; destruct Hm|]. auto.
    - exfalso. unfold own_sprite in Ho. cbn in Ho. rewrite !Z.eqb_refl in Ho. by apply non_empty_singleton_L in Ho.
    - cbn. cbn in He. rewrite He. split; [by intros <-|]. auto. }
  destruct Hl as (Hpd & L1 & L2 & Hsp & Hen). unfold AttachDevice.
  rewrite (proj2 (Z.eqb_neq d 0)), Hv by done. cbn [mbind option_bind]. rewrite Hs. cbn [Z.eqb mbind option_bind negb].
  rewrite (IsFloating_slave s d v W Hv Hs). cbn [mbind option_bind]. rewrite andb_true_r, Hen.
  destruct free_own as (s1 & -> & ->). cbn [mbind option_bind]. rewrite Ho, difference_empty_L.
  replace (set_sprites (sprites s) s) with s by by destruct s.
  rewrite (upd_links d _ s v) by done. cbn [mbind option_bind]. cbn [sprites set_heap].
  replace (negb (sprite (links v) =? 0) && _) with false.
  2: { destruct Hsp as [->|Hsp]; [done|]. rewrite bool_decide_true by done. by rewrite andb_false_r. }
  erewrite upd_links by apply heap_insert. cbn [mbind option_bind]. rewrite set_heap_twice, set_links_twice. cbn [links set_links].
  edestruct InitializeSprite_fresh as (s' & -> & ->); [done|done|reflexivity|reflexivity|done|done|]. cbn [mbind option_bind].
  erewrite upd_links by (cbn; apply lookup_insert_eq). eexists. split; [reflexivity|]. split.
  - unfold frame_of, floating_frame, f_core, f_live. cbn. rewrite !fmap_insert, !insert_insert_eq. f_equal. f_equal.
    rewrite set_links_twice, core_links. f_equal. unfold with_sprite, with_master, floating_links. cbn. by rewrite L1, L2.
  - intros e w. cbn. rewrite !insert_insert_eq, lookup_insert_Some. intros [[<- <-]|[_ He]]; [by apply (Ht d v)|by apply (Ht e)].
Qed.

Lemma AttachDevice_stays : master (links v) = 0 -> enabled v = true -> AttachDevice d 0 s = Some (Success, s).
Proof.
  intros Hm He. pose proof (frame_wired s H) as W. pose proof (heap_live _ _ _ H Hv) as Hd. unfold AttachDevice.
  rewrite (proj2 (Z.eqb_neq d 0)), Hv by done. cbn [mbind option_bind]. rewrite Hs. cbn [Z.eqb mbind option_bind negb].
  rewrite (IsFloating_slave s d v W Hv Hs). cbn [mbind option_bind]. by rewrite Hm, He.
Qed.
End attach.

(** ** Enabling *)

Lemma remove_device_in d l x : x ∈ remove_device d l <-> x ∈ l /\ x <> d.
Proof. unfold remove_device. rewrite list_elem_of_filter. tauto. Qed.

Lemma remove_device_nodup d l : NoDup l -> NoDup (remove_device d l).
Proof. apply NoDup_filter. Qed.

Lemma remove_device_none d l : d ∉ l -> remove_device d l = l.
Proof.
  unfold remove_device. induction l as [|x l IH]; intros H; [done|]. apply not_elem_of_cons in H as [Hx Hl].
  rewrite filter_cons_True by congruence. by rewrite IH.
Qed.

Lemma c_power_links i e l c : c_power i e (c_set_links l c) = c_set_links l (c_power i e c).
Proof. done. Qed.

(** What a slave is in the frame when it is switched on. *)
Definition enabled_frame (d : Z) (c : Core) (f : Frame) : Frame :=
  f_core d (c_power (c_inited c) true c) (f_lists (ons f ++ [d]) (remove_device d (offs f)) f).

Section switching.
Context (f : Frame) (Hf : frame_ok f) (d : Z) (c : Core) (Hc : cores f !! d = Some c) (Hs : c_master c = false).

(** The lists of a frame change together with whether [d] is enabled. *)
Lemma switch_ok i e l o : NoDup (l ++ o) -> (forall x, x ∈ (l ++ o) <-> x ∈ (ons f ++ offs f)) ->
  (e = true <-> d ∈ l) -> (forall x, x <> d -> x ∈ l <-> x ∈ ons f) -> (e = true -> i = true) ->
  (e = false -> forall m c' x, cores f !! m = Some c' -> c_master c' = true -> x = lastSlave (c_links c') \/ x = last_slave (c_links c') -> x <> d) ->
  placed f d (c_power i e c) -> frame_ok (f_core d (c_power i e c) (f_lists l o f)).
Proof.
  intros Hnd Hin Hon Hl Hi Hlast Hp. destruct (slave_not_core f Hf d c Hc Hs) as [Np Nk].
  pose proof Hf as [F1 F2 F3 F4 F5 F6 F7 F8 (p & k & M) F10 F11 F12 F13].
  assert (Hlook : forall x c', <[d := c_power i e c]> (cores f) !! x = Some c' -> exists c0, cores f !! x = Some c0 /\
     c_id c' = c_id c0 /\ c_links c' = c_links c0 /\ c_master c' = c_master c0 /\
     (x <> d -> c' = c0) /\ (x = d -> c' = c_power i e c)).
  { intros x c'. rewrite lookup_insert_Some. intros [[<- <-]|[Hne He]]; [exists c|exists c']; repeat split; try done; congruence. }
  assert (shown (f_core d (c_power i e c) (f_lists l o f)) = shown f) as Hsh by (apply (shown_insert (f_lists l o f)); done).
  split; cbn [cores ons offs vcp vck live f_core f_lists]; try done.
  - rewrite lookup_insert_None. split; [done|]. intros ->. congruence.
  - intros x. rewrite lookup_insert_is_Some', Hin, <- F4. split; [intros [<-|?]; [by exists c|done]|by right].
  - intros x y c1 c2 H1 H2. apply Hlook in H1 as (x1 & H1 & -> & _), H2 as (x2 & H2 & -> & _). by apply (F5 _ _ x1 x2).
  - intros x c1 H1. apply Hlook in H1 as (x1 & H1 & -> & _). by apply (F6 x x1).
  - intros x c1 H1. destruct (decide (x = d)) as [->|Hne].
    + rewrite lookup_insert_eq in H1. by injection H1 as <-.
    + rewrite lookup_insert_ne in H1 by done. rewrite Hl by done. by apply F7.
  - intros x c1 H1. apply Hlook in H1 as (x1 & H1 & _ & _ & _ & N1 & D1). destruct (decide (x = d)) as [->|Hne].
    + by rewrite D1.
    + rewrite N1 by done. by apply (F8 x x1).
  - exists p, k. apply (masters_keep f); try done; cbn [cores live f_core f_lists].
    + rewrite lookup_insert_ne by done. apply M.
    + rewrite lookup_insert_ne by done. apply M.
    + apply M.
  - intros x c1 H1. apply Hlook in H1 as (x1 & H1 & _ & _ & -> & _). by apply (F10 x x1).
  - intros x c1 H1 Hm. destruct (decide (x = d)) as [->|Hne].
    + rewrite lookup_insert_eq in H1. injection H1 as <-. by apply (seated_mono f).
    + rewrite lookup_insert_ne in H1 by done. apply (seated_mono f); auto.
  - intros x y c1 c2 z H1 H2. apply Hlook in H1 as (x1 & H1 & _ & -> & _), H2 as (x2 & H2 & _ & -> & _). by apply (F12 _ _ x1 x2).
  - intros x c1 y H1 Hm Hy. destruct (decide (x = d)) as [->|Ne].
    { rewrite lookup_insert_eq in H1. injection H1 as <-. unfold c_master in Hm, Hs. cbn in Hm. congruence. }
    rewrite lookup_insert_ne in H1 by done. destruct (F13 x c1 y H1 Hm Hy) as [->|[H2 H3]]; [by left|right]. split.
    + apply (is_slave_insert (f_lists l o f)); [|done]. intros c0 Hc0. cbn in Hc0. rewrite Hc in Hc0. by injection Hc0 as <-.
    + destruct (decide (y = d)) as [->|Hny]; [|by apply Hl]. apply Hon. destruct e; [done|]. exfalso.
      by apply (Hlast eq_refl x c1 d H1 Hm Hy).
Qed.

Lemma enabled_frame_ok : c_inited c = true -> d ∈ offs f -> c_links c <> no_links -> frame_ok (enabled_frame d c f).
Proof.
  intros Hi Ho Hl. pose proof (fo_nodup _ Hf) as Hnd. apply NoDup_app in Hnd as (N1 & N2 & N3).
  assert (d ∉ ons f) as Hd by (intros ?; by apply (N2 d)).
  apply switch_ok; try done.
  - apply NoDup_app. split; [apply NoDup_app; split; [done|split; [|by apply NoDup_singleton]]|split].
    + intros x Hx ->%list_elem_of_singleton. done.
    + intros x [Hx|Hx]%elem_of_app [Hx' Hxd]%remove_device_in; [by apply (N2 x)|]. by apply list_elem_of_singleton in Hx.
    + by apply remove_device_nodup.
  - intros x. rewrite !elem_of_app, remove_device_in, list_elem_of_singleton. destruct (decide (x = d)) as [->|]; tauto.
  - split; [|done]. intros _. apply elem_of_app. right. by left.
  - intros x Hx. rewrite elem_of_app, list_elem_of_singleton. tauto.
  - destruct (fo_placed _ Hf d c Hc Hs) as [m Hm E|x Hx Hn E|He E]; [by apply (Attached _ _ _ m)|by apply (Floating _ _ _ x)|done].
Qed.
End switching.

Section enable.
Context (screen : Z * Z) (s : InputInfo) (d : Z) (v : Device) (H : frame_ok (frame_of s)) (Ht : typed s).
Context (Hv : heap s !! d = Some v) (Hs : IsMaster v = false).

(** A slave without a sprite is attached to the master of its kind first. *)
Definition seated (f : Frame) : Core * Frame :=
  if sprite (links v) =? 0 then
    (c_set_links (attached_links (if IsPointerDevice v then vcp f else vck f) (shown f)) (core_of v),
     attached_frame d (if IsPointerDevice v then vcp f else vck f) (core_of v) f)
  else (core_of v, f).

Lemma seated_ok : frame_ok (seated (frame_of s)).2 /\ cores (seated (frame_of s)).2 !! d = Some (seated (frame_of s)).1 /\
  c_links (seated (frame_of s)).1 <> no_links.
Proof.
  pose proof (heap_live _ _ _ H Hv) as Hd. unfold seated. destruct (sprite (links v) =? 0) eqn:E; cbn [fst snd].
  - assert (exists m, m = pointer s \/ m = keyboard s) as (m & Hm) by eauto. split.
    + apply attached_frame_ok; [done|done|done|]. destruct (IsPointerDevice v); auto.
    + split; [cbn; apply lookup_insert_eq|]. cbn. destruct (masters s H) as (p & k & Hp & Hk & _). intros [= E1 _].
      destruct (IsPointerDevice v); [by apply (heap_live _ _ _ H Hp)|by apply (heap_live _ _ _ H Hk)].
  - split; [done|]. split; [by apply frame_heap|]. cbn. intros En. by rewrite En in E.
Qed.

Lemma prepare_sprite_slave : exists s', prepare_sprite d v s = Some (true, s') /\ frame_of s' = (seated (frame_of s)).2 /\ typed s' /\ memory s' = memory s.
Proof.
  unfold prepare_sprite, seated. destruct (sprite (links v) =? 0); cbn [negb fst snd]; [|by exists s]. rewrite Hs.
  destruct (AttachDevice_master s d v H Ht Hv Hs (if IsPointerDevice v then pointer s else keyboard s)) as (s' & E & F & T & M).
  { destruct (IsPointerDevice v); auto. }
  exists s'. rewrite E. done.
Qed.

Lemma EnableDevice_slave : d ∈ off_devices s -> exists s', EnableDevice screen d s = Some (inited v, s') /\ typed s' /\ memory s' = memory s /\
  let '(c, f) := seated (frame_of s) in frame_of s' = (if inited v then enabled_frame d c f else f) /\ frame_ok (frame_of s').
Proof.
  intros Ho. destruct prepare_sprite_slave as (s1 & E1 & F1 & T1 & M1). destruct seated_ok as (H1 & Hc1 & Hl1).
  destruct (seated (frame_of s)) as [c f] eqn:Es. cbn [fst snd] in *. unfold EnableDevice. rewrite Hv. cbn [mbind option_bind].
  rewrite E1. cbn [mbind option_bind negb]. assert (Hoff : offs f = off_devices s /\ ons f = devices s /\ c_inited c = inited v /\ c_master c = false).
  { unfold seated in Es. destruct (sprite (links v) =? 0); injection Es as <- <-; done. }
  destruct Hoff as (Eo & En & Ei & Em).
  assert (frame_ok (frame_of s1)) as H1' by by rewrite F1.
  assert (exists w, heap s1 !! d = Some w /\ core_of w = c) as (w & Hw & Ew) by (apply frame_lookup; by rewrite F1).
  rewrite Hw. cbn [mbind option_bind]. assert (off_devices s1 = off_devices s /\ devices s1 = devices s) as [Eo1 En1].
  { split; [rewrite <- Eo|rewrite <- En]; by rewrite <- F1. }
  rewrite Eo1, bool_decide_true by done. cbn [negb orb]. assert (inited w = inited v) as Eiw by (rewrite <- Ei, <- Ew; done).
  rewrite Eiw. destruct (inited v) eqn:Ein; cbn [negb].
  2: { exists s1. do 3 (split; [done|]). rewrite F1. by split. }
  destruct (call_device_simple screen d DEVICE_ON w s1 Hw) as (s2 & -> & Q2); [by left|]. cbn [mbind option_bind Z.eqb Success negb].
  assert (frame_ok (frame_of s2) /\ typed s2) as [H2 T2] by (destruct Q2 as [-> Q2 _]; auto).
  assert (exists w2, heap s2 !! d = Some w2 /\ core_of w2 = c) as (w2 & Hw2 & Ew2) by (apply frame_lookup; rewrite (q_frame _ _ Q2), F1; done).
  rewrite (upd_Some d _ s2 w2 Hw2). cbn [mbind option_bind].
  set (s3 := set_lists _ _ _ _). assert (frame_of s3 = enabled_frame d c f) as F3.
  { subst s3. unfold enabled_frame. rewrite <- F1, <- (q_frame _ _ Q2), <- Ew2. unfold frame_of, f_core, f_lists. cbn. by rewrite fmap_insert. }
  assert (frame_ok (frame_of s3)) as H3.
  { rewrite F3. apply enabled_frame_ok; try done. by rewrite Eo. }
  assert (typed s3) as T3.
  { intros e x. cbn. rewrite lookup_insert_Some. intros [[<- <-]|[_ He]]; [by apply (T2 d w2)|by apply (T2 e)]. }
  destruct (recalculate_quiet d (set_enabled true w2) s3 (frame_wired _ H3) T3) as (s4 & -> & Q4); [cbn; apply lookup_insert_eq|].
  cbn [mbind option_bind]. exists s4. split; [done|]. destruct Q4 as [F4 T4 M4]. rewrite F4. split; [auto|]. split; [|auto]. rewrite M4. cbn. by rewrite (q_memory _ _ Q2).
Qed.
End enable.

(** ** Disabling *)

Definition forget_core (d : Z) (c : Core) : Core :=
  let l := c_links c in
  if c_master c then c_set_links (with_last (if lastSlave l =? d then 0 else lastSlave l) (if last_slave l =? d then 0 else last_slave l) l) c
  else c.

Definition forgotten (d : Z) (f : Frame) : Frame := f_cores (forget_core d <$> cores f) f.

Definition disabled_frame (d : Z) (c : Core) (f : Frame) : Frame :=
  f_core d (c_set_links no_links (c_power (c_inited c) false c))
    (f_lists (remove_device d (ons f)) (d :: offs f) (forgotten d f)).

Lemma forget_same d c : c_id (forget_core d c) = c_id c /\ c_enabled (forget_core d c) = c_enabled c /\ c_inited (forget_core d c) = c_inited c /\
  c_master (forget_core d c) = c_master c /\ c_type (forget_core d c) = c_type c /\ c_xtest (forget_core d c) = c_xtest c /\
  (c_master c = false -> forget_core d c = c) /\
  (spriteOwner (c_links (forget_core d c)) = spriteOwner (c_links c) /\ sprite (c_links (forget_core d c)) = sprite (c_links c) /\
   paired (c_links (forget_core d c)) = paired (c_links c)).
Proof. unfold forget_core. destruct (c_master c) eqn:E; repeat split; try done. Qed.

Section forget.
Context (f : Frame) (Hf : frame_ok f) (d : Z).

Lemma forgotten_lookup e c' : cores (forgotten d f) !! e = Some c' <-> exists c, cores f !! e = Some c /\ c' = forget_core d c.
Proof. cbn. rewrite lookup_fmap_Some. split; intros (c & A & B); eauto. Qed.

Lemma forgotten_shown : shown (forgotten d f) = shown f.
Proof.
  unfold shown. cbn [cores vcp forgotten f_cores]. rewrite lookup_fmap. destruct (cores f !! vcp f) as [c|]; [|done]. cbn.
  by destruct (forget_same d c) as (_ & _ & _ & _ & _ & _ & _ & _ & -> & _).
Qed.

Lemma forgotten_slave x : is_slave (forgotten d f) x <-> is_slave f x.
Proof.
  unfold is_slave. split.
  - intros (c' & (c & Hc & ->)%forgotten_lookup & Hs). exists c. destruct (forget_same d c) as (_ & _ & _ & E & _). by rewrite <- E.
  - intros (c & Hc & Hs). exists (forget_core d c). split; [by apply forgotten_lookup; eauto|].
    destruct (forget_same d c) as (_ & _ & _ & E & _). by rewrite E.
Qed.

Lemma forgotten_last e c x : cores (forgotten d f) !! e = Some c -> c_master c = true -> x = lastSlave (c_links c) \/ x = last_slave (c_links c) ->
  x = 0 \/ x <> d /\ is_slave f x /\ x ∈ ons f.
Proof.
  intros (c0 & Hc & ->)%forgotten_lookup Hm Hx. pose proof (forget_same d c0) as (_ & _ & _ & E & _). rewrite E in Hm.
  pose proof (fo_last _ Hf e c0 x Hc Hm) as Hl. unfold forget_core in Hx. rewrite Hm in Hx. cbn in Hx.
  destruct Hx as [Hx|Hx]; revert Hx; destruct (_ =? d) eqn:Ed; intros ->; auto; apply Z.eqb_neq in Ed; destruct Hl as [->|Hl]; auto.
Qed.

Lemma forgotten_ok : frame_ok (forgotten d f).
Proof.
  pose proof Hf as [F1 F2 F3 F4 F5 F6 F7 F8 (p & k & [A B [C1 C2] [D1 D2] [E1 E2] [G1 G2] [I1 I2]]) F10 F11 F12 F13].
  split; cbn [ons offs vcp vck live forgotten f_cores]; try done.
  - cbn. by rewrite lookup_fmap, F1.
  - intros x. cbn. by rewrite lookup_fmap, fmap_is_Some.
  - intros x y c c' (a & Ha & ->)%forgotten_lookup (b & Hb & ->)%forgotten_lookup.
    destruct (forget_same d a) as (-> & _), (forget_same d b) as (-> & _). by apply (F5 x y a b).
  - intros x c (a & Ha & ->)%forgotten_lookup. destruct (forget_same d a) as (-> & _). by apply (F6 x a).
  - intros x c (a & Ha & ->)%forgotten_lookup. destruct (forget_same d a) as (_ & -> & _). by apply (F7 x a).
  - intros x c (a & Ha & ->)%forgotten_lookup. destruct (forget_same d a) as (_ & -> & -> & _). by apply (F8 x a).
  - exists (forget_core d p), (forget_core d k).
    destruct (forget_same d p) as (_ & Q1 & _ & _ & Q2 & _ & _ & Q3 & Q4 & Q5), (forget_same d k) as (_ & R1 & _ & _ & R2 & _ & _ & R3 & R4 & R5).
    split; cbn [vcp vck live forgotten f_cores cores]; rewrite ?Q1, ?Q2, ?Q3, ?Q4, ?Q5, ?R1, ?R2, ?R3, ?R4, ?R5; try done;
      rewrite lookup_fmap; [by rewrite A|by rewrite B].
  - intros x c (a & Ha & ->)%forgotten_lookup. destruct (forget_same d a) as (_ & _ & _ & -> & _). by apply (F10 x a).
  - intros x c (a & Ha & ->)%forgotten_lookup. destruct (forget_same d a) as (_ & _ & _ & -> & _ & _ & E & _). intros Hm. rewrite E by done.
    apply (seated_mono f); [by apply F11|done|done|apply forgotten_shown|done].
  - intros x y c c' z (a & Ha & ->)%forgotten_lookup (b & Hb & ->)%forgotten_lookup Ea Eb.
    destruct (c_master a) eqn:Ma; [|destruct (c_master b) eqn:Mb].
    + exfalso. destruct (forget_same d a) as (_ & _ & _ & _ & _ & _ & _ & _ & _ & E). rewrite Ea in E. cbn in E.
      pose proof (core_apart f Hf). destruct (F10 x a Ha Ma) as [-> | ->]; congruence.
    + exfalso. destruct (forget_same d b) as (_ & _ & _ & _ & _ & _ & _ & _ & _ & E). rewrite Eb in E. cbn in E.
      pose proof (core_apart f Hf). destruct (F10 y b Hb Mb) as [-> | ->]; congruence.
    + destruct (forget_same d a) as (_ & _ & _ & _ & _ & _ & Qa & _), (forget_same d b) as (_ & _ & _ & _ & _ & _ & Qb & _).
      rewrite Qa in Ea by done. rewrite Qb in Eb by done. by apply (F12 x y a b z).
  - intros x c y Hx Hm Hy. destruct (forgotten_last x c y Hx Hm Hy) as [->|(_ & ? & ?)]; [by left|right]. by rewrite forgotten_slave.
Qed.
End forget.

Lemma disabled_frame_ok f d c : frame_ok f -> cores f !! d = Some c -> c_master c = false -> d ∈ ons f ->
  frame_ok (disabled_frame d c f).
Proof.
  intros Hf Hc Hs Hd. pose proof (forgotten_ok f Hf d) as Hg. set (g := forgotten d f) in *.
  assert (cores g !! d = Some c) as Hcg.
  { apply forgotten_lookup. exists c. split; [done|]. by destruct (forget_same d c) as (_ & _ & _ & _ & _ & _ & -> & _). }
  pose proof (fo_nodup _ Hf) as Hnd. apply NoDup_app in Hnd as (N1 & N2 & N3).
  assert (frame_ok (f_core d (c_power (c_inited c) false c) (f_lists (remove_device d (ons f)) (d :: offs f) g))) as H1.
  { apply switch_ok; try done; cbn [ons offs g forgotten f_cores].
    - apply NoDup_app. split; [by apply remove_device_nodup|]. split.
      + intros x [Hx Hne]%remove_device_in [->|Ho]%elem_of_cons; [done|by apply (N2 x)].
      + apply NoDup_cons. split; [by apply N2|done].
    - intros x. rewrite !elem_of_app, elem_of_cons, remove_device_in. destruct (decide (x = d)) as [->|]; tauto.
    - split; [done|]. by intros [_ ?]%remove_device_in.
    - intros x Hx. rewrite remove_device_in. tauto.
    - intros _ m c' x Hm Hcm Hx. destruct (forgotten_last f Hf d m c' x Hm Hcm Hx) as [->|(? & _)]; [|done].
      intros <-. by apply (null_key f Hf 0 c).
    - destruct (fo_placed _ Hg d c Hcg Hs) as [m Hm E|x Hx Hn E|He E]; [by apply (Attached _ _ _ m)|by apply (Floating _ _ _ x)|by apply Off]. }
  set (h := f_core d _ _) in H1.
  assert (f_live (live h) h = h) as El by done.
  replace (disabled_frame d c f) with (f_core d (c_set_links no_links (c_power (c_inited c) false c)) (f_live (live h) h)).
  2: { unfold disabled_frame, h. unfold f_core, f_live, f_lists, forgotten, f_cores. cbn. by rewrite insert_insert_eq. }
  apply (relink_ok h H1 d (c_power (c_inited c) false c)); try done.
  - cbn. apply lookup_insert_eq.
  - apply (fo_live _ H1).
  - by apply shown_live.
  - by apply Off.
  - intros e c' x Hne He _ [= _ E]. by apply (null_key f Hf d c Hc).
Qed.

(** ** Disabling a slave *)

Lemma wired_quiet s s' : quiet s s' -> wired s -> wired s'.
Proof.
  intros [F _ _] [W1 (p & k & Hp & Hk & [T1 P1] & T2 & P2) W3 W4].
  assert (Hh : forall e, core_of <$> heap s' !! e = core_of <$> heap s !! e).
  { intros e. pose proof (f_equal (fun f => cores f !! e) F) as E. cbn in E. by rewrite !lookup_fmap in E. }
  pose proof (f_equal vcp F) as Ep. pose proof (f_equal vck F) as Ek. pose proof (f_equal ons F) as Ed. cbn in Ep, Ek, Ed.
  assert (Hlook : forall e v, heap s !! e = Some v -> exists v', heap s' !! e = Some v' /\ core_of v' = core_of v).
  { intros e v Hv. specialize (Hh e). rewrite Hv in Hh. apply fmap_Some in Hh as (v' & ? & ?). eauto. }
  split; rewrite ?Ep, ?Ek, ?Ed.
  - specialize (Hh 0). rewrite W1 in Hh. by apply fmap_None in Hh.
  - destruct (Hlook _ _ Hp) as (p' & Hp' & [= _ Tp _ _ _ _ Lp]), (Hlook _ _ Hk) as (k' & Hk' & [= _ Tk _ _ _ _ Lk]).
    exists p', k'. rewrite Tp, Tk, Lp, Lk. done.
  - intros e v' Hv' Hs. specialize (Hh e). rewrite Hv' in Hh. symmetry in Hh. apply fmap_Some in Hh as (v & Hv & [= _ Tv _ _ _ _ Lv]).
    rewrite Lv. apply (W3 e v Hv). unfold IsMaster in *. by rewrite <- Tv.
  - intros e He. destruct (W4 e He) as [v Hv]. destruct (Hlook e v Hv) as (v' & -> & _). by eexists.
Qed.

(** What [forget_slave] does to a device. *)
Definition forget_dev (ev : bool) (d : Z) (v : Device) : Device :=
  on_links (fun k => with_last (if negb ev && IsMaster v && (lastSlave k =? d) then 0 else lastSlave k)
                               (if ev && (last_slave k =? d) then 0 else last_slave k) k) v.

Lemma forget_slave_spec ev d l s : NoDup l -> (forall e, e ∈ l -> is_Some (heap s !! e)) ->
  exists h, forget_slave ev d l s = Some (set_heap h s) /\
    forall e, h !! e = if decide (e ∈ l) then forget_dev ev d <$> heap s !! e else heap s !! e.
Proof.
  revert s. induction l as [|m l IH]; intros s Hn Hl; [by exists (heap s); destruct s|].
  apply NoDup_cons in Hn as [Hm Hn]. destruct (Hl m ltac:(by left)) as [v Hv]. cbn [forget_slave]. rewrite Hv.
  cbn [mbind option_bind]. rewrite (upd_Some m _ s v Hv). cbn [mbind option_bind].
  destruct (IH (set_heap (<[m := forget_dev ev d v]> (heap s)) s) Hn) as (h & E & Hh).
  { intros e He. cbn. rewrite lookup_insert_is_Some'. right. apply Hl. by right. }
  exists h. split; [exact E|]. intros e. rewrite Hh. cbn [heap set_heap]. destruct (decide (e = m)) as [->|Hne].
  - rewrite decide_False by done. rewrite decide_True by by left. by rewrite lookup_insert_eq, Hv.
  - rewrite lookup_insert_ne by done. destruct (decide (e ∈ l)).
    + by rewrite decide_True by by right.
    + by rewrite decide_False by by intros [?|?]%elem_of_cons.
Qed.

Lemma forget_keeps ev d (l : list Z) s h : (forall e, h !! e = if decide (e ∈ l) then forget_dev ev d <$> heap s !! e else heap s !! e) ->
  (wired s -> wired (set_heap h s)) /\ (typed s -> typed (set_heap h s)).
Proof.
  intros Hh. assert (Hlook : forall e v', h !! e = Some v' -> exists v, heap s !! e = Some v /\ dtype v' = dtype v /\
     master (links v') = master (links v) /\ paired (links v') = paired (links v) /\ classes v' = classes v).
  { intros e v'. rewrite Hh. case_decide; [|by eauto 10]. intros (v & Hv & ->)%fmap_Some. eauto 10. }
  assert (Hsome : forall e, is_Some (h !! e) <-> is_Some (heap s !! e)) by (intros e; rewrite Hh; case_decide; by rewrite ?fmap_is_Some).
  split.
  - intros [W1 (p & k & Hp & Hk & [T1 P1] & T2 & P2) W3 W4]. split; cbn [heap pointer keyboard devices set_heap].
    + apply eq_None_not_Some. by rewrite Hsome, W1, <- eq_None_not_Some.
    + destruct (proj2 (Hsome (pointer s))) as [p' Hp']; [by eexists|]. destruct (proj2 (Hsome (keyboard s))) as [k' Hk']; [by eexists|].
      destruct (Hlook _ _ Hp') as (? & ? & ? & ? & ? & _), (Hlook _ _ Hk') as (? & ? & ? & ? & ? & _). exists p', k'.
      repeat split; congruence.
    + intros e v' Hv' Hs. destruct (Hlook _ _ Hv') as (v & Hv & Tv & -> & _). apply (W3 e v Hv). unfold IsMaster in *. by rewrite <- Tv.
    + intros e He. by apply Hsome, W4.
  - intros Ht e v' Hv'. destruct (Hlook _ _ Hv') as (v & Hv & _ & _ & _ & ->). by apply (Ht e).
Qed.

Lemma forget_slave_dev ev d v : IsMaster v = false -> last_slave (links v) <> d -> core_of (forget_dev ev d v) = core_of v.
Proof.
  intros Hm Hl. unfold forget_dev, on_links, core_of, set_links, with_last. cbn. rewrite Hm, andb_false_r. cbn [andb].
  rewrite (proj2 (Z.eqb_neq _ d)), andb_false_r by done. by destruct (links v).
Qed.

Lemma forget_master_dev d v : IsMaster v = true -> core_of (forget_dev true d (forget_dev false d v)) = forget_core d (core_of v).
Proof. intros Hm. unfold forget_core. rewrite c_master_of, Hm. unfold forget_dev, core_of, on_links, set_links, IsMaster. cbn. fold (IsMaster v). by rewrite Hm. Qed.

(** The same on the core of a device. *)
Definition forget_half (ev : bool) (d : Z) (c : Core) : Core :=
  c_set_links (with_last (if negb ev && c_master c && (lastSlave (c_links c) =? d) then 0 else lastSlave (c_links c))
                         (if ev && (last_slave (c_links c) =? d) then 0 else last_slave (c_links c)) (c_links c)) c.

Lemma forget_halves d c : (c_master c = false -> last_slave (c_links c) <> d) -> forget_half true d (forget_half false d c) = forget_core d c.
Proof.
  intros H. unfold forget_core. destruct (c_master c) eqn:E; unfold forget_half, c_set_links, with_last, c_master in *; cbn; rewrite ?E; cbn.
  - done.
  - rewrite (proj2 (Z.eqb_neq (last_slave (c_links c)) d)) by auto. by destruct c as [? ? ? ? ? ? []].
Qed.

Lemma forget_half_slave ev d c : c_master c = false -> last_slave (c_links c) <> d -> forget_half ev d c = c.
Proof.
  intros Hm Hl. unfold forget_half, c_set_links, with_last. rewrite Hm, andb_false_r. cbn [andb].
  rewrite (proj2 (Z.eqb_neq _ d)), andb_false_r by done. by destruct c as [? ? ? ? ? ? []].
Qed.

Section disable.
Context (screen : Z * Z) (down key_down : Z -> Z -> bool).

(** The cores after [forget_slave], which succeeds. *)
Lemma forget_slave_cores ev d s : wired s -> typed s -> NoDup (devices s) ->
  exists s', forget_slave ev d (devices s) s = Some s' /\ wired s' /\ typed s' /\
    frame_of s' = f_cores (cores (frame_of s')) (frame_of s) /\
    forall e, cores (frame_of s') !! e = if decide (e ∈ devices s) then forget_half ev d <$> cores (frame_of s) !! e else cores (frame_of s) !! e.
Proof.
  intros W T Hn. destruct (forget_slave_spec ev d (devices s) s Hn (wi_listed _ W)) as (h & E & Hh).
  destruct (forget_keeps ev d _ s h Hh) as [Kw Kt]. exists (set_heap h s). split; [done|]. split; [auto|]. split; [auto|]. split; [done|].
  intros e. cbn. rewrite !lookup_fmap, Hh. case_decide; [|done]. by destruct (heap s !! e).
Qed.

Lemma wired_lists s l o n : wired s -> (forall e, e ∈ l -> e ∈ devices s) -> wired (set_lists l o n s).
Proof. intros [A B C D] Hl. split; [done|done|done|]. intros e He. by apply D, Hl. Qed.

Lemma core_lookup s d c : cores (frame_of s) !! d = Some c -> exists v, heap s !! d = Some v /\ core_of v = c.
Proof. apply frame_lookup. Qed.

Lemma upd_step d f s c : wired s -> typed s -> cores (frame_of s) !! d = Some c -> c_master c = false ->
  (forall v, core_of v = c -> IsMaster (f v) = false /\ dtype (f v) = dtype v /\ classes (f v) = classes v /\ master (links (f v)) = master (c_links c)) ->
  exists s' v, upd d f s = Some s' /\ core_of v = c /\ wired s' /\ typed s' /\ devices s' = devices s /\ frame_of s' = f_core d (core_of (f v)) (frame_of s).
Proof.
  intros W T Hc Hm Hf. destruct (core_lookup s d c Hc) as (v & Hv & Ev). destruct (Hf v Ev) as (M & D & K & L).
  exists (set_heap (<[d := f v]> (heap s)) s), v. split; [by apply upd_Some|]. split; [done|]. split.
  - apply (wired_insert s d v); [done|done|done| |].
    + intros Hm'. rewrite <- c_master_of, Ev in Hm'. congruence.
    + left. by rewrite L, <- Ev.
  - split; [|split; [done|apply frame_insert]]. intros e w. cbn. rewrite lookup_insert_Some. intros [[<- <-]|[_ He]].
    + rewrite K. by apply (T d).
    + by apply (T e).
Qed.

(** The end of [DisableDevice]. *)
Lemma disable_rest d c s : wired s -> typed s -> cores (frame_of s) !! d = Some c -> c_master c = false ->
  spriteOwner (c_links c) = false -> paired (c_links c) = 0 -> lastSlave (c_links c) = 0 -> last_slave (c_links c) = 0 ->
  exists s', (s ← FreeSprite d s;
    s ← RecalculateMasterButtons d (set_lists (remove_device d (devices s)) (d :: off_devices s) (numDevices s) s);
    s ← upd d (on_links (with_master 0)) s; Some (true, s)) = Some (true, s') /\ typed s' /\
    frame_of s' = f_core d (c_set_links no_links c) (f_lists (remove_device d (ons (frame_of s))) (d :: offs (frame_of s)) (frame_of s)).
Proof.
  intros W T Hc Hm Ho Hp L1 L2. destruct (core_lookup _ _ _ Hc) as (v & Hv & Ev). unfold FreeSprite. rewrite Hv. cbn [mbind option_bind].
  assert (spriteOwner (links v) = false) as -> by by rewrite <- Ho, <- Ev. cbn [mbind option_bind].
  edestruct (upd_step d (on_links (fun l => with_sprite (spriteOwner l) 0 (paired l) l)) s c W T Hc Hm) as (s1 & v1 & -> & Ev1 & W1 & T1 & D1 & F1).
  { intros w Ew. rewrite <- Ew in *. done. }
  cbn [mbind option_bind]. set (s2 := set_lists _ _ _ s1).
  assert (wired s2) as W2 by (apply wired_lists; [done|]; by intros e [? _]%remove_device_in).
  assert (cores (frame_of s2) !! d = Some (core_of (on_links (fun l => with_sprite (spriteOwner l) 0 (paired l) l) v1))) as Hc2.
  { change (cores (frame_of s2)) with (cores (frame_of s1)). rewrite F1. cbn. apply lookup_insert_eq. }
  destruct (core_lookup _ _ _ Hc2) as (v2 & Hv2 & Ev2).
  destruct (recalculate_quiet d v2 s2 W2 T1 Hv2) as (s3 & -> & Q3). cbn [mbind option_bind].
  assert (cores (frame_of s3) !! d = Some (core_of v2)) as Hc3 by by rewrite (q_frame _ _ Q3), Hc2, Ev2.
  destruct (core_lookup _ _ _ Hc3) as (v3 & Hv3 & Ev3). rewrite (upd_links d _ s3 v3 Hv3). cbn [mbind option_bind].
  eexists. split; [done|]. split; [apply typed_links; [by apply (q_typed _ _ Q3)|done]|].
  rewrite frame_insert, (q_frame _ _ Q3), core_links, Ev3, Ev2. unfold s2.
  replace (frame_of (set_lists _ _ _ s1)) with (f_lists (remove_device d (ons (frame_of s))) (d :: offs (frame_of s)) (frame_of s1)).
  2: { pose proof (f_equal offs F1) as O1. cbn in O1. unfold f_lists, frame_of. cbn. by rewrite D1, O1. }
  rewrite F1. unfold f_core, f_lists. cbn. rewrite insert_insert_eq. f_equal. f_equal.
  assert (links v3 = with_sprite false 0 0 (c_links c)) as El3.
  { change (links v3) with (c_links (core_of v3)). rewrite Ev3, Ev2. cbn. rewrite <- Ev1. cbn. rewrite <- Ev1 in Ho, Hp. cbn in Ho, Hp. by rewrite Ho, Hp. }
  rewrite El3. unfold c_set_links, with_master, no_links. cbn. rewrite L1, L2. by rewrite <- Ev1.
Qed.

(** Both rounds of forgetting, which only masters notice. *)
Lemma forget_both f e d : frame_ok f -> d <> 0 ->
  let x := if decide (e ∈ ons f) then forget_half false d <$> cores f !! e else cores f !! e in
  (if decide (e ∈ ons f) then forget_half true d <$> x else x) = forget_core d <$> cores f !! e.
Proof.
  intros H Hd0 x. subst x. destruct (cores f !! e) as [c|] eqn:Ec; [|by case_decide]. destruct (c_master c) eqn:Em.
  - assert (e ∈ ons f) as Hin by apply (master_on f H e c Ec Em). rewrite !decide_True by done. cbn. f_equal. apply forget_halves. by rewrite Em.
  - assert (last_slave (c_links c) <> d) as Hlc by (destruct (fo_placed _ H e c Ec Em) as [? ? E|? ? ? E|? E]; rewrite E; by intros <-).
    assert (forget_core d c = c) as Ef by (by destruct (forget_same d c) as (_ & _ & _ & _ & _ & _ & -> & _)).
    case_decide; cbn; rewrite Ef, ?(forget_half_slave false d c), ?(forget_half_slave true d c); done.
Qed.

Lemma DisableDevice_slave fuel s d v : frame_ok (frame_of s) -> typed s -> heap s !! d = Some v -> IsMaster v = false -> enabled v = true ->
  exists s', DisableDevice screen down key_down (S fuel) d s = Some (true, s') /\ typed s' /\
    frame_of s' = disabled_frame d (core_of v) (frame_of s).
Proof.
  intros H T Hv Hs He. pose proof (frame_wired s H) as W. pose proof (heap_live s d v H Hv) as Hd0.
  assert (d ∈ devices s) as Hd by by apply (fo_enabled _ H d (core_of v) (frame_heap _ _ _ Hv)).
  assert (NoDup (devices s)) as Hn by (pose proof (fo_nodup _ H) as N; by apply NoDup_app in N as (? & _)).
  assert (Hl : spriteOwner (links v) = false /\ last_slave (links v) = 0 /\ lastSlave (links v) = 0).
  { destruct (fo_placed _ H d (core_of v) (frame_heap _ _ _ Hv) Hs) as [? ? E|? ? ? E|? E]; cbn in E; by rewrite E. }
  destruct Hl as (Ho & Hl & Hl'). cbn [DisableDevice]. rewrite Hv. cbn [mbind option_bind]. rewrite He, bool_decide_true by done. cbn [negb].
  destruct (release_quiet down key_down d v s Hv) as (s1 & -> & Q1). cbn [mbind option_bind]. rewrite Hs.
  pose proof (wired_quiet _ _ Q1 W) as W1. pose proof (q_typed _ _ Q1 T) as T1. pose proof (f_equal ons (q_frame _ _ Q1)) as D1. cbn in D1.
  destruct (forget_slave_cores false d s1 W1 T1) as (s2 & -> & W2 & T2 & F2 & C2); [by rewrite D1|]. cbn [mbind option_bind].
  pose proof (f_equal ons F2) as D2. cbn in D2. rewrite D1 in C2, D2. rewrite (q_frame _ _ Q1) in C2, F2.
  assert (cores (frame_of s2) !! d = Some (core_of v)) as Hc2.
  { rewrite C2, decide_True, (frame_heap _ _ _ Hv) by done. cbn. by rewrite forget_half_slave by (done || by cbn; rewrite Hl). }
  destruct (core_lookup _ _ _ Hc2) as (v2 & Hv2 & Ev2). rewrite Hv2. cbn [mbind option_bind].
  assert (IsMaster v2 = false) as -> by by rewrite <- c_master_of, Ev2. cbn [andb mbind option_bind].
  edestruct (upd_step d (on_links (fun l => with_sprite (spriteOwner l) (sprite l) 0 l)) s2 (core_of v) W2 T2 Hc2 Hs) as (s3 & v3 & -> & Ev3 & W3 & T3 & D3 & F3).
  { intros w [= _ Ew _ _ _ _ El]. unfold IsMaster, on_links. cbn. rewrite Ew, El. done. }
  cbn [mbind option_bind].
  set (l3 := with_sprite false (sprite (links v)) 0 (links v)).
  assert (core_of (on_links (fun l => with_sprite (spriteOwner l) (sprite l) 0 l) v3) = c_set_links l3 (core_of v)) as E3.
  { rewrite <- Ev3. injection Ev3 as _ _ _ _ _ _ L3. unfold on_links. rewrite core_links. f_equal. by rewrite L3, Ho. }
  rewrite E3 in F3. assert (cores (frame_of s3) !! d = Some (c_set_links l3 (core_of v))) as Hc3 by (rewrite F3; cbn; apply lookup_insert_eq).
  destruct (core_lookup _ _ _ Hc3) as (w3 & Hw3 & _).
  destruct (call_device_simple screen d DEVICE_OFF w3 s3 Hw3) as (s4 & -> & Q4); [auto|]. cbn [mbind option_bind snd].
  pose proof (wired_quiet _ _ Q4 W3) as W4. pose proof (q_typed _ _ Q4 T3) as T4.
  edestruct (upd_step d (set_enabled false) s4 (c_set_links l3 (core_of v)) W4 T4) as (s5 & v5 & -> & Ev5 & W5 & T5 & D5 & F5);
    [rewrite (q_frame _ _ Q4); exact Hc3|exact Hs| |].
  { intros w Ew. split; [change (IsMaster w = false); by rewrite <- c_master_of, Ew|]. injection Ew as _ _ _ _ _ _ Lw. cbn. by rewrite Lw. }
  cbn [mbind option_bind]. pose proof (f_equal ons (q_frame _ _ Q4)) as D4. cbn in D4.
  destruct (forget_slave_cores true d s5 W5 T5) as (s6 & -> & W6 & T6 & F6 & C6); [by rewrite D5, D4, D3, D2|]. cbn [mbind option_bind].
  set (c5 := c_power (inited v) false (c_set_links l3 (core_of v))).
  assert (core_of (set_enabled false v5) = c5) as E5 by (subst c5; rewrite <- Ev5; injection Ev5 as _ _ _ _ I _ _; unfold c_power; by rewrite <- I).
  rewrite E5 in F5. assert (cores (frame_of s6) !! d = Some c5) as Hc6.
  { rewrite C6, F5. cbn [cores f_core]. rewrite lookup_insert_eq. case_decide; [|done]. cbn.
    rewrite forget_half_slave; [done|exact Hs|]. cbn. by rewrite Hl. }
  destruct (disable_rest d c5 s6 W6 T6 Hc6 Hs) as (s' & E & T' & F'); try done.
  exists s'. split; [exact E|]. split; [done|]. rewrite F'. clear E F' T'.
  assert (D6 : devices s5 = devices s) by by rewrite D5, D4, D3, D2.
  assert (Hfin : forall e, e <> d -> cores (frame_of s6) !! e = forget_core d <$> cores (frame_of s) !! e).
  { intros e Hne. rewrite C6, F5, (q_frame _ _ Q4), F3, D6. cbn [cores f_core]. rewrite !lookup_insert_ne, C2 by done.
    by apply (forget_both (frame_of s)). }
  rewrite F6, F5, (q_frame _ _ Q4), F3, F2. unfold disabled_frame, forgotten, f_core, f_lists, f_cores. cbn. f_equal.
  apply map_eq. intros e. destruct (decide (e = d)) as [->|Hne]; [rewrite !lookup_insert_eq; reflexivity|].
  rewrite !lookup_insert_ne by done. pose proof (Hfin e Hne) as E. cbn in E. rewrite E. symmetry. apply lookup_fmap.
Qed.
End disable.

(** ** Adding and removing *)

Definition fresh_core (i : Z) (p : Proc) : Core :=
  {| c_id := i; c_type := None; c_xtest := 0; c_proc := p; c_inited := false; c_enabled := false; c_links := no_links |}.

Definition added_frame (d : Z) (c : Core) (f : Frame) : Frame := f_core d c (f_lists (ons f) (offs f ++ [d]) f).

Definition removed_frame (d : Z) (f : Frame) : Frame :=
  f_lists (ons f) (remove_device d (offs f)) (f_cores (delete d (cores f)) f).

Lemma free_id_spec used n i : let r := free_id n i used in
  i <= r <= i + Z.of_nat n /\ (r < i + Z.of_nat n -> r ∉ used) /\ (r = i + Z.of_nat n -> forall j, i <= j < r -> j ∈ used).
Proof.
  revert i. induction n as [|n IH]; intros i; cbn [free_id]; [split; [lia|split; intros; lia]|].
  case_bool_decide as E; [|split; [lia|split; [done|lia]]]. destruct (IH (i + 1)) as (H1 & H2 & H3). split; [lia|]. split; [intros; apply H2; lia|].
  intros Hr j Hj. destruct (decide (j = i)) as [->|]; [done|apply H3; lia].
Qed.

(** With fewer than 254 identifiers in use one is free. *)
Lemma free_id_found used : (length used < 254)%nat -> let i := free_id (Z.to_nat (MAXDEVICES - 2)) 2 used in 2 <= i < MAXDEVICES /\ i ∉ used.
Proof.
  intros Hl. destruct (free_id_spec used (Z.to_nat (MAXDEVICES - 2)) 2) as (H1 & H2 & H3). cbn zeta. unfold MAXDEVICES in *.
  destruct (decide (free_id (Z.to_nat (256 - 2)) 2 used = 256)) as [E|Hne]; [|split; [lia|apply H2; lia]].
  exfalso. assert (seqZ 2 254 ⊆+ used) as Hs.
  { apply NoDup_submseteq; [apply NoDup_seqZ|]. intros j Hj%elem_of_seqZ. apply H3; lia. }
  apply submseteq_length in Hs. rewrite length_seqZ in Hs. lia.
Qed.

Lemma ids_of_list_spec l s : (forall d, d ∈ l -> is_Some (heap s !! d)) -> exists r, ids_of_list l s = Some r /\ length r = length l /\
  forall d v, d ∈ l -> heap s !! d = Some v -> id v ∈ r.
Proof.
  induction l as [|d l IH]; intros Hl; [exists []; split; [done|split; [done|by intros ? ? ?%elem_of_nil]]|].
  destruct (Hl d ltac:(by left)) as [v Hv]. destruct IH as (r & E & El & Hr); [intros e He; apply Hl; by right|].
  cbn [ids_of_list]. rewrite Hv. cbn [mbind option_bind]. rewrite E. cbn [mbind option_bind].
  exists (id v :: r). split; [done|]. split; [cbn; by rewrite El|]. intros e w [->|He]%elem_of_cons Hw.
  - assert (w = v) as -> by congruence. by left.
  - right. by apply (Hr e).
Qed.

Section lists.
Context (f : Frame) (Hf : frame_ok f) (d : Z).

Lemma added_frame_ok i p : d <> 0 -> cores f !! d = None -> 2 <= i < MAXDEVICES ->
  (forall e c, cores f !! e = Some c -> c_id c <> i) -> frame_ok (added_frame d (fresh_core i p) f).
Proof.
  intros Hd0 Hd Hi Hnew. pose proof Hf as [F1 F2 F3 F4 F5 F6 F7 F8 (pp & k & M) F10 F11 F12 F13].
  assert (d ∉ (ons f ++ offs f)) as Hout by (intros Hin; apply F4 in Hin as [c E]; congruence).
  assert (Hlook : forall x c', <[d := fresh_core i p]> (cores f) !! x = Some c' -> x = d /\ c' = fresh_core i p \/ x <> d /\ cores f !! x = Some c').
  { intros x c'. rewrite lookup_insert_Some. intros [[-> <-]|[? ?]]; [by left|by right]. }
  assert (d <> vcp f /\ d <> vck f) as [Np Nk] by (split; intros ->; [rewrite (mo_pointer _ _ _ M) in Hd|rewrite (mo_keyboard _ _ _ M) in Hd]; done).
  assert (shown (added_frame d (fresh_core i p) f) = shown f) as Hsh by by apply (shown_insert (f_lists _ _ f)).
  split; cbn [cores ons offs vcp vck live added_frame f_core f_lists]; try done.
  - by rewrite lookup_insert_ne.
  - rewrite app_assoc. apply NoDup_app. split; [done|]. split; [|by apply NoDup_singleton]. by intros x Hx ->%list_elem_of_singleton.
  - intros x. rewrite lookup_insert_is_Some', app_assoc, elem_of_app, <- F4, list_elem_of_singleton. split; intros [?|?]; auto.
  - intros x y c c' [[-> ->]|[? Hx]]%Hlook [[-> ->]|[? Hy]]%Hlook E; try done.
    + symmetry in E. by destruct (Hnew _ _ Hy).
    + by destruct (Hnew _ _ Hx).
    + by apply (F5 _ _ _ _ Hx Hy).
  - intros x c [[-> ->]|[? Hx]]%Hlook; [done|by apply (F6 x)].
  - intros x c [[-> ->]|[? Hx]]%Hlook; [|by apply F7]. split; [done|]. intros Hin. destruct Hout. apply elem_of_app. by left.
  - intros x c [[-> ->]|[? Hx]]%Hlook; [done|by apply (F8 x)].
  - exists pp, k. apply (masters_keep f); try done; cbn; [rewrite lookup_insert_ne by done; apply M..|apply M].
  - intros x c [[-> ->]|[? Hx]]%Hlook; [done|by apply (F10 x)].
  - intros x c [[-> ->]|[? Hx]]%Hlook Hm; [by apply Off|]. apply (seated_mono f); auto.
  - intros x y c c' z [[-> ->]|[? Hx]]%Hlook [[-> ->]|[? Hy]]%Hlook Ex Ey; try done.
    + injection Ex. congruence.
    + injection Ey. congruence.
    + by apply (F12 _ _ _ _ z Hx Hy).
  - intros x c y [[-> ->]|[? Hx]]%Hlook Hm Hy; [done|]. destruct (F13 x c y Hx Hm Hy) as [->|[H2 H3]]; [by left|right]. split; [|done].
    apply (is_slave_insert (f_lists _ _ f)); [|done]. intros c0 Hc0. cbn in Hc0. congruence.
Qed.

Lemma removed_frame_ok c : cores f !! d = Some c -> c_master c = false -> d ∈ offs f -> frame_ok (removed_frame d f).
Proof.
  intros Hc Hs Ho. destruct (slave_not_core f Hf d c Hc Hs) as [Np Nk].
  pose proof Hf as [F1 F2 F3 F4 F5 F6 F7 F8 (p & k & M) F10 F11 F12 F13]. apply NoDup_app in F3 as (N1 & N2 & N3).
  assert (d ∉ ons f) as Hno by (intros ?; by apply (N2 d)).
  assert (Hlook : forall x c', delete d (cores f) !! x = Some c' -> x <> d /\ cores f !! x = Some c').
  { intros x c' [? ?]%lookup_delete_Some. done. }
  split; cbn [cores ons offs vcp vck live removed_frame f_cores f_lists]; try done.
  - apply lookup_delete_None. by right.
  - apply NoDup_app. split; [done|]. split; [|by apply remove_device_nodup]. intros x Hx [Hx' _]%remove_device_in. by apply (N2 x).
  - intros x. rewrite lookup_delete_is_Some, F4, !elem_of_app, remove_device_in.
    destruct (decide (x = d)) as [->|Hne]; [tauto|]. assert (d <> x) by congruence. tauto.
  - intros x y a b [_ Hx]%Hlook [_ Hy]%Hlook. by apply (F5 _ _ _ _ Hx Hy).
  - intros x a [_ Hx]%Hlook. by apply (F6 x).
  - intros x a [_ Hx]%Hlook. by apply F7.
  - intros x a [_ Hx]%Hlook. by apply (F8 x).
  - exists p, k. apply (masters_keep f); try done; cbn; [rewrite lookup_delete_ne by done; apply M..|apply M].
  - intros x a [_ Hx]%Hlook. by apply (F10 x).
  - intros x a [_ Hx]%Hlook Hm. apply (seated_mono f); auto. unfold shown. cbn. by rewrite lookup_delete_ne.
  - intros x y a b z [_ Hx]%Hlook [_ Hy]%Hlook. by apply (F12 _ _ _ _ z Hx Hy).
  - intros x a y [_ Hx]%Hlook Hm Hy. destruct (F13 x a y Hx Hm Hy) as [->|[(b & Hb & Hsb) H3]]; [by left|right]. split; [|done].
    exists b. cbn. rewrite lookup_delete_ne by (by intros <-). done.
Qed.
End lists.

Section add.
Context (screen : Z * Z) (down key_down : Z -> Z -> bool).

Lemma no_classes_ok : classes_ok no_classes.
Proof. by split. Qed.

Lemma AddInputDevice_ok p b s d : frame_ok (frame_of s) -> typed s -> hd 0 (memory s) = d -> d <> 0 -> heap s !! d = None ->
  (length (devices s ++ off_devices s) < 254)%nat ->
  exists i s', AddInputDevice p b s = Some (d, s') /\ typed s' /\ frame_ok (frame_of s') /\ heap s' !! d = Some (fresh_device i p b) /\
    frame_of s' = added_frame d (fresh_core i p) (frame_of s) /\ memory s' = tl (memory s) /\ answers s' = answers s.
Proof.
  intros H T Hm Hd0 Hd Hlen. unfold AddInputDevice.
  destruct (ids_of_list_spec (devices s ++ off_devices s) s) as (used & -> & El & Hin); [intros e; by apply heap_listed|].
  cbn [mbind option_bind]. destruct (free_id_found used) as [Hi Hfree]; [by rewrite El|]. set (i := free_id _ _ _) in *.
  rewrite (proj2 (Z.leb_gt MAXDEVICES i)) by lia. unfold malloc. rewrite Hm, (proj2 (Z.eqb_neq d 0)) by done.
  set (s' := set_lists _ _ _ _). exists i, s'.
  assert (frame_of s' = added_frame d (fresh_core i p) (frame_of s)) as F.
  { subst s'. unfold frame_of, added_frame, f_core, f_lists. cbn. by rewrite fmap_insert. }
  split; [done|]. split; [|split; [|split; [|split; [done|done]]]].
  - intros e w. cbn. rewrite lookup_insert_Some. intros [[<- <-]|[_ He]]; [apply no_classes_ok|by apply (T e)].
  - rewrite F. apply added_frame_ok; try done.
    + cbn. by rewrite lookup_fmap, Hd.
    + intros e c (v & Hv & <-)%frame_lookup E. apply Hfree. rewrite <- E. apply (Hin e v); [|done]. by apply heap_listed; [|eexists].
  - cbn. apply lookup_insert_eq.
Qed.

(** A slave of lorie is removed: it is disabled first if it is on. *)
Lemma disable_slave s d v : frame_ok (frame_of s) -> typed s -> heap s !! d = Some v -> IsMaster v = false ->
  exists s', disable screen down key_down d s = Some (true, s') /\ typed s' /\ frame_ok (frame_of s') /\ d ∈ off_devices s' /\
    frame_of s' = (if enabled v then disabled_frame d (core_of v) (frame_of s) else frame_of s).
Proof.
  intros H T Hv Hs. unfold disable. destruct (enabled v) eqn:He.
  - destruct (DisableDevice_slave screen down key_down (size (heap s)) s d v H T Hv Hs He) as (s' & E & T' & F').
    exists s'. split; [done|]. split; [done|]. assert (d ∈ devices s) as Hd by by apply (fo_enabled _ H d (core_of v) (frame_heap _ _ _ Hv)).
    split; [rewrite F'; apply disabled_frame_ok; try done; by apply frame_heap|]. split; [|done].
    change (off_devices s') with (offs (frame_of s')). rewrite F'. cbn. by left.
  - exists s. cbn [DisableDevice]. rewrite Hv. cbn [mbind option_bind]. rewrite He. split; [done|]. do 2 (split; [done|]). split; [|done].
    assert (d ∈ (devices s ++ off_devices s)) as Hin by (apply heap_listed; [done|by eexists]).
    apply elem_of_app in Hin as [Hd|?]; [|done]. apply (fo_enabled _ H d (core_of v) (frame_heap _ _ _ Hv)) in Hd. cbn in Hd. congruence.
Qed.
End add.

(** ** Removing and the requests of clients *)

Section requests.
Context (screen : Z * Z) (down key_down : Z -> Z -> bool).

Definition gone_frame (d : Z) (c : Core) (f : Frame) : Frame :=
  removed_frame d (if c_inited c && c_enabled c then disabled_frame d c f else f).

Lemma enabled_inited s d v : frame_ok (frame_of s) -> heap s !! d = Some v -> inited v && enabled v = enabled v.
Proof.
  intros H Hv. destruct (enabled v) eqn:E; [|by rewrite andb_false_r].
  pose proof (fo_inited _ H d (core_of v) (frame_heap _ _ _ Hv) E) as Hi. cbn in Hi. by rewrite Hi.
Qed.

Lemma listed_on_or_off s d v : frame_ok (frame_of s) -> heap s !! d = Some v -> enabled v = false -> d ∈ off_devices s.
Proof.
  intros H Hv He. assert (d ∈ (devices s ++ off_devices s)) as Hin by (apply heap_listed; [done|by eexists]).
  apply elem_of_app in Hin as [Hd|?]; [|done]. apply (fo_enabled _ H d (core_of v) (frame_heap _ _ _ Hv)) in Hd. cbn in Hd. congruence.
Qed.

(** Closing a device that is off leaves the others as they are. *)
Lemma CloseDevice_off s d v : typed s -> d <> 0 -> heap s !! d = Some v -> spriteOwner (links v) = false ->
  exists s', CloseDevice screen d s = Some s' /\ typed s' /\ frame_of s' = f_cores (delete d (cores (frame_of s))) (frame_of s).
Proof.
  intros T Hd0 Hv Ho. unfold CloseDevice. rewrite (proj2 (Z.eqb_neq d 0)), Hv by done. cbn [mbind option_bind].
  assert (exists s1 v1, (if inited v then r ← call_device screen d DEVICE_CLOSE s; Some (snd r) else Some s) = Some s1 /\ quiet s s1 /\
    heap s1 !! d = Some v1 /\ spriteOwner (links v1) = false) as (s1 & v1 & -> & Q1 & Hv1 & Ho1).
  { destruct (inited v); [|exists s, v; done]. destruct (call_device_simple screen d DEVICE_CLOSE v s Hv) as (s1 & -> & Q1); [auto|].
    assert (cores (frame_of s1) !! d = Some (core_of v)) as Hc by (rewrite (q_frame _ _ Q1); by apply frame_heap).
    apply frame_lookup in Hc as (v1 & Hv1 & [= _ _ _ _ _ _ E]). exists s1, v1. rewrite E. done. }
  cbn [mbind option_bind]. unfold FreeSprite. rewrite Hv1. cbn [mbind option_bind]. rewrite Ho1. cbn [mbind option_bind].
  rewrite (upd_links d _ s1 v1 Hv1). cbn [mbind option_bind]. eexists. split; [done|]. split.
  - intros e w. cbn. rewrite delete_insert_eq. intros [_ He]%lookup_delete_Some. by apply (q_typed _ _ Q1 T e).
  - rewrite <- (q_frame _ _ Q1). unfold frame_of, f_cores. cbn. rewrite delete_insert_eq, fmap_delete. done.
Qed.

Lemma slave_owner s d v : frame_ok (frame_of s) -> heap s !! d = Some v -> IsMaster v = false -> spriteOwner (links v) = false.
Proof.
  intros H Hv Hs. by destruct (fo_placed _ H d (core_of v) (frame_heap _ _ _ Hv) Hs) as [? ? E|? ? ? E|? E]; cbn in E; rewrite E.
Qed.

Lemma RemoveDevice_slave s d v : frame_ok (frame_of s) -> typed s -> heap s !! d = Some v -> IsMaster v = false ->
  exists s', RemoveDevice screen down key_down d s = Some (Success, s') /\ typed s' /\ frame_ok (frame_of s') /\
    frame_of s' = gone_frame d (core_of v) (frame_of s).
Proof.
  intros H T Hv Hs. pose proof (heap_live s d v H Hv) as Hd0.
  destruct (slave_not_core _ H d (core_of v) (frame_heap _ _ _ Hv) Hs) as [Np Nk]. cbn in Np, Nk. unfold RemoveDevice.
  rewrite (proj2 (Z.eqb_neq d 0)), (proj2 (Z.eqb_neq d (keyboard s))), (proj2 (Z.eqb_neq d (pointer s))), Hv by done.
  cbn [orb mbind option_bind].
  assert (exists s1 v1, (if inited v then r ← disable screen down key_down d s; Some (snd r) else Some s) = Some s1 /\ typed s1 /\
    frame_ok (frame_of s1) /\ frame_of s1 = (if inited v && enabled v then disabled_frame d (core_of v) (frame_of s) else frame_of s) /\
    d ∈ off_devices s1 /\ heap s1 !! d = Some v1 /\ IsMaster v1 = false) as (s1 & v1 & -> & T1 & H1 & F1 & Ho1 & Hv1 & Hs1).
  { pose proof (enabled_inited s d v H Hv) as Ei. destruct (disable_slave screen down key_down s d v H T Hv Hs) as (s1 & E & T1 & H1 & Ho & F1).
    assert (forall s', frame_ok (frame_of s') -> frame_of s' = (if enabled v then disabled_frame d (core_of v) (frame_of s) else frame_of s) ->
      exists v1, heap s' !! d = Some v1 /\ IsMaster v1 = false) as Hlook.
    { intros s' _ F. assert (exists c, cores (frame_of s') !! d = Some c /\ c_master c = false) as (c & Hc & Hm).
      { rewrite F. destruct (enabled v); [|exists (core_of v); split; [by apply frame_heap|done]].
        eexists. split; [cbn; apply lookup_insert_eq|done]. }
      apply frame_lookup in Hc as (v1 & Hv1 & <-). by exists v1. }
    rewrite Ei. destruct (inited v) eqn:Ein.
    - rewrite E. cbn [mbind option_bind snd]. destruct (Hlook s1 H1 F1) as (v1 & ? & ?). exists s1, v1. done.
    - cbn [andb] in Ei. rewrite <- Ei in *. exists s, v. do 4 (split; [done|]). by split; [apply (listed_on_or_off s d v)|]. }
  cbn [mbind option_bind]. pose proof (fo_nodup _ H1) as Hn. apply NoDup_app in Hn as (_ & N2 & _).
  rewrite decide_False by (intros Hin; by apply (N2 d Hin)). cbn [mbind option_bind]. rewrite decide_True by done.
  destruct (CloseDevice_off s1 d v1 T1 Hd0 Hv1) as (s2 & -> & T2 & F2); [by apply (slave_owner s1 d)|]. cbn [mbind option_bind Z.eqb Success andb].
  set (s3 := set_lists _ _ _ s2). assert (frame_of s3 = gone_frame d (core_of v) (frame_of s)) as F3.
  { unfold gone_frame. cbn [c_inited c_enabled core_of]. rewrite <- F1. change (frame_of s3) with (f_lists (ons (frame_of s2)) (remove_device d (offs (frame_of s2))) (frame_of s2)). by rewrite F2. }
  assert (frame_ok (frame_of s3)) as H3.
  { rewrite F3. unfold gone_frame. cbn [c_inited c_enabled core_of]. rewrite <- F1. apply (removed_frame_ok _ H1 d (core_of v1)); [by apply frame_heap|done|done]. }
  destruct (inited v); eexists; split; done || (split; [exact T2|split; [exact H3|exact F3]]).
Qed.

(** A device with the identifier, or NULL. *)
Lemma dixLookupDevice_spec i s : frame_ok (frame_of s) -> exists d, dixLookupDevice i s = Some d /\
  (d = 0 \/ exists v, heap s !! d = Some v /\ id v = i).
Proof.
  intros H. unfold dixLookupDevice. assert (Hl : forall d, d ∈ (devices s ++ off_devices s) -> is_Some (heap s !! d)) by (intros d; by apply heap_listed).
  induction (devices s ++ off_devices s) as [|d l IH]; [exists 0; auto|]. destruct (Hl d ltac:(by left)) as [v Hv].
  rewrite Hv. cbn [mbind option_bind]. destruct (Z.eqb_spec (id v) i) as [E|E]; [exists d; split; [done|right; by exists v]|].
  apply IH. intros e He. apply Hl. by right.
Qed.

(** Nothing that a device of lorie is changes. *)
Definition same_owners (f g : Frame) : Prop :=
  (forall d, is_own f d -> is_own g d) /\ slaves g = slaves f /\ pen g = pen f /\ eraser g = eraser f.

Lemma lorie_same f g : same_owners f g -> lorie_ok f -> lorie_ok g.
Proof.
  intros (Ho & Es & Ep & Ee) [L1 L2]. split; rewrite ?Es, ?Ep, ?Ee.
  - eapply Forall_impl; [exact L1|]. auto.
  - destruct L2 as [?|(? & ? & ?)]; [by left|right]. auto.
Qed.

#[export] Instance same_owners_preorder : PreOrder same_owners.
Proof. split; [done|]. intros f g h (A & B & C & D) (A' & B' & C' & D'). repeat split; [auto|congruence..]. Qed.

Lemma owners_insert f g d c c' : cores f !! d = Some c -> c_master c' = c_master c -> c_xtest c' = c_xtest c -> cores g = <[d := c']> (cores f) ->
  slaves g = slaves f -> pen g = pen f -> eraser g = eraser f -> same_owners f g.
Proof.
  intros Hc Hm Hx Eg E1 E2 E3. split; [|done]. intros e (a & Ha & Hma & Hxa). unfold is_own. rewrite Eg.
  destruct (decide (d = e)) as [<-|Hne].
  - exists c'. rewrite lookup_insert_eq. split; [done|]. split; congruence.
  - exists a. by rewrite lookup_insert_ne.
Qed.

Lemma owners_disabled f d c : cores f !! d = Some c -> same_owners f (disabled_frame d c f).
Proof.
  intros Hc. assert (same_owners f (forgotten d f)) as H1.
  { split; [|done]. intros e (a & Ha & Hm & Hx). exists (forget_core d a). cbn. rewrite lookup_fmap, Ha.
    destruct (forget_same d a) as (_ & _ & _ & -> & _ & -> & _). done. }
  etrans; [exact H1|]. apply (owners_insert _ _ d (forget_core d c) (c_set_links no_links (c_power (c_inited c) false c))); try done.
  - cbn. by rewrite lookup_fmap, Hc.
  - by destruct (forget_same d c) as (_ & _ & _ & -> & _).
  - by destruct (forget_same d c) as (_ & _ & _ & _ & _ & -> & _).
Qed.

Lemma owners_seated s d v : heap s !! d = Some v -> same_owners (frame_of s) (seated d v (frame_of s)).2.
Proof.
  intros Hv. unfold seated. destruct (sprite (links v) =? 0); [|done]. 
  by apply (owners_insert _ _ d (core_of v) (c_set_links (attached_links (if IsPointerDevice v then pointer s else keyboard s) (shown (frame_of s))) (core_of v))); [apply frame_heap|..].
Qed.

Lemma EnableDevice_keeps s d v : frame_ok (frame_of s) -> typed s -> heap s !! d = Some v -> IsMaster v = false -> d ∈ off_devices s ->
  exists b s', EnableDevice screen d s = Some (b, s') /\ typed s' /\ frame_ok (frame_of s') /\ same_owners (frame_of s) (frame_of s').
Proof.
  intros H T Hv Hs Ho. destruct (EnableDevice_slave screen s d v H T Hv Hs Ho) as (s' & E & T' & _ & F').
  exists (inited v), s'. split; [done|]. split; [done|]. pose proof (owners_seated s d v Hv) as Hsame.
  pose proof (seated_ok s d v H Hv Hs) as (_ & Hc & _). destruct (seated d v (frame_of s)) as [c f]. cbn [fst snd] in *.
  destruct F' as [F' H']. split; [done|]. rewrite F'. destruct (inited v); [|done]. etrans; [exact Hsame|].
  by apply (owners_insert _ _ d c (c_power (c_inited c) true c)).
Qed.
End requests.
