(* ===== verification/DeviceRuns.v ===== *)
(** * Runs of the input devices

    The pen that comes and goes, requests of clients and events, in any order: every
    operation succeeds and keeps the invariant of [DeviceFrames], which gives the delivery
    of events what it needs; and the start of the server establishes it. *)

From Stdlib Require Import String.
From S2P Require Import Prelude EventQueue EventDelivery DeviceClasses InputDevices DeviceFrames.

(** ** A new slave *)

Section start.
Context (screen : Z * Z) (down key_down : Z -> Z -> bool).

(** The frame in which a device that is off is initialised. *)
Definition activated_frame (d : Z) (b : bool) (c : Core) (f : Frame) : Frame := f_core d (c_power b (c_enabled c) c) f.

Lemma f_lists_same f : f_lists (ons f) (offs f) f = f.
Proof. by destruct f. Qed.

Lemma activated_frame_ok f d b c : frame_ok f -> cores f !! d = Some c -> c_master c = false -> c_enabled c = false ->
  frame_ok (activated_frame d b c f).
Proof.
  intros H Hc Hs He. unfold activated_frame. rewrite He, <- (f_lists_same f).
  assert (d ∉ ons f) as Hd by (intros Hd; apply (fo_enabled _ H d c Hc) in Hd; congruence).
  apply switch_ok; try done.
  - apply (fo_nodup _ H).
  - intros _ m c' x Hm Hmm Hx ->. destruct (fo_last _ H m c' d Hm Hmm Hx) as [E|[_ ?]]; [|done].
    by apply (null_key f H d c).
  - destruct (fo_placed _ H d c Hc Hs) as [m Hm E|x Hx Hn E|_ E]; [by apply (Attached _ _ _ m)|by apply (Floating _ _ _ x)|by apply Off].
Qed.

Lemma ActivateDevice_new s d v : typed s -> heap s !! d = Some v -> d <> 0 -> classes v = no_classes -> deviceProc v <> lorieTouchProc ->
  exists r s' v', ActivateDevice screen d s = Some (r, s') /\ typed s' /\ memory s' = memory s /\
    frame_of s' = activated_frame d (r =? Success) (core_of v) (frame_of s) /\
    heap s' !! d = Some v' /\ (r = Success -> declared (classes v') = declaration (deviceProc v) \/ deviceProc v = lorieKeybdProc).
Proof.
  intros T Hv Hd Hk Hp. unfold ActivateDevice, call_device. rewrite (proj2 (Z.eqb_neq d 0)), Hv by done. cbn [mbind option_bind].
  pose proof (call_proc_initialised screen False (deviceProc v) v Hk Hp (answers s)) as H.
  destruct (call_proc screen (deviceProc v) DEVICE_INIT v (answers s)) as [[r [v' l]]|]; [|done]. destruct H as (Hc & Ok & Hd').
  cbn [mbind option_bind]. rewrite (upd_Some d _ _ v') by (cbn; apply lookup_insert_eq). cbn [mbind option_bind].
  eexists r, _, (set_inited (r =? Success) v'). split; [reflexivity|]. split; [|split; [done|split; [|split]]].
  - intros e w. cbn. rewrite insert_insert_eq, lookup_insert_Some. intros [[<- <-]|[_ He]]; [done|by apply (T e)].
  - unfold activated_frame, frame_of, f_core. cbn. rewrite insert_insert_eq, fmap_insert. f_equal. f_equal.
    change (core_of (set_inited (r =? Success) v')) with (c_power (r =? Success) (c_enabled (core_of v')) (core_of v')). by rewrite Hc.
  - cbn. apply lookup_insert_eq.
  - intros Hr. cbn. destruct (Hd' Hr) as [?|[? _]]; auto.
Qed.

(** The device of a pen that is attached to the pointer, on if its initialisation went well. *)
Definition stylus_core (b : bool) (i m x : Z) : Core :=
  {| c_id := i; c_type := None; c_xtest := 0; c_proc := lorieStylusProc; c_inited := b; c_enabled := b; c_links := attached_links m x |}.

Definition stylus_frame (b : bool) (i d : Z) (f : Frame) : Frame :=
  f_core d (stylus_core b i (vcp f) (shown f))
    (f_lists (if b then ons f ++ [d] else ons f) (if b then offs f else offs f ++ [d]) f).
End start.

Section stylus.
Context (screen : Z * Z) (down key_down : Z -> Z -> bool).

Lemma typed_heap s s' : heap s' = heap s -> typed s -> typed s'.
Proof. intros E T d v. rewrite E. apply T. Qed.

Lemma add_slave_ok p t n s d : frame_ok (frame_of s) -> typed s -> hd 0 (memory s) = d -> d <> 0 -> heap s !! d = None ->
  (length (devices s ++ off_devices s) < 254)%nat ->
  exists i s' v, add_slave p t n s = Some (d, s') /\ typed s' /\ frame_ok (frame_of s') /\ memory s' = tl (memory s) /\
    frame_of s' = added_frame d (fresh_core i p) (frame_of s) /\ heap s' !! d = Some v /\ core_of v = fresh_core i p /\ classes v = no_classes.
Proof.
  intros H T Hm Hd Hh Hl. unfold add_slave. destruct (AddInputDevice_ok p true s d H T Hm Hd Hh Hl) as (i & s1 & -> & T1 & H1 & Hv1 & F1 & M1 & _).
  cbn [mbind option_bind]. unfold AssignTypeAndName. rewrite (upd_Some d _ s1 _ Hv1). cbn [mbind option_bind].
  eexists i, _, _. split; [reflexivity|].
  assert (frame_of (set_heap (<[d := set_name t n (fresh_device i p true)]> (heap s1)) s1) = frame_of s1) as F2.
  { rewrite frame_insert. apply f_core_id. by rewrite (frame_heap _ _ _ Hv1). }
  rewrite F2, F1. split; [|split; [by rewrite <- F1|split; [done|split; [done|split; [cbn; apply lookup_insert_eq|done]]]]].
  intros e w. cbn. rewrite lookup_insert_Some. intros [[<- <-]|[_ He]]; [apply no_classes_ok|by apply (T1 e)].
Qed.

(** A device without a sprite of its own is attached. *)
Lemma attached_core d m x c l o f : own_sprite d (c_links c) = ∅ -> x = shown (f_core d c (f_lists l o f)) ->
  attached_frame d m c (f_core d c (f_lists l o f)) = f_core d (c_set_links (attached_links m x) c) (f_lists l o f).
Proof.
  intros Ho ->. unfold attached_frame. rewrite Ho, difference_empty_L. unfold f_core, f_live, f_lists. cbn. by rewrite insert_insert_eq.
Qed.

Lemma shown_core f d c l o : d <> vcp f -> shown (f_core d c (f_lists l o f)) = shown f.
Proof. apply (shown_insert (f_lists l o f)). Qed.

Lemma enabled_core d c c' l o f : enabled_frame d c (f_core d c' (f_lists l o f)) =
  f_core d (c_power (c_inited c) true c) (f_lists (l ++ [d]) (remove_device d o) f).
Proof. unfold enabled_frame, f_core, f_lists. cbn. by rewrite insert_insert_eq. Qed.

(** A new pen is enabled: it is attached to a master, to the keyboard if it is no pointer. *)
Lemma seated_stylus b i d v s f : frame_of s = f_core d (c_power b false (fresh_core i lorieStylusProc)) (f_lists (ons f) (offs f) f) ->
  core_of v = c_power b false (fresh_core i lorieStylusProc) -> d <> vcp f -> d <> 0 ->
  exists m, (m = vcp f \/ m = vck f) /\
    (let '(c, g) := seated d v (frame_of s) in if inited v then enabled_frame d c g else g) =
    f_core d (stylus_core b i m (shown f)) (f_lists (if b then ons f ++ [d] else ons f) (if b then remove_device d (offs f) else offs f) f).
Proof.
  intros F Ev Np Hd. pose proof (f_equal c_inited Ev) as Ei. pose proof (f_equal c_links Ev) as El. cbn in Ei, El.
  unfold seated. rewrite El, F, Ei. cbn [sprite no_links Z.eqb]. rewrite Ev. set (c0 := c_power b false _).
  assert (own_sprite d (c_links c0) = ∅) as Ho by (unfold own_sprite; rewrite (proj2 (Z.eqb_neq (paired _) d)) by (by cbn; congruence); by rewrite andb_false_r).
  set (m := if IsPointerDevice v then _ else _). exists m. split; [unfold m; by destruct (IsPointerDevice v); [left|right]|].
  rewrite (attached_core d m (shown f)) by (done || by rewrite shown_core). rewrite shown_core by done.
  destruct b; [by rewrite enabled_core|done].
Qed.

Lemma start_slave_ok i s d v : frame_ok (frame_of s) -> typed s -> heap s !! d = Some v -> core_of v = fresh_core i lorieStylusProc ->
  classes v = no_classes -> exists b s', start_slave screen d (pointer s) s = Some s' /\ typed s' /\ frame_ok (frame_of s') /\ memory s' = memory s /\
    frame_of s' = f_core d (stylus_core b i (pointer s) (shown (frame_of s)))
      (f_lists (if b then devices s ++ [d] else devices s) (if b then remove_device d (off_devices s) else off_devices s) (frame_of s)).
Proof.
  intros H T Hv Hc Hk. pose proof (heap_live s d v H Hv) as Hd. pose proof (frame_heap s d v Hv) as Hcore.
  assert (IsMaster v = false /\ enabled v = false /\ deviceProc v = lorieStylusProc) as (Hs & He & Hp).
  { injection Hc as _ Et _ Ep _ Ee _. unfold IsMaster. by rewrite Et. }
  unfold start_slave. destruct (ActivateDevice_new screen s d v T Hv Hd Hk) as (r & s1 & v1 & -> & T1 & M1 & F1 & Hv1 & _); [by rewrite Hp|].
  cbn [mbind option_bind snd].
  set (b := r =? Success) in *. assert (frame_ok (frame_of s1)) as H1 by (rewrite F1; by apply activated_frame_ok).
  assert (core_of v1 = c_power b false (fresh_core i lorieStylusProc)) as Ec1.
  { pose proof (frame_heap s1 d v1 Hv1) as E. rewrite F1 in E. unfold activated_frame in E. cbn [cores f_core] in E.
    rewrite lookup_insert_eq in E. apply (inj Some) in E. by rewrite <- E, Hc. }
  assert (IsMaster v1 = false) as Hs1 by by rewrite <- c_master_of, Ec1.
  pose proof (f_equal c_inited Ec1) as Ei. pose proof (f_equal c_links Ec1) as El. pose proof (f_equal c_enabled Ec1) as Ee. cbn in Ei, El, Ee.
  assert (devices s1 = devices s /\ off_devices s1 = off_devices s /\ pointer s1 = pointer s) as (D1 & O1 & P1).
  { pose proof (f_equal ons F1). pose proof (f_equal offs F1). by pose proof (f_equal vcp F1). }
  assert (d ∈ off_devices s1) as Ho by (by apply (listed_on_or_off s1 d v1 H1 Hv1)).
  destruct (slave_not_core _ H d (core_of v) Hcore Hs) as [Np _].
  destruct (seated_stylus b i d v1 s1 (frame_of s)) as (m & Hm & Fm); [by rewrite F1, f_lists_same, Hc|done..|].
  destruct (EnableDevice_slave screen s1 d v1 H1 T1 Hv1 Hs1 Ho) as (s2 & -> & T2 & M2 & Hf2). cbn [mbind option_bind snd].
  assert (frame_ok (frame_of s2) /\ frame_of s2 = f_core d (stylus_core b i m (shown (frame_of s)))
    (f_lists (if b then devices s ++ [d] else devices s) (if b then remove_device d (off_devices s) else off_devices s) (frame_of s))) as [H2 F2].
  { destruct (seated d v1 (frame_of s1)) as [c g]. destruct Hf2 as [E ?]. split; [done|]. by rewrite E, Fm. }
  assert (exists v2, heap s2 !! d = Some v2 /\ core_of v2 = stylus_core b i m (shown (frame_of s))) as (v2 & Hv2 & Ec2).
  { apply frame_lookup. rewrite F2. cbn. apply lookup_insert_eq. }
  assert (pointer s2 = pointer s) as P2 by (by pose proof (f_equal vcp F2)).
  destruct (AttachDevice_master s2 d v2 H2 T2 Hv2) with (pointer s) as (s3 & -> & F3 & T3 & M3); [by rewrite <- c_master_of, Ec2|by left|].
  assert (frame_ok (frame_of s3)) as H3 by (rewrite F3; apply attached_frame_ok; [done|done|by rewrite <- c_master_of, Ec2|by left]).
  exists b, s3. split; [done|]. split; [done|]. split; [done|]. split; [congruence|].
  rewrite F3, Ec2, F2. rewrite (attached_core d _ (shown (frame_of s))).
  - done.
  - unfold own_sprite. cbn. assert (m <> 0) as Hm0.
    { destruct (masters s H) as (p & k & Hp' & Hk' & _). pose proof (heap_live s _ _ H Hp'). pose proof (heap_live s _ _ H Hk').
      by destruct Hm as [-> | ->]. }
    by rewrite (proj2 (Z.eqb_neq m 0)).
  - by rewrite shown_core.
Qed.
End stylus.

(** ** The pen and the eraser *)

Lemma stylus_fields_ok p e f : frame_ok f -> frame_ok (f_stylus p e f).
Proof.
  intros [F1 F2 F3 F4 F5 F6 F7 F8 (a & k & M) F10 F11 F12 F13]. split; try done.
  - exists a, k. by apply (masters_keep f (f_stylus p e f) a k M); try done; apply M.
  - intros d c Hc Hs. by apply (seated_mono f); [apply F11|..].
Qed.

Section stylus_pair.
Context (screen : Z * Z) (down key_down : Z -> Z -> bool).

Lemma stylus_frame_added b i d f : d ∉ offs f -> 
  f_core d (stylus_core b i (vcp f) (shown f))
    (f_lists (if b then ons f ++ [d] else ons f) (if b then remove_device d (offs f ++ [d]) else offs f ++ [d]) (added_frame d (fresh_core i lorieStylusProc) f))
  = stylus_frame b i d f.
Proof.
  intros Hd. unfold stylus_frame, added_frame, f_core, f_lists. cbn. rewrite insert_insert_eq. f_equal.
  destruct b; [|done]. unfold remove_device. rewrite filter_app, (filter_cons_False _ d []) by tauto. fold (remove_device d (offs f)).
  by rewrite remove_device_none, app_nil_r.
Qed.

Lemma not_listed s d : frame_ok (frame_of s) -> heap s !! d = None -> (d ∉ devices s) /\ (d ∉ off_devices s).
Proof.
  intros H Hd. assert (d ∉ (devices s ++ off_devices s)) as Hn by (rewrite heap_listed by done; rewrite Hd; by intros [? [=]]).
  by apply not_elem_of_app in Hn.
Qed.

Lemma add_stylus_ok t n s d : frame_ok (frame_of s) -> typed s -> hd 0 (memory s) = d -> d <> 0 -> heap s !! d = None ->
  (length (devices s ++ off_devices s) < 254)%nat ->
  exists b i s', add_stylus screen t n s = Some (d, s') /\ typed s' /\ frame_ok (frame_of s') /\ memory s' = tl (memory s) /\
    frame_of s' = stylus_frame b i d (frame_of s).
Proof.
  intros H T Hm Hd Hh Hl. unfold add_stylus.
  destruct (add_slave_ok lorieStylusProc t n s d H T Hm Hd Hh Hl) as (i & s1 & v & -> & T1 & H1 & M1 & F1 & Hv1 & Ec & Ek). cbn [mbind option_bind].
  destruct (start_slave_ok screen i s1 d v H1 T1 Hv1 Ec Ek) as (b & s2 & -> & T2 & H2 & M2 & F2). cbn [mbind option_bind].
  exists b, i, s2. do 3 (split; [done|]). split; [congruence|]. rewrite F2, F1.
  destruct (masters s H) as (p & k & Hp & _ & _ & _). assert (d <> pointer s) as Np by (intros ->; congruence).
  pose proof (f_equal ons F1) as D1. pose proof (f_equal offs F1) as O1. pose proof (f_equal vcp F1) as P1. cbn in D1, O1, P1.
  rewrite D1, O1, P1. rewrite <- stylus_frame_added by by apply not_listed.
  replace (shown (added_frame d (fresh_core i lorieStylusProc) (frame_of s))) with (shown (frame_of s)); [done|].
  symmetry. apply (shown_core (frame_of s) d _ _ _ Np).
Qed.

(** The pen and the eraser are added. *)
Lemma stylus_on s p e rest : frame_ok (frame_of s) -> typed s -> loriePen s = 0 -> lorieEraser s = 0 -> memory s = p :: e :: rest ->
  p <> 0 -> e <> 0 -> p <> e -> heap s !! p = None -> heap s !! e = None -> (length (devices s ++ off_devices s) < 253)%nat ->
  exists b i b' i' s', lorieSetStylusEnabled screen down key_down true s = Some s' /\ typed s' /\ frame_ok (frame_of s') /\
    frame_of s' = f_stylus p e (stylus_frame b' i' e (stylus_frame b i p (frame_of s))).
Proof.
  intros H T Ep Ee Em Hp He Hpe Hhp Hhe Hl. unfold lorieSetStylusEnabled. rewrite Ep. cbn [Z.eqb].
  destruct (add_stylus_ok "TERMUX-X11 PEN" "Lorie pen" s p) as (b & i & s1 & -> & T1 & H1 & M1 & F1); try done; [by rewrite Em|lia|].
  cbn [mbind option_bind]. change (lorieEraser (set_stylus p (lorieEraser s1) s1)) with (eraser (frame_of s1)). rewrite F1.
  cbn [eraser stylus_frame f_core f_lists frame_of]. rewrite Ee. cbn [Z.eqb].
  set (s2 := set_stylus p _ s1). assert (frame_of s2 = f_stylus p (lorieEraser s1) (frame_of s1)) as F2 by done.
  assert (frame_ok (frame_of s2)) as H2 by (rewrite F2; by apply stylus_fields_ok).
  assert (heap s2 !! e = None) as Hhe2.
  { pose proof (f_equal (fun f => cores f !! e) F1) as E. cbn in E. rewrite lookup_insert_ne, !lookup_fmap, Hhe in E by done.
    by apply fmap_None in E. }
  destruct (add_stylus_ok "TERMUX-X11 ERASER" "Lorie eraser" s2 e) as (b' & i' & s3 & -> & T3 & H3 & _ & F3); try done.
  - cbn. by rewrite M1, Em.
  - pose proof (f_equal ons F1) as D1. pose proof (f_equal offs F1) as O1. cbn in D1, O1. cbn. rewrite D1, O1, length_app in *.
    destruct b; rewrite !length_app; cbn; lia.
  - cbn [mbind option_bind]. exists b, i, b', i'. eexists. split; [reflexivity|]. split; [done|].
    pose proof (f_equal pen F3) as P3. cbn in P3.
    assert (frame_of (set_stylus (loriePen s3) e s3) = f_stylus p e (frame_of s3)) as -> by (unfold frame_of, f_stylus; cbn; by rewrite P3).
    split; [by apply stylus_fields_ok|]. by rewrite F3, F2, F1.
Qed.
End stylus_pair.

(** ** Removing them *)

Section stylus_off.
Context (screen : Z * Z) (down key_down : Z -> Z -> bool).

Lemma own_lookup s d : is_own (frame_of s) d -> exists v, heap s !! d = Some v /\ IsMaster v = false /\ xtest_master_id v = 0.
Proof. intros (c & (v & Hv & <-)%frame_lookup & Hm & Hx). by exists v. Qed.

Lemma gone_keeps d e c c' f : cores f !! e = Some c' -> c_master c' = false -> e <> d -> cores (gone_frame d c f) !! e = Some c'.
Proof.
  intros He Hm Hne. unfold gone_frame. cbn [cores removed_frame f_cores f_lists]. rewrite lookup_delete_ne by done.
  destruct (c_inited c && c_enabled c); [|done]. cbn. rewrite lookup_insert_ne, lookup_fmap, He by done. cbn. f_equal.
  by destruct (forget_same d c') as (_ & _ & _ & _ & _ & _ & -> & _).
Qed.

Lemma own_gone d e c f : is_own f e -> e <> d -> is_own (gone_frame d c f) e.
Proof. intros (c' & Hc & Hm & Hx) Hne. exists c'. by rewrite (gone_keeps d e c c'). Qed.

Lemma gone_fields d c f : slaves (gone_frame d c f) = slaves f /\ pen (gone_frame d c f) = pen f /\ eraser (gone_frame d c f) = eraser f.
Proof. unfold gone_frame. by destruct (c_inited c && c_enabled c). Qed.

(** One of the two is removed. *)
Lemma remove_own s d c : frame_ok (frame_of s) -> typed s -> cores (frame_of s) !! d = Some c -> c_master c = false ->
  exists s', RemoveDevice screen down key_down d s = Some (Success, s') /\ typed s' /\ frame_ok (frame_of s') /\
    frame_of s' = gone_frame d c (frame_of s).
Proof. intros H T (v & Hv & <-)%frame_lookup Hm. by apply RemoveDevice_slave. Qed.

Lemma stylus_off s p e : frame_ok (frame_of s) -> typed s -> cores (frame_of s) !! loriePen s = Some p -> c_master p = false ->
  cores (frame_of s) !! lorieEraser s = Some e -> c_master e = false -> loriePen s <> lorieEraser s ->
  exists s', lorieSetStylusEnabled screen down key_down false s = Some s' /\ typed s' /\ frame_ok (frame_of s') /\
    frame_of s' = f_stylus 0 0 (gone_frame (lorieEraser s) e (gone_frame (loriePen s) p (frame_of s))).
Proof.
  intros H T Hp Hmp He Hme Hne. unfold lorieSetStylusEnabled.
  destruct (remove_own s (loriePen s) p H T Hp Hmp) as (s1 & E1 & T1 & H1 & F1).
  rewrite (proj2 (Z.eqb_neq (loriePen s) 0)) by by apply (null_key _ H _ p). cbn [negb]. rewrite E1. cbn [mbind option_bind snd].
  set (s2 := set_stylus 0 (lorieEraser s1) s1). assert (lorieEraser s2 = lorieEraser s) as Ee.
  { change (eraser (frame_of s1) = eraser (frame_of s)). rewrite F1. apply gone_fields. }
  rewrite Ee, (proj2 (Z.eqb_neq (lorieEraser s) 0)) by by apply (null_key _ H _ e). cbn [negb].
  assert (frame_of s2 = f_stylus 0 (lorieEraser s) (frame_of s1)) as F2 by (rewrite <- Ee; done).
  destruct (remove_own s2 (lorieEraser s) e) as (s3 & E3 & T3 & H3 & F3); [rewrite F2; by apply stylus_fields_ok|done| |done|].
  { rewrite F2, F1. by apply gone_keeps. }
  rewrite E3. cbn [mbind option_bind snd]. eexists. split; [reflexivity|]. split; [done|].
  assert (loriePen s3 = 0) as Ep3 by (change (pen (frame_of s3) = 0); rewrite F3, F2; by destruct (gone_fields (lorieEraser s) e (f_stylus 0 (lorieEraser s) (frame_of s1))) as (_ & -> & _)).
  rewrite Ep3. change (frame_of (set_stylus 0 0 s3)) with (f_stylus 0 0 (frame_of s3)). split; [by apply stylus_fields_ok|].
  rewrite F3, F2, F1. unfold gone_frame. by destruct (c_inited e && c_enabled e).
Qed.
End stylus_off.

(** ** Adding and removing *)

Section restored.

(** A device that is no master's last slave is forgotten without a trace. *)
Lemma gone_fresh f d c : c_inited c = c_enabled c -> (c_enabled c = false -> d ∉ ons f) ->
  (forall m c' x, cores f !! m = Some c' -> c_master c' = true -> x = lastSlave (c_links c') \/ x = last_slave (c_links c') -> x <> d) ->
  gone_frame d c f = f_cores (delete d (cores f)) (f_lists (remove_device d (ons f)) (remove_device d (offs f)) f).
Proof.
  intros Hi Hon Hl. unfold gone_frame. rewrite Hi. destruct (c_enabled c); cbn [andb].
  2: { unfold removed_frame. by rewrite (remove_device_none d (ons f)) by auto. }
  unfold removed_frame, disabled_frame, forgotten, f_core, f_cores, f_lists. cbn.
  assert (remove_device d (d :: offs f) = remove_device d (offs f)) as Er by (unfold remove_device; by rewrite filter_cons_False by tauto).
  f_equal; [|exact Er].
  rewrite delete_insert_eq. apply map_eq. intros x. destruct (decide (x = d)) as [->|Hne]; [by rewrite !lookup_delete_eq|].
  rewrite !lookup_delete_ne by done. rewrite lookup_fmap. destruct (cores f !! x) as [c'|] eqn:Ex; [|done]. cbn. f_equal.
  unfold forget_core. destruct (c_master c') eqn:Em; [|done].
  rewrite (proj2 (Z.eqb_neq (lastSlave (c_links c')) d)) by (by apply (Hl x c'); auto).
  rewrite (proj2 (Z.eqb_neq (last_slave (c_links c')) d)) by (by apply (Hl x c'); auto). by destruct c' as [? ? ? ? ? ? []].
Qed.

Lemma remove_added d (b : bool) (l : list Z) : d ∉ l -> remove_device d (if b then l ++ [d] else l) = l.
Proof.
  intros Hd. destruct b; [|by apply remove_device_none]. unfold remove_device.
  rewrite filter_app, (filter_cons_False _ d []) by tauto. fold (remove_device d l). by rewrite remove_device_none, app_nil_r.
Qed.

Lemma remove_other d e (b : bool) (l : list Z) : e <> d -> remove_device d (if b then l ++ [e] else l) = (if b then remove_device d l ++ [e] else remove_device d l).
Proof.
  intros Hne. destruct b; [|done]. unfold remove_device. by rewrite filter_app, (filter_cons_True _ e []) by done.
Qed.

(** What a master was told last is in the frame. *)
Lemma last_known f d m c x : frame_ok f -> cores f !! d = None -> d <> 0 -> cores f !! m = Some c -> c_master c = true ->
  x = lastSlave (c_links c) \/ x = last_slave (c_links c) -> x <> d.
Proof. intros H Hd Hd0 Hc Hm Hx ->. destruct (fo_last f H m c d Hc Hm Hx) as [?|[(c' & ? & _) _]]; congruence. Qed.

(** The masters of a frame with a pen and an eraser are those that were there. *)
Lemma masters_before b i d f m c : cores (stylus_frame b i d f) !! m = Some c -> c_master c = true -> cores f !! m = Some c.
Proof. cbn. rewrite lookup_insert_Some. by intros [[_ <-]|[_ ?]]. Qed.

Lemma unlisted f d : frame_ok f -> cores f !! d = None -> (d ∉ ons f) /\ (d ∉ offs f).
Proof.
  intros H Hd. assert (d ∉ (ons f ++ offs f)) as Hn by (rewrite <- (fo_dom f H), Hd; by intros [? [=]]). by apply not_elem_of_app in Hn.
Qed.

Lemma in_added x d (b : bool) (l : list Z) : x ∈ (if b then l ++ [d] else l) <-> x ∈ l \/ b = true /\ x = d.
Proof. destruct b; [rewrite elem_of_app, list_elem_of_singleton|]; intuition congruence. Qed.

Lemma frame_eq f g : cores f = cores g -> ons f = ons g -> offs f = offs g -> vcp f = vcp g -> vck f = vck g -> live f = live g ->
  slaves f = slaves g -> pen f = pen g -> eraser f = eraser g -> f = g.
Proof. destruct f, g. cbn. by intros -> -> -> -> -> -> -> -> ->. Qed.

(** Adding the two and removing them again restores the frame. *)
Lemma stylus_restored f b i p b' i' e m x m' x' : frame_ok f -> cores f !! p = None -> cores f !! e = None -> p <> 0 -> e <> 0 -> p <> e ->
  pen f = 0 -> eraser f = 0 -> let g := f_stylus p e (stylus_frame b' i' e (stylus_frame b i p f)) in
  f_stylus 0 0 (gone_frame e (stylus_core b' i' m' x') (gone_frame p (stylus_core b i m x) g)) = f.
Proof.
  intros H Hp He Hp0 He0 Hpe Ep Ee g. destruct (unlisted f p H Hp) as [P1 P2], (unlisted f e H He) as [E1 E2].
  rewrite (gone_fresh g p).
  2: { done. }
  2: { intros [= ->]. cbn. rewrite in_added. intros [?|[_ ?]]; done. }
  2: { intros a c z Hc Hm Hx. apply masters_before in Hc; [|done]. apply masters_before in Hc; [|done]. by apply (last_known f p a c). }
  rewrite gone_fresh.
  2: { done. }
  2: { intros [= ->] Hin. apply (remove_device_in p (ons g) e) in Hin as [Hin _]. cbn in Hin. rewrite in_added in Hin. by destruct Hin as [?|[_ ?]]. }
  2: { intros a c z Hc Hm Hx. cbn in Hc. apply lookup_delete_Some in Hc as [_ Hc].
       apply (masters_before b' i' e (stylus_frame b i p f)) in Hc; [|done]. apply masters_before in Hc; [|done]. by apply (last_known f e a c). }
  apply frame_eq; try done; cbn [cores ons offs f_stylus f_cores f_lists f_core stylus_frame g].
  - rewrite (delete_insert_ne _ p e) by exact Hpe. rewrite !delete_insert_eq, (delete_id _ p Hp). exact (delete_id _ e He).
  - by rewrite (remove_other p e), (remove_added p), (remove_added e) by congruence.
  - assert (forall (b : bool) (x y : list Z), (if b then x else y) = (if negb b then y else x)) as En by by intros [].
    rewrite !(En b), !(En b'). by rewrite (remove_other p e), (remove_added p), (remove_added e) by congruence.
Qed.
End restored.

(** ** What the delivery of events needs *)

(** The devices that are on, with a sprite [sp p] at every address [p] of a sprite. *)
Definition event_view (sp : Z -> EventQueue.Sprite) (s : InputInfo) : EventQueue.Devices :=
  {| EventQueue.devices := as_seen <$> filter (fun kv => enabled (snd kv) = true) (heap s);
     EventQueue.sprites := map_imap (fun p _ => Some (sp p)) (gset_to_gmap tt (sprites s)) |}.

Lemma view_lookup sp s d w : EventQueue.devices (event_view sp s) !! d = Some w <->
  exists v, heap s !! d = Some v /\ enabled v = true /\ w = as_seen v.
Proof.
  cbn [EventQueue.devices event_view]. rewrite lookup_fmap_Some. setoid_rewrite map_lookup_filter_Some. cbn [snd].
  split; intros (v & A & B); [destruct B|destruct B]; exists v; auto.
Qed.

Lemma view_sprite sp s p : p ∈ sprites s -> is_Some (EventQueue.sprites (event_view sp s) !! p).
Proof.
  intros Hp. exists (sp p). cbn [EventQueue.sprites event_view]. rewrite map_lookup_imap.
  by rewrite (proj2 (lookup_gset_to_gmap_Some _ _ _ tt) (conj Hp eq_refl)).
Qed.

Lemma event_view_ok sp s : input_ok s -> EventDelivery.devices_ok (event_view sp s).
Proof.
  intros (H & _ & T). destruct (masters s H) as (p & k & Hp & Hk & [_ _ [TP TK] [EP EK] _ [SP SK] [PP PK]] & Sh). cbn in *.
  assert (forall d v, heap s !! d = Some v -> IsMaster v = true -> d = pointer s /\ v = p \/ d = keyboard s /\ v = k) as Hmas.
  { intros d v Hv Hm. destruct (fo_masters _ H d (core_of v) (frame_heap _ _ _ Hv) Hm) as [-> | ->]; cbn in Hv |- *; [left|right]; split; congruence. }
  split.
  - intros d w (v & Hv & He & ->)%view_lookup. apply view_sprite. cbn. destruct (IsMaster v) eqn:Hm.
    + destruct (Hmas d v Hv Hm) as [[_ ->]|[_ ->]]; [done|by rewrite SK].
    + destruct (fo_placed _ H d (core_of v) (frame_heap _ _ _ Hv) Hm) as [m Hm' E|x Hx _ E|E ?]; cbn in E; [rewrite E|rewrite E|congruence].
      * cbn. by rewrite Sh.
      * done.
  - intros d w (v & Hv & He & ->)%view_lookup Ht Hm0. cbn in Ht, Hm0 |- *.
    assert (IsMaster v = false) as Hm by (unfold IsMaster; destruct (dtype v) as [[]|]; done).
    destruct (fo_placed _ H d (core_of v) (frame_heap _ _ _ Hv) Hm) as [m Hm' E|x Hx _ E|E ?]; cbn in E; [rewrite E|rewrite E in Hm0; done|congruence].
    cbn. destruct Hm' as [-> | ->]; cbn.
    + exists (as_seen p). split; [apply (view_lookup sp s (pointer s)); by exists p|]. rewrite seen_master. unfold IsMaster. by rewrite TP.
    + exists (as_seen k). split; [apply (view_lookup sp s (keyboard s)); by exists k|]. rewrite seen_master. unfold IsMaster. by rewrite TK.
  - intros d w (v & Hv & He & ->)%view_lookup Hm. rewrite seen_master in Hm. cbn.
    destruct (Hmas d v Hv Hm) as [[_ ->]|[_ ->]]; rewrite ?PP, ?PK; [exists (as_seen k); apply (view_lookup sp s (keyboard s))|exists (as_seen p); apply (view_lookup sp s (pointer s))]; eauto.
  - intros d w m (v & Hv & He & ->)%view_lookup Hb. cbn in Hb. apply fmap_Some in Hb as (b & Hb & ->).
    pose proof (bo_map _ (co_button _ (T d v Hv) b Hb)) as E. unfold MAP_LENGTH, MAX_BUTTONS in E. lia.
  - apply eq_None_not_Some. intros [w (v & Hv & _)%view_lookup]. by apply (heap_live s 0 v H Hv).
Qed.

(** ** Every operation keeps the devices in order *)

(** The addresses that the allocator gives are not NULL and not in use. *)
Definition fresh (mem : list Z) (s : InputInfo) : Prop :=
  NoDup mem /\ Forall (fun x => x <> 0 /\ heap s !! x = None /\ (x ∉ sprites s)) mem.

(** The memory that an operation needs; a device that is off and has a sprite of its own
    must not be detached. *)
Definition allowed (o : dev_op) (mem : list Z) (s : InputInfo) : Prop :=
  match o with
  | OpStylus true => (2 <= length mem)%nat /\ (length (devices s ++ off_devices s) < 253)%nat
  | OpDetach i => (1 <= length mem)%nat /\ forall d v, heap s !! d = Some v -> id v = i -> enabled v = true \/ paired (links v) <> d
  | OpEvent _ d w => d ∈ devices s /\ (w = MASTER_ATTACHED \/ w = WANT_POINTER \/ w = WANT_KEYBOARD) /\
      exists v, heap s !! d = Some v /\ IsMaster v = false
  | _ => True
  end.

Section steps.
Context (screen : Z * Z) (down key_down : Z -> Z -> bool).

Lemma own_stylus f p e : is_own f p -> is_own f e -> p <> e -> p ∉ slaves f -> e ∉ slaves f -> Forall (is_own f) (slaves f) ->
  lorie_ok (f_stylus p e f).
Proof. intros Hp He Hne Np Ne Hl. split; [exact Hl|]. right. done. Qed.

Lemma own_added b i d f e : is_own f e -> is_own (stylus_frame b i d f) e.
Proof.
  intros (c & Hc & Hm & Hx). unfold is_own. cbn. destruct (decide (d = e)) as [<-|Hne].
  - eexists. rewrite lookup_insert_eq. split; [reflexivity|done].
  - exists c. by rewrite lookup_insert_ne.
Qed.

Lemma own_new b i d f : is_own (stylus_frame b i d f) d.
Proof. eexists. cbn. rewrite lookup_insert_eq. split; [reflexivity|done]. Qed.

Lemma stylus_step_on s mem : input_ok s -> memory s = mem -> fresh mem s -> allowed (OpStylus true) mem s ->
  exists s', lorieSetStylusEnabled screen down key_down true s = Some s' /\ input_ok s'.
Proof.
  intros (H & [L1 L2] & T) Em [Hnd Hf] [Hl Hn]. destruct L2 as [[Ep Ee]|L2].
  - destruct mem as [|p [|e rest]]; [cbn in Hl; lia..|]. apply Forall_cons in Hf as [(Hp0 & Hp & _) Hf]. apply Forall_cons in Hf as [(He0 & He & _) _].
    apply NoDup_cons in Hnd as [Hpe _]. rewrite not_elem_of_cons in Hpe. destruct Hpe as [Hpe _].
    destruct (stylus_on screen down key_down s p e rest H T Ep Ee Em Hp0 He0 Hpe Hp He Hn) as (b & i & b' & i' & s' & E & T' & H' & F').
    exists s'. split; [done|]. split; [done|]. split; [|done]. rewrite F'.
    assert (forall x, x ∈ slaves (frame_of s) -> is_own (frame_of s) x) as Hown by by apply Forall_forall.
    apply own_stylus; [apply own_added, own_new|apply own_new|done| | |].
    + intros Hin. destruct (own_lookup s p (Hown p Hin)) as (v & Hv & _). congruence.
    + intros Hin. destruct (own_lookup s e (Hown e Hin)) as (v & Hv & _). congruence.
    + apply Forall_forall. intros x Hx. by apply own_added, own_added, Hown.
  - pose proof L2 as (Hp & He & Hne & _). exists s. unfold lorieSetStylusEnabled. destruct (own_lookup s _ Hp) as (v & Hv & _), (own_lookup s _ He) as (w & Hw & _).
    pose proof (heap_live s _ _ H Hv) as Hp0. pose proof (heap_live s _ _ H Hw) as He0. cbn in Hp0, He0.
    rewrite (proj2 (Z.eqb_neq (loriePen s) 0)) by done. cbn [mbind option_bind].
    rewrite (proj2 (Z.eqb_neq (lorieEraser s) 0)) by done. split; [done|]. split; [done|]. split; [|done]. split; [done|]. by right.
Qed.

Lemma stylus_step_off s : input_ok s -> exists s', lorieSetStylusEnabled screen down key_down false s = Some s' /\ input_ok s'.
Proof.
  intros (H & [L1 L2] & T). destruct L2 as [[Ep Ee]|(Hp & He & Hne & Np & Ne)].
  - exists s. unfold lorieSetStylusEnabled. cbn in Ep, Ee. rewrite Ep. cbn [Z.eqb negb mbind option_bind]. rewrite Ee. split; [done|].
    split; [done|]. split; [|done]. split; [done|]. by left.
  - destruct Hp as (p & Hp & Hmp & Hxp), He as (e & He & Hme & Hxe).
    destruct (stylus_off screen down key_down s p e H T Hp Hmp He Hme Hne) as (s' & E & T' & H' & F'). exists s'. split; [done|].
    split; [done|]. split; [|done]. rewrite F'. split; [|by left]. cbn [slaves f_stylus].
    destruct (gone_fields (lorieEraser s) e (gone_frame (loriePen s) p (frame_of s))) as (-> & _).
    destruct (gone_fields (loriePen s) p (frame_of s)) as (-> & _). apply Forall_forall. intros x Hx.
    apply (proj1 (Forall_forall _ _)) with (x := x) in L1; [|done].
    assert (is_own (gone_frame (lorieEraser s) e (gone_frame (loriePen s) p (frame_of s))) x) as Hg; [|exact Hg].
    apply own_gone; [apply own_gone; [done|]|]; by intros ->.
Qed.
End steps.

(** ** Clients and events *)

Section clients.
Context (screen : Z * Z) (down key_down : Z -> Z -> bool).

Lemma master_address s d v : frame_ok (frame_of s) -> heap s !! d = Some v -> IsMaster v = true -> d = pointer s \/ d = keyboard s.
Proof. intros H Hv Hm. apply (fo_masters _ H d (core_of v) (frame_heap _ _ _ Hv) Hm). Qed.

Lemma master_enabled s d v : frame_ok (frame_of s) -> heap s !! d = Some v -> IsMaster v = true -> enabled v = true.
Proof.
  intros H Hv Hm. destruct (masters s H) as (p & k & Hp & Hk & [_ _ _ [EP EK] _ _ _] & _). cbn in EP, EK.
  destruct (master_address s d v H Hv Hm) as [-> | ->]; congruence.
Qed.

Lemma same_ok s s' : input_ok s -> frame_ok (frame_of s') -> typed s' -> same_owners (frame_of s) (frame_of s') -> input_ok s'.
Proof. intros (_ & L & _) H T O. split; [done|]. split; [by apply (lorie_same (frame_of s))|done]. Qed.

Lemma enabled_step s i b : input_ok s -> exists s', dev_step screen down key_down (OpEnabled i b) s = Some s' /\ input_ok s'.
Proof.
  intros Ok. pose proof Ok as (H & L & T). cbn [dev_step]. destruct (dixLookupDevice_spec i s H) as (d & -> & Hd). cbn [mbind option_bind].
  destruct (Z.eqb_spec d 0) as [->|Hd0]; [by exists s|]. destruct Hd as [?|(v & Hv & _)]; [done|].
  unfold set_property_enabled. rewrite Hv. cbn [mbind option_bind].
  destruct (_ && negb b) eqn:Eg; [by exists s|]. destruct (b && negb (enabled v)) eqn:Eb.
  - apply andb_true_iff in Eb as [-> En]. apply negb_true_iff in En.
    assert (IsMaster v = false) as Hm by (destruct (IsMaster v) eqn:Em; [|done]; by rewrite (master_enabled s d v) in En).
    destruct (EnableDevice_keeps screen s d v H T Hv Hm) as (ok & s' & -> & T' & H' & O'); [by apply (listed_on_or_off s d v)|].
    exists s'. split; [done|]. by apply (same_ok s).
  - destruct (negb b && enabled v) eqn:Ed; [|by exists s]. apply andb_true_iff in Ed as [Hb En]. rewrite Hb, andb_true_r in Eg.
    assert (IsMaster v = false) as Hm.
    { destruct (IsMaster v) eqn:Em; [|done]. destruct (master_address s d v H Hv Em) as [-> | ->]; by rewrite Z.eqb_refl, ?orb_true_r in Eg. }
    destruct (disable_slave screen down key_down s d v H T Hv Hm) as (s' & -> & T' & H' & _ & F'). exists s'. split; [done|].
    apply (same_ok s); [done|done|done|]. rewrite F', En. by apply owners_disabled, frame_heap.
Qed.

(** The releases before a device is attached. *)
Lemma released_slave s d v : input_ok s -> heap s !! d = Some v -> IsMaster v = false ->
  exists s1 v1, ReleaseButtonsAndKeys down key_down d s = Some s1 /\ frame_of s1 = frame_of s /\ typed s1 /\ memory s1 = memory s /\
    heap s1 !! d = Some v1 /\ IsMaster v1 = false /\ links v1 = links v /\ enabled v1 = enabled v.
Proof.
  intros (H & L & T) Hv Hm. destruct (release_quiet down key_down d v s Hv) as (s1 & E & [F1 T1 M1]).
  pose proof (frame_heap s d v Hv) as Hc. rewrite <- F1 in Hc. apply frame_lookup in Hc as (v1 & Hv1 & Ec).
  exists s1, v1. pose proof (f_equal c_links Ec). pose proof (f_equal c_enabled Ec). rewrite <- !c_master_of, Ec. auto 10.
Qed.

Lemma attach_step s i m : input_ok s -> exists s', dev_step screen down key_down (OpAttach i m) s = Some s' /\ input_ok s'.
Proof.
  intros Ok. pose proof Ok as (H & L & T). cbn [dev_step]. unfold attach_slave.
  destruct (dixLookupDevice_spec i s H) as (d & -> & Hd). cbn [mbind option_bind].
  destruct (Z.eqb_spec d 0) as [->|Hd0]; [by exists s|]. destruct Hd as [?|(v & Hv & _)]; [done|]. rewrite Hv. cbn [mbind option_bind].
  destruct (IsMaster v) eqn:Hm; [by exists s|]. destruct (IsXTestDevice v) eqn:Hx; cbn [orb]; [by exists s|].
  destruct (dixLookupDevice_spec m s H) as (e & -> & He). cbn [mbind option_bind].
  destruct (Z.eqb_spec e 0) as [->|He0]; [by exists s|]. destruct He as [?|(w & Hw & _)]; [done|]. rewrite Hw. cbn [mbind option_bind].
  destruct (IsMaster w) eqn:Hmw; cbn [negb orb]; [|by exists s]. destruct (negb _); [by exists s|].
  destruct (released_slave s d v Ok Hv Hm) as (s1 & v1 & -> & F1 & T1 & _ & Hv1 & Hm1 & _). cbn [mbind option_bind].
  assert (e = pointer s1 \/ e = keyboard s1) as He.
  { pose proof (f_equal vcp F1) as E1. pose proof (f_equal vck F1) as E2. cbn in E1, E2. rewrite E1, E2. by apply (master_address s e w). }
  assert (frame_ok (frame_of s1)) as H1 by by rewrite F1.
  destruct (AttachDevice_master s1 d v1 H1 T1 Hv1 Hm1 e He) as (s2 & -> & F2 & T2 & _). exists s2. split; [done|].
  apply (same_ok s); [done|rewrite F2; by apply attached_frame_ok|done|]. rewrite <- F1, F2.
  by apply (owners_insert _ _ d (core_of v1) (c_set_links (attached_links e (shown (frame_of s1))) (core_of v1))); [apply frame_heap|..].
Qed.

Lemma detach_step s i mem : input_ok s -> memory s = mem -> fresh mem s -> allowed (OpDetach i) mem s ->
  exists s', dev_step screen down key_down (OpDetach i) s = Some s' /\ input_ok s'.
Proof.
  intros Ok Em [_ Hf] [Hl Ha]. pose proof Ok as (H & L & T). cbn [dev_step]. unfold detach_slave.
  destruct (dixLookupDevice_spec i s H) as (d & -> & Hd). cbn [mbind option_bind].
  destruct (Z.eqb_spec d 0) as [->|Hd0]; [by exists s|]. destruct Hd as [?|(v & Hv & Hi)]; [done|]. rewrite Hv. cbn [mbind option_bind].
  destruct (IsMaster v) eqn:Hm; [by exists s|]. destruct (IsXTestDevice v) eqn:Hx; cbn [orb]; [by exists s|].
  destruct (released_slave s d v Ok Hv Hm) as (s1 & v1 & -> & F1 & T1 & M1 & Hv1 & Hm1 & El & Ee). cbn [mbind option_bind].
  assert (frame_ok (frame_of s1)) as H1 by by rewrite F1.
  destruct (own_sprite_placed s1 d v1 H1 Hv1 Hm1) as [[Ho _]|(x & E & _)].
  - destruct mem as [|x mem]; [cbn in Hl; lia|]. apply Forall_cons in Hf as [(Hx0 & Hxh & Hxs) _].
    assert (x ∉ sprites s1) as Hxs1 by (change (sprites s1) with (live (frame_of s1)); by rewrite F1).
    destruct (AttachDevice_float s1 d v1 H1 T1 Hv1 Hm1 x) as (s2 & -> & F2 & T2); [by rewrite M1, Em|done..|]. exists s2. split; [done|].
    apply (same_ok s); [done|rewrite F2; by apply floating_frame_ok|done|]. rewrite <- F1, F2.
    by apply (owners_insert _ _ d (core_of v1) (c_set_links (floating_links d x) (core_of v1))); [apply frame_heap|..].
  - rewrite AttachDevice_stays with (v := v1); [|done|done|done|by rewrite E|].
    + exists s1. split; [done|]. apply (same_ok s); [done|done|done|by rewrite F1].
    + rewrite Ee. destruct (Ha d v Hv Hi) as [?|Hn]; [done|]. by rewrite <- El, E in Hn.
Qed.
End clients.

Section told.
Context (f : Frame) (Hf : frame_ok f) (m : Z) (c : Core) (Hc : cores f !! m = Some c) (Hm : c_master c = true).
Context (a b : Z) (Hab : forall x, x = a \/ x = b -> x = 0 \/ is_slave f x /\ x ∈ ons f).

(** A master is told its last slave. *)
Definition told_frame : Frame := f_core m (c_set_links (with_last a b (c_links c)) c) f.

Lemma told_lookup e c' : cores told_frame !! e = Some c' -> exists c0, cores f !! e = Some c0 /\ c_id c' = c_id c0 /\ c_enabled c' = c_enabled c0 /\
  c_inited c' = c_inited c0 /\ c_master c' = c_master c0 /\ (e <> m -> c' = c0) /\ (e = m -> c' = c_set_links (with_last a b (c_links c)) c) /\
  (c_master c' = false -> c' = c0).
Proof.
  cbn. rewrite lookup_insert_Some. intros [[<- <-]|[Hne He]].
  - exists c. split; [done|]. do 4 (split; [done|]). split; [done|]. split; [done|]. intros E. change (c_master c = false) in E. congruence.
  - exists c'. repeat split; try done; congruence.
Qed.

Lemma told_shown : shown told_frame = shown f.
Proof.
  unfold shown. cbn. destruct (decide (vcp f = m)) as [<-|Hne]; [|by rewrite lookup_insert_ne].
  by rewrite lookup_insert_eq, Hc.
Qed.

Lemma told_ok : frame_ok told_frame.
Proof.
  pose proof Hf as [F1 F2 F3 F4 F5 F6 F7 F8 (p & k & [A B [C1 C2] [D1 D2] [E1 E2] [G1 G2] [I1 I2]]) F10 F11 F12 F13].
  assert (forall e c', cores f !! e = Some c' -> exists c0, cores told_frame !! e = Some c0 /\ c_type c0 = c_type c' /\ c_enabled c0 = c_enabled c' /\
    spriteOwner (c_links c0) = spriteOwner (c_links c') /\ sprite (c_links c0) = sprite (c_links c') /\ paired (c_links c0) = paired (c_links c') /\
    c_master c0 = c_master c') as Hback.
  { intros e c' He. cbn. destruct (decide (m = e)) as [<-|Hne]; [|exists c'; by rewrite lookup_insert_ne].
    rewrite lookup_insert_eq. eexists. split; [reflexivity|]. assert (c' = c) as -> by congruence. done. }
  assert (forall x, is_slave f x -> is_slave told_frame x) as Hsl.
  { intros x (c0 & H0 & E0). destruct (Hback x c0 H0) as (c1 & H1 & _ & _ & _ & _ & _ & E). exists c1. split; [done|congruence]. }
  split; cbn [ons offs vcp vck live told_frame f_core]; try done.
  - cbn. rewrite lookup_insert_None. split; [done|]. intros ->. congruence.
  - intros x. cbn. rewrite lookup_insert_is_Some', <- F4. split; [intros [<-|?]; [by exists c|done]|by right].
  - intros x y c1 c2 (x1 & H1 & -> & _)%told_lookup (x2 & H2 & -> & _)%told_lookup. by apply (F5 x y x1 x2).
  - intros x c1 (x1 & H1 & -> & _)%told_lookup. by apply (F6 x x1).
  - intros x c1 (x1 & H1 & _ & -> & _)%told_lookup. by apply (F7 x x1).
  - intros x c1 (x1 & H1 & _ & -> & -> & _)%told_lookup. by apply (F8 x x1).
  - destruct (Hback _ _ A) as (p' & ? & ? & ? & ? & ? & ? & _), (Hback _ _ B) as (k' & ? & ? & ? & ? & ? & ? & _).
    exists p', k'. split; cbn [vcp vck live told_frame f_core]; try split; congruence.
  - intros x c1 (x1 & H1 & _ & _ & _ & -> & _)%told_lookup. by apply (F10 x x1).
  - intros x c1 (x1 & H1 & _ & _ & _ & _ & _ & _ & E)%told_lookup Hs. pose proof (E Hs) as Ec. subst c1.
    apply (seated_mono f); [exact (F11 x x1 H1 Hs)|done|done|apply told_shown|done].
  - intros x y c1 c2 z H1 H2 Z1 Z2. assert (forall u cu, cores told_frame !! u = Some cu -> c_links cu = floating_links u z -> cores f !! u = Some cu) as Hun.
    { intros u cu Hu Eu. destruct (c_master cu) eqn:Em.
      - exfalso. destruct (told_lookup u cu Hu) as (c0 & H0 & _ & _ & _ & E0 & _). destruct (Hback u c0 H0) as (c3 & H3 & _ & _ & _ & _ & P & _).
        assert (c3 = cu) as -> by congruence. rewrite Eu in P. cbn in P. pose proof (core_apart f Hf).
        destruct (F10 u c0 H0 ltac:(congruence)) as [-> | ->]; congruence.
      - destruct (told_lookup u cu Hu) as (c0 & H0 & _ & _ & _ & _ & _ & _ & E0). by rewrite E0. }
    apply (F12 x y c1 c2 z); auto.
  - intros x c1 y H1 Hm1 Hy. destruct (decide (x = m)) as [->|Hne].
    + destruct (told_lookup m c1 H1) as (_ & _ & _ & _ & _ & _ & _ & E & _). rewrite (E eq_refl) in Hy. cbn in Hy.
      destruct (Hab y Hy) as [?|[? ?]]; auto.
    + destruct (told_lookup x c1 H1) as (c0 & H0 & _ & _ & _ & _ & E & _). rewrite <- (E Hne) in H0.
      destruct (F13 x c1 y H0 Hm1 Hy) as [?|[? ?]]; auto.
Qed.
End told.

Lemma event_step s processed d w mem : input_ok s -> allowed (OpEvent processed d w) mem s ->
  exists s', note_slave processed d w s = Some s' /\ input_ok s'.
Proof.
  intros Ok (Hd & Hw & v & Hv & Hs). pose proof Ok as (H & L & T). pose proof (frame_wired s H) as W. unfold note_slave.
  assert (exists m, GetMaster d w s = Some m /\ (m = 0 \/ exists mv, heap s !! m = Some mv /\ IsMaster mv = true)) as (m & -> & Hm).
  { destruct (wi_slaves s W d v Hv Hs) as [E|E]; [exists 0; split; [by apply (GetMaster_alone s d v)|by left]|].
    destruct (GetMaster_attached s d v W Hv Hs E) as (Ga & Gp & Gk). destruct (wi_masters s W) as (p & k & Hp & Hk & [T1 _] & T2 & _).
    assert (IsMaster p = true /\ IsMaster k = true) as [Mp Mk] by (unfold IsMaster; by rewrite T1, T2).
    destruct Hw as [->|[->| ->]]; [exists (master (links v))|exists (pointer s)|exists (keyboard s)]; (split; [done|right]); [|by exists p|by exists k].
    destruct E as [-> | ->]; [by exists p|by exists k]. }
  cbn [mbind option_bind]. destruct (Z.eqb_spec m 0) as [->|Hm0]; [by exists s|]. destruct Hm as [?|(mv & Hmv & Im)]; [done|].
  rewrite (upd_links m _ s mv Hmv). eexists. split; [reflexivity|].
  set (a := if processed then d else lastSlave (links mv)). set (b := if processed then last_slave (links mv) else d).
  set (s' := set_heap _ s). assert (frame_of s' = told_frame (frame_of s) m (core_of mv) a b) as F.
  { unfold s'. rewrite frame_insert, core_links. unfold told_frame, a, b. by destruct processed. }
  pose proof (frame_heap s m mv Hmv) as Hc. apply (same_ok s); [done| |by apply typed_links|].
  - rewrite F. apply told_ok; [done|done|done|]. intros x Hx.
    assert (x = d \/ x = lastSlave (links mv) \/ x = last_slave (links mv)) as [->|Hl] by (unfold a, b in Hx; destruct processed, Hx as [-> | ->]; auto).
    + right. split; [|done]. exists (core_of v). split; [by apply frame_heap|done].
    + by apply (fo_last _ H m (core_of mv)).
  - rewrite F. by apply (owners_insert _ _ m (core_of mv) (c_set_links (with_last a b (links mv)) (core_of mv))).
Qed.

(** ** Runs and the claims *)

Section runs.
Context (screen : Z * Z) (down key_down : Z -> Z -> bool).

Lemma step_ok o mem ans s : input_ok s -> fresh mem s -> allowed o mem s ->
  exists s', dev_step screen down key_down o (set_memory mem ans s) = Some s' /\ input_ok s'.
Proof.
  intros (H & L & T) Hf Ha. assert (input_ok (set_memory mem ans s)) as Ok by done.
  destruct o as [[]|i b|i m|i|p d w].
  - by apply (stylus_step_on screen down key_down (set_memory mem ans s) mem).
  - by apply (stylus_step_off screen down key_down (set_memory mem ans s)).
  - by apply (enabled_step screen down key_down (set_memory mem ans s)).
  - by apply (attach_step screen down key_down (set_memory mem ans s)).
  - by apply (detach_step screen down key_down (set_memory mem ans s) i mem).
  - by apply (event_step (set_memory mem ans s) p d w mem).
Qed.

(** The states that the operations lead to from [s]. *)
Inductive reachable (s : InputInfo) : InputInfo -> Prop :=
  | reach_start : reachable s s
  | reach_step t o mem ans t' : reachable s t -> fresh mem t -> allowed o mem t ->
      dev_step screen down key_down o (set_memory mem ans t) = Some t' -> reachable s t'.

Lemma reachable_ok s t : input_ok s -> reachable s t -> input_ok t.
Proof.
  intros Ok. induction 1 as [|t o mem ans t' _ IH Hf Ha E]; [done|].
  destruct (step_ok o mem ans t IH Hf Ha) as (t'' & E' & Ok'). congruence.
Qed.

(** C6: However the pen is switched on and off, and clients enable, disable, attach and
    detach devices, and events are made, in every run whose steps are [allowed]: no step uses
    memory that was freed or a device that is gone, the lists and the links of the devices
    stay in order, and the devices that are on are as the delivery of events needs them.
    [allowed] asks for the memory of the pen's devices and of a new sprite, for fewer than
    253 devices when the pen comes, for events of slaves that are on, and that no device is
    detached that is off and has a sprite of its own; [pen_without_memory] and
    [detached_twice] show that the code needs the first and the last of these. *)
Theorem devices_stay_in_order s t sp : input_ok s -> reachable s t ->
  input_ok t /\ EventDelivery.devices_ok (event_view sp t) /\
  forall o mem ans, fresh mem t -> allowed o mem t -> is_Some (dev_step screen down key_down o (set_memory mem ans t)).
Proof.
  intros Ok Hr. pose proof (reachable_ok s t Ok Hr) as Ht. split; [done|]. split; [by apply event_view_ok|].
  intros o mem ans Hf Ha. destruct (step_ok o mem ans t Ht Hf Ha) as (t' & -> & _). by eexists.
Qed.

(** C15: Switching the pen on adds two slaves, the pen and the eraser, that are attached to
    the pointer and share its sprite; switching it off removes them and restores all other
    devices, the lists and the sprites. Doing the same twice changes nothing. *)
Theorem stylus_comes_and_goes s p e rest : input_ok s -> loriePen s = 0 -> memory s = p :: e :: rest -> fresh (p :: e :: rest) s ->
  (length (devices s ++ off_devices s) < 253)%nat ->
  exists s1 s2 v w, lorieSetStylusEnabled screen down key_down true s = Some s1 /\ lorieSetStylusEnabled screen down key_down true s1 = Some s1 /\
    lorieSetStylusEnabled screen down key_down false s1 = Some s2 /\ lorieSetStylusEnabled screen down key_down false s2 = Some s2 /\
    loriePen s1 = p /\ lorieEraser s1 = e /\ heap s1 !! p = Some v /\ heap s1 !! e = Some w /\
    links v = attached_links (pointer s) (shown (frame_of s)) /\ links w = attached_links (pointer s) (shown (frame_of s)) /\
    frame_of s2 = frame_of s.
Proof.
  intros (H & [L1 L2] & T) Ep Em [Hnd Hf] Hn. destruct L2 as [[_ Ee]|(Hown & _)].
  2: { destruct (own_lookup s _ Hown) as (v & Hv & _). cbn in Hv. rewrite Ep in Hv. by rewrite heap_null in Hv. }
  cbn in Ee. apply Forall_cons in Hf as [(Hp0 & Hp & _) Hf]. apply Forall_cons in Hf as [(He0 & He & _) _].
  apply NoDup_cons in Hnd as [Hpe _]. rewrite not_elem_of_cons in Hpe. destruct Hpe as [Hpe _].
  destruct (stylus_on screen down key_down s p e rest H T Ep Ee Em Hp0 He0 Hpe Hp He Hn) as (b & i & b' & i' & s1 & E1 & T1 & H1 & F1).
  assert (cores (frame_of s) !! p = None /\ cores (frame_of s) !! e = None) as [Hcp Hce] by (cbn; by rewrite !lookup_fmap, Hp, He).
  destruct (masters s H) as (vp & _ & Hvp & _). assert (p <> pointer s) as Npp by (intros ->; congruence).
  assert (loriePen s1 = p /\ lorieEraser s1 = e) as [Ep1 Ee1] by (split; [by pose proof (f_equal pen F1)|by pose proof (f_equal eraser F1)]).
  set (cp := stylus_core b i (pointer s) (shown (frame_of s))). set (ce := stylus_core b' i' (pointer s) (shown (frame_of s))).
  assert (cores (frame_of s1) !! p = Some cp) as Hcp1 by (rewrite F1; cbn; rewrite lookup_insert_ne by congruence; apply lookup_insert_eq).
  assert (cores (frame_of s1) !! e = Some ce) as Hce1.
  { rewrite F1. cbn. rewrite lookup_insert_eq. unfold stylus_frame. by rewrite shown_core. }
  destruct (stylus_off screen down key_down s1 cp ce H1 T1) as (s2 & E2 & T2 & H2 & F2); try done; [by rewrite Ep1|by rewrite Ee1|congruence|].
  rewrite Ep1, Ee1, F1 in F2. unfold cp, ce in F2. rewrite stylus_restored in F2 by done.
  destruct (proj1 (frame_lookup _ _ _) Hcp1) as (v & Hv & Ev), (proj1 (frame_lookup _ _ _) Hce1) as (w & Hw & Ew).
  exists s1, s2, v, w. split; [done|]. split.
  { unfold lorieSetStylusEnabled. rewrite Ep1, (proj2 (Z.eqb_neq p 0)) by done. cbn [mbind option_bind].
    by rewrite Ee1, (proj2 (Z.eqb_neq e 0)). }
  split; [done|]. split.
  { unfold lorieSetStylusEnabled. pose proof (f_equal pen F2) as P2. pose proof (f_equal eraser F2) as R2. cbn in P2, R2.
    rewrite P2, Ep. cbn [Z.eqb negb mbind option_bind]. by rewrite R2, Ee. }
  do 4 (split; [done|]). split; [exact (f_equal c_links Ev)|]. split; [exact (f_equal c_links Ew)|done].
Qed.
End runs.

(** ** A server that is up *)

Definition started : InputInfo := default (nothing []) (start_up (800, 600) [10; 11; 1000; 12; 13; 14; 15; 16]).

(** The devices of this state, one by one. *)
Definition started_devices : list (Z * Core) := Eval vm_compute in map_to_list (cores (frame_of started)).

Lemma started_cases d c : cores (frame_of started) !! d = Some c -> In (d, c) started_devices.
Proof.
  intros H%elem_of_map_to_list%list_elem_of_In.
  assert (map_to_list (cores (frame_of started)) = started_devices) as E by by vm_compute. by rewrite E in H.
Qed.

Definition started_core (d : Z) : Core := default (stylus_core true 0 0 0) (cores (frame_of started) !! d).

Ltac each_device H :=
  apply started_cases in H; unfold started_devices in H; cbn [In] in H;
  repeat match type of H with _ \/ _ => destruct H as [[= <- <-]|H] end; [..|by destruct H].

Lemma started_placed d c m : m = 10 \/ m = 11 -> c_links c = attached_links m 1000 -> placed (frame_of started) d c.
Proof.
  intros Hm Hc. apply (Attached _ _ _ m).
  - replace (vcp (frame_of started)) with 10 by by vm_compute. by replace (vck (frame_of started)) with 11 by by vm_compute.
  - by replace (shown (frame_of started)) with 1000 by by vm_compute.
Qed.

Lemma started_frame_ok : frame_ok (frame_of started).
Proof.
  split.
  - by vm_compute.
  - apply (bool_decide_unpack _). by vm_compute.
  - apply (bool_decide_unpack _). by vm_compute.
  - intros d. rewrite <- elem_of_dom.
    assert (dom (cores (frame_of started)) = list_to_set (ons (frame_of started) ++ offs (frame_of started))) as E
      by (apply (bool_decide_unpack _); by vm_compute). rewrite E. apply elem_of_list_to_set.
  - intros d e c c' Hc He. each_device Hc; each_device He; by vm_compute.
  - intros d c Hc. each_device Hc; by vm_compute.
  - intros d c Hc. each_device Hc; (split; [intros _; apply (bool_decide_unpack _); by vm_compute|done]).
  - intros d c Hc. by each_device Hc.
  - exists (started_core 10), (started_core 11). split; first [by vm_compute|split; [apply (bool_decide_unpack _); by vm_compute|by vm_compute]].
  - intros d c Hc. each_device Hc; intros Hm; first [discriminate Hm|left; by vm_compute|right; by vm_compute].
  - intros d c Hc. each_device Hc; intros Hm; first [discriminate Hm|by apply (started_placed _ _ 10); [left|]|by apply (started_placed _ _ 11); [right|]].
  - intros d e c c' x Hc. each_device Hc; intros _ [=].
  - intros d c x Hc. each_device Hc; intros _ [-> | ->]; by left.
Qed.

(** A decision whether the classes of all devices are well formed. *)
Definition button_okb (b : ButtonClass) : bool :=
  (0 <=? numButtons b) && (numButtons b <? MAX_BUTTONS) && (Z.of_nat (length (map b)) =? MAP_LENGTH)
  && forallb (fun x => bool_decide (is_byte x)) (map b) && (Z.of_nat (length (labels b)) =? MAX_BUTTONS).

Definition touch_okb (c : Classes) (t : TouchClass) : bool :=
  bool_decide (is_Some (valuator c)) && (length (last_touches c) =? length (touches t))%nat.

Definition classes_okb (c : Classes) : bool :=
  from_option valuator_okb true (valuator c) && from_option button_okb true (button c) && from_option (touch_okb c) true (touch c).

Lemma button_okb_ok b : button_okb b = true -> button_ok b.
Proof.
  unfold button_okb. intros [[[[A B]%andb_true_iff C]%andb_true_iff D]%andb_true_iff E]%andb_true_iff. split; [lia|lia| |lia].
  apply Forall_forall. intros x Hx%list_elem_of_In. apply (proj1 (forallb_forall _ _) D) in Hx. by apply bool_decide_eq_true in Hx.
Qed.

Lemma classes_okb_ok c : classes_okb c = true -> classes_ok c.
Proof.
  unfold classes_okb. intros [[A B]%andb_true_iff C]%andb_true_iff. apply classes_okI; [done| |].
  - intros b E. rewrite E in B. by apply button_okb_ok.
  - intros t E. rewrite E in C. apply andb_true_iff in C as [D F]. by apply bool_decide_eq_true in D; apply Nat.eqb_eq in F.
Qed.

Lemma typed_list s : forallb (fun dv => classes_okb (classes (snd dv))) (map_to_list (heap s)) = true -> typed s.
Proof.
  intros H d v Hv. apply classes_okb_ok. apply (proj1 (forallb_forall _ _) H (d, v)).
  by apply list_elem_of_In, elem_of_map_to_list.
Qed.

Lemma started_ok : input_ok started.
Proof.
  split; [apply started_frame_ok|]. split; [split; [|left; by vm_compute]|apply typed_list; by vm_compute].
  assert (slaves (frame_of started) = [14; 15; 16]) as -> by by vm_compute.
  apply Forall_cons; split; [|apply Forall_cons; split; [|apply Forall_cons; split; [|done]]];
    [exists (started_core 14)|exists (started_core 15)|exists (started_core 16)]; by vm_compute.
Qed.

Lemma input_memory m a s : input_ok s -> input_ok (set_memory m a s).
Proof. done. Qed.

(** ** Witnesses *)

Definition with_pen : InputInfo :=
  default started (dev_step (800, 600) nothing_down nothing_down (OpStylus true) (set_memory [20; 21] [] started)).

Lemma fresh_for mem s : bool_decide (NoDup mem) = true -> forallb (fun x => negb (x =? 0) && bool_decide (heap s !! x = None) && bool_decide (x ∉ sprites s)) mem = true ->
  fresh mem s.
Proof.
  intros A B. split; [by apply bool_decide_eq_true in A|]. apply Forall_forall. intros x Hx%list_elem_of_In.
  apply (proj1 (forallb_forall _ _) B) in Hx as [[C%negb_true_iff D]%andb_true_iff E]%andb_true_iff.
  apply Z.eqb_neq in C. by apply bool_decide_eq_true in D, E.
Qed.

Lemma stylus_comes_and_goes_witness : let s := set_memory [20; 21] [] started in
  exists s1 s2 v w, lorieSetStylusEnabled (800, 600) nothing_down nothing_down true s = Some s1 /\
    lorieSetStylusEnabled (800, 600) nothing_down nothing_down true s1 = Some s1 /\
    lorieSetStylusEnabled (800, 600) nothing_down nothing_down false s1 = Some s2 /\
    lorieSetStylusEnabled (800, 600) nothing_down nothing_down false s2 = Some s2 /\
    loriePen s1 = 20 /\ lorieEraser s1 = 21 /\ heap s1 !! 20 = Some v /\ heap s1 !! 21 = Some w /\
    links v = attached_links (pointer s) (shown (frame_of s)) /\ links w = attached_links (pointer s) (shown (frame_of s)) /\
    frame_of s2 = frame_of s.
Proof.
  intros s. apply (stylus_comes_and_goes (800, 600) nothing_down nothing_down s 20 21 []).
  - apply input_memory, started_ok.
  - by vm_compute.
  - reflexivity.
  - by apply fresh_for; vm_compute.
  - vm_compute. lia.
Defined.

Lemma devices_stay_in_order_witness : input_ok with_pen /\ EventDelivery.devices_ok (event_view (fun _ => EventQueue.Build_Sprite 0 0) with_pen) /\
  forall o mem ans, fresh mem with_pen -> allowed o mem with_pen -> is_Some (dev_step (800, 600) nothing_down nothing_down o (set_memory mem ans with_pen)).
Proof.
  apply (devices_stay_in_order (800, 600) nothing_down nothing_down started); [exact started_ok|].
  apply (reach_step _ _ _ _ started (OpStylus true) [20; 21] []).
  - apply reach_start.
  - by apply fresh_for; vm_compute.
  - split; [done|vm_compute; lia].
  - by vm_compute.
Defined.

(** ** What can go wrong *)

Definition steps (l : list (list Z * dev_op)) (s : InputInfo) : option InputInfo :=
  foldl (fun s mo => s ← s; dev_step (800, 600) nothing_down nothing_down (snd mo) (set_memory (fst mo) [] s)) (Some s) l.

(** The touch screen is disabled and detached; to detach it again uses the sprite that was
    just freed. *)
Example detached_twice : is_Some (steps [([], OpEnabled 7 false); ([30], OpDetach 7)] started) /\
  steps [([], OpEnabled 7 false); ([30], OpDetach 7); ([31], OpDetach 7)] started = None.
Proof. split; [eexists|]; by vm_compute. Qed.

(** Without memory for a device the pen is used through NULL. *)
Example pen_without_memory : steps [([], OpStylus true)] started = None.
Proof. by vm_compute. Qed.

(** The last allocation of the touch screen is not tested. *)
Example touch_without_memory :
  call_proc (800, 600) lorieTouchProc DEVICE_INIT (fresh_device 9 lorieTouchProc true) (replicate 49 true ++ [false]) = None.
Proof. by vm_compute. Qed.

(** A keyboard without a map is initialised all the same. *)
Example keyboard_without_map :
  (fun r => (fst r, key (classes (fst (snd r))))) <$> call_proc (800, 600) lorieKeybdProc DEVICE_INIT (fresh_device 9 lorieKeybdProc true) [false]
  = Some (Success, false).
Proof. by vm_compute. Qed.

(** When the pen is removed with its three buttons down, the last is not released. *)
Example last_button_stays_down :
  released <$> (s ← steps [([20; 21], OpStylus true)] started;
                lorieSetStylusEnabled (800, 600) (fun d i => (d =? 20) && (1 <=? i) && (i <=? 3)) nothing_down false (set_memory [] [] s))
  = Some [(20, 1); (20, 2)].
Proof. by vm_compute. Qed.
