(* ===== verification/SharedState.v ===== *)
(** * The state shared with the renderer ([lorie/lorie.h], [lorie/InitOutput.c])

    The X server and the renderer are two processes with one mutex in shared
    memory; Android has no robust mutexes, so [lorie_mutex_lock] replaces a mutex
    whose owner seems to have died. The cursor is handed over under such a mutex. *)

From S2P Require Import Prelude.

(** ** The mutex *)

(** The time after which [pthread_mutex_timedlock] gives up. *)
Definition deadline (sec nsec : Z) : Z * Z :=
  let nsec := nsec + 33 * 1000000 in
  if 1000000000 <=? nsec then (sec + nsec / 1000000000, nsec mod 1000000000) else (sec, nsec).

(** A recursive mutex: the process that holds it and how often. *)
Record shared_mutex := { owner : option (Z * nat); lockingPid : Z }.

(** The answer of [pthread_mutex_timedlock]: locked, ETIMEDOUT or another error, as EAGAIN
    for a mutex locked too often or EINVAL for one that is not set up. *)
Inductive lock_answer := Granted (m : shared_mutex) | TimedOut | Failed.

(** [error]: the system answers with another error. *)
Definition timedlock (pid : Z) (error : bool) (m : shared_mutex) : lock_answer :=
  if error then Failed else
  match owner m with
  | None => Granted {| owner := Some (pid, 1%nat); lockingPid := lockingPid m |}
  | Some (p, n) => if p =? pid then Granted {| owner := Some (pid, S n); lockingPid := lockingPid m |} else TimedOut
  end.

(** One round of the loop in [lorie_mutex_lock]: the mutex, and whether the loop takes it for
    locked; [alive] is [lorieConnectionAlive()]. *)
Definition lock_round (pid : Z) (error alive : bool) (m : shared_mutex) : shared_mutex * bool :=
  match timedlock pid error m with
  | TimedOut => if (lockingPid m =? pid) || alive then (m, false)
                else ({| owner := None; lockingPid := lockingPid m |}, false)
  | Granted m => (m, true)
  | Failed => (m, true)
  end.

Definition set_locking (pid : Z) (m : shared_mutex) : shared_mutex := {| owner := owner m; lockingPid := pid |}.

(** [pthread_mutex_unlock], which refuses another process than the owner. *)
Definition unlock (pid : Z) (m : shared_mutex) : shared_mutex :=
  {| owner := match owner m with
              | Some (p, n) => if p =? pid then match n with S (S n) => Some (p, S n) | _ => None end else Some (p, n)
              | None => None
              end;
     lockingPid := lockingPid m |}.

(** What a process is doing with the mutex: outside, locked but not written down
    yet, inside, or about to unlock. *)
Inductive phase := Outside | Locked | Inside | Unlocking.

(** A system of processes: who runs, whose end of the connection is open ([conn_fd] is not -1
    and not closed), where each one is and how often it has locked. *)
Record procs := {
  mutex : shared_mutex; running : Z -> bool; connected : Z -> bool; at_phase : Z -> phase; depth : Z -> nat;
}.

Definition upd {A} (f : Z -> A) (p : Z) (x : A) (q : Z) : A := if q =? p then x else f q.

(** What [lorieConnectionAlive] says in process [p]: its own end is open, and somebody holds
    the other one. *)
Definition lorieConnectionAlive (s : procs) (p : Z) (alive : bool) : Prop :=
  alive = true <-> connected s p = true /\ exists q, q <> p /\ running s q = true /\ connected s q = true.

Definition lock_returned (p : Z) (m : shared_mutex) (s : procs) : procs :=
  {| mutex := m; running := running s; connected := connected s;
     at_phase := upd (at_phase s) p Locked; depth := upd (depth s) p (S (depth s p)) |}.
Definition with_mutex (m : shared_mutex) (s : procs) : procs :=
  {| mutex := m; running := running s; connected := connected s; at_phase := at_phase s; depth := depth s |}.

Definition with_connection (p : Z) (open : bool) (s : procs) : procs :=
  {| mutex := mutex s; running := running s; connected := upd (connected s) p open; at_phase := at_phase s; depth := depth s |}.

Inductive mutex_event :=
  | ERound (p : Z) (error alive : bool) | EWrite (p : Z) | EClear (p : Z) | EUnlock (p : Z)
  | EStart (p : Z) | EDie (p : Z) | EClose (p : Z) | EConnect (p : Z).

(** The steps of [lorie_mutex_lock] and [lorie_mutex_unlock], the start and the death of a
    process, and a connection that is closed or opened at any time: the main thread of the
    activity does it, whatever the thread of the renderer is doing. *)
Inductive mutex_step : mutex_event -> procs -> procs -> Prop :=
  | step_round s p error alive m ok :
      running s p = true -> at_phase s p = Outside \/ at_phase s p = Inside ->
      lorieConnectionAlive s p alive -> lock_round p error alive (mutex s) = (m, ok) ->
      mutex_step (ERound p error alive) s (if ok then lock_returned p m s else with_mutex m s)
  | step_write s p : running s p = true -> at_phase s p = Locked ->
      mutex_step (EWrite p) s
        {| mutex := set_locking p (mutex s); running := running s; connected := connected s;
           at_phase := upd (at_phase s) p Inside; depth := depth s |}
  | step_clear s p : running s p = true -> at_phase s p = Inside ->
      mutex_step (EClear p) s
        {| mutex := set_locking 0 (mutex s); running := running s; connected := connected s;
           at_phase := upd (at_phase s) p Unlocking; depth := depth s |}
  | step_unlock s p : running s p = true -> at_phase s p = Unlocking ->
      mutex_step (EUnlock p) s
        {| mutex := unlock p (mutex s); running := running s; connected := connected s;
           at_phase := upd (at_phase s) p (if Nat.eqb (depth s p) 1 then Outside else Inside);
           depth := upd (depth s) p (depth s p - 1)%nat |}
  | step_start s p : running s p = false -> p <> 0 ->
      mutex_step (EStart p) s
        {| mutex := mutex s; running := upd (running s) p true; connected := upd (connected s) p false;
           at_phase := upd (at_phase s) p Outside; depth := upd (depth s) p O |}
  | step_die s p :
      mutex_step (EDie p) s
        {| mutex := mutex s; running := upd (running s) p false; connected := upd (connected s) p false;
           at_phase := at_phase s; depth := depth s |}
  | step_close s p :
      mutex_step (EClose p) s (with_connection p false s)
  | step_connect s p : running s p = true ->
      mutex_step (EConnect p) s (with_connection p true s).

(** The processes [r] run, without a connection. *)
Definition mutex_init (r : Z -> bool) : procs :=
  {| mutex := {| owner := None; lockingPid := 0 |}; running := r; connected := fun _ => false;
     at_phase := fun _ => Outside; depth := fun _ => 0%nat |}.

(** The states of the runs whose steps satisfy [P]. *)
Inductive mutex_reach (P : mutex_event -> procs -> Prop) (r : Z -> bool) : procs -> Prop :=
  | reach_here : mutex_reach P r (mutex_init r)
  | reach_next e s s' : mutex_reach P r s -> P e s -> mutex_step e s s' -> mutex_reach P r s'.

(** While a process is past a lock and another one runs, both ends of their connection are
    open. *)
Definition in_touch (s : procs) : Prop :=
  forall p q, p <> q -> running s p = true -> running s q = true -> at_phase s q <> Outside ->
    connected s p = true /\ connected s q = true.

(** [pthread_mutex_timedlock] does not fail for another reason than the time. *)
Definition no_error (e : mutex_event) : Prop := match e with ERound _ error _ => error = false | _ => True end.

(** No process starts under the number that a dead one left behind. *)
Definition new_number (e : mutex_event) (s : procs) : Prop :=
  match e with EStart p => lockingPid (mutex s) <> p | _ => True end.

Definition orderly (e : mutex_event) (s : procs) : Prop := in_touch s /\ no_error e.
Definition tidy (e : mutex_event) (s : procs) : Prop := orderly e s /\ new_number e s.

(** ** The cursor *)

Record CursorBits := {
  c_width : Z; c_height : Z; c_xhot : Z; c_yhot : Z;
  c_argb : option (list Z); c_source : list Z; c_mask : list Z;
}.

(** [CursorRec] with its 16-bit colours. *)
Record Cursor := {
  c_bits : CursorBits; foreRed : Z; foreGreen : Z; foreBlue : Z; backRed : Z; backGreen : Z; backBlue : Z;
}.

(** bgra to rgba. *)
Definition swap_rb (p : Z) : Z :=
  Z.lor (Z.lor (Z.lor (Z.land p 0xFF000000) (Z.shiftr (Z.land p 0x00FF0000) 16)) (Z.land p 0x0000FF00))
        (Z.shiftl (Z.land p 0x000000FF) 16).

(** The array [data] is written at [i], [i+1], ... by the pixels [pixel]. *)
Fixpoint write_pixels (n : nat) (i : Z) (pixel : Z -> option Z) (data : list Z) : option (list Z) :=
  match n with
  | O => Some data
  | S n => v ← pixel i; data ← wrz data i v; write_pixels n (i + 1) pixel data
  end.

Definition BitmapBytePad (w : Z) : Z := Z.shiftl (Z.shiftr (w + 31) 5) 2.

(** The colour of a bitmap cursor's pixel [k], counted along the rows. *)
Definition bitmap_pixel (c : Cursor) (k : Z) : option Z :=
  let bits := c_bits c in
  let fg := Z.lor (Z.lor (Z.shiftl (Z.land (foreBlue c) 0xff00) 8) (Z.land (foreGreen c) 0xff00)) (Z.shiftr (foreRed c) 8) in
  let bg := Z.lor (Z.lor (Z.shiftl (Z.land (backBlue c) 0xff00) 8) (Z.land (backGreen c) 0xff00)) (Z.shiftr (backRed c) 8) in
  let y := k / c_width bits in
  let x := k mod c_width bits in
  let i := y * BitmapBytePad (c_width bits) + x / 8 in
  let bit := Z.shiftl 1 (Z.land x 7) in
  source ← rdz (c_source bits) i;
  mask ← rdz (c_mask bits) i;
  let d := if negb (Z.land source bit =? 0) then fg else bg in
  Some (if negb (Z.land mask bit =? 0) then Z.lor d 0xff000000 else 0).

Definition lorieConvertCursor (c : Cursor) (data : list Z) : option (list Z) :=
  let bits := c_bits c in
  let n := Z.to_nat (c_width bits * c_height bits) in
  match c_argb bits with
  | Some argb => write_pixels n 0 (fun i => p ← rdz argb i; Some (swap_rb p)) data
  | None => write_pixels n 0 (bitmap_pixel c) data
  end.

(** The cursor of [lorie_shared_server_state]; [s_bits] has 512 * 512 elements. *)
Record shared_cursor := {
  s_x : Z; s_y : Z; s_xhot : Z; s_yhot : Z; s_width : Z; s_height : Z; s_bits : list Z;
  s_updated : bool; s_moved : bool;
}.

Definition lorieMoveCursor (x y : Z) (s : shared_cursor) : shared_cursor :=
  {| s_x := u32 x; s_y := u32 y; s_xhot := s_xhot s; s_yhot := s_yhot s; s_width := s_width s; s_height := s_height s;
     s_bits := s_bits s; s_updated := s_updated s; s_moved := true |}.

Definition show_cursor (xhot yhot width height : Z) (data : list Z) (s : shared_cursor) : shared_cursor :=
  {| s_x := s_x s; s_y := s_y s; s_xhot := xhot; s_yhot := yhot; s_width := width; s_height := height;
     s_bits := data; s_updated := true; s_moved := s_moved s |}.

(** [None] as cursor is the NULL pointer; the locking is left out. *)
Definition lorieSetCursor (rootCursor : option Cursor) (cursor : option Cursor) (x0 y0 : Z) (s : shared_cursor)
  : option shared_cursor :=
  let bits := c_bits <$> cursor in
  let shown := match cursor with
               | Some c => if (512 <=? c_width (c_bits c)) || (512 <=? c_height (c_bits c)) then rootCursor else Some c
               | None => None
               end in
  s ← match shown, bits with
      | Some c, Some b =>
          data ← lorieConvertCursor c (s_bits s);
          Some (show_cursor (c_xhot b) (c_yhot b) (c_width b) (c_height b) data s)
      | _, _ => Some (show_cursor 0 0 0 0 (s_bits s) s)
      end;
  Some (lorieMoveCursor x0 y0 s).

(** ** Lemmas on the mutex *)

(** A running process that is past a lock owns the mutex, at least as often as it locked it. *)
Definition mutex_ok (s : procs) : Prop :=
  forall p, running s p = true ->
    match depth s p with
    | O => at_phase s p = Outside
    | d => at_phase s p <> Outside /\ exists n, owner (mutex s) = Some (p, n) /\ (d <= n)%nat
    end.

(** What is written down about a running process is true. *)
Record pid_ok (s : procs) : Prop := {
  mo_pid : forall p, running s p = true -> lockingPid (mutex s) = p -> at_phase s p <> Outside;
  mo_clear : forall p, running s p = true -> at_phase s p = Unlocking -> lockingPid (mutex s) = 0;
  mo_zero : running s 0 = false;
}.

Lemma mo_held s p : mutex_ok s -> running s p = true -> at_phase s p <> Outside ->
  exists d n, depth s p = S d /\ owner (mutex s) = Some (p, n) /\ (S d <= n)%nat.
Proof.
  intros H Hr Hp. pose proof (H p Hr) as Hd. destruct (depth s p) as [|d]; [done|].
  destruct Hd as (_ & n & Ho & Hn). eauto.
Qed.

Lemma mo_alone s p q : mutex_ok s -> running s p = true -> running s q = true ->
  at_phase s p <> Outside -> at_phase s q <> Outside -> p = q.
Proof.
  intros H Hp Hq Hpp Hpq. destruct (mo_held s p H Hp Hpp) as (? & ? & _ & Ho & _).
  destruct (mo_held s q H Hq Hpq) as (? & ? & _ & Ho' & _). congruence.
Qed.

Lemma upd_eq {A} (f : Z -> A) p x : upd f p x p = x.
Proof. unfold upd. by rewrite Z.eqb_refl. Qed.

Lemma upd_ne {A} (f : Z -> A) p x q : q <> p -> upd f p x q = f q.
Proof. intros H. unfold upd. by rewrite (proj2 (Z.eqb_neq q p)). Qed.

(** A process is [p], or its entry is untouched. *)
Ltac upd_cases q p :=
  destruct (decide (q = p)) as [->|?]; [rewrite ?upd_eq in *|rewrite ?upd_ne in * by done].

Lemma granted p m m' : timedlock p false m = Granted m' ->
  lockingPid m' = lockingPid m /\ exists n, owner m' = Some (p, S n) /\
    (forall q k, owner m = Some (q, k) -> q = p /\ k = n).
Proof.
  unfold timedlock. destruct (owner m) as [[q k]|].
  - destruct (Z.eqb_spec q p) as [->|]; [|done]. intros [= <-]. split; [done|]. exists k. split; [done|]. by intros ? ? [= -> ->].
  - intros [= <-]. split; [done|]. exists O. done.
Qed.

Lemma acquire_ok s p m : mutex_ok s -> running s p = true -> timedlock p false (mutex s) = Granted m ->
  mutex_ok (lock_returned p m s).
Proof.
  intros H Hr E. destruct (granted _ _ _ E) as (_ & n & Ho & Hown). intros q Hq. cbn in *. pose proof (H q Hq) as Hd. upd_cases q p.
  - split; [done|]. exists (S n). split; [done|]. destruct (depth s p) as [|d]; [lia|].
    destruct Hd as (_ & k & Hk & Hle). destruct (Hown _ _ Hk) as [_ ->]. lia.
  - destruct (depth s q); [done|]. destruct Hd as (_ & k & Hk & _). by destruct (Hown _ _ Hk).
Qed.

(** When the others are in touch, a process that times out and hears that nobody is there finds
    no running process past a lock. *)
Lemma nobody_holds s p q : mutex_ok s -> in_touch s -> running s p = true -> running s q = true ->
  timedlock p false (mutex s) = TimedOut -> lorieConnectionAlive s p false -> at_phase s q = Outside.
Proof.
  intros H Ht Hp Hq E Ha. destruct (at_phase s q) eqn:Eq; [done|exfalso..].
  all: assert (Hn : at_phase s q <> Outside) by (by rewrite Eq).
  all: destruct (mo_held s q H Hq Hn) as (d & n & _ & Ho & _); unfold timedlock in E; rewrite Ho in E.
  all: destruct (Z.eqb_spec q p) as [|Hne]; [done|].
  all: destruct (Ht p q) as [Hcp Hcq]; [done..|].
  all: destruct Ha as [_ Ha]; by discriminate Ha; split; [|exists q].
Qed.

Lemma replace_ok s m : mutex_ok s -> (forall q, running s q = true -> at_phase s q = Outside) ->
  mutex_ok (with_mutex m s).
Proof.
  intros H Ho q Hq. cbn in *. pose proof (H q Hq) as Hd. destruct (depth s q); [done|]. destruct Hd as [Hd _].
  destruct Hd. by apply Ho.
Qed.

Lemma unlock_ok s p : mutex_ok s -> running s p = true -> at_phase s p = Unlocking ->
  mutex_ok {| mutex := unlock p (mutex s); running := running s; connected := connected s;
              at_phase := upd (at_phase s) p (if Nat.eqb (depth s p) 1 then Outside else Inside);
              depth := upd (depth s) p (depth s p - 1)%nat |}.
Proof.
  intros H Hr Hp. destruct (mo_held s p H Hr) as (d & n & Hd & Ho & Hn); [by rewrite Hp|].
  intros q Hq. cbn in *. pose proof (H q Hq) as Hdq. upd_cases q p.
  - rewrite Hd, Ho, Z.eqb_refl. destruct d as [|d]; [done|]. cbn. split; [done|]. destruct n as [|[|n]]; [lia|lia|].
    exists (S n). split; [done|lia].
  - destruct (depth s q); [done|]. destruct Hdq as (_ & k & Hk & _). congruence.
Qed.

(** A step that leaves the mutex to its owner, and the places and depths of those that run. *)
Lemma places_ok s s' : mutex_ok s -> owner (mutex s') = owner (mutex s) ->
  (forall p, running s' p = true ->
     running s p = true /\ depth s' p = depth s p /\ (at_phase s' p = Outside <-> at_phase s p = Outside) \/
     depth s' p = O /\ at_phase s' p = Outside) -> mutex_ok s'.
Proof.
  intros H Ho Hp p Hr. destruct (Hp p Hr) as [(Hr' & -> & Hph)|[-> ?]]; [|done]. pose proof (H p Hr') as Hd. rewrite Ho.
  destruct (depth s p); tauto.
Qed.

Lemma mutex_step_ok e s s' : mutex_ok s -> orderly e s -> mutex_step e s s' -> mutex_ok s'.
Proof.
  intros H [Ht He] Hs. destruct Hs as [s p error alive m ok Hr Hp Ha E|s p Hr Hp|s p Hr Hp|s p Hr Hp|s p Hr H0|s p|s p|s p Hr]; cbn in He.
  - subst error. unfold lock_round in E. destruct (timedlock p false (mutex s)) as [m'| |] eqn:Et.
    + injection E as <- <-. by apply acquire_ok.
    + destruct ((lockingPid (mutex s) =? p) || alive) eqn:Eo; injection E as <- <-; [by destruct s|].
      apply orb_false_iff in Eo as [_ ->]. apply (replace_ok s); [done|]. intros q Hq. by apply (nobody_holds s p q).
    + unfold timedlock in Et. by repeat case_match.
  - apply (places_ok s); [done..|]. intros q Hq. left. cbn. upd_cases q p; [|done]. by rewrite Hp.
  - apply (places_ok s); [done..|]. intros q Hq. left. cbn. upd_cases q p; [|done]. by rewrite Hp.
  - by apply unlock_ok.
  - apply (places_ok s); [done..|]. intros q Hq. cbn in *. upd_cases q p; [by right|by left].
  - apply (places_ok s); [done..|]. intros q Hq. cbn in *. upd_cases q p; [done|by left].
  - apply (places_ok s); [done..|]. intros q Hq. by left.
  - apply (places_ok s); [done..|]. intros q Hq. by left.
Qed.

(** The mutex changes hands, and nobody is written down wrongly. *)
Lemma round_pid s s' p ok m : pid_ok s -> at_phase s p = Outside \/ at_phase s p = Inside -> running s p = true ->
  lockingPid m = lockingPid (mutex s) -> s' = (if ok : bool then lock_returned p m s else with_mutex m s) -> pid_ok s'.
Proof.
  intros [H1 H2 H3] Hph Hp Hl ->. destruct ok; split; cbn; rewrite ?Hl; try done.
  - intros q Hq Hlq. upd_cases q p; [done|]. by apply H1.
  - intros q Hq Hu. upd_cases q p; [done|]. by apply (H2 q).
Qed.

Lemma mutex_step_pid e s s' : mutex_ok s -> pid_ok s -> tidy e s -> mutex_step e s s' -> pid_ok s'.
Proof.
  intros H Hpid [[Ht He] Hn] Hs. pose proof Hpid as [H1 H2 H3].
  destruct Hs as [s p error alive m ok Hr Hp Ha E|s p Hr Hp|s p Hr Hp|s p Hr Hp|s p Hr H0|s p|s p|s p Hr]; cbn in He, Hn.
  - subst error. apply (round_pid s _ p ok m); [done..| |done]. unfold lock_round in E.
    destruct (timedlock p false (mutex s)) as [m'| |] eqn:Et; [|repeat case_match; by simplify_eq|by simplify_eq].
    injection E as <- <-. by destruct (granted _ _ _ Et) as [-> _].
  - split; cbn; [|intros q Hq Hu|done].
    + intros q Hq ->. by rewrite upd_eq.
    + upd_cases q p; [done|]. assert (q = p); [|done]. apply (mo_alone s); [done..|by rewrite Hu|by rewrite Hp].
  - split; cbn; [|done..]. intros q Hq <-. by rewrite H3 in Hq.
  - assert (Hl : lockingPid (mutex s) = 0) by (by apply (H2 p)). split; cbn; [|done..].
    intros q Hq <-. rewrite Hl in Hq. by rewrite H3 in Hq.
  - split; cbn.
    + intros q Hq Hl. upd_cases q p; [done|by apply H1].
    + intros q Hq Hu. upd_cases q p; [done|by apply (H2 q)].
    + by rewrite upd_ne.
  - split; cbn.
    + intros q Hq Hl. upd_cases q p; [done|by apply H1].
    + intros q Hq Hu. upd_cases q p; [done|by apply (H2 q)].
    + by upd_cases 0 p.
  - by split.
  - by split.
Qed.

Lemma mutex_reach_ok P r s : (forall e s, P e s -> orderly e s) -> mutex_reach P r s -> mutex_ok s.
Proof. intros HP. induction 1 as [|e s s' _ IH He Hs]; [by intros p|]. apply (mutex_step_ok e s); eauto. Qed.

Lemma mutex_reach_pid r s : r 0 = false -> mutex_reach tidy r s -> pid_ok s.
Proof.
  intros H0. induction 1 as [|e s s' Hr IH He Hs].
  - split; cbn; try done. intros p Hp <-. by rewrite H0 in Hp.
  - apply (mutex_step_pid e s); [|done..]. apply (mutex_reach_ok tidy r); [|done]. by intros ? ? [? _].
Qed.

(** ** Lemmas on the cursor *)

(** What a run of writes leaves in the array. *)
Lemma write_pixels_spec n i pixel data :
  0 <= i -> i + Z.of_nat n <= Z.of_nat (length data) ->
  (forall k, i <= k < i + Z.of_nat n -> is_Some (pixel k)) ->
  exists data', write_pixels n i pixel data = Some data' /\ length data' = length data /\
    forall k, rdz data' k = if (i <=? k) && (k <? i + Z.of_nat n) then pixel k else rdz data k.
Proof.
  revert i data. induction n as [|n IH]; intros i data Hi Hn Hp; cbn [write_pixels].
  { exists data. split_and!; [done|done|]. intros k. bcase; try done. lia. }
  destruct (Hp i) as [v Hv]; [lia|]. rewrite Hv. cbn [mbind option_bind].
  destruct (wrz data i v) as [data1|] eqn:E.
  2: { rewrite wrz_Some in E by lia. discriminate. }
  cbn [mbind option_bind]. pose proof (wrz_length _ _ _ _ E) as Hl1.
  destruct (IH (i + 1) data1) as (data' & -> & Hl & Hk); [lia|lia|intros k Hk; apply Hp; lia|].
  exists data'. split_and!; [done|lia|]. intros k. rewrite Hk, (rdz_wrz _ _ _ _ _ E).
  destruct (Z.eqb_spec i k) as [->|].
  - rewrite (proj2 (Z.leb_gt (k + 1) k)), (proj2 (Z.leb_le k k)), (proj2 (Z.ltb_lt k (k + Z.of_nat (S n)))) by lia. done.
  - bcase; try done; lia.
Qed.

(** The arrays of a cursor are as long as its size asks for, and it is small enough
    for the shared array. *)
Definition cursor_fits (c : Cursor) : Prop :=
  let b := c_bits c in
  0 <= c_width b < 512 /\ 0 <= c_height b < 512 /\
  match c_argb b with
  | Some argb => c_width b * c_height b <= Z.of_nat (length argb)
  | None => BitmapBytePad (c_width b) * c_height b <= Z.of_nat (length (c_source b)) /\
            BitmapBytePad (c_width b) * c_height b <= Z.of_nat (length (c_mask b))
  end.

Lemma BitmapBytePad_enough w x : 0 <= x < w -> 0 <= x / 8 < BitmapBytePad w.
Proof.
  intros H. unfold BitmapBytePad. rewrite Z.shiftr_div_pow2, Z.shiftl_mul_pow2 by lia.
  change (2 ^ 5) with 32. change (2 ^ 2) with 4. Z.to_euclidean_division_equations. lia.
Qed.

(** Pixel [k] of a cursor as the renderer sees it. *)
Definition cursor_pixel (c : Cursor) (k : Z) : option Z :=
  match c_argb (c_bits c) with
  | Some argb => swap_rb <$> rdz argb k
  | None => bitmap_pixel c k
  end.

Lemma cursor_pixel_is_Some c k :
  cursor_fits c -> 0 <= k < c_width (c_bits c) * c_height (c_bits c) -> is_Some (cursor_pixel c k).
Proof.
  unfold cursor_fits, cursor_pixel. set (w := c_width (c_bits c)). set (h := c_height (c_bits c)).
  intros (Hw & Hh & Ha) Hk. destruct (c_argb (c_bits c)) as [argb|].
  - apply fmap_is_Some, rdz_is_Some. lia.
  - assert (0 < w) by nia. pose proof (Z.mod_pos_bound k w) as Hx.
    assert (0 <= k / w < h) by (Z.to_euclidean_division_equations; nia).
    pose proof (BitmapBytePad_enough w (k mod w) (Hx ltac:(lia))) as Hp.
    assert (Hi : 0 <= k / w * BitmapBytePad w + k mod w / 8 < BitmapBytePad w * h) by nia.
    unfold bitmap_pixel. fold w.
    destruct (proj2 (rdz_is_Some (c_source (c_bits c)) (k / w * BitmapBytePad w + k mod w / 8))) as [a Ha1]; [lia|].
    destruct (proj2 (rdz_is_Some (c_mask (c_bits c)) (k / w * BitmapBytePad w + k mod w / 8))) as [b Hb1]; [lia|].
    cbn zeta. rewrite Ha1, Hb1. cbn [mbind option_bind]. eauto.
Qed.

Lemma write_pixels_ext n i f g data : (forall k, f k = g k) -> write_pixels n i f data = write_pixels n i g data.
Proof.
  intros H. revert i data. induction n as [|n IH]; intros i data; [done|]. cbn [write_pixels]. rewrite H.
  destruct (g i); [|done]. cbn. by destruct (wrz data i z); cbn.
Qed.

Lemma lorieConvertCursor_pixels c data :
  lorieConvertCursor c data =
  write_pixels (Z.to_nat (c_width (c_bits c) * c_height (c_bits c))) 0 (cursor_pixel c) data.
Proof.
  unfold lorieConvertCursor, cursor_pixel. destruct (c_argb (c_bits c)) as [argb|]; [|done].
  apply write_pixels_ext. intros k. by destruct (rdz argb k).
Qed.

(** ** Theorems *)

(** C30: The mutex in shared memory keeps two running processes apart, replacing it
    included, in every run in which both ends of the connection are open while one process is
    past a lock and another runs ([in_touch]), and [pthread_mutex_timedlock] has no other error
    than the time: by locking (several rounds, recursively), writing the process number down,
    unlocking, starting, dying, closing and connecting, two running processes that are both past
    a lock are the same one. *)
Theorem lorie_mutex_excludes (r : Z -> bool) s p q :
  mutex_reach orderly r s -> running s p = true -> running s q = true ->
  at_phase s p <> Outside -> at_phase s q <> Outside -> p = q.
Proof. intros Hr. apply mo_alone. by apply (mutex_reach_ok orderly r). Qed.

(** C31: A mutex left locked by a dead process does not stop the last running one, in the runs
    of [lorie_mutex_excludes] in which no process starts under the number that a dead one left
    in [lockingPid]: two rounds of the loop, with whatever [lorieConnectionAlive] says, lock it,
    the first one replacing the mutex if it is taken. *)
Theorem lorie_mutex_recovers (r : Z -> bool) s p alive :
  r 0 = false -> mutex_reach tidy r s -> running s p = true ->
  (forall q, q <> p -> running s q = false) -> lorieConnectionAlive s p alive ->
  exists m, (lock_round p false alive (mutex s) = (m, true) \/
             lock_round p false alive (lock_round p false alive (mutex s)).1 = (m, true)) /\
            exists n, owner m = Some (p, n).
Proof.
  intros H0 Hr Hp Halone Ha. pose proof (mutex_reach_pid r s H0 Hr) as Hpid.
  assert (H : mutex_ok s) by (apply (mutex_reach_ok tidy r); [by intros ? ? [? _]|done]).
  assert (alive = false) as ->.
  { destruct alive; [|done]. destruct (proj1 Ha eq_refl) as (_ & q & Hne & Hq & _). by rewrite (Halone q Hne) in Hq. }
  unfold lock_round. destruct (timedlock p false (mutex s)) as [m| |] eqn:E.
  - exists m. split; [by left|]. destruct (granted _ _ _ E) as (_ & n & Ho & _). eauto.
  - destruct (Z.eqb_spec (lockingPid (mutex s)) p) as [Hl|Hl].
    + destruct (mo_held s p H Hp (mo_pid s Hpid p Hp Hl)) as (d & n & _ & Ho & _). unfold timedlock in E. by rewrite Ho, Z.eqb_refl in E.
    + cbn. eexists. split; [by right|]. cbn. eauto.
  - unfold timedlock in E. by repeat case_match.
Qed.

(** The time limit is a normalised time 33 ms later. *)
Lemma deadline_later sec nsec : 0 <= nsec < 1000000000 ->
  let '(s, n) := deadline sec nsec in
  0 <= n < 1000000000 /\ s * 1000000000 + n = sec * 1000000000 + nsec + 33000000.
Proof.
  intros H. unfold deadline. destruct (Z.leb_spec 1000000000 (nsec + 33 * 1000000)); [|lia].
  Z.to_euclidean_division_equations. lia.
Qed.

(** A cursor smaller than 512x512 is handed over whole: its sizes, hot spot and
    position are stored, the pixels [0 .. width*height) of the shared array are those
    of the cursor (red and blue swapped, or the bitmap's colours), no other pixel
    changes and no array is overrun; the renderer is told. *)
Theorem lorieSetCursor_shows rootCursor c x0 y0 s :
  cursor_fits c -> Z.of_nat (length (s_bits s)) = 512 * 512 ->
  exists s', lorieSetCursor rootCursor (Some c) x0 y0 s = Some s' /\
    (s_x s', s_y s', s_xhot s', s_yhot s', s_width s', s_height s') =
      (u32 x0, u32 y0, c_xhot (c_bits c), c_yhot (c_bits c), c_width (c_bits c), c_height (c_bits c)) /\
    s_updated s' = true /\ s_moved s' = true /\ length (s_bits s') = length (s_bits s) /\
    forall k, 0 <= k -> rdz (s_bits s') k =
      if k <? c_width (c_bits c) * c_height (c_bits c) then cursor_pixel c k else rdz (s_bits s) k.
Proof.
  intros Hc Hl. pose proof Hc as (Hw & Hh & _).
  pose proof (write_pixels_spec (Z.to_nat (c_width (c_bits c) * c_height (c_bits c))) 0 (cursor_pixel c) (s_bits s)) as Hs.
  rewrite Z2Nat.id in Hs by nia. destruct Hs as (data & Hd & Hld & Hk); [lia|nia|intros k Hk; apply cursor_pixel_is_Some; [done|lia]|].
  unfold lorieSetCursor. cbn [fmap option_fmap option_map].
  rewrite (proj2 (Z.leb_gt 512 (c_width (c_bits c)))), (proj2 (Z.leb_gt 512 (c_height (c_bits c)))) by lia.
  cbn [orb]. rewrite lorieConvertCursor_pixels, Hd. cbn [mbind option_bind].
  eexists. split; [done|]. cbn. split_and!; [done..|].
  intros k Hk0. rewrite Hk. by rewrite (proj2 (Z.leb_le 0 k)).
Qed.

(** ** Examples and witnesses *)

Definition tiny_cursor : Cursor :=
  {| c_bits := {| c_width := 2; c_height := 1; c_xhot := 1; c_yhot := 0; c_argb := Some [0x11223344; 0xff0000ff];
                  c_source := []; c_mask := [] |};
     foreRed := 0; foreGreen := 0; foreBlue := 0; backRed := 0; backGreen := 0; backBlue := 0 |}.

Definition tiny_bitmap : Cursor :=
  {| c_bits := {| c_width := 2; c_height := 1; c_xhot := 0; c_yhot := 0; c_argb := None;
                  c_source := [1; 0; 0; 0]; c_mask := [3; 0; 0; 0] |};
     foreRed := 0xffff; foreGreen := 0; foreBlue := 0; backRed := 0; backGreen := 0; backBlue := 0xffff |}.

Example tiny_bitmap_pixels : lorieConvertCursor tiny_bitmap [0; 0; 7] = Some [0xff0000ff; 0xffff0000; 7].
Proof. reflexivity. Qed.

(** A cursor that is too big is shown with its own sizes and the pixels of the
    default cursor: the rest of the array is whatever the last cursor left there. *)
Example oversized_cursor_sizes :
  let big := {| c_bits := {| c_width := 600; c_height := 700; c_xhot := 5; c_yhot := 6; c_argb := None;
                             c_source := []; c_mask := [] |};
                foreRed := 0; foreGreen := 0; foreBlue := 0; backRed := 0; backGreen := 0; backBlue := 0 |} in
  let s := {| s_x := 0; s_y := 0; s_xhot := 0; s_yhot := 0; s_width := 0; s_height := 0; s_bits := [9; 9; 9; 9];
              s_updated := false; s_moved := false |} in
  lorieSetCursor (Some tiny_cursor) (Some big) 3 4 s =
  Some {| s_x := 3; s_y := 4; s_xhot := 5; s_yhot := 6; s_width := 600; s_height := 700;
          s_bits := [0x11443322; 0xffff0000; 9; 9]; s_updated := true; s_moved := true |}.
Proof. reflexivity. Qed.

Definition two_running (p : Z) : bool := (p =? 1) || (p =? 2).

(** A connection between 1 and 2. *)
Definition both_connected : procs := with_connection 2 true (with_connection 1 true (mutex_init two_running)).

Lemma outside_in_touch s : (forall p, at_phase s p = Outside) -> in_touch s.
Proof. intros H p q _ _ _ Hq. by rewrite H in Hq. Qed.

Lemma both_connected_reach (P : mutex_event -> procs -> Prop) :
  (forall s p, (forall q, at_phase s q = Outside) -> P (EConnect p) s) -> mutex_reach P two_running both_connected.
Proof.
  intros HP. eapply reach_next; [eapply reach_next; [apply reach_here| |by eapply (step_connect _ 1)]| |by eapply (step_connect _ 2)].
  all: by apply HP.
Qed.

Lemma hears_other s p q : connected s p = true -> q <> p -> running s q = true -> connected s q = true -> lorieConnectionAlive s p true.
Proof. intros. split; eauto. Qed.

(** Process 1 locks. *)
Definition one_locked : procs := lock_returned 1 {| owner := Some (1, 1%nat); lockingPid := 0 |} both_connected.

Lemma one_locked_reach (P : mutex_event -> procs -> Prop) :
  (forall e s, (forall q, at_phase s q = Outside) -> no_error e -> (forall p, e <> EStart p) -> P e s) ->
  mutex_reach P two_running one_locked.
Proof.
  intros HP. eapply reach_next; [apply both_connected_reach; intros; by apply HP|by apply (HP (ERound 1 false true))|].
  eapply (step_round both_connected 1 false true _ true eq_refl); [by left|by apply (hears_other _ 1 2)|reflexivity].
Qed.

Lemma one_locked_orderly : mutex_reach orderly two_running one_locked.
Proof. apply one_locked_reach. intros e s Hs He _. split; [by apply outside_in_touch|done]. Qed.

Lemma one_locked_tidy : mutex_reach tidy two_running one_locked.
Proof.
  apply one_locked_reach. intros e s Hs He Hst. split; [split; [by apply outside_in_touch|done]|].
  destruct e; try done. by destruct (Hst p).
Qed.

Lemma lorie_mutex_excludes_witness :
  exists s, mutex_reach orderly two_running s /\ running s 2 = true /\ at_phase s 1 <> Outside /\ 1 = 1.
Proof.
  assert (Ho : at_phase one_locked 1 <> Outside) by done.
  exists one_locked. split; [exact one_locked_orderly|split; [reflexivity|split; [exact Ho|]]].
  exact (lorie_mutex_excludes two_running one_locked 1 1 one_locked_orderly eq_refl eq_refl Ho Ho).
Defined.

(** Process 1 locks and dies, process 2 is alone. *)
Definition one_died : procs :=
  {| mutex := mutex one_locked; running := upd (running one_locked) 1 false; connected := upd (connected one_locked) 1 false;
     at_phase := at_phase one_locked; depth := depth one_locked |}.

Lemma one_locked_in_touch : in_touch one_locked.
Proof.
  intros p q Hne Hp Hq Hph. cbn in *. unfold two_running in *. upd_cases q 1; [|done]. upd_cases p 1; [done|].
  destruct (Z.eqb_spec p 1); [done|]. by destruct (Z.eqb_spec p 2); subst.
Qed.

Lemma one_died_reach : mutex_reach tidy two_running one_died.
Proof. eapply reach_next; [apply one_locked_tidy| |apply (step_die _ 1)]. split; [split; [apply one_locked_in_touch|done]|done]. Qed.

Lemma one_died_alone q : q <> 2 -> running one_died q = false.
Proof. intros Hq. cbn. unfold upd, two_running. destruct (Z.eqb_spec q 1); [done|]. by destruct (Z.eqb_spec q 2). Qed.

Lemma one_died_unheard : lorieConnectionAlive one_died 2 false.
Proof. split; [done|]. intros (_ & q & Hne & Hq & _). by rewrite one_died_alone in Hq. Qed.

Lemma lorie_mutex_recovers_witness : exists s m,
  (exists n, owner (mutex s) = Some (1, n)) /\
  (lock_round 2 false false (mutex s) = (m, true) \/
   lock_round 2 false false (lock_round 2 false false (mutex s)).1 = (m, true)) /\
  exists n, owner m = Some (2, n).
Proof.
  exists one_died.
  destruct (lorie_mutex_recovers two_running one_died 2 false eq_refl one_died_reach eq_refl one_died_alone one_died_unheard) as [m Hm].
  exists m. split; [exists 1%nat; reflexivity|exact Hm].
Defined.

(** ** What goes wrong *)

(** The activity's main thread closes the connection while its renderer is past a lock: the
    server hears that nobody is there, replaces the mutex and is past a lock too. *)
Example closed_holder_is_joined : exists s,
  mutex_reach (fun e _ => no_error e) two_running s /\ running s 1 = true /\ running s 2 = true /\
  at_phase s 1 = Locked /\ at_phase s 2 = Locked.
Proof.
  assert (H : mutex_reach (fun e _ => no_error e) two_running one_locked) by (by apply one_locked_reach).
  assert (Hd : forall s, connected s 1 = false -> running s = two_running -> lorieConnectionAlive s 2 false).
  { intros s H1 Hs. split; [done|]. intros (_ & q & Hne & Hq & Hc). rewrite Hs in Hq. unfold two_running in Hq.
    destruct (Z.eqb_spec q 1) as [->|]; [congruence|]. by destruct (Z.eqb_spec q 2). }
  set (s1 := with_connection 1 false one_locked).
  set (s2 := with_mutex {| owner := None; lockingPid := 0 |} s1).
  exists (lock_returned 2 {| owner := Some (2, 1%nat); lockingPid := 0 |} s2). split; [|done].
  apply (reach_next _ _ (ERound 2 false false) s2); [|done|].
  - apply (reach_next _ _ (ERound 2 false false) s1); [|done|].
    + apply (reach_next _ _ (EClose 1) one_locked); [exact H|done|constructor].
    + by apply (step_round s1 2 false false _ false); [|left|apply Hd|].
  - by apply (step_round s2 2 false false _ true); [|left|apply Hd|].
Qed.

(** A process that got the number which a dead one left in [lockingPid] never gets the mutex
    that the dead one's thread owns, although it is alone. *)
Example reused_number_spins alive :
  let m := {| owner := Some (7, 1%nat); lockingPid := 8 |} in lock_round 8 false alive m = (m, false).
Proof. done. Qed.

(** The holder 1 has died and 3 has taken its place and connected: 2 and 3 hear each other,
    and neither of them ever replaces the mutex. *)
Definition peer_started : procs :=
  {| mutex := mutex one_died; running := upd (running one_died) 3 true; connected := upd (connected one_died) 3 false;
     at_phase := upd (at_phase one_died) 3 Outside; depth := upd (depth one_died) 3 O |}.

Definition peer_connected : procs := with_connection 3 true peer_started.

Example dead_holder_blocks :
  mutex_reach (fun e s => no_error e /\ new_number e s) two_running peer_connected /\
  forall p alive s', p = 2 \/ p = 3 -> mutex_step (ERound p false alive) peer_connected s' -> s' = peer_connected.
Proof.
  split.
  - apply (reach_next _ _ (EConnect 3) peer_started); [|done|by constructor].
    apply (reach_next _ _ (EStart 3) one_died); [|split; [done|cbn; lia]|by constructor].
    apply (reach_next _ _ (EDie 1) one_locked); [|done|constructor].
    apply one_locked_reach. intros e s _ He Hst. split; [done|]. destruct e; try done. by destruct (Hst p).
  - intros p alive s' Hp Hs. inversion Hs as [s q error alive' m ok Hr Hph Ha E H1 H2| | | | | | |]. subst.
    assert (alive = true) as ->.
    { apply Ha. destruct Hp as [->| ->]; (split; [done|]); [exists 3|exists 2]; done. }
    destruct Hp as [->| ->]; cbn in E; by injection E as <- <-.
Qed.

Lemma lorieSetCursor_shows_witness :
  let s := {| s_x := 0; s_y := 0; s_xhot := 0; s_yhot := 0; s_width := 0; s_height := 0;
              s_bits := repeat 0 (Z.to_nat (512 * 512)); s_updated := false; s_moved := false |} in
  exists s', lorieSetCursor None (Some tiny_cursor) 3 4 s = Some s' /\ s_width s' = 2.
Proof.
  intros s.
  assert (Hf : cursor_fits tiny_cursor) by (vm_compute; intuition discriminate).
  destruct (lorieSetCursor_shows None tiny_cursor 3 4 s Hf) as (s' & Hs & Hf' & _).
  - cbn [s_bits s]. by rewrite repeat_length, Z2Nat.id.
  - exists s'. split; [exact Hs|]. by injection Hf'.
Defined.
