(* ===== verification/Fence.v ===== *)
(** * Shared memory fences ([lorie/xshmfence.c], [libxshmfence/src])

    A fence is a flag in memory that the X server and its clients share: one side awaits it,
    the other triggers it. [lorie/xshmfence.c] chooses by the size of the memory between two
    implementations, one on a futex and one on a mutex with a condition variable. Both are
    instances of the class [FenceImpl]; from the laws of [FenceLaws] it follows for both that
    the operations of concurrent threads have the effect of a flag ([fence_linearizes]) and that
    nobody sleeps on a triggered fence ([triggered_awaits_return]). *)

From S2P Require Import Prelude.

(** ** Operations, events and the flag that a fence promises to be *)

Inductive op := Trigger | Await | Query | Reset.

#[export] Instance op_eq_dec : EqDecision op.
Proof. solve_decision. Defined.

(** The moment at which an operation takes effect; a query carries its answer. *)
Inductive event := DidTrigger | DidAwait | DidQuery (b : bool) | DidReset.

Definition op_of (e : event) : op :=
  match e with DidTrigger => Trigger | DidAwait => Await | DidQuery _ => Query | DidReset => Reset end.

(** The flag: an await needs it set, a query answers it. *)
Definition flag_step (e : event) (b : bool) : option bool :=
  match e with
  | DidTrigger => Some true
  | DidReset => Some false
  | DidAwait => if b then Some true else None
  | DidQuery q => if Bool.eqb q b then Some b else None
  end.

Fixpoint flag_run (t : list (nat * event)) (b : bool) : option bool :=
  match t with [] => Some b | (_, e) :: t => b ← flag_step e b; flag_run t b end.

(** ** Implementations *)

(** An atomic step of a thread: the new memory, where the thread is then, whether all
    sleepers are woken, and the operation that takes effect. *)
Record outcome (V P : Type) := { memory : V; next : P; wakes : bool; emits : option event }.

Arguments memory {V P}. Arguments next {V P}. Arguments wakes {V P}. Arguments emits {V P}.

(** [V] is the shared memory and [P] the places of a thread. *)
Class FenceImpl (V P : Type) := {
  start : op -> P;
  fence_step : P -> V -> option (outcome V P);
  wake : P -> P;                      (* of a sleeper *)
  interrupt : P -> P;                 (* a signal reaches a sleeper *)
  asleep : P -> bool;
  finished : P -> bool;
  signalled : V -> bool;
}.

(** *** The futex ([xshmfence_futex.c]) *)

Inductive futex_pc :=
  | TriggerCas | TriggerStore | TriggerWake
  | AwaitCas | AwaitWait | AwaitSleep | AwaitFailed
  | QueryFetch | ResetCas | FutexDone (o : op).

(** [__sync_val_compare_and_swap]. *)
Definition cas (v old new : Z) : Z := if v =? old then new else v.

Definition futex_step (p : futex_pc) (v : Z) : option (outcome Z futex_pc) :=
  match p with
  | TriggerCas =>
      Some (if v =? -1 then {| memory := cas v 0 1; next := TriggerStore; wakes := false; emits := None |}
            else {| memory := cas v 0 1; next := FutexDone Trigger; wakes := false; emits := Some DidTrigger |})
  | TriggerStore => Some {| memory := 1; next := TriggerWake; wakes := false; emits := Some DidTrigger |}
  | TriggerWake => Some {| memory := v; next := FutexDone Trigger; wakes := true; emits := None |}
  | AwaitCas =>
      Some (if v =? 1 then {| memory := cas v 0 (-1); next := FutexDone Await; wakes := false; emits := Some DidAwait |}
            else {| memory := cas v 0 (-1); next := AwaitWait; wakes := false; emits := None |})
  | AwaitWait => (* the kernel compares and sleeps, or answers EWOULDBLOCK *)
      Some {| memory := v; next := if v =? -1 then AwaitSleep else AwaitCas; wakes := false; emits := None |}
  | QueryFetch => Some {| memory := v; next := FutexDone Query; wakes := false; emits := Some (DidQuery (v =? 1)) |}
  | ResetCas => Some {| memory := cas v 1 0; next := FutexDone Reset; wakes := false; emits := Some DidReset |}
  | AwaitSleep | AwaitFailed | FutexDone _ => None
  end.

#[export] Instance futex_fence : FenceImpl Z futex_pc := {
  start o := match o with Trigger => TriggerCas | Await => AwaitCas | Query => QueryFetch | Reset => ResetCas end;
  fence_step := futex_step;
  wake p := match p with AwaitSleep => AwaitCas | _ => p end;
  interrupt p := match p with AwaitSleep => AwaitFailed | _ => p end;
  asleep p := match p with AwaitSleep => true | _ => false end;
  finished p := match p with FutexDone _ | AwaitFailed => true | _ => false end;
  signalled v := v =? 1;
}.

(** *** The condition variable ([xshmfence_pthread.c]) *)

Record pthread_fence := { value : Z; waiting : Z }.

Inductive pthread_pc := PTrigger | PAwait | PAsleep | PQuery | PReset | PthreadDone (o : op).

(** Every operation has the lock from its start to its end or its wait. *)
Definition pthread_step (p : pthread_pc) (f : pthread_fence) : option (outcome pthread_fence pthread_pc) :=
  match p with
  | PTrigger =>
      Some (if value f =? 0 then
              {| memory := {| value := 1; waiting := if negb (waiting f =? 0) then 0 else waiting f |};
                 next := PthreadDone Trigger; wakes := negb (waiting f =? 0); emits := Some DidTrigger |}
            else {| memory := f; next := PthreadDone Trigger; wakes := false; emits := Some DidTrigger |})
  | PAwait =>
      Some (if value f =? 0 then {| memory := {| value := value f; waiting := 1 |}; next := PAsleep; wakes := false; emits := None |}
            else {| memory := f; next := PthreadDone Await; wakes := false; emits := Some DidAwait |})
  | PQuery => Some {| memory := f; next := PthreadDone Query; wakes := false; emits := Some (DidQuery (negb (value f =? 0))) |}
  | PReset =>
      Some {| memory := {| value := 0; waiting := waiting f |}; next := PthreadDone Reset; wakes := false; emits := Some DidReset |}
  | PAsleep | PthreadDone _ => None
  end.

#[export] Instance pthread_fence_impl : FenceImpl pthread_fence pthread_pc := {
  start o := match o with Trigger => PTrigger | Await => PAwait | Query => PQuery | Reset => PReset end;
  fence_step := pthread_step;
  wake p := match p with PAsleep => PAwait | _ => p end;
  interrupt p := p;
  asleep p := match p with PAsleep => true | _ => false end;
  finished p := match p with PthreadDone _ => true | _ => false end;
  signalled f := negb (value f =? 0);
}.

(** ** Threads *)

(** The threads of both processes, and what took effect, oldest first. *)
Record Sys (V P : Type) := { fence : V; threads : list P; trace : list (nat * event) }.

Arguments fence {V P}. Arguments threads {V P}. Arguments trace {V P}.

Inductive label :=
  | Step (i : nat)
  | Spurious (i : nat)      (* a sleep ends without a reason *)
  | Signal (i : nat).

Section system.
Context {V P : Type} `{FenceImpl V P}.

Definition exec (l : label) (s : Sys V P) : Sys V P :=
  match l with
  | Step i =>
      match threads s !! i with
      | Some p =>
          match fence_step p (fence s) with
          | Some o =>
              let ps := <[i := next o]> (threads s) in
              {| fence := memory o; threads := if wakes o then map wake ps else ps;
                 trace := trace s ++ match emits o with Some e => [(i, e)] | None => [] end |}
          | None => s
          end
      | None => s
      end
  | Spurious i => {| fence := fence s; threads := alter wake i (threads s); trace := trace s |}
  | Signal i => {| fence := fence s; threads := alter interrupt i (threads s); trace := trace s |}
  end.

Definition run (ls : list label) (s : Sys V P) : Sys V P := foldl (fun s l => exec l s) s ls.

End system.

(** ** The choice of the implementation ([lorie/xshmfence.c]) *)

(** [struct xshmfence] with the threads that use it: [real] is one or the other. *)
Inductive xshmfence := Futex (s : Sys Z futex_pc) | Pthread (s : Sys pthread_fence pthread_pc).

(** A thread calls [xshmfence_trigger], [xshmfence_await], [xshmfence_query] or
    [xshmfence_reset]: [is_futex] chooses. *)
Definition xshmfence_call (o : op) (f : xshmfence) : xshmfence :=
  match f with
  | Futex s => Futex {| fence := fence s; threads := threads s ++ [start o]; trace := trace s |}
  | Pthread s => Pthread {| fence := fence s; threads := threads s ++ [start o]; trace := trace s |}
  end.

Definition xshmfence_exec (l : label) (f : xshmfence) : xshmfence :=
  match f with Futex s => Futex (exec l s) | Pthread s => Pthread (exec l s) end.

(** ** The laws *)

(** [valid] is the memory that the operations leave, [does] is the operation of a thread, [emitted] says that it took effect and [failed]
    that it was interrupted; [holds] is the memory with which threads can sleep, and [waker]
    a thread that is about to wake them; [rank] bounds the steps on a triggered fence. *)
Class FenceLaws (V P : Type) `{FenceImpl V P} := {
  valid : V -> bool; does : P -> op; emitted : P -> bool; failed : P -> bool; holds : V -> bool; waker : P -> bool; rank : P -> nat;
  law_start o : does (start o) = o /\ emitted (start o) = false /\ asleep (start o) = false;
  law_valid p v o : valid v = true -> fence_step p v = Some o -> valid (memory o) = true;
  law_flag p v o : valid v = true -> fence_step p v = Some o ->
    match emits o with
    | Some e => flag_step e (signalled v) = Some (signalled (memory o))
    | None => signalled (memory o) = signalled v
    end;
  law_once p v o : fence_step p v = Some o -> does (next o) = does p /\
    match emits o with
    | Some e => emitted p = false /\ emitted (next o) = true /\ op_of e = does p
    | None => emitted (next o) = emitted p
    end;
  law_wake p : does (wake p) = does p /\ emitted (wake p) = emitted p /\ asleep (wake p) = false /\
    waker (wake p) = waker p /\ (asleep p = false -> wake p = p);
  law_interrupt p : does (interrupt p) = does p /\ emitted (interrupt p) = emitted p /\
    waker (interrupt p) = waker p /\ (asleep (interrupt p) = true -> asleep p = true) /\ (asleep p = false -> interrupt p = p);
  law_finished p : finished p = true -> emitted p = negb (failed p);
  law_progress p v : fence_step p v = None -> asleep p = true \/ finished p = true;
  law_sleep p v o : fence_step p v = Some o -> asleep (next o) = true -> holds (memory o) = true;
  law_holds p v o : holds v = true -> fence_step p v = Some o ->
    holds (memory o) = true \/ waker (next o) = true \/ wakes o = true;
  law_waker p v o : waker p = true -> fence_step p v = Some o -> wakes o = true \/ waker (next o) = true;
  law_flag_holds v : holds v = true -> signalled v = false;
  law_rank p v o : signalled v = true -> does p <> Reset -> fence_step p v = Some o ->
    signalled (memory o) = true /\ (rank (next o) < rank p)%nat;
  law_rank_bound p : (rank p <= 3)%nat;
  law_rank_done p : rank p = 0%nat <-> finished p = true;
}.

#[export] Instance futex_laws : FenceLaws Z futex_pc.
Proof.
  refine {|
    valid v := (v =? -1) || (v =? 0) || (v =? 1);
    does p := match p with
              | TriggerCas | TriggerStore | TriggerWake => Trigger
              | AwaitCas | AwaitWait | AwaitSleep | AwaitFailed => Await
              | QueryFetch => Query | ResetCas => Reset | FutexDone o => o
              end;
    emitted p := match p with TriggerWake | FutexDone _ => true | _ => false end;
    failed p := match p with AwaitFailed => true | _ => false end;
    holds v := v =? -1;
    waker p := match p with TriggerWake => true | _ => false end;
    rank p := match p with
              | TriggerCas | AwaitSleep => 3%nat | TriggerStore | AwaitWait => 2%nat
              | TriggerWake | AwaitCas | QueryFetch | ResetCas => 1%nat
              | AwaitFailed | FutexDone _ => 0%nat
              end |}; cbn.
  - by intros [].
  - intros p v o Hv. assert (v = -1 \/ v = 0 \/ v = 1) as [-> | [-> | ->]] by lia; destruct p; cbn; intros [= <-]; done.
  - intros p v o Hv. assert (v = -1 \/ v = 0 \/ v = 1) as [-> | [-> | ->]] by lia; destruct p; cbn; intros [= <-]; done.
  - intros p v o. destruct p; cbn; intros [= <-]; cbn; bcase; cbn; done.
  - by intros [].
  - by intros [].
  - by intros [].
  - intros p v. destruct p; cbn; try done; auto.
  - intros p v o. destruct p; cbn; intros [= <-]; cbn; try done; bcase; cbn; done.
  - intros p v o Hv. apply Z.eqb_eq in Hv as ->. destruct p; cbn; intros [= <-]; cbn; auto.
  - intros p v o. destruct p; cbn; try done. intros _ [= <-]. auto.
  - intros v Hv. apply Z.eqb_eq in Hv as ->. done.
  - intros p v o Hv. apply Z.eqb_eq in Hv as ->. destruct p; cbn; intros Hr [= <-]; cbn; try done; split; done || lia.
  - intros []; cbn; lia.
  - by intros [].
Defined.

#[export] Instance pthread_laws : FenceLaws pthread_fence pthread_pc.
Proof.
  refine {|
    valid _ := true;
    does p := match p with
              | PTrigger => Trigger | PAwait | PAsleep => Await | PQuery => Query | PReset => Reset | PthreadDone o => o
              end;
    emitted p := match p with PthreadDone _ => true | _ => false end;
    failed _ := false;
    holds f := (value f =? 0) && negb (waiting f =? 0);
    waker _ := false;
    rank p := match p with PthreadDone _ => 0%nat | PAsleep => 2%nat | _ => 1%nat end |}; cbn.
  - by intros [].
  - done.
  - intros p v o _. destruct p; cbn; intros [= <-]; cbn; destruct (value v =? 0) eqn:E; cbn; rewrite ?E; done.
  - intros p v o. destruct p; cbn; intros [= <-]; cbn; destruct (value v =? 0); cbn; done.
  - by intros [].
  - intros []; cbn; done.
  - by intros [].
  - intros p v. destruct p; cbn; try done; auto.
  - intros p v o. destruct p; cbn; intros [= <-]; cbn; destruct (value v =? 0) eqn:E; cbn; rewrite ?E; done.
  - intros p v o Hv. apply andb_true_iff in Hv as [Hv Hw]. destruct p; cbn; intros [= <-]; cbn; rewrite ?Hv, ?Hw; cbn;
      rewrite ?Hv, ?Hw; auto.
  - done.
  - intros v Hv. apply andb_true_iff in Hv as [-> _]. done.
  - intros p v o Hv Hr. destruct p; cbn; intros [= <-]; cbn; apply negb_true_iff in Hv; rewrite ?Hv; cbn; rewrite ?Hv; try done; auto.
  - intros []; cbn; lia.
  - by intros [].
Defined.

(** ** Every implementation is a flag *)

Definition events_of (i : nat) (t : list (nat * event)) : list event :=
  omap (fun x => if decide (x.1 = i) then Some x.2 else None) t.

#[global] Arguments events_of : simpl never.

Lemma events_of_app i t t' : events_of i (t ++ t') = events_of i t ++ events_of i t'.
Proof. apply omap_app. Qed.

Lemma events_of_one j i e : events_of j [(i, e)] = if decide (i = j) then [e] else [].
Proof. unfold events_of. cbn. by case_decide. Qed.

Lemma events_of_nil i : events_of i [] = [].
Proof. done. Qed.

Lemma flag_run_app t t' b : flag_run (t ++ t') b = b' ← flag_run t b; flag_run t' b'.
Proof. revert b. induction t as [|[i e] t IH]; intros b; [done|]. cbn [app flag_run]. destruct (flag_step e b); cbn [mbind option_bind]; [apply IH|done]. Qed.

Section laws.
Context {V P : Type} `{FenceLaws V P}.
Implicit Types (s : Sys V P) (p : P).

(** What a thread that does [o] has done so far. *)
Definition place_ok (p : P) (es : list event) : Prop :=
  if emitted p then exists e, es = [e] /\ op_of e = does p else es = [].

Record sys_ok (b : bool) (ops : list op) (s : Sys V P) : Prop := {
  sys_valid : valid (fence s) = true;
  sys_ops : does <$> threads s = ops;
  sys_flag : flag_run (trace s) b = Some (signalled (fence s));
  sys_places : forall i p, threads s !! i = Some p -> place_ok p (events_of i (trace s));
  sys_sleep : (exists i p, threads s !! i = Some p /\ asleep p = true) ->
    holds (fence s) = true \/ exists i p, threads s !! i = Some p /\ waker p = true;
}.

(** A change of one sleeper that takes no effect. *)
Lemma fence_alter_ok b ops s (f : P -> P) i :
  (forall p, does (f p) = does p /\ emitted (f p) = emitted p /\ waker (f p) = waker p /\ (asleep (f p) = true -> asleep p = true)) ->
  sys_ok b ops s -> sys_ok b ops {| fence := fence s; threads := alter f i (threads s); trace := trace s |}.
Proof.
  intros Hf [HV HO HF HP HS]. assert (forall j p, alter f i (threads s) !! j = Some p ->
    exists q, threads s !! j = Some q /\ (p = q \/ p = f q)) as L.
  { intros j p Hp. destruct (decide (i = j)) as [->|Hne].
    - rewrite list_lookup_alter_eq in Hp. apply fmap_Some in Hp as (q & Hq & ->). eauto.
    - rewrite list_lookup_alter_ne in Hp by done. eauto. }
  split; cbn; try done.
  - rewrite <- HO. apply list_eq. intros j. rewrite !list_lookup_fmap. destruct (decide (i = j)) as [->|Hne].
    + rewrite list_lookup_alter_eq. destruct (threads s !! j) as [p|]; [|done]. cbn. f_equal. apply Hf.
    + by rewrite list_lookup_alter_ne.
  - intros j p Hp. destruct (L _ _ Hp) as (q & Hq & [-> | ->]); [eauto|]. specialize (HP _ _ Hq). unfold place_ok in *.
    destruct (Hf q) as (-> & -> & _). done.
  - intros (j & p & Hp & Ha). destruct HS as [Hh|(k & q & Hk & Hw)].
    + destruct (L _ _ Hp) as (q & Hq & [-> | ->]); [eauto|]. exists j, q. split; [done|]. by apply Hf.
    + by left.
    + right. destruct (decide (i = k)) as [->|Hne].
      * exists k, (f q). rewrite list_lookup_alter_eq, Hk. split; [done|]. by rewrite (proj1 (proj2 (proj2 (Hf q)))).
      * exists k, q. by rewrite list_lookup_alter_ne.
Qed.

(** The step of thread [i]. *)
Lemma fence_step_ok b ops s i p o :
  sys_ok b ops s -> threads s !! i = Some p -> fence_step p (fence s) = Some o ->
  sys_ok b ops {| fence := memory o;
                  threads := if wakes o then map wake (<[i := next o]> (threads s)) else <[i := next o]> (threads s);
                  trace := trace s ++ match emits o with Some e => [(i, e)] | None => [] end |}.
Proof.
  intros [HV HO HF HP HS] Hi Ho. pose proof (lookup_lt_Some _ _ _ Hi) as Hlt.
  destruct (law_once _ _ _ Ho) as [Hd He]. pose proof (law_flag _ _ _ HV Ho) as Hfl.
  set (ps := <[i := next o]> (threads s)).
  assert (forall j q, (if wakes o then map wake ps else ps) !! j = Some q ->
    exists r, ps !! j = Some r /\ (if wakes o then q = wake r else q = r)) as L.
  { intros j q. destruct (wakes o); [|eauto]. change (map wake ps) with (wake <$> ps). rewrite list_lookup_fmap.
    intros Hq. apply fmap_Some in Hq as (r & Hr & ->). eauto. }
  assert (forall q r, (if wakes o then q = wake r else q = r) -> does q = does r /\ emitted q = emitted r /\ waker q = waker r) as W.
  { intros q r. destruct (wakes o); intros ->; [|done]. destruct (law_wake r) as (? & ? & _ & ? & _). done. }
  assert (forall j r, ps !! j = Some r -> j = i /\ r = next o \/ j <> i /\ threads s !! j = Some r) as M.
  { intros j r. unfold ps. destruct (decide (i = j)) as [->|Hne].
    - rewrite list_lookup_insert_eq by done. intros [= <-]. by left.
    - rewrite list_lookup_insert_ne by done. auto. }
  split; cbn; try done.
  - by apply (law_valid p (fence s)).
  - rewrite <- HO. assert (does <$> ps = does <$> threads s) as <-.
    { unfold ps. rewrite list_fmap_insert, Hd. apply list_insert_id. by rewrite list_lookup_fmap, Hi. }
    destruct (wakes o); [|done]. change (map wake ps) with (wake <$> ps). rewrite <- list_fmap_compose.
    apply list_fmap_ext. intros j q _. apply law_wake.
  - rewrite flag_run_app, HF. cbn [mbind option_bind]. destruct (emits o) as [e|]; cbn; [|by rewrite Hfl].
    by rewrite Hfl.
  - intros j q Hq. destruct (L _ _ Hq) as (r & Hr & Hqr). destruct (W _ _ Hqr) as (E1 & E2 & _). unfold place_ok. rewrite E1, E2.
    rewrite events_of_app. destruct (M _ _ Hr) as [[-> ->]|[Hne Hr']].
    + specialize (HP _ _ Hi). unfold place_ok in HP. rewrite Hd. destruct (emits o) as [e|].
      * destruct He as (He1 & -> & He3). rewrite He1 in HP. rewrite HP, events_of_one, decide_True by done. cbn. eauto.
      * by rewrite He, events_of_nil, app_nil_r.
    + specialize (HP _ _ Hr'). unfold place_ok in HP.
      destruct (emits o) as [e|]; [rewrite events_of_one, decide_False by done|]; by rewrite app_nil_r.
  - intros (j & q & Hq & Ha). destruct (L _ _ Hq) as (r & Hr & Hqr). destruct (wakes o) eqn:Ew.
    { subst q. destruct (law_wake r) as (_ & _ & Hw & _). congruence. }
    subst q. destruct (M _ _ Hr) as [[-> ->]|[Hne Hr']]; [left; by apply (law_sleep p (fence s))|].
    destruct HS as [Hh|(k & w & Hk & Hw)]; [eauto| |].
    + destruct (law_holds _ _ _ Hh Ho) as [?|[?|?]]; [by left| |congruence]. right. exists i, (next o).
      unfold ps. by rewrite list_lookup_insert_eq.
    + right. destruct (decide (i = k)) as [->|Hk'].
      * rewrite Hi in Hk. injection Hk as ->. destruct (law_waker _ _ _ Hw Ho) as [?|?]; [congruence|].
        exists k, (next o). unfold ps. by rewrite list_lookup_insert_eq.
      * exists k, w. unfold ps. by rewrite list_lookup_insert_ne.
Qed.

Lemma fence_exec_ok b ops l s : sys_ok b ops s -> sys_ok b ops (exec l s).
Proof.
  intros Hs. destruct l as [i|i|i]; cbn [exec].
  - destruct (threads s !! i) as [p|] eqn:Hi; [|done]. destruct (fence_step p (fence s)) as [o|] eqn:Ho; [|done]. by apply (fence_step_ok b ops s i p).
  - apply fence_alter_ok; [|done]. intros p. destruct (law_wake p) as (? & ? & Ha & ? & _). split_and!; try done. by rewrite Ha.
  - apply fence_alter_ok; [|done]. intros p. destruct (law_interrupt p) as (? & ? & ? & ? & _). done.
Qed.

Lemma fence_run_ok b ops ls s : sys_ok b ops s -> sys_ok b ops (run ls s).
Proof. revert s. induction ls as [|l ls IH]; intros s Hs; [done|]. apply IH. by apply fence_exec_ok. Qed.

Lemma fence_start_ok v ops : valid v = true -> sys_ok (signalled v) ops {| fence := v; threads := start <$> ops; trace := [] |}.
Proof.
  intros Hv. split; cbn; try done.
  - rewrite <- list_fmap_compose. transitivity (Datatypes.id <$> ops); [|apply list_fmap_id].
    apply list_fmap_ext. intros i o _. apply law_start.
  - intros i p Hp. rewrite list_lookup_fmap in Hp. apply fmap_Some in Hp as (o & _ & ->). unfold place_ok.
    by destruct (law_start o) as (_ & -> & _).
  - intros (i & p & Hp & Ha). rewrite list_lookup_fmap in Hp. apply fmap_Some in Hp as (o & _ & ->).
    destruct (law_start o) as (_ & _ & Hn). congruence.
Qed.

(** *** A triggered fence *)

(** Nobody resets it and nobody sleeps. *)
Record triggered (s : Sys V P) : Prop := {
  triggered_flag : signalled (fence s) = true;
  triggered_threads : forall i p, threads s !! i = Some p -> does p <> Reset /\ asleep p = false;
}.

Lemma triggered_step i s :
  triggered s ->
  triggered (exec (Step i) s) /\
  (forall j p, threads s !! j = Some p -> exists q, threads (exec (Step i) s) !! j = Some q /\
    (if decide (i = j) then (rank q <= pred (rank p))%nat else (rank q <= rank p)%nat)).
Proof.
  intros [HF HT]. cbn [exec]. destruct (threads s !! i) as [p|] eqn:Hi.
  2:{ split; [done|]. intros j p Hj. exists p. split; [done|]. case_decide; [|done].
      subst j. by rewrite Hi in Hj. }
  destruct (HT _ _ Hi) as [Hr Ha]. destruct (fence_step p (fence s)) as [o|] eqn:Ho.
  - destruct (law_rank _ _ _ HF Hr Ho) as [HF' Hrk]. destruct (law_once _ _ _ Ho) as [Hd _].
    pose proof (lookup_lt_Some _ _ _ Hi) as Hlt.
    assert (asleep (next o) = false) as Han.
    { destruct (asleep (next o)) eqn:E; [|done]. pose proof (law_sleep _ _ _ Ho E) as Hh. apply law_flag_holds in Hh. congruence. }
    assert (forall j q, <[i := next o]> (threads s) !! j = Some q -> does q <> Reset /\ asleep q = false) as HT'.
    { intros j q. destruct (decide (i = j)) as [->|Hne].
      - rewrite list_lookup_insert_eq by done. intros [= <-]. by rewrite Hd.
      - rewrite list_lookup_insert_ne by done. apply HT. }
    assert ((if wakes o then map wake (<[i := next o]> (threads s)) else <[i := next o]> (threads s)) = <[i := next o]> (threads s)) as E.
    { destruct (wakes o); [|done]. change (map wake (<[i := next o]> (threads s))) with (wake <$> <[i := next o]> (threads s)).
      apply list_eq. intros j. rewrite list_lookup_fmap. destruct (<[i := next o]> (threads s) !! j) as [q|] eqn:Eq; [|done].
      cbn. f_equal. destruct (law_wake q) as (_ & _ & _ & _ & Hw). apply Hw. by apply (HT' j). }
    rewrite E. split; [by split|]. intros j q Hj. cbn. destruct (decide (i = j)) as [->|Hne].
    + rewrite Hi in Hj. injection Hj as <-. exists (next o). rewrite list_lookup_insert_eq by done. split; [done|lia].
    + exists q. by rewrite list_lookup_insert_ne.
  - split; [done|]. intros j q Hj. exists q. split; [done|]. case_decide as E; [|done]. subst j. rewrite Hi in Hj. injection Hj as <-.
    destruct (law_progress _ _ Ho) as [?|Hfin]; [congruence|]. apply law_rank_done in Hfin. lia.
Qed.

(** The steps of a schedule count down the rank of every thread. *)
Lemma triggered_run ls s :
  triggered s -> forall j p, threads s !! j = Some p ->
  exists q, threads (run (Step <$> ls) s) !! j = Some q /\ (rank q <= rank p - count_occ Nat.eq_dec ls j)%nat.
Proof.
  revert s. induction ls as [|i ls IH]; intros s Hs j p Hp; [exists p; cbn; split; [done|lia]|].
  destruct (triggered_step i s Hs) as [Hs' Hr]. destruct (Hr j p Hp) as (q & Hq & Hle).
  destruct (IH _ Hs' j q Hq) as (q' & Hq' & Hle'). exists q'. split; [done|]. cbn [count_occ].
  destruct (Nat.eq_dec i j), (decide (i = j)); try congruence; lia.
Qed.

Lemma triggered_finishes b ops s ls :
  sys_ok b ops s -> signalled (fence s) = true -> Reset ∉ ops -> Forall (fun p => waker p = false) (threads s) ->
  (forall i, (i < length ops)%nat -> (3 <= count_occ Nat.eq_dec ls i)%nat) ->
  Forall (fun p => finished p = true) (threads (run (Step <$> ls) s)).
Proof.
  intros [HV HO HF HP HS] Hf Hr Hw Hc. rewrite Forall_lookup in Hw.
  assert (triggered s) as HT.
  { split; [done|]. intros i p Hi. split.
    - intros E. apply Hr. rewrite <- HO, <- E. apply list_elem_of_fmap_2. by eapply list_elem_of_lookup_2.
    - destruct (asleep p) eqn:E; [|done]. destruct HS as [Hh|(j & q & Hj & Hq)]; [eauto| |].
      + apply law_flag_holds in Hh. congruence.
      + specialize (Hw _ _ Hj). congruence. }
  apply Forall_lookup. intros i q Hq.
  assert (length (threads (run (Step <$> ls) s)) = length ops) as Hlen.
  { assert (sys_ok b ops (run (Step <$> ls) s)) as [_ HO' _ _ _] by (apply fence_run_ok; by split). by rewrite <- HO', length_fmap. }
  pose proof (lookup_lt_Some _ _ _ Hq) as Hlt. rewrite Hlen in Hlt.
  destruct (lookup_lt_is_Some_2 (threads s) i) as [p Hp]; [by rewrite <- (length_fmap does), HO|].
  destruct (triggered_run ls s HT i p Hp) as (q' & Hq' & Hle). assert (q' = q) as -> by congruence.
  apply law_rank_done. pose proof (law_rank_bound p). specialize (Hc i Hlt). lia.
Qed.

Lemma fresh_sys b ops s :
  valid (fence s) = true -> signalled (fence s) = b -> threads s = start <$> ops -> trace s = [] -> sys_ok b ops s.
Proof. intros Hv Hb Ht Hr. destruct s as [v ps t]. cbn in *. subst. by apply fence_start_ok. Qed.

Lemma sys_places_spec b ops s i o fin fl :
  sys_ok b ops s -> ((fun p => (does p, finished p, failed p)) <$> threads s) !! i = Some (o, fin, fl) ->
  ops !! i = Some o /\
  (events_of i (trace s) = [] \/ exists e, events_of i (trace s) = [e] /\ op_of e = o) /\
  (fin = true -> fl = false -> events_of i (trace s) <> []).
Proof.
  intros [_ HO _ HP _] Hi. rewrite list_lookup_fmap in Hi. apply fmap_Some in Hi as (p & Hp & [= -> -> ->]).
  specialize (HP _ _ Hp). unfold place_ok in HP. split; [by rewrite <- HO, list_lookup_fmap, Hp|].
  destruct (emitted p) eqn:E.
  - destruct HP as (e & -> & He). split; [eauto|done].
  - split; [by left|]. intros Hfin Hfl. apply law_finished in Hfin. rewrite Hfl in Hfin. cbn in Hfin. congruence.
Qed.

End laws.

(** ** The fences of [lorie/xshmfence.c] *)

Definition flag_of (f : xshmfence) : bool :=
  match f with Futex s => signalled (fence s) | Pthread s => signalled (fence s) end.
Definition trace_of (f : xshmfence) : list (nat * event) :=
  match f with Futex s => trace s | Pthread s => trace s end.

(** The operation of every thread, whether it has returned, and whether it was interrupted. *)
Definition places (f : xshmfence) : list (op * bool * bool) :=
  match f with
  | Futex s => (fun p => (does p, finished p, failed p)) <$> threads s
  | Pthread s => (fun p => (does p, finished p, failed p)) <$> threads s
  end.

(** A trigger that has set the flag is about to wake the sleepers. *)
Definition waking (f : xshmfence) : bool :=
  match f with Futex s => existsb waker (threads s) | Pthread s => existsb waker (threads s) end.

(** A fence with a memory that the operations know, untouched, and the threads that will use it. *)
Definition fresh_fence (b : bool) (ops : list op) (f : xshmfence) : Prop :=
  match f with
  | Futex s => valid (fence s) = true /\ signalled (fence s) = b /\ threads s = start <$> ops /\ trace s = []
  | Pthread s => signalled (fence s) = b /\ threads s = start <$> ops /\ trace s = []
  end.

Definition run_fence (ls : list label) (f : xshmfence) : xshmfence := foldl (fun f l => xshmfence_exec l f) f ls.

Lemma run_futex ls s : run_fence ls (Futex s) = Futex (run ls s).
Proof. revert s. induction ls as [|l ls IH]; intros s; [done|]. apply IH. Qed.

Lemma run_pthread ls s : run_fence ls (Pthread s) = Pthread (run ls s).
Proof. revert s. induction ls as [|l ls IH]; intros s; [done|]. apply IH. Qed.

(** C22: both implementations of a fence are a flag: under every schedule, with sleeps
    that end without a reason and signals, the operations take effect one after another at
    moments between their calls and their returns: a trigger sets the flag, a reset clears
    it, a query answers it, and an await takes effect only while it is set; every operation
    takes effect at most once, and exactly once when it returns success. *)
Theorem fence_linearizes b ops f ls :
  fresh_fence b ops f ->
  flag_run (trace_of (run_fence ls f)) b = Some (flag_of (run_fence ls f)) /\
  forall i o fin fl, places (run_fence ls f) !! i = Some (o, fin, fl) ->
    ops !! i = Some o /\
    (events_of i (trace_of (run_fence ls f)) = [] \/
     exists e, events_of i (trace_of (run_fence ls f)) = [e] /\ op_of e = o) /\
    (fin = true -> fl = false -> events_of i (trace_of (run_fence ls f)) <> []).
Proof.
  intros Hf. destruct f as [s|s]; [rewrite run_futex; destruct Hf as (? & ? & ? & ?)|rewrite run_pthread; destruct Hf as (? & ? & ?)];
    (assert (sys_ok b ops (run ls s)) as Hs by (apply fence_run_ok; by apply fresh_sys));
    (split; [apply (sys_flag _ _ _ Hs)|intros i o fin fl; by apply (sys_places_spec b)]).
Qed.

(** No wake-up is lost: once a fence is triggered, whatever happened before, and no
    trigger is on its way to the sleepers, nobody sleeps: every thread returns after three
    steps of its own, in every schedule, unless somebody resets the fence. *)
Theorem triggered_awaits_return b ops f ls1 ls2 :
  fresh_fence b ops f -> Reset ∉ ops -> flag_of (run_fence ls1 f) = true -> waking (run_fence ls1 f) = false ->
  (forall i, (i < length ops)%nat -> (3 <= count_occ Nat.eq_dec ls2 i)%nat) ->
  Forall (fun x => x.1.2 = true) (places (run_fence (Step <$> ls2) (run_fence ls1 f))).
Proof.
  intros Hf Hr. destruct f as [s|s]; [rewrite run_futex, run_futex; destruct Hf as (? & ? & ? & ?)|
                                      rewrite run_pthread, run_pthread; destruct Hf as (? & ? & ?)];
    (assert (sys_ok b ops (run ls1 s)) as Hs by (apply fence_run_ok; by apply fresh_sys)); cbn [flag_of waking places]; intros Hfl Hw Hc;
    apply Forall_fmap; (eapply Forall_impl; [apply (triggered_finishes b ops _ ls2 Hs Hfl Hr); [|done]|done]);
    apply Forall_forall; intros p Hp; (destruct (waker p) eqn:E; [|done]);
    (rewrite <- not_true_iff_false in Hw; destruct Hw; apply existsb_exists; exists p; split; [by apply list_elem_of_In|done]).
Qed.

(** Thread 0 awaits and sleeps, thread 1 triggers, thread 2 asks. *)
Definition demo_ops : list op := [Await; Trigger; Query].
Definition demo_fence : xshmfence := Futex {| fence := 0; threads := start <$> demo_ops; trace := [] |}.
Definition demo_schedule : list label := [Step 0; Step 0; Step 1; Step 2; Step 1; Step 1]%nat.

Lemma fence_linearizes_witness :
  flag_run (trace_of (run_fence demo_schedule demo_fence)) false = Some (flag_of (run_fence demo_schedule demo_fence)) /\
  forall i o fin fl, places (run_fence demo_schedule demo_fence) !! i = Some (o, fin, fl) ->
    demo_ops !! i = Some o /\
    (events_of i (trace_of (run_fence demo_schedule demo_fence)) = [] \/
     exists e, events_of i (trace_of (run_fence demo_schedule demo_fence)) = [e] /\ op_of e = o) /\
    (fin = true -> fl = false -> events_of i (trace_of (run_fence demo_schedule demo_fence)) <> []).
Proof. by apply (fence_linearizes false demo_ops demo_fence demo_schedule). Defined.

Example demo_fence_trace :
  trace_of (run_fence (demo_schedule ++ [Step 0%nat]) demo_fence) = [(2%nat, DidQuery false); (1%nat, DidTrigger); (0%nat, DidAwait)].
Proof. reflexivity. Qed.

Lemma triggered_awaits_return_witness :
  Forall (fun x => x.1.2 = true)
    (places (run_fence (Step <$> [0; 1; 2; 0; 1; 2; 2; 1; 0]%nat) (run_fence demo_schedule demo_fence))).
Proof.
  apply (triggered_awaits_return false demo_ops demo_fence); try done.
  - intros H. by repeat (apply elem_of_cons in H as [H|H]; [done|]); apply elem_of_nil in H.
  - intros i Hi. cbn in Hi. destruct i as [|[|[|i]]]; cbn; lia.
Defined.

(** ** Mapping a client's fence ([xshmfence_alloc.c], [xserver/miext/sync/misyncshm.c]) *)

Inductive fence_resource := HStruct (p : Z) | HMap (p : Z) | HFd (fd : Z).

#[export] Instance fence_resource_eq_dec : EqDecision fence_resource.
Proof. solve_decision. Defined.

(** What [calloc], [fstat], [mmap] and [fcntl] answer; 0 for NULL and for [MAP_FAILED]. *)
Record FenceEnv := { calloc_at : Z; st_size : Z; mmap_at : Z; dup_fd : Z }.

Record mapped_fence := { fence_struct : Z; is_futex : bool; real : Z }.

(** [xshmfence_map_shm] of either library closes the descriptor when it cannot be mapped. *)
Definition map_shm_real (e : FenceEnv) (fd : Z) (l : list fence_resource) : option (Z * list fence_resource) :=
  if mmap_at e =? 0 then l ← give_back (HFd fd) l; Some (0, l) else Some (mmap_at e, HMap (mmap_at e) :: l).

Definition xshmfence_map_shm (e : FenceEnv) (fd : Z) (l : list fence_resource)
  : option (option mapped_fence * list fence_resource) :=
  if calloc_at e =? 0 then Some (None, l)
  else
    r ← map_shm_real e fd (HStruct (calloc_at e) :: l);
    let '(real, l) := r in
    if real =? 0 then l ← give_back (HStruct (calloc_at e)) l; Some (None, l)
    else Some (Some {| fence_struct := calloc_at e; is_futex := st_size e =? 4; real := real |}, l).

Definition xshmfence_unmap_shm (f : mapped_fence) (l : list fence_resource) : option (list fence_resource) :=
  l ← give_back (HMap (real f)) l; give_back (HStruct (fence_struct f)) l.

(** [os_move_fd] moves a descriptor above those of the clients. *)
Definition os_move_fd (e : FenceEnv) (fd : Z) (l : list fence_resource) : option (Z * list fence_resource) :=
  if dup_fd e <? 0 then Some (fd, l)
  else l ← give_back (HFd fd) (HFd (dup_fd e) :: l); Some (dup_fd e, l).

Definition Success : Z := 0.
Definition BadValue : Z := 2.

(** The fence's private: the fence and its descriptor. *)
Definition miSyncShmCreateFenceFromFd (e : FenceEnv) (fd : Z) (l : list fence_resource)
  : option (Z * option (mapped_fence * Z) * list fence_resource) :=
  r ← os_move_fd e fd l;
  let '(fd, l) := r in
  r ← xshmfence_map_shm e fd l;
  match r with
  | (Some f, l) => Some (Success, Some (f, fd), l)
  | (None, l) => l ← give_back (HFd fd) l; Some (BadValue, None, l)
  end.

(** The trigger of a fence that is destroyed is left out here. *)
Definition miSyncShmScreenDestroyFence (p : option (mapped_fence * Z)) (l : list fence_resource) : option (list fence_resource) :=
  match p with
  | Some (f, fd) => l ← xshmfence_unmap_shm f l; give_back (HFd fd) l
  | None => Some l
  end.

Lemma os_move_fd_ok e fd rest l :
  l ≡ₚ HFd fd :: rest -> exists fd' l', os_move_fd e fd l = Some (fd', l') /\ l' ≡ₚ HFd fd' :: rest.
Proof.
  intros Hl. unfold os_move_fd. destruct (dup_fd e <? 0); [eauto|].
  destruct (give_back_perm (HFd fd) (HFd (dup_fd e) :: l) (HFd (dup_fd e) :: rest)) as (l' & -> & Hl').
  { rewrite Hl. apply Permutation_swap. }
  cbn. eauto.
Qed.

(** A fence that a client sends takes the client's descriptor: it is mapped and given
    back with the fence, or closed when there is no memory for the fence. *)
Theorem fence_from_fd_accounts e fd rest l :
  l ≡ₚ HFd fd :: rest -> mmap_at e <> 0 ->
  exists status p l', miSyncShmCreateFenceFromFd e fd l = Some (status, p, l') /\
    (status = Success <-> is_Some p) /\ (calloc_at e <> 0 -> status = Success) /\
    exists l'', miSyncShmScreenDestroyFence p l' = Some l'' /\ l'' ≡ₚ rest.
Proof.
  intros Hl Hm. unfold miSyncShmCreateFenceFromFd. destruct (os_move_fd_ok e fd rest l Hl) as (fd' & l1 & -> & H1).
  cbn [mbind option_bind]. unfold xshmfence_map_shm, map_shm_real. destruct (Z.eqb_spec (calloc_at e) 0) as [Ec|Ec]; cbn [mbind option_bind].
  - destruct (give_back_perm _ _ _ H1) as (l2 & -> & H2). cbn [mbind option_bind].
    eexists BadValue, None, l2. split; [done|]. split; [split; [done|by intros [? ?]]|]. split; [done|]. by exists l2.
  - rewrite (proj2 (Z.eqb_neq (mmap_at e) 0)) by done. cbn [mbind option_bind]. rewrite (proj2 (Z.eqb_neq (mmap_at e) 0)) by done.
    cbn [mbind option_bind].
    eexists Success, _, _. split; [reflexivity|]. split; [by split; eauto|]. split; [done|].
    cbn [miSyncShmScreenDestroyFence]. unfold xshmfence_unmap_shm. cbn [real fence_struct]. rewrite give_back_hd. cbn [mbind option_bind].
    rewrite give_back_hd. cbn [mbind option_bind]. by apply give_back_perm.
Qed.

Lemma fence_from_fd_accounts_witness :
  exists status p l', miSyncShmCreateFenceFromFd {| calloc_at := 1000; st_size := 4; mmap_at := 2000; dup_fd := 300 |} 7 [HFd 7; HFd 3] =
      Some (status, p, l') /\
    (status = Success <-> is_Some p) /\ (1000 <> 0 -> status = Success) /\
    exists l'', miSyncShmScreenDestroyFence p l' = Some l'' /\ l'' ≡ₚ [HFd 3].
Proof. by apply (fence_from_fd_accounts {| calloc_at := 1000; st_size := 4; mmap_at := 2000; dup_fd := 300 |}). Defined.

(** When the memory cannot be mapped, the descriptor is closed twice. *)
Lemma failed_map_closes_twice e fd rest l :
  l ≡ₚ HFd fd :: rest -> mmap_at e = 0 -> calloc_at e <> 0 -> dup_fd e < 0 -> HFd fd ∉ rest ->
  miSyncShmCreateFenceFromFd e fd l = None.
Proof.
  intros Hl Hm Hc Hd Hn. unfold miSyncShmCreateFenceFromFd, os_move_fd. rewrite (proj2 (Z.ltb_lt _ _)) by done. cbn [mbind option_bind].
  unfold xshmfence_map_shm, map_shm_real. rewrite (proj2 (Z.eqb_neq (calloc_at e) 0)), Hm by done. cbn [Z.eqb].
  destruct (give_back_perm (HFd fd) (HStruct (calloc_at e) :: l) (HStruct (calloc_at e) :: rest)) as (l1 & -> & H1).
  { rewrite Hl. apply Permutation_swap. }
  cbn [mbind option_bind Z.eqb]. destruct (give_back_perm _ _ _ H1) as (l2 & -> & H2). cbn [mbind option_bind].
  assert (HFd fd ∉ l2) as Hn2 by (by rewrite H2). clear - Hn2.
  assert (give_back (HFd fd) l2 = None) as ->; [|done].
  induction l2 as [|x l2 IH]; [done|]. apply not_elem_of_cons in Hn2 as [Hx Hn2]. cbn [give_back].
  rewrite decide_False by congruence. by rewrite IH.
Qed.
