(* ===== verification/Renderer.v ===== *)
(** * The renderer of the activity ([lorie/renderer.c])

    The renderer thread draws the screen of the X server into the window of the activity.
    The main thread gives it the state that it shares with the server, the window and the
    buffers; the setters return only after the renderer has applied the change. Two locks
    are used: [stateLock], which the renderer holds from its wake-up to the end of the
    changes, and [bufferLock] around every use of the lists of buffers. Every critical
    section is a step here, and the points between two sections are program counters, so
    that the steps of the threads interleave as in the program.

    The calls of EGL, of the window and of the kernel are arguments ([EglEnv]); their
    results are recorded in a ledger of what is held. The pixels are left out, and so is
    the thread that forwards the condition variable of the server to [stateCond]: a server
    that signals does it here directly. A renderer that makes this thread listen to another
    state waits until it does; whether it has is an argument too ([relocked]). [RendererThreads] has the theorems on the progress of
    the threads. *)

From S2P Require Import Prelude.

(** ** Data *)

(** The part of [lorie_shared_server_state] that the renderer looks at. *)
Record Shared := {
  rootWindowTextureID : Z; drawRequested : bool; cursor_moved : bool; cursor_updated : bool;
  waitForNextFrame : bool; surfaceAvailable : bool; renderedFrames : Z;
}.

Definition set_surfaceAvailable (b : bool) (m : Shared) : Shared :=
  {| rootWindowTextureID := rootWindowTextureID m; drawRequested := drawRequested m; cursor_moved := cursor_moved m;
     cursor_updated := cursor_updated m; waitForNextFrame := waitForNextFrame m; surfaceAvailable := b;
     renderedFrames := renderedFrames m |}.
(** After a change of the surface: [surfaceAvailable], [drawRequested] and [cursor.updated]. *)
Definition set_surface (b : bool) (m : Shared) : Shared :=
  {| rootWindowTextureID := rootWindowTextureID m; drawRequested := b; cursor_moved := cursor_moved m;
     cursor_updated := b; waitForNextFrame := waitForNextFrame m; surfaceAvailable := b;
     renderedFrames := renderedFrames m |}.
Definition frame_drawn (m : Shared) : Shared :=
  {| rootWindowTextureID := rootWindowTextureID m; drawRequested := false; cursor_moved := false;
     cursor_updated := false; waitForNextFrame := true; surfaceAvailable := surfaceAvailable m;
     renderedFrames := renderedFrames m + 1 |}.

Definition damaged (m : Shared) : bool := drawRequested m || cursor_moved m || cursor_updated m.

(** The shared state: pointers are addresses, 0 for NULL; [mapped] is the memory behind them. *)
Record States := { state : Z; pendingState : Z; stateChanged : bool; mapped : gmap Z Shared }.

Definition update_state (f : Shared -> Shared) (s : States) : option States :=
  if state s =? 0 then Some s
  else
    m ← mapped s !! state s;
    Some {| state := state s; pendingState := pendingState s; stateChanged := stateChanged s;
            mapped := <[state s := f m]> (mapped s) |}.

(** What the ledger holds: references on windows, and surfaces. *)
Inductive held := HWindow (w : Z) | HSurface (s : Z).

#[export] Instance held_eq_dec : EqDecision held.
Proof. solve_decision. Defined.

Record Windows := {
  win : Z; sfc : Z; current : Z; pendingWin : Z; windowChanged : bool; defaultWin : Z; defaultSfc : Z; ledger : list held;
}.

(** The answers of EGL and of the window during one refresh, and whether the forwarding
    thread has gone over to the new state. *)
Record EglEnv := {
  width : Z; height : Z;            (* of the pending window *)
  create : Z;                       (* eglCreateWindowSurface, 0 for EGL_NO_SURFACE *)
  make_current : bool;              (* eglMakeCurrent of the new surface *)
  make_default : bool;              (* eglMakeCurrent of the default one *)
  destroy : bool;                   (* eglDestroySurface *)
  relocked : bool;                  (* pthreadCondVarProxyListenOtherCondVar returns *)
}.

(** The lists of buffers, first to last, and the identifier and the reference count of the
    live buffers by address. The count is the one that the sender wrote. *)
Record Buffers := { addedBuffers : list Z; buffers : list Z; removedBuffers : list Z; live : gmap Z (Z * Z) }.

(** Where the renderer thread is. *)
Inductive pc :=
  | Check                    (* at the call of rendererShouldWait *)
  | Decide (changed : bool)  (* behind its look at the lists *)
  | Sleep                    (* before pthread_cond_wait *)
  | Waiting                  (* in pthread_cond_wait *)
  | Woken                    (* behind it, without the lock *)
  | Apply                    (* behind the loop *)
  | Draw                     (* behind the unlock *)
  | Find                     (* at the call of rendererRedrawLocked *)
  | Drawing (p : Z)          (* behind its look at the lists *)
  | Release                  (* before the last section *)
  | Relock.                  (* before pthread_mutex_lock *)

#[export] Instance pc_eq_dec : EqDecision pc.
Proof. solve_decision. Defined.

(** The call of the main thread that waits for [stateChanged] or [windowChanged]. *)
Inductive setter := KState | KWindow.

Inductive main_pc := MIdle | MWait (k : setter) | MWoken (k : setter).

(** [locked]: the renderer holds [stateLock]; [frames] are the buffers drawn and the
    surfaces they were drawn to, latest first. *)
Record Control := {
  at_ : pc; main : main_pc; locked : bool; waitingForBuffers : bool; lastRequestedBufferId : Z; frames : list (Z * Z);
}.

Record Renderer := { st : States; wn : Windows; bf : Buffers; ct : Control }.

Definition goto (p : pc) (c : Control) : Control :=
  {| at_ := p; main := main c; locked := locked c; waitingForBuffers := waitingForBuffers c;
     lastRequestedBufferId := lastRequestedBufferId c; frames := frames c |}.
Definition set_main (m : main_pc) (c : Control) : Control :=
  {| at_ := at_ c; main := m; locked := locked c; waitingForBuffers := waitingForBuffers c;
     lastRequestedBufferId := lastRequestedBufferId c; frames := frames c |}.
Definition set_locked (b : bool) (c : Control) : Control :=
  {| at_ := at_ c; main := main c; locked := b; waitingForBuffers := waitingForBuffers c;
     lastRequestedBufferId := lastRequestedBufferId c; frames := frames c |}.
Definition set_waiting (b : bool) (c : Control) : Control :=
  {| at_ := at_ c; main := main c; locked := locked c; waitingForBuffers := b;
     lastRequestedBufferId := lastRequestedBufferId c; frames := frames c |}.

(** [pthread_cond_signal] of both condition variables: each has one thread that may wait. *)
Definition signal_stateCond (c : Control) : Control := if decide (at_ c = Waiting) then goto Woken c else c.
Definition signal_stateChangeFinishCond (c : Control) : Control :=
  match main c with MWait k => set_main (MWoken k) c | _ => c end.

Definition with_control (f : Control -> Control) (r : Renderer) : Renderer :=
  {| st := st r; wn := wn r; bf := bf r; ct := f (ct r) |}.

(** ** The setters *)

(** Both setters up to their wait; they take [stateLock], so the caller checks it. *)
Definition rendererSetSharedState (newState : Z) (r : Renderer) : Renderer :=
  {| st := {| state := state (st r); pendingState := newState; stateChanged := true; mapped := mapped (st r) |};
     wn := wn r; bf := bf r; ct := set_main (MWait KState) (signal_stateCond (ct r)) |}.

Definition release_window (w : Z) (l : list held) : option (list held) := give_back (HWindow w) l.

Definition set_pending (w : Z) (l : list held) (v : Windows) : Windows :=
  {| win := win v; sfc := sfc v; current := current v; pendingWin := w; windowChanged := true;
     defaultWin := defaultWin v; defaultSfc := defaultSfc v; ledger := l |}.
Definition set_window_ledger (l : list held) (v : Windows) : Windows :=
  {| win := win v; sfc := sfc v; current := current v; pendingWin := pendingWin v; windowChanged := windowChanged v;
     defaultWin := defaultWin v; defaultSfc := defaultSfc v; ledger := l |}.

(** The reference of the caller on [newWin] is in the ledger. *)
Definition rendererSetWindow (newWin : Z) (r : Renderer) : option Renderer :=
  let v := wn r in
  if negb (newWin =? 0) && (pendingWin v =? newWin) then
    l ← release_window newWin (ledger v);
    Some {| st := st r; wn := set_window_ledger l v; bf := bf r; ct := ct r |}
  else
    l ← (if negb (pendingWin v =? 0) then release_window (pendingWin v) (ledger v) else Some (ledger v));
    Some {| st := st r; wn := set_pending newWin l v; bf := bf r; ct := set_main (MWait KWindow) (signal_stateCond (ct r)) |}.

(** The loop [while(stateChanged)] or [while(windowChanged)] of a setter that is awake. *)
Definition setter_loop (k : setter) (r : Renderer) : Renderer :=
  let changed := match k with KState => stateChanged (st r) | KWindow => windowChanged (wn r) end in
  with_control (set_main (if changed : bool then MWait k else MIdle)) r.

(** ** The buffers *)

(** [LorieBufferList_findById]; [LorieBuffer_addToList] puts at the front. *)
Definition findById (id : Z) (l : list Z) (m : gmap Z (Z * Z)) : option Z :=
  find (fun p => bool_decide (fst <$> m !! p = Some id)) l.

Definition unlink (p : Z) (l : list Z) : list Z := filter (fun q => q <> p) l.

(** [LorieBuffer_release]: the last reference is the end of the buffer. *)
Definition release_buffer (p : Z) (b : Buffers) : option Buffers :=
  x ← live b !! p;
  Some (if snd x =? 1 then
          {| addedBuffers := unlink p (addedBuffers b); buffers := unlink p (buffers b);
             removedBuffers := unlink p (removedBuffers b); live := delete p (live b) |}
        else
          {| addedBuffers := addedBuffers b; buffers := buffers b; removedBuffers := removedBuffers b;
             live := <[p := (fst x, snd x - 1)]> (live b) |}).

Definition rendererAddBuffer (p : Z) (r : Renderer) : Renderer :=
  let b := bf r in
  {| st := st r; wn := wn r;
     bf := {| addedBuffers := p :: unlink p (addedBuffers b); buffers := unlink p (buffers b);
              removedBuffers := unlink p (removedBuffers b); live := live b |};
     ct := signal_stateCond (ct r) |}.

Definition to_removed (p : Z) (b : Buffers) : Buffers :=
  {| addedBuffers := addedBuffers b; buffers := unlink p (buffers b);
     removedBuffers := p :: removedBuffers b; live := live b |}.

Definition rendererRemoveBuffer (id : Z) (b : Buffers) : option Buffers :=
  match findById id (addedBuffers b) (live b) with
  | Some p => release_buffer p b
  | None =>
      match findById id (buffers b) (live b) with
      | Some p => Some (to_removed p b)
      | None => Some b
      end
  end.

(** The references on the buffers of a list: the rounds that releasing them takes. *)
Definition references (l : list Z) (m : gmap Z (Z * Z)) : nat :=
  sum_list_with (fun p => match m !! p with Some x => Z.to_nat (snd x) | None => 0%nat end) l.

(** The loops take the first buffer until there is none. *)
Fixpoint release_added (fuel : nat) (b : Buffers) : option Buffers :=
  match addedBuffers b with
  | [] => Some b
  | p :: _ => match fuel with O => None | S fuel => b ← release_buffer p b; release_added fuel b end
  end.

Fixpoint remove_attached (fuel : nat) (b : Buffers) : option Buffers :=
  match buffers b with
  | [] => Some b
  | p :: _ => match fuel with O => None | S fuel => remove_attached fuel (to_removed p b) end
  end.

Definition rendererRemoveAllBuffers (b : Buffers) : option Buffers :=
  b ← release_added (references (addedBuffers b) (live b)) b;
  remove_attached (length (buffers b)) b.

(** The loops of the renderer thread. *)
Fixpoint attach_added (fuel : nat) (b : Buffers) : option Buffers :=
  match addedBuffers b with
  | [] => Some b
  | p :: l =>
      match fuel with
      | O => None
      | S fuel =>
          attach_added fuel {| addedBuffers := l; buffers := p :: buffers b; removedBuffers := removedBuffers b; live := live b |}
      end
  end.

Fixpoint release_removed (fuel : nat) (b : Buffers) : option Buffers :=
  match removedBuffers b with
  | [] => Some b
  | p :: _ => match fuel with O => None | S fuel => b ← release_buffer p b; release_removed fuel b end
  end.

(** ** The window *)

Definition set_win (w s c : Z) (l : list held) (v : Windows) : Windows :=
  {| win := w; sfc := s; current := c; pendingWin := pendingWin v; windowChanged := windowChanged v;
     defaultWin := defaultWin v; defaultSfc := defaultSfc v; ledger := l |}.

(** [releaseWinAndSurface(&win, &sfc)]: the surface, unless EGL refuses, and then the window. *)
Definition releaseWinAndSurface (e : EglEnv) (v : Windows) : option Windows :=
  let window (v : Windows) :=
    if negb (win v =? 0) && negb (win v =? defaultWin v) then
      l ← release_window (win v) (ledger v); Some (set_win (defaultWin v) (sfc v) (current v) l v)
    else Some v in
  if negb (sfc v =? 0) && negb (sfc v =? defaultSfc v) then
    if negb (make_default e) then Some v
    else if negb (destroy e) then Some (set_win (win v) (sfc v) (defaultSfc v) (ledger v) v)
    else
      l ← give_back (HSurface (sfc v)) (ledger v);
      window (set_win (win v) (defaultSfc v) (defaultSfc v) l v)
  else window v.

(** [releaseWinAndSurface(&pendingWin, NULL)]. *)
Definition releasePendingWin (v : Windows) : option Windows :=
  if negb (pendingWin v =? 0) && negb (pendingWin v =? defaultWin v) then
    l ← release_window (pendingWin v) (ledger v);
    Some {| win := win v; sfc := sfc v; current := current v; pendingWin := defaultWin v; windowChanged := windowChanged v;
            defaultWin := defaultWin v; defaultSfc := defaultSfc v; ledger := l |}
  else Some v.

(** [win = pendingWin; pendingWin = NULL; windowChanged = FALSE]. *)
Definition take_pending (v : Windows) : Windows :=
  {| win := pendingWin v; sfc := sfc v; current := current v; pendingWin := 0; windowChanged := false;
     defaultWin := defaultWin v; defaultSfc := defaultSfc v; ledger := ledger v |}.

Definition rendererRefreshContext (e : EglEnv) (s : States) (v : Windows) : option (States * Windows) :=
  let '(w, h) := if negb (pendingWin v =? 0) then (width e, height e) else (0, 0) in
  v ← releaseWinAndSurface e v;
  v ← (if negb (pendingWin v =? 0) && ((w <=? 0) || (h <=? 0)) then releasePendingWin v else Some v);
  let v := take_pending v in
  if win v =? 0 then
    let v := set_win (defaultWin v) (sfc v) (if make_default e then defaultSfc v else current v) (ledger v) v in
    s ← update_state (set_surfaceAvailable false) s;
    Some (s, v)
  else if create e =? 0 then Some (s, set_win (win v) 0 (current v) (ledger v) v)
  else
    let v := set_win (win v) (create e) (current v) (HSurface (create e) :: ledger v) v in
    if negb (make_current e) then
      s ← update_state (set_surfaceAvailable false) s;
      Some (s, v)
    else
      let v := set_win (win v) (sfc v) (sfc v) (ledger v) v in
      s ← update_state (set_surface (negb (win v =? defaultWin v))) s;
      Some (s, v).

(** ** The renderer thread *)

(** [buffersChanged] is read before, under [bufferLock]. *)
Definition rendererShouldWait (buffersChanged : bool) (r : Renderer) : option (bool * Renderer) :=
  let s := st r in
  if stateChanged s || windowChanged (wn r) || buffersChanged then Some (false, r)
  else if state s =? 0 then Some (true, r)
  else
    m ← mapped s !! state s;
    let c := ct r in
    let c := {| at_ := at_ c; main := main c; locked := locked c;
                waitingForBuffers := if lastRequestedBufferId c =? rootWindowTextureID m then waitingForBuffers c else false;
                lastRequestedBufferId := rootWindowTextureID m; frames := frames c |} in
    let r := {| st := s; wn := wn r; bf := bf r; ct := c |} in
    if negb (surfaceAvailable m) || waitForNextFrame m || waitingForBuffers c then Some (true, r)
    else Some (negb (damaged m), r).

(** The state that was replaced is unmapped. *)
Definition unmap (p : Z) (m : gmap Z Shared) : option (gmap Z Shared) :=
  if p =? 0 then Some m else _ ← m !! p; Some (delete p m).

(** [None] inside while [pthreadCondVarProxyListenOtherCondVar] blocks; the change is made
    when it returns. *)
Definition apply_state (e : EglEnv) (r : Renderer) : option (option Renderer) :=
  let s := st r in
  if stateChanged s then
    if negb (relocked e) then Some None
    else
    let oldState := if negb (state s =? 0) && negb (pendingState s =? state s) then state s else 0 in
    let s := {| state := pendingState s; pendingState := 0; stateChanged := false; mapped := mapped s |} in
    s ← update_state (set_surfaceAvailable (negb (win (wn r) =? defaultWin (wn r)))) s;
    m ← unmap oldState (mapped s);
    Some (Some {| st := {| state := state s; pendingState := pendingState s; stateChanged := stateChanged s; mapped := m |};
                  wn := wn r; bf := bf r; ct := set_waiting false (ct r) |})
  else Some (Some r).

Definition apply_window (e : EglEnv) (r : Renderer) : option Renderer :=
  if windowChanged (wn r) then
    x ← rendererRefreshContext e (st r) (wn r);
    Some {| st := fst x; wn := snd x; bf := bf r; ct := ct r |}
  else Some r.

Definition apply_buffers (r : Renderer) : option Renderer :=
  b ← attach_added (length (addedBuffers (bf r))) (bf r);
  Some {| st := st r; wn := wn r; bf := b;
          ct := if decide (addedBuffers (bf r) = []) then ct r else set_waiting false (ct r) |}.

(** The body of the thread's loop from the changes to the unlock; a thread that is blocked
    stays where it is. *)
Definition apply_changes (e : EglEnv) (r : Renderer) : option Renderer :=
  x ← apply_state e r;
  match x with
  | None => Some r
  | Some r =>
      r ← apply_window e r;
      r ← apply_buffers r;
      Some (with_control (fun c => goto Draw (set_locked false (signal_stateChangeFinishCond c))) r)
  end.

Definition should_draw (m : Shared) : bool := surfaceAvailable m && negb (waitForNextFrame m) && damaged m.

(** [rendererRedrawLocked] up to the end of its section with [bufferLock]. *)
Definition redraw_find (r : Renderer) : option Renderer :=
  m ← mapped (st r) !! state (st r);
  let b := bf r in
  let found := match findById (rootWindowTextureID m) (buffers b) (live b) with
               | Some p => Some p
               | None => findById (rootWindowTextureID m) (removedBuffers b) (live b)
               end in
  Some (with_control (match found with
                      | Some p => goto (Drawing p)
                      | None => fun c => goto Release (set_waiting true c)
                      end) r).

(** The rest of it: the buffer is used, and the state's mutex is held meanwhile. *)
Definition redraw_frame (p : Z) (r : Renderer) : option Renderer :=
  _ ← live (bf r) !! p;
  s ← update_state frame_drawn (st r);
  let c := ct r in
  Some {| st := s; wn := wn r; bf := bf r;
          ct := {| at_ := Release; main := main c; locked := locked c; waitingForBuffers := waitingForBuffers c;
                   lastRequestedBufferId := lastRequestedBufferId c; frames := (p, sfc (wn r)) :: frames c |} |}.

Definition unused (b : Buffers) : bool := bool_decide (addedBuffers b = []) && bool_decide (removedBuffers b = []).

(** [rendererThread], from one program counter to the next. A thread that waits for a
    signal or for the lock stays where it is. *)
Definition rendererThread (e : EglEnv) (r : Renderer) : option Renderer :=
  match at_ (ct r) with
  | Check => Some (with_control (goto (Decide (negb (unused (bf r))))) r)
  | Decide changed =>
      x ← rendererShouldWait changed r;
      Some (with_control (goto (if fst x : bool then Sleep else Apply)) (snd x))
  | Sleep => Some (with_control (fun c => goto Waiting (set_locked false c)) r)
  | Waiting => Some r
  | Woken | Relock => if locked (ct r) then Some r else Some (with_control (fun c => goto Check (set_locked true c)) r)
  | Apply => apply_changes e r
  | Draw =>
      if state (st r) =? 0 then Some (with_control (goto Release) r)
      else
        m ← mapped (st r) !! state (st r);
        Some (with_control (goto (if should_draw m then Find else Release)) r)
  | Find => redraw_find r
  | Drawing p => redraw_frame p r
  | Release =>
      b ← release_removed (references (removedBuffers (bf r)) (live (bf r))) (bf r);
      Some {| st := st r; wn := wn r; bf := b; ct := goto Relock (ct r) |}
  end.

(** ** The threads together *)

Inductive label :=
  | SetState (p : Z) (m : Shared)      (* a state that was just mapped, or NULL *)
  | SetWindow (w : Z)                  (* a window with a reference, or NULL *)
  | AddBuffer (p id n : Z)             (* a buffer that was just received with this count *)
  | RemoveBuffer (id : Z)
  | RemoveAllBuffers
  | MainWakes                          (* also without a reason *)
  | RendererWakes
  | Render (e : EglEnv)
  | ServerWrites (p : Z) (m : Shared) (signals : bool).

Definition main_idle (r : Renderer) : bool := match main (ct r) with MIdle => true | _ => false end.

Definition map_state (p : Z) (m : Shared) (r : Renderer) : Renderer :=
  {| st := {| state := state (st r); pendingState := pendingState (st r); stateChanged := stateChanged (st r);
              mapped := if p =? 0 then mapped (st r) else <[p := m]> (mapped (st r)) |};
     wn := wn r; bf := bf r; ct := ct r |}.
Definition hold_window (w : Z) (r : Renderer) : Renderer :=
  {| st := st r; wn := set_window_ledger (if w =? 0 then ledger (wn r) else HWindow w :: ledger (wn r)) (wn r);
     bf := bf r; ct := ct r |}.
Definition receive_buffer (p id n : Z) (r : Renderer) : Renderer :=
  {| st := st r; wn := wn r;
     bf := {| addedBuffers := addedBuffers (bf r); buffers := buffers (bf r); removedBuffers := removedBuffers (bf r);
              live := <[p := (id, n)]> (live (bf r)) |};
     ct := ct r |}.
Definition with_buffers (b : Buffers) (r : Renderer) : Renderer :=
  {| st := st r; wn := wn r; bf := b; ct := ct r |}.

(** What the server writes: everything but [surfaceAvailable]. *)
Definition server_writes (p : Z) (m : Shared) (r : Renderer) : Renderer :=
  match mapped (st r) !! p with
  | Some old =>
      {| st := {| state := state (st r); pendingState := pendingState (st r); stateChanged := stateChanged (st r);
                  mapped := <[p := set_surfaceAvailable (surfaceAvailable old) m]> (mapped (st r)) |};
         wn := wn r; bf := bf r; ct := ct r |}
  | None => r
  end.

(** A step that its thread cannot make now changes nothing; the main thread makes its calls
    one by one. *)
Definition exec (l : label) (r : Renderer) : option Renderer :=
  match l with
  | SetState p m => if main_idle r && negb (locked (ct r)) then Some (rendererSetSharedState p (map_state p m r)) else Some r
  | SetWindow w => if main_idle r && negb (locked (ct r)) then rendererSetWindow w (hold_window w r) else Some r
  | AddBuffer p id n => if main_idle r then Some (rendererAddBuffer p (receive_buffer p id n r)) else Some r
  | RemoveBuffer id => if main_idle r then b ← rendererRemoveBuffer id (bf r); Some (with_buffers b r) else Some r
  | RemoveAllBuffers => if main_idle r then b ← rendererRemoveAllBuffers (bf r); Some (with_buffers b r) else Some r
  | MainWakes =>
      match main (ct r) with
      | MIdle => Some r
      | MWait k | MWoken k => if locked (ct r) then Some r else Some (setter_loop k r)
      end
  | RendererWakes => Some (with_control signal_stateCond r)
  | Render e => rendererThread e r
  | ServerWrites p m signals =>
      let r := server_writes p m r in Some (if signals then with_control signal_stateCond r else r)
  end.

Fixpoint run (ls : list label) (r : Renderer) : option Renderer :=
  match ls with [] => Some r | l :: ls => r ← exec l r; run ls r end.

(** ** The lists of buffers *)

Definition all (b : Buffers) : list Z := addedBuffers b ++ buffers b ++ removedBuffers b.

(** Every live buffer is in one list, once, and has references. *)
Definition buffers_ok (b : Buffers) : Prop :=
  NoDup (all b) /\ (forall p, is_Some (live b !! p) <-> p ∈ all b) /\ (forall p x, live b !! p = Some x -> 1 <= snd x).

Lemma lists_ok_perm b b' : live b' = live b -> all b' ≡ₚ all b -> buffers_ok b -> buffers_ok b'.
Proof. intros El Ep (Hn & Hl & Hc). split; [by rewrite Ep|]. split; intros p; [by rewrite El, Ep|rewrite El; apply Hc]. Qed.

Lemma unlink_notin p l : p ∉ l -> unlink p l = l.
Proof.
  induction l as [|q l IH]; intros H; [done|]. apply not_elem_of_cons in H as [Hq H]. unfold unlink in *.
  rewrite filter_cons_True by auto. by rewrite IH.
Qed.

Lemma unlink_perm p l : NoDup l -> p ∈ l -> l ≡ₚ p :: unlink p l.
Proof.
  induction 1 as [|q l Hq Hn IH]; intros Hp; [by apply elem_of_nil in Hp|].
  unfold unlink in *. destruct (decide (q = p)) as [->|Hne].
  - rewrite filter_cons_False by auto. fold (unlink p l). by rewrite unlink_notin.
  - rewrite filter_cons_True by done. apply elem_of_cons in Hp as [->|Hp]; [done|].
    rewrite (IH Hp) at 1. apply Permutation_swap.
Qed.

Lemma unlink_all p b : unlink p (addedBuffers b) ++ unlink p (buffers b) ++ unlink p (removedBuffers b) = unlink p (all b).
Proof. unfold all, unlink. by rewrite !filter_app. Qed.

(** A release ends the buffer or takes one of its references. *)
Lemma release_buffer_ok p b :
  buffers_ok b -> p ∈ all b ->
  exists b' x, release_buffer p b = Some b' /\ buffers_ok b' /\ live b !! p = Some x /\ 1 <= snd x /\
    (snd x = 1 /\ addedBuffers b' = unlink p (addedBuffers b) /\ buffers b' = unlink p (buffers b) /\
       removedBuffers b' = unlink p (removedBuffers b) /\ live b' = delete p (live b) \/
     addedBuffers b' = addedBuffers b /\ buffers b' = buffers b /\ removedBuffers b' = removedBuffers b /\
       live b' = <[p := (fst x, snd x - 1)]> (live b)).
Proof.
  intros (Hn & Hl & Hc) Hp. destruct (proj2 (Hl p) Hp) as [x Hx]. pose proof (Hc p x Hx) as Hx1.
  unfold release_buffer. rewrite Hx. cbn [mbind option_bind]. destruct (Z.eqb_spec (snd x) 1) as [E|E].
  - eexists _, x. split; [reflexivity|]. split; [|split; [done|split; [done|by left]]]. unfold buffers_ok, all. cbn. rewrite unlink_all. split_and!.
    + by apply NoDup_filter.
    + intros q. unfold unlink. rewrite lookup_delete_is_Some, Hl, list_elem_of_filter.
      split; intros [? ?]; split; auto.
    + intros q y [_ Hy]%lookup_delete_Some. by apply (Hc q).
  - eexists _, x. split; [reflexivity|]. split; [|split; [done|split; [done|by right]]]. split_and!; cbn.
    + exact Hn.
    + intros q. rewrite lookup_insert_is_Some'. change (all _) with (all b). rewrite <- Hl. split; [intros [<-|?]; eauto|by right].
    + intros q y [[_ <-]|[_ Hy]]%lookup_insert_Some; [cbn; lia|by apply (Hc q)].
Qed.

Lemma references_delete p l m : p ∉ l -> references l (delete p m) = references l m.
Proof.
  intros Hp. unfold references. induction l as [|q l IH]; [done|]. apply not_elem_of_cons in Hp as [Hq Hp]. cbn.
  by rewrite lookup_delete_ne, IH.
Qed.

Lemma references_insert p x l m : p ∉ l -> references l (<[p := x]> m) = references l m.
Proof.
  intros Hp. unfold references. induction l as [|q l IH]; [done|]. apply not_elem_of_cons in Hp as [Hq Hp]. cbn.
  by rewrite lookup_insert_ne, IH.
Qed.

Lemma to_removed_ok p b : buffers_ok b -> p ∈ buffers b -> buffers_ok (to_removed p b).
Proof.
  intros H Hp. apply (lists_ok_perm b); [done| |done]. unfold all. cbn. f_equiv.
  rewrite <- Permutation_middle, app_comm_cons. f_equiv. symmetry. apply unlink_perm; [|done].
  destruct H as (Hn & _). unfold all in Hn. apply NoDup_app in Hn as (_ & _ & Hn). by apply NoDup_app in Hn as (Hn & _).
Qed.

Lemma head_unlink p l : NoDup (p :: l) -> unlink p (p :: l) = l.
Proof. intros Hn. apply NoDup_cons in Hn as [Hp _]. unfold unlink. rewrite filter_cons_False by auto. by apply unlink_notin. Qed.

Lemma buffers_ok_nodup b : buffers_ok b ->
  NoDup (addedBuffers b) /\ NoDup (buffers b) /\ NoDup (removedBuffers b) /\
  (forall p, p ∈ addedBuffers b -> (p ∉ buffers b) /\ (p ∉ removedBuffers b)) /\
  (forall p, p ∈ buffers b -> p ∉ removedBuffers b).
Proof.
  intros (Hn & _). unfold all in Hn. apply NoDup_app in Hn as (H1 & H2 & H3). apply NoDup_app in H3 as (H3 & H4 & H5).
  split_and!; try done. intros p Hp. specialize (H2 p Hp). rewrite elem_of_app in H2. tauto.
Qed.

(** The loops end: each round takes one reference. *)
Lemma release_added_ok fuel b :
  buffers_ok b -> (references (addedBuffers b) (live b) <= fuel)%nat ->
  exists b', release_added fuel b = Some b' /\ buffers_ok b' /\ addedBuffers b' = [] /\ buffers b' = buffers b /\
    removedBuffers b' = removedBuffers b.
Proof.
  revert b. induction fuel as [|fuel IH]; intros b H Hf; (destruct (addedBuffers b) as [|p l] eqn:E;
    [exists b; cbn; by rewrite E|]);
    destruct (buffers_ok_nodup b H) as (N1 & N2 & N3 & D & _); rewrite E in N1, D;
    (destruct (D p) as [D1 D2]; [by left|]);
    (destruct (release_buffer_ok p b H) as (b1 & x & Er & H1 & Hx & Hx1 & Hcase); [unfold all; rewrite E; by left|]);
    assert (references (p :: l) (live b) = (Z.to_nat (snd x) + references l (live b))%nat) as Ef
      by (unfold references; cbn; by rewrite Hx); rewrite Ef in Hf; [lia|].
  cbn [release_added]. rewrite E, Er. cbn [mbind option_bind]. destruct Hcase as [(Ex & Ea & Eb & Ed & El)|(Ea & Eb & Ed & El)].
  - rewrite E, head_unlink in Ea by done. rewrite unlink_notin in Eb, Ed by done.
    destruct (IH b1 H1) as (b' & -> & H' & Ha & Hb & Hr);
      [rewrite Ea, El, references_delete by (by apply NoDup_cons in N1 as [? _]); lia|].
    exists b'. split_and!; congruence.
  - destruct (IH b1 H1) as (b' & -> & H' & Ha & Hb & Hr); [|exists b'; split_and!; congruence].
    rewrite Ea, E, El. apply NoDup_cons in N1 as [Np _]. unfold references. cbn. rewrite lookup_insert_eq. cbn.
    fold (references l (<[p := (fst x, snd x - 1)]> (live b))). rewrite references_insert by done. lia.
Qed.

Lemma release_removed_ok fuel b :
  buffers_ok b -> (references (removedBuffers b) (live b) <= fuel)%nat ->
  exists b', release_removed fuel b = Some b' /\ buffers_ok b' /\ removedBuffers b' = [] /\
    addedBuffers b' = addedBuffers b /\ buffers b' = buffers b.
Proof.
  revert b. induction fuel as [|fuel IH]; intros b H Hf; (destruct (removedBuffers b) as [|p l] eqn:E;
    [exists b; cbn; by rewrite E|]);
    destruct (buffers_ok_nodup b H) as (N1 & N2 & N3 & D1 & D2); rewrite E in N3, D1, D2;
    assert (p ∉ addedBuffers b) as Na by (intros Hp; destruct (D1 p Hp) as [_ Hn]; apply Hn; by left);
    assert (p ∉ buffers b) as Nb by (intros Hp; apply (D2 p Hp); by left);
    (destruct (release_buffer_ok p b H) as (b1 & x & Er & H1 & Hx & Hx1 & Hcase);
      [unfold all; rewrite E, !elem_of_app; do 2 right; by left|]);
    assert (references (p :: l) (live b) = (Z.to_nat (snd x) + references l (live b))%nat) as Ef
      by (unfold references; cbn; by rewrite Hx); rewrite Ef in Hf; [lia|].
  cbn [release_removed]. rewrite E, Er. cbn [mbind option_bind]. destruct Hcase as [(Ex & Ea & Eb & Ed & El)|(Ea & Eb & Ed & El)].
  - rewrite E, head_unlink in Ed by done. rewrite unlink_notin in Ea, Eb by done.
    destruct (IH b1 H1) as (b' & -> & H' & Hr & Ha & Hb);
      [rewrite Ed, El, references_delete by (by apply NoDup_cons in N3 as [? _]); lia|].
    exists b'. split_and!; congruence.
  - destruct (IH b1 H1) as (b' & -> & H' & Hr & Ha & Hb); [|exists b'; split_and!; congruence].
    rewrite Ed, E, El. apply NoDup_cons in N3 as [Np _]. unfold references. cbn. rewrite lookup_insert_eq. cbn.
    fold (references l (<[p := (fst x, snd x - 1)]> (live b))). rewrite references_insert by done. lia.
Qed.

Lemma remove_attached_ok fuel b :
  buffers_ok b -> (length (buffers b) <= fuel)%nat ->
  exists b', remove_attached fuel b = Some b' /\ buffers_ok b' /\ addedBuffers b' = addedBuffers b /\ buffers b' = [] /\
    (forall p, p ∈ (buffers b ++ removedBuffers b) -> p ∈ removedBuffers b').
Proof.
  revert b. induction fuel as [|fuel IH]; intros b H Hf; (destruct (buffers b) as [|p l] eqn:E;
    [exists b; cbn; by rewrite E|cbn in Hf; try lia]).
  cbn [remove_attached]. rewrite E. destruct (buffers_ok_nodup b H) as (_ & N2 & _ & _ & _). rewrite E in N2.
  assert (buffers (to_removed p b) = l) as El by (cbn; rewrite E; by apply head_unlink).
  destruct (IH (to_removed p b)) as (b' & -> & H' & Ha & Hb & Hr).
  { apply to_removed_ok; [done|]. rewrite E. by left. }
  { rewrite El. cbn in Hf. lia. }
  exists b'. split_and!; try done. intros q Hq. apply Hr. rewrite El. cbn.
    rewrite elem_of_app, !elem_of_cons in *. tauto.
Qed.

Lemma attach_added_ok fuel b :
  buffers_ok b -> (length (addedBuffers b) <= fuel)%nat ->
  exists b', attach_added fuel b = Some b' /\ buffers_ok b' /\ addedBuffers b' = [] /\
    buffers b' = reverse (addedBuffers b) ++ buffers b /\ removedBuffers b' = removedBuffers b.
Proof.
  revert b. induction fuel as [|fuel IH]; intros b H Hf; (destruct (addedBuffers b) as [|p l] eqn:E;
    [exists b; cbn; by rewrite E|cbn in Hf; try lia]).
  cbn [attach_added]. rewrite E. destruct (IH {| addedBuffers := l; buffers := p :: buffers b;
    removedBuffers := removedBuffers b; live := live b |}) as (b' & -> & H' & Ha & Hb & Hr).
  - apply (lists_ok_perm b); [done| |done]. unfold all. cbn. rewrite E. cbn. symmetry. apply Permutation_middle.
  - cbn in *. lia.
  - exists b'. split_and!; try done. rewrite Hb, reverse_cons, <- app_assoc. done.
Qed.

Lemma findById_in id l m p : findById id l m = Some p -> p ∈ l.
Proof. intros H. apply find_some in H as [H _]. by apply list_elem_of_In. Qed.

Lemma rendererRemoveBuffer_ok id b :
  buffers_ok b ->
  exists b', rendererRemoveBuffer id b = Some b' /\ buffers_ok b' /\
    (forall p, p ∈ (buffers b ++ removedBuffers b) -> p ∈ (buffers b' ++ removedBuffers b')).
Proof.
  intros H. unfold rendererRemoveBuffer. destruct (findById id (addedBuffers b) (live b)) as [p|] eqn:E.
  - apply findById_in in E. destruct (buffers_ok_nodup b H) as (_ & _ & _ & D & _). destruct (D p E) as [D1 D2].
    destruct (release_buffer_ok p b H) as (b' & x & -> & H' & _ & _ & Hcase); [unfold all; apply elem_of_app; by left|].
    exists b'. split_and!; try done. intros q. destruct Hcase as [(_ & _ & Hb & Hr & _)|(_ & Hb & Hr & _)]; by rewrite Hb, Hr, ?unlink_notin.
  - destruct (findById id (buffers b) (live b)) as [p|] eqn:E'; [|eauto]. apply findById_in in E'.
    eexists. split; [done|]. split; [by apply to_removed_ok|]. intros q. cbn. rewrite !elem_of_app, elem_of_cons.
    unfold unlink. rewrite list_elem_of_filter. destruct (decide (q = p)); tauto.
Qed.

Lemma rendererRemoveAllBuffers_ok b :
  buffers_ok b ->
  exists b', rendererRemoveAllBuffers b = Some b' /\ buffers_ok b' /\ addedBuffers b' = [] /\ buffers b' = [] /\
    (forall p, p ∈ (buffers b ++ removedBuffers b) -> p ∈ (buffers b' ++ removedBuffers b')).
Proof.
  intros H. unfold rendererRemoveAllBuffers. destruct (release_added_ok _ b H (le_n _)) as (b1 & -> & H1 & Ha & Hb & Hr).
  cbn [mbind option_bind]. destruct (remove_attached_ok _ b1 H1 (le_n _)) as (b2 & -> & H2 & Ha2 & Hb2 & Hr2).
  exists b2. split_and!; try congruence. intros p Hp. apply elem_of_app. right. apply Hr2. by rewrite Hb, Hr.
Qed.

(** ** The shared state and the windows *)

(** What is mapped is the state and the one that waits for the renderer. *)
Record states_ok (s : States) : Prop := {
  states_mapped : forall p, is_Some (mapped s !! p) <-> p <> 0 /\ (p = state s \/ p = pendingState s);
  states_unchanged : stateChanged s = false -> pendingState s = 0;
  states_differ : pendingState s <> 0 -> pendingState s <> state s;
}.

Lemma update_state_ok f s :
  states_ok s ->
  exists s', update_state f s = Some s' /\ states_ok s' /\ state s' = state s /\ pendingState s' = pendingState s /\
    stateChanged s' = stateChanged s /\
    (forall p, mapped s' !! p = if decide (p = state s) then f <$> mapped s !! p else mapped s !! p).
Proof.
  intros [HM HU HD]. unfold update_state. destruct (Z.eqb_spec (state s) 0) as [E|E].
  - exists s. split_and!; try done. intros p. case_decide; [|done]. subst p.
    destruct (mapped s !! state s) eqn:Em; [|done]. destruct (proj1 (HM (state s))) as [? _]; [eauto|done].
  - destruct (proj2 (HM (state s))) as [m Hm]; [auto|]. rewrite Hm. cbn [mbind option_bind].
    eexists. split; [reflexivity|]. split_and!; try done.
    + split; cbn; try done. intros p. rewrite lookup_insert_is_Some', HM. split; [|tauto].
      intros [<-|?]; [|done]. auto.
    + intros p. cbn. case_decide as Ep; [subst p; by rewrite lookup_insert_eq, Hm|by rewrite lookup_insert_ne].
Qed.

Definition window_held (w d : Z) : list held := if (w =? 0) || (w =? d) then [] else [HWindow w].
Definition surface_held (s d : Z) : list held := if (s =? 0) || (s =? d) then [] else [HSurface s].

(** The references and surfaces of the renderer. *)
Definition held_by (v : Windows) : list held :=
  window_held (pendingWin v) (defaultWin v) ++ window_held (win v) (defaultWin v) ++ surface_held (sfc v) (defaultSfc v).

Record windows_ok (base : list held) (v : Windows) : Prop := {
  windows_ledger : ledger v ≡ₚ held_by v ++ base;
  windows_unchanged : windowChanged v = false -> pendingWin v = 0;
  windows_default : defaultWin v <> 0;
}.

(** EGL gives up the old surface and makes no second one of the default window's. *)
Definition egl_ok (e : EglEnv) (v : Windows) : Prop :=
  make_default e = true /\ destroy e = true /\ create e <> defaultSfc v.

Lemma held_test w d : (negb (w =? 0) && negb (w =? d))%bool = negb ((w =? 0) || (w =? d)).
Proof. by rewrite negb_orb. Qed.

(** The second half of [releaseWinAndSurface]. *)
Lemma release_the_window rest v :
  ledger v ≡ₚ rest ++ window_held (win v) (defaultWin v) ->
  exists v', (if negb (win v =? 0) && negb (win v =? defaultWin v)
              then l ← release_window (win v) (ledger v); Some (set_win (defaultWin v) (sfc v) (current v) l v)
              else Some v) = Some v' /\
    ledger v' ≡ₚ rest /\ pendingWin v' = pendingWin v /\ defaultWin v' = defaultWin v /\
    defaultSfc v' = defaultSfc v /\ windowChanged v' = windowChanged v /\ sfc v' = sfc v.
Proof.
  rewrite held_test. unfold window_held. destruct ((win v =? 0) || (win v =? defaultWin v)) eqn:E; cbn [negb]; intros HL.
  - exists v. by rewrite HL, app_nil_r.
  - rewrite Permutation_app_comm in HL. destruct (give_back_perm _ _ _ HL) as (l & El & Hl).
    unfold release_window. rewrite El. cbn [mbind option_bind]. eexists. split; [reflexivity|]. done.
Qed.

Lemma releaseWinAndSurface_ok base e v :
  windows_ok base v -> egl_ok e v ->
  exists v', releaseWinAndSurface e v = Some v' /\
    ledger v' ≡ₚ window_held (pendingWin v) (defaultWin v) ++ base /\ pendingWin v' = pendingWin v /\
    defaultWin v' = defaultWin v /\ defaultSfc v' = defaultSfc v /\ windowChanged v' = windowChanged v /\
    (sfc v' = 0 \/ sfc v' = defaultSfc v).
Proof.
  intros [HL _ _] (Hd & Hs & _). unfold releaseWinAndSurface. cbv zeta beta. rewrite Hd, Hs, (held_test (sfc v)).
  set (rest := window_held (pendingWin v) (defaultWin v) ++ base).
  unfold held_by, surface_held in HL. destruct ((sfc v =? 0) || (sfc v =? defaultSfc v)) eqn:E; cbn [negb].
  - destruct (release_the_window rest v) as (v' & -> & Hl & Hp & Hw & Hf & Hc & Hz).
    { rewrite HL, app_nil_r. unfold rest. rewrite <- !app_assoc. f_equiv. apply Permutation_app_comm. }
    exists v'. rewrite Hz. split_and!; try done. apply orb_true_iff in E as [E|E]; apply Z.eqb_eq in E; auto.
  - assert (ledger v ≡ₚ HSurface (sfc v) :: rest ++ window_held (win v) (defaultWin v)) as HL2.
    { rewrite HL. unfold rest. rewrite <- !app_assoc. cbn [app].
      rewrite app_assoc, <- Permutation_middle, <- app_assoc. do 2 f_equiv. apply Permutation_app_comm. }
    destruct (give_back_perm _ _ _ HL2) as (l & -> & Hl). cbn [mbind option_bind].
    destruct (release_the_window rest (set_win (win v) (defaultSfc v) (defaultSfc v) l v)) as (v' & -> & ?); [done|].
    exists v'. cbn in *. intuition.
Qed.

Definition states_same (s s' : States) : Prop :=
  state s' = state s /\ pendingState s' = pendingState s /\ stateChanged s' = stateChanged s /\
  (forall p, p <> state s -> mapped s' !! p = mapped s !! p).

Lemma update_state_same f s : states_ok s -> exists s', update_state f s = Some s' /\ states_ok s' /\ states_same s s' /\
  mapped s' !! state s = f <$> mapped s !! state s.
Proof.
  intros H. destruct (update_state_ok f s H) as (s' & E & H' & E1 & E2 & E3 & M). exists s'. split_and!; try done.
  - split_and!; try done. intros p Hp. rewrite M. by case_decide.
  - rewrite M. by case_decide.
Qed.

(** A refresh keeps the ledger. *)
Lemma rendererRefreshContext_ok base e s v :
  windows_ok base v -> states_ok s -> egl_ok e v ->
  exists s' v', rendererRefreshContext e s v = Some (s', v') /\ windows_ok base v' /\ states_ok s' /\ states_same s s' /\
    windowChanged v' = false /\ defaultWin v' = defaultWin v /\ defaultSfc v' = defaultSfc v.
Proof.
  intros W S He. pose proof (windows_default _ _ W) as Hd0. unfold rendererRefreshContext.
  destruct (if negb (pendingWin v =? 0) then (width e, height e) else (0, 0)) as [w h].
  destruct (releaseWinAndSurface_ok base e v W He) as (v1 & -> & HL1 & Hp1 & Hd1 & Hs1 & Hc1 & Hz1).
  cbn [mbind option_bind].
  assert (exists v2, (if negb (pendingWin v1 =? 0) && ((w <=? 0) || (h <=? 0)) then releasePendingWin v1 else Some v1) = Some v2 /\
    ledger v2 ≡ₚ window_held (pendingWin v2) (defaultWin v) ++ base /\ defaultWin v2 = defaultWin v /\
    defaultSfc v2 = defaultSfc v /\ sfc v2 = sfc v1) as (v2 & -> & HL2 & Hd2 & Hs2 & Hz2).
  { rewrite Hp1. destruct (_ && _)%bool eqn:Eb; [|exists v1; rewrite Hp1; done].
    unfold releasePendingWin. rewrite held_test, Hp1, Hd1. unfold window_held in HL1.
    destruct ((pendingWin v =? 0) || (pendingWin v =? defaultWin v)) eqn:E; cbn [negb].
    - exists v1. rewrite Hp1. unfold window_held. rewrite E. done.
    - destruct (give_back_perm _ _ _ HL1) as (l & El & Hl). unfold release_window. rewrite El. cbn [mbind option_bind].
      eexists. split; [reflexivity|]. cbn. unfold window_held. rewrite Z.eqb_refl, orb_true_r. done. }
  cbn [mbind option_bind take_pending win sfc current defaultWin defaultSfc ledger].
  assert (forall w1 s1 c1 l1, l1 ≡ₚ window_held w1 (defaultWin v) ++ surface_held s1 (defaultSfc v) ++ base ->
    windows_ok base (set_win w1 s1 c1 l1 (take_pending v2))) as Final.
  { intros w1 s1 c1 l1 Hl. split; cbn; [|done|congruence]. unfold held_by. cbn. rewrite Hd2, Hs2.
    unfold window_held at 1. cbn. rewrite <- app_assoc. done. }
  assert (surface_held (sfc v2) (defaultSfc v) = []) as Hnone.
  { unfold surface_held. destruct Hz1 as [E|E]; rewrite Hz2, E; [done|by rewrite Z.eqb_refl, orb_true_r]. }
  destruct (Z.eqb_spec (pendingWin v2) 0) as [Ep|Ep].
  - destruct (update_state_same (set_surfaceAvailable false) s S) as (s' & -> & S' & Same & _). cbn [mbind option_bind].
    eexists _, _. split; [reflexivity|]. split_and!; try done. apply Final. rewrite Hnone, HL2, Ep, Hd2.
    unfold window_held. cbn. by rewrite Z.eqb_refl, orb_true_r.
  - destruct (Z.eqb_spec (create e) 0) as [Ec|Ec].
    { eexists _, _. split; [reflexivity|]. split_and!; try done. apply Final. unfold surface_held. cbn. done. }
    assert (HSurface (create e) :: ledger v2 ≡ₚ
      window_held (pendingWin v2) (defaultWin v) ++ surface_held (create e) (defaultSfc v) ++ base) as Hl.
    { unfold surface_held. rewrite (proj2 (Z.eqb_neq _ _)), (proj2 (Z.eqb_neq (create e) (defaultSfc v))) by (done || apply He).
      cbn [orb app]. rewrite <- Permutation_middle, HL2. done. }
    cbn [set_win win sfc current ledger].
    destruct (make_current e); cbn [negb].
    + edestruct update_state_same as (s' & -> & S' & Same & _); [exact S|]. cbn [mbind option_bind].
      eexists _, _. split; [reflexivity|]. split_and!; try done. apply Final. done.
    + edestruct update_state_same as (s' & -> & S' & Same & _); [exact S|]. cbn [mbind option_bind].
      eexists _, _. split; [reflexivity|]. split_and!; try done. apply Final. done.
Qed.

(** ** The invariant *)

(** Only the change that the main thread waits for can be pending. *)
Definition main_ok (r : Renderer) : Prop :=
  match main (ct r) with
  | MIdle => stateChanged (st r) = false /\ windowChanged (wn r) = false
  | MWait KState | MWoken KState => windowChanged (wn r) = false
  | MWait KWindow | MWoken KWindow => stateChanged (st r) = false
  end.

Record renderer_ok (base : list held) (r : Renderer) : Prop := {
  ok_buffers : buffers_ok (bf r);
  ok_drawing : forall p, at_ (ct r) = Drawing p -> p ∈ (buffers (bf r) ++ removedBuffers (bf r));
  ok_find : at_ (ct r) = Find -> state (st r) <> 0;
  ok_states : states_ok (st r);
  ok_windows : windows_ok base (wn r);
  ok_main : main_ok r;
}.

(** States are mapped where nothing is mapped, buffers made where none is, and nobody has
    the default window. *)
Definition label_ok (l : label) (r : Renderer) : Prop :=
  match l with
  | SetState p _ => p = 0 \/ mapped (st r) !! p = None
  | SetWindow w => w <> defaultWin (wn r)
  | AddBuffer p _ n => live (bf r) !! p = None /\ 1 <= n
  | Render e => egl_ok e (wn r)
  | _ => True
  end.

Fixpoint labels_ok (ls : list label) (r : Renderer) : Prop :=
  match ls with
  | [] => True
  | l :: ls => label_ok l r /\ match exec l r with Some r' => labels_ok ls r' | None => True end
  end.

(** Changes of the program counter that keep the invariant. *)
Definition quiet (c c' : Control) : Prop :=
  main c' = main c /\ (at_ c' = at_ c \/ (at_ c' <> Find /\ forall p, at_ c' <> Drawing p)).

Lemma quiet_ok base r c : renderer_ok base r -> quiet (ct r) c ->
  renderer_ok base {| st := st r; wn := wn r; bf := bf r; ct := c |}.
Proof.
  intros [H1 H2 H3 H4 H5 H6] [Em Ea]. split; cbn; try done.
  - intros p Hp. destruct Ea as [E|[_ E]]; [rewrite E in Hp; eauto|by destruct (E p)].
  - intros Hf. destruct Ea as [E|[E _]]; [rewrite E in Hf; eauto|done].
  - unfold main_ok in *. cbn. by rewrite Em.
Qed.

Lemma quiet_signal c : quiet c (signal_stateCond c).
Proof. unfold quiet, signal_stateCond. case_decide; cbn; auto. Qed.

Lemma signal_main c : main (signal_stateCond c) = main c.
Proof. unfold signal_stateCond. by case_decide. Qed.

(** A change of the buffers that keeps those that may be drawn. *)
Lemma with_buffers_ok base r b c :
  renderer_ok base r -> buffers_ok b ->
  (forall p, p ∈ (buffers (bf r) ++ removedBuffers (bf r)) -> p ∈ (buffers b ++ removedBuffers b)) -> quiet (ct r) c ->
  renderer_ok base {| st := st r; wn := wn r; bf := b; ct := c |}.
Proof.
  intros H Hb Hs Hq. destruct (quiet_ok _ _ _ H Hq) as [H1 H2 H3 H4 H5 H6]. split; cbn in *; try done.
  intros p Hp. apply Hs. by apply H2.
Qed.

Lemma set_state_ok base p m r :
  renderer_ok base r -> main_idle r = true -> p = 0 \/ mapped (st r) !! p = None ->
  renderer_ok base (rendererSetSharedState p (map_state p m r)).
Proof.
  intros H Hi Hp. pose proof (ok_main _ _ H) as Hm. unfold main_idle, main_ok in *. destruct (main (ct r)) eqn:Em; try done.
  destruct H as [H1 H2 H3 [HM HU HD] H5 _]. destruct Hm as [Es Ew].
  split; cbn; try done.
  - intros q. unfold signal_stateCond. case_decide; cbn; [done|]. apply H2.
  - unfold signal_stateCond. case_decide; cbn; [done|]. apply H3.
  - assert (p <> 0 -> p <> state (st r)) as Hne.
    { intros Hp0 ->. destruct Hp as [Hp|Hp]; [done|]. destruct (proj2 (HM (state (st r)))) as [? E]; [auto|congruence]. }
    split; cbn; [|done|done]. intros q. destruct (Z.eqb_spec p 0) as [->|Hp0].
    + rewrite HM, (HU Es). tauto.
    + rewrite lookup_insert_is_Some', HM, (HU Es). split; [intros [<-|?]; [auto|tauto]|].
      intros [Hq [->| ->]]; auto.
Qed.

Lemma set_window_ok base w r :
  renderer_ok base r -> main_idle r = true -> w <> defaultWin (wn r) ->
  exists r', rendererSetWindow w (hold_window w r) = Some r' /\ renderer_ok base r'.
Proof.
  intros H Hi Hw. pose proof (ok_main _ _ H) as Hm. unfold main_idle, main_ok in *. destruct (main (ct r)) eqn:Em; try done.
  destruct H as [H1 H2 H3 H4 [HL HU HD] _]. destruct Hm as [Es Ew]. pose proof (HU Ew) as Ep.
  unfold rendererSetWindow. cbv zeta. change (pendingWin (wn (hold_window w r))) with (pendingWin (wn r)). rewrite Ep.
  assert (negb (w =? 0) && (0 =? w) = false)%bool as ->.
  { destruct (Z.eqb_spec w 0); [done|]. apply Z.eqb_neq. congruence. }
  cbn [Z.eqb negb mbind option_bind]. eexists. split; [reflexivity|]. split; cbn; try done.
  - intros q. unfold signal_stateCond. case_decide; cbn; [done|]. apply H2.
  - unfold signal_stateCond. case_decide; cbn; [done|]. apply H3.
  - unfold held_by in HL. rewrite Ep in HL. cbn in HL. split; cbn; try done. unfold held_by, window_held at 1. cbn.
    rewrite (proj2 (Z.eqb_neq w (defaultWin (wn r)))) by done. destruct (w =? 0); cbn [orb app]; [done|]. f_equiv. exact HL.
Qed.

Lemma add_buffer_ok base p id n r :
  renderer_ok base r -> live (bf r) !! p = None -> 1 <= n -> renderer_ok base (rendererAddBuffer p (receive_buffer p id n r)).
Proof.
  intros H Hp Hn1. pose proof (ok_buffers _ _ H) as (Hn & Hl & Hc).
  assert (p ∉ all (bf r)) as Hna by (rewrite <- Hl, Hp; by intros [? ?]).
  unfold all in Hna. rewrite !elem_of_app in Hna.
  unfold rendererAddBuffer. cbn [bf receive_buffer st wn ct live addedBuffers buffers removedBuffers].
  rewrite !unlink_notin by tauto. apply (with_buffers_ok base r); [done| |done|apply quiet_signal].
  split; [|split]; unfold all in *; cbn.
  - constructor; [|done]. rewrite !elem_of_app. tauto.
  - intros q. rewrite lookup_insert_is_Some', Hl, elem_of_cons. split; intros [?|?]; auto.
  - intros q x [[_ <-]|[_ Hx]]%lookup_insert_Some; [done|by apply (Hc q)].
Qed.

(** *** The renderer's steps *)

Lemma update_state_total f s :
  (state s <> 0 -> is_Some (mapped s !! state s)) ->
  exists m, update_state f s =
      Some {| state := state s; pendingState := pendingState s; stateChanged := stateChanged s; mapped := m |} /\
    (forall p, is_Some (m !! p) <-> is_Some (mapped s !! p)) /\
    (forall p, state s <> 0 -> m !! p = if decide (p = state s) then f <$> mapped s !! p else mapped s !! p).
Proof.
  intros H. unfold update_state. destruct (Z.eqb_spec (state s) 0) as [E|E].
  - exists (mapped s). by destruct s.
  - destruct (H E) as [m Hm]. rewrite Hm. cbn [mbind option_bind]. eexists. split; [reflexivity|]. split.
    + intros p. rewrite lookup_insert_is_Some'. split; [intros [<-|?]; eauto|auto].
    + intros p _. case_decide as Ep; [subst p; by rewrite lookup_insert_eq, Hm|by rewrite lookup_insert_ne].
Qed.

Lemma unmap_total p m : m !! 0 = None -> (p <> 0 -> is_Some (m !! p)) -> unmap p m = Some (delete p m).
Proof.
  intros H0 Hp. unfold unmap. destruct (Z.eqb_spec p 0) as [->|E]; [by rewrite delete_id|].
  destruct (Hp E) as [v ->]. done.
Qed.

Lemma apply_state_ok e r :
  states_ok (st r) -> (stateChanged (st r) = true -> relocked e = true) ->
  exists r', apply_state e r = Some (Some r') /\ states_ok (st r') /\ stateChanged (st r') = false /\ wn r' = wn r /\ bf r' = bf r /\
    at_ (ct r') = at_ (ct r) /\ main (ct r') = main (ct r) /\ frames (ct r') = frames (ct r) /\
    (stateChanged (st r) = false -> r' = r) /\
    (stateChanged (st r) = true -> forall m, mapped (st r') !! state (st r') = Some m ->
       surfaceAvailable m = negb (win (wn r) =? defaultWin (wn r))).
Proof.
  intros S Hr. unfold apply_state. destruct (stateChanged (st r)) eqn:Ec; [|by exists r]. rewrite Hr by done. cbn [negb].
  destruct S as [HM HU HD].
  set (old := if negb (state (st r) =? 0) && negb (pendingState (st r) =? state (st r)) then state (st r) else 0).
  destruct (update_state_total (set_surfaceAvailable (negb (win (wn r) =? defaultWin (wn r))))
    {| state := pendingState (st r); pendingState := 0; stateChanged := false; mapped := mapped (st r) |})
    as (m & -> & D & L); cbn in *; [intros; apply HM; auto|].
  assert (mapped (st r) !! 0 = None) as M0.
  { destruct (mapped (st r) !! 0) eqn:E; [|done]. by destruct (proj1 (HM 0)) as [? _]; [eauto|]. }
  rewrite (unmap_total old m).
  2:{ destruct (m !! 0) eqn:E; [|done]. destruct (proj1 (D 0)) as [? ?]; [eauto|congruence]. }
  2:{ intros Ho. apply D, HM. unfold old in *. destruct (_ && _)%bool; [auto|done]. }
  cbn [mbind option_bind]. eexists. split; [reflexivity|]. cbn. split_and!; try done.
  - split; cbn; [|done|done]. intros p. rewrite lookup_delete_is_Some, D, HM. unfold old.
    destruct (Z.eqb_spec (state (st r)) 0) as [E0|E0]; cbn [negb andb].
    + rewrite E0. split; [intros (? & ? & [?|?]); auto; congruence|]. intros (? & [?|?]); auto; congruence.
    + destruct (Z.eqb_spec (pendingState (st r)) (state (st r))) as [Ep|Ep]; cbn [negb].
      * destruct (HD ltac:(congruence) Ep).
      * split; [intros (? & ? & [?|?]); auto; congruence|]. intros (? & [->|?]); auto; congruence.
  - intros _ m1 Hm1. apply lookup_delete_Some in Hm1 as [_ Hm1].
    destruct (decide (pendingState (st r) = 0)) as [E0|E0].
    + destruct (proj1 (D (pendingState (st r)))) as [? ?]; [eauto|]. rewrite E0 in *. congruence.
    + rewrite L in Hm1 by done. rewrite decide_True in Hm1 by done. apply fmap_Some in Hm1 as (m2 & _ & ->). done.
Qed.

(** The renderer waits for the forwarding thread. *)
Lemma apply_changes_blocked e r : stateChanged (st r) = true -> relocked e = false -> apply_changes e r = Some r.
Proof. intros H1 H2. unfold apply_changes, apply_state. by rewrite H1, H2. Qed.

Lemma apply_changes_ok base e r :
  renderer_ok base r -> at_ (ct r) = Apply -> egl_ok e (wn r) -> (stateChanged (st r) = true -> relocked e = true) ->
  exists r', apply_changes e r = Some r' /\ renderer_ok base r' /\ at_ (ct r') = Draw /\ locked (ct r') = false /\
    stateChanged (st r') = false /\ windowChanged (wn r') = false /\ frames (ct r') = frames (ct r) /\
    main (ct r') = main (signal_stateChangeFinishCond (ct r)).
Proof.
  intros [H1 H2 H3 H4 H5 H6] Ea He Hr. unfold apply_changes.
  destruct (apply_state_ok e r H4 Hr) as (r1 & -> & S1 & C1 & W1 & B1 & A1 & M1 & F1 & _ & _). cbn [mbind option_bind].
  assert (exists r2, apply_window e r1 = Some r2 /\ states_ok (st r2) /\ windows_ok base (wn r2) /\
    stateChanged (st r2) = false /\ windowChanged (wn r2) = false /\ bf r2 = bf r1 /\ ct r2 = ct r1)
    as (r2 & -> & S2 & W2 & C2 & D2 & B2 & T2).
  { unfold apply_window. rewrite W1. destruct (windowChanged (wn r)) eqn:Ew.
    - destruct (rendererRefreshContext_ok base e (st r1) (wn r) H5 S1 He) as (s & v & -> & Wv & Ss & (_ & _ & Hc & _) & Hw & _).
      cbn [mbind option_bind fst snd]. eexists. split; [reflexivity|]. cbn. split_and!; try done. by rewrite Hc.
    - exists r1. rewrite W1. done. }
  cbn [mbind option_bind]. unfold apply_buffers. rewrite B2, B1.
  destruct (attach_added_ok _ (bf r) H1 (le_n _)) as (b & -> & Bb & _). cbn [mbind option_bind].
  eexists. split; [reflexivity|].
  assert (forall c, main c = main (ct r) -> frames c = frames (ct r) ->
    main (signal_stateChangeFinishCond c) = main (signal_stateChangeFinishCond (ct r)) /\
    frames (signal_stateChangeFinishCond c) = frames (ct r)) as Hsig.
  { intros c Em Ef. unfold signal_stateChangeFinishCond. rewrite Em. destruct (main (ct r)) eqn:Emr; cbn; rewrite ?Em, ?Emr; done. }
  rewrite T2. set (c0 := if decide (addedBuffers (bf r) = []) then ct r1 else set_waiting false (ct r1)).
  destruct (Hsig c0) as [Hm Hf]; [unfold c0; case_decide; cbn; congruence..|].
  split_and!; try done. split; cbn; try done. unfold main_ok. cbn. rewrite Hm.
  by destruct (main (signal_stateChangeFinishCond (ct r))) as [|[]|[]].
Qed.

Lemma rendererShouldWait_ok base changed r :
  renderer_ok base r ->
  exists w r', rendererShouldWait changed r = Some (w, r') /\ st r' = st r /\ wn r' = wn r /\ bf r' = bf r /\
    at_ (ct r') = at_ (ct r) /\ main (ct r') = main (ct r) /\ locked (ct r') = locked (ct r) /\ frames (ct r') = frames (ct r) /\
    (stateChanged (st r) = true \/ windowChanged (wn r) = true -> w = false).
Proof.
  intros H. unfold rendererShouldWait. destruct (_ || _)%bool eqn:E; [by exists false, r|].
  apply orb_false_iff in E as [E _]. apply orb_false_iff in E as [E1 E2].
  assert (forall w : bool, stateChanged (st r) = true \/ windowChanged (wn r) = true -> w = false) as No by (intros w [?|?]; congruence).
  destruct (Z.eqb_spec (state (st r)) 0) as [E0|E0]; [exists true, r; split_and!; done || apply No|].
  destruct (proj2 (states_mapped _ (ok_states _ _ H) (state (st r)))) as [m Hm]; [auto|]. rewrite Hm. cbn [mbind option_bind].
  destruct (_ || _)%bool; eexists _, _; (split; [reflexivity|]); split_and!; done || apply No.
Qed.

Lemma rendererThread_ok base e r :
  renderer_ok base r -> egl_ok e (wn r) -> exists r', rendererThread e r = Some r' /\ renderer_ok base r'.
Proof.
  intros H He. pose proof H as [H1 H2 H3 H4 H5 H6]. unfold rendererThread. destruct (at_ (ct r)) as [|ch| | | | | | |p| |] eqn:Ea.
  - eexists. split; [done|]. apply (quiet_ok base r); [done|]. split; cbn; auto.
  - destruct (rendererShouldWait_ok base ch r H) as (w & r' & -> & Es & Ew & Eb & Eat & Em & _). cbn [mbind option_bind fst snd].
    eexists. split; [done|]. unfold with_control. rewrite Es, Ew, Eb. apply (quiet_ok base r); [done|].
    split; cbn; [done|]. right. by destruct w.
  - eexists. split; [done|]. apply (quiet_ok base r); [done|]. split; cbn; auto.
  - eauto.
  - destruct (locked (ct r)); [eauto|]. eexists. split; [done|]. apply (quiet_ok base r); [done|]. split; cbn; auto.
  - destruct (stateChanged (st r)) eqn:Ec; [destruct (relocked e) eqn:Er; [|rewrite (apply_changes_blocked e r Ec Er); eauto]|];
      (destruct (apply_changes_ok base e r H Ea He) as (r' & E & H' & _); [congruence|eauto]).
  - destruct (Z.eqb_spec (state (st r)) 0) as [E0|E0].
    + eexists. split; [done|]. apply (quiet_ok base r); [done|]. split; cbn; auto.
    + destruct (proj2 (states_mapped _ H4 (state (st r)))) as [m Hm]; [auto|]. rewrite Hm. cbn [mbind option_bind].
      eexists. split; [done|]. split; cbn; try done; destruct (should_draw m); done.
  - specialize (H3 eq_refl). destruct (proj2 (states_mapped _ H4 (state (st r)))) as [m Hm]; [auto|].
    unfold redraw_find. rewrite Hm. cbn [mbind option_bind]. eexists. split; [done|].
    destruct (findById _ (buffers _) _) as [p|] eqn:E1; [|destruct (findById _ (removedBuffers _) _) as [p|] eqn:E2];
      try apply findById_in in E1; try apply findById_in in E2.
    + split; cbn; try done. intros q [= <-]. apply elem_of_app. by left.
    + split; cbn; try done. intros q [= <-]. apply elem_of_app. by right.
    + split; cbn; done.
  - specialize (H2 p eq_refl). destruct (proj2 (proj1 (proj2 H1) p)) as [i Hi]; [unfold all; apply elem_of_app; by right|].
    unfold redraw_frame. rewrite Hi. cbn [mbind option_bind].
    destruct (update_state_ok frame_drawn (st r) H4) as (s & -> & S & E1 & E2 & E3 & _). cbn [mbind option_bind].
    eexists. split; [done|]. split; cbn; try done. unfold main_ok in *. cbn. by rewrite E3.
  - destruct (release_removed_ok _ (bf r) H1 (le_n _)) as (b & -> & Hb & _). cbn [mbind option_bind].
    eexists. split; [done|]. split; cbn; done.
  - destruct (locked (ct r)); [eauto|]. eexists. split; [done|]. apply (quiet_ok base r); [done|]. split; cbn; auto.
Qed.

Lemma exec_ok base l r :
  renderer_ok base r -> label_ok l r -> exists r', exec l r = Some r' /\ renderer_ok base r'.
Proof.
  intros H Hl. destruct l as [p m|w|p id n|id| | | |e|p m sig]; cbn [exec label_ok] in *.
  - destruct (main_idle r) eqn:Ei; cbn [andb]; [|eauto]. destruct (locked _); cbn [negb]; [eauto|].
    eexists. split; [done|]. by apply set_state_ok.
  - destruct (main_idle r) eqn:Ei; cbn [andb]; [|eauto]. destruct (locked _); cbn [negb]; [eauto|]. by apply set_window_ok.
  - destruct (main_idle r); [|eauto]. eexists. split; [done|]. destruct Hl. by apply add_buffer_ok.
  - destruct (main_idle r); [|eauto]. destruct (rendererRemoveBuffer_ok id (bf r) (ok_buffers _ _ H)) as (b & -> & Hb & Hs).
    cbn [mbind option_bind]. eexists. split; [done|]. apply (with_buffers_ok base r); try done. split; auto.
  - destruct (main_idle r); [|eauto]. destruct (rendererRemoveAllBuffers_ok (bf r) (ok_buffers _ _ H)) as (b & -> & Hb & _ & _ & Hs).
    cbn [mbind option_bind]. eexists. split; [done|]. apply (with_buffers_ok base r); try done. split; auto.
  - pose proof (ok_main _ _ H) as Hm. unfold main_ok in Hm. destruct (main (ct r)) as [|k|k] eqn:Em; [eauto| |];
      (destruct (locked (ct r)); [eauto|]; eexists; split; [done|]; destruct H as [H1 H2 H3 H4 H5 _]; split; cbn; try done;
       unfold main_ok; cbn; destruct k; [destruct (stateChanged (st r))|destruct (windowChanged (wn r))]; done).
  - eexists. split; [done|]. apply (quiet_ok base r); [done|apply quiet_signal].
  - by apply rendererThread_ok.
  - eexists. split; [done|].
    assert (renderer_ok base (server_writes p m r)) as H'.
    { unfold server_writes. destruct (mapped (st r) !! p) as [old|] eqn:E; [|done].
      destruct H as [H1 H2 H3 [HM HU HD] H5 H6]. split; cbn; try done. split; cbn; try done.
      intros q. rewrite lookup_insert_is_Some'. rewrite <- HM. split; [intros [<-|?]; eauto|auto]. }
    destruct sig; [|done]. apply (quiet_ok base (server_writes p m r)); [done|apply quiet_signal].
Qed.

(** C11: nothing leaks and nothing is used after it was given back: while EGL gives up the
    surfaces that were replaced and the new ones differ from the default one ([egl_ok]), and
    states, windows and buffers are new when they come, however the main thread, the renderer
    and the server take their steps, every step succeeds, every live buffer is in exactly one
    of the lists and has references left, and the buffer that is being drawn is not released;
    exactly the current and the pending state are mapped; and the references on windows and
    the surfaces that are held are those of [win], [pendingWin] and [sfc]. *)
Theorem renderer_accounts base ls r :
  renderer_ok base r -> labels_ok ls r -> exists r', run ls r = Some r' /\ renderer_ok base r'.
Proof.
  revert r. induction ls as [|l ls IH]; intros r H Hl; [by exists r|]. destruct Hl as [Hl Hls]. cbn [run].
  destruct (exec_ok base l r H Hl) as (r1 & E & H1). rewrite E in Hls |- *. cbn [mbind option_bind]. by apply IH.
Qed.

(** [rendererInitThread] starts the thread's loop without [stateLock]. *)
Definition renderer_start (dw ds : Z) : Renderer :=
  {| st := {| state := 0; pendingState := 0; stateChanged := false; mapped := ∅ |};
     wn := {| win := dw; sfc := ds; current := ds; pendingWin := 0; windowChanged := false; defaultWin := dw;
              defaultSfc := ds; ledger := [] |};
     bf := {| addedBuffers := []; buffers := []; removedBuffers := []; live := ∅ |};
     ct := {| at_ := Check; main := MIdle; locked := false; waitingForBuffers := false; lastRequestedBufferId := 0; frames := [] |} |}.

(** ** A session *)

Definition demo_shared (root : Z) (draw : bool) : Shared :=
  {| rootWindowTextureID := root; drawRequested := draw; cursor_moved := false; cursor_updated := false;
     waitForNextFrame := false; surfaceAvailable := false; renderedFrames := 0 |}.
Definition demo_egl (s : Z) : EglEnv :=
  {| width := 800; height := 600; create := s; make_current := true; make_default := true; destroy := true;
     relocked := true |}.
Definition rounds (n : nat) (s : Z) : list label := replicate n (Render (demo_egl s)).

(** The state at address 5 comes, then the window 7, which gets the surface 9, and the buffer
    100 with the identifier 10 and two references, which is drawn. *)
Definition demo_labels : list label :=
  SetState 5 (demo_shared 10 true) :: rounds 3 9 ++ MainWakes :: SetWindow 7 :: rounds 6 9 ++ MainWakes :: AddBuffer 100 10 2 ::
  rounds 10 9.

Definition demo_view (r : Renderer) : pc * list Z * list (Z * Z) * list held :=
  (at_ (ct r), buffers (bf r), frames (ct r), ledger (wn r)).

Example demo_session :
  option_map demo_view (run demo_labels (renderer_start 1 2)) = Some (Release, [100], [(100, 9)], [HSurface 9; HWindow 7]).
Proof. vm_compute. reflexivity. Qed.

Lemma start_ok dw ds : dw <> 0 -> renderer_ok [] (renderer_start dw ds).
Proof.
  intros Hd. split; cbn; try done.
  - split; [constructor|]. unfold all. cbn. split; intros p; rewrite lookup_empty; [|done].
    split; [by intros [? ?]|]. intros Hp. by apply elem_of_nil in Hp.
  - split; cbn; try done. intros p. rewrite lookup_empty. split; [by intros [? ?]|]. by intros [? [?|?]].
  - split; cbn; try done. unfold held_by, window_held, surface_held. cbn. rewrite !Z.eqb_refl, !orb_true_r. done.
Qed.

Lemma renderer_accounts_witness :
  exists r', run (demo_labels ++ [RemoveAllBuffers; Render (demo_egl 9)]) (renderer_start 1 2) = Some r' /\ renderer_ok [] r'.
Proof.
  apply (renderer_accounts [] (demo_labels ++ [RemoveAllBuffers; Render (demo_egl 9)])); [by apply start_ok|].
  vm_compute. repeat split; auto; try discriminate.
Defined.

(** A buffer with two references that is removed before it was attached loses one and stays
    in the list: it is attached and kept. *)
Example removed_buffer_stays :
  option_map (fun r => (buffers (bf r), live (bf r) !! 100))
    (run (AddBuffer 100 10 2 :: RemoveBuffer 10 :: rounds 6 9) (renderer_start 1 2)) = Some ([100], Some (10, 1)).
Proof. vm_compute. reflexivity. Qed.

(** When EGL refuses the default surface, the window and the surface that are replaced are
    forgotten. *)
Example refused_surface_leaks :
  let refuse := {| width := 800; height := 600; create := 19; make_current := true; make_default := false; destroy := true;
                   relocked := true |} in
  option_map (fun r => (win (wn r), sfc (wn r), ledger (wn r)))
    (run (demo_labels ++ SetWindow 8 :: replicate 5 (Render refuse)) (renderer_start 1 2)) =
  Some (8, 19, [HSurface 19; HWindow 8; HSurface 9; HWindow 7]).
Proof. vm_compute. reflexivity. Qed.
