(* ===== verification/RendererThreads.v ===== *)
(** * The threads of the renderer ([lorie/renderer.c])

    Over the steps of [Renderer]: the setters of the main thread return, frames are drawn to
    surfaces, a refresh applies the window, and what goes wrong when a signal is sent
    without the lock, when the first window comes too early and when EGL fails. *)

From S2P Require Import Prelude Renderer.

(** ** The setters return *)

Definition holds_lock (p : pc) : bool := match p with Check | Decide _ | Sleep | Apply => true | _ => false end.

Definition asleep (p : pc) : bool := match p with Sleep | Waiting => true | _ => false end.

Definition changed (r : Renderer) : bool := stateChanged (st r) || windowChanged (wn r).

(** The renderer has [stateLock] where the code says, and sleeps only without a change. *)
Definition lock_ok (r : Renderer) : Prop :=
  locked (ct r) = holds_lock (at_ (ct r)) /\ (asleep (at_ (ct r)) = true -> changed r = false).

(** The steps of the renderer to the end of the changes. *)
Definition rank (p : pc) : nat :=
  match p with
  | Draw => 8 | Find => 7 | Drawing _ => 6 | Release => 5 | Relock | Woken => 4 | Check => 3 | Decide _ => 2 | Apply => 1
  | Sleep | Waiting => 0
  end.

Lemma changed_busy base r : renderer_ok base r -> changed r = true -> main_idle r = false.
Proof.
  intros [_ _ _ _ _ H] Hc. unfold main_ok, changed, main_idle in *. destruct (main (ct r)); try done.
  destruct H as [E1 E2]. by rewrite E1, E2 in Hc.
Qed.

Lemma signal_awake c : at_ c <> Waiting -> signal_stateCond c = c.
Proof. intros H. unfold signal_stateCond. by rewrite decide_False. Qed.

Lemma signal_lock c : locked (signal_stateCond c) = locked c.
Proof. unfold signal_stateCond. by case_decide. Qed.

Lemma signal_holds c : holds_lock (at_ (signal_stateCond c)) = holds_lock (at_ c).
Proof. unfold signal_stateCond. case_decide as E; [by rewrite E|done]. Qed.

Lemma signal_asleep c : asleep (at_ (signal_stateCond c)) = true -> asleep (at_ c) = true /\ holds_lock (at_ c) = true.
Proof. unfold signal_stateCond. case_decide as E; [done|]. destruct (at_ c); done. Qed.

(** One step of the renderer. *)
Lemma render_lock_ok base e r r' :
  renderer_ok base r -> lock_ok r -> egl_ok e (wn r) -> rendererThread e r = Some r' ->
  lock_ok r' /\
  (changed r = true ->
   relocked e = false /\ changed r' = true /\ (rank (at_ (ct r')) <= rank (at_ (ct r)))%nat \/
   changed r' = true /\ (rank (at_ (ct r')) < rank (at_ (ct r)))%nat \/
   changed r' = false /\ at_ (ct r') = Draw /\ main (ct r') = main (signal_stateChangeFinishCond (ct r))).
Proof.
  intros H [HL HA] He. unfold rendererThread. destruct (at_ (ct r)) as [|ch| | | | | | |p| |] eqn:Ea; cbn [holds_lock asleep] in HL, HA.
  - intros [= <-]. split; [by split|]. intros Hc. right. left. cbn. split; [done|lia].
  - destruct (rendererShouldWait_ok base ch r H) as (w & r1 & -> & Es & Ew & Eb & Eat & Em & El & _ & Hw).
    cbn [mbind option_bind fst snd]. intros [= <-]. unfold lock_ok, changed in *. cbn. rewrite El, Es, Ew, HL.
    split; [split; [by destruct w|]|].
    + intros Hsl. destruct w; [|done]. destruct (stateChanged (st r)), (windowChanged (wn r)); try done; specialize (Hw ltac:(auto)); done.
    + intros Hc. right. left. split; [done|]. rewrite Hw; [cbn; lia|]. apply orb_true_iff in Hc. tauto.
  - intros [= <-]. split; [split; cbn; auto|]. intros Hc. rewrite HA in Hc; done.
  - intros [= <-]. split; [split; by rewrite Ea|]. intros Hc. rewrite HA in Hc; done.
  - rewrite HL. intros [= <-]. split; [by split|]. intros Hc. right. left. cbn. split; [done|lia].
  - destruct (stateChanged (st r) && negb (relocked e)) eqn:Eb.
    { apply andb_true_iff in Eb as [Ec Er]. apply negb_true_iff in Er. rewrite (apply_changes_blocked e r Ec Er). intros [= <-].
      split; [split; by rewrite Ea|]. intros Hc. left. rewrite Ea. done. }
    destruct (apply_changes_ok base e r H Ea He) as (r1 & -> & _ & E1 & E2 & E3 & E4 & _ & E5).
    { intros Ec. rewrite Ec in Eb. by destruct (relocked e). }
    intros [= <-].
    assert (changed r1 = false) as Ec by (unfold changed; by rewrite E3, E4).
    split; [split; rewrite E1; [by rewrite E2|done]|]. intros _. right. right. done.
  - intros Hr. assert (exists p, r' = with_control (goto p) r /\ (p = Release \/ p = Find)) as (p & -> & Hp).
    { destruct (state (st r) =? 0); [simplify_eq; eauto|]. apply bind_Some in Hr as (m & _ & Hr). simplify_eq.
      destruct (should_draw m); eauto. }
    unfold lock_ok, changed in *. cbn. rewrite HL. split; [by destruct Hp as [-> | ->]|].
    intros Hc. right. left. split; [done|]. destruct Hp as [-> | ->]; cbn; lia.
  - unfold redraw_find. intros Hr. apply bind_Some in Hr as (m & _ & Hr). injection Hr as <-. unfold lock_ok, changed in *. cbn.
    match goal with |- context [match ?f with _ => _ end] => destruct f end; cbn; (rewrite HL; split; [done|]; intros; right; left; split; [done|lia]).
  - unfold redraw_frame. intros Hr. apply bind_Some in Hr as (i & _ & Hr).
    destruct (update_state_ok frame_drawn (st r) (ok_states _ _ H)) as (s & E & _ & _ & _ & E3 & _). rewrite E in Hr.
    cbn [mbind option_bind] in Hr. injection Hr as <-. unfold lock_ok, changed in *. cbn. rewrite HL, E3.
    split; [done|]. intros Hc. right. left. split; [done|lia].
  - intros Hr. apply bind_Some in Hr as (b & _ & Hr). injection Hr as <-. unfold lock_ok, changed in *. cbn. rewrite HL.
    split; [done|]. intros Hc. right. left. split; [done|lia].
  - rewrite HL. intros [= <-]. split; [by split|]. intros Hc. right. left. cbn. split; [done|lia].
Qed.

Lemma render_or_not l : (exists e, l = Render e) \/ forall e, l <> Render e.
Proof. destruct l; eauto; by right. Qed.

(** The steps of the others, while a change is pending: they leave the renderer alone. *)
Lemma others_wait base l r r' :
  renderer_ok base r -> lock_ok r -> changed r = true -> (forall e, l <> Render e) -> exec l r = Some r' ->
  lock_ok r' /\ changed r' = true /\ at_ (ct r') = at_ (ct r).
Proof.
  intros H [HL HA] Hc Hn. pose proof (changed_busy _ _ H Hc) as Hb.
  assert (signal_stateCond (ct r) = ct r) as Hsig.
  { apply signal_awake. intros E. rewrite HA in Hc; [done|by rewrite E]. }
  destruct l as [p m|w|p id n|id| | | |e|p m sig]; cbn [exec]; rewrite ?Hb; cbn [andb].
  1-5: by intros [= <-].
  - destruct (main (ct r)) as [|k|k]; [by intros [= <-]| |];
      (destruct (locked (ct r)) eqn:El; intros [= <-]; unfold lock_ok, changed in *; cbn; rewrite ?El; done).
  - intros [= <-]. unfold with_control. rewrite Hsig. by destruct r.
  - by destruct (Hn e).
  - intros [= <-].
    assert (forall r1, ct r1 = ct r -> changed r1 = true -> lock_ok r1 /\ changed r1 = true /\ at_ (ct r1) = at_ (ct r)) as Same.
    { intros r1 E Hc1. unfold lock_ok. rewrite E. split_and!; try done. intros Hs. rewrite HA in Hc; done. }
    assert (ct (server_writes p m r) = ct r /\ changed (server_writes p m r) = changed r) as [E1 E2].
    { unfold server_writes. by destruct (mapped (st r) !! p). }
    destruct sig; apply Same; unfold with_control; cbn [ct]; rewrite ?E1, ?Hsig; try done; unfold changed in *; cbn [st wn]; by rewrite ?E2.
Qed.

(** The steps of the renderer that are not spent waiting for the forwarding thread. *)
Fixpoint renders (ls : list label) : nat :=
  match ls with
  | [] => 0
  | Render e :: ls => if relocked e then S (renders ls) else renders ls
  | _ :: ls => renders ls
  end.

Lemma rank_positive r : lock_ok r -> changed r = true -> (0 < rank (at_ (ct r)))%nat.
Proof. intros [_ HA] Hc. destruct (at_ (ct r)); cbn in *; try lia; by rewrite HA in Hc. Qed.

Lemma main_woken r : main_idle r = false -> exists k, main (signal_stateChangeFinishCond (ct r)) = MWoken k.
Proof. unfold main_idle, signal_stateChangeFinishCond. destruct (main (ct r)) eqn:E; cbn; [done|eauto|eauto]. Qed.

(** C18: a setter does not wait for ever: once the renderer holds [stateLock] where its code
    says ([lock_ok], which every step keeps, but which the start of the thread does not give),
    while a change is pending, and whatever the server writes and whichever wake-ups there are,
    after at most eight steps of the renderer, not counting those in which it is blocked in the
    call that makes the forwarding thread listen to the new state, the change has been
    applied, the main thread is awake and [stateLock] is free, so that the call of the main
    thread returns. *)
Theorem setter_returns base ls r :
  renderer_ok base r -> lock_ok r -> labels_ok ls r -> changed r = true -> (8 <= renders ls)%nat ->
  exists l1 l2 r1 r2, ls = l1 ++ l2 /\ run l1 r = Some r1 /\ changed r1 = false /\ renderer_ok base r1 /\
    exec MainWakes r1 = Some r2 /\ main (ct r2) = MIdle.
Proof.
  intros H HL Hls Hc Hr. assert (rank (at_ (ct r)) <= renders ls)%nat as Hrank.
  { destruct (at_ (ct r)); cbn; lia. }
  clear Hr. revert r H HL Hls Hc Hrank. induction ls as [|l ls IH]; intros r H HL Hls Hc Hrank.
  { pose proof (rank_positive r HL Hc). cbn in Hrank. lia. }
  destruct Hls as [Hl Hls]. destruct (exec_ok base l r H Hl) as (r1 & E & H1). rewrite E in Hls.
  assert (lock_ok r1 /\ changed r1 = true /\ (rank (at_ (ct r1)) <= renders ls)%nat ->
    exists l1 l2 r2 r3, l :: ls = l1 ++ l2 /\ run l1 r = Some r2 /\ changed r2 = false /\ renderer_ok base r2 /\
      exec MainWakes r2 = Some r3 /\ main (ct r3) = MIdle) as Later.
  { intros (HL1 & Hc1 & Hr1). destruct (IH r1 H1 HL1 Hls Hc1 Hr1) as (l1 & l2 & r2 & r3 & -> & Er & Rest).
    exists (l :: l1), l2, r2, r3. split; [done|]. split; [|done]. cbn [run]. by rewrite E. }
  destruct (render_or_not l) as [[e ->]|Hn].
  - cbn [exec label_ok renders] in *. destruct (render_lock_ok base e r r1 H HL Hl E) as [HL1 Hp].
    destruct (Hp Hc) as [(Er & Hc1 & Hle)|[[Hc1 Hlt]|(Hc1 & Ea & Em)]].
    { apply Later. rewrite Er in Hrank. split_and!; done || lia. }
    { apply Later. split_and!; try done. destruct (relocked e); lia. }
    destruct (main_woken r (changed_busy _ _ H Hc)) as [k Ek]. rewrite Ek in Em.
    exists [Render e], ls, r1, (setter_loop k r1). split_and!; try done.
    + cbn. by rewrite E.
    + cbn [exec]. rewrite Em. destruct HL1 as [-> _]. by rewrite Ea.
    + unfold changed in Hc1. apply orb_false_iff in Hc1 as [E1 E2]. unfold setter_loop. cbn. destruct k; by rewrite ?E1, ?E2.
  - destruct (others_wait base l r r1 H HL Hc) as (HL1 & Hc1 & Ea); [exact Hn|done|].
    apply Later. split_and!; try done. rewrite Ea. destruct l; cbn in Hrank |- *; try done. by edestruct Hn.
Qed.

(** [lock_ok] holds in every execution from a state where it does. *)
Lemma exec_lock_ok base l r r' :
  renderer_ok base r -> lock_ok r -> label_ok l r -> exec l r = Some r' -> lock_ok r'.
Proof.
  intros H HL Hl E. destruct (render_or_not l) as [[e ->]|Hn].
  { by destruct (render_lock_ok base e r r' H HL Hl E). }
  destruct (changed r) eqn:Hc; [destruct (others_wait base l r r' H HL Hc) as (? & _); [exact Hn|done|done]|].
  destruct HL as [HL HA].
  assert (forall r1 : Renderer, (ct r1 = ct r \/ ct r1 = signal_stateCond (ct r)) -> changed r1 = false -> lock_ok r1) as Same.
  { intros r1 [E1|E1] Hc1; split; rewrite E1; try done. by rewrite signal_lock, signal_holds. }
  destruct l as [p m|w|p id n|id| | | |e|p m sig]; cbn [exec label_ok] in *.
  - destruct (main_idle r), (locked (ct r)) eqn:El; cbn [andb negb] in E; simplify_eq; try (by split; rewrite ?El).
    split; cbn; rewrite ?signal_lock, ?signal_holds, ?El; [done|]. intros Hs. apply signal_asleep in Hs as [_ Hs]. congruence.
  - destruct (main_idle r), (locked (ct r)) eqn:El; cbn [andb negb] in E; simplify_eq; try (by split; rewrite ?El).
    unfold rendererSetWindow in E. destruct (_ && _)%bool; apply bind_Some in E as (lg & _ & E); simplify_eq.
    { split; cbn; [by rewrite El|]. done. }
    split; cbn; rewrite ?signal_lock, ?signal_holds, ?El; [done|]. intros Hs. apply signal_asleep in Hs as [_ Hs]. congruence.
  - destruct (main_idle r); simplify_eq; apply Same; auto.
  - destruct (main_idle r); [apply bind_Some in E as (b & _ & E)|]; simplify_eq; apply Same; auto.
  - destruct (main_idle r); [apply bind_Some in E as (b & _ & E)|]; simplify_eq; apply Same; auto.
  - destruct (main (ct r)) as [|k|k]; [by simplify_eq| |];
      (destruct (locked (ct r)) eqn:El; simplify_eq; split; cbn; rewrite ?El; done).
  - simplify_eq. apply Same; auto.
  - by edestruct Hn.
  - assert (ct (server_writes p m r) = ct r /\ changed (server_writes p m r) = changed r) as [E1 E2].
    { unfold server_writes. by destruct (mapped (st r) !! p). }
    destruct sig; simplify_eq; apply Same; unfold with_control; cbn [ct]; rewrite ?E1; auto;
      unfold changed in *; cbn [st wn]; by rewrite ?E2.
Qed.

(** ** Frames have a surface *)

(** EGL also makes the new surface and takes it as the current one. *)
Definition egl_good (e : EglEnv) (v : Windows) : Prop := egl_ok e v /\ create e <> 0 /\ make_current e = true.

Definition shown (v : Windows) : Prop := sfc v <> 0 /\ sfc v <> defaultSfc v /\ current v = sfc v.

(** The flag in the shared memory and the window agree. *)
Definition flag_ok (s : States) (v : Windows) : Prop :=
  forall m, state s <> 0 -> mapped s !! state s = Some m -> surfaceAvailable m = true -> win v <> defaultWin v.

Definition about_to_draw (p : pc) : bool := match p with Find | Drawing _ => true | _ => false end.

Record surface_ok (d : Z) (r : Renderer) : Prop := {
  surface_default : defaultSfc (wn r) = d;
  surface_shown : win (wn r) <> defaultWin (wn r) -> shown (wn r);
  surface_flag : flag_ok (st r) (wn r);
  surface_drawing : about_to_draw (at_ (ct r)) = true -> win (wn r) <> defaultWin (wn r);
  surface_frames : Forall (fun f => snd f <> 0 /\ snd f <> d) (frames (ct r));
}.

Lemma flag_update f s s' v :
  states_ok s -> update_state f s = Some s' ->
  (forall m, surfaceAvailable (f m) = true -> surfaceAvailable m = true \/ win v <> defaultWin v) ->
  flag_ok s v -> flag_ok s' v.
Proof.
  intros S E Hf H m Hs Hm Ha. destruct (update_state_ok f s S) as (s1 & E1 & _ & Es & _ & _ & L). rewrite E1 in E. injection E as <-.
  rewrite Es in *. rewrite L, decide_True in Hm by done. apply fmap_Some in Hm as (m0 & Hm0 & ->).
  destruct (Hf m0 Ha); [by apply (H m0)|done].
Qed.

(** A good refresh makes the flag and the surface agree with the window. *)
Lemma refresh_shown base e s v s' v' :
  windows_ok base v -> states_ok s -> egl_good e v -> rendererRefreshContext e s v = Some (s', v') ->
  (win v' <> defaultWin v' -> shown v') /\ flag_ok s' v'.
Proof.
  intros W S (He & Hc & Hm). unfold rendererRefreshContext.
  destruct (if negb (pendingWin v =? 0) then (width e, height e) else (0, 0)) as [w h].
  destruct (releaseWinAndSurface_ok base e v W He) as (v1 & -> & _ & _ & _ & Hs1 & _). cbn [mbind option_bind].
  intros H. apply bind_Some in H as (v2 & Hv2 & H).
  assert (defaultSfc v2 = defaultSfc v) as Hs2.
  { destruct (_ && _)%bool; [|congruence]. unfold releasePendingWin in Hv2.
    destruct (_ && _)%bool; [apply bind_Some in Hv2 as (l & _ & Hv2)|]; by simplify_eq. }
  cbn [take_pending win sfc current defaultWin defaultSfc ledger] in H.
  assert (forall b f w1, (forall m, surfaceAvailable (f m) = b) -> (b = true -> win w1 <> defaultWin w1) ->
    forall s1, update_state f s = Some s1 -> flag_ok s1 w1) as Flag.
  { intros b f w1 Hf Hb s1 E m Hs Hm1 Ha. destruct (update_state_ok f s S) as (s2 & E2 & _ & Es & _ & _ & L).
    rewrite E2 in E. injection E as <-. rewrite Es in *. rewrite L, decide_True in Hm1 by done.
    apply fmap_Some in Hm1 as (m0 & _ & ->). rewrite Hf in Ha. auto. }
  destruct (Z.eqb_spec (pendingWin v2) 0) as [Ep|Ep].
  - apply bind_Some in H as (s1 & Hu & H). injection H as <- <-. split; [done|].
    eapply (Flag false); [| |exact Hu]; done.
  - rewrite (proj2 (Z.eqb_neq _ _)) in H by done. rewrite Hm in H. cbn [negb set_win win sfc current ledger] in H.
    apply bind_Some in H as (s1 & Hu & H). injection H as <- <-. split.
    + intros _. split_and!; cbn; [done|rewrite Hs2; apply He|done].
    + eapply (Flag (negb (pendingWin v2 =? defaultWin v2))); [| |exact Hu]; [done|]. cbn. intros Hb.
      apply negb_true_iff, Z.eqb_neq in Hb. done.
Qed.

Definition label_good (l : label) (r : Renderer) : Prop :=
  label_ok l r /\ match l with Render e => egl_good e (wn r) | _ => True end.

Lemma surface_ct d r c :
  surface_ok d r -> frames c = frames (ct r) -> (about_to_draw (at_ c) = true -> about_to_draw (at_ (ct r)) = true) ->
  surface_ok d {| st := st r; wn := wn r; bf := bf r; ct := c |}.
Proof. intros [H1 H2 H3 H4 H5] Hf Ha. split; cbn; auto. by rewrite Hf. Qed.

Lemma surface_bf d r b : surface_ok d r -> surface_ok d {| st := st r; wn := wn r; bf := b; ct := ct r |}.
Proof. by intros [H1 H2 H3 H4 H5]. Qed.

Lemma apply_surface base d e r r' :
  renderer_ok base r -> at_ (ct r) = Apply -> egl_good e (wn r) -> surface_ok d r -> apply_changes e r = Some r' ->
  surface_ok d r'.
Proof.
  intros H Ea He D E. destruct (stateChanged (st r) && negb (relocked e)) eqn:Eb.
  { apply andb_true_iff in Eb as [Ec Er]. apply negb_true_iff in Er. rewrite (apply_changes_blocked e r Ec Er) in E. by injection E as <-. }
  assert (stateChanged (st r) = true -> relocked e = true) as Hr by (intros Ec; rewrite Ec in Eb; by destruct (relocked e)).
  destruct D as [D1 D2 D3 D4 D5].
  destruct (apply_changes_ok base e r H Ea (proj1 He) Hr) as (r0 & E0 & _ & Eat & _ & _ & _ & Ef & _).
  assert (r0 = r') as -> by congruence. clear E0. unfold apply_changes in E.
  destruct (apply_state_ok e r (ok_states _ _ H) Hr) as (r1 & E1 & S1 & _ & W1 & _ & _ & _ & _ & Same & New). rewrite E1 in E.
  cbn [mbind option_bind] in E. apply bind_Some in E as (r2 & E2 & E). apply bind_Some in E as (r3 & E3 & E). injection E as <-.
  assert (flag_ok (st r1) (wn r1)) as F1.
  { destruct (stateChanged (st r)); [|by rewrite Same]. intros m _ Hm Ha. rewrite (New eq_refl m Hm) in Ha. rewrite W1.
    by apply negb_true_iff, Z.eqb_neq in Ha. }
  assert ((win (wn r2) <> defaultWin (wn r2) -> shown (wn r2)) /\ flag_ok (st r2) (wn r2) /\ defaultSfc (wn r2) = d) as (G1 & G2 & G3).
  { unfold apply_window in E2. rewrite W1 in E2. destruct (windowChanged (wn r)).
    - apply bind_Some in E2 as ([s' v'] & E2 & E'). injection E' as <-. cbn.
      destruct (refresh_shown base e (st r1) (wn r) s' v' (ok_windows _ _ H) S1 He E2) as [? ?].
      destruct (rendererRefreshContext_ok base e (st r1) (wn r) (ok_windows _ _ H) S1 (proj1 He)) as (s2 & v2 & E' & _ & _ & _ & _ & _ & Hd).
      assert (v2 = v') as -> by congruence. rewrite Hd. done.
    - injection E2 as <-. rewrite W1 in *. done. }
  unfold apply_buffers in E3. apply bind_Some in E3 as (b & _ & E3). injection E3 as <-.
  split; cbn in *; try done. by rewrite Ef.
Qed.

Lemma render_surface base d e r r' :
  renderer_ok base r -> surface_ok d r -> egl_good e (wn r) -> rendererThread e r = Some r' -> surface_ok d r'.
Proof.
  intros H D Hg E. pose proof D as [D1 D2 D3 D4 D5].
  unfold rendererThread in E. destruct (at_ (ct r)) as [|ch| | | | | | |p| |] eqn:Ea; cbn in D4.
  - injection E as <-. by apply surface_ct.
  - destruct (rendererShouldWait_ok base ch r H) as (w & r1 & E1 & Es & Ew & Eb & _ & _ & _ & Ef & _). rewrite E1 in E.
      cbn [mbind option_bind fst snd] in E. injection E as <-. unfold with_control. rewrite Es, Ew, Eb.
      apply surface_ct; cbn; [done|done|by destruct w].
  - injection E as <-. by apply surface_ct.
  - by injection E as <-.
  - destruct (locked (ct r)); injection E as <-; [done|]. by apply surface_ct.
  - by apply (apply_surface base d e r r').
  - destruct (Z.eqb_spec (state (st r)) 0) as [E0|E0]; [injection E as <-; by apply surface_ct|].
      apply bind_Some in E as (m & Hm & E). injection E as <-. split; cbn; try done. intros Ha. apply (D3 m E0 Hm).
      unfold should_draw in Ha. by destruct (surfaceAvailable m).
  - unfold redraw_find in E. apply bind_Some in E as (m & Hm & E). injection E as <-.
      match goal with |- context [match ?f with _ => _ end] => destruct f end; (apply surface_ct; [done|done|]);
        cbn; rewrite Ea; done.
  - unfold redraw_frame in E. apply bind_Some in E as (i & _ & E). apply bind_Some in E as (s & Eu & E). injection E as <-.
      split; cbn; try done.
    + eapply flag_update; [apply (ok_states _ _ H)|exact Eu| |done]. intros m1 Hm1. by left.
    + constructor; [|done]. cbn. destruct (D2 (D4 eq_refl)) as (? & ? & _). by rewrite <- D1.
  - apply bind_Some in E as (b & _ & E). injection E as <-. apply (surface_ct d _ _ (surface_bf d r _ D)); done.
  - destruct (locked (ct r)); injection E as <-; [done|]. by apply surface_ct.
Qed.

Lemma exec_surface base d l r r' :
  renderer_ok base r -> surface_ok d r -> label_good l r -> exec l r = Some r' -> surface_ok d r'.
Proof.
  intros H D [Hl Hg] E.
  assert (forall c, frames (signal_stateCond c) = frames c /\
    (about_to_draw (at_ (signal_stateCond c)) = true -> about_to_draw (at_ c) = true)) as Sig.
  { intros c. unfold signal_stateCond. case_decide; cbn; done. }
  pose proof D as [D1 D2 D3 D4 D5].
  destruct l as [p m|w|p id n|id| | | |e|p m sig]; cbn [exec label_ok] in *.
  - destruct (main_idle r) eqn:Ei; cbn [andb] in E; [destruct (locked _); cbn [negb] in E|]; injection E as <-; try done.
    split; cbn; try done; [|intros Ha; apply D4; by apply (Sig (ct r))|by rewrite (proj1 (Sig _))].
    intros m1 Hs Hm Ha. apply (D3 m1 Hs); [|done]. cbn in Hs, Hm. destruct (Z.eqb_spec p 0); [done|].
    destruct (decide (p = state (st r))) as [->|Hne]; [|by rewrite lookup_insert_ne in Hm].
    destruct (proj2 (states_mapped _ (ok_states _ _ H) (state (st r)))) as [m2 Hm2]; [auto|]. destruct Hl; congruence.
  - destruct (main_idle r) eqn:Ei; cbn [andb] in E; [destruct (locked _); cbn [negb] in E|]; try (injection E as <-; done).
    unfold rendererSetWindow in E. destruct (_ && _)%bool; apply bind_Some in E as (lg & _ & E); injection E as <-.
    + by split.
    + split; cbn; try done; [intros Ha; apply D4; by apply (Sig (ct r))|by rewrite (proj1 (Sig _))].
  - destruct (main_idle r); injection E as <-; [|done].
    split; cbn; try done; [intros Ha; apply D4; by apply (Sig (ct r))|by rewrite (proj1 (Sig _))].
  - destruct (main_idle r); [apply bind_Some in E as (b & _ & E)|]; injection E as <-; [by apply surface_bf|done].
  - destruct (main_idle r); [apply bind_Some in E as (b & _ & E)|]; injection E as <-; [by apply surface_bf|done].
  - destruct (main (ct r)) as [|k|k]; [by injection E as <-| |]; (destruct (locked (ct r)); injection E as <-; [done|]; by apply surface_ct).
  - injection E as <-. apply surface_ct; [done|apply Sig..].
  - by apply (render_surface base d e r r').
  - assert (surface_ok d (server_writes p m r)) as D'.
    { unfold server_writes. destruct (mapped (st r) !! p) as [old|] eqn:Eo; [|done]. split; cbn; try done.
      intros m1 Hs Hm1 Ha. destruct (decide (p = state (st r))) as [->|Hne]; cbn in Hs, Hm1.
      - rewrite lookup_insert_eq in Hm1. injection Hm1 as <-. by apply (D3 old Hs).
      - rewrite lookup_insert_ne in Hm1 by done. by apply (D3 m1 Hs). }
    destruct sig; injection E as <-; [|done]. apply (surface_ct d _ _ D'); apply Sig.
Qed.

Fixpoint labels_good (ls : list label) (r : Renderer) : Prop :=
  match ls with
  | [] => True
  | l :: ls => label_good l r /\ match exec l r with Some r' => labels_good ls r' | None => True end
  end.

(** C32: while EGL makes the surfaces that are asked for, every frame is drawn to a surface of
    a window: never to none and never to the surface that stands in for a window. *)
Theorem frames_have_surface base d ls r :
  renderer_ok base r -> surface_ok d r -> labels_good ls r ->
  exists r', run ls r = Some r' /\ surface_ok d r'.
Proof.
  revert r. induction ls as [|l ls IH]; intros r H D Hl; [by exists r|]. destruct Hl as [Hl Hls].
  destruct (exec_ok base l r H (proj1 Hl)) as (r1 & E & H1). rewrite E in Hls. cbn [run]. rewrite E. cbn [mbind option_bind].
  apply IH; [done| |done]. by apply (exec_surface base d l r).
Qed.

(** ** What goes wrong *)

Lemma waiting_stays n e r : at_ (ct r) = Waiting -> run (replicate n (Render e)) r = Some r.
Proof. intros H. induction n as [|n IH]; [done|]. cbn. unfold rendererThread. by rewrite H. Qed.

(** C0: [rendererAddBuffer] signals without [stateLock], so that the signal is lost when the
    renderer has looked at the lists and is about to wait: it sleeps, however often it is
    scheduled, although a buffer waits to be attached. *)
Theorem added_buffer_sleeps n e p id k r :
  at_ (ct r) = Sleep -> main_idle r = true ->
  exists r', run (AddBuffer p id k :: replicate (S n) (Render e)) r = Some r' /\
    at_ (ct r') = Waiting /\ p ∈ addedBuffers (bf r').
Proof.
  intros Ha Hi. cbn [run exec replicate]. rewrite Hi. cbn [mbind option_bind].
  assert (signal_stateCond (ct r) = ct r) as Hs by (apply signal_awake; by rewrite Ha).
  unfold rendererThread, rendererAddBuffer, with_control. cbn. rewrite Hs, Ha. cbn [mbind option_bind].
  rewrite waiting_stays by done. eexists. split; [done|]. split; [done|]. cbn. by left.
Qed.

(** Nobody wakes the renderer but the main thread. *)
Definition no_wake (l : label) : Prop :=
  match l with RendererWakes => False | ServerWrites _ _ signals => signals = false | _ => True end.

Definition stuck (r : Renderer) : Prop :=
  at_ (ct r) = Waiting /\ (main (ct r) = MWait KWindow \/ main (ct r) = MWoken KWindow) /\ windowChanged (wn r) = true /\
  locked (ct r) = false.

Lemma stuck_stays l r : stuck r -> no_wake l -> exists r', exec l r = Some r' /\ stuck r'.
Proof.
  intros S Hn. pose proof S as (Ha & Hm & Hw & Hl). assert (main_idle r = false) as Hi by (unfold main_idle; by destruct Hm as [-> | ->]).
  destruct l as [p m|w|p id n|id| | | |e|p m sig]; cbn [exec]; rewrite ?Hi; cbn [andb]; try (eexists; by split); try done.
  - exists (setter_loop KWindow r). split; [by destruct Hm as [-> | ->]; rewrite Hl|]. unfold setter_loop. rewrite Hw. split_and!; cbn; auto.
  - exists r. unfold rendererThread. by rewrite Ha.
  - cbn in Hn. subst sig. eexists. split; [done|]. unfold server_writes. by destruct (mapped (st r) !! p).
Qed.

Lemma stuck_run ls r : stuck r -> Forall no_wake ls -> exists r', run ls r = Some r' /\ stuck r'.
Proof.
  intros H Hl. revert r H. induction Hl as [|l ls Hn _ IH]; intros r H; [eauto|]. cbn [run].
  destruct (stuck_stays l r H Hn) as (r1 & -> & H1). by apply IH.
Qed.

(** C37: the thread begins its loop without [stateLock], so that the first window can come
    after its look at the flags and before its wait: the main thread then waits in
    [rendererSetWindow] for a renderer that sleeps, whatever both do, until a wake-up without
    a reason. *)
Theorem first_window_deadlock dw ds w e ls :
  w <> 0 -> Forall no_wake ls ->
  exists r', run ([Render e; Render e; SetWindow w; Render e] ++ ls) (renderer_start dw ds) = Some r' /\
    at_ (ct r') = Waiting /\ main_idle r' = false.
Proof.
  intros Hw Hl. assert (exists r, stuck r /\ forall ls, run ([Render e; Render e; SetWindow w; Render e] ++ ls) (renderer_start dw ds) = run ls r)
    as (r & Hr & E).
  { eexists. split; [|intros ls'; cbn -[rendererSetWindow]]; cycle 1.
    - unfold rendererSetWindow. cbn -[Z.eqb]. rewrite (proj2 (Z.eqb_neq w 0)), (proj2 (Z.eqb_neq 0 w)) by done. cbn. reflexivity.
    - repeat split; auto. }
  rewrite E. destruct (stuck_run ls r Hr Hl) as (r' & Er & Ha & Hm & _). exists r'. split_and!; try done.
  unfold main_idle. by destruct Hm as [-> | ->].
Qed.

(** C0: when EGL makes no surface for a new window, [surfaceAvailable] keeps its value, so
    that after a window that had a surface the server goes on drawing, and the renderer
    draws to no surface. *)
Theorem failed_surface_keeps_flag base e s v :
  windows_ok base v -> egl_ok e v -> pendingWin v <> 0 -> pendingWin v <> defaultWin v -> 0 < width e -> 0 < height e ->
  create e = 0 ->
  exists v', rendererRefreshContext e s v = Some (s, v') /\ win v' = pendingWin v /\ sfc v' = 0.
Proof.
  intros W He Hp Hd Hwd Hh Hc. unfold rendererRefreshContext. rewrite (proj2 (Z.eqb_neq (pendingWin v) 0)) by done. cbn [negb].
  destruct (releaseWinAndSurface_ok base e v W He) as (v1 & -> & _ & Hp1 & _). cbn [mbind option_bind]. rewrite Hp1.
  rewrite (proj2 (Z.eqb_neq (pendingWin v) 0)), (proj2 (Z.leb_gt (width e) 0)), (proj2 (Z.leb_gt (height e) 0)) by done.
  cbn [negb orb andb mbind option_bind take_pending win]. rewrite Hp1, (proj2 (Z.eqb_neq (pendingWin v) 0)) by done.
  rewrite Hc. cbn. eexists. split; [reflexivity|]. done.
Qed.

(** A refresh applies the window that waits: a window with an area is current with a
    surface of its own, and without a window the old surface and the old window are given
    up before the main thread goes on. *)
Theorem refresh_applies base e s v :
  windows_ok base v -> states_ok s -> egl_good e v -> pendingWin v <> defaultWin v -> 0 < width e -> 0 < height e ->
  exists s' v', rendererRefreshContext e s v = Some (s', v') /\ windowChanged v' = false /\ pendingWin v' = 0 /\
    (pendingWin v <> 0 -> win v' = pendingWin v /\ sfc v' = create e /\ current v' = create e /\
       ledger v' ≡ₚ HWindow (pendingWin v) :: HSurface (create e) :: base) /\
    (pendingWin v = 0 -> win v' = defaultWin v /\ ledger v' ≡ₚ base /\
       (forall m, state s <> 0 -> mapped s' !! state s = Some m -> surfaceAvailable m = false)).
Proof.
  intros W S (He & Hc & Hm) Hd Hwd Hh. pose proof (windows_default _ _ W) as Hd0.
  destruct (rendererRefreshContext_ok base e s v W S He) as (s1 & v1' & E & _ & _ & Same & Hw & _). exists s1, v1'. split; [done|].
  revert E. unfold rendererRefreshContext.
  destruct (releaseWinAndSurface_ok base e v W He) as (v1 & -> & HL1 & Hp1 & Hd1 & Hs1 & _). cbn [mbind option_bind].
  rewrite Hp1. unfold window_held in HL1. rewrite (proj2 (Z.eqb_neq (pendingWin v) (defaultWin v))), orb_false_r in HL1 by done.
  destruct (Z.eqb_spec (pendingWin v) 0) as [Ep|Ep]; cbn [negb andb] in *.
  - cbn [mbind option_bind take_pending win set_win]. rewrite Hp1, Ep. cbn [Z.eqb].
    destruct (update_state_ok (set_surfaceAvailable false) s S) as (s2 & -> & _ & _ & _ & _ & L). cbn [mbind option_bind].
    intros [= <- <-]. cbn. split_and!; try done. intros _. split_and!; [by rewrite Hd1|done|].
    intros m _ Hmm. rewrite L, decide_True in Hmm by done. apply fmap_Some in Hmm as (? & _ & ->). done.
  - rewrite (proj2 (Z.leb_gt (width e) 0)), (proj2 (Z.leb_gt (height e) 0)) by done.
    cbn [orb andb mbind option_bind take_pending win sfc current set_win]. rewrite Hp1, (proj2 (Z.eqb_neq (pendingWin v) 0)) by done.
    rewrite (proj2 (Z.eqb_neq (create e) 0)), Hm by done. cbn [negb].
    destruct (update_state (set_surface (negb (pendingWin v =? defaultWin v1))) s) as [s2|] eqn:Eu; cbn; rewrite ?Eu; cbn; [|done].
    intros [= <- <-]. cbn. split_and!; try done. intros _. split_and!; try done. rewrite HL1. apply Permutation_swap.
Qed.

(** ** Sessions *)

Lemma start_surface dw ds : surface_ok ds (renderer_start dw ds).
Proof. by split. Qed.

Lemma frames_have_surface_witness :
  exists r', run demo_labels (renderer_start 1 2) = Some r' /\ surface_ok 2 r'.
Proof.
  apply (frames_have_surface [] 2 demo_labels); [by apply start_ok|apply start_surface|].
  vm_compute. repeat split; auto; try discriminate.
Defined.

(** A window comes while the renderer waits. *)
Definition waiting_renderer (w : Z) : Renderer :=
  {| st := {| state := 0; pendingState := 0; stateChanged := false; mapped := ∅ |};
     wn := {| win := 1; sfc := 2; current := 2; pendingWin := w; windowChanged := true; defaultWin := 1;
              defaultSfc := 2; ledger := [HWindow w] |};
     bf := {| addedBuffers := []; buffers := []; removedBuffers := []; live := ∅ |};
     ct := {| at_ := Woken; main := MWait KWindow; locked := false; waitingForBuffers := false; lastRequestedBufferId := 0; frames := [] |} |}.

Lemma waiting_renderer_ok : renderer_ok [] (waiting_renderer 7).
Proof.
  destruct (start_ok 1 2) as [H1 H2 H3 H4 [H5 H6 H7] H8]; [done|]. by split.
Qed.

Lemma setter_returns_witness :
  exists l1 l2 r1 r2, MainWakes :: rounds 8 9 = l1 ++ l2 /\ run l1 (waiting_renderer 7) = Some r1 /\ changed r1 = false /\
    renderer_ok [] r1 /\ exec MainWakes r1 = Some r2 /\ main (ct r2) = MIdle.
Proof.
  apply (setter_returns [] (MainWakes :: rounds 8 9)).
  - apply waiting_renderer_ok.
  - by split.
  - vm_compute. repeat split; auto; try discriminate.
  - done.
  - cbn. lia.
Defined.

Definition sleepy_renderer : Renderer := with_control (goto Sleep) (renderer_start 1 2).

Lemma added_buffer_sleeps_witness :
  exists r', run (AddBuffer 100 10 1 :: replicate 3 (Render (demo_egl 9))) sleepy_renderer = Some r' /\
    at_ (ct r') = Waiting /\ 100 ∈ addedBuffers (bf r').
Proof. by apply (added_buffer_sleeps 2 (demo_egl 9) 100 10 1 sleepy_renderer). Defined.

Lemma first_window_deadlock_witness :
  exists r', run ([Render (demo_egl 9); Render (demo_egl 9); SetWindow 7; Render (demo_egl 9)] ++ rounds 5 9 ++ [MainWakes; AddBuffer 100 10 1])
      (renderer_start 1 2) = Some r' /\ at_ (ct r') = Waiting /\ main_idle r' = false.
Proof. apply (first_window_deadlock 1 2 7 (demo_egl 9) (rounds 5 9 ++ [MainWakes; AddBuffer 100 10 1])); [done|]. repeat constructor. Defined.

Definition demo_states : States :=
  {| state := 5; pendingState := 0; stateChanged := false; mapped := {[5 := set_surfaceAvailable true (demo_shared 10 true)]} |}.

Lemma demo_states_ok : states_ok demo_states.
Proof.
  split; cbn; try done. intros p. rewrite lookup_singleton_is_Some. split; [intros <-; auto|]. by intros [? [?|?]].
Qed.

Lemma failed_surface_keeps_flag_witness :
  exists v', rendererRefreshContext (demo_egl 0) demo_states (wn (waiting_renderer 7)) = Some (demo_states, v') /\
    win v' = pendingWin (wn (waiting_renderer 7)) /\ sfc v' = 0.
Proof.
  apply (failed_surface_keeps_flag []); done || apply waiting_renderer_ok.
Defined.

Lemma refresh_applies_witness :
  exists s' v', rendererRefreshContext (demo_egl 9) demo_states (wn (waiting_renderer 7)) = Some (s', v') /\
    windowChanged v' = false /\ pendingWin v' = 0 /\
    (pendingWin (wn (waiting_renderer 7)) <> 0 -> win v' = 7 /\ sfc v' = create (demo_egl 9) /\ current v' = create (demo_egl 9) /\
       ledger v' ≡ₚ [HWindow 7; HSurface (create (demo_egl 9))]) /\
    (pendingWin (wn (waiting_renderer 7)) = 0 -> win v' = defaultWin (wn (waiting_renderer 7)) /\ ledger v' ≡ₚ [] /\
       (forall m, state demo_states <> 0 -> mapped s' !! state demo_states = Some m -> surfaceAvailable m = false)).
Proof.
  apply (refresh_applies [] (demo_egl 9) demo_states (wn (waiting_renderer 7)));
    done || apply waiting_renderer_ok || apply demo_states_ok.
Defined.

(** The server asks for a buffer that has not come yet and goes back to the old one before the
    renderer looks again: the renderer waits for a buffer although the one that is asked for
    is attached, and wakes up in vain. *)
Definition ask (root : Z) : label := ServerWrites 5 (demo_shared root true) true.
Example waits_for_buffer_that_is_there :
  option_map (fun r => (at_ (ct r), waitingForBuffers (ct r), buffers (bf r), lastRequestedBufferId (ct r),
                        option_map should_draw (mapped (st r) !! 5)))
    (run (demo_labels ++ ask 10 :: rounds 5 9 ++ rounds 1 9 ++ ask 20 :: rounds 1 9 ++ ask 10 :: rounds 5 9 ++
          RendererWakes :: rounds 4 9) (renderer_start 1 2)) =
  Some (Waiting, true, [100], 10, Some true).
Proof. vm_compute. reflexivity. Qed.

(** After a window whose surface cannot be made, frames are drawn to no surface. *)
Example frames_without_surface :
  option_map (fun r => frames (ct r))
    (run (demo_labels ++ SetWindow 8 :: rounds 5 0 ++ MainWakes :: ask 10 :: rounds 3 0) (renderer_start 1 2)) =
  Some [(100, 0); (100, 9)].
Proof. vm_compute. reflexivity. Qed.
