(* ===== verification/CondProxy.v ===== *)
(** * The thread that waits for the server

    The proxy of [lorie/renderer.c] (lines 758 to 798): a thread of the activity that waits
    for the condition variable of the server's shared state and signals the renderer's own
    one, and [pthreadCondVarProxyListenOtherCondVar], with which the renderer makes it wait
    for another variable. The renderer is at its call or in the loop of its thread, reduced to
    its look at the server's requests and its wait ([Renderer] has the rest). *)

From S2P Require Import Prelude.

(** ** The threads *)

(** A condition variable is its address, 0 for NULL. *)
Definition def : Z := 1.

Inductive proxy_pc :=
  | PStart             (* before pthread_mutex_lock *)
  | PLoop              (* before pthread_cond_wait, with the lock *)
  | PAsleep (var : Z)  (* in it *)
  | PWoken             (* in it, before the lock is taken again *)
  | PHandle.           (* behind it, with the lock *)

Inductive renderer_pc :=
  | RLook              (* before rendererShouldWait *)
  | RDecided           (* behind it, before pthread_cond_wait(&stateCond, &stateLock) *)
  | RSleeping          (* in it *)
  | RCall (var : Z)    (* at the call, before pthread_mutex_lock *)
  | RSet (var : Z)     (* behind it, with the lock *)
  | RCheck (var : Z)   (* at the condition of the loop, with the lock *)
  | RAsleep (var : Z)  (* in pthread_cond_wait(&stateCond, &proxy.lock) *)
  | RWoken (var : Z).  (* in it, before the lock is taken again *)

Inductive thread := TProxy | TRenderer.

(** [work]: the server asked for a frame that is not drawn yet. *)
Record Proxy := {
  lock : option thread; current : Z; pending : Z; relocked : bool; proxy : proxy_pc; renderer : renderer_pc; work : bool;
}.

Definition proxy_at (p : proxy_pc) (l : option thread) (s : Proxy) : Proxy :=
  {| lock := l; current := current s; pending := pending s; relocked := relocked s; proxy := p; renderer := renderer s; work := work s |}.
Definition renderer_at (r : renderer_pc) (l : option thread) (s : Proxy) : Proxy :=
  {| lock := l; current := current s; pending := pending s; relocked := relocked s; proxy := proxy s; renderer := r; work := work s |}.

(** The signal of a variable that the proxy may wait for, and the signal of [stateCond]; a
    signal for which nobody waits is lost. *)
Definition signal (var : Z) (s : Proxy) : Proxy :=
  match proxy s with PAsleep v => if v =? var then proxy_at PWoken (lock s) s else s | _ => s end.

Definition signal_stateCond (s : Proxy) : Proxy :=
  match renderer s with
  | RAsleep v => renderer_at (RWoken v) (lock s) s
  | RSleeping => renderer_at RLook (lock s) s
  | _ => s
  end.

(** One step of the proxy; [None] where it sleeps or waits for the lock. *)
Definition pthreadCondVarProxyThread (s : Proxy) : option Proxy :=
  match proxy s with
  | PStart => match lock s with None => Some (proxy_at PLoop (Some TProxy) s) | _ => None end
  | PLoop => Some (proxy_at (PAsleep (current s)) None s)
  | PAsleep _ => None
  | PWoken => match lock s with None => Some (proxy_at PHandle (Some TProxy) s) | _ => None end
  | PHandle =>
      Some (signal_stateCond
        {| lock := lock s; current := if negb (pending s =? 0) then pending s else current s; pending := 0; relocked := true;
           proxy := PLoop; renderer := renderer s; work := work s |})
  end.

Definition target (var : Z) : Z := if negb (var =? 0) then var else def.

(** One step of the renderer in its call; [None] where it sleeps, waits for the lock or is
    not in the call. *)
Definition pthreadCondVarProxyListenOtherCondVar (s : Proxy) : option Proxy :=
  match renderer s with
  | RCall v => match lock s with None => Some (renderer_at (RSet v) (Some TRenderer) s) | _ => None end
  | RSet v =>
      let s := signal (current s) s in
      Some {| lock := lock s; current := current s; pending := target v; relocked := false; proxy := proxy s; renderer := RCheck v; work := work s |}
  | RCheck v => Some (if negb (relocked s) then renderer_at (RAsleep v) None s else renderer_at RLook None s)
  | RAsleep _ => None
  | RWoken v => match lock s with None => Some (renderer_at (RCheck v) (Some TRenderer) s) | _ => None end
  | RLook | RDecided | RSleeping => None
  end.

(** One step of the renderer in the loop of its thread: it draws what the server asked for,
    and waits when there is nothing. *)
Definition renderer_loop (s : Proxy) : option Proxy :=
  match renderer s with
  | RLook =>
      Some (if work s
            then {| lock := lock s; current := current s; pending := pending s; relocked := relocked s; proxy := proxy s; renderer := RLook; work := false |}
            else renderer_at RDecided (lock s) s)
  | RDecided => Some (renderer_at RSleeping (lock s) s)
  | _ => None
  end.

Definition in_call (r : renderer_pc) : bool := match r with RLook | RDecided | RSleeping => false | _ => true end.

Inductive label :=
  | Run (t : thread)
  | Listen (var : Z)                    (* the renderer applies another state *)
  | Request (var : Z)                   (* the server asks for a frame and signals *)
  | SignalStateCond                     (* a setter of the main thread *)
  | ProxyWakes.                         (* without a reason *)

Definition exec (l : label) (s : Proxy) : option Proxy :=
  match l with
  | Run TProxy => pthreadCondVarProxyThread s
  | Run TRenderer => if in_call (renderer s) then pthreadCondVarProxyListenOtherCondVar s else renderer_loop s
  | Listen v => match renderer s with RLook => Some (renderer_at (RCall v) (lock s) s) | _ => None end
  | Request v =>
      Some (signal v {| lock := lock s; current := current s; pending := pending s; relocked := relocked s; proxy := proxy s;
                        renderer := renderer s; work := true |})
  | SignalStateCond => Some (signal_stateCond s)
  | ProxyWakes => match proxy s with PAsleep _ => Some (proxy_at PWoken (lock s) s) | _ => None end
  end.

Fixpoint run (ls : list label) (s : Proxy) : option Proxy :=
  match ls with [] => Some s | l :: ls => s ← exec l s; run ls s end.

Definition pthreadCondVarProxyInit : Proxy :=
  {| lock := None; current := def; pending := 0; relocked := false; proxy := PStart; renderer := RLook; work := false |}.

(** ** The invariant *)

Definition started (s : Proxy) : bool := match proxy s with PStart => false | _ => true end.
Definition proxy_locks (p : proxy_pc) : bool := match p with PLoop | PHandle => true | _ => false end.
Definition renderer_locks (r : renderer_pc) : bool := match r with RSet _ | RCheck _ => true | _ => false end.

(** The variable of the call that is under way, and whether the proxy was told. *)
Definition called (r : renderer_pc) : option Z :=
  match r with RCall v | RSet v | RCheck v | RAsleep v | RWoken v => Some v | _ => None end.
Definition told (r : renderer_pc) : option Z := match r with RCheck v | RAsleep v | RWoken v => Some v | _ => None end.

(** Where the proxy is when it has been told and did not answer yet. *)
Definition answers (p : proxy_pc) : bool := match p with PWoken | PHandle => true | _ => false end.

Record proxy_ok (s : Proxy) : Prop := {
  ok_started : started s = true;
  ok_lock : lock s = if proxy_locks (proxy s) then Some TProxy else if renderer_locks (renderer s) then Some TRenderer else None;
  ok_excl : proxy_locks (proxy s) && renderer_locks (renderer s) = false;
  ok_asleep : forall v, proxy s = PAsleep v -> v = current s;
  ok_told : forall v, told (renderer s) = Some v ->
    if relocked s then current s = target v /\ pending s = 0 else pending s = target v /\ answers (proxy s) = true;
  ok_untold : told (renderer s) = None -> pending s = 0;
  ok_rsleeps : forall v, renderer s = RAsleep v -> relocked s = false;
  ok_current : current s <> 0;
}.

Lemma target_nonzero v : target v <> 0.
Proof. unfold target. destruct (Z.eqb_spec v 0); done. Qed.

(** Cases on where the threads are, and what the tests say. *)
Ltac cases s :=
  let l := fresh "l" in let c := fresh "c" in let p := fresh "p" in let r := fresh "r" in let pr := fresh "pr" in let re := fresh "re" in
  let w := fresh "w" in destruct s as [l c p r pr re w]; destruct pr, re; cbn in *; try discriminate.

Ltac tests :=
  repeat match goal with
    | H : negb _ = true |- _ => apply negb_true_iff in H
    | H : negb _ = false |- _ => apply negb_false_iff in H
    | H : (_ =? _) = true |- _ => apply Z.eqb_eq in H
    | H : (_ =? _) = false |- _ => apply Z.eqb_neq in H
    | H : _ /\ _ |- _ => destruct H
  end.

Ltac unfold_steps E :=
  unfold pthreadCondVarProxyThread, pthreadCondVarProxyListenOtherCondVar, renderer_loop, signal_stateCond, signal, proxy_at, renderer_at in E; cbn in E.

(** The tests of the step in [E]. *)
Ltac step_cases E := repeat match type of E with context [match ?x with _ => _ end] => destruct x eqn:? end.

(** What the invariant says of the variables at hand. *)
Ltac told_tac :=
  pose proof target_nonzero; intros; simplify_eq/=;
  repeat match goal with
    | H : forall v, Some ?a = Some v -> _ |- _ => specialize (H a eq_refl)
    | H : forall v, PAsleep ?a = PAsleep v -> _ |- _ => specialize (H a eq_refl)
    | H : None = None -> _ |- _ => specialize (H eq_refl)
  end;
  repeat case_match; simplify_eq/=; tests; subst; auto; try congruence; exfalso; firstorder congruence.

Lemma proxy_step_ok l s s' : proxy_ok s -> exec l s = Some s' -> proxy_ok s'.
Proof.
  intros [H1 H2 H3 H4 H5 H6 H7 H8] E. destruct l as [[|]|v|v| |]; cbn [exec] in E.
  all: cases s.
  all: unfold_steps E; repeat case_match; simplify_eq/=; constructor; cbn; try done.
  all: told_tac.
Qed.

Lemma run_ok ls s s' : proxy_ok s -> run ls s = Some s' -> proxy_ok s'.
Proof.
  revert s. induction ls as [|l ls IH]; intros s H; cbn [run]; [by intros [= <-]|].
  intros E. apply bind_Some in E as (s1 & E1 & E). apply (IH s1); [|done]. by apply (proxy_step_ok l s).
Qed.

(** The proxy has begun to wait when nobody disturbed its start. *)
Lemma proxy_start_ok : exists s, run [Run TProxy; Run TProxy] pthreadCondVarProxyInit = Some s /\ proxy_ok s.
Proof. eexists. split; [reflexivity|]. split; cbn; try done. by intros v [= <-]. Qed.

(** ** A call returns *)

Definition is_run (l : label) : bool := match l with Run _ => true | _ => false end.
Definition count_runs (ls : list label) : nat := length (List.filter is_run ls).
Definition count_others (ls : list label) : nat := length (List.filter (fun l => negb (is_run l)) ls).

(** The steps that the threads can still make without a signal. *)
Definition measure (s : Proxy) : nat :=
  (match proxy s with PWoken => 3 | PHandle => 2 | PLoop => 1 | _ => 0 end +
   match renderer s with
   | RCall _ => 8 | RSet _ => 7
   | RWoken _ => if relocked s then 2 else 4
   | RCheck _ => if relocked s then 1 else 3
   | RAsleep _ => 2
   | _ => 0
   end)%nat.

(** The call for [v] is over, and the proxy waits for [v] or is about to. *)
Definition listens (v : Z) (s : Proxy) : Prop :=
  renderer s = RLook /\ current s = target v /\ pending s = 0 /\ forall u, proxy s = PAsleep u -> u = target v.

Lemma call_step l s s' v :
  proxy_ok s -> called (renderer s) = Some v -> exec l s = Some s' ->
  listens v s' \/
  called (renderer s') = Some v /\ (measure s' + (if is_run l then 1 else 0) <= measure s + (if is_run l then 0 else 3))%nat.
Proof.
  intros H Hv E. pose proof (proxy_step_ok l s s' H E) as H'. unfold measure.
  destruct l as [[|]|u|u| |]; cbn [exec is_run] in *.
  all: destruct H as [H1 H2 H3 H4 H5 H6 H7 H8], H' as [_ _ _ H3' _ _ _ _].
  all: cases s.
  all: unfold_steps E; step_cases E; simplify_eq/=; repeat case_match; simplify_eq/=; try (right; split; [reflexivity|clear; lia]).
  all: left; specialize (H5 _ eq_refl); repeat split; cbn; try tauto.
  all: intros u Hu; rewrite (H3' u Hu); tauto.
Qed.

Lemma call_enabled s v : proxy_ok s -> called (renderer s) = Some v -> exists t s', exec (Run t) s = Some s'.
Proof.
  intros [H1 H2 H3 H4 H5 H6 H7 H8] Hv. cases s; simplify_eq/=.
  all: try (exists TRenderer; cbn; eexists; reflexivity).
  all: try (exists TProxy; cbn; eexists; reflexivity).
  all: specialize (H5 _ eq_refl); rewrite (H7 _ eq_refl) in H5; destruct H5; discriminate.
Qed.

Lemma call_steps ls s s' v :
  proxy_ok s -> called (renderer s) = Some v -> run ls s = Some s' ->
  (exists l1 l2 s1, ls = l1 ++ l2 /\ run l1 s = Some s1 /\ listens v s1) \/
  called (renderer s') = Some v /\ (count_runs ls + measure s' <= measure s + 3 * count_others ls)%nat.
Proof.
  revert s. induction ls as [|l ls IH]; intros s H Hv; cbn [run]; [intros [= <-]; right; split; [done|]; cbn; lia|].
  intros E. apply bind_Some in E as (s1 & E1 & E). pose proof (proxy_step_ok l s s1 H E1) as H1.
  destruct (call_step l s s1 v H Hv E1) as [Hl|[Hv1 Hm]]; [left; exists [l], ls, s1; cbn [run]; by rewrite E1|].
  destruct (IH s1 H1 Hv1 E) as [(l1 & l2 & s2 & -> & E2 & Hl)|[Hv' Hm']].
  - left. exists (l :: l1), l2, s2. cbn [run]. by rewrite E1.
  - right. split; [done|]. unfold count_runs, count_others in *. cbn [List.filter]. destruct (is_run l); cbn [negb length] in *; lia.
Qed.

(** C19: once the proxy waits, a call of [pthreadCondVarProxyListenOtherCondVar] returns: one of
    the two threads can always go on, and while the call is not over they have made at most 11
    steps, and 3 more for each signal or wake-up without a reason that came in between; when it
    is over the proxy waits for the new variable, or is on its way to it, so that the old one
    can be unmapped. *)
Theorem listen_returns ls s s' v :
  proxy_ok s -> called (renderer s) = Some v -> run ls s = Some s' ->
  (exists t s1, exec (Run t) s = Some s1) /\
  ((exists l1 l2 s1, ls = l1 ++ l2 /\ run l1 s = Some s1 /\ listens v s1) \/
   called (renderer s') = Some v /\ (count_runs ls <= 11 + 3 * count_others ls)%nat).
Proof.
  intros H Hv E. split; [by apply (call_enabled s v)|]. destruct (call_steps ls s s' v H Hv E) as [?|[Hv' Hm]]; [by left|]. right. split; [done|].
  assert (measure s <= 11)%nat; [|lia]. unfold measure. destruct (proxy s), (renderer s), (relocked s); lia.
Qed.

(** ** What goes wrong *)

(** The server signals another variable than [proxy.def], and no wake-up is without a reason. *)
Definition quiet (l : label) : Prop := match l with ProxyWakes => False | Request v => v <> def | _ => True end.

Definition hung (v : Z) (s : Proxy) : Prop :=
  relocked s = false /\ current s = def /\ told (renderer s) = Some v /\
  match proxy s with PStart | PLoop => True | PAsleep u => u = def | _ => False end.

Lemma hung_step l s s' v : hung v s -> quiet l -> exec l s = Some s' -> hung v s'.
Proof.
  intros (H1 & H2 & H3 & H4) Hl E. unfold hung. destruct l as [[|]|u|u| |]; cbn [exec] in E; try done.
  all: cases s; try done.
  all: unfold_steps E; step_cases E; simplify_eq/=; tests; try done; try congruence.
  all: destruct Hl; symmetry; by apply Z.eqb_eq.
Qed.

(** C0: when the renderer calls before the thread has begun to wait, the broadcast is lost
    and nobody tells the thread of the new variable: it waits for [proxy.def], which nobody
    signals, and the renderer for its answer, whatever the threads, the main thread and the
    server do, until a wake-up without a reason. *)
Theorem early_call_hangs v ls :
  Forall quiet ls ->
  exists s, run [Listen v; Run TRenderer; Run TRenderer; Run TRenderer] pthreadCondVarProxyInit = Some s /\
    forall s', run ls s = Some s' -> told (renderer s') = Some v.
Proof.
  intros Hq. eexists. split; [reflexivity|]. match goal with |- forall s', run ls ?s = _ -> _ => assert (hung v s) as H by done; revert H; generalize s end.
  induction Hq as [|l ls Hl _ IH]; intros s H s'; cbn [run]; [intros [= <-]; by apply H|].
  intros E. apply bind_Some in E as (s1 & E1 & E). by apply (IH s1 (hung_step l s s1 v H Hl E1)).
Qed.

(** The renderer sleeps, a frame is wanted, and the proxy is about to sleep too. *)
Definition lost (s : Proxy) : Prop :=
  renderer s = RSleeping /\ work s = true /\ match proxy s with PLoop | PAsleep _ => True | _ => False end.

Lemma lost_runs ls s s' : lost s -> Forall (fun l => is_run l = true) ls -> run ls s = Some s' -> lost s'.
Proof.
  intros H Hl. revert s H. induction Hl as [|l ls Hl _ IH]; intros s H; cbn [run]; [by intros [= <-]|].
  intros E. apply bind_Some in E as (s1 & E1 & E). apply (IH s1); [|done]. clear IH E. destruct H as (H1 & H2 & H3).
  destruct l as [[|]|u|u| |]; try done; cbn [exec] in E1; cases s; unfold_steps E1; by simplify_eq/=.
Qed.

(** The proxy listens to [v], and the renderer sleeps. *)
Definition session (v : Z) : list label :=
  [Run TProxy; Run TProxy; Listen v; Run TRenderer; Run TRenderer; Run TRenderer; Run TProxy; Run TProxy; Run TProxy] ++ replicate 4 (Run TRenderer).

(** A request in a quiet moment is drawn. *)
Lemma request_is_drawn v :
  v <> 0 -> exists s1 s2, run (session v) pthreadCondVarProxyInit = Some s1 /\ renderer s1 = RSleeping /\ proxy s1 = PAsleep v /\
    run [Request v; Run TProxy; Run TProxy; Run TRenderer] s1 = Some s2 /\ work s2 = false.
Proof.
  intros Hv. eexists. eexists. split; [cbn; unfold target; rewrite (proj2 (Z.eqb_neq v 0)) by done; cbn; rewrite (proj2 (Z.eqb_neq v 0)) by done; reflexivity|].
  split; [done|]. split; [done|]. split; [cbn; rewrite Z.eqb_refl; reflexivity|]. done.
Qed.

(** C40: the proxy signals [stateCond] before it waits again, and without [stateLock]: when the
    renderer has drawn and sleeps again before the proxy waits, the signal of the next request
    is lost, and both threads sleep with a frame that is wanted, until another event comes. *)
Theorem request_lost v ls :
  v <> 0 -> Forall (fun l => is_run l = true) ls ->
  exists s, run (session v ++ [Request v; Run TProxy; Run TProxy; Run TRenderer; Run TRenderer; Run TRenderer; Request v]) pthreadCondVarProxyInit = Some s /\
    forall s', run ls s = Some s' -> renderer s' = RSleeping /\ work s' = true.
Proof.
  intros Hv Hl. eexists. split.
  { cbn. unfold target. rewrite (proj2 (Z.eqb_neq v 0)) by done. cbn. rewrite (proj2 (Z.eqb_neq v 0)) by done. cbn. rewrite Z.eqb_refl. reflexivity. }
  intros s' E. match type of E with run _ ?s = _ => assert (lost s) as H by done end.
  destruct (lost_runs ls _ s' H Hl E) as (H1 & H2 & _). done.
Qed.

(** ** Sessions *)

Definition listening : Proxy := default pthreadCondVarProxyInit (run [Run TProxy; Run TProxy; Listen 5] pthreadCondVarProxyInit).

(** Two wake-ups without a reason disturb the call. *)
Definition busy : list label :=
  [Run TRenderer; Run TRenderer; Run TRenderer; SignalStateCond; Run TRenderer; Run TRenderer; Run TProxy; Request 5; Run TProxy;
   Run TProxy; Run TRenderer; ProxyWakes; Run TRenderer].

Lemma listening_ok : proxy_ok listening.
Proof. split; cbn; try done. by intros v [= <-]. Qed.

Lemma listen_returns_witness :
  exists s', run busy listening = Some s' /\ (exists t s1, exec (Run t) listening = Some s1) /\
    ((exists l1 l2 s1, busy = l1 ++ l2 /\ run l1 listening = Some s1 /\ listens 5 s1) \/
     called (renderer s') = Some 5 /\ (count_runs busy <= 11 + 3 * count_others busy)%nat).
Proof.
  eexists. split; [vm_compute; reflexivity|]. apply (listen_returns busy listening _ 5); [apply listening_ok|done|vm_compute; reflexivity].
Defined.

Example busy_returns : option_map (fun s => (renderer s, current s, proxy s)) (run busy listening) = Some (RLook, 5, PWoken).
Proof. by vm_compute. Qed.

Lemma early_call_hangs_witness :
  exists s, run [Listen 5; Run TRenderer; Run TRenderer; Run TRenderer] pthreadCondVarProxyInit = Some s /\
    forall s', run [Run TProxy; Run TProxy; Request 5; SignalStateCond; Run TRenderer; Run TRenderer] s = Some s' -> told (renderer s') = Some 5.
Proof. apply early_call_hangs. repeat constructor; done. Defined.

Lemma request_lost_witness :
  exists s, run (session 5 ++ [Request 5; Run TProxy; Run TProxy; Run TRenderer; Run TRenderer; Run TRenderer; Request 5]) pthreadCondVarProxyInit = Some s /\
    forall s', run [Run TProxy] s = Some s' -> renderer s' = RSleeping /\ work s' = true.
Proof. apply request_lost; [done|]. repeat constructor. Defined.

(** The hanging call goes on being scheduled. *)
Example hanging_call_runs :
  is_Some (run ([Listen 5; Run TRenderer; Run TRenderer; Run TRenderer] ++
    [Run TProxy; Run TProxy; Request 5; SignalStateCond; Run TRenderer; Run TRenderer]) pthreadCondVarProxyInit).
Proof. vm_compute. by eexists. Qed.

