(* ===== verification/XorgList.v ===== *)
(** * The circular doubly linked lists of the server ([include/list.h])

    Buffers, vertical blank events and bound keysyms are linked through a
    [struct xorg_list] inside each object. The model works on the pointers: a
    heap maps the address of a node to its [next] and [prev] fields. The lists
    are then shown to behave as sequences, which is what the other components
    rely on through the class [LinkedLists]. *)

From S2P Require Import Prelude.

(** ** Nodes and operations *)

Record links := { next : gmap Z Z; prev : gmap Z Z }.

Definition no_links : links := {| next := ∅; prev := ∅ |}.

Definition set_next (p q : Z) (h : links) : links := {| next := <[p:=q]> (next h); prev := prev h |}.
Definition set_prev (p q : Z) (h : links) : links := {| next := next h; prev := <[p:=q]> (prev h) |}.

Definition xorg_list_init (p : Z) (h : links) : links := set_prev p p (set_next p p h).

(** [__xorg_list_add], with the order of the four stores of the source. *)
Definition __xorg_list_add (entry pr nx : Z) (h : links) : links :=
  set_next pr entry (set_prev entry pr (set_next entry nx (set_prev nx entry h))).

Definition xorg_list_add (entry head : Z) (h : links) : option links :=
  nx ← next h !! head; Some (__xorg_list_add entry head nx h).

Definition xorg_list_append (entry head : Z) (h : links) : option links :=
  pr ← prev h !! head; Some (__xorg_list_add entry pr head h).

Definition __xorg_list_del (pr nx : Z) (h : links) : links := set_next pr nx (set_prev nx pr h).

Definition xorg_list_del (entry : Z) (h : links) : option links :=
  pr ← prev h !! entry; nx ← next h !! entry;
  Some (xorg_list_init entry (__xorg_list_del pr nx h)).

Definition xorg_list_is_empty (head : Z) (h : links) : option bool :=
  nx ← next h !! head; Some (nx =? head).

Definition xorg_list_first_entry (head : Z) (h : links) : option Z := next h !! head.
Definition xorg_list_last_entry (head : Z) (h : links) : option Z := prev h !! head.

(** [xorg_list_for_each_entry]: the nodes the loop visits from [pos] on until it
    meets the head; [None] when [fuel] rounds are not enough. *)
Fixpoint for_each_entry (fuel : nat) (head pos : Z) (h : links) : option (list Z) :=
  match fuel with
  | O => None
  | S fuel =>
      if pos =? head then Some []
      else nx ← next h !! pos; r ← for_each_entry fuel head nx h; Some (pos :: r)
  end.

(** The loop from the first entry. *)
Definition walk (fuel : nat) (head : Z) (h : links) : option (list Z) :=
  nx ← next h !! head; for_each_entry fuel head nx h.

(** ** Lists of nodes *)

(** The nodes [l] follow [a] through [next] and lead back to it through [prev]. *)
Fixpoint chain (h : links) (a : Z) (l : list Z) : Prop :=
  match l with
  | [] => True
  | b :: l' => next h !! a = Some b /\ prev h !! b = Some a /\ chain h b l'
  end.

Definition is_list (h : links) (head : Z) (l : list Z) : Prop :=
  NoDup (head :: l) /\ chain h head (l ++ [head]).

(** The nodes outside [ns] have the same fields in both heaps. *)
Definition same_outside (ns : list Z) (h h' : links) : Prop :=
  forall p, p ∉ ns -> next h' !! p = next h !! p /\ prev h' !! p = prev h !! p.

(** ** What the other components rely on *)

Class LinkedLists (heap : Type) := {
  ll_repr : heap -> Z -> list Z -> Prop;
  ll_init : Z -> heap -> heap;
  ll_add : Z -> Z -> heap -> option heap;
  ll_del : Z -> heap -> option heap;
  ll_walk : nat -> Z -> heap -> option (list Z);
  ll_nodup : forall h head l, ll_repr h head l -> NoDup (head :: l);
  ll_init_ok : forall h p, ll_repr (ll_init p h) p [];
  ll_init_frame : forall h p head l, p ∉ head :: l -> ll_repr h head l -> ll_repr (ll_init p h) head l;
  ll_add_ok : forall h e head l, ll_repr h head l -> e ∉ head :: l ->
    exists h', ll_add e head h = Some h' /\ ll_repr h' head (e :: l) /\
      forall head' l', (forall x, x ∈ e :: head :: l -> x ∉ head' :: l') ->
        ll_repr h head' l' -> ll_repr h' head' l';
  ll_del_ok : forall h e head l1 l2, ll_repr h head (l1 ++ e :: l2) ->
    exists h', ll_del e h = Some h' /\ ll_repr h' head (l1 ++ l2) /\ ll_repr h' e [] /\
      forall head' l', (forall x, x ∈ head :: l1 ++ e :: l2 -> x ∉ head' :: l') ->
        ll_repr h head' l' -> ll_repr h' head' l';
  ll_del_single : forall h e, ll_repr h e [] ->
    exists h', ll_del e h = Some h' /\ ll_repr h' e [] /\
      forall head' l', e ∉ head' :: l' -> ll_repr h head' l' -> ll_repr h' head' l';
  ll_walk_ok : forall h head l fuel, ll_repr h head l -> (length l < fuel)%nat ->
    ll_walk fuel head h = Some l;
}.

(** ** Lemmas on chains *)

Lemma chain_app h a l1 b l2 : chain h a (l1 ++ b :: l2) <-> chain h a (l1 ++ [b]) /\ chain h b l2.
Proof.
  revert a. induction l1 as [|c l1 IH]; intros a; simpl; [tauto|]. rewrite IH. tauto.
Qed.

Lemma chain_agree h h' a l : chain h a l ->
  (forall x, x ∈ removelast (a :: l) -> next h' !! x = next h !! x) ->
  (forall x, x ∈ l -> prev h' !! x = prev h !! x) -> chain h' a l.
Proof.
  revert a. induction l as [|b l IH]; intros a; [done|]. intros (H1 & H2 & H3) Hn Hp.
  split_and!.
  - rewrite Hn; [done|]. by left.
  - rewrite Hp; [done|]. by left.
  - apply IH; [done| |]; intros x Hx; [apply Hn|apply Hp]; by right.
Qed.

Lemma removelast_snoc {A} (l : list A) x : removelast (l ++ [x]) = l.
Proof. apply removelast_last. Qed.

Lemma is_list_agree h h' head l : is_list h head l ->
  (forall x, x ∈ head :: l -> next h' !! x = next h !! x /\ prev h' !! x = prev h !! x) -> is_list h' head l.
Proof.
  intros [Hnd Hc] Hs. split; [done|]. eapply chain_agree; [exact Hc| |]; intros x Hx; apply Hs.
  - rewrite (app_comm_cons l [head] head), removelast_snoc in Hx. done.
  - apply elem_of_app in Hx as [Hx|Hx%list_elem_of_singleton]; [by right|subst; by left].
Qed.

Lemma is_list_frame ns h h' head l : same_outside ns h h' ->
  (forall x, x ∈ ns -> x ∉ head :: l) -> is_list h head l -> is_list h' head l.
Proof.
  intros Hs Hd Hl. apply (is_list_agree h); [done|]. intros x Hx. apply Hs. intros Hin. by apply (Hd x).
Qed.

Ltac list_fields := repeat (rewrite lookup_insert_eq || rewrite lookup_insert_ne by congruence).

Lemma init_is_list h p : is_list (xorg_list_init p h) p [].
Proof.
  split; [apply NoDup_singleton|]. simpl. split_and!; [by rewrite lookup_insert_eq..|done].
Qed.

Lemma init_outside h p : same_outside [p] h (xorg_list_init p h).
Proof.
  intros q Hq. apply not_elem_of_cons in Hq as [Hq _]. cbn. by list_fields.
Qed.

(** The last node of [x :: l]. *)
Definition end_of (x : Z) (l : list Z) : Z := List.last l x.

#[global] Arguments end_of : simpl never.

Lemma end_of_cons x c l : end_of x (c :: l) = end_of c l.
Proof. revert x c. unfold end_of. induction l as [|b l IH]; intros x c; [done|]. transitivity (List.last (b :: l) x); [done|]. by rewrite !IH. Qed.

Lemma end_of_in x l : end_of x l ∈ x :: l.
Proof.
  revert x. induction l as [|c l IH]; intros x; [by left|]. rewrite end_of_cons. right. apply IH.
Qed.

Lemma chain_snoc h x l b :
  chain h x (l ++ [b]) <-> chain h x l /\ next h !! end_of x l = Some b /\ prev h !! b = Some (end_of x l).
Proof.
  revert x. induction l as [|c l IH]; intros x; simpl.
  { unfold end_of. simpl. tauto. }
  rewrite IH, end_of_cons. tauto.
Qed.

Lemma end_of_split x l : exists u, x :: l = u ++ [end_of x l].
Proof.
  revert x. induction l as [|c l IH]; intros x; [by exists []|].
  destruct (IH c) as [u Hu]. exists (x :: u). rewrite end_of_cons, Hu. done.
Qed.

(** The cycle of a list, cut before [l2]. *)
Lemma is_list_cut h head l1 l2 :
  exists b v, l2 ++ [head] = b :: v /\
    (is_list h head (l1 ++ l2) <->
     NoDup (head :: l1 ++ l2) /\ chain h head l1 /\ next h !! end_of head l1 = Some b /\
     prev h !! b = Some (end_of head l1) /\ chain h b v).
Proof.
  destruct (l2 ++ [head]) as [|b v] eqn:E; [by destruct l2|]. exists b, v. split; [done|].
  unfold is_list. rewrite <- app_assoc, E, chain_app, chain_snoc. tauto.
Qed.

(** Every node of the two parts is distinct from the others. *)
Lemma cut_nodup head l1 l2 b v :
  NoDup (head :: l1 ++ l2) -> l2 ++ [head] = b :: v ->
  (forall x, x ∈ removelast (head :: l1) -> x <> end_of head l1) /\ (b ∉ l1) /\ (b ∉ v) /\
  (end_of head l1 ∉ l2) /\ removelast (b :: v) = l2 /\ (forall x, x ∈ v -> x ∈ head :: l2).
Proof.
  intros Hnd E. destruct (end_of_split head l1) as [u Hu].
  assert (Hnd1 : NoDup (u ++ [end_of head l1])).
  { rewrite <- Hu. apply (NoDup_app (head :: l1) l2). done. }
  assert (Hdis : forall x, x ∈ head :: l1 -> x ∉ l2) by by apply (NoDup_app (head :: l1) l2).
  assert (Hv : NoDup (b :: v)).
  { rewrite <- E. apply NoDup_app. split_and!.
    - by apply (NoDup_app (head :: l1) l2).
    - intros x Hx ->%list_elem_of_singleton. by apply (Hdis head); [left|].
    - apply NoDup_singleton. }
  assert (Hb : b ∈ l2 ++ [head]) by (rewrite E; by left).
  split_and!.
  - rewrite Hu, removelast_snoc. intros x Hx ->. apply NoDup_app in Hnd1 as (_ & H & _).
    apply (H _ Hx). by left.
  - intros Hb1. apply elem_of_app in Hb as [Hb|Hb%list_elem_of_singleton].
    + apply (Hdis b); [by right|done].
    + subst b. apply NoDup_cons in Hnd as [Hh _]. apply Hh. apply elem_of_app. by left.
  - by apply NoDup_cons in Hv as [? _].
  - apply Hdis. rewrite Hu. apply elem_of_app. right. by left.
  - by rewrite <- E, removelast_snoc.
  - intros x Hx. assert (x ∈ l2 ++ [head]) as [?| ->%list_elem_of_singleton]%elem_of_app
      by (rewrite E; by right); [by right|by left].
Qed.

Lemma elem_of_front {A} (x y : A) l1 l2 : x ∈ y :: l1 -> x ∈ y :: l1 ++ l2.
Proof. intros H. rewrite app_comm_cons. apply elem_of_app. by left. Qed.

Lemma elem_of_back {A} (x y : A) l1 l2 : x ∈ l2 -> x ∈ y :: l1 ++ l2.
Proof. intros H. right. apply elem_of_app. by right. Qed.

Lemma elem_of_removelast {A} (x : A) l : x ∈ removelast l -> x ∈ l.
Proof.
  destruct l as [|y l] using rev_ind; [done|]. rewrite removelast_snoc. intros H. apply elem_of_app. by left.
Qed.

(** Linking [e] between the two parts, and unlinking it. *)
Lemma add_between h head l1 l2 e b v :
  l2 ++ [head] = b :: v -> is_list h head (l1 ++ l2) -> e ∉ head :: l1 ++ l2 ->
  is_list (__xorg_list_add e (end_of head l1) b h) head (l1 ++ e :: l2) /\
  same_outside (e :: head :: l1 ++ l2) h (__xorg_list_add e (end_of head l1) b h).
Proof.
  intros E Hl He. destruct (is_list_cut h head l1 l2) as (b' & v' & E' & Hcut).
  rewrite E in E'. simplify_eq. apply Hcut in Hl as (Hnd & C1 & N1 & P1 & C2).
  destruct (cut_nodup head l1 l2 b' v' Hnd E) as (D1 & D2 & D3 & D4 & D5 & D6).
  assert (Ha : end_of head l1 ∈ head :: l1 ++ l2) by apply elem_of_front, end_of_in.
  assert (Hb : b' ∈ head :: l1 ++ l2).
  { assert (b' ∈ l2 ++ [head]) as [H| ->%list_elem_of_singleton]%elem_of_app by (rewrite E; by left);
      [by apply elem_of_back|by left]. }
  assert (He1 : e ∉ head :: l1) by (intros H; by apply He, elem_of_front).
  assert (He2 : e ∉ l2) by (intros H; by apply He, elem_of_back).
  set (a := end_of head l1) in *.
  assert (Hae : a <> e) by congruence. assert (Hbe : b' <> e) by congruence.
  split.
  - destruct (is_list_cut (__xorg_list_add e a b' h) head l1 (e :: l2)) as (b1 & v1 & E1 & ->).
    simpl in E1. injection E1 as <- <-. fold a. split_and!.
    + rewrite app_comm_cons. rewrite <- Permutation_middle. by apply NoDup_cons.
    + eapply chain_agree; [exact C1| |]; intros x Hx; cbn.
      * assert (x <> a) by by apply D1.
        assert (x <> e) by (intros ->; by apply He1, elem_of_removelast).
        by list_fields.
      * assert (x <> b') by by intros ->. assert (x <> e) by (intros ->; apply He1; by right).
        by list_fields.
    + cbn. by list_fields.
    + cbn. by list_fields.
    + rewrite E. simpl. split_and!; [cbn; by list_fields|cbn; by list_fields|].
      eapply chain_agree; [exact C2| |]; intros x Hx; cbn.
      * rewrite D5 in Hx. assert (x <> a) by by intros ->. assert (x <> e) by by intros ->. by list_fields.
      * assert (x <> b') by by intros ->. assert (x <> e).
        { intros ->. apply D6, elem_of_cons in Hx as [->|?]; [|done]. apply He1. by left. }
        by list_fields.
  - intros x Hx. cbn.
    apply not_elem_of_cons in Hx as [? Hx].
    assert (x <> a) by congruence. assert (x <> b') by congruence. by list_fields.
Qed.

Lemma del_between h head l1 l2 e b v :
  l2 ++ [head] = b :: v -> is_list h head (l1 ++ e :: l2) ->
  next h !! e = Some b /\ prev h !! e = Some (end_of head l1) /\
  is_list (xorg_list_init e (__xorg_list_del (end_of head l1) b h)) head (l1 ++ l2) /\
  same_outside (e :: head :: l1 ++ l2) h (xorg_list_init e (__xorg_list_del (end_of head l1) b h)).
Proof.
  intros E Hl. destruct (is_list_cut h head l1 (e :: l2)) as (b1 & v1 & E1 & Hcut).
  simpl in E1. injection E1 as <- <-. apply Hcut in Hl as (Hnd0 & C1 & N1 & P1 & C2).
  rewrite E in C2. destruct C2 as (N2 & P2 & C2). rewrite app_comm_cons in Hnd0.
  assert (Hnd : NoDup (e :: head :: l1 ++ l2)) by by rewrite app_comm_cons, Permutation_middle.
  apply NoDup_cons in Hnd as [He Hnd].
  destruct (cut_nodup head l1 l2 b v Hnd E) as (D1 & D2 & D3 & D4 & D5 & D6).
  assert (Ha : end_of head l1 ∈ head :: l1 ++ l2) by apply elem_of_front, end_of_in.
  assert (Hb : b ∈ head :: l1 ++ l2).
  { assert (b ∈ l2 ++ [head]) as [H| ->%list_elem_of_singleton]%elem_of_app by (rewrite E; by left);
      [by apply elem_of_back|by left]. }
  assert (He1 : e ∉ head :: l1) by (intros H; by apply He, elem_of_front).
  assert (He2 : e ∉ l2) by (intros H; by apply He, elem_of_back).
  set (a := end_of head l1) in *.
  assert (Hae : a <> e) by congruence. assert (Hbe : b <> e) by congruence.
  split_and!; [done|done| |].
  - destruct (is_list_cut (xorg_list_init e (__xorg_list_del a b h)) head l1 l2) as (b2 & v2 & E2 & ->).
    rewrite E in E2. injection E2 as <- <-. fold a. split_and!; [done| |cbn; by list_fields|cbn; by list_fields|].
    + eapply chain_agree; [exact C1| |]; intros x Hx; cbn.
      * assert (x <> a) by by apply D1. assert (x <> e) by (intros ->; by apply He1, elem_of_removelast).
        by list_fields.
      * assert (x <> b) by by intros ->. assert (x <> e) by (intros ->; apply He1; by right). by list_fields.
    + eapply chain_agree; [exact C2| |]; intros x Hx; cbn.
      * rewrite D5 in Hx. assert (x <> a) by by intros ->. assert (x <> e) by by intros ->. by list_fields.
      * assert (x <> b) by by intros ->. assert (x <> e).
        { intros ->. apply D6, elem_of_cons in Hx as [->|?]; [|done]. apply He1. by left. }
        by list_fields.
  - intros x Hx. cbn. apply not_elem_of_cons in Hx as [? Hx].
    assert (x <> a) by congruence. assert (x <> b) by congruence. by list_fields.
Qed.

Lemma is_list_first h head l : is_list h head l ->
  next h !! head = Some (hd head l) /\ prev h !! head = Some (end_of head l).
Proof.
  intros [_ Hc]. pose proof (chain_snoc h head l head) as Hs.
  split; [|apply Hs, Hc]. destruct l; simpl in *; tauto.
Qed.

Lemma add_front h e head l : is_list h head l -> e ∉ head :: l ->
  exists h', xorg_list_add e head h = Some h' /\ is_list h' head (e :: l) /\ same_outside (e :: head :: l) h h'.
Proof.
  intros Hl He. destruct (is_list_first h head l Hl) as [Hn _].
  assert (E : exists b v, l ++ [head] = b :: v /\ hd head l = b) by (destruct l; eauto).
  destruct E as (b & v & E & Eb). unfold xorg_list_add. rewrite Hn, Eb. cbn.
  destruct (add_between h head [] l e b v E Hl He). eexists. split; [done|]. by split.
Qed.

Lemma add_back h e head l : is_list h head l -> e ∉ head :: l ->
  exists h', xorg_list_append e head h = Some h' /\ is_list h' head (l ++ [e]) /\ same_outside (e :: head :: l) h h'.
Proof.
  intros Hl He. destruct (is_list_first h head l Hl) as [_ Hp].
  unfold xorg_list_append. rewrite Hp. cbn.
  destruct (add_between h head l [] e head [] eq_refl) as [H1 H2]; rewrite ?app_nil_r in *; try done.
  eexists. split; [done|]. by split.
Qed.

Lemma del_any h e head l1 l2 : is_list h head (l1 ++ e :: l2) ->
  exists h', xorg_list_del e h = Some h' /\ is_list h' head (l1 ++ l2) /\ is_list h' e [] /\
    same_outside (e :: head :: l1 ++ l2) h h'.
Proof.
  intros Hl. destruct (l2 ++ [head]) as [|b v] eqn:E; [by destruct l2|].
  destruct (del_between h head l1 l2 e b v E Hl) as (N & P & H1 & H2).
  unfold xorg_list_del. rewrite P, N. cbn. eexists. split; [done|]. split_and!; [done| |done].
  apply init_is_list.
Qed.

Lemma del_alone h e : is_list h e [] ->
  exists h', xorg_list_del e h = Some h' /\ is_list h' e [] /\ same_outside [e] h h'.
Proof.
  intros Hl. destruct (is_list_first h e [] Hl) as [Hn Hp]. unfold xorg_list_del. rewrite Hp, Hn. cbn.
  eexists. split; [done|]. split; [apply init_is_list|].
  intros q Hq. apply not_elem_of_cons in Hq as [Hq _]. cbn. change (end_of e []) with e. by list_fields.
Qed.

Lemma walk_chain h head l : forall a fuel, chain h a (l ++ [head]) -> head ∉ l -> (length l < fuel)%nat ->
  (nx ← next h !! a; for_each_entry fuel head nx h) = Some l.
Proof.
  induction l as [|b l IH]; intros a fuel Hc Hh Hf; destruct fuel as [|fuel]; simpl in Hf; try lia.
  - destruct Hc as (-> & _). cbn. by rewrite Z.eqb_refl.
  - destruct Hc as (-> & _ & Hc). cbn. apply not_elem_of_cons in Hh as [Hb Hh].
    rewrite (proj2 (Z.eqb_neq b head)) by congruence.
    specialize (IH b fuel Hc Hh ltac:(lia)). destruct (next h !! b) as [nx|]; [|done].
    cbn in IH |- *. by rewrite IH.
Qed.

Lemma walk_is_list h head l fuel : is_list h head l -> (length l < fuel)%nat -> walk fuel head h = Some l.
Proof.
  intros [Hnd Hc] Hf. apply NoDup_cons in Hnd as [Hh _].
  pose proof (walk_chain h head l head fuel Hc Hh Hf) as H. unfold walk.
  by destruct (next h !! head).
Qed.

(** ** The interface *)

Lemma frame_of ns h h' : same_outside ns h h' -> forall head l,
  (forall x, x ∈ ns -> x ∉ head :: l) -> is_list h head l -> is_list h' head l.
Proof. intros Hs head l. by apply is_list_frame. Qed.

#[export] Instance xorg_lists : LinkedLists links.
Proof.
  refine {| ll_repr := is_list; ll_init := xorg_list_init; ll_add := xorg_list_add;
            ll_del := xorg_list_del; ll_walk := walk |}.
  - by intros h head l [? _].
  - apply init_is_list.
  - intros h p head l Hp. apply (frame_of [p]); [apply init_outside|]. by intros x ->%list_elem_of_singleton.
  - intros h e head l Hl He. destruct (add_front h e head l Hl He) as (h' & ? & ? & Hs).
    exists h'. split_and!; try done. intros head' l' Hd. by apply (frame_of _ _ _ Hs).
  - intros h e head l1 l2 Hl. destruct (del_any h e head l1 l2 Hl) as (h' & ? & ? & ? & Hs).
    exists h'. split_and!; try done. intros head' l' Hd. apply (frame_of _ _ _ Hs).
    intros x Hx. apply Hd. apply elem_of_cons in Hx as [->|Hx].
    + right. apply elem_of_app. right. by left.
    + apply elem_of_cons in Hx as [->|[Hx|Hx]%elem_of_app]; [by left| |].
      * right. apply elem_of_app. by left.
      * right. apply elem_of_app. right. by right.
  - intros h e Hl. destruct (del_alone h e Hl) as (h' & ? & ? & Hs).
    exists h'. split_and!; try done. intros head' l' Hd. apply (frame_of _ _ _ Hs).
    by intros x ->%list_elem_of_singleton.
  - apply walk_is_list.
Defined.

(** C20: on the pointers of a list the operations of [list.h] are the operations on sequences:
    adding puts a fresh node in front, appending at the end, deleting takes the node out
    wherever it is and leaves it empty, the emptiness test, the first and the last entry read
    the sequence, the loop visits its nodes in order, and no node outside is touched. *)
Theorem xorg_list_refines_sequences h head l :
  is_list h head l ->
  (forall e, e ∉ head :: l -> exists h', xorg_list_add e head h = Some h' /\ is_list h' head (e :: l) /\
     same_outside (e :: head :: l) h h') /\
  (forall e, e ∉ head :: l -> exists h', xorg_list_append e head h = Some h' /\ is_list h' head (l ++ [e]) /\
     same_outside (e :: head :: l) h h') /\
  (forall e l1 l2, l = l1 ++ e :: l2 -> exists h', xorg_list_del e h = Some h' /\ is_list h' head (l1 ++ l2) /\
     is_list h' e [] /\ same_outside (e :: head :: l1 ++ l2) h h') /\
  xorg_list_is_empty head h = Some (bool_decide (l = [])) /\
  xorg_list_first_entry head h = Some (hd head l) /\
  xorg_list_last_entry head h = Some (end_of head l) /\
  forall fuel, (length l < fuel)%nat -> walk fuel head h = Some l.
Proof.
  intros Hl. destruct (is_list_first h head l Hl) as [Hn Hp]. split_and!; try done.
  - intros e He. by apply add_front.
  - intros e He. by apply add_back.
  - intros e l1 l2 ->. by apply del_any.
  - unfold xorg_list_is_empty. rewrite Hn. cbn. f_equal. destruct l as [|x l]; cbn; [apply Z.eqb_refl|].
    apply Z.eqb_neq. intros ->. destruct Hl as [[Hh _]%NoDup_cons _]. apply Hh. by left.
  - intros fuel. by apply walk_is_list.
Qed.

(** The list of the witnesses: head 1, then 7. *)
Lemma demo_is_list :
  is_list (default no_links (xorg_list_add 7 1 (xorg_list_init 1 no_links))) 1 [7].
Proof. split; [by apply (bool_decide_unpack _); vm_compute|by vm_compute]. Qed.

Lemma xorg_list_refines_sequences_witness :
  let h := default no_links (xorg_list_add 7 1 (xorg_list_init 1 no_links)) in
  xorg_list_first_entry 1 h = Some 7 /\ walk 2 1 h = Some [7].
Proof.
  intros h. destruct (xorg_list_refines_sequences h 1 [7]) as (_ & _ & _ & _ & H1 & _ & H2);
    [apply demo_is_list|]. split; [exact H1|apply H2; constructor].
Defined.
