(* ===== verification/Present.v ===== *)
(** * The vertical blank queue ([lorie/InitOutput.c])

    The Present extension of the X server asks to be told when the screen has been
    refreshed a number of times. The requests wait in an intrusive list until
    [lorieRedraw], which counts the refreshes, finds them due. *)

From S2P Require Import Prelude XorgList.

(** ** Data *)

Definition BadAlloc : Z := 11.

(** [struct vblank]; its link is the node with the address of the struct. *)
Record vblank := { vb_id : Z; vb_msc : Z }.

(** [notified] logs the calls of [present_event_notify], oldest first. *)
Record Present := { lnks : links; vblanks : gmap Z vblank; current_msc : Z; notified : list (Z * Z) }.

Definition set_lnks (h : links) (s : Present) : Present :=
  {| lnks := h; vblanks := vblanks s; current_msc := current_msc s; notified := notified s |}.
Definition set_vblanks (m : gmap Z vblank) (s : Present) : Present :=
  {| lnks := lnks s; vblanks := m; current_msc := current_msc s; notified := notified s |}.
Definition set_msc (n : Z) (s : Present) : Present :=
  {| lnks := lnks s; vblanks := vblanks s; current_msc := n; notified := notified s |}.
Definition notify (id msc : Z) (s : Present) : Present :=
  {| lnks := lnks s; vblanks := vblanks s; current_msc := current_msc s; notified := notified s ++ [(id, msc)] |}.

(** What the Present extension asks for while it is told about an event: a request with
    the memory that [calloc] gives, the end of a request, or a flip. *)
Inductive reply :=
  | Queue (r : Z * vblank)
  | Abort (id : Z)
  | Flipped (event_id target_msc : Z).

Section present.
(** The address of [pvfb->vblank_queue] and the Present extension. *)
Context (vblank_queue : Z) (reaction : Z -> list reply).

(** ** Operations *)

(** [addr] is the answer of [calloc]. *)
Definition loriePresentQueueVblank (addr : option Z) (v : vblank) (s : Present) : option (Z * Present) :=
  match addr with
  | None => Some (BadAlloc, s)
  | Some p =>
      let s1 := set_vblanks (<[p := v]> (vblanks s)) s in
      h ← xorg_list_add p vblank_queue (lnks s1);
      Some (0, set_lnks h s1)
  end.

(** Unlinking and freeing a request that is alive. *)
Definition drop_vblank (p : Z) (s : Present) : option Present :=
  _ ← vblanks s !! p;
  h ← xorg_list_del p (lnks s);
  Some (set_vblanks (delete p (vblanks s)) (set_lnks h s)).

(** The loop with [xorg_list_for_each_entry_safe] at [pos]. *)
Fixpoint abort_loop (fuel : nat) (id pos : Z) (s : Present) : option Present :=
  match fuel with
  | O => None
  | S fuel =>
      if pos =? vblank_queue then Some s
      else
        tmp ← next (lnks s) !! pos;
        v ← vblanks s !! pos;
        if vb_id v =? id then drop_vblank pos s else abort_loop fuel id tmp s
  end.

Definition loriePresentAbortVblank (fuel : nat) (id : Z) (s : Present) : option Present :=
  pos ← next (lnks s) !! vblank_queue; abort_loop fuel id pos s.

(** The counter after a flip; the damage region is made non-empty as well. *)
Definition flip_msc (target_msc : Z) (s : Present) : Present :=
  set_msc (Z.min (u64 (current_msc s + 1)) target_msc) s.

(** One answer of the extension, [notified_of] being the recursive call. *)
Definition respond (notified_of : Z -> Present -> option Present) (fuel : nat) (r : reply) (s : Present)
  : option Present :=
  match r with
  | Queue (p, v) => snd <$> loriePresentQueueVblank (Some p) v s
  | Abort id => loriePresentAbortVblank fuel id s
  | Flipped event_id target_msc => notified_of event_id (flip_msc target_msc s)
  end.

Fixpoint respond_all (notified_of : Z -> Present -> option Present) (fuel : nat) (rs : list reply) (s : Present)
  : option Present :=
  match rs with
  | [] => Some s
  | r :: rs => s ← respond notified_of fuel r s; respond_all notified_of fuel rs s
  end.

(** [fuel] bounds the flips that are made in reaction to flips. *)
Fixpoint present_event_notify (fuel : nat) (id : Z) (s : Present) : option Present :=
  match fuel with
  | O => None
  | S fuel => respond_all (present_event_notify fuel) fuel (reaction id) (notify id (current_msc s) s)
  end.

Definition loriePresentAfterFlip (fuel : nat) (event_id target_msc : Z) (s : Present) : option Present :=
  present_event_notify fuel event_id (flip_msc target_msc s).

Fixpoint perform_loop (fuel : nat) (pos : Z) (s : Present) : option Present :=
  match fuel with
  | O => None
  | S fuel =>
      if pos =? vblank_queue then Some s
      else
        tmp ← next (lnks s) !! pos;
        v ← vblanks s !! pos;
        if vb_msc v <=? current_msc s then
          s1 ← present_event_notify (S fuel) (vb_id v) s;
          s2 ← drop_vblank pos s1;
          perform_loop fuel tmp s2
        else perform_loop fuel tmp s
  end.

Definition loriePerformVblanks (fuel : nat) (s : Present) : option Present :=
  pos ← next (lnks s) !! vblank_queue; perform_loop fuel pos s.

(** What [lorieRedraw] does first. *)
Definition redraw_vblanks (fuel : nat) (s : Present) : option Present :=
  loriePerformVblanks fuel (set_msc (u64 (current_msc s + 1)) s).

(** [loriePresentGetUstMsc] without the clock. *)
Definition loriePresentGetUstMsc (s : Present) : Z := current_msc s.

(** ** The queue as a sequence *)

(** The list holds the requests [q] and nothing else is allocated. *)
Record holds (s : Present) (q : list (Z * vblank)) : Prop := {
  hd_list : is_list (lnks s) vblank_queue q.*1;
  hd_dom : forall p, p ∈ dom (vblanks s) <-> p ∈ q.*1;
  hd_val : forall p v, (p, v) ∈ q -> vblanks s !! p = Some v;
}.

Definition due (msc : Z) (x : Z * vblank) : bool := vb_msc x.2 <=? msc.

(** The requests that the extension makes in reaction to the requests that are due, when it
    makes the requests [queued]. *)
Definition reactions (queued : Z -> list (Z * vblank)) (msc : Z) (q : list (Z * vblank)) : list (Z * vblank) :=
  concat (map (fun x => queued (vb_id x.2)) (filter (fun x => due msc x = true) q)).

(** The extension only makes requests in reaction to those of [q]. *)
Definition only_queues (queued : Z -> list (Z * vblank)) (q : list (Z * vblank)) : Prop :=
  Forall (fun x => reaction (vb_id x.2) = map Queue (queued (vb_id x.2))) q.

(** ** The requests as a sequence *)

(** The requests that wait, the count of refreshes and the log. *)
Record Requests := { rq : list (Z * vblank); rq_msc : Z; rq_log : list (Z * Z) }.

(** The answers of the extension: a request, for which [calloc] must give memory that is not in
    use, goes to the front; a flip sets the count and is reported, [told] being the recursive
    call. An end of a request is not among them ([aborted_next_is_used]). *)
Fixpoint answered (told : Z -> Requests -> option Requests) (rs : list reply) (s : Requests) : option Requests :=
  match rs with
  | [] => Some s
  | Queue (p, v) :: rs =>
      if decide (p ∈ vblank_queue :: (rq s).*1) then None
      else answered told rs {| rq := (p, v) :: rq s; rq_msc := rq_msc s; rq_log := rq_log s |}
  | Flipped event_id target_msc :: rs =>
      s ← told event_id {| rq := rq s; rq_msc := Z.min (u64 (rq_msc s + 1)) target_msc; rq_log := rq_log s |};
      answered told rs s
  | Abort _ :: _ => None
  end.

(** An event is reported, [n] bounding the flips in reaction to flips. *)
Fixpoint reported (n : nat) (id : Z) (s : Requests) : option Requests :=
  match n with
  | O => None
  | S n => answered (reported n) (reaction id) {| rq := rq s; rq_msc := rq_msc s; rq_log := rq_log s ++ [(id, rq_msc s)] |}
  end.

Definition freed (p : Z) (s : Requests) : Requests :=
  {| rq := filter (fun x => x.1 <> p) (rq s); rq_msc := rq_msc s; rq_log := rq_log s |}.

(** Every request of the list is looked at once, in its order: one that is due at this moment is
    reported and freed. *)
Fixpoint serve (n : nat) (q : list (Z * vblank)) (s : Requests) : option Requests :=
  match q with
  | [] => Some s
  | x :: q => if due (rq_msc s) x then s ← reported n (vb_id x.2) s; serve n q (freed x.1 s) else serve n q s
  end.

Definition requests (s : Present) (q : list (Z * vblank)) : Requests := {| rq := q; rq_msc := current_msc s; rq_log := notified s |}.

(** [s] has the requests, the count and the log of [r]. *)
Definition shows (s : Present) (r : Requests) : Prop := holds s (rq r) /\ current_msc s = rq_msc r /\ notified s = rq_log r.

(** ** Lemmas *)

Lemma holds_nodup s q : holds s q -> NoDup (vblank_queue :: q.*1).
Proof. intros [[H _] _ _]. exact H. Qed.

(** The fuel that a loop over the list needs can be read off. *)
Lemma holds_size s q : holds s q -> size (vblanks s) = length q.
Proof.
  intros Hh. pose proof (holds_nodup _ _ Hh) as Hn. apply NoDup_cons in Hn as [_ Hn].
  rewrite <- size_dom, <- (length_fmap fst q), <- (size_list_to_set (C := gset Z) q.*1 Hn). f_equal.
  apply set_eq. intros p. by rewrite elem_of_list_to_set, (hd_dom _ _ Hh).
Qed.

Lemma next_at h head l1 e l2 : is_list h head (l1 ++ e :: l2) -> next h !! e = Some (hd head l2).
Proof.
  intros H. destruct (l2 ++ [head]) as [|b v] eqn:E; [by destruct l2|].
  destruct (del_between h head l1 l2 e b v E H) as [-> _]. destruct l2; cbn in E; by injection E as <- _.
Qed.

Lemma vblank_queued s q p v : holds s q -> p ∉ vblank_queue :: q.*1 ->
  exists s', loriePresentQueueVblank (Some p) v s = Some (0, s') /\ holds s' ((p, v) :: q) /\
    current_msc s' = current_msc s /\ notified s' = notified s.
Proof.
  intros [Hl Hd Hv] Hp. unfold loriePresentQueueVblank. cbn [lnks set_vblanks].
  destruct (add_front (lnks s) p vblank_queue q.*1 Hl Hp) as (h' & -> & Hl' & _). cbn [mbind option_bind].
  eexists. split; [done|]. split; [|done]. apply not_elem_of_cons in Hp as [Hp1 Hp2]. split; cbn.
  - done.
  - intros x. rewrite dom_insert, elem_of_union, elem_of_singleton, elem_of_cons, Hd. done.
  - intros x w [[= -> ->]|Hx]%elem_of_cons; [apply lookup_insert_eq|].
    rewrite lookup_insert_ne by (intros ->; apply Hp2, list_elem_of_fmap; by exists (x, w)). by apply Hv.
Qed.

Lemma queue_all_holds notified_of fuel rs s q : holds s q -> NoDup rs.*1 -> (forall p, p ∈ rs.*1 -> p ∉ vblank_queue :: q.*1) ->
  exists s', respond_all notified_of fuel (map Queue rs) s = Some s' /\ holds s' (reverse rs ++ q) /\
    current_msc s' = current_msc s /\ notified s' = notified s.
Proof.
  revert s q. induction rs as [|[p v] rs IH]; intros s q Hh Hn Hp; [by exists s|].
  cbn in Hn. apply NoDup_cons in Hn as [Hpr Hn].
  destruct (vblank_queued s q p v Hh) as (s1 & E & Hh1 & Em & En); [apply Hp; by left|].
  cbn [map respond_all respond]. rewrite E. cbn [fmap option_fmap option_map mbind option_bind snd].
  destruct (IH s1 ((p, v) :: q) Hh1 Hn) as (s' & -> & Hh' & Em' & En').
  - intros x Hx. specialize (Hp x ltac:(by right)). apply not_elem_of_cons in Hp as [H1 H2]. cbn.
    apply not_elem_of_cons. split; [done|]. apply not_elem_of_cons. split; [by intros ->|done].
  - exists s'. rewrite reverse_cons, <- app_assoc. split_and!; [done|done|congruence|congruence].
Qed.

Lemma drop_holds s q1 p v q2 : holds s (q1 ++ (p, v) :: q2) ->
  exists s', drop_vblank p s = Some s' /\ holds s' (q1 ++ q2) /\
    current_msc s' = current_msc s /\ notified s' = notified s.
Proof.
  intros Hh. pose proof (holds_nodup _ _ Hh) as Hn. destruct Hh as [Hl Hd Hv]. rewrite fmap_app in Hl. cbn in Hl.
  unfold drop_vblank. rewrite (Hv p v) by (apply elem_of_app; right; by left). cbn [mbind option_bind].
  destruct (del_any (lnks s) p vblank_queue q1.*1 q2.*1 Hl) as (h' & -> & Hl' & _).
  cbn [mbind option_bind]. eexists. split; [done|]. split; [|done].
  assert (Hp : p ∉ (q1 ++ q2).*1).
  { rewrite fmap_app in Hn |- *. cbn in Hn. apply NoDup_cons in Hn as [_ Hn].
    rewrite <- Permutation_middle in Hn. by apply NoDup_cons in Hn as [? _]. }
  split; cbn.
  - by rewrite fmap_app.
  - intros x. rewrite dom_delete, elem_of_difference, elem_of_singleton, Hd, !fmap_app, !elem_of_app. cbn.
    rewrite elem_of_cons. rewrite fmap_app, elem_of_app in Hp. split; [tauto|]. intros H. split; [tauto|]. intros ->. tauto.
  - intros x w Hx. rewrite lookup_delete_ne by (intros ->; apply Hp, list_elem_of_fmap; by exists (x, w)).
    apply Hv. apply elem_of_app in Hx as [?|?]; apply elem_of_app; [by left|right; by right].
Qed.

(** One request, at its place in the queue: it stays, or it is notified, dropped,
    and the requests made in reaction come to the front. *)
Lemma perform_loop_holds queued q2 q1 s fuel :
  only_queues queued q2 -> holds s (q1 ++ q2) -> (length q2 < fuel)%nat ->
  NoDup (reactions queued (current_msc s) q2).*1 ->
  (forall p, p ∈ (reactions queued (current_msc s) q2).*1 -> p ∉ vblank_queue :: (q1 ++ q2).*1) ->
  exists s', perform_loop fuel (hd vblank_queue q2.*1) s = Some s' /\
    holds s' (reverse (reactions queued (current_msc s) q2) ++ q1 ++ filter (fun x => due (current_msc s) x = false) q2) /\
    current_msc s' = current_msc s /\
    notified s' = notified s ++ map (fun x => (vb_id x.2, current_msc s)) (filter (fun x => due (current_msc s) x = true) q2).
Proof.
  revert q1 s fuel. induction q2 as [|[p v] q2 IH]; intros q1 s fuel Hqs Hh Hf Hn Hfresh; (destruct fuel as [|fuel]; [simpl in Hf; lia|]).
  { cbn [perform_loop fmap list_fmap hd]. rewrite Z.eqb_refl. exists s.
    split_and!; [done|exact Hh|done|cbn; by rewrite app_nil_r]. }
  pose proof (holds_nodup _ _ Hh) as Hnd.
  assert (Hp : p <> vblank_queue).
  { intros ->. apply NoDup_cons in Hnd as [Hnd _]. apply Hnd. rewrite fmap_app. apply elem_of_app. right. by left. }
  cbn [perform_loop fmap list_fmap hd fst]. rewrite (proj2 (Z.eqb_neq p vblank_queue)) by done.
  apply Forall_cons in Hqs as [Hq1 Hqs]. cbn in Hq1.
  pose proof (hd_list _ _ Hh) as Hl. rewrite fmap_app in Hl. cbn in Hl. rewrite (next_at _ _ _ _ _ Hl).
  rewrite (hd_val _ _ Hh p v) by (apply elem_of_app; right; by left). cbn [mbind option_bind].
  assert (Hdue : (vb_msc v <=? current_msc s) = due (current_msc s) (p, v)) by done. rewrite Hdue. clear Hdue.
  unfold reactions in *. destruct (due (current_msc s) (p, v)) eqn:Ed.
  - rewrite filter_cons_True in Hn, Hfresh |- * by done. rewrite filter_cons_False by congruence.
    cbn [map concat] in *. rewrite fmap_app in Hn. apply NoDup_app in Hn as (Hn1 & Hn12 & Hn2).
    cbn [present_event_notify]. rewrite Hq1.
    destruct (queue_all_holds (present_event_notify fuel) fuel (queued (vb_id v)) (notify (vb_id v) (current_msc s) s) (q1 ++ (p, v) :: q2))
      as (s1 & -> & Hh1 & Em1 & En1); [by destruct Hh|done| |].
    { intros x Hx. apply Hfresh. rewrite fmap_app. apply elem_of_app. by left. }
    cbn [mbind option_bind]. rewrite app_assoc in Hh1.
    destruct (drop_holds s1 _ p v q2 Hh1) as (s2 & -> & Hh2 & Em2 & En2). cbn [mbind option_bind].
    assert (Em : current_msc s2 = current_msc s) by (rewrite Em2, Em1; done).
    destruct (IH (reverse (queued (vb_id v)) ++ q1) s2 fuel Hqs Hh2) as (s' & E & Hh' & Em' & En');
      [simpl in Hf; lia|by rewrite Em| |].
    { rewrite Em. intros x Hx. specialize (Hfresh x ltac:(rewrite fmap_app; apply elem_of_app; by right)).
      apply not_elem_of_cons in Hfresh as [F1 F2]. apply not_elem_of_cons. split; [done|].
      rewrite fmap_app, elem_of_app in F2. cbn [fmap list_fmap] in F2. rewrite elem_of_cons in F2.
      rewrite fmap_app, elem_of_app, fmap_app, elem_of_app, fmap_reverse, elem_of_reverse.
      intros [[H|H]|H]; [by apply (Hn12 x H)|tauto|tauto]. }
    exists s'. rewrite Em in *. split_and!; [done| |done|].
    + rewrite reverse_app, <- !app_assoc in *. exact Hh'.
    + rewrite En', En2, En1. cbn [map notified notify]. by rewrite <- app_assoc.
  - rewrite filter_cons_False in Hn, Hfresh |- * by congruence. rewrite filter_cons_True by done.
    destruct (IH (q1 ++ [(p, v)]) s fuel) as (s' & E & Hh' & Em' & En');
      [done|by rewrite <- app_assoc|simpl in Hf; lia|done|by rewrite <- app_assoc|].
    exists s'. split_and!; [done| |done|done]. rewrite <- app_assoc in Hh'. exact Hh'.
Qed.

(** The first request with the id is taken out. *)
Fixpoint without (id : Z) (q : list (Z * vblank)) : list (Z * vblank) :=
  match q with
  | [] => []
  | x :: q => if vb_id x.2 =? id then q else x :: without id q
  end.

Lemma abort_loop_holds id q2 q1 s fuel : holds s (q1 ++ q2) -> (length q2 < fuel)%nat ->
  exists s', abort_loop fuel id (hd vblank_queue q2.*1) s = Some s' /\ holds s' (q1 ++ without id q2) /\
    current_msc s' = current_msc s /\ notified s' = notified s.
Proof.
  revert q1 s fuel. induction q2 as [|[p v] q2 IH]; intros q1 s fuel Hh Hf; (destruct fuel as [|fuel]; [simpl in Hf; lia|]).
  { cbn [abort_loop fmap list_fmap hd]. rewrite Z.eqb_refl. by exists s. }
  pose proof (holds_nodup _ _ Hh) as Hnd.
  assert (Hp : p <> vblank_queue).
  { intros ->. apply NoDup_cons in Hnd as [Hnd _]. apply Hnd. rewrite fmap_app. apply elem_of_app. right. by left. }
  cbn [abort_loop fmap list_fmap hd fst]. rewrite (proj2 (Z.eqb_neq p vblank_queue)) by done.
  pose proof (hd_list _ _ Hh) as Hl. rewrite fmap_app in Hl. cbn in Hl. rewrite (next_at _ _ _ _ _ Hl).
  rewrite (hd_val _ _ Hh p v) by (apply elem_of_app; right; by left). cbn [mbind option_bind without snd].
  destruct (vb_id v =? id).
  - by apply drop_holds with (v := v).
  - destruct (IH (q1 ++ [(p, v)]) s fuel) as (s' & E & Hh' & H); [by rewrite <- app_assoc|simpl in Hf; lia|].
    exists s'. rewrite <- app_assoc in Hh'. done.
Qed.

(** New requests come to the front. *)
Lemma answered_grows told : (forall id s s', told id s = Some s' -> exists l, rq s' = l ++ rq s) ->
  forall rs s s', answered told rs s = Some s' -> exists l, rq s' = l ++ rq s.
Proof.
  intros Ht. induction rs as [|r rs IH]; intros s s'; cbn [answered]; [intros [= <-]; by exists []|].
  destruct r as [[p v]|id|e t]; [|done|].
  - case_decide as Hd; [done|]. intros H. apply IH in H as [l ->]. exists (l ++ [(p, v)]). by rewrite <- app_assoc.
  - intros (s1 & E & H2)%bind_Some. apply Ht in E as [l1 E]. apply IH in H2 as [l ->]. rewrite E.
    exists (l ++ l1). by rewrite <- app_assoc.
Qed.

Lemma reported_grows n : forall id s s', reported n id s = Some s' -> exists l, rq s' = l ++ rq s.
Proof.
  induction n as [|n IH]; intros id s s'; cbn [reported]; [done|]. intros H. by apply (answered_grows _ IH) in H.
Qed.

(** A report of the extension is one of the sequence. *)
Lemma answered_refines n fuel : (n <= fuel)%nat ->
  (forall id s r r', shows s r -> reported n id r = Some r' -> exists s', present_event_notify fuel id s = Some s' /\ shows s' r') ->
  forall rs s r r', shows s r -> answered (reported n) rs r = Some r' ->
  exists s', respond_all (present_event_notify fuel) fuel rs s = Some s' /\ shows s' r'.
Proof.
  intros Hf Ht. induction rs as [|a rs IH]; intros s r r' Hs; cbn [answered respond_all]; [intros [= <-]; by exists s|].
  destruct a as [[p v]|id|e t]; [|done|]; cbn [respond].
  - case_decide as Hp; [done|]. destruct Hs as (Hh & Hm & Hl). destruct (vblank_queued s (rq r) p v Hh Hp) as (s1 & -> & Hh1 & Em & En).
    cbn [fmap option_fmap option_map mbind option_bind snd]. apply IH. split; [done|]. cbn. split; congruence.
  - intros (r1 & E & H2)%bind_Some. destruct Hs as (Hh & Hm & Hl).
    apply (Ht e (flip_msc t s)) in E as (s1 & -> & Hs1); [cbn [mbind option_bind]; by apply (IH s1 r1)|].
    split; [by destruct Hh|]. cbn. by rewrite Hm.
Qed.

Lemma reported_refines n : forall fuel id s r r', (n <= fuel)%nat -> shows s r -> reported n id r = Some r' ->
  exists s', present_event_notify fuel id s = Some s' /\ shows s' r'.
Proof.
  induction n as [|n IH]; intros fuel id s r r' Hf Hs; cbn [reported]; [done|]. destruct fuel as [|fuel]; [lia|]. cbn [present_event_notify].
  apply answered_refines; [lia|intros id' s1 r1 r1'; apply IH; lia|]. destruct Hs as (Hh & Hm & Hl).
  split; [by destruct Hh|]. cbn. by rewrite Hm, Hl.
Qed.

Lemma filter_middle (q1 q2 : list (Z * vblank)) p v : NoDup (q1 ++ (p, v) :: q2).*1 -> filter (fun x => x.1 <> p) (q1 ++ (p, v) :: q2) = q1 ++ q2.
Proof.
  intros Hn. rewrite fmap_app in Hn. cbn in Hn. rewrite <- Permutation_middle in Hn. apply NoDup_cons in Hn as [Hp _].
  rewrite <- fmap_app in Hp. rewrite filter_app, filter_cons_False by (cbn; tauto). rewrite <- filter_app. revert Hp. generalize (q1 ++ q2). intros q Hp.
  induction q as [|x q IH]; [done|]. cbn in Hp. apply not_elem_of_cons in Hp as [Hx Hp].
  rewrite filter_cons_True by done. by rewrite (IH Hp).
Qed.

Lemma perform_loop_refines n q2 : forall q1 s r r' fuel, shows s r -> rq r = q1 ++ q2 -> (n + length q2 < fuel)%nat -> serve n q2 r = Some r' ->
  exists s', perform_loop fuel (hd vblank_queue q2.*1) s = Some s' /\ shows s' r'.
Proof.
  induction q2 as [|[p v] q2 IH]; intros q1 s r r' fuel Hs Hq Hf; (destruct fuel as [|fuel]; [simpl in Hf; lia|]); cbn [serve].
  { intros [= <-]. exists s. split; [|done]. cbn [perform_loop fmap list_fmap hd]. by rewrite Z.eqb_refl. }
  pose proof Hs as (Hh & Hm & Hl). rewrite Hq in Hh. pose proof (holds_nodup _ _ Hh) as Hnd.
  assert (Hp : p <> vblank_queue).
  { intros ->. apply NoDup_cons in Hnd as [Hnd _]. apply Hnd. rewrite fmap_app. apply elem_of_app. right. by left. }
  cbn [perform_loop fmap list_fmap hd fst snd]. rewrite (proj2 (Z.eqb_neq p vblank_queue)) by done.
  pose proof (hd_list _ _ Hh) as Hli. rewrite fmap_app in Hli. cbn in Hli. rewrite (next_at _ _ _ _ _ Hli).
  rewrite (hd_val _ _ Hh p v) by (apply elem_of_app; right; by left). cbn [mbind option_bind]. rewrite Hm.
  change (vb_msc v <=? rq_msc r) with (due (rq_msc r) (p, v)). simpl in Hf. destruct (due (rq_msc r) (p, v)).
  - intros (r1 & E & H2)%bind_Some. destruct (reported_grows _ _ _ _ E) as [l Er]. rewrite Hq, app_assoc in Er.
    destruct (reported_refines n (S fuel) (vb_id v) s r r1 ltac:(lia) Hs E) as (s1 & -> & Hh1 & Hm1 & Hl1). cbn [mbind option_bind].
    rewrite Er in Hh1. destruct (drop_holds s1 _ p v q2 Hh1) as (s2 & -> & Hh2 & Em2 & En2). cbn [mbind option_bind].
    pose proof (holds_nodup _ _ Hh1) as Hn1. apply NoDup_cons in Hn1 as [_ Hn1].
    assert (rq (freed p r1) = (l ++ q1) ++ q2) as Ef by (cbn; rewrite Er; by apply filter_middle).
    apply (IH (l ++ q1) s2 (freed p r1)); [|done|lia|done]. split; [by rewrite Ef|]. cbn. split; congruence.
  - apply (IH (q1 ++ [(p, v)])); [done|by rewrite <- app_assoc|lia].
Qed.

Lemma vblanks_refine n fuel s q r : holds s q -> serve n q (requests s q) = Some r -> (n + length q < fuel)%nat ->
  exists s', loriePerformVblanks fuel s = Some s' /\ shows s' r.
Proof.
  intros Hh Hr Hf. unfold loriePerformVblanks.
  destruct (is_list_first _ _ _ (hd_list _ _ Hh)) as [-> _]. cbn [mbind option_bind].
  by apply (perform_loop_refines n q [] s (requests s q)).
Qed.

(** ** Theorems *)

(** C34: on the pointers of the list [loriePerformVblanks] is the loop over the sequence of the
    requests ([serve]): every request that waits is looked at once, in the order of the list; one
    that is due by the count of that moment is reported, once, and freed, and the others stay in
    order. What the extension does when it is told takes effect at once: requests in memory that
    is not in use come to the front and are not looked at, flips set the count and are reported,
    flips in reaction to flips included, up to any depth [n]. It must not abort requests
    meanwhile. *)
Theorem loriePerformVblanks_refines n fuel s q r :
  holds s q -> serve n q (requests s q) = Some r -> (n + length q < fuel)%nat ->
  exists s', loriePerformVblanks fuel s = Some s' /\ holds s' (rq r) /\ current_msc s' = rq_msc r /\ notified s' = rq_log r.
Proof. apply vblanks_refine. Qed.

(** When the extension only makes requests, in memory not used before, exactly the requests that are
    due at the beginning are reported. *)
Theorem loriePerformVblanks_serves queued s q fuel :
  only_queues queued q -> holds s q -> (length q < fuel)%nat -> NoDup (reactions queued (current_msc s) q).*1 ->
  (forall p, p ∈ (reactions queued (current_msc s) q).*1 -> p ∉ vblank_queue :: q.*1) ->
  exists s', loriePerformVblanks fuel s = Some s' /\
    holds s' (reverse (reactions queued (current_msc s) q) ++ filter (fun x => due (current_msc s) x = false) q) /\
    current_msc s' = current_msc s /\
    notified s' = notified s ++ map (fun x => (vb_id x.2, current_msc s)) (filter (fun x => due (current_msc s) x = true) q).
Proof.
  intros Hqs Hh Hf Hn Hfr. unfold loriePerformVblanks.
  destruct (is_list_first _ _ _ (hd_list _ _ Hh)) as [-> _]. cbn [mbind option_bind].
  by apply (perform_loop_holds queued q [] s fuel).
Qed.

(** Aborting a request takes it out of the queue and frees it. *)
Theorem loriePresentAbortVblank_removes s q id fuel :
  holds s q -> (length q < fuel)%nat ->
  exists s', loriePresentAbortVblank fuel id s = Some s' /\ holds s' (without id q) /\
    current_msc s' = current_msc s /\ notified s' = notified s.
Proof.
  intros Hh Hf. unfold loriePresentAbortVblank.
  destruct (is_list_first _ _ _ (hd_list _ _ Hh)) as [-> _]. cbn [mbind option_bind].
  by apply (abort_loop_holds id q [] s fuel).
Qed.

End present.

(** ** Witnesses *)

(** The head is at 1; event 10 is due at 5 and makes the extension request event 12. *)
Definition demo_queued (id : Z) : list (Z * vblank) :=
  if id =? 10 then [(400, {| vb_id := 12; vb_msc := 7 |})] else [].
Definition demo_reaction (id : Z) : list reply := map Queue (demo_queued id).

Definition demo_queue : list (Z * vblank) :=
  [(300, {| vb_id := 11; vb_msc := 6 |}); (200, {| vb_id := 10; vb_msc := 5 |})].

Definition empty_present : Present :=
  {| lnks := xorg_list_init 1 no_links; vblanks := ∅; current_msc := 5; notified := [] |}.

Definition demo_present : Present :=
  default empty_present (respond_all 1 (fun _ => Some) 0 (map Queue (reverse demo_queue)) empty_present).

Lemma empty_holds : holds 1 empty_present [].
Proof.
  split; cbn [lnks vblanks empty_present].
  - apply init_is_list.
  - intros p. rewrite dom_empty. set_solver.
  - by intros p v ?%elem_of_nil.
Qed.

Lemma demo_holds : holds 1 demo_present demo_queue.
Proof.
  destruct (queue_all_holds 1 (fun _ => Some) 0 (reverse demo_queue) empty_present [] empty_holds) as (s & E & H & _).
  - by apply (bool_decide_unpack _); vm_compute.
  - intros p Hp. cbn in Hp. rewrite !elem_of_cons, elem_of_nil in Hp. apply not_elem_of_cons.
    split; [lia|apply not_elem_of_nil].
  - unfold demo_present. rewrite E. rewrite app_nil_r, reverse_involutive in H. exact H.
Qed.

Lemma loriePerformVblanks_serves_witness :
  exists s', loriePerformVblanks 1 demo_reaction 3 demo_present = Some s' /\
    holds 1 s' [(400, {| vb_id := 12; vb_msc := 7 |}); (300, {| vb_id := 11; vb_msc := 6 |})] /\
    current_msc s' = 5 /\ notified s' = [(10, 5)].
Proof.
  apply (loriePerformVblanks_serves 1 demo_reaction demo_queued demo_present demo_queue 3);
    [by repeat constructor|apply demo_holds|simpl; lia|by apply (bool_decide_unpack _); vm_compute|].
  intros p Hp. apply list_elem_of_singleton in Hp as ->. by apply (bool_decide_unpack _); vm_compute.
Defined.

(** At refresh 6 event 10 makes a flip, which turns the count back and requests event 12 in turn;
    event 11 is not due any more when it is looked at. *)
Definition flip_reaction (id : Z) : list reply :=
  if id =? 10 then [Flipped 20 3] else if id =? 20 then [Queue (400, {| vb_id := 12; vb_msc := 7 |})] else [].

Definition flip_present : Present :=
  set_msc 6 (default empty_present (respond_all 1 (fun _ => Some) 0 (map Queue demo_queue) empty_present)).

Lemma flip_holds : holds 1 flip_present (reverse demo_queue).
Proof.
  destruct (queue_all_holds 1 (fun _ => Some) 0 demo_queue empty_present [] empty_holds) as (s & E & H & _).
  - by apply (bool_decide_unpack _); vm_compute.
  - intros p Hp. cbn in Hp. rewrite !elem_of_cons, elem_of_nil in Hp. apply not_elem_of_cons.
    split; [lia|apply not_elem_of_nil].
  - unfold flip_present. rewrite E. rewrite app_nil_r in H. by destruct H.
Qed.

Lemma loriePerformVblanks_refines_witness :
  exists s', loriePerformVblanks 1 flip_reaction 5 flip_present = Some s' /\
    holds 1 s' [(400, {| vb_id := 12; vb_msc := 7 |}); (300, {| vb_id := 11; vb_msc := 6 |})] /\
    current_msc s' = 3 /\ notified s' = [(10, 6); (20, 3)].
Proof.
  apply (loriePerformVblanks_refines 1 flip_reaction 2 5 flip_present (reverse demo_queue)
    {| rq := [(400, {| vb_id := 12; vb_msc := 7 |}); (300, {| vb_id := 11; vb_msc := 6 |})]; rq_msc := 3; rq_log := [(10, 6); (20, 3)] |}).
  - exact flip_holds.
  - by vm_compute.
  - cbn. lia.
Defined.

(** The request that is looked at next is freed in reaction to the one before it: the loop uses it
    after that. *)
Example aborted_next_is_used fuel :
  loriePerformVblanks 1 (fun id => if id =? 10 then [Abort 11] else []) fuel flip_present = None.
Proof. destruct fuel as [|[|[|[|fuel]]]]; by vm_compute. Qed.

(** A flip whose target has passed turns the count of refreshes back. *)
Example flip_turns_back :
  exists s', loriePresentAfterFlip 1 (fun _ => []) 1 20 3 demo_present = Some s' /\ current_msc s' = 3.
Proof. eexists. by split. Qed.

(** When that happens in reaction to a request, another one that was due is not reported:
    at refresh 6 both requests are due, but event 10 turns the count back to 3 before event
    11, queued first, is looked at. *)
Example flip_postpones_due :
  let s := default empty_present (respond_all 1 (fun _ => Some) 0 (map Queue demo_queue) empty_present) in
  exists s', redraw_vblanks 1 (fun id => if id =? 10 then [Flipped 20 3] else []) 3 s = Some s' /\
    notified s' = [(10, 6); (20, 3)] /\ current_msc s' = 3.
Proof. eexists. by split. Qed.
