(* ===== verification/Buffer.v ===== *)
(** * Shareable pixel buffers ([lorie/buffer.c], [lorie/buffer.h])

    A [LorieBuffer] owns plain memory, a mapped file descriptor or an
    [AHardwareBuffer]. The model keeps the live buffers by address and a ledger
    of the resources the process holds; giving back a resource that is not in
    the ledger (a double free, a double close) is an error ([None]), so that a
    result shows there is none and the final ledger shows there is no leak.
    The answers of the C library and of Android are in [BufEnv]. *)

From S2P Require Import Prelude XorgList.

(** ** Data *)

Definition LORIEBUFFER_REGULAR : Z := 1.
Definition LORIEBUFFER_FD : Z := 2.
Definition LORIEBUFFER_AHARDWAREBUFFER : Z := 3.
Definition FORMAT_R8G8B8X8 : Z := 2.
Definition FORMAT_B8G8R8A8 : Z := 5.
Definition ENOENT : Z := 2.
Definition EEXIST : Z := 17.
Definition ENODEV : Z := 19.

(** [LorieBuffer_Desc]; [dsc_buffer] and [dsc_data] are addresses, 0 for NULL. *)
Record LorieBuffer_Desc := {
  dsc_width : Z; dsc_height : Z; dsc_stride : Z;
  dsc_format : Z; dsc_type : Z; dsc_id : Z; dsc_buffer : Z; dsc_data : Z;
}.

(** [struct LorieBuffer] without the fields of the GL context; the [link] node
    of the buffer at address [p] is the node [p] of the list heap. *)
Record LorieBuffer := {
  refcount : Z; desc : LorieBuffer_Desc; locked : Z; lockedData : Z;
  buf_fd : Z; buf_size : Z; buf_offset : Z;
}.

(** What a process can hold. *)
Inductive resource :=
  | RHeap (p : Z)            (* calloc *)
  | RFd (fd : Z)             (* open file descriptor *)
  | RMap (p size : Z)        (* mmap *)
  | RAhb (h : Z).            (* a reference on an AHardwareBuffer *)

#[export] Instance resource_eq_dec : EqDecision resource.
Proof. solve_decision. Defined.

Record World := {
  next_id : Z;                    (* the static counter of [allocate] *)
  bufs : gmap Z LorieBuffer;
  ledger : list resource;
  lnk : links;
}.

(** The answers given to one call. *)
Record BufEnv := {
  env_dup : Z; env_mmap : Z; env_data : Z; env_struct : Z;
  env_ashm : Z; env_memfd : Z; env_open : Z; env_setname : Z; env_setsize : Z;
  env_ahb_err : Z; env_ahb : Z;
  env_describe : Z * Z * Z * Z;   (* width, height, stride, format *)
  env_lock : Z * Z;               (* result and address *)
}.

Definition set_bufs b w := {| next_id := next_id w; bufs := b; ledger := ledger w; lnk := lnk w |}.
Definition set_ledger l w := {| next_id := next_id w; bufs := bufs w; ledger := l; lnk := lnk w |}.
Definition set_lnk h w := {| next_id := next_id w; bufs := bufs w; ledger := ledger w; lnk := h |}.

(** ** Resources *)

Definition open_fd (fd : Z) (l : list resource) : list resource :=
  if 0 <=? fd then RFd fd :: l else l.

Definition MAP_FAILED : Z := -1.
Definition map_ok (p : Z) : bool := negb (p =? 0) && negb (p =? MAP_FAILED).

(** [(size + page_size - 1) & ~(page_size - 1)] on [size_t]. *)
Definition alignToPage (page_size size : Z) : Z := Z.ldiff (u64 (size + page_size - 1)) (page_size - 1).

(** The bytes of an image: the [int] product converted to [size_t] and multiplied. *)
Definition image_size (a b : Z) : Z := u64 (u64 (i32 (a * b)) * 4).

(** [(fd or error, ledger)]. *)
Definition LorieBuffer_createRegion (e : BufEnv) (l : list resource) : option (Z * list resource) :=
  let l1 := open_fd (env_ashm e) l in
  if negb (env_ashm e =? 0) then Some (env_ashm e, l1)
  else
    let l2 := open_fd (env_memfd e) l1 in
    if negb (env_memfd e =? 0) then Some (env_memfd e, l2)
    else
      let l3 := open_fd (env_open e) l2 in
      if env_open e <? 0 then Some (env_open e, l3)
      else if env_setname e <? 0 then l4 ← give_back (RFd (env_open e)) l3; Some (env_setname e, l4)
      else if env_setsize e <? 0 then l4 ← give_back (RFd (env_open e)) l3; Some (env_setsize e, l4)
      else Some (env_open e, l3).

(** ** Allocation *)

Definition acceptable (width height format : Z) : bool :=
  ((format =? FORMAT_B8G8R8A8) || (format =? FORMAT_R8G8B8X8)) && (0 <? width) && (0 <? height).

(** The first half of [allocate]: the filled struct and the ledger, or the ledger
    at an early return ([inr]). *)
Definition allocate_fill (e : BufEnv) (id width stride height format type buf fd size off : Z)
    (takeFd : bool) (l : list resource) : option (LorieBuffer * list resource + list resource) :=
  let bfd := if takeFd then fd else env_dup e in
  let l1 := if takeFd then l else open_fd (env_dup e) l in
  let mk d := {| refcount := 1; desc := d; locked := 0; lockedData := 0;
                 buf_fd := bfd; buf_size := size; buf_offset := off |} in
  let d := {| dsc_width := width; dsc_height := height; dsc_stride := stride; dsc_format := u8 format;
              dsc_type := u8 type; dsc_id := id; dsc_buffer := buf; dsc_data := 0 |} in
  let with_data p := {| dsc_width := width; dsc_height := height; dsc_stride := stride; dsc_format := u8 format;
              dsc_type := u8 type; dsc_id := id; dsc_buffer := buf; dsc_data := p |} in
  if negb (type =? LORIEBUFFER_AHARDWAREBUFFER) && negb (acceptable width height format) then Some (inr l1)
  else if type =? LORIEBUFFER_REGULAR then
    if env_data e =? 0 then Some (inr l1)
    else Some (inl (mk (with_data (env_data e)), RHeap (env_data e) :: l1))
  else if type =? LORIEBUFFER_FD then
    if bfd <? 0 then Some (inr l1)
    else if negb (map_ok (env_mmap e)) then l2 ← give_back (RFd bfd) l1; Some (inr l2)
    else Some (inl (mk (with_data (env_mmap e)), RMap (env_mmap e) size :: l1))
  else if type =? LORIEBUFFER_AHARDWAREBUFFER then
    if buf =? 0 then Some (inr l1)
    else
      let '(w, h, s, f) := env_describe e in
      Some (inl (mk {| dsc_width := w; dsc_height := h; dsc_stride := s; dsc_format := u8 f;
                       dsc_type := u8 type; dsc_id := id; dsc_buffer := buf; dsc_data := 0 |}, l1))
  else Some (inr l1).

(** What a failed [calloc] of the struct, and [__LorieBuffer_free], give back. *)
Definition drop (b : LorieBuffer) (l : list resource) : option (list resource) :=
  let t := dsc_type (desc b) in
  if t =? LORIEBUFFER_REGULAR then give_back (RHeap (dsc_data (desc b))) l
  else if t =? LORIEBUFFER_FD then
    l1 ← give_back (RMap (dsc_data (desc b)) (buf_size b)) l; give_back (RFd (buf_fd b)) l1
  else if t =? LORIEBUFFER_AHARDWAREBUFFER then give_back (RAhb (dsc_buffer (desc b))) l
  else Some l.

(** The result is the address of the buffer, 0 for NULL. *)
Definition allocate (e : BufEnv) (width stride height format type buf fd size off : Z) (takeFd : bool)
    (w : World) : option (Z * World) :=
  r ← allocate_fill e (next_id w) width stride height format type buf fd size off takeFd (ledger w);
  let w1 l := {| next_id := u64 (next_id w + 1); bufs := bufs w; ledger := l; lnk := lnk w |} in
  match r with
  | inr l => Some (0, w1 l)
  | inl (b, l) =>
      if env_struct e =? 0 then l' ← drop b l; Some (0, w1 l')
      else
        let p := env_struct e in
        Some (p, set_lnk (xorg_list_init p (lnk w)) (set_bufs (<[p:=b]> (bufs w)) (w1 l)))
  end.

Definition LorieBuffer_allocate (page : Z) (e : BufEnv) (width height format type : Z) (w : World)
  : option (Z * World) :=
  if type =? LORIEBUFFER_FD then
    let size := alignToPage page (image_size width height) in
    r ← LorieBuffer_createRegion e (ledger w);
    if r.1 <? 0 then Some (0, set_ledger r.2 w)
    else allocate e width width height format type 0 r.1 size 0 true (set_ledger r.2 w)
  else if type =? LORIEBUFFER_AHARDWAREBUFFER then
    let h := if env_ahb_err e =? 0 then env_ahb e else 0 in
    let l := if env_ahb_err e =? 0 then RAhb (env_ahb e) :: ledger w else ledger w in
    allocate e width width height format type h (-1) 0 0 true (set_ledger l w)
  else allocate e width width height format type 0 (-1) 0 0 true w.

Definition LorieBuffer_wrapFileDescriptor (e : BufEnv) (width stride height format fd off : Z) (w : World)
  : option (Z * World) :=
  allocate e width stride height format LORIEBUFFER_FD 0 fd (image_size stride height) off false w.

(** The caller hands over its reference on the hardware buffer [h]. *)
Definition LorieBuffer_wrapAHardwareBuffer (e : BufEnv) (h : Z) (w : World) : option (Z * World) :=
  allocate e 0 0 0 0 LORIEBUFFER_AHARDWAREBUFFER h (-1) 0 0 false w.

(** ** Reference counts *)

Definition set_refcount (n : Z) (b : LorieBuffer) : LorieBuffer :=
  {| refcount := n; desc := desc b; locked := locked b; lockedData := lockedData b;
     buf_fd := buf_fd b; buf_size := buf_size b; buf_offset := buf_offset b |}.

(** The low half of the [int] that is incremented is the count. *)
Definition LorieBuffer_acquire (p : Z) (w : World) : option World :=
  if p =? 0 then Some w
  else b ← bufs w !! p; Some (set_bufs (<[p:=set_refcount (i16 (refcount b + 1)) b]> (bufs w)) w).

Definition __LorieBuffer_free (p : Z) (w : World) : option World :=
  if p =? 0 then Some w
  else
    b ← bufs w !! p;
    h ← xorg_list_del p (lnk w);
    l ← drop b (ledger w);
    Some (set_lnk h (set_bufs (delete p (bufs w)) (set_ledger l w))).

Definition LorieBuffer_release (p : Z) (w : World) : option World :=
  if p =? 0 then Some w
  else
    b ← bufs w !! p;
    let w1 := set_bufs (<[p:=set_refcount (i16 (refcount b - 1)) b]> (bufs w)) w in
    if refcount b =? 1 then __LorieBuffer_free p w1 else Some w1.

(** ** Conversion of a regular buffer *)

(** The copy of the pixels by [pixman_blt] is not part of the state. *)
Definition LorieBuffer_convert (page : Z) (e : BufEnv) (p type format : Z) (w : World) : option World :=
  if p =? 0 then Some w
  else
    b ← bufs w !! p;
    let d := desc b in
    if negb (dsc_type d =? LORIEBUFFER_REGULAR)
       || (negb (type =? LORIEBUFFER_FD) && negb (type =? LORIEBUFFER_AHARDWAREBUFFER))
       || (negb (format =? FORMAT_R8G8B8X8) && negb (format =? FORMAT_B8G8R8A8)) then Some w
    else if type =? LORIEBUFFER_FD then
      let size := alignToPage page (image_size (dsc_stride d) (dsc_height d)) in
      r ← LorieBuffer_createRegion e (ledger w);
      let '(fd, l1) := r in
      if fd <? 0 then Some (set_ledger l1 w)
      else if negb (map_ok (env_mmap e)) then l2 ← give_back (RFd fd) l1; Some (set_ledger l2 w)
      else
        l2 ← give_back (RHeap (dsc_data d)) (RMap (env_mmap e) size :: l1);
        let b' := {| refcount := refcount b;
                     desc := {| dsc_width := dsc_width d; dsc_height := dsc_height d; dsc_stride := dsc_stride d;
                                dsc_format := u8 format; dsc_type := u8 type; dsc_id := dsc_id d;
                                dsc_buffer := dsc_buffer d; dsc_data := env_mmap e |};
                     locked := 0; lockedData := 0; buf_fd := fd; buf_size := size; buf_offset := 0 |} in
        Some (set_bufs (<[p:=b']> (bufs w)) (set_ledger l2 w))
    else if negb (env_ahb_err e =? 0) then Some w
    else
      let '(_, _, stride, _) := env_describe e in
      l2 ← give_back (RHeap (dsc_data d)) (RAhb (env_ahb e) :: ledger w);
      let b' := {| refcount := refcount b;
                   desc := {| dsc_width := dsc_width d; dsc_height := dsc_height d; dsc_stride := stride;
                              dsc_format := u8 format; dsc_type := u8 type; dsc_id := dsc_id d;
                              dsc_buffer := env_ahb e; dsc_data := 0 |};
                   locked := 0; lockedData := 0;
                   buf_fd := buf_fd b; buf_size := buf_size b; buf_offset := buf_offset b |} in
      Some (set_bufs (<[p:=b']> (bufs w)) (set_ledger l2 w)).

(** ** Locking *)

Definition set_lock (v data : Z) (b : LorieBuffer) : LorieBuffer :=
  {| refcount := refcount b; desc := desc b; locked := v; lockedData := data;
     buf_fd := buf_fd b; buf_size := buf_size b; buf_offset := buf_offset b |}.

(** [(result, *out, buffer)] for a buffer that is not NULL. *)
Definition lock_buffer (e : BufEnv) (b : LorieBuffer) : Z * Z * LorieBuffer :=
  if negb (locked b =? 0) then (EEXIST, lockedData b, b)
  else
    let t := dsc_type (desc b) in
    let '(ret, data) :=
      if (t =? LORIEBUFFER_REGULAR) || (t =? LORIEBUFFER_FD) then (0, dsc_data (desc b))
      else if t =? LORIEBUFFER_AHARDWAREBUFFER then env_lock e
      else (0, lockedData b) in
    (ret, data, set_lock 1 data b).

Definition LorieBuffer_lock (e : BufEnv) (p : Z) (w : World) : option (Z * Z * World) :=
  if p =? 0 then Some (ENODEV, 0, w)
  else
    b ← bufs w !! p;
    let '(ret, out, b') := lock_buffer e b in
    Some (ret, out, set_bufs (<[p:=b']> (bufs w)) w).

Definition unlock_buffer (ahb_ret : Z) (b : LorieBuffer) : Z * LorieBuffer :=
  if locked b =? 0 then (ENOENT, b)
  else (if dsc_type (desc b) =? LORIEBUFFER_AHARDWAREBUFFER then ahb_ret else 0, set_lock 0 0 b).

Definition LorieBuffer_unlock (ahb_ret p : Z) (w : World) : option (Z * World) :=
  if p =? 0 then Some (ENODEV, w)
  else
    b ← bufs w !! p;
    let '(ret, b') := unlock_buffer ahb_ret b in
    Some (ret, set_bufs (<[p:=b']> (bufs w)) w).

(** ** Sending a buffer to the other process *)

(** The message is the struct as it is in memory, then a handle by its type. *)
Definition LorieBuffer_sendHandleToUnixSocket (b : LorieBuffer) : LorieBuffer * option Z :=
  (b, if dsc_type (desc b) =? LORIEBUFFER_FD then Some (buf_fd b)
      else if dsc_type (desc b) =? LORIEBUFFER_AHARDWAREBUFFER then Some (dsc_buffer (desc b)) else None).

Definition with_handle (b : LorieBuffer) (fd data buffer : Z) : LorieBuffer :=
  let d := desc b in
  {| refcount := refcount b;
     desc := {| dsc_width := dsc_width d; dsc_height := dsc_height d; dsc_stride := dsc_stride d;
                dsc_format := dsc_format d; dsc_type := dsc_type d; dsc_id := dsc_id d;
                dsc_buffer := buffer; dsc_data := data |};
     locked := locked b; lockedData := lockedData b; buf_fd := fd; buf_size := buf_size b; buf_offset := buf_offset b |}.

(** Reception of [msg]; [recv_fd] is what [ancil_recv_fd] answers and [recv_ahb] the
    hardware buffer received. The result is the address stored in [*outBuffer],
    [None] inside when nothing is stored. *)
Definition LorieBuffer_recvHandleFromUnixSocket (e : BufEnv) (recv_fd recv_ahb : Z) (msg : LorieBuffer) (w : World)
  : option (option Z * World) :=
  let d := desc msg in
  let t := dsc_type d in
  let size := image_size (dsc_stride d) (dsc_height d) in
  let l1 := if t =? LORIEBUFFER_FD then open_fd recv_fd (ledger w)
            else if t =? LORIEBUFFER_AHARDWAREBUFFER then RAhb recv_ahb :: ledger w else ledger w in
  if (t =? LORIEBUFFER_FD) && (recv_fd =? -1) then Some (Some 0, set_ledger l1 w)
  else if (t =? LORIEBUFFER_FD) && negb (map_ok (env_mmap e)) then
    l2 ← give_back (RFd recv_fd) l1; Some (Some 0, set_ledger l2 w)
  else
    let b := if t =? LORIEBUFFER_FD then with_handle msg recv_fd (env_mmap e) (dsc_buffer d)
             else if t =? LORIEBUFFER_AHARDWAREBUFFER then with_handle msg (buf_fd msg) (dsc_data d) recv_ahb
             else msg in
    let l2 := if t =? LORIEBUFFER_FD then RMap (env_mmap e) size :: l1 else l1 in
    if env_struct e =? 0 then
      l3 ← (if 0 <=? buf_fd b then give_back (RFd (buf_fd b)) l2 else Some l2);
      l4 ← (if negb (dsc_buffer (desc b) =? 0) then give_back (RAhb (dsc_buffer (desc b))) l3 else Some l3);
      Some (None, set_ledger l4 w)
    else
      let p := env_struct e in
      Some (Some p, set_lnk (xorg_list_init p (lnk w)) (set_bufs (<[p:=b]> (bufs w)) (set_ledger l2 w))).

(** ** Descriptions and lists *)

Definition no_desc : LorieBuffer_Desc :=
  {| dsc_width := 0; dsc_height := 0; dsc_stride := 0; dsc_format := 0; dsc_type := 0; dsc_id := 0;
     dsc_buffer := 0; dsc_data := 0 |}.

Definition LorieBuffer_description (p : Z) (w : World) : option LorieBuffer_Desc :=
  if p =? 0 then Some no_desc else desc <$> bufs w !! p.

Definition LorieBuffer_getWidth p w := dsc_width <$> LorieBuffer_description p w.
Definition LorieBuffer_getHeight p w := dsc_height <$> LorieBuffer_description p w.
Definition LorieBuffer_isRgba p w := (fun d => negb (dsc_format d =? FORMAT_B8G8R8A8)) <$> LorieBuffer_description p w.

Definition LorieBuffer_addToList (p list : Z) (w : World) : option World :=
  if (p =? 0) || (list =? 0) then Some w
  else h ← xorg_list_del p (lnk w); h' ← xorg_list_add p list h; Some (set_lnk h' w).

Definition LorieBuffer_removeFromList (p : Z) (w : World) : option World :=
  if p =? 0 then Some w else h ← xorg_list_del p (lnk w); Some (set_lnk h w).

Definition LorieBufferList_first (list : Z) (w : World) : option Z :=
  em ← xorg_list_is_empty list (lnk w);
  if (em : bool) then Some 0 else xorg_list_first_entry list (lnk w).

(** The first buffer of the loop whose identifier is [id]. *)
Fixpoint find_id (w : World) (id : Z) (l : list Z) : option Z :=
  match l with
  | [] => Some 0
  | p :: l' => b ← bufs w !! p; if dsc_id (desc b) =? id then Some p else find_id w id l'
  end.

Definition LorieBufferList_findById (fuel : nat) (list id : Z) (w : World) : option Z :=
  l ← walk fuel list (lnk w); find_id w id l.

(** ** Ownership *)

(** What a live buffer owns. *)
Definition owned (b : LorieBuffer) : list resource :=
  let t := dsc_type (desc b) in
  if t =? LORIEBUFFER_REGULAR then [RHeap (dsc_data (desc b))]
  else if t =? LORIEBUFFER_FD then [RMap (dsc_data (desc b)) (buf_size b); RFd (buf_fd b)]
  else if t =? LORIEBUFFER_AHARDWAREBUFFER then [RAhb (dsc_buffer (desc b))]
  else [].

Definition owned_all : gmap Z LorieBuffer -> list resource := collect owned.

Record buffers_ok (base : list resource) (w : World) : Prop := {
  bo_ledger : ledger w ≡ₚ owned_all (bufs w) ++ base;
  bo_live : forall p b, bufs w !! p = Some b -> p <> 0 /\ 1 <= refcount b < 2 ^ 15 /\
              is_Some (next (lnk w) !! p) /\ is_Some (prev (lnk w) !! p);
}.

(** The operations of the clients of the buffers. *)
Inductive buf_op :=
  | OpAllocate (e : BufEnv) (width height format type : Z)
  | OpWrapFd (e : BufEnv) (width stride height format fd off : Z)
  | OpAcquire (p : Z)
  | OpRelease (p : Z)
  | OpConvert (e : BufEnv) (p type format : Z)
  | OpLock (e : BufEnv) (p : Z)
  | OpUnlock (r p : Z).

Definition buf_exec (page : Z) (op : buf_op) (w : World) : option World :=
  match op with
  | OpAllocate e width height format type => snd <$> LorieBuffer_allocate page e width height format type w
  | OpWrapFd e width stride height format fd off => snd <$> LorieBuffer_wrapFileDescriptor e width stride height format fd off w
  | OpAcquire p => LorieBuffer_acquire p w
  | OpRelease p => LorieBuffer_release p w
  | OpConvert e p type format => LorieBuffer_convert page e p type format w
  | OpLock e p => snd <$> LorieBuffer_lock e p w
  | OpUnlock r p => snd <$> LorieBuffer_unlock r p w
  end.

(** A new struct is at an address where no live buffer is. *)
Definition fresh_struct (e : BufEnv) (w : World) : Prop := env_struct e = 0 \/ bufs w !! env_struct e = None.

(** What the clients keep to: buffers are used while they live and counts do not overflow;
    and the system: descriptor 0 is in use, a hardware buffer that is allocated is not NULL. *)
Definition op_ok (op : buf_op) (w : World) : Prop :=
  match op with
  | OpAllocate e width height format type =>
      fresh_struct e w /\ env_ashm e <> 0 /\ (env_ahb_err e = 0 -> env_ahb e <> 0)
  | OpWrapFd e width stride height format fd off => fresh_struct e w
  | OpAcquire p => forall b, bufs w !! p = Some b -> refcount b + 1 < 2 ^ 15
  | OpConvert e p _ _ => env_ashm e <> 0
  | _ => True
  end /\
  match op with
  | OpAcquire p | OpRelease p | OpConvert _ p _ _ | OpLock _ p | OpUnlock _ p => p = 0 \/ is_Some (bufs w !! p)
  | _ => True
  end.

Fixpoint run_ops (page : Z) (ops : list buf_op) (w : World) : option World :=
  match ops with [] => Some w | op :: ops' => w' ← buf_exec page op w; run_ops page ops' w' end.

(** The operations are used properly all along the run. *)
Fixpoint ops_ok (page : Z) (ops : list buf_op) (w : World) : Prop :=
  match ops with
  | [] => True
  | op :: ops' => op_ok op w /\ forall w', buf_exec page op w = Some w' -> ops_ok page ops' w'
  end.

(** ** The ledger *)

#[local] Arguments give_back : simpl never.

(** Giving back everything a buffer owns. *)
Lemma drop_owned b l rest : l ≡ₚ owned b ++ rest -> exists l', drop b l = Some l' /\ l' ≡ₚ rest.
Proof.
  unfold owned, drop. intros Hp. destruct (_ =? LORIEBUFFER_REGULAR); [by apply give_back_perm|].
  destruct (_ =? LORIEBUFFER_FD).
  - destruct (give_back_perm _ _ _ Hp) as (l1 & -> & H1). cbn. by apply give_back_perm.
  - destruct (_ =? LORIEBUFFER_AHARDWAREBUFFER); [by apply give_back_perm|eauto].
Qed.

Lemma owned_all_insert m p b : m !! p = None -> owned_all (<[p:=b]> m) ≡ₚ owned b ++ owned_all m.
Proof. apply collect_insert. Qed.

Lemma owned_all_delete m p b : m !! p = Some b -> owned_all m ≡ₚ owned b ++ owned_all (delete p m).
Proof. apply collect_delete. Qed.

Lemma owned_all_update m p b b' rest rest' : m !! p = Some b ->
  owned b ++ rest ≡ₚ owned b' ++ rest' -> owned_all m ++ rest ≡ₚ owned_all (<[p:=b']> m) ++ rest'.
Proof. apply collect_update. Qed.

Lemma owned_set_refcount n b : owned (set_refcount n b) = owned b.
Proof. done. Qed.

Lemma owned_set_lock v d b : owned (set_lock v d b) = owned b.
Proof. done. Qed.

(** ** Allocation accounts for every resource *)

(** What the caller hands over to [allocate]. *)
Definition handed (type buf fd : Z) (takeFd : bool) : list resource :=
  if type =? LORIEBUFFER_FD then (if takeFd then open_fd fd [] else [])
  else if type =? LORIEBUFFER_AHARDWAREBUFFER then (if buf =? 0 then [] else [RAhb buf]) else [].

(** What an early return forgets. *)
Definition forgotten (width height format type bfd : Z) : list resource :=
  if (type =? LORIEBUFFER_FD) && negb (acceptable width height format) then open_fd bfd [] else [].

Lemma open_fd_app fd l : open_fd fd l = open_fd fd [] ++ l.
Proof. unfold open_fd. by destruct (0 <=? fd). Qed.

Lemma allocate_fill_spec e id width stride height format type buf fd size off takeFd l rest :
  l ≡ₚ handed type buf fd takeFd ++ rest -> (type <> LORIEBUFFER_FD -> takeFd = true \/ env_dup e < 0) ->
  match allocate_fill e id width stride height format type buf fd size off takeFd l with
  | Some (inl (b, l')) => l' ≡ₚ owned b ++ rest /\ refcount b = 1 /\
      forgotten width height format type (if takeFd then fd else env_dup e) = []
  | Some (inr l') => l' ≡ₚ forgotten width height format type (if takeFd then fd else env_dup e) ++ rest
  | None => False
  end.
Proof.
  intros Hl Hdup. unfold allocate_fill.
  assert (Hl1 : type <> LORIEBUFFER_FD -> (if takeFd then l else open_fd (env_dup e) l) = l).
  { intros Ht. destruct (Hdup Ht) as [->|Hneg]; [done|]. destruct takeFd; [done|].
    unfold open_fd. by rewrite (proj2 (Z.leb_gt 0 (env_dup e))). }
  assert (Hfd : type = LORIEBUFFER_FD -> (if takeFd then l else open_fd (env_dup e) l) ≡ₚ
      open_fd (if takeFd then fd else env_dup e) [] ++ rest).
  { intros ->. destruct takeFd; [exact Hl|]. rewrite open_fd_app. by apply Permutation_app_head. }
  unfold forgotten. destruct (Z.eqb_spec type LORIEBUFFER_AHARDWAREBUFFER) as [->|Hna].
  { cbn. rewrite Hl1 by done. unfold handed in Hl. cbn in Hl.
    destruct (Z.eqb_spec buf 0) as [->|]; [done|]. destruct (env_describe e) as [[[w h] s] f]. done. }
  destruct (acceptable width height format) eqn:Ea; cbn [negb andb].
  2: { destruct (Z.eqb_spec type LORIEBUFFER_FD) as [->|Hnf]; cbn; [by apply Hfd|].
       rewrite Hl1 by done. rewrite Hl. unfold handed.
       by rewrite (proj2 (Z.eqb_neq type LORIEBUFFER_FD)), (proj2 (Z.eqb_neq type LORIEBUFFER_AHARDWAREBUFFER)). }
  rewrite andb_false_r. destruct (Z.eqb_spec type LORIEBUFFER_REGULAR) as [->|Hnr].
  { rewrite Hl1 by done. cbn in Hl. destruct (env_data e =? 0); [done|]. split; [|done].
    unfold owned. cbn. by rewrite Hl. }
  destruct (Z.eqb_spec type LORIEBUFFER_FD) as [->|Hnf].
  - specialize (Hfd eq_refl). set (bfd := if takeFd then fd else env_dup e) in *.
    unfold open_fd at 2 in Hfd. destruct (Z.ltb_spec bfd 0) as [Hneg|Hpos].
    { by rewrite (proj2 (Z.leb_gt 0 bfd)) in Hfd. }
    rewrite (proj2 (Z.leb_le 0 bfd)) in Hfd by done. destruct (negb _).
    + destruct (give_back_perm _ _ _ Hfd) as (l2 & -> & H2). done.
    + split; [|done]. unfold owned. cbn. by rewrite Hfd.
  - rewrite Hl1 by done. rewrite Hl. unfold handed.
    by rewrite (proj2 (Z.eqb_neq type LORIEBUFFER_FD)), (proj2 (Z.eqb_neq type LORIEBUFFER_AHARDWAREBUFFER)).
Qed.

Lemma init_known p h q : is_Some (next h !! q) /\ is_Some (prev h !! q) \/ q = p ->
  is_Some (next (xorg_list_init p h) !! q) /\ is_Some (prev (xorg_list_init p h) !! q).
Proof. intros H. cbn. destruct (decide (p = q)) as [->|]; list_fields; [eauto|]. destruct H as [?|]; [done|congruence]. Qed.

Lemma del_known p h : is_Some (next h !! p) -> is_Some (prev h !! p) ->
  exists h', xorg_list_del p h = Some h' /\
    forall q, is_Some (next h !! q) -> is_Some (prev h !! q) -> is_Some (next h' !! q) /\ is_Some (prev h' !! q).
Proof.
  intros [n Hn] [v Hv]. unfold xorg_list_del. rewrite Hn, Hv. cbn. eexists. split; [done|].
  intros q Hq1 Hq2. apply init_known. left. cbn. rewrite !lookup_insert_is_Some'. auto.
Qed.

(** The new buffer, if there is one, owns what was handed over or acquired. *)
Lemma allocate_spec base e width stride height format type buf fd size off takeFd w l :
  buffers_ok base w -> l ≡ₚ handed type buf fd takeFd ++ ledger w ->
  (type <> LORIEBUFFER_FD -> takeFd = true \/ env_dup e < 0) -> fresh_struct e w ->
  exists p w', allocate e width stride height format type buf fd size off takeFd (set_ledger l w) = Some (p, w') /\
    buffers_ok (forgotten width height format type (if takeFd then fd else env_dup e) ++ base) w'.
Proof.
  intros [Hlg Hlive] Hl Hdup Hfresh.
  pose proof (allocate_fill_spec e (next_id w) width stride height format type buf fd size off takeFd l (ledger w) Hl Hdup) as Hf.
  unfold allocate. cbn. destruct (allocate_fill _ _ _ _ _ _ _ _ _ _ _ _ _) as [[[b l']|l']|]; [| |done].
  - destruct Hf as (Hp & Hrc & ->). cbn. destruct (Z.eqb_spec (env_struct e) 0) as [E|E].
    + destruct (drop_owned b l' (ledger w) Hp) as (l2 & -> & H2). cbn. eexists 0, _. split; [done|].
      split; [|done]. cbn. by rewrite H2, Hlg.
    + destruct Hfresh as [?|Hfresh]; [done|]. eexists _, _. split; [done|]. split; cbn.
      * by rewrite owned_all_insert, Hp, Hlg, app_assoc by done.
      * intros q bq Hq. apply lookup_insert_Some in Hq as [[<- <-]|[Hne Hq]].
        -- split_and!; try done; try lia; apply init_known; by right.
        -- destruct (Hlive q bq Hq) as (? & ? & ? & ?). split_and!; try done; try lia; apply init_known; by left.
  - cbn. eexists 0, _. split; [done|]. split; [|done]. cbn.
    rewrite Hf, Hlg, !app_assoc. apply Permutation_app_tail, Permutation_app_comm.
Qed.

(** ** Every operation keeps the account *)

Lemma handed_none type fd : type <> LORIEBUFFER_FD -> handed type 0 fd true = [].
Proof. intros H. unfold handed. rewrite (proj2 (Z.eqb_neq type LORIEBUFFER_FD)) by done. by destruct (_ =? _). Qed.

Lemma forgotten_acceptable width height format type bfd :
  (type = LORIEBUFFER_FD -> acceptable width height format = true) -> forgotten width height format type bfd = [].
Proof. intros H. unfold forgotten. destruct (Z.eqb_spec type LORIEBUFFER_FD); [by rewrite H|done]. Qed.

Lemma createRegion_ashm e l : env_ashm e <> 0 -> LorieBuffer_createRegion e l = Some (env_ashm e, open_fd (env_ashm e) l).
Proof. intros H. unfold LorieBuffer_createRegion. by rewrite (proj2 (Z.eqb_neq _ 0)). Qed.

Lemma set_ledger_same w : set_ledger (ledger w) w = w.
Proof. by destruct w. Qed.

Lemma allocate_keeps page base e width height format type w :
  buffers_ok base w -> fresh_struct e w -> env_ashm e <> 0 -> (env_ahb_err e = 0 -> env_ahb e <> 0) ->
  exists p w', LorieBuffer_allocate page e width height format type w = Some (p, w') /\
    buffers_ok (forgotten width height format type (env_ashm e) ++ base) w'.
Proof.
  intros Hok Hfresh Hashm Hahb. unfold LorieBuffer_allocate.
  assert (Hfin : forall buf fd size l, l ≡ₚ handed type buf fd true ++ ledger w ->
    exists p w', allocate e width width height format type buf fd size 0 true (set_ledger l w) = Some (p, w') /\
      buffers_ok (forgotten width height format type fd ++ base) w').
  { intros buf fd size l Hl.
    destruct (allocate_spec base e width width height format type buf fd size 0 true w l) as (p & w' & E & H);
      try done; [by left|]. by exists p, w'. }
  assert (Hother : forall fd, type <> LORIEBUFFER_FD -> forgotten width height format type fd = []).
  { intros fd H. unfold forgotten. by rewrite (proj2 (Z.eqb_neq type LORIEBUFFER_FD)). }
  destruct (Z.eqb_spec type LORIEBUFFER_FD) as [->|Hnf].
  - rewrite createRegion_ashm by done. cbn [mbind option_bind fst snd].
    destruct (Z.ltb_spec (env_ashm e) 0) as [Hneg|Hpos].
    + eexists _, _. split; [done|]. unfold forgotten, open_fd.
      rewrite (proj2 (Z.leb_gt 0 _)), set_ledger_same by done. by destruct (_ && _).
    + apply Hfin. unfold handed. cbn. by rewrite open_fd_app.
  - destruct (Z.eqb_spec type LORIEBUFFER_AHARDWAREBUFFER) as [->|Hna].
    + rewrite (Hother (env_ashm e)), <- (Hother (-1)) by done. apply Hfin. unfold handed. cbn. destruct (Z.eqb_spec (env_ahb_err e) 0) as [E|E]; [|done].
      by rewrite (proj2 (Z.eqb_neq (env_ahb e) 0)) by auto.
    + rewrite (Hother (env_ashm e)), <- (Hother (-1)) by done. pose proof (Hfin 0 (-1) 0 (ledger w)) as H. rewrite set_ledger_same in H. apply H. by rewrite handed_none.
Qed.

(** Replacing a live buffer by one that owns what the ledger says. *)
Lemma update_keeps base w p b b' l : buffers_ok base w -> bufs w !! p = Some b -> 1 <= refcount b' < 2 ^ 15 ->
  (exists rest, ledger w ≡ₚ owned b ++ rest /\ l ≡ₚ owned b' ++ rest) ->
  buffers_ok base (set_bufs (<[p:=b']> (bufs w)) (set_ledger l w)).
Proof.
  intros [Hlg Hlive] Hb Hrc (rest & H1 & H2). split; cbn.
  - rewrite H2. assert (Hr : rest ≡ₚ owned_all (delete p (bufs w)) ++ base).
    { apply (Permutation_app_inv_l (owned b)). by rewrite <- H1, Hlg, (owned_all_delete _ _ _ Hb), app_assoc. }
    rewrite Hr, <- insert_delete_eq, owned_all_insert by apply lookup_delete_eq. by rewrite app_assoc.
  - intros q bq Hq. apply lookup_insert_Some in Hq as [[<- <-]|[Hne Hq]]; [|by apply Hlive].
    destruct (Hlive p b Hb) as (? & _ & ?). done.
Qed.

Lemma update_same_owned base w p b b' : buffers_ok base w -> bufs w !! p = Some b -> 1 <= refcount b' < 2 ^ 15 ->
  owned b' = owned b -> buffers_ok base (set_bufs (<[p:=b']> (bufs w)) w).
Proof.
  intros Hok Hb Hrc Ho. pose proof (update_keeps base w p b b' (ledger w)) as H.
  rewrite set_ledger_same in H. apply H; try done.
  rewrite Ho. exists (owned_all (delete p (bufs w)) ++ base). rewrite app_assoc, <- owned_all_delete by done.
  split; apply Hok.
Qed.

Lemma ledger_owned base w p b : buffers_ok base w -> bufs w !! p = Some b ->
  exists rest, ledger w ≡ₚ owned b ++ rest.
Proof.
  intros [Hlg _] Hb. exists (owned_all (delete p (bufs w)) ++ base).
  by rewrite app_assoc, <- owned_all_delete.
Qed.

Lemma release_keeps base w p : buffers_ok base w -> (p = 0 \/ is_Some (bufs w !! p)) ->
  exists w', LorieBuffer_release p w = Some w' /\ buffers_ok base w'.
Proof.
  intros Hok [->|[b Hb]]; [exists w; done|]. unfold LorieBuffer_release.
  destruct (bo_live _ _ Hok p b Hb) as (Hp0 & Hrc & Hn & Hv).
  rewrite (proj2 (Z.eqb_neq p 0)), Hb by done. cbn.
  destruct (Z.eqb_spec (refcount b) 1) as [E|E].
  - unfold __LorieBuffer_free. rewrite (proj2 (Z.eqb_neq p 0)) by done. cbn.
    rewrite lookup_insert_eq. cbn. destruct (del_known p (lnk w) Hn Hv) as (h & -> & Hh). cbn.
    destruct (ledger_owned base w p b Hok Hb) as [rest Hrest].
    destruct (drop_owned b (ledger w) rest Hrest) as (l & Hd & Hl).
    unfold drop in Hd |- *. cbn. rewrite Hd. cbn. eexists. split; [done|]. split; cbn.
    + rewrite Hl, delete_insert_eq. destruct Hok as [Hlg _].
      apply (Permutation_app_inv_l (owned b)). by rewrite <- Hrest, Hlg, (owned_all_delete _ _ _ Hb), app_assoc.
    + intros q bq Hq. rewrite delete_insert_eq in Hq. apply lookup_delete_Some in Hq as [Hne Hq].
      destruct (bo_live _ _ Hok q bq Hq) as (? & ? & ? & ?). destruct (Hh q) as [? ?]; done.
  - eexists. split; [done|]. apply (update_same_owned base w p b); try done. cbn.
    rewrite swrap_small; lia.
Qed.

Lemma convert_keeps page base e p type format w : buffers_ok base w -> env_ashm e <> 0 ->
  (p = 0 \/ is_Some (bufs w !! p)) ->
  exists w', LorieBuffer_convert page e p type format w = Some w' /\ buffers_ok base w'.
Proof.
  intros Hok Hashm [->|[b Hb]]; [exists w; done|]. unfold LorieBuffer_convert.
  destruct (bo_live _ _ Hok p b Hb) as (Hp0 & Hrc & _). rewrite (proj2 (Z.eqb_neq p 0)), Hb by done. cbn.
  destruct (Z.eqb_spec (dsc_type (desc b)) LORIEBUFFER_REGULAR) as [Ht|]; cbn [negb orb]; [|eauto].
  destruct (ledger_owned base w p b Hok Hb) as [rest Hrest].
  assert (Ho : owned b = [RHeap (dsc_data (desc b))]) by (unfold owned; by rewrite Ht).
  destruct (negb (type =? _) && _ || _)%bool eqn:Eg; [eauto|].
  destruct (Z.eqb_spec type LORIEBUFFER_FD) as [->|Hnf];
    [|destruct (Z.eqb_spec type LORIEBUFFER_AHARDWAREBUFFER) as [->|Hna]; [|done]].
  - rewrite createRegion_ashm by done. cbn [mbind option_bind].
    unfold open_fd. destruct (Z.ltb_spec (env_ashm e) 0) as [Hneg|Hpos].
    { rewrite (proj2 (Z.leb_gt 0 _)), set_ledger_same by done. eauto. }
    rewrite (proj2 (Z.leb_le 0 _)) by done. destruct (negb (map_ok _)).
    { cbn. rewrite give_back_hd. cbn. rewrite set_ledger_same. eauto. }
    set (size := alignToPage _ _).
    destruct (give_back_perm (RHeap (dsc_data (desc b))) (RMap (env_mmap e) size :: RFd (env_ashm e) :: ledger w)
      (RMap (env_mmap e) size :: RFd (env_ashm e) :: rest)) as (l2 & -> & H2).
    { rewrite Hrest, Ho. solve_Permutation. }
    cbn. eexists. split; [done|]. apply (update_keeps base w p b); try done.
    exists rest. split; [done|]. unfold owned. cbn. done.
  - destruct (env_ahb_err e =? 0); cbn [negb]; [|eauto]. destruct (env_describe e) as [[[ww hh] ss] ff].
    destruct (give_back_perm (RHeap (dsc_data (desc b))) (RAhb (env_ahb e) :: ledger w) (RAhb (env_ahb e) :: rest))
      as (l2 & -> & H2). { rewrite Hrest, Ho. solve_Permutation. }
    cbn. eexists. split; [done|]. apply (update_keeps base w p b); try done.
    exists rest. split; [done|]. unfold owned. cbn. done.
Qed.

Lemma wrapFd_keeps base e width stride height format fd off w :
  buffers_ok base w -> fresh_struct e w ->
  exists p w', LorieBuffer_wrapFileDescriptor e width stride height format fd off w = Some (p, w') /\
    buffers_ok (forgotten width height format LORIEBUFFER_FD (env_dup e) ++ base) w'.
Proof.
  intros Hok Hfresh. unfold LorieBuffer_wrapFileDescriptor.
  destruct (allocate_spec base e width stride height format LORIEBUFFER_FD 0 fd (image_size stride height) off false w
    (ledger w)) as (p & w' & E & H); try done.
  rewrite set_ledger_same in E. by exists p, w'.
Qed.

(** The descriptors that a rejected format or size leaves open with no buffer that owns them. *)
Definition leaks (op : buf_op) : list resource :=
  match op with
  | OpAllocate e width height format type => forgotten width height format type (env_ashm e)
  | OpWrapFd e width stride height format fd off => forgotten width height format LORIEBUFFER_FD (env_dup e)
  | _ => []
  end.

Lemma buffers_ok_perm base base' w : base ≡ₚ base' -> buffers_ok base w -> buffers_ok base' w.
Proof. intros Hp [H1 H2]. split; [by rewrite <- Hp|done]. Qed.

Lemma step_keeps page base op w : buffers_ok base w -> op_ok op w ->
  exists w', buf_exec page op w = Some w' /\ buffers_ok (leaks op ++ base) w'.
Proof.
  intros Hok [Hop Hlive]. destruct op; cbn in *.
  - destruct Hop as (? & ? & ?).
    destruct (allocate_keeps page base e width height format type w) as (p & w' & -> & ?); eauto.
  - destruct (wrapFd_keeps base e width stride height format fd off w) as (p & w' & -> & ?); eauto.
  - unfold LorieBuffer_acquire. destruct (Z.eqb_spec p 0); [eauto|].
    destruct Hlive as [?|[b Hb]]; [done|]. rewrite Hb. cbn. eexists. split; [done|].
    destruct (bo_live _ _ Hok p b Hb) as (_ & Hrc & _). specialize (Hop b Hb).
    apply (update_same_owned base w p b); try done. cbn. rewrite swrap_small; lia.
  - by apply release_keeps.
  - by apply convert_keeps.
  - unfold LorieBuffer_lock. destruct (Z.eqb_spec p 0); [eauto|].
    destruct Hlive as [?|[b Hb]]; [done|]. rewrite Hb. cbn.
    destruct (bo_live _ _ Hok p b Hb) as (_ & Hrc & _).
    assert (Hl : exists ret out b', lock_buffer e b = (ret, out, b') /\ owned b' = owned b /\ refcount b' = refcount b).
    { unfold lock_buffer. destruct (negb _); [by eexists _, _, _|].
      destruct (if _ || _ then _ else _) as [ret data]. by eexists _, _, _. }
    destruct Hl as (ret & out & b' & -> & Ho & Hr). cbn. eexists. split; [done|].
    apply (update_same_owned base w p b); try done. by rewrite Hr.
  - unfold LorieBuffer_unlock. destruct (Z.eqb_spec p 0); [eauto|].
    destruct Hlive as [?|[b Hb]]; [done|]. rewrite Hb. cbn.
    destruct (bo_live _ _ Hok p b Hb) as (_ & Hrc & _). unfold unlock_buffer.
    destruct (locked b =? 0); cbn; (eexists; split; [done|]); by apply (update_same_owned base w p b).
Qed.

(** C10: however buffers are allocated, wrapped, acquired, released, converted, locked and
    unlocked, in whatever formats and sizes, and whether the system grants or refuses memory,
    mappings, descriptors and locks, nothing is ever given back twice, and the process holds
    exactly the resources of its live buffers and the descriptors that rejected formats and
    sizes left open ([leaks]): every other failing path returns what it had acquired. The
    clients must use live buffers and fewer than 2^15 references; descriptor 0 must be in use,
    new structs must be where no live buffer is, and a hardware buffer that was allocated
    must not be NULL. *)
Theorem buffers_account page base ops w :
  buffers_ok base w -> ops_ok page ops w ->
  exists w', run_ops page ops w = Some w' /\ buffers_ok (concat (map leaks ops) ++ base) w'.
Proof.
  revert base w. induction ops as [|op ops IH]; intros base w Hok Hops; [by exists w|].
  destruct Hops as [Hop Hrest]. destruct (step_keeps page base op w Hok Hop) as (w1 & E & Hok1).
  cbn [run_ops]. rewrite E. cbn [mbind option_bind]. destruct (IH _ w1 Hok1 (Hrest w1 E)) as (w' & E' & Hok').
  exists w'. split; [done|]. eapply buffers_ok_perm; [|exact Hok']. cbn [map concat].
  rewrite !app_assoc. apply Permutation_app_tail, Permutation_app_comm.
Qed.

(** The environment and the run of the witnesses. *)
Definition demo_env : BufEnv :=
  {| env_dup := 9; env_mmap := 0x7000; env_data := 0x100; env_struct := 0x200; env_ashm := 8; env_memfd := -1;
     env_open := -1; env_setname := 0; env_setsize := 0; env_ahb_err := 0; env_ahb := 0x300;
     env_describe := (64, 32, 64, 2); env_lock := (0, 0x9000) |}.

Definition empty_world : World := {| next_id := 0; bufs := ∅; ledger := []; lnk := no_links |}.

Definition demo_ops : list buf_op :=
  [OpWrapFd demo_env 64 64 32 1 7 0; OpAllocate demo_env 64 32 FORMAT_B8G8R8A8 LORIEBUFFER_REGULAR;
   OpAcquire 0x200; OpConvert demo_env 0x200 LORIEBUFFER_FD FORMAT_B8G8R8A8; OpLock demo_env 0x200;
   OpUnlock 0 0x200; OpRelease 0x200; OpRelease 0x200].

Lemma empty_world_ok : buffers_ok [] empty_world.
Proof. split; [done|]. intros p b Hb. cbn in Hb. by rewrite lookup_empty in Hb. Qed.

Lemma demo_ops_ok : ops_ok 4096 demo_ops empty_world.
Proof.
  unfold demo_ops. cbn [ops_ok].
  repeat match goal with
  | |- True => exact I
  | |- _ /\ (forall w', buf_exec _ _ _ = Some w' -> _) =>
      split; [|let w := fresh in let H := fresh in intros w H; vm_compute in H; injection H as <-]
  end.
  - split; [by right|done].
  - split; [|done]. split_and!; [by right|done|done].
  - split; [|right; vm_compute; eauto]. intros b Hb. vm_compute in Hb. by injection Hb as <-.
  - split; [done|right; vm_compute; eauto].
  - split; [done|right; vm_compute; eauto].
  - split; [done|right; vm_compute; eauto].
  - split; [done|right; vm_compute; eauto].
  - split; [done|right; vm_compute; eauto].
Qed.

Lemma buffers_account_witness :
  exists w', run_ops 4096 demo_ops empty_world = Some w' /\ buffers_ok [RFd 9] w'.
Proof. apply (buffers_account 4096 [] demo_ops empty_world); [apply empty_world_ok|apply demo_ops_ok]. Defined.

Example demo_ops_result : ledger <$> run_ops 4096 demo_ops empty_world = Some [RFd 9].
Proof. by vm_compute. Qed.

(** ** What the failing paths forget *)

(** Wrapping a descriptor with a format or a size that is not accepted answers NULL and
    leaves the duplicate of the descriptor open, with no buffer that owns it. *)
Theorem wrapFileDescriptor_forgets_duplicate e width stride height format fd off w :
  acceptable width height format = false -> 0 <= env_dup e ->
  exists w', LorieBuffer_wrapFileDescriptor e width stride height format fd off w = Some (0, w') /\
    bufs w' = bufs w /\ ledger w' = RFd (env_dup e) :: ledger w.
Proof.
  intros Ha Hd. unfold LorieBuffer_wrapFileDescriptor, allocate, allocate_fill. rewrite Ha. cbn.
  unfold open_fd. rewrite (proj2 (Z.leb_le 0 _)) by done. eauto.
Qed.

Lemma wrapFileDescriptor_forgets_duplicate_witness :
  exists w', LorieBuffer_wrapFileDescriptor demo_env 64 64 32 1 7 0 empty_world = Some (0, w') /\
    bufs w' = bufs empty_world /\ ledger w' = RFd (env_dup demo_env) :: ledger empty_world.
Proof. apply (wrapFileDescriptor_forgets_duplicate demo_env 64 64 32 1 7 0 empty_world); [reflexivity|discriminate]. Defined.

(** ** Locking and unlocking *)

(** Locking gives the memory of the buffer once: a second lock answers [EEXIST] with the
    same address and changes nothing, unlocking brings the buffer back to what it was, and
    unlocking an unlocked buffer answers [ENOENT]. A lock that the hardware buffer refuses
    leaves the buffer marked as locked all the same. *)
Theorem lock_unlock_cycle e ahb_ret b ret out b1 :
  locked b = 0 -> lockedData b = 0 -> lock_buffer e b = (ret, out, b1) ->
  locked b1 = 1 /\
  (forall e', lock_buffer e' b1 = (EEXIST, out, b1)) /\
  (exists r, unlock_buffer ahb_ret b1 = (r, b)) /\ unlock_buffer ahb_ret b = (ENOENT, b) /\
  (dsc_type (desc b) = LORIEBUFFER_REGULAR \/ dsc_type (desc b) = LORIEBUFFER_FD -> ret = 0 /\ out = dsc_data (desc b)) /\
  (dsc_type (desc b) = LORIEBUFFER_AHARDWAREBUFFER -> (ret, out) = env_lock e).
Proof.
  intros Hl Hd. unfold lock_buffer. rewrite Hl. cbn.
  destruct (if _ || _ then _ else _) as [r data] eqn:E. intros [= <- <- <-]. cbn. split_and!; try done.
  - unfold unlock_buffer. cbn. destruct b; cbn in *; subst. eauto.
  - unfold unlock_buffer. by rewrite Hl.
  - intros H. assert ((dsc_type (desc b) =? LORIEBUFFER_REGULAR) || (dsc_type (desc b) =? LORIEBUFFER_FD) = true) as Ht.
    { destruct H as [->| ->]; done. }
    rewrite Ht in E. by injection E as <- <-.
  - intros H. rewrite H in E. done.
Qed.

Definition demo_buffer : LorieBuffer :=
  {| refcount := 3;
     desc := {| dsc_width := 64; dsc_height := 32; dsc_stride := 64; dsc_format := 5; dsc_type := LORIEBUFFER_FD;
                dsc_id := 77; dsc_buffer := 0; dsc_data := 0x5000 |};
     locked := 0; lockedData := 0; buf_fd := 12; buf_size := 8192; buf_offset := 0 |}.

Lemma lock_unlock_cycle_witness :
  locked (set_lock 1 0x5000 demo_buffer) = 1 /\
  lock_buffer demo_env (set_lock 1 0x5000 demo_buffer) = (EEXIST, 0x5000, set_lock 1 0x5000 demo_buffer).
Proof.
  destruct (lock_unlock_cycle demo_env 0 demo_buffer 0 0x5000 (set_lock 1 0x5000 demo_buffer)) as (H1 & H2 & _);
    [reflexivity|reflexivity|reflexivity|]. split; [exact H1|apply H2].
Defined.

(** ** A buffer across the socket *)

(** A descriptor or hardware buffer that was sent and received describes the same image
    under the same identifier, with the receiver's own handle and mapping; but the reference
    count and the lock state are the sender's at that moment, so a receiver that releases its
    single reference frees the buffer only if the sender had a single one too. *)
Theorem received_buffer e recv_fd recv_ahb b w :
  dsc_type (desc b) = LORIEBUFFER_FD \/ dsc_type (desc b) = LORIEBUFFER_AHARDWAREBUFFER ->
  0 <= recv_fd -> map_ok (env_mmap e) = true -> env_struct e <> 0 ->
  exists w' b', LorieBuffer_recvHandleFromUnixSocket e recv_fd recv_ahb (LorieBuffer_sendHandleToUnixSocket b).1 w
      = Some (Some (env_struct e), w') /\ bufs w' = <[env_struct e:=b']> (bufs w) /\
    (dsc_width (desc b'), dsc_height (desc b'), dsc_stride (desc b'), dsc_format (desc b'), dsc_id (desc b'), dsc_type (desc b'))
    = (dsc_width (desc b), dsc_height (desc b), dsc_stride (desc b), dsc_format (desc b), dsc_id (desc b), dsc_type (desc b)) /\
    (dsc_type (desc b) = LORIEBUFFER_FD -> buf_fd b' = recv_fd /\ dsc_data (desc b') = env_mmap e /\
       ledger w' = RMap (env_mmap e) (image_size (dsc_stride (desc b)) (dsc_height (desc b))) :: RFd recv_fd :: ledger w) /\
    (dsc_type (desc b) = LORIEBUFFER_AHARDWAREBUFFER -> dsc_buffer (desc b') = recv_ahb /\ ledger w' = RAhb recv_ahb :: ledger w) /\
    refcount b' = refcount b /\ locked b' = locked b /\
    (refcount b <> 1 -> exists w2, LorieBuffer_release (env_struct e) w' = Some w2 /\ is_Some (bufs w2 !! env_struct e)).
Proof.
  intros Ht Hfd Hmap Hst. unfold LorieBuffer_recvHandleFromUnixSocket. cbn [fst LorieBuffer_sendHandleToUnixSocket].
  assert (Hrel : forall b' w1, refcount b' <> 1 -> bufs w1 !! env_struct e = Some b' ->
    exists w2, LorieBuffer_release (env_struct e) w1 = Some w2 /\ is_Some (bufs w2 !! env_struct e)).
  { intros b' w1 Hr Hb. unfold LorieBuffer_release. rewrite (proj2 (Z.eqb_neq _ 0)), Hb by done. cbn.
    rewrite (proj2 (Z.eqb_neq (refcount b') 1)) by done. eexists. split; [done|]. cbn. rewrite lookup_insert_eq. eauto. }
  destruct Ht as [Ht|Ht]; rewrite Ht; cbn.
  - rewrite (proj2 (Z.eqb_neq recv_fd (-1))), Hmap, (proj2 (Z.eqb_neq _ 0)) by lia. cbn.
    eexists _, (with_handle b recv_fd (env_mmap e) (dsc_buffer (desc b))). split; [done|]. cbn. rewrite Ht.
    unfold open_fd. rewrite (proj2 (Z.leb_le 0 recv_fd)) by done. split_and!; try done.
    intros Hr. eapply Hrel; [|cbn; apply lookup_insert_eq]. done.
  - rewrite (proj2 (Z.eqb_neq _ 0)) by done. cbn. eexists _, (with_handle b (buf_fd b) (dsc_data (desc b)) recv_ahb).
    split; [done|]. cbn. rewrite Ht. split_and!; try done.
    intros Hr. eapply Hrel; [|cbn; apply lookup_insert_eq]. done.
Qed.

Lemma received_buffer_witness :
  exists w', LorieBuffer_recvHandleFromUnixSocket demo_env 5 0 (LorieBuffer_sendHandleToUnixSocket demo_buffer).1
      empty_world = Some (Some 0x200, w') /\
    exists w2, LorieBuffer_release 0x200 w' = Some w2 /\ is_Some (bufs w2 !! 0x200).
Proof.
  destruct (received_buffer demo_env 5 0 demo_buffer empty_world)
    as (w' & b' & E & _ & _ & _ & _ & _ & _ & H); [by left|discriminate|reflexivity|discriminate|].
  exists w'. split; [exact E|]. apply H. discriminate.
Defined.

(** ** Lists of buffers *)

Lemma find_id_ext w w' id l : bufs w = bufs w' -> find_id w id l = find_id w' id l.
Proof. intros H. induction l as [|p l IH]; [done|]. cbn. by rewrite H, IH. Qed.

Lemma find_id_spec w id l : (forall p, p ∈ l -> exists b, bufs w !! p = Some b /\ p <> 0) ->
  exists p, find_id w id l = Some p /\
    (p = 0 -> forall q b, q ∈ l -> bufs w !! q = Some b -> dsc_id (desc b) <> id) /\
    (p <> 0 -> p ∈ l /\ exists b, bufs w !! p = Some b /\ dsc_id (desc b) = id).
Proof.
  induction l as [|q l IH]; intros Hl.
  { exists 0. split_and!; try done. by intros _ q b ?%elem_of_nil. }
  destruct (Hl q) as (b & Hb & Hq); [by left|]. cbn. rewrite Hb. cbn.
  destruct (Z.eqb_spec (dsc_id (desc b)) id) as [E|E].
  - exists q. split_and!; try done. intros _. split; [by left|eauto].
  - destruct IH as (p & -> & H0 & H1); [intros; apply Hl; by right|]. exists p. split_and!; try done.
    + intros -> r br [->|Hr]%elem_of_cons Hbr; [congruence|by eapply H0].
    + intros Hp. destruct (H1 Hp). split; [by right|done].
Qed.

(** A buffer put into a list leaves the list it was in, becomes the first of the new one
    and is then found there by its identifier; other identifiers are found as before. *)
Theorem LorieBuffer_addToList_finds p A B l1 l2 l w b :
  p <> 0 -> B <> 0 -> is_list (lnk w) A (l1 ++ p :: l2) -> is_list (lnk w) B l ->
  (forall x, x ∈ A :: l1 ++ p :: l2 -> x ∉ B :: l) ->
  bufs w !! p = Some b -> (forall q, q ∈ l -> exists b, bufs w !! q = Some b /\ q <> 0) ->
  exists w', LorieBuffer_addToList p B w = Some w' /\ is_list (lnk w') A (l1 ++ l2) /\ is_list (lnk w') B (p :: l) /\
    LorieBufferList_first B w' = Some p /\
    forall id fuel, (S (length l) < fuel)%nat ->
      LorieBufferList_findById fuel B id w' =
        if dsc_id (desc b) =? id then Some p else LorieBufferList_findById fuel B id w.
Proof.
  intros Hp HB HlA HlB Hdis Hb Hl.
  destruct (@ll_del_ok links xorg_lists (lnk w) p A l1 l2 HlA) as (h1 & E1 & HA1 & Hp1 & Hf1).
  assert (HB1 : is_list h1 B l) by by apply Hf1.
  assert (HpB : p ∉ B :: l) by (apply Hdis; right; apply elem_of_app; right; by left).
  destruct (@ll_add_ok links xorg_lists h1 p B l HB1 HpB) as (h2 & E2 & HB2 & Hf2).
  unfold LorieBuffer_addToList. rewrite (proj2 (Z.eqb_neq p 0)), (proj2 (Z.eqb_neq B 0)) by done.
  cbn in E1, E2 |- *. rewrite E1. cbn. rewrite E2. cbn. eexists. split; [done|]. cbn. split_and!; [|done| |].
  - apply Hf2; [|done]. pose proof (@ll_nodup links xorg_lists _ _ _ HlA) as Hnd.
    rewrite <- Permutation_middle, Permutation_swap in Hnd. apply NoDup_cons in Hnd as [HpA _].
    intros x [->|Hx]%elem_of_cons; [done|]. intros HxA. apply (Hdis x); [|done].
    apply elem_of_cons in HxA as [->|[H|H]%elem_of_app]; [by left| |];
      right; apply elem_of_app; [by left|right; by right].
  - unfold LorieBufferList_first, xorg_list_is_empty, xorg_list_first_entry. cbn.
    destruct (is_list_first h2 B (p :: l) HB2) as [-> _]. cbn.
    rewrite (proj2 (Z.eqb_neq p B)); [done|]. intros ->. apply HpB. by left.
  - intros id fuel Hfuel. unfold LorieBufferList_findById. cbn.
    rewrite (walk_is_list _ _ _ _ HB2) by (simpl; lia). rewrite (walk_is_list _ _ _ _ HlB) by lia. cbn.
    rewrite Hb. cbn. rewrite (find_id_ext _ w) by done. by destruct (_ =? id).
Qed.

(** Two lists with heads 1 and 2, the buffer 0x200 in the first one. *)
Definition list_world : World :=
  {| next_id := 1; bufs := {[0x200 := demo_buffer]}; ledger := [];
     lnk := default no_links (xorg_list_add 0x200 1 (xorg_list_init 2 (xorg_list_init 1 (xorg_list_init 0x200 no_links)))) |}.

Lemma LorieBuffer_addToList_finds_witness :
  exists w', LorieBuffer_addToList 0x200 2 list_world = Some w' /\ is_list (lnk w') 1 [] /\ is_list (lnk w') 2 [0x200] /\
    LorieBufferList_first 2 w' = Some 0x200 /\
    forall id fuel, (1 < fuel)%nat ->
      LorieBufferList_findById fuel 2 id w' =
        if dsc_id (desc demo_buffer) =? id then Some 0x200 else LorieBufferList_findById fuel 2 id list_world.
Proof.
  apply (LorieBuffer_addToList_finds 0x200 1 2 [] [] [] list_world demo_buffer);
    [discriminate|discriminate| | | |reflexivity|by intros q ?%elem_of_nil].
  - split; [by apply (bool_decide_unpack _); vm_compute|by vm_compute].
  - split; [by apply (bool_decide_unpack _); vm_compute|by vm_compute].
  - intros x Hx H. apply elem_of_cons in H as [->|H%elem_of_nil]; [|done].
    revert Hx. by apply (bool_decide_unpack _); vm_compute.
Defined.
