(* ===== verification/Pixmap.v ===== *)
(** * The pixmaps of the screen ([lorie/InitOutput.c])

    EXA, the acceleration layer of the X server, asks the driver for the memory of
    its pixmaps. Every pixmap has a [LoriePixmapPriv] with a buffer that is locked
    while the server draws; the buffer of the root window is shown by the renderer,
    and the present extension puts other pixmaps in its place. *)

From S2P Require Import Prelude XorgList Buffer Present.

(** ** Data *)

Definition EXA_PREPARE_DEST : Z := 0.
Definition CREATE_PIXMAP_USAGE_LORIEBUFFER_BACKED : Z := 5.
Definition AHARDWAREBUFFER_SOCKET_FD : Z := 1255.
Definition AHARDWAREBUFFER_FLIPPED_SOCKET_FD : Z := 1256.
Definition RAW_MMAPPABLE_FD : Z := 1274.
Definition FORMAT_R8G8B8A8 : Z := 1.

(** Pointers are addresses, 0 for NULL. *)
Record LoriePixmapPriv := {
  buffer : Z; flipped : bool; wasLocked : bool; imported : bool; locked : Z; mem : Z;
}.

Definition new_priv : LoriePixmapPriv :=
  {| buffer := 0; flipped := false; wasLocked := false; imported := false; locked := 0; mem := 0 |}.
Definition set_buffer b v := {| buffer := b; flipped := flipped v; wasLocked := wasLocked v; imported := imported v;
  locked := locked v; mem := mem v |}.
Definition set_flipped f v := {| buffer := buffer v; flipped := f; wasLocked := wasLocked v; imported := imported v;
  locked := locked v; mem := mem v |}.
Definition set_wasLocked f v := {| buffer := buffer v; flipped := flipped v; wasLocked := f; imported := imported v;
  locked := locked v; mem := mem v |}.
Definition set_imported f v := {| buffer := buffer v; flipped := flipped v; wasLocked := wasLocked v; imported := f;
  locked := locked v; mem := mem v |}.
Definition set_locked p v := {| buffer := buffer v; flipped := flipped v; wasLocked := wasLocked v; imported := imported v;
  locked := p; mem := mem v |}.
Definition set_mem p v := {| buffer := buffer v; flipped := flipped v; wasLocked := wasLocked v; imported := imported v;
  locked := locked v; mem := p |}.

(** The messages about buffers to the activity. *)
Inductive buffer_msg := MAdd (handle : LorieBuffer * option Z) | MRemove (id : Z).

(** [privs] and [ptrs] are the driver's private data and [devPrivate.ptr] of the pixmaps;
    [root_pixmap] is the pixmap of the root window, 0 when there is no root. [rootLocks]
    counts how often the server holds [state->lock]. [registered] is the sequence of the
    list [registeredBuffers]. *)
Record Screen := {
  world : World; privs : gmap Z LoriePixmapPriv; ptrs : gmap Z Z;
  screen_pixmap : Z; root_pixmap : Z; rootLocks : nat;
  conn_fd : Z; registered : list Z; sent : list buffer_msg;
}.

Definition set_world w s := {| world := w; privs := privs s; ptrs := ptrs s; screen_pixmap := screen_pixmap s;
  root_pixmap := root_pixmap s; rootLocks := rootLocks s; conn_fd := conn_fd s; registered := registered s; sent := sent s |}.
Definition set_privs m s := {| world := world s; privs := m; ptrs := ptrs s; screen_pixmap := screen_pixmap s;
  root_pixmap := root_pixmap s; rootLocks := rootLocks s; conn_fd := conn_fd s; registered := registered s; sent := sent s |}.
Definition set_ptrs m s := {| world := world s; privs := privs s; ptrs := m; screen_pixmap := screen_pixmap s;
  root_pixmap := root_pixmap s; rootLocks := rootLocks s; conn_fd := conn_fd s; registered := registered s; sent := sent s |}.
Definition set_root_pixmap p s := {| world := world s; privs := privs s; ptrs := ptrs s; screen_pixmap := screen_pixmap s;
  root_pixmap := p; rootLocks := rootLocks s; conn_fd := conn_fd s; registered := registered s; sent := sent s |}.
Definition set_rootLocks n s := {| world := world s; privs := privs s; ptrs := ptrs s; screen_pixmap := screen_pixmap s;
  root_pixmap := root_pixmap s; rootLocks := n; conn_fd := conn_fd s; registered := registered s; sent := sent s |}.
Definition set_registry l m s := {| world := world s; privs := privs s; ptrs := ptrs s; screen_pixmap := screen_pixmap s;
  root_pixmap := root_pixmap s; rootLocks := rootLocks s; conn_fd := conn_fd s; registered := l; sent := m |}.

Definition upd_priv (x : Z) (v : LoriePixmapPriv) (s : Screen) : Screen := set_privs (<[x := v]> (privs s)) s.

(** What the renderer is told: the fields of [lorie_shared_server_state] outside of the
    cursor's image, and how often its condition was signalled. *)
Record Shared := {
  waitForNextFrame : bool; drawRequested : bool; surfaceAvailable : bool; rootWindowTextureID : Z;
  cursor_moved : bool; cursor_updated : bool; signals : nat;
}.

(** ** Registration of buffers *)

Definition lorieRegisterBuffer (p : Z) (s : Screen) : option Screen :=
  d ← LorieBuffer_description p (world s);
  if conn_fd s =? -1 then Some s
  else
    found ← find_id (world s) (dsc_id d) (registered s);
    if negb (found =? 0) || (p =? 0) then Some s
    else
      b ← bufs (world s) !! p;
      Some (set_registry (p :: filter (fun q => q <> p) (registered s))
                         (sent s ++ [MAdd (LorieBuffer_sendHandleToUnixSocket b)]) s).

Definition lorieUnregisterBuffer (p : Z) (s : Screen) : option Screen :=
  if p =? 0 then Some s
  else
    d ← LorieBuffer_description p (world s);
    found ← find_id (world s) (dsc_id d) (registered s);
    if (found =? 0) || (conn_fd s =? -1) then Some s
    else Some (set_registry (filter (fun q => q <> p) (registered s)) (sent s ++ [MRemove (dsc_id d)]) s).

(** [LorieBuffer_release]; a buffer that is freed leaves the list it is in. *)
Definition release_buffer (p : Z) (s : Screen) : option Screen :=
  w ← LorieBuffer_release p (world s);
  let left := match bufs w !! p with Some _ => registered s | None => filter (fun q => q <> p) (registered s) end in
  Some (set_registry left (sent s) (set_world w s)).

(** Locking and unlocking on behalf of pixmap [x]. *)
Definition lock_priv (e : BufEnv) (x : Z) (s : Screen) : option (Z * Screen) :=
  v ← privs s !! x;
  r ← LorieBuffer_lock e (buffer v) (world s);
  let '(ret, out, w) := r in
  let v := if buffer v =? 0 then v else set_locked out v in
  Some (ret, upd_priv x v (set_world w s)).

Definition unlock_priv (ahb_ret x : Z) (s : Screen) : option Screen :=
  v ← privs s !! x;
  r ← LorieBuffer_unlock ahb_ret (buffer v) (world s);
  Some (set_world r.2 s).

Definition put_locked (x p : Z) (s : Screen) : option Screen :=
  v ← privs s !! x; Some (upd_priv x (set_locked p v) s).

Definition put_wasLocked (x : Z) (f : bool) (s : Screen) : option Screen :=
  v ← privs s !! x; Some (upd_priv x (set_wasLocked f v) s).

Section screen.
(** The size of a page, [pvfb->root.legacyDrawing], [pvfb->root.flip] and whether
    TERMUX_X11_FORCE_FLIP is 1. *)
Context (page : Z) (legacyDrawing flip forceFlip : bool) (DRM_FORMAT_MOD_INVALID : Z).

Definition screen_format : Z := if flip then FORMAT_R8G8B8X8 else FORMAT_B8G8R8A8.
Definition shared_type : Z := if legacyDrawing then LORIEBUFFER_FD else LORIEBUFFER_AHARDWAREBUFFER.

(** ** The hooks of EXA *)

(** Pixmap [x] gets its private data; [calloc_ok] says whether there is memory for it, [e]
    and [el] are the answers to the allocation and to the lock. The result is whether there
    is private data, and [*new_fb_pitch]. *)
Definition lorieCreatePixmap (calloc_ok : bool) (e el : BufEnv) (x width height usage_hint : Z) (s : Screen)
  : option (bool * Z * Screen) :=
  if negb calloc_ok then Some (false, 0, s)
  else if (width =? 0) || (height =? 0) then Some (true, 0, upd_priv x new_priv s)
  else
    let type := if negb (usage_hint =? CREATE_PIXMAP_USAGE_LORIEBUFFER_BACKED) then LORIEBUFFER_REGULAR else shared_type in
    r ← LorieBuffer_allocate page e width height screen_format type (world s);
    let '(p, w) := r in
    d ← LorieBuffer_description p w;
    r ← lock_priv el x (upd_priv x (set_buffer p new_priv) (set_world w s));
    let s1 := snd r in
    if p =? 0 then Some (false, i32 (dsc_stride d * 4), set_privs (delete x (privs s1)) s1)
    else Some (true, i32 (dsc_stride d * 4), s1).

Definition lorieExaDestroyPixmap (ahb_ret x : Z) (s : Screen) : option Screen :=
  v ← privs s !! x;
  s1 ← (if negb (buffer v =? 0) then
          s1 ← (if negb (locked v =? 0) then unlock_priv ahb_ret x s else Some s);
          s2 ← lorieUnregisterBuffer (buffer v) s1;
          release_buffer (buffer v) s2
        else Some s);
  Some (set_privs (delete x (privs s)) s1).

Definition lorieModifyPixmapHeader (x data : Z) (s : Screen) : Screen :=
  match privs s !! x with
  | Some v => if negb (data =? 0) then upd_priv x (set_mem data v) s else s
  | None => s
  end.

(** [lorie_mutex_lock] and [lorie_mutex_unlock] when the screen is drawn to. *)
Definition hold_root (index x : Z) (s : Screen) : Screen :=
  if (index =? EXA_PREPARE_DEST) && (screen_pixmap s =? x) then set_rootLocks (S (rootLocks s)) s else s.
Definition leave_root (index x : Z) (s : Screen) : Screen :=
  if (index =? EXA_PREPARE_DEST) && (screen_pixmap s =? x) then set_rootLocks (pred (rootLocks s)) s else s.

Definition loriePrepareAccess (e : BufEnv) (x index : Z) (s : Screen) : option (bool * Screen) :=
  v ← privs s !! x;
  let s := hold_root index x s in
  let ready s := v ← privs s !! x;
    Some (true, set_ptrs (<[x := if negb (locked v =? 0) then locked v else mem v]> (ptrs s)) s) in
  if (locked v =? 0) && (mem v =? 0) then
    r ← lock_priv e x s;
    let '(err, s) := r in
    if negb (err =? 0) then Some (false, s)
    else s ← put_wasLocked x false s; ready s
  else s ← put_wasLocked x true s; ready s.

Definition lorieFinishAccess (ahb_ret x index : Z) (s : Screen) : option Screen :=
  v ← privs s !! x;
  let s := leave_root index x s in
  if negb (wasLocked v) then
    s ← unlock_priv ahb_ret x s;
    s ← put_locked x 0 s;
    put_wasLocked x false s
  else Some s.

(** [lorieSetWindowPixmap] for the root window; for other windows it only calls the
    handler that it replaces. Both pixmaps may be NULL. *)
Definition lorieSetWindowPixmap (ahb_ret : Z) (e : BufEnv) (newPixmap : Z) (s : Screen) : option Screen :=
  let oldPixmap := root_pixmap s in
  s1 ← (if oldPixmap =? 0 then Some s
        else
          old ← privs s !! oldPixmap;
          if negb (buffer old =? 0) && negb (locked old =? 0) then
            s ← unlock_priv ahb_ret oldPixmap s;
            s ← put_locked oldPixmap 0 s;
            put_wasLocked oldPixmap false s
          else Some s);
  s2 ← (if newPixmap =? 0 then Some s1
        else
          new ← privs s1 !! newPixmap;
          if negb (buffer new =? 0) && (locked new =? 0) then
            r ← lock_priv e newPixmap s1;
            put_wasLocked newPixmap false (snd r)
          else Some s1);
  Some (set_root_pixmap newPixmap s2).

(** ** Flips *)

(** [root_width] is [pvfb->root.width]; [width] and [height] are the pixmap's. *)
Definition loriePresentFlip (e el : BufEnv) (root_width x width height : Z) (s : Screen) : option (bool * Screen) :=
  match privs s !! x with
  | None => Some (false, s)
  | Some v =>
      if (buffer v =? 0) || negb (mem v =? 0) || negb (root_width =? width) || negb (root_width =? height)
      then Some (false, s)
      else
        d ← LorieBuffer_description (buffer v) (world s);
        if (dsc_type d =? LORIEBUFFER_FD) && imported v && negb forceFlip then Some (false, s)
        else
          s ← (if dsc_type d =? LORIEBUFFER_REGULAR then
                 w ← LorieBuffer_convert page e (buffer v) shared_type screen_format (world s);
                 let s := set_world w s in
                 d ← LorieBuffer_description (buffer v) (world s);
                 if negb (dsc_type d =? LORIEBUFFER_REGULAR) then r ← lock_priv el x s; Some (snd r)
                 else Some s
               else Some s);
          d ← LorieBuffer_description (buffer v) (world s);
          if negb (dsc_type d =? LORIEBUFFER_FD) && negb (dsc_type d =? LORIEBUFFER_AHARDWAREBUFFER)
          then Some (false, s)
          else s ← lorieRegisterBuffer (buffer v) s; Some (true, s)
  end.

(** ** Pixmaps from descriptors *)

(** What the kernel and Android answer about the socket of a hardware buffer. *)
Record SocketEnv := {
  se_fstat : Z; se_is_socket : bool; se_write : Z; se_recv : Z; se_buffer : Z;
  se_describe : Z * Z * Z * Z;   (* width, height, stride, format *)
}.

(** The label [fail]. *)
Definition fail_pixmap (ahb_ret x : Z) (s : Screen) : option (bool * Screen) :=
  s ← lorieExaDestroyPixmap ahb_ret x s; Some (false, s).

(** [true] when pixmap [x] is returned, [false] for NULL. The headers of pixmaps are not
    part of the state: [ModifyPixmapHeader] without data changes nothing else. *)
Definition loriePixmapFromFds (calloc_ok : bool) (e : BufEnv) (q : SocketEnv) (ahb_ret x : Z)
    (fds : list Z) (width height : Z) (strides offsets : list Z) (modifier : Z) (s : Screen) : option (bool * Screen) :=
  if (1 <? Z.of_nat (length fds))
     || (negb (modifier =? RAW_MMAPPABLE_FD) && negb (modifier =? AHARDWAREBUFFER_SOCKET_FD)
         && negb (modifier =? AHARDWAREBUFFER_FLIPPED_SOCKET_FD) && negb (modifier =? DRM_FORMAT_MOD_INVALID))
  then Some (false, s)
  else
    r ← lorieCreatePixmap calloc_ok e e x 0 0 0 s;
    let '(ok, _, s) := r in
    if negb ok then Some (false, s)
    else
      v ← privs s !! x;
      let v := set_imported true v in
      fd ← rdz fds 0; stride ← rdz strides 0; offset ← rdz offsets 0;
      if (modifier =? DRM_FORMAT_MOD_INVALID) || (modifier =? RAW_MMAPPABLE_FD) then
        r ← LorieBuffer_wrapFileDescriptor e width (stride / 4) height FORMAT_B8G8R8A8 fd offset (world s);
        let '(p, w) := r in
        let s := upd_priv x (set_buffer p v) (set_world w s) in
        if p =? 0 then fail_pixmap ahb_ret x s else Some (true, s)
      else
        let v := set_flipped (modifier =? AHARDWAREBUFFER_FLIPPED_SOCKET_FD) v in
        let s := upd_priv x v s in
        if negb (se_fstat q =? 0) || negb (se_is_socket q) || negb (se_write q =? 1) then fail_pixmap ahb_ret x s
        else if negb (se_recv q =? 0) then fail_pixmap ahb_ret x s
        else if se_buffer q =? 0 then fail_pixmap ahb_ret x s
        else
          let s := set_world (set_ledger (RAhb (se_buffer q) :: ledger (world s)) (world s)) s in
          let '(_, _, _, format) := se_describe q in
          if negb (format =? FORMAT_R8G8B8X8) && negb (format =? FORMAT_R8G8B8A8) && negb (format =? FORMAT_B8G8R8A8)
          then fail_pixmap ahb_ret x s
          else
            r ← LorieBuffer_wrapAHardwareBuffer e (se_buffer q) (world s);
            let '(p, w) := r in
            let s := upd_priv x (set_buffer p v) (set_world w s) in
            if p =? 0 then fail_pixmap ahb_ret x s else Some (true, s).

(** ** The refresh of the screen *)

(** The head of the vblank queue, and what the present extension does when it is told about
    an event: its answers, and what its flips do to the pixmaps. *)
Context (vblank_queue : Z) (reaction : Z -> list reply) (flips : Screen -> Screen).

Definition no_frame (sh : Shared) : Shared :=
  {| waitForNextFrame := false; drawRequested := drawRequested sh; surfaceAvailable := surfaceAvailable sh;
     rootWindowTextureID := rootWindowTextureID sh; cursor_moved := cursor_moved sh;
     cursor_updated := cursor_updated sh; signals := signals sh |}.

Definition request_draw (sh : Shared) : Shared :=
  {| waitForNextFrame := waitForNextFrame sh; drawRequested := true; surfaceAvailable := surfaceAvailable sh;
     rootWindowTextureID := rootWindowTextureID sh; cursor_moved := cursor_moved sh;
     cursor_updated := cursor_updated sh; signals := signals sh |}.

Definition signal_root (id : Z) (sh : Shared) : Shared :=
  {| waitForNextFrame := waitForNextFrame sh; drawRequested := drawRequested sh; surfaceAvailable := surfaceAvailable sh;
     rootWindowTextureID := id; cursor_moved := cursor_moved sh; cursor_updated := cursor_updated sh;
     signals := S (signals sh) |}.

(** The lock of the root buffer is renewed; [None] inside is [FatalError]. *)
Definition relock (ahb_ret : Z) (e : BufEnv) (root : Z) (s : Screen) : option (option Screen) :=
  v ← privs s !! root;
  if negb (locked v =? 0) then
    s ← unlock_priv ahb_ret root s;
    r ← lock_priv e root s;
    let '(status, s) := r in
    Some (if negb (status =? 0) then None else Some s)
  else Some (Some s).

(** [alive] is [lorieConnectionAlive()] and [damaged] whether the damage region is not empty
    once the vblanks are served. The result is the state and the damage, [None] inside for [FatalError]. *)
Definition lorieRedraw (fuel : nat) (alive damaged : bool) (ahb_ret : Z) (e : BufEnv) (pr : Present) (sh : Shared)
    (s : Screen) : option (option (Present * Shared * bool * Screen)) :=
  let root := root_pixmap s in
  pr ← redraw_vblanks vblank_queue reaction fuel pr;
  let s := flips s in
  let sh := no_frame sh in
  if negb alive || negb (surfaceAvailable sh) || (root =? 0) then Some (Some (pr, sh, damaged, s))
  else
    v ← privs s !! root;
    let nonEmpty := damaged && negb (buffer v =? 0) in
    r ← (if nonEmpty then relock ahb_ret e root s else Some (Some s));
    match r with
    | None => Some None
    | Some s =>
        let damaged := if nonEmpty then false else damaged in
        let sh := if nonEmpty then request_draw sh else sh in
        if drawRequested sh || cursor_moved sh || cursor_updated sh then
          d ← LorieBuffer_description (buffer v) (world s);
          Some (Some (pr, signal_root (dsc_id d) sh, damaged, s))
        else Some (Some (pr, sh, damaged, s))
    end.

End screen.

(** ** Pixmaps and their locks *)

(** A buffer that can be locked and gives memory. *)
Definition image_ok (b : LorieBuffer) : Prop :=
  dsc_type (desc b) = LORIEBUFFER_AHARDWAREBUFFER \/
  (dsc_type (desc b) = LORIEBUFFER_REGULAR \/ dsc_type (desc b) = LORIEBUFFER_FD) /\ dsc_data (desc b) <> 0.

(** The private data knows whether the buffer is locked, and where its memory is. *)
Definition tracks (v : LoriePixmapPriv) (b : LorieBuffer) : Prop :=
  if Buffer.locked b =? 0 then locked v = 0 /\ lockedData b = 0 else locked v = lockedData b /\ locked v <> 0.

(** Every pixmap has a live buffer of its own, or none, and tracks its lock. *)
Record pixmaps_ok (base : list resource) (s : Screen) : Prop := {
  po_world : buffers_ok base (world s);
  po_tracks : forall x v, privs s !! x = Some v -> buffer v <> 0 ->
    exists b, bufs (world s) !! buffer v = Some b /\ image_ok b /\ tracks v b;
  po_own : forall x y v v', privs s !! x = Some v -> privs s !! y = Some v' -> buffer v <> 0 ->
    buffer v = buffer v' -> x = y;
  po_null : forall x v, privs s !! x = Some v -> buffer v = 0 -> locked v = 0;
  po_registered : forall p, p ∈ registered s -> p <> 0 /\ is_Some (bufs (world s) !! p);
  po_root : root_pixmap s = 0 \/ is_Some (privs s !! root_pixmap s);
}.

(** The hardware gives the memory of a buffer. *)
Definition grants (e : BufEnv) : Prop := (env_lock e).1 = 0 /\ (env_lock e).2 <> 0.

(** The memory that drawing on the pixmap uses. *)
Definition image (e : BufEnv) (b : LorieBuffer) : Z :=
  if dsc_type (desc b) =? LORIEBUFFER_AHARDWAREBUFFER then (env_lock e).2 else dsc_data (desc b).

Lemma lock_buffer_grants e b : image_ok b -> grants e -> Buffer.locked b = 0 ->
  lock_buffer e b = (0, image e b, set_lock 1 (image e b) b) /\ image e b <> 0.
Proof.
  intros Hi [Hg1 Hg2] Hl. unfold lock_buffer, image. rewrite Hl. cbn.
  destruct Hi as [-> | [[-> | ->] Hd]]; cbn; [|done|done].
  destruct (env_lock e) as [r a]; cbn in *. by subst.
Qed.

(** Pixmap [x] and its buffer change, and nothing else. *)
Lemma pixmap_update base s x v v' b b' w' : pixmaps_ok base s ->
  privs s !! x = Some v -> buffer v <> 0 -> bufs (world s) !! buffer v = Some b ->
  buffers_ok base w' -> bufs w' = <[buffer v := b']> (bufs (world s)) ->
  buffer v' = buffer v -> image_ok b' -> tracks v' b' ->
  pixmaps_ok base (upd_priv x v' (set_world w' s)).
Proof.
  intros [Hw Ht Ho Hn Hr Hroot] Hv Hb0 Hb Hw' Ew Ev Hi Htr.
  assert (Hother : forall y u, <[x:=v']> (privs s) !! y = Some u -> y = x /\ u = v' \/ y <> x /\ privs s !! y = Some u).
  { intros y u Hy. apply lookup_insert_Some in Hy as [[<- <-]|[? ?]]; [by left|by right]. }
  split; cbn.
  - done.
  - intros y u Hy Hu. destruct (Hother y u Hy) as [[-> ->]|[Hne Hyu]].
    + exists b'. rewrite Ew, Ev, lookup_insert_eq. done.
    + destruct (Ht y u Hyu Hu) as (bu & Hbu & Hbu'). exists bu. rewrite Ew, lookup_insert_ne; [done|].
      intros E. apply Hne. symmetry. by apply (Ho x y v u).
  - intros y z u u' Hy Hz Hu Huu. destruct (Hother y u Hy) as [[-> ->]|[Hne Hyu]], (Hother z u' Hz) as [[-> ->]|[Hne' Hzu]].
    + done.
    + rewrite Ev in *. by apply (Ho x z v u').
    + rewrite Ev in *. apply (Ho y x u v); done.
    + by apply (Ho y z u u').
  - intros y u Hy Hu. destruct (Hother y u Hy) as [[-> ->]|[Hne Hyu]]; [by rewrite Ev in Hu|by apply (Hn y)].
  - intros q Hq. destruct (Hr q Hq) as [? Hs]. split; [done|]. rewrite Ew. apply lookup_insert_is_Some'. by right.
  - rewrite lookup_insert_is_Some'. tauto.
Qed.

(** Changes that no lock sees. *)
Lemma pixmap_touch base s x v v' : pixmaps_ok base s -> privs s !! x = Some v ->
  buffer v' = buffer v -> locked v' = locked v -> pixmaps_ok base (upd_priv x v' s).
Proof.
  intros [Hw Ht Ho Hn Hr Hroot] Hv Eb El. split; cbn.
  - done.
  - intros y u Hy Hu. apply lookup_insert_Some in Hy as [[<- <-]|[? Hy]]; [|by apply (Ht y)].
    rewrite Eb in *. destruct (Ht x v Hv Hu) as (b & Hb & Hi & Htr). exists b. split_and!; [done..|].
    unfold tracks in *. by rewrite El.
  - intros y z u u' Hy Hz Hu Huu.
    apply lookup_insert_Some in Hy as [[<- <-]|[? Hy]]; apply lookup_insert_Some in Hz as [[<- <-]|[? Hz]];
      rewrite ?Eb in *; [done|by apply (Ho x z v u')|by apply (Ho y x u v)|by apply (Ho y z u u')].
  - intros y u Hy Hu. apply lookup_insert_Some in Hy as [[<- <-]|[? Hy]]; [|by apply (Hn y)].
    rewrite El. rewrite Eb in Hu. by apply (Hn x).
  - done.
  - rewrite lookup_insert_is_Some'. tauto.
Qed.

(** The states after a lock and after an unlock of pixmap [x]. *)
Definition locked_state (e : BufEnv) (x : Z) (v : LoriePixmapPriv) (b : LorieBuffer) (s : Screen) : Screen :=
  upd_priv x (set_locked (image e b) v)
    (set_world (set_bufs (<[buffer v := set_lock 1 (image e b) b]> (bufs (world s))) (world s)) s).

Definition unlocked_state (x : Z) (v : LoriePixmapPriv) (b : LorieBuffer) (s : Screen) : Screen :=
  upd_priv x (set_locked 0 v)
    (set_world (set_bufs (<[buffer v := set_lock 0 0 b]> (bufs (world s))) (world s)) s).

Lemma buffer_of base s x v : pixmaps_ok base s -> privs s !! x = Some v -> buffer v <> 0 ->
  exists b, bufs (world s) !! buffer v = Some b /\ image_ok b /\ tracks v b /\ 1 <= refcount b < 2 ^ 15.
Proof.
  intros H Hv Hb0. destruct (po_tracks _ _ H x v Hv Hb0) as (b & Hb & Hi & Ht).
  exists b. by destruct (bo_live _ _ (po_world _ _ H) _ b Hb) as (_ & ? & _).
Qed.

Lemma lock_priv_ok base e x s v : pixmaps_ok base s -> privs s !! x = Some v -> buffer v <> 0 -> locked v = 0 ->
  grants e -> exists b, bufs (world s) !! buffer v = Some b /\ Buffer.locked b = 0 /\ lockedData b = 0 /\
    image e b <> 0 /\ lock_priv e x s = Some (0, locked_state e x v b s) /\ pixmaps_ok base (locked_state e x v b s).
Proof.
  intros H Hv Hb0 Hl Hg. destruct (buffer_of base s x v H Hv Hb0) as (b & Hb & Hi & Ht & Hrc).
  assert (Hlb : Buffer.locked b = 0 /\ lockedData b = 0).
  { unfold tracks in Ht. destruct (Z.eqb_spec (Buffer.locked b) 0); tauto. }
  destruct Hlb as [Hlb Hld]. destruct (lock_buffer_grants e b Hi Hg Hlb) as [El Hi0].
  exists b. split_and!; [done..| |].
  - unfold lock_priv, LorieBuffer_lock. rewrite Hv. cbn [mbind option_bind].
    rewrite (proj2 (Z.eqb_neq (buffer v) 0)), Hb by done. cbn [mbind option_bind]. by rewrite El.
  - apply (pixmap_update base s x v (set_locked (image e b) v) b (set_lock 1 (image e b) b)); try done.
    by apply (update_same_owned base (world s) (buffer v) b); [apply H|..].
Qed.

Lemma unlock_priv_ok base r x s v : pixmaps_ok base s -> privs s !! x = Some v -> buffer v <> 0 ->
  exists b, bufs (world s) !! buffer v = Some b /\ image_ok b /\ tracks v b /\
    unlock_priv r x s = Some (set_world (set_bufs (<[buffer v := set_lock 0 0 b]> (bufs (world s))) (world s)) s) /\
    pixmaps_ok base (unlocked_state x v b s).
Proof.
  intros H Hv Hb0. destruct (buffer_of base s x v H Hv Hb0) as (b & Hb & Hi & Ht & Hrc).
  exists b. split_and!; [done..| |].
  - unfold unlock_priv, LorieBuffer_unlock, unlock_buffer. rewrite Hv. cbn [mbind option_bind].
    rewrite (proj2 (Z.eqb_neq (buffer v) 0)), Hb by done. cbn [mbind option_bind].
    unfold tracks in Ht. destruct (Z.eqb_spec (Buffer.locked b) 0) as [E|E]; cbn; [|done].
    destruct Ht as [_ Hd]. assert (set_lock 0 0 b = b) as ->; [destruct b; cbn in *; by subst|done].
  - apply (pixmap_update base s x v (set_locked 0 v) b (set_lock 0 0 b)); try done.
    by apply (update_same_owned base (world s) (buffer v) b); [apply H|..].
Qed.

Lemma upd_priv_twice x v v' s : upd_priv x v' (upd_priv x v s) = upd_priv x v' s.
Proof. unfold upd_priv. cbn. by rewrite insert_insert_eq. Qed.

Lemma set_world_same s : set_world (world s) s = s.
Proof. by destruct s. Qed.

Lemma upd_priv_lookup x v s : privs (upd_priv x v s) !! x = Some v.
Proof. apply lookup_insert_eq. Qed.

Lemma put_wasLocked_eq x f s v : privs s !! x = Some v -> put_wasLocked x f s = Some (upd_priv x (set_wasLocked f v) s).
Proof. intros Hv. unfold put_wasLocked. by rewrite Hv. Qed.

Lemma put_two x v s : privs s !! x = Some v ->
  (s ← put_locked x 0 s; put_wasLocked x false s) = Some (upd_priv x (set_wasLocked false (set_locked 0 v)) s).
Proof.
  intros Hv. unfold put_locked, put_wasLocked. rewrite Hv. cbn [mbind option_bind].
  cbn [privs upd_priv set_privs]. rewrite lookup_insert_eq. cbn [mbind option_bind]. by rewrite upd_priv_twice.
Qed.

(** The three assignments of [lorieFinishAccess] and [lorieSetWindowPixmap]. *)
Lemma unlock_three_ok base r x s v : pixmaps_ok base s -> privs s !! x = Some v ->
  exists s', (s1 ← unlock_priv r x s; s2 ← put_locked x 0 s1; put_wasLocked x false s2) = Some s' /\
    pixmaps_ok base s' /\ root_pixmap s' = root_pixmap s /\ (forall y, is_Some (privs s !! y) -> is_Some (privs s' !! y)) /\
    privs s' !! x = Some (set_wasLocked false (set_locked 0 v)) /\
    (buffer v = 0 -> world s' = world s) /\ (forall b, buffer v <> 0 -> bufs (world s) !! buffer v = Some b ->
      bufs (world s') = <[buffer v := set_lock 0 0 b]> (bufs (world s)) /\ ledger (world s') = ledger (world s)) /\
    ptrs s' = ptrs s /\ rootLocks s' = rootLocks s.
Proof.
  intros H Hv. destruct (Z.eqb_spec (buffer v) 0) as [E|E].
  - pose proof (po_null _ _ H x v Hv E) as El.
    assert (unlock_priv r x s = Some s) as ->.
    { unfold unlock_priv. rewrite Hv. cbn [mbind option_bind]. rewrite E. cbn. by rewrite set_world_same. }
    cbn [mbind option_bind]. rewrite (put_two x v s Hv). eexists. split; [done|].
    split_and!; try done; [by apply (pixmap_touch base s x v)| |by cbn; rewrite lookup_insert_eq].
    intros y Hy. cbn. apply lookup_insert_is_Some'. by right.
  - destruct (unlock_priv_ok base r x s v H Hv E) as (b & Hb & _ & _ & -> & Hok). cbn [mbind option_bind].
    rewrite (put_two x v) by done. eexists. split; [done|]. split_and!; try done.
    + rewrite <- (upd_priv_twice x (set_locked 0 v)).
      apply (pixmap_touch base _ x (set_locked 0 v)); [exact Hok|by cbn; rewrite lookup_insert_eq|done|done].
    + intros y Hy. cbn. apply lookup_insert_is_Some'. by right.
    + cbn. by rewrite lookup_insert_eq.
    + intros b' _ Hb'. cbn. by simplify_eq.
Qed.

(** ** New buffers *)

(** The result of an allocation: NULL, or a new unlocked buffer. *)
Definition allocated (e : BufEnv) (w : World) (r : Z * World) : Prop :=
  r.1 = 0 /\ bufs r.2 = bufs w \/
  r.1 = env_struct e /\ r.1 <> 0 /\ exists b, bufs r.2 = <[r.1 := b]> (bufs w) /\ image_ok b /\
    Buffer.locked b = 0 /\ lockedData b = 0.

Lemma allocate_new e width stride height format type buf fd size off takeFd w r :
  allocate e width stride height format type buf fd size off takeFd w = Some r -> allocated e w r.
Proof.
  unfold allocate. destruct (allocate_fill _ _ _ _ _ _ _ _ _ _ _ _ _) as [[[b l]|l]|] eqn:E; [| |done]; cbn.
  2: { intros [= <-]. by left. }
  assert (Hb : image_ok b /\ Buffer.locked b = 0 /\ lockedData b = 0).
  { revert E. unfold allocate_fill. destruct (_ && _); [done|].
    destruct (Z.eqb_spec type LORIEBUFFER_REGULAR) as [->|].
    { destruct (Z.eqb_spec (env_data e) 0); [done|]. intros [= <- _]. split; [right; split; [by left|done]|done]. }
    destruct (Z.eqb_spec type LORIEBUFFER_FD) as [->|].
    { destruct (_ <? 0); [done|]. unfold map_ok. destruct (Z.eqb_spec (env_mmap e) 0); cbn.
      - by destruct (give_back _ _).
      - destruct (env_mmap e =? MAP_FAILED); cbn; [by destruct (give_back _ _)|].
        intros [= <- _]. split; [right; split; [by right|done]|done]. }
    destruct (Z.eqb_spec type LORIEBUFFER_AHARDWAREBUFFER) as [->|]; [|done].
    destruct (buf =? 0); [done|]. destruct (env_describe e) as [[[? ?] ?] ?]. intros [= <- _]. split; [by left|done]. }
  destruct (Z.eqb_spec (env_struct e) 0); cbn.
  - destruct (drop b l); cbn; [|done]. intros [= <-]. by left.
  - intros [= <-]. right. cbn. split_and!; [done|done|]. exists b. by destruct Hb as (? & ? & ?).
Qed.

Lemma LorieBuffer_allocate_new page e width height format type w r :
  LorieBuffer_allocate page e width height format type w = Some r -> allocated e w r.
Proof.
  unfold LorieBuffer_allocate. destruct (_ =? LORIEBUFFER_FD).
  - destruct (LorieBuffer_createRegion e (ledger w)) as [[fd l]|]; cbn; [|done].
    destruct (fd <? 0); [intros [= <-]; by left|]. intros H. by apply allocate_new in H.
  - destruct (_ =? LORIEBUFFER_AHARDWAREBUFFER); intros H; by apply allocate_new in H.
Qed.

(** What pixmaps depend on. *)
Lemma pixmaps_frame base s s' : pixmaps_ok base s -> world s' = world s -> privs s' = privs s ->
  registered s' = registered s -> (root_pixmap s' = 0 \/ is_Some (privs s' !! root_pixmap s')) -> pixmaps_ok base s'.
Proof. intros [Hw Ht Ho Hn Hr Hroot] Ew Ep Er Hroot'. split; rewrite ?Ew, ?Er, ?Ep in *; done. Qed.

(** A new pixmap with a new buffer, or with none. *)
Lemma pixmap_new base s x e r v : pixmaps_ok base s -> privs s !! x = None -> fresh_struct e (world s) ->
  allocated e (world s) r -> buffers_ok base r.2 -> buffer v = r.1 -> locked v = 0 ->
  pixmaps_ok base (upd_priv x v (set_world r.2 s)).
Proof.
  intros [Hw Ht Ho Hn Hr Hroot] Hx Hf Ha Hok Eb El. destruct r as [p w]. unfold allocated in Ha. cbn in *.
  assert (Hother : forall y u, <[x:=v]> (privs s) !! y = Some u -> y = x /\ u = v \/ y <> x /\ privs s !! y = Some u).
  { intros y u Hy. apply lookup_insert_Some in Hy as [[<- <-]|[? ?]]; [by left|by right]. }
  assert (Hkeep : forall q b, bufs (world s) !! q = Some b -> bufs w !! q = Some b /\ (p <> 0 -> q <> p)).
  { intros q b Hq. destruct Ha as [[-> ->]|(-> & ? & b' & -> & _)]; cbn in *; [done|].
    destruct Hf as [|Hf]; [done|]. assert (q <> env_struct e) by congruence. by rewrite lookup_insert_ne. }
  split; cbn.
  - done.
  - intros y u Hy Hu. destruct (Hother y u Hy) as [[-> ->]|[Hne Hyu]].
    + destruct Ha as [[E _]|(E & _ & b & Ew & Hi & Hl & Hd)]; cbn in *; [congruence|].
      exists b. rewrite Ew, Eb, lookup_insert_eq. split_and!; [done..|]. unfold tracks. by rewrite Hl.
    + destruct (Ht y u Hyu Hu) as (b & Hb & ?). exists b. by destruct (Hkeep _ b Hb) as [? _].
  - assert (Hdiff : forall y u, privs s !! y = Some u -> buffer u <> 0 -> buffer u <> p).
    { intros y u Hy Hu. destruct (Ht y u Hy Hu) as (b & Hb & _). destruct (Hkeep _ b Hb) as [_ Hk].
      destruct (Z.eqb_spec p 0) as [->|]; [done|by apply Hk]. }
    intros y z u u' Hy Hz Hu Huu. destruct (Hother y u Hy) as [[-> ->]|[Hne Hyu]], (Hother z u' Hz) as [[-> ->]|[Hne' Hzu]].
    + done.
    + destruct (Hdiff z u' Hzu); congruence.
    + destruct (Hdiff y u Hyu); congruence.
    + by apply (Ho y z u u').
  - intros y u Hy Hu. destruct (Hother y u Hy) as [[-> ->]|[Hne Hyu]]; [done|by apply (Hn y)].
  - intros q Hq. destruct (Hr q Hq) as [? [b Hb]]. split; [done|]. destruct (Hkeep q b Hb) as [? _]. eauto.
  - rewrite lookup_insert_is_Some'. tauto.
Qed.

(** ** The hooks keep the pixmaps *)

(** Every other pixmap stays. *)
Definition keeps_pixmaps (s s' : Screen) : Prop :=
  root_pixmap s' = root_pixmap s /\ forall y, is_Some (privs s !! y) -> is_Some (privs s' !! y).

Section hooks.
Context (page : Z) (legacyDrawing flip forceFlip : bool) (DRM_FORMAT_MOD_INVALID : Z) (base : list resource).

Lemma pixmap_create_ok calloc_ok e el x width height usage s :
  pixmaps_ok base s -> privs s !! x = None -> x <> root_pixmap s -> fresh_struct e (world s) -> env_ashm e <> 0 ->
  (env_ahb_err e = 0 -> env_ahb e <> 0) -> grants el -> 0 <= width -> 0 <= height ->
  exists r, lorieCreatePixmap page legacyDrawing flip calloc_ok e el x width height usage s = Some r /\
    pixmaps_ok base r.2 /\ (r.1.1 = true <-> is_Some (privs r.2 !! x)).
Proof.
  intros H Hx Hroot Hf Hashm Hahb Hg Hw Hh. unfold lorieCreatePixmap. destruct calloc_ok; cbn [negb].
  2: { eexists. split; [done|]. split; [done|]. cbn. rewrite Hx. split; [done|by intros [? ?]]. }
  destruct ((width =? 0) || (height =? 0)) eqn:E0.
  { eexists. split; [done|]. split; [|cbn; rewrite lookup_insert_eq; split; [eauto|done]].
    assert (upd_priv x new_priv s = upd_priv x new_priv (set_world (world s) s)) as E by by rewrite set_world_same.
    cbn [snd]. rewrite E. apply (pixmap_new base s x e (0, world s)); try done; [by left|apply H]. }
  apply orb_false_iff in E0 as [Ew%Z.eqb_neq Eh%Z.eqb_neq].
  set (type := if negb _ then _ else _).
  destruct (allocate_keeps page base e width height (screen_format flip) type (world s)) as (p & w & E & Hok); try done.
  { apply H. }
  rewrite forgotten_acceptable in Hok by (intros _; unfold acceptable, screen_format; destruct flip; cbn; bcase; try done; lia).
  cbn [app] in Hok.
  rewrite E. cbn [mbind option_bind]. pose proof (LorieBuffer_allocate_new _ _ _ _ _ _ _ _ E) as Ha.
  pose proof (pixmap_new base s x e (p, w) (set_buffer p new_priv) H Hx Hf Ha Hok eq_refl eq_refl) as Hs1. cbn [snd] in Hs1.
  set (s1 := upd_priv x (set_buffer p new_priv) (set_world w s)) in *.
  assert (Hv : privs s1 !! x = Some (set_buffer p new_priv)) by apply lookup_insert_eq.
  destruct (Z.eqb_spec p 0) as [->|Hp].
  - unfold lock_priv. rewrite Hv. cbn. eexists. split; [done|].
    split; [|by cbn; rewrite lookup_delete_eq; split; [|intros [? ?]]].
    destruct Ha as [[_ Eb]|(_ & ? & _)]; [|done]. cbn in Eb. rewrite insert_insert_eq, delete_insert_id by done.
    destruct H as [Hw1 Ht1 Ho1 Hn1 Hr1 Hroot1]. split; cbn; rewrite ?Eb; done.
  - unfold LorieBuffer_description. rewrite (proj2 (Z.eqb_neq p 0)) by done.
    destruct (buffer_of base s1 x _ Hs1 Hv Hp) as (b & Hb & _). cbn in Hb. rewrite Hb. cbn [fmap option_fmap option_map mbind option_bind].
    destruct (lock_priv_ok base el x s1 _ Hs1 Hv Hp eq_refl Hg) as (b' & _ & _ & _ & _ & -> & Hok2).
    cbn [mbind option_bind snd]. eexists. split; [done|]. split; [done|]. cbn. rewrite lookup_insert_eq. split; [eauto|done].
Qed.
(** [release_buffer] of a buffer that no pixmap has. *)
Lemma release_ok p s : pixmaps_ok base s -> p <> 0 -> is_Some (bufs (world s) !! p) ->
  (forall x v, privs s !! x = Some v -> buffer v <> p) ->
  exists s', release_buffer p s = Some s' /\ pixmaps_ok base s' /\ keeps_pixmaps s s'.
Proof.
  intros H Hp Hlive Hnone. destruct (release_keeps base (world s) p (po_world _ _ H)) as (w & E & Hok); [by right|].
  destruct Hlive as [b Hb].
  assert (Hbufs : forall q, q <> p -> bufs w !! q = bufs (world s) !! q).
  { intros q Hq. revert E. unfold LorieBuffer_release. rewrite (proj2 (Z.eqb_neq p 0)), Hb by done. cbn.
    destruct (refcount b =? 1); [|intros [= <-]; cbn; by rewrite lookup_insert_ne].
    unfold __LorieBuffer_free. rewrite (proj2 (Z.eqb_neq p 0)) by done. cbn. rewrite lookup_insert_eq. cbn.
    destruct (xorg_list_del p (lnk (world s))); [cbn|done]. destruct (drop _ _); [cbn|done]. intros [= <-]. cbn.
    by rewrite lookup_delete_ne, lookup_insert_ne. }
  unfold release_buffer. rewrite E. cbn [mbind option_bind]. eexists. split; [done|]. split; [|by split].
  destruct H as [Hw Ht Ho Hn Hr Hroot]. split; cbn; try done.
  - intros x v Hv Hb0. rewrite Hbufs by (by apply (Hnone x)). by apply (Ht x).
  - intros q Hq. assert (Hqr : q ∈ registered s /\ (bufs w !! p = None -> q <> p)).
    { destruct (bufs w !! p); [done|]. apply list_elem_of_filter in Hq. tauto. }
    destruct Hqr as [Hqr Hqp]. destruct (Hr q Hqr) as [? Hs]. split; [done|].
    destruct (decide (q = p)) as [->|]; [destruct (bufs w !! p); [eauto|by destruct Hqp]|by rewrite Hbufs].
Qed.

(** The buffers of the list are alive, so the search ends. *)
Lemma registered_found s id : pixmaps_ok base s -> exists p, find_id (world s) id (registered s) = Some p.
Proof.
  intros H. destruct (find_id_spec (world s) id (registered s)) as (p & E & _); [|eauto].
  intros p Hp. destruct (po_registered _ _ H p Hp) as [? [b Hb]]. eauto.
Qed.

Lemma unregister_ok p s : pixmaps_ok base s -> is_Some (bufs (world s) !! p) -> exists s',
  lorieUnregisterBuffer p s = Some s' /\ pixmaps_ok base s' /\ world s' = world s /\ privs s' = privs s /\
  root_pixmap s' = root_pixmap s.
Proof.
  intros H [b Hb]. unfold lorieUnregisterBuffer. destruct (Z.eqb_spec p 0); [by exists s|].
  unfold LorieBuffer_description. rewrite (proj2 (Z.eqb_neq p 0)), Hb by done. cbn.
  destruct (registered_found s (dsc_id (desc b)) H) as [q ->]. cbn. destruct (_ || _); [by exists s|].
  eexists. split; [done|]. split_and!; try done. destruct H as [Hw Ht Ho Hn Hr Hroot]. split; try done.
  intros y [_ Hy]%list_elem_of_filter. by apply Hr.
Qed.

Lemma register_ok p s : pixmaps_ok base s -> is_Some (bufs (world s) !! p) -> exists s',
  lorieRegisterBuffer p s = Some s' /\ pixmaps_ok base s' /\ keeps_pixmaps s s'.
Proof.
  intros H [b Hb]. destruct (bo_live _ _ (po_world _ _ H) p b Hb) as (Hp & _). unfold lorieRegisterBuffer.
  unfold LorieBuffer_description. rewrite (proj2 (Z.eqb_neq p 0)), Hb by done. cbn.
  destruct (_ =? -1); [by exists s|]. destruct (registered_found s (dsc_id (desc b)) H) as [q ->]. cbn.
  destruct (_ || _); [by exists s|]. eexists. split; [done|]. split; [|by split].
  destruct H as [Hw Ht Ho Hn Hr Hroot]. split; try done. cbn.
  intros y [-> |[_ Hy]%list_elem_of_filter]%elem_of_cons; [eauto|by apply Hr].
Qed.

(** A pixmap other than the root's loses its private data. *)
Lemma forget_ok x s : pixmaps_ok base s -> x <> root_pixmap s ->
  pixmaps_ok base (set_privs (delete x (privs s)) s).
Proof.
  intros [Hw Ht Ho Hn Hr Hroot] Hx. split; cbn; try done.
  - intros y v [_ Hy]%lookup_delete_Some. by apply (Ht y).
  - intros y z v v' [_ Hy]%lookup_delete_Some [_ Hz]%lookup_delete_Some. by apply (Ho y z v).
  - intros y v [_ Hy]%lookup_delete_Some. by apply (Hn y).
  - destruct Hroot as [?|?]; [by left|right]. by rewrite lookup_delete_ne.
Qed.

(** The list of the buffers does not look at the pixmaps. *)
Lemma unregister_set_privs m p s : lorieUnregisterBuffer p (set_privs m s) = set_privs m <$> lorieUnregisterBuffer p s.
Proof.
  unfold lorieUnregisterBuffer. destruct (p =? 0); [done|]. cbn [world registered conn_fd set_privs].
  destruct (LorieBuffer_description p (world s)) as [d|]; [cbn|done]. destruct (find_id _ _ _); [cbn|done].
  by destruct (_ || _).
Qed.

Lemma release_set_privs m p s : release_buffer p (set_privs m s) = set_privs m <$> release_buffer p s.
Proof. unfold release_buffer. cbn [world set_privs]. by destruct (LorieBuffer_release p (world s)). Qed.

Lemma destroy_ok r x s : pixmaps_ok base s -> is_Some (privs s !! x) -> x <> root_pixmap s ->
  exists s', lorieExaDestroyPixmap r x s = Some s' /\ pixmaps_ok base s' /\ root_pixmap s' = root_pixmap s /\
    privs s' !! x = None.
Proof.
  intros H [v Hv] Hx. unfold lorieExaDestroyPixmap. rewrite Hv. cbn [mbind option_bind].
  destruct (Z.eqb_spec (buffer v) 0) as [E|E]; cbn [negb].
  { cbn. eexists. split; [done|]. split_and!; [by apply forget_ok|done|cbn; apply lookup_delete_eq]. }
  (* without the pixmap the buffer belongs to nobody, and the rest goes through *)
  assert (Hs1 : exists s1, (if negb (locked v =? 0) then unlock_priv r x s else Some s) = Some s1 /\
    pixmaps_ok base (set_privs (delete x (privs s)) s1) /\ is_Some (bufs (world s1) !! buffer v) /\
    privs s1 = privs s /\ root_pixmap s1 = root_pixmap s).
  { destruct (Z.eqb_spec (locked v) 0); cbn [negb].
    - exists s. destruct (buffer_of base s x v H Hv E) as (b & Hb & _). split_and!; eauto. by apply forget_ok.
    - destruct (unlock_priv_ok base r x s v H Hv E) as (b & Hb & _ & _ & -> & Hok). eexists. split; [done|].
      cbn. rewrite lookup_insert_eq. split_and!; eauto.
      pose proof (forget_ok x _ Hok Hx) as Hd. unfold unlocked_state, upd_priv in Hd. cbn in Hd.
      by rewrite delete_insert_eq in Hd. }
  destruct Hs1 as (s1 & -> & Hok1 & Hlive & Ep & Er). cbn [mbind option_bind].
  set (s1' := set_privs (delete x (privs s)) s1) in *.
  assert (Hnone : forall y u, privs s1' !! y = Some u -> buffer u <> buffer v).
  { cbn. intros y u [Hne Hy]%lookup_delete_Some Hu. apply Hne. by apply (po_own _ _ H x y v u). }
  destruct (unregister_ok (buffer v) s1' Hok1 Hlive) as (s2 & E2 & Hok2 & Ew2 & Ep2 & Er2).
  destruct (release_ok (buffer v) s2 Hok2 E) as (s3 & E3 & Hok3 & Er3 & _); [by rewrite Ew2|by rewrite Ep2|].
  unfold s1' in E2. rewrite unregister_set_privs in E2. destruct (lorieUnregisterBuffer (buffer v) s1) as [s2'|]; [|done].
  injection E2 as E2. cbn [mbind option_bind]. rewrite <- E2, release_set_privs in E3.
  destruct (release_buffer (buffer v) s2') as [s3'|] eqn:E4; [|done]. injection E3 as E3. cbn [mbind option_bind].
  rewrite E3. exists s3. split_and!; [done|done|by rewrite Er3, Er2|].
  rewrite <- E3. cbn. apply lookup_delete_eq.
Qed.

Lemma hold_root_fields index x s : world (hold_root index x s) = world s /\ privs (hold_root index x s) = privs s /\
  registered (hold_root index x s) = registered s /\ root_pixmap (hold_root index x s) = root_pixmap s /\
  ptrs (hold_root index x s) = ptrs s /\ screen_pixmap (hold_root index x s) = screen_pixmap s.
Proof. unfold hold_root. by destruct (_ && _). Qed.

Lemma hold_root_ok index x s : pixmaps_ok base s -> pixmaps_ok base (hold_root index x s).
Proof.
  intros H. destruct (hold_root_fields index x s) as (E1 & E2 & E3 & E4 & _).
  apply (pixmaps_frame base s); try done. rewrite E4, E2. apply H.
Qed.

(** The pixmap's memory, wherever it comes from. *)
Definition prepared (x p : Z) (v : LoriePixmapPriv) (s : Screen) : Screen :=
  set_ptrs (<[x := p]> (ptrs s)) (upd_priv x v s).

Lemma prepare_spec e x index s v : pixmaps_ok base s -> privs s !! x = Some v -> grants e ->
  let s1 := hold_root index x s in
  if (locked v =? 0) && (mem v =? 0) then
    if buffer v =? 0 then loriePrepareAccess e x index s = Some (false, upd_priv x v s1)
    else exists b, bufs (world s) !! buffer v = Some b /\ Buffer.locked b = 0 /\ lockedData b = 0 /\ image e b <> 0 /\
      loriePrepareAccess e x index s
        = Some (true, prepared x (image e b) (set_wasLocked false (set_locked (image e b) v)) (locked_state e x v b s1)) /\
      pixmaps_ok base (locked_state e x v b s1)
  else loriePrepareAccess e x index s
    = Some (true, prepared x (if negb (locked v =? 0) then locked v else mem v) (set_wasLocked true v) s1).
Proof.
  intros H Hv Hg s1. pose proof (hold_root_ok index x s H) as H1. fold s1 in H1.
  destruct (hold_root_fields index x s) as (Ew & Ep & _). fold s1 in Ew, Ep.
  unfold loriePrepareAccess. rewrite Hv. cbn [mbind option_bind]. fold s1. rewrite <- Ep in Hv. rewrite <- Ew. clearbody s1.
  destruct ((locked v =? 0) && (mem v =? 0)) eqn:E.
  - apply andb_true_iff in E as [El%Z.eqb_eq _]. destruct (Z.eqb_spec (buffer v) 0) as [Eb|Eb].
    + unfold lock_priv. rewrite Hv. cbn [mbind option_bind]. rewrite Eb. cbn. by rewrite set_world_same.
    + destruct (lock_priv_ok base e x s1 v H1 Hv Eb El Hg) as (b & Hb & Hl & Hd & Hi & -> & Hok).
      exists b. split_and!; [done..| |done]. cbn [mbind option_bind negb Z.eqb].
      rewrite (put_wasLocked_eq _ _ _ (set_locked (image e b) v)) by apply lookup_insert_eq.
      cbn [mbind option_bind]. rewrite upd_priv_lookup. cbn [mbind option_bind locked set_wasLocked set_locked].
      by rewrite (proj2 (Z.eqb_neq (image e b) 0)).
  - rewrite (put_wasLocked_eq _ _ _ v Hv). cbn [mbind option_bind]. by rewrite upd_priv_lookup.
Qed.

Lemma upd_keeps x v s s' : root_pixmap s' = root_pixmap s -> privs s' = privs s -> keeps_pixmaps s (upd_priv x v s').
Proof. intros Er Ep. split; [done|]. intros y Hy. cbn. rewrite lookup_insert_is_Some', Ep. by right. Qed.

Lemma prepared_ok x p v s : pixmaps_ok base (upd_priv x v s) -> pixmaps_ok base (prepared x p v s).
Proof. intros H. apply (pixmaps_frame base (upd_priv x v s)); try done. apply H. Qed.

Lemma prepare_ok e x index s : pixmaps_ok base s -> is_Some (privs s !! x) -> grants e ->
  exists r, loriePrepareAccess e x index s = Some r /\ pixmaps_ok base r.2 /\ keeps_pixmaps s r.2.
Proof.
  intros H [v Hv] Hg. pose proof (prepare_spec e x index s v H Hv Hg) as Hs. cbn zeta in Hs.
  pose proof (hold_root_ok index x s H) as H1. destruct (hold_root_fields index x s) as (_ & Ep & _ & Er & _).
  set (s1 := hold_root index x s) in *. assert (Hv1 : privs s1 !! x = Some v) by by rewrite Ep.
  destruct (_ && _); [destruct (buffer v =? 0); [|destruct Hs as (b & _ & _ & _ & _ & Hs & Hok)]|]; rewrite Hs;
    (eexists; split; [done|]); cbn [snd].
  - split; [by apply (pixmap_touch base s1 x v)|by apply upd_keeps].
  - split.
    + apply prepared_ok. apply (pixmap_touch base _ x (set_locked (image e b) v)); [done|by cbn; rewrite lookup_insert_eq|done|done].
    + split; [done|]. intros y Hy. cbn. rewrite !lookup_insert_is_Some', Ep. tauto.
  - split; [by apply prepared_ok, (pixmap_touch base s1 x v)|]. by apply upd_keeps.
Qed.

Lemma finish_ok r x index s : pixmaps_ok base s -> is_Some (privs s !! x) ->
  exists s', lorieFinishAccess r x index s = Some s' /\ pixmaps_ok base s' /\ keeps_pixmaps s s'.
Proof.
  intros H [v Hv]. unfold lorieFinishAccess. rewrite Hv. cbn [mbind option_bind].
  assert (H1 : pixmaps_ok base (leave_root index x s) /\ privs (leave_root index x s) = privs s /\
    root_pixmap (leave_root index x s) = root_pixmap s).
  { unfold leave_root. destruct (_ && _); [|done]. split_and!; [|done|done]. apply (pixmaps_frame base s); try done. apply H. }
  destruct H1 as (H1 & Ep & Er). destruct (negb (wasLocked v)).
  - destruct (unlock_three_ok base r x (leave_root index x s) v H1) as (s' & E & Hok & Er' & Hk & _); [by rewrite Ep|].
    rewrite E. exists s'. split_and!; [done|done|]. split; [congruence|]. intros y Hy. apply Hk. by rewrite Ep.
  - eexists. split; [done|]. split; [done|]. split; [done|]. intros y. by rewrite Ep.
Qed.

Lemma set_root_ok r e newPixmap s : pixmaps_ok base s -> (newPixmap = 0 \/ is_Some (privs s !! newPixmap)) -> grants e ->
  exists s', lorieSetWindowPixmap r e newPixmap s = Some s' /\ pixmaps_ok base s' /\ root_pixmap s' = newPixmap /\
    forall y, is_Some (privs s !! y) -> is_Some (privs s' !! y).
Proof.
  intros H Hnew Hg. unfold lorieSetWindowPixmap. set (old := root_pixmap s).
  set (m1 := if old =? 0 then _ else _).
  assert (H1 : exists s1, m1 = Some s1 /\ pixmaps_ok base s1 /\ forall y, is_Some (privs s !! y) -> is_Some (privs s1 !! y)).
  { unfold m1. destruct (Z.eqb_spec old 0) as [E|E]; [by exists s|].
    destruct (po_root _ _ H) as [?|[v Hv]]; [done|]. fold old in Hv. rewrite Hv. cbn [mbind option_bind].
    destruct (_ && _); [|by exists s].
    destruct (unlock_three_ok base r old s v H Hv) as (s1 & E1 & Hok & _ & Hk & _). exists s1. by rewrite E1. }
  destruct H1 as (s1 & -> & H1 & Hk1). cbn [mbind option_bind].
  set (m2 := if newPixmap =? 0 then _ else _).
  assert (H2 : exists s2, m2 = Some s2 /\ pixmaps_ok base s2 /\ forall y, is_Some (privs s1 !! y) -> is_Some (privs s2 !! y)).
  { unfold m2. destruct (Z.eqb_spec newPixmap 0) as [E|E]; [by exists s1|].
    destruct Hnew as [?|Hnew]; [done|]. destruct (Hk1 _ Hnew) as [v Hv]. rewrite Hv. cbn [mbind option_bind].
    destruct (negb (buffer v =? 0) && (locked v =? 0)) eqn:Eg; [|by exists s1].
    apply andb_true_iff in Eg as [Eb%negb_true_iff%Z.eqb_neq El%Z.eqb_eq].
    destruct (lock_priv_ok base e newPixmap s1 v H1 Hv Eb El Hg) as (b & _ & _ & _ & _ & -> & Hok).
    cbn [mbind option_bind snd]. rewrite (put_wasLocked_eq _ _ _ (set_locked (image e b) v)) by apply upd_priv_lookup.
    eexists. split; [done|]. split.
    - apply (pixmap_touch base _ newPixmap (set_locked (image e b) v)); [done|apply upd_priv_lookup|done|done].
    - intros y Hy. cbn. rewrite !lookup_insert_is_Some'. tauto. }
  destruct H2 as (s2 & -> & H2 & Hk2). cbn [mbind option_bind]. eexists. split; [done|]. split_and!; [|done|by auto].
  apply (pixmaps_frame base s2); try done. cbn. destruct Hnew as [?|Hnew]; [by left|right; by auto].
Qed.

(** What a conversion makes of a buffer. *)
Lemma convert_bufs e p type format w w' b : LorieBuffer_convert page e p type format w = Some w' -> p <> 0 ->
  bufs w !! p = Some b ->
  bufs w' = bufs w \/ exists b', bufs w' = <[p := b']> (bufs w) /\ image_ok b' /\ Buffer.locked b' = 0 /\
    dsc_type (desc b') <> LORIEBUFFER_REGULAR /\ refcount b' = refcount b.
Proof.
  intros E Hp Hb. revert E. unfold LorieBuffer_convert. rewrite (proj2 (Z.eqb_neq p 0)), Hb by done. cbn [mbind option_bind].
  destruct (_ || _) eqn:Eg; [intros [= <-]; by left|].
  destruct (Z.eqb_spec type LORIEBUFFER_FD) as [->|Hnf].
  - destruct (LorieBuffer_createRegion e (ledger w)) as [[fd l]|]; cbn; [|done].
    destruct (fd <? 0); [intros [= <-]; by left|]. unfold map_ok.
    destruct (Z.eqb_spec (env_mmap e) 0) as [|Hm]; cbn; [destruct (give_back _ _); cbn; [intros [= <-]; by left|done]|].
    destruct (env_mmap e =? MAP_FAILED); cbn; (destruct (give_back _ _); cbn; [|done]); intros [= <-]; [by left|right].
    eexists. split; [done|]. split_and!; [right; split; [by right|done]|done..].
  - destruct (Z.eqb_spec type LORIEBUFFER_AHARDWAREBUFFER) as [->|];
      [|rewrite !orb_false_iff in Eg; by destruct Eg as [[_ ?] _]].
    destruct (negb (env_ahb_err e =? 0)); [intros [= <-]; by left|].
    destruct (env_describe e) as [[[? ?] ?] ?]. destruct (give_back _ _); cbn; [|done]. intros [= <-]. right.
    eexists. split; [done|]. by split_and!; [left|..].
Qed.

Lemma same_bufs_ok base' s w : pixmaps_ok base s -> buffers_ok base' w -> bufs w = bufs (world s) ->
  pixmaps_ok base' (set_world w s).
Proof. intros [Hw Ht Ho Hn Hr Hroot] Hok E. split; cbn; rewrite ?E; done. Qed.

(** The step of a flip that makes the buffer one that can be shared. *)
Lemma convert_lock_ok e el x v b s : pixmaps_ok base s -> privs s !! x = Some v -> buffer v <> 0 ->
  bufs (world s) !! buffer v = Some b -> dsc_type (desc b) = LORIEBUFFER_REGULAR -> env_ashm e <> 0 -> grants el ->
  exists w s', LorieBuffer_convert page e (buffer v) (shared_type legacyDrawing) (screen_format flip) (world s) = Some w /\
    (d ← LorieBuffer_description (buffer v) w;
     if negb (dsc_type d =? LORIEBUFFER_REGULAR) then r ← lock_priv el x (set_world w s); Some (snd r)
     else Some (set_world w s)) = Some s' /\
    pixmaps_ok base s' /\ keeps_pixmaps s s' /\ registered s' = registered s /\
    exists v', privs s' !! x = Some v' /\ buffer v' = buffer v.
Proof.
  intros H Hv Hb0 Hb Hreg Hashm Hg. destruct (bo_live _ _ (po_world _ _ H) _ b Hb) as (_ & Hrc & _).
  destruct (convert_keeps page base e (buffer v) (shared_type legacyDrawing) (screen_format flip) (world s))
    as (w & E & Hok); [apply H|done|by eauto|]. exists w.
  assert (Hdesc : forall b', bufs w !! buffer v = Some b' -> LorieBuffer_description (buffer v) w = Some (desc b')).
  { intros b' Hb'. unfold LorieBuffer_description. by rewrite (proj2 (Z.eqb_neq (buffer v) 0)), Hb' by done. }
  destruct (convert_bufs _ _ _ _ _ _ _ E Hb0 Hb) as [Ew|(b' & Ew & Hi' & Hl' & Hty & Hrc')].
  - rewrite (Hdesc b) by by rewrite Ew. cbn [mbind option_bind]. rewrite Hreg. cbn.
    eexists. split_and!; [done|done|by apply same_bufs_ok|by split|done|]. by exists v.
  - assert (Hb' : bufs w !! buffer v = Some b') by by rewrite Ew, lookup_insert_eq.
    rewrite (Hdesc b' Hb'). cbn [mbind option_bind]. rewrite (proj2 (Z.eqb_neq _ _) Hty). cbn [negb].
    destruct (lock_buffer_grants el b' Hi' Hg Hl') as [El Hi0].
    unfold lock_priv, LorieBuffer_lock. cbn [privs set_world world]. rewrite Hv. cbn [mbind option_bind].
    rewrite (proj2 (Z.eqb_neq (buffer v) 0)), Hb' by done. cbn [mbind option_bind]. rewrite El. cbn [mbind option_bind snd].
    eexists. split_and!; [done|done| |by apply upd_keeps|done|by eexists; split; [apply upd_priv_lookup|]].
    apply (pixmap_update base s x v (set_locked (image el b') v) b (set_lock 1 (image el b') b')); try done.
    + apply (update_same_owned base w (buffer v) b'); try done. cbn. by rewrite Hrc'.
    + cbn. by rewrite Ew, insert_insert_eq.
Qed.

(** A buffer that the activity can use, and that it has been told about if there is one. *)
Definition shared_buffer (p : Z) (s : Screen) : Prop :=
  exists b, bufs (world s) !! p = Some b /\
    (dsc_type (desc b) = LORIEBUFFER_FD \/ dsc_type (desc b) = LORIEBUFFER_AHARDWAREBUFFER) /\
    (conn_fd s <> -1 -> exists q bq, q ∈ registered s /\ bufs (world s) !! q = Some bq /\ dsc_id (desc bq) = dsc_id (desc b)).

Lemma register_shared p s b : pixmaps_ok base s -> bufs (world s) !! p = Some b ->
  dsc_type (desc b) = LORIEBUFFER_FD \/ dsc_type (desc b) = LORIEBUFFER_AHARDWAREBUFFER ->
  exists s', lorieRegisterBuffer p s = Some s' /\ pixmaps_ok base s' /\ keeps_pixmaps s s' /\ privs s' = privs s /\
    shared_buffer p s'.
Proof.
  intros H Hb Hty. destruct (bo_live _ _ (po_world _ _ H) p b Hb) as (Hp & _). unfold lorieRegisterBuffer, shared_buffer.
  unfold LorieBuffer_description. rewrite (proj2 (Z.eqb_neq p 0)), Hb by done. cbn.
  destruct (Z.eqb_spec (conn_fd s) (-1)) as [Ec|Ec].
  { exists s. split_and!; try done. by exists b. }
  destruct (find_id_spec (world s) (dsc_id (desc b)) (registered s)) as (q & -> & _ & Hq).
  { intros q Hq. destruct (po_registered _ _ H q Hq) as [? [bq Hbq]]. eauto. }
  cbn [mbind option_bind]. destruct (Z.eqb_spec q 0) as [->|Hq0]; cbn [negb orb].
  - cbn. eexists. split; [done|]. split_and!; try done.
    + destruct H as [Hw Ht Ho Hn Hr Hroot]. split; try done. cbn.
      intros y [-> |[_ Hy]%list_elem_of_filter]%elem_of_cons; [eauto|by apply Hr].
    + exists b. cbn. split_and!; try done. intros _. exists p, b. split_and!; [by left|done..].
  - exists s. split_and!; try done. exists b. split_and!; try done. intros _.
    destruct (Hq Hq0) as (Hin & bq & Hbq & Hid). by exists q, bq.
Qed.

Lemma flip_ok e el root_width x width height s : pixmaps_ok base s -> env_ashm e <> 0 -> grants el ->
  exists r, loriePresentFlip page legacyDrawing flip forceFlip e el root_width x width height s = Some r /\
    pixmaps_ok base r.2 /\ keeps_pixmaps s r.2 /\
    (r.1 = true -> exists v, privs r.2 !! x = Some v /\ shared_buffer (buffer v) r.2).
Proof.
  intros H Hashm Hg. unfold loriePresentFlip.
  assert (Hno : exists r : bool * Screen, Some (false, s) = Some r /\ pixmaps_ok base r.2 /\ keeps_pixmaps s r.2 /\
    (r.1 = true -> exists v, privs r.2 !! x = Some v /\ shared_buffer (buffer v) r.2)) by by exists (false, s).
  destruct (privs s !! x) as [v|] eqn:Hv; [|done]. destruct (_ || _) eqn:Eg; [done|].
  rewrite !orb_false_iff in Eg. destruct Eg as [[[Eb%Z.eqb_neq _] _] _].
  destruct (buffer_of base s x v H Hv Eb) as (b & Hb & Hi & _).
  assert (Hdesc : forall w b', bufs w !! buffer v = Some b' -> LorieBuffer_description (buffer v) w = Some (desc b')).
  { intros w b' Hb'. unfold LorieBuffer_description. by rewrite (proj2 (Z.eqb_neq (buffer v) 0)), Hb' by done. }
  rewrite (Hdesc _ _ Hb). cbn [mbind option_bind]. destruct (_ && negb forceFlip); [done|].
  set (m := if dsc_type (desc b) =? LORIEBUFFER_REGULAR then _ else _).
  assert (Hm : exists s1, m = Some s1 /\ pixmaps_ok base s1 /\ keeps_pixmaps s s1 /\
    exists v', privs s1 !! x = Some v' /\ buffer v' = buffer v).
  { unfold m. destruct (Z.eqb_spec (dsc_type (desc b)) LORIEBUFFER_REGULAR) as [Et|Et].
    - destruct (convert_lock_ok e el x v b s H Hv Eb Hb Et Hashm Hg) as (w & s1 & -> & E1 & Hok & Hk & _ & Hv').
      exists s1. split_and!; try done.
    - exists s. split_and!; try done. by exists v. }
  destruct Hm as (s1 & -> & H1 & Hk1 & v' & Hv' & Eb'). cbn [mbind option_bind].
  destruct (buffer_of base s1 x v' H1 Hv') as (b1 & Hb1 & _); [by rewrite Eb'|]. rewrite Eb' in Hb1.
  rewrite (Hdesc _ _ Hb1). cbn [mbind option_bind]. destruct (_ && _) eqn:Et.
  { by exists (false, s1). }
  destruct (register_shared (buffer v) s1 b1 H1 Hb1) as (s2 & -> & H2 & Hk2 & Ep2 & Hsh).
  { apply andb_false_iff in Et as [?%negb_false_iff%Z.eqb_eq|?%negb_false_iff%Z.eqb_eq]; auto. }
  cbn [mbind option_bind]. exists (true, s2). split_and!; try done.
  - cbn. destruct Hk1, Hk2. split; [congruence|auto].
  - intros _. cbn. exists v'. rewrite Ep2, Eb'. done.
Qed.

(** ** The refresh *)


(** ** Pixmaps from descriptors *)

Lemma no_buffer_ok x v s : pixmaps_ok base s -> privs s !! x = None -> buffer v = 0 -> locked v = 0 ->
  pixmaps_ok base (upd_priv x v s).
Proof.
  intros [Hw Ht Ho Hn Hr Hroot] Hx Hb Hl. split; cbn; try done.
  - intros y u [[<- <-]|[? Hy]]%lookup_insert_Some Hu; [done|by apply (Ht y)].
  - intros y z u u' [[<- <-]|[? Hy]]%lookup_insert_Some [[<- <-]|[? Hz]]%lookup_insert_Some Hu Huu;
      [done|done|congruence|by apply (Ho y z u u')].
  - intros y u [[<- <-]|[? Hy]]%lookup_insert_Some Hu; [done|by apply (Hn y)].
  - rewrite lookup_insert_is_Some'. tauto.
Qed.

(** The label [fail] forgets a pixmap that got no buffer. *)
Lemma fail_no_buffer r x v s : privs s !! x = None -> buffer v = 0 ->
  fail_pixmap r x (upd_priv x v s) = Some (false, s).
Proof.
  intros Hx Hb. unfold fail_pixmap, lorieExaDestroyPixmap. rewrite upd_priv_lookup. cbn [mbind option_bind].
  rewrite Hb. cbn. rewrite delete_insert_id by done. by destruct s.
Qed.
End hooks.

(** The hardware buffer that an import keeps for ever: one that was received in a format
    that is not accepted. *)
Definition rejected (DRM_FORMAT_MOD_INVALID : Z) (calloc_ok : bool) (q : SocketEnv) (modifier : Z) : list resource :=
  let '(_, _, _, format) := se_describe q in
  if calloc_ok && ((modifier =? AHARDWAREBUFFER_SOCKET_FD) || (modifier =? AHARDWAREBUFFER_FLIPPED_SOCKET_FD))
     && negb ((modifier =? DRM_FORMAT_MOD_INVALID) || (modifier =? RAW_MMAPPABLE_FD))
     && (se_fstat q =? 0) && se_is_socket q && (se_write q =? 1) && (se_recv q =? 0) && negb (se_buffer q =? 0)
     && negb ((format =? FORMAT_R8G8B8X8) || (format =? FORMAT_R8G8B8A8) || (format =? FORMAT_B8G8R8A8))
  then [RAhb (se_buffer q)] else [].

Lemma take_resource base r w : buffers_ok base w -> buffers_ok (r :: base) (set_ledger (r :: ledger w) w).
Proof. intros [Hl Hlive]. split; [|done]. cbn. rewrite Hl. apply Permutation_middle. Qed.

Section import.
Context (page : Z) (legacyDrawing flip : bool) (DRM_FORMAT_MOD_INVALID : Z) (base : list resource).

(** The pixmap with the buffer that was wrapped for it, or no pixmap. *)
Definition imported_as (x : Z) (kept : list resource) (r : bool * Screen) : Prop :=
  if r.1 then kept = [] /\ pixmaps_ok base r.2 /\ exists v, privs r.2 !! x = Some v /\ imported v = true /\ buffer v <> 0
  else pixmaps_ok (kept ++ base) r.2 /\ privs r.2 !! x = None.

Lemma wrapped_ok r e x v s p w : pixmaps_ok base s -> privs s !! x = None -> fresh_struct e (world s) ->
  allocated e (world s) (p, w) -> buffers_ok base w -> locked v = 0 -> imported v = true ->
  exists q, (if p =? 0 then fail_pixmap r x (upd_priv x (set_buffer p v) (set_world w s))
             else Some (true, upd_priv x (set_buffer p v) (set_world w s))) = Some q /\ imported_as x [] q.
Proof.
  intros H Hx Hf Ha Hok Hl Hi.
  pose proof (pixmap_new base s x e (p, w) (set_buffer p v) H Hx Hf Ha Hok eq_refl Hl) as Hn. cbn [snd] in Hn.
  destruct (Z.eqb_spec p 0) as [->|Hp].
  - rewrite fail_no_buffer by done. eexists. split; [done|]. split; [|done].
    destruct Ha as [[_ Eb]|(_ & ? & _)]; [|done]. cbn in *.
    by apply (same_bufs_ok base base s w H Hok Eb).
  - eexists. split; [done|]. split; [done|]. split; [done|]. exists (set_buffer p v). split; [apply upd_priv_lookup|done].
Qed.

(** A hardware buffer from a socket, once the pixmap exists. *)
Lemma hardware_ok e q r x v s : pixmaps_ok base s -> privs s !! x = None -> fresh_struct e (world s) -> env_dup e < 0 ->
  buffer v = 0 -> locked v = 0 -> imported v = true ->
  exists res,
    (if negb (se_fstat q =? 0) || negb (se_is_socket q) || negb (se_write q =? 1) then fail_pixmap r x (upd_priv x v s)
     else if negb (se_recv q =? 0) then fail_pixmap r x (upd_priv x v s)
     else if se_buffer q =? 0 then fail_pixmap r x (upd_priv x v s)
     else
       let s := set_world (set_ledger (RAhb (se_buffer q) :: ledger (world (upd_priv x v s))) (world (upd_priv x v s)))
                          (upd_priv x v s) in
       let '(_, _, _, format) := se_describe q in
       if negb (format =? FORMAT_R8G8B8X8) && negb (format =? FORMAT_R8G8B8A8) && negb (format =? FORMAT_B8G8R8A8)
       then fail_pixmap r x s
       else
         w ← LorieBuffer_wrapAHardwareBuffer e (se_buffer q) (world s);
         let '(p, w) := w in
         let s := upd_priv x (set_buffer p v) (set_world w s) in
         if p =? 0 then fail_pixmap r x s else Some (true, s)) = Some res /\
    let '(_, _, _, format) := se_describe q in
    imported_as x (if (se_fstat q =? 0) && se_is_socket q && (se_write q =? 1) && (se_recv q =? 0) && negb (se_buffer q =? 0)
      && negb ((format =? FORMAT_R8G8B8X8) || (format =? FORMAT_R8G8B8A8) || (format =? FORMAT_B8G8R8A8))
      then [RAhb (se_buffer q)] else []) res.
Proof.
  intros H Hx Hf Hdup Hb Hl Hi. destruct (se_describe q) as [[[w0 h0] st0] format].
  assert (Hfail : forall t, pixmaps_ok base t -> privs t !! x = None ->
    exists res, fail_pixmap r x (upd_priv x v t) = Some res /\ imported_as x [] res).
  { intros t Ht Htx. rewrite fail_no_buffer by done. by eexists. }
  destruct (se_fstat q =? 0); cbn [negb orb andb]; [|by apply Hfail].
  destruct (se_is_socket q); cbn [negb orb andb]; [|by apply Hfail].
  destruct (se_write q =? 1); cbn [negb orb andb]; [|by apply Hfail].
  destruct (se_recv q =? 0); cbn [negb orb andb]; [|by apply Hfail].
  destruct (Z.eqb_spec (se_buffer q) 0) as [E0|E0]; cbn [negb orb andb]; [by apply Hfail|].
  cbn zeta. cbn [world upd_priv set_privs].
  set (w1 := set_ledger (RAhb (se_buffer q) :: ledger (world s)) (world s)).
  rewrite <- !negb_orb. destruct (_ || _); cbn [negb].
  - destruct (allocate_spec base e 0 0 0 0 LORIEBUFFER_AHARDWAREBUFFER (se_buffer q) (-1) 0 0 false (world s)
      (RAhb (se_buffer q) :: ledger (world s))) as (p & w & E & Hok); [apply H| |by right|done|].
    { unfold handed. cbn. by rewrite (proj2 (Z.eqb_neq (se_buffer q) 0)). }
    change (set_world w1 (upd_priv x v s)) with (upd_priv x v (set_world w1 s)). cbn [world set_world upd_priv set_privs].
    unfold LorieBuffer_wrapAHardwareBuffer, w1. rewrite E. cbn [mbind option_bind].
    pose proof (allocate_new _ _ _ _ _ _ _ _ _ _ _ _ _ E) as Ha.
    destruct (wrapped_ok r e x v s p w H Hx Hf Ha Hok Hl Hi) as (res & Eres & Hres). exists res. split; [|done].
    rewrite <- Eres. unfold upd_priv. cbn. by rewrite insert_insert_eq.
  - change (set_world w1 (upd_priv x v s)) with (upd_priv x v (set_world w1 s)).
    rewrite fail_no_buffer by done. eexists. split; [done|]. split; [|done]. cbn.
    apply (same_bufs_ok base); [done|by apply take_resource, H|done].
Qed.

Lemma import_ok calloc_ok e q r x fd width height stride offset strides offsets modifier s :
  pixmaps_ok base s -> privs s !! x = None -> fresh_struct e (world s) -> acceptable width height FORMAT_B8G8R8A8 = true ->
  (modifier = AHARDWAREBUFFER_SOCKET_FD \/ modifier = AHARDWAREBUFFER_FLIPPED_SOCKET_FD -> env_dup e < 0) ->
  exists res, loriePixmapFromFds page legacyDrawing flip DRM_FORMAT_MOD_INVALID calloc_ok e q r x [fd] width height
      (stride :: strides) (offset :: offsets) modifier s = Some res /\
    imported_as x (rejected DRM_FORMAT_MOD_INVALID calloc_ok q modifier) res.
Proof.
  intros H Hx Hf Hacc Hdup. unfold loriePixmapFromFds, rejected. destruct (se_describe q) as [[[w0 h0] st0] format] eqn:Ed.
  assert (Hnone : imported_as x [] (false, s)) by by split.
  set (raw := (modifier =? DRM_FORMAT_MOD_INVALID) || (modifier =? RAW_MMAPPABLE_FD)).
  set (hw := (modifier =? AHARDWAREBUFFER_SOCKET_FD) || (modifier =? AHARDWAREBUFFER_FLIPPED_SOCKET_FD)).
  assert (Hguard : (1 <? Z.of_nat (length [fd])) || (negb (modifier =? RAW_MMAPPABLE_FD) && negb (modifier =? AHARDWAREBUFFER_SOCKET_FD)
     && negb (modifier =? AHARDWAREBUFFER_FLIPPED_SOCKET_FD) && negb (modifier =? DRM_FORMAT_MOD_INVALID)) = negb (raw || hw)).
  { unfold raw, hw. cbn. by destruct (modifier =? RAW_MMAPPABLE_FD), (modifier =? AHARDWAREBUFFER_SOCKET_FD),
      (modifier =? AHARDWAREBUFFER_FLIPPED_SOCKET_FD), (modifier =? DRM_FORMAT_MOD_INVALID). }
  rewrite Hguard. destruct (raw || hw) eqn:Eg; cbn [negb].
  2: { apply orb_false_iff in Eg as [_ ->]. rewrite andb_false_r. by eexists. }
  unfold lorieCreatePixmap. destruct calloc_ok; cbn [negb mbind option_bind]; [|by eexists].
  cbn [Z.eqb orb mbind option_bind negb]. rewrite upd_priv_lookup. change (rdz [fd] 0) with (Some fd).
  change (rdz (stride :: strides) 0) with (Some stride). change (rdz (offset :: offsets) 0) with (Some offset).
  cbn [mbind option_bind]. fold raw. destruct raw.
  - destruct (wrapFd_keeps base e width (stride / 4) height FORMAT_B8G8R8A8 fd offset (world s)) as (p & w & E & Hok);
      [apply H|done|]. rewrite forgotten_acceptable in Hok by done. cbn [world upd_priv set_privs]. rewrite E. cbn [mbind option_bind].
    destruct (wrapped_ok r e x (set_imported true new_priv) s p w H Hx Hf (allocate_new _ _ _ _ _ _ _ _ _ _ _ _ _ E) Hok
      eq_refl eq_refl) as (res & Eres & Hres). exists res. rewrite andb_false_r. split; [|done].
    rewrite <- Eres. unfold upd_priv. cbn. by rewrite insert_insert_eq.
  - cbn [orb] in Eg. rewrite Eg. cbn [andb negb]. rewrite upd_priv_twice.
    destruct (hardware_ok e q r x (set_flipped (modifier =? AHARDWAREBUFFER_FLIPPED_SOCKET_FD) (set_imported true new_priv)) s
      H Hx Hf) as (res & Eres & Hres); try done.
    { apply Hdup. apply orb_true_iff in Eg as [?%Z.eqb_eq|?%Z.eqb_eq]; auto. }
    rewrite Ed in Eres, Hres. exists res. by split.
Qed.
End import.

(** ** Runs *)

Inductive pix_op :=
  | OpCreate (calloc_ok : bool) (e el : BufEnv) (x width height usage_hint : Z)
  | OpDestroy (ahb_ret x : Z)
  | OpModify (x data : Z)
  | OpPrepare (e : BufEnv) (x index : Z)
  | OpFinish (ahb_ret x index : Z)
  | OpSetRoot (ahb_ret : Z) (e : BufEnv) (x : Z)
  | OpFlip (e el : BufEnv) (root_width x width height : Z)
  | OpImport (calloc_ok : bool) (e : BufEnv) (q : SocketEnv) (ahb_ret x fd width height stride offset modifier : Z).

Section runs.
Context (page : Z) (legacyDrawing flip forceFlip : bool) (DRM_FORMAT_MOD_INVALID : Z).

Definition pix_exec (op : pix_op) (s : Screen) : option Screen :=
  match op with
  | OpCreate c e el x w h u => snd <$> lorieCreatePixmap page legacyDrawing flip c e el x w h u s
  | OpDestroy r x => lorieExaDestroyPixmap r x s
  | OpModify x data => Some (lorieModifyPixmapHeader x data s)
  | OpPrepare e x i => snd <$> loriePrepareAccess e x i s
  | OpFinish r x i => lorieFinishAccess r x i s
  | OpSetRoot r e x => lorieSetWindowPixmap r e x s
  | OpFlip e el rw x w h => snd <$> loriePresentFlip page legacyDrawing flip forceFlip e el rw x w h s
  | OpImport c e q r x fd w h st off m =>
      snd <$> loriePixmapFromFds page legacyDrawing flip DRM_FORMAT_MOD_INVALID c e q r x [fd] w h [st] [off] m s
  end.

(** What the X server keeps to: it names pixmaps that exist, does not destroy the one of the
    root window, and gives sizes that are not negative; and what the system keeps to: locks
    are granted, descriptor 0 is in use and new structs are where none is. *)
Definition pix_op_ok (op : pix_op) (s : Screen) : Prop :=
  match op with
  | OpCreate c e el x w h u => privs s !! x = None /\ x <> root_pixmap s /\ fresh_struct e (world s) /\ env_ashm e <> 0 /\
      (env_ahb_err e = 0 -> env_ahb e <> 0) /\ grants el /\ 0 <= w /\ 0 <= h
  | OpDestroy r x => is_Some (privs s !! x) /\ x <> root_pixmap s
  | OpModify x data => True
  | OpPrepare e x i => is_Some (privs s !! x) /\ grants e
  | OpFinish r x i => is_Some (privs s !! x)
  | OpSetRoot r e x => (x = 0 \/ is_Some (privs s !! x)) /\ grants e
  | OpFlip e el rw x w h => env_ashm e <> 0 /\ grants el
  | OpImport c e q r x fd w h st off m => privs s !! x = None /\ fresh_struct e (world s) /\
      0 < w /\ 0 < h /\
      (m = AHARDWAREBUFFER_SOCKET_FD \/ m = AHARDWAREBUFFER_FLIPPED_SOCKET_FD -> env_dup e < 0)
  end.

(** The hardware buffers that were received in a format that is not accepted: nobody
    releases them. *)
Definition pix_leaks (op : pix_op) : list resource :=
  match op with
  | OpImport c _ q _ _ _ _ _ _ _ m => rejected DRM_FORMAT_MOD_INVALID c q m
  | _ => []
  end.

Fixpoint run_pix (ops : list pix_op) (s : Screen) : option Screen :=
  match ops with [] => Some s | op :: ops => s ← pix_exec op s; run_pix ops s end.

Fixpoint pix_ops_ok (ops : list pix_op) (s : Screen) : Prop :=
  match ops with
  | [] => True
  | op :: ops => pix_op_ok op s /\ forall s', pix_exec op s = Some s' -> pix_ops_ok ops s'
  end.

Lemma pixmaps_ok_perm base base' s : base ≡ₚ base' -> pixmaps_ok base s -> pixmaps_ok base' s.
Proof. intros Hp [H1 H2 H3 H4 H5 H6]. split; try done. by eapply buffers_ok_perm. Qed.

Lemma pix_step_ok base op s : pixmaps_ok base s -> pix_op_ok op s ->
  exists s', pix_exec op s = Some s' /\ pixmaps_ok (pix_leaks op ++ base) s'.
Proof.
  intros H Hop. destruct op; cbn [pix_exec pix_op_ok] in *.
  - destruct Hop as (? & ? & ? & ? & ? & ? & ? & ?).
    edestruct pixmap_create_ok as (r & -> & ? & _); try done. by exists r.2.
  - destruct Hop as [? ?]. edestruct destroy_ok as (s' & -> & ? & _); try done. eauto.
  - eexists. split; [done|]. unfold lorieModifyPixmapHeader. destruct (privs s !! x) as [v|] eqn:Hv; [|done].
    destruct (negb _); [|done]. by apply (pixmap_touch base s x v).
  - destruct Hop as [? ?]. edestruct prepare_ok as (r & -> & ? & _); try done. by exists r.2.
  - edestruct finish_ok as (s' & -> & ? & _); try done. eauto.
  - destruct Hop as [? ?]. edestruct set_root_ok as (s' & -> & ? & _); try done. eauto.
  - destruct Hop as [? ?]. edestruct flip_ok as (r & -> & ? & _); try done. by exists r.2.
  - destruct Hop as (? & ? & Hw & Hh & ?). edestruct import_ok as (r & -> & Hi); try done.
    { unfold acceptable. by rewrite (proj2 (Z.ltb_lt 0 width) Hw), (proj2 (Z.ltb_lt 0 height) Hh). }
    exists r.2. split; [done|]. unfold imported_as in Hi. cbn [pix_leaks].
    destruct r.1; [|by destruct Hi]. destruct Hi as (-> & ? & _). done.
Qed.

Lemma run_pix_ok base ops s : pixmaps_ok base s -> pix_ops_ok ops s ->
  exists s', run_pix ops s = Some s' /\ pixmaps_ok (concat (map pix_leaks ops) ++ base) s'.
Proof.
  revert base s. induction ops as [|op ops IH]; intros base s H Hops; [by exists s|].
  destruct Hops as [Hop Hrest]. destruct (pix_step_ok base op s H Hop) as (s1 & E & H1).
  cbn [run_pix]. rewrite E. cbn [mbind option_bind]. destruct (IH _ s1 H1 (Hrest s1 E)) as (s' & E' & H').
  exists s'. split; [done|]. eapply pixmaps_ok_perm; [|exact H']. cbn [map concat].
  rewrite !app_assoc. apply Permutation_app_tail, Permutation_app_comm.
Qed.

(** C21: However pixmaps are created, imported, drawn to, flipped and destroyed, as long as
    the system grants the locks of buffers, nothing is used after it was freed or given back
    twice, the process holds exactly the resources of its live buffers and the hardware buffers
    that were received in a format that is not accepted, and every pixmap has a buffer of its
    own, or none, whose lock it tracks: its address is stored exactly while the buffer is locked. *)
Theorem pixmaps_track_locks base ops s :
  pixmaps_ok base s -> pix_ops_ok ops s ->
  exists s', run_pix ops s = Some s' /\ pixmaps_ok (concat (map pix_leaks ops) ++ base) s'.
Proof. apply run_pix_ok. Qed.
End runs.

Lemma hold_root_locks index x s : rootLocks (hold_root index x s) =
  if (index =? EXA_PREPARE_DEST) && (screen_pixmap s =? x) then S (rootLocks s) else rootLocks s.
Proof. unfold hold_root. by destruct (_ && _). Qed.

(** The lock of the root window is left as it was entered. *)
Lemma leave_root_fields index x s t : screen_pixmap t = screen_pixmap s ->
  rootLocks t = rootLocks (hold_root index x s) ->
  rootLocks (leave_root index x t) = rootLocks s /\ privs (leave_root index x t) = privs t /\
  world (leave_root index x t) = world t /\ registered (leave_root index x t) = registered t /\
  root_pixmap (leave_root index x t) = root_pixmap t.
Proof.
  intros E1 E2. unfold leave_root. rewrite E1. rewrite hold_root_locks in E2.
  destruct (_ && _); cbn; by rewrite E2.
Qed.

Lemma unlock_eq r x u b t : privs t !! x = Some u -> buffer u <> 0 -> bufs (world t) !! buffer u = Some b ->
  Buffer.locked b <> 0 ->
  unlock_priv r x t = Some (set_world (set_bufs (<[buffer u := set_lock 0 0 b]> (bufs (world t))) (world t)) t).
Proof.
  intros Hu Hb0 Hb Hl. unfold unlock_priv, LorieBuffer_unlock, unlock_buffer. rewrite Hu. cbn [mbind option_bind].
  rewrite (proj2 (Z.eqb_neq (buffer u) 0)), Hb by done. cbn [mbind option_bind].
  by rewrite (proj2 (Z.eqb_neq (Buffer.locked b) 0)).
Qed.

(** Finishing an access that has locked the buffer. *)
Lemma finish_unlocks r x index u b t : privs t !! x = Some u -> wasLocked u = false -> buffer u <> 0 ->
  bufs (world t) !! buffer u = Some b -> Buffer.locked b <> 0 ->
  let t1 := leave_root index x t in
  privs t1 = privs t -> world t1 = world t ->
  lorieFinishAccess r x index t = Some (upd_priv x (set_wasLocked false (set_locked 0 u))
    (set_world (set_bufs (<[buffer u := set_lock 0 0 b]> (bufs (world t))) (world t)) t1)).
Proof.
  intros Hu Hw Hb0 Hb Hl t1 Ep Ew. unfold lorieFinishAccess. rewrite Hu. cbn [mbind option_bind]. rewrite Hw. cbn [negb].
  fold t1. rewrite (unlock_eq r x u b t1); [|by rewrite Ep|done|by rewrite Ew|done]. cbn [mbind option_bind].
  rewrite (put_two x u) by (cbn; by rewrite Ep). by rewrite Ew.
Qed.

(** Drawing on a pixmap finds its memory and leaves it as it was: [loriePrepareAccess]
    answers the memory of its buffer (locked for the occasion if need be) or the memory
    attached to it, the lock of the root window is held while the screen is drawn to, and
    [lorieFinishAccess] brings back the buffers, the resources, the pixmap's lock and the
    lock of the root window; no other pixmap is touched. *)
Theorem access_cycle base e r x index s v :
  pixmaps_ok base s -> privs s !! x = Some v -> buffer v <> 0 \/ mem v <> 0 -> grants e ->
  exists s1 s2 p, loriePrepareAccess e x index s = Some (true, s1) /\ lorieFinishAccess r x index s1 = Some s2 /\
    ptrs s1 !! x = Some p /\ p <> 0 /\
    (locked v <> 0 -> p = locked v) /\ (locked v = 0 -> mem v <> 0 -> p = mem v) /\
    (locked v = 0 -> mem v = 0 -> exists b, bufs (world s) !! buffer v = Some b /\ p = image e b) /\
    rootLocks s1 = (if (index =? EXA_PREPARE_DEST) && (screen_pixmap s =? x) then S (rootLocks s) else rootLocks s) /\
    rootLocks s2 = rootLocks s /\ bufs (world s2) = bufs (world s) /\ ledger (world s2) = ledger (world s) /\
    (exists f, privs s2 = <[x := set_wasLocked f v]> (privs s)).
Proof.
  intros H Hv Hmem Hg. pose proof (prepare_spec base e x index s v H Hv Hg) as Hs. cbn zeta in Hs.
  destruct (hold_root_fields index x s) as (Ew & Ep & _ & _ & _ & Esp).
  pose proof (hold_root_locks index x s) as Hlk.
  set (s0 := hold_root index x s) in *.
  destruct ((locked v =? 0) && (mem v =? 0)) eqn:E.
  - apply andb_true_iff in E as [El%Z.eqb_eq Em%Z.eqb_eq]. destruct Hmem as [Hb0|?]; [|done].
    rewrite (proj2 (Z.eqb_neq (buffer v) 0)) in Hs by done. destruct Hs as (b & Hb & Hlb & Hld & Hi & Hprep & Hok).
    set (s1 := prepared _ _ _ _) in Hprep.
    destruct (leave_root_fields index x s s1) as (L1 & L2 & L3 & _); [done|done|].
    eexists s1, _, (image e b). split; [exact Hprep|]. split.
    { apply (finish_unlocks r x index (set_wasLocked false (set_locked (image e b) v)) (set_lock 1 (image e b) b) s1);
        [apply upd_priv_lookup|done|done|by cbn; rewrite lookup_insert_eq|done|done|done]. }
    split_and!; try done; [by cbn; rewrite lookup_insert_eq|by eauto|..].
    + cbn. rewrite Ew, insert_insert_eq. apply insert_id. rewrite Hb. f_equal. destruct b; cbn in *. by subst.
    + cbn. by rewrite Ew.
    + exists false. cbn. rewrite L2. cbn. rewrite Ep, !insert_insert_eq. f_equal. destruct v; cbn in *. by subst.
  - set (s1 := prepared _ _ _ _) in Hs. destruct (leave_root_fields index x s s1) as (L1 & L2 & L3 & _); [done|done|].
    eexists s1, (leave_root index x s1), _. split; [exact Hs|]. split.
    { unfold lorieFinishAccess. change (privs s1) with (<[x:=set_wasLocked true v]> (privs s0)). by rewrite lookup_insert_eq. }
    split; [by cbn; rewrite lookup_insert_eq|]. apply andb_false_iff in E.
    rewrite L1, L2, L3. split_and!; try done.
    + destruct (Z.eqb_spec (locked v) 0); cbn [negb]; [|done]. destruct E as [?|?%Z.eqb_neq]; done.
    + intros Hl. by rewrite (proj2 (Z.eqb_neq (locked v) 0)).
    + intros El _. by rewrite El.
    + intros El Em. rewrite El, Em in E. by destruct E.
    + cbn. by rewrite Ew.
    + cbn. by rewrite Ew.
    + exists true. cbn. by rewrite Ep.
Qed.

(** C0: A pixmap made from a descriptor or from a hardware buffer has the buffer that was
    wrapped for it; when anything fails there is no pixmap and everything is given back,
    except a hardware buffer that was received in a format that is not accepted: nobody
    releases it. *)
Theorem loriePixmapFromFds_accounts page legacyDrawing flip DRM_FORMAT_MOD_INVALID base calloc_ok e q r x fd
    width height stride offset modifier s :
  pixmaps_ok base s -> privs s !! x = None -> fresh_struct e (world s) -> acceptable width height FORMAT_B8G8R8A8 = true ->
  (modifier = AHARDWAREBUFFER_SOCKET_FD \/ modifier = AHARDWAREBUFFER_FLIPPED_SOCKET_FD -> env_dup e < 0) ->
  exists ok s', loriePixmapFromFds page legacyDrawing flip DRM_FORMAT_MOD_INVALID calloc_ok e q r x [fd] width height
      [stride] [offset] modifier s = Some (ok, s') /\
    if ok then pixmaps_ok base s' /\ exists v, privs s' !! x = Some v /\ imported v = true /\ buffer v <> 0
    else pixmaps_ok (rejected DRM_FORMAT_MOD_INVALID calloc_ok q modifier ++ base) s' /\ privs s' !! x = None.
Proof.
  intros H Hx Hf Ha Hd.
  destruct (import_ok page legacyDrawing flip DRM_FORMAT_MOD_INVALID base calloc_ok e q r x fd width height stride offset
    [] [] modifier s H Hx Hf Ha Hd) as ([ok s'] & E & Hi). exists ok, s'. split; [done|]. by destruct ok; [destruct Hi|].
Qed.


(** ** Examples and witnesses *)

Definition empty_screen : Screen :=
  {| world := empty_world; privs := ∅; ptrs := ∅; screen_pixmap := 1; root_pixmap := 0; rootLocks := 0;
     conn_fd := 5; registered := []; sent := [] |}.

Lemma empty_screen_ok : pixmaps_ok [] empty_screen.
Proof.
  split; cbn.
  - apply empty_world_ok.
  - intros x v Hv. by rewrite lookup_empty in Hv.
  - intros x y v v' Hv. by rewrite lookup_empty in Hv.
  - intros x v Hv. by rewrite lookup_empty in Hv.
  - intros p Hp. by apply elem_of_nil in Hp.
  - by left.
Qed.

(** The pixmap 1 of the screen becomes the root window's; pixmap 2 with a plain buffer is
    drawn to, flipped to the screen and left again, and destroyed. *)
Definition env_at (p : Z) : BufEnv :=
  {| env_dup := -1; env_mmap := 0x7000; env_data := 0x100; env_struct := p; env_ashm := 8; env_memfd := -1;
     env_open := -1; env_setname := 0; env_setsize := 0; env_ahb_err := 0; env_ahb := 0x300 + p;
     env_describe := (64, 64, 64, 2); env_lock := (0, 0x9000 + p) |}.

Definition demo_pix_ops : list pix_op :=
  [OpCreate true (env_at 0x200) (env_at 0x200) 1 64 64 CREATE_PIXMAP_USAGE_LORIEBUFFER_BACKED;
   OpSetRoot 0 (env_at 0) 1; OpCreate true (env_at 0x400) (env_at 0x400) 2 64 64 0;
   OpPrepare (env_at 0) 2 EXA_PREPARE_DEST; OpFinish 0 2 EXA_PREPARE_DEST;
   OpFlip (env_at 0x500) (env_at 0x500) 64 2 64 64; OpSetRoot 0 (env_at 0) 2; OpSetRoot 0 (env_at 0) 1; OpDestroy 0 2].

(** A socket with a hardware buffer in format 3. *)
Definition bad_socket : SocketEnv :=
  {| se_fstat := 0; se_is_socket := true; se_write := 1; se_recv := 0; se_buffer := 0x600; se_describe := (64, 64, 64, 3) |}.

(** The same run after an import from that socket. *)
Definition import_pix_ops : list pix_op :=
  OpImport true (env_at 0x700) bad_socket 0 3 7 64 64 256 0 AHARDWAREBUFFER_SOCKET_FD :: demo_pix_ops.

(** The conditions of a run are checked by computation. *)
Ltac check_run :=
  repeat match goal with
  | |- True => exact I
  | |- _ /\ (forall s', pix_exec _ _ _ _ _ _ _ = Some s' -> _) =>
      split; [|let s := fresh in let H := fresh in intros s H; vm_compute in H; injection H as <-]
  end; cbn [pix_op_ok]; unfold fresh_struct, grants; split_and?; vm_compute; eauto; try discriminate; try tauto;
  try (split; [done|discriminate]); try (right; eauto); try (left; done).

Lemma demo_pix_ops_ok : pix_ops_ok 4096 false true false 7 demo_pix_ops empty_screen.
Proof. unfold demo_pix_ops. cbn [pix_ops_ok]. check_run. Qed.

Lemma import_demo_ops_ok : pix_ops_ok 4096 false true false 7 import_pix_ops empty_screen.
Proof. unfold import_pix_ops, demo_pix_ops. cbn [pix_ops_ok app]. check_run. Qed.

Lemma pixmaps_track_locks_witness :
  exists s', run_pix 4096 false true false 7 import_pix_ops empty_screen = Some s' /\ pixmaps_ok [RAhb 0x600] s'.
Proof.
  exact (pixmaps_track_locks 4096 false true false 7 [] import_pix_ops empty_screen empty_screen_ok import_demo_ops_ok).
Defined.

(** What the activity hears of the run: the flipped buffer, sent as an [AHardwareBuffer],
    and its removal. *)
Example demo_pix_ops_result :
  (fun s => (dom (privs s), dom (bufs (world s)), ledger (world s),
             map (fun m => match m with MAdd (b, h) => (dsc_id (desc b), h) | MRemove id => (id, None) end) (sent s)))
    <$> run_pix 4096 false true false 7 demo_pix_ops empty_screen
  = Some ({[1]}, {[0x200]}, [RAhb 0x500], [(1, Some 0x800); (1, None)]).
Proof. by vm_compute. Qed.

(** Pixmap 1 is the root window's; it is locked, or not. *)
Definition locked_ops : list pix_op :=
  [OpCreate true (env_at 0x200) (env_at 0x200) 1 64 64 CREATE_PIXMAP_USAGE_LORIEBUFFER_BACKED; OpSetRoot 0 (env_at 0) 1].
Definition unlocked_ops : list pix_op := locked_ops ++ [OpFinish 0 1 EXA_PREPARE_DEST].

Definition run_demo (ops : list pix_op) : Screen := default empty_screen (run_pix 4096 false true false 7 ops empty_screen).

Lemma run_demo_ok ops : pix_ops_ok 4096 false true false 7 ops empty_screen ->
  pixmaps_ok (concat (map (pix_leaks 7) ops) ++ []) (run_demo ops).
Proof.
  intros H. unfold run_demo.
  destruct (run_pix_ok 4096 false true false 7 [] ops empty_screen empty_screen_ok H) as (s & -> & Hs). done.
Qed.


Lemma unlocked_demo_ok : pixmaps_ok [] (run_demo unlocked_ops).
Proof. apply (run_demo_ok unlocked_ops). unfold unlocked_ops, locked_ops. cbn [pix_ops_ok app]. check_run. Qed.

Lemma env_at_grants p : 0 <= p -> grants (env_at p).
Proof. intros H. split; cbn; lia. Qed.

Lemma access_cycle_witness : exists s1 s2, loriePrepareAccess (env_at 1) 1 EXA_PREPARE_DEST (run_demo unlocked_ops) = Some (true, s1) /\
  lorieFinishAccess 0 1 EXA_PREPARE_DEST s1 = Some s2 /\ ptrs s1 !! 1 = Some 0x9001 /\ rootLocks s1 = 1%nat /\ rootLocks s2 = 0%nat.
Proof.
  destruct (access_cycle [] (env_at 1) 0 1 EXA_PREPARE_DEST (run_demo unlocked_ops) (set_buffer 0x200 new_priv) unlocked_demo_ok)
    as (s1 & s2 & p & E1 & E2 & Ep & _ & _ & _ & Hp & L1 & L2 & _).
  - vm_compute. reflexivity.
  - left. discriminate.
  - apply env_at_grants. lia.
  - exists s1, s2. destruct (Hp eq_refl eq_refl) as (b & Hb & Eq). vm_compute in Hb. injection Hb as <-.
    rewrite Ep, Eq, L1, L2. split_and!; [exact E1|exact E2|reflexivity..].
Defined.

Lemma loriePixmapFromFds_accounts_witness : exists s',
  loriePixmapFromFds 4096 false true 7 true (env_at 0x200) bad_socket 0 9 [4] 64 64 [256] [0] AHARDWAREBUFFER_SOCKET_FD empty_screen
    = Some (false, s') /\ pixmaps_ok [RAhb 0x600] s'.
Proof.
  destruct (loriePixmapFromFds_accounts 4096 false true 7 [] true (env_at 0x200) bad_socket 0 9 4 64 64 256 0
    AHARDWAREBUFFER_SOCKET_FD empty_screen empty_screen_ok) as (ok & s' & E & H).
  - reflexivity.
  - right. reflexivity.
  - reflexivity.
  - intros _. reflexivity.
  - exists s'. vm_compute in E. injection E as <- <-. split; [reflexivity|]. exact (proj1 H).
Defined.

Definition idle_shared : Shared :=
  {| waitForNextFrame := true; drawRequested := false; surfaceAvailable := true; rootWindowTextureID := 0;
     cursor_moved := false; cursor_updated := false; signals := 0 |}.


(** The root pixmap is read before the vblanks are served: when a flip replaces it
    meanwhile, the renderer is given the buffer of the old one (id 0), not of the new one (id 1). *)
Definition two_pixmaps : list pix_op :=
  locked_ops ++ [OpCreate true (env_at 0x400) (env_at 0x400) 2 64 64 CREATE_PIXMAP_USAGE_LORIEBUFFER_BACKED].

Example redraw_shows_old_root :
  exists pr sh s, lorieRedraw 1 demo_reaction (set_root_pixmap 2) 3 true true 0 (env_at 2) demo_present idle_shared
      (run_demo two_pixmaps) = Some (Some (pr, sh, false, s)) /\
    root_pixmap s = 2 /\ rootWindowTextureID sh = 0 /\
    (v ← privs s !! 2; dsc_id <$> LorieBuffer_description (buffer v) (world s)) = Some 1.
Proof. eexists _, _, _. split; [by vm_compute|]. by vm_compute. Qed.
