(* ===== verification/WindowTree.v ===== *)
(** * Walks over the window tree ([xserver/dix/window.c])

    Windows are linked by the first child, the next sibling and the parent. [TraverseTree]
    visits them without recursion: it goes down to the children, along the siblings, and up
    again by the parents until it is back at the window where it started. *)

From S2P Require Import Prelude.

(** ** Data *)

(** The links of a [WindowRec]; 0 is NULL. *)
Record WindowLinks := { parent : Z; nextSib : Z; firstChild : Z }.

(** What a visitor answers. *)
Inductive walk_result := WT_STOPWALKING | WT_WALKCHILDREN | WT_DONTWALKCHILDREN | WT_NOMATCH.

Definition walks_children (r : walk_result) : bool := if r is WT_WALKCHILDREN then true else false.
Definition stops (r : walk_result) : bool := if r is WT_STOPWALKING then true else false.

Section traverse.
(** The windows, and the visitor, which may change anything else. *)
Context (windows : gmap Z WindowLinks) {S : Type} (func : Z -> S -> option (walk_result * S)).

(** The inner loop: up to a window with a sibling, or to [pWin]. *)
Fixpoint climb (fuel : nat) (pWin pChild : Z) : option Z :=
  match fuel with
  | O => None
  | Datatypes.S fuel =>
      w ← windows !! pChild;
      if (nextSib w =? 0) && negb (pChild =? pWin) then climb fuel pWin (parent w) else Some pChild
  end.

(** The outer loop; [height] is the fuel of the inner one. *)
Fixpoint traverse_loop (height fuel : nat) (pWin pChild : Z) (s : S) : option (walk_result * S) :=
  match fuel with
  | O => None
  | Datatypes.S fuel =>
      '(r : walk_result * S) ← func pChild s;
      let '(result, s) := r in
      if stops result then Some (WT_STOPWALKING, s)
      else
        w ← windows !! pChild;
        if walks_children result && negb (firstChild w =? 0) then traverse_loop height fuel pWin (firstChild w) s
        else
          '(pChild : Z) ← climb height pWin pChild;
          if pChild =? pWin then Some (WT_NOMATCH, s)
          else w ← windows !! pChild; traverse_loop height fuel pWin (nextSib w) s
  end.

Definition TraverseTree (fuel : nat) (pWin : Z) (s : S) : option (walk_result * S) :=
  if pWin =? 0 then Some (WT_NOMATCH, s) else traverse_loop fuel fuel pWin pWin s.

(** ** The tree behind the links *)

(** A window with its children, and the siblings behind it. *)
Inductive forest := NoWindow | Win (id : Z) (children siblings : forest).

Definition head_id (f : forest) : Z := if f is Win id _ _ then id else 0.

Fixpoint ids (f : forest) : list Z :=
  match f with NoWindow => [] | Win id ch sib => id :: ids ch ++ ids sib end.

Fixpoint levels (f : forest) : nat :=
  match f with NoWindow => 0 | Win _ ch sib => Nat.max (Datatypes.S (levels ch)) (levels sib) end.

(** The links are those of the forest below [p]. *)
Fixpoint represents (p : Z) (f : forest) : Prop :=
  match f with
  | NoWindow => True
  | Win id ch sib =>
      id <> 0 /\ windows !! id = Some {| parent := p; nextSib := head_id sib; firstChild := head_id ch |} /\
      represents id ch /\ represents p sib
  end.

(** The recursive walk, in which every window comes before its children and these before
    its siblings; the result says whether it was stopped. *)
Fixpoint visit (f : forest) (s : S) : option (bool * S) :=
  match f with
  | NoWindow => Some (false, s)
  | Win id ch sib =>
      '(r : walk_result * S) ← func id s;
      let '(result, s) := r in
      if stops result then Some (true, s)
      else
        '(r : bool * S) ← (if walks_children result then visit ch s else Some (false, s));
        let '(stopped, s) := r in
        if stopped then Some (true, s) else visit sib s
  end.

(** ** The loop is the recursive walk *)

Lemma climb_mono n m pWin c d : climb n pWin c = Some d -> (n <= m)%nat -> climb m pWin c = Some d.
Proof.
  revert m c. induction n as [|n IH]; intros m c E Hle; [done|]. destruct m as [|m]; [lia|]. cbn [climb] in *.
  destruct (windows !! c) as [w|]; [cbn [mbind option_bind] in *|done].
  destruct (_ && _); [|done]. apply IH; [done|lia].
Qed.

Lemma loop_mono h n m pWin c s r : traverse_loop h n pWin c s = Some r -> (n <= m)%nat ->
  traverse_loop h m pWin c s = Some r.
Proof.
  revert m c s. induction n as [|n IH]; intros m c s E Hle; [done|]. destruct m as [|m]; [lia|]. cbn [traverse_loop] in *.
  destruct (func c s) as [[res s1]|]; [cbn [mbind option_bind] in *|done]. destruct (stops res); [done|].
  destruct (windows !! c) as [w|]; [cbn [mbind option_bind] in *|done].
  destruct (_ && _); [apply IH; [done|lia]|].
  destruct (climb h pWin c) as [d|]; [cbn [mbind option_bind] in *|done]. destruct (d =? pWin); [done|].
  destruct (windows !! d); [cbn [mbind option_bind] in *|done]. apply IH; [done|lia].
Qed.

(** What is left to do at [c], where the inner loop has arrived. *)
Definition go_on (height fuel : nat) (pWin c : Z) (s : S) : option (walk_result * S) :=
  if c =? pWin then Some (WT_NOMATCH, s)
  else w ← windows !! c; traverse_loop height fuel pWin (nextSib w) s.

Lemma go_on_mono h n m pWin c s r : go_on h n pWin c s = Some r -> (n <= m)%nat -> go_on h m pWin c s = Some r.
Proof.
  unfold go_on. destruct (c =? pWin); [done|]. destruct (windows !! c); [cbn [mbind option_bind]|done]. apply loop_mono.
Qed.

(** What the walk over [f] leads to, [c] being the window where the inner loop stops when it
    starts at the parent of [f]. *)
Definition leads (height fuel : nat) (pWin c : Z) (f : forest) (s : S) (out : option (walk_result * S)) : Prop :=
  match visit f s with
  | Some (true, s') => out = Some (WT_STOPWALKING, s')
  | Some (false, s') => forall r, go_on height fuel pWin c s' = Some r -> out = Some r
  | None => True
  end.

(** The end of the children of [id], or of [id] itself. *)
Lemma climb_node pWin p id ch sib j c : represents p (Win id ch sib) -> id <> pWin -> climb j pWin p = Some c ->
  climb (Datatypes.S j) pWin id = Some (if sib is NoWindow then c else id).
Proof.
  intros (_ & E & _ & Hs) Hid Hc. cbn [climb]. rewrite E. cbn [mbind option_bind nextSib parent].
  destruct sib as [|id2 ch2 sib2]; cbn [head_id].
  - by rewrite (proj2 (Z.eqb_neq id pWin)).
  - destruct Hs as (H0 & _). by rewrite (proj2 (Z.eqb_neq id2 0)).
Qed.

Lemma loop_visits h pWin f : forall p j k c s, represents p f -> f <> NoWindow -> pWin ∉ ids f ->
  (levels f + j <= h)%nat -> climb j pWin p = Some c ->
  leads h k pWin c f s (traverse_loop h (length (ids f) + k) pWin (head_id f) s).
Proof.
  induction f as [|id ch IHc sib IHs]; intros p j k c s Hr Hf Hids Hh Hc; [done|].
  cbn [ids] in Hids. apply not_elem_of_cons in Hids as [Hid Hids]. apply not_elem_of_app in Hids as [Hic His].
  pose proof (climb_node pWin p id ch sib j c Hr (not_eq_sym Hid) Hc) as Hcl.
  destruct Hr as (H0 & E & Hrc & Hrs). cbn [levels] in Hh. unfold leads. cbn [visit head_id ids length Nat.add traverse_loop].
  destruct (func id s) as [[res s1]|]; cbn [mbind option_bind]; [|done]. destruct (stops res); [done|].
  rewrite E. cbn [mbind option_bind firstChild]. rewrite length_app.
  (* the siblings, with any fuel from [k] on *)
  assert (Hsib : forall s2 n, (length (ids sib) + k <= n)%nat ->
    match visit sib s2 with
    | Some (true, s') => go_on h n pWin (if sib is NoWindow then c else id) s2 = Some (WT_STOPWALKING, s')
    | Some (false, s') => forall r, go_on h k pWin c s' = Some r -> go_on h n pWin (if sib is NoWindow then c else id) s2 = Some r
    | None => True
    end).
  { intros s2 n Hn. destruct sib as [|id2 ch2 sib2].
    { cbn [visit]. intros r Hg. apply (go_on_mono h k); [done|cbn in Hn; lia]. }
    pose proof (IHs p j k c s2 Hrs ltac:(done) His ltac:(lia) Hc) as IH. unfold leads in IH.
    assert (Eg : forall m, go_on h m pWin id s2 = traverse_loop h m pWin id2 s2).
    { intros m. unfold go_on. rewrite (proj2 (Z.eqb_neq id pWin)), E by done. done. }
    rewrite Eg. destruct (visit (Win id2 ch2 sib2) s2) as [[[] s3]|]; [by apply (loop_mono h _ _ _ _ _ _ IH)| |done].
    intros r Hg. by apply (loop_mono h _ _ _ _ _ _ (IH r Hg)). }
  (* without a walk over the children *)
  assert (Hskip : forall n, (length (ids sib) + k <= n)%nat -> leads h k pWin c sib s1
    ('(d : Z) ← climb h pWin id; if d =? pWin then Some (WT_NOMATCH, s1) else w ← windows !! d; traverse_loop h n pWin (nextSib w) s1)).
  { intros n Hn. rewrite (climb_mono _ _ _ _ _ Hcl) by lia. exact (Hsib s1 n Hn). }
  destruct (walks_children res) eqn:Ew; cbn [andb mbind option_bind]; [|apply Hskip; lia].
  destruct ch as [|idc chc sibc] eqn:Ech; [cbn [head_id visit Z.eqb negb mbind option_bind]; apply Hskip; lia|].
  rewrite <- Ech in *. assert (Hc0 : head_id ch <> 0) by (subst ch; apply Hrc).
  rewrite (proj2 (Z.eqb_neq _ _) Hc0). cbn [negb].
  pose proof (IHc id (Datatypes.S j) (length (ids sib) + k)%nat _ s1 Hrc ltac:(by subst ch) Hic ltac:(lia) Hcl) as IH.
  unfold leads in IH. rewrite <- Nat.add_assoc.
  destruct (visit ch s1) as [[[] s2]|]; cbn [mbind option_bind]; [done| |done].
  specialize (Hsib s2 _ (Nat.le_refl _)). destruct (visit sib s2) as [[[] s3]|]; [by apply IH| |done].
  intros r Hg. apply IH. by apply Hsib.
Qed.

Lemma levels_ids f : (levels f <= length (ids f))%nat.
Proof. induction f; cbn [levels ids length]; [lia|]. rewrite length_app. lia. Qed.

(** The walk below the window [id] with the children [ch], whatever is beside and above it. *)
Lemma TraverseTree_visits fuel id ch p sib s : id <> 0 ->
  windows !! id = Some {| parent := p; nextSib := sib; firstChild := head_id ch |} ->
  represents id ch -> id ∉ ids ch -> (Datatypes.S (length (ids ch)) < fuel)%nat ->
  forall stopped s', visit (Win id ch NoWindow) s = Some (stopped, s') ->
  TraverseTree fuel id s = Some (if stopped then WT_STOPWALKING else WT_NOMATCH, s').
Proof.
  intros H0 E Hr Hid Hf stopped s' Hv. unfold TraverseTree. rewrite (proj2 (Z.eqb_neq id 0)) by done.
  destruct fuel as [|fuel]; [lia|]. cbn [visit traverse_loop] in *.
  destruct (func id s) as [[res s1]|]; cbn [mbind option_bind] in *; [|done].
  destruct (stops res); [by injection Hv as <- <-|]. rewrite E. cbn [mbind option_bind firstChild].
  assert (Htop : forall n, climb (Datatypes.S n) id id = Some id).
  { intros n. cbn [climb]. rewrite E. cbn [mbind option_bind]. by rewrite Z.eqb_refl, andb_false_r. }
  assert (Hend : forall h k s2, go_on h k id id s2 = Some (WT_NOMATCH, s2)) by (intros; unfold go_on; by rewrite Z.eqb_refl).
  destruct (walks_children res) eqn:Ew; cbn [andb mbind option_bind] in *.
  2: { rewrite Htop. cbn [mbind option_bind]. rewrite Z.eqb_refl. by injection Hv as <- <-. }
  destruct ch as [|idc chc sibc] eqn:Ech.
  { cbn [head_id Z.eqb negb visit mbind option_bind] in *. rewrite Htop. cbn [mbind option_bind]. rewrite Z.eqb_refl.
    by injection Hv as <- <-. }
  rewrite <- Ech in *. assert (Hc0 : head_id ch <> 0) by (subst ch; apply Hr).
  rewrite (proj2 (Z.eqb_neq _ _) Hc0). cbn [negb]. pose proof (levels_ids ch).
  pose proof (loop_visits (Datatypes.S fuel) id ch id 1 0 id s1 Hr ltac:(by subst ch) Hid ltac:(lia) (Htop 0%nat)) as L.
  unfold leads in L. destruct (visit ch s1) as [[[] s2]|]; cbn [mbind option_bind] in Hv; [| |done]; injection Hv as <- <-.
  - apply (loop_mono _ _ _ _ _ _ _ L). lia.
  - apply (loop_mono _ _ _ _ _ _ _ (L _ (Hend _ _ _))). lia.
Qed.

End traverse.

(** ** Facts of the tree *)

Section tree.
Context (windows : gmap Z WindowLinks).

Lemma represents_parent p f x : represents windows p f -> x ∈ ids f ->
  exists l, windows !! x = Some l /\ (parent l = p \/ parent l ∈ ids f).
Proof.
  revert p. induction f as [|id ch IHc sib IHs]; intros p; cbn [represents ids]; [by intros _ ?%elem_of_nil|].
  intros (_ & E & Hc & Hs). rewrite elem_of_cons, elem_of_app. intros [->|[Hx|Hx]].
  - eexists. split; [done|]. by left.
  - destruct (IHc id Hc Hx) as (l & El & Hl). exists l. split; [done|]. right. rewrite elem_of_cons, elem_of_app. tauto.
  - destruct (IHs p Hs Hx) as (l & El & Hl). exists l. split; [done|]. rewrite elem_of_cons, elem_of_app. tauto.
Qed.

(** What holds at the top and goes from parents to children holds everywhere. *)
Lemma tree_ind_parent (P : Z -> Prop) p f : represents windows p f -> P p ->
  (forall x l, x ∈ ids f -> windows !! x = Some l -> P (parent l) -> P x) -> forall x, x ∈ ids f -> P x.
Proof.
  revert p. induction f as [|id ch IHc sib IHs]; intros p; cbn [represents ids]; [by intros _ _ _ x ?%elem_of_nil|].
  intros (_ & E & Hc & Hs) Hp Hstep. assert (P id) as Hid.
  { apply (Hstep id _ ltac:(by left) E). done. }
  intros x. rewrite elem_of_cons, elem_of_app. intros [->|[Hx|Hx]]; [done| |].
  - apply (IHc id Hc Hid); [|done]. intros y l Hy. apply Hstep. rewrite elem_of_cons, elem_of_app. tauto.
  - apply (IHs p Hs Hp); [|done]. intros y l Hy. apply Hstep. rewrite elem_of_cons, elem_of_app. tauto.
Qed.

(** Every window of the tree has a tree of its own, with all of its descendants. *)
Lemma subtree p f x : represents windows p f -> NoDup (ids f) -> x ∈ ids f ->
  exists ch l, x <> 0 /\ windows !! x = Some l /\ firstChild l = head_id ch /\ represents windows x ch /\
    NoDup (x :: ids ch) /\ (forall y, y ∈ (x :: ids ch) -> y ∈ ids f) /\
    (p ∉ ids f -> forall y w, y ∈ ids f -> windows !! y = Some w -> parent w ∈ (x :: ids ch) -> y ∈ ids ch).
Proof.
  revert p. induction f as [|id ch IHc sib IHs]; intros p; cbn [represents ids]; [by intros _ _ ?%elem_of_nil|].
  intros (H0 & E & Hc & Hs) [Hid Hn]%NoDup_cons. apply NoDup_app in Hn as (Hnc & Hncs & Hns).
  assert (Hpar : forall q g y w, represents windows q g -> y ∈ ids g -> windows !! y = Some w -> parent w = q \/ parent w ∈ ids g).
  { intros q g y w Hg Hy Ew. destruct (represents_parent q g y Hg Hy) as (w' & Ew' & H). congruence. }
  rewrite elem_of_app in Hid. rewrite elem_of_cons, elem_of_app. intros [->|[Hx|Hx]].
  - exists ch. eexists. split; [done|split; [done|split; [done|split; [done|split; [|split]]]]].
    + apply NoDup_cons. tauto.
    + intros y. rewrite !elem_of_cons, elem_of_app. tauto.
    + rewrite elem_of_cons, elem_of_app. intros Hp y w Hy Ew. rewrite elem_of_cons in Hy |- *. rewrite elem_of_app in Hy.
      destruct Hy as [->|[Hy|Hy]]; [|done|].
      * rewrite E in Ew. injection Ew as <-. cbn [parent]. tauto.
      * destruct (Hpar p sib y w Hs Hy Ew) as [->|Hq]; [tauto|]. intros [Hq'|Hq']; [rewrite Hq' in Hq; tauto|by destruct (Hncs (parent w))].
  - destruct (IHc id Hc Hnc Hx) as (chx & l & ? & ? & ? & ? & ? & Hin & Hcl). exists chx, l.
    split_and!; try done.
    + intros y Hy%Hin. rewrite elem_of_cons, elem_of_app. tauto.
    + rewrite elem_of_cons, elem_of_app. intros Hp y w Hy Ew Hq. apply elem_of_cons in Hy as [->|[Hy|Hy]%elem_of_app].
      * rewrite E in Ew. injection Ew as <-. cbn [parent] in Hq. apply Hin in Hq. tauto.
      * by apply (Hcl ltac:(tauto) y w).
      * apply Hin in Hq. destruct (Hpar p sib y w Hs Hy Ew) as [Hq'|Hq']; [rewrite Hq' in Hq; tauto|by destruct (Hncs (parent w))].
  - destruct (IHs p Hs Hns Hx) as (chx & l & ? & ? & ? & ? & ? & Hin & Hcl). exists chx, l.
    split_and!; try done.
    + intros y Hy%Hin. rewrite elem_of_cons, elem_of_app. tauto.
    + rewrite elem_of_cons, elem_of_app. intros Hp y w Hy Ew Hq. apply elem_of_cons in Hy as [->|[Hy|Hy]%elem_of_app].
      * rewrite E in Ew. injection Ew as <-. cbn [parent] in Hq. apply Hin in Hq. tauto.
      * apply Hin in Hq. destruct (Hpar id ch y w Hc Hy Ew) as [Hq'|Hq']; [rewrite Hq' in Hq; tauto|by destruct (Hncs (parent w))].
      * by apply (Hcl ltac:(tauto) y w).
Qed.

Lemma ids_bound l : NoDup l -> (forall x, x ∈ l -> is_Some (windows !! x)) -> (length l <= size windows)%nat.
Proof.
  intros Hn Hl. rewrite <- size_dom. rewrite <- (size_list_to_set (C := gset Z) l Hn).
  apply subseteq_size. intros x Hx%elem_of_list_to_set. by apply elem_of_dom, Hl.
Qed.

(** ** Walks that replace a value *)

Section replace.
(** A visitor that replaces [old] by [new] and walks on below the windows where it did. *)
Context {S : Type} (func : Z -> S -> option (walk_result * S)) (value : S -> Z -> Z) (inv : S -> Prop).
Context (old new : Z) (scope : Z -> Prop).

Definition replaces : Prop := forall w s, inv s -> scope w ->
  if value s w =? old then
    exists s', func w s = Some (WT_WALKCHILDREN, s') /\ inv s' /\
      forall x, value s' x = if x =? w then new else value s x
  else func w s = Some (WT_DONTWALKCHILDREN, s).

Hypothesis old_new : old <> new.
Hypothesis func_ok : replaces.

(** Only windows of [l] change, from [old] to [new]. *)
Definition changes (l : list Z) (s s' : S) : Prop :=
  forall x, value s' x = value s x \/ value s x = old /\ value s' x = new /\ x ∈ l.

Lemma changes_trans l1 l2 l s1 s2 s3 : changes l1 s1 s2 -> changes l2 s2 s3 ->
  (forall x, x ∈ l1 \/ x ∈ l2 -> x ∈ l) -> changes l s1 s3.
Proof.
  intros H1 H2 Hl x. destruct (H1 x) as [E1|(A1 & B1 & C1)], (H2 x) as [E2|(A2 & B2 & C2)].
  - left. congruence.
  - right. rewrite <- E1. auto.
  - right. rewrite E2. auto.
  - congruence.
Qed.

Lemma changes_outside l s s' x : changes l s s' -> x ∉ l -> value s' x = value s x.
Proof. intros H Hx. by destruct (H x) as [|(_ & _ & ?)]. Qed.

Lemma changes_new l s s' x : changes l s s' -> value s x = new -> value s' x = new.
Proof. intros H Hx. destruct (H x) as [|(? & ? & _)]; congruence. Qed.

(** The children of a window that was changed are changed if they had the same value. *)
Definition follows (p : Z) (l : list Z) (s s' : S) : Prop :=
  forall x w, x ∈ l -> windows !! x = Some w -> value s x = old ->
    parent w = p \/ value s (parent w) = old /\ value s' (parent w) = new -> value s' x = new.

Lemma visit_replaces f : forall p s, represents windows p f -> NoDup (p :: ids f) -> inv s ->
  (forall x, x ∈ ids f -> scope x) ->
  exists s', visit func f s = Some (false, s') /\ inv s' /\ changes (ids f) s s' /\ follows p (ids f) s s'.
Proof.
  induction f as [|id ch IHc sib IHs]; intros p s Hr Hn Hi Hsc.
  { exists s. split; [done|split; [done|split]]; [by left|by intros x w ?%elem_of_nil]. }
  destruct Hr as (H0 & E & Hrc & Hrs). cbn [ids] in Hn, Hsc |- *.
  apply NoDup_cons in Hn as [Hp Hn]. apply NoDup_cons in Hn as [Hid Hn]. apply NoDup_app in Hn as (Hnc & Hncs & Hns).
  rewrite elem_of_cons, elem_of_app in Hp. rewrite elem_of_app in Hid. cbn [visit].
  assert (NoDup (id :: ids ch) /\ NoDup (p :: ids sib)) as [Hn1 Hn2] by (rewrite !NoDup_cons; tauto).
  assert (Hpar : forall x w, x ∈ ids ch -> windows !! x = Some w -> parent w = id \/ parent w ∈ ids ch).
  { intros x w Hx Ew. destruct (represents_parent id ch x Hrc Hx) as (w' & Ew' & H). congruence. }
  assert (Hpars : forall x w, x ∈ ids sib -> windows !! x = Some w -> parent w = p \/ parent w ∈ ids sib).
  { intros x w Hx Ew. destruct (represents_parent p sib x Hrs Hx) as (w' & Ew' & H). congruence. }
  pose proof (func_ok id s Hi ltac:(apply Hsc; by left)) as Hfn. destruct (Z.eqb_spec (value s id) old) as [Ho|Ho].
  - destruct Hfn as (s1 & -> & Hi1 & Hv1). cbn [mbind option_bind stops walks_children].
    assert (C1 : changes [id] s s1).
    { intros x. rewrite Hv1. destruct (Z.eqb_spec x id) as [->|]; [right; split; [done|split; [done|by left]]|by left]. }
    destruct (IHc id s1 Hrc Hn1 Hi1) as (s2 & -> & Hi2 & C2 & F2).
    { intros x Hx. apply Hsc. right. apply elem_of_app. by left. }
    cbn [mbind option_bind].
    destruct (IHs p s2 Hrs Hn2 Hi2) as (s3 & -> & Hi3 & C3 & F3).
    { intros x Hx. apply Hsc. right. apply elem_of_app. by right. }
    exists s3. split; [done|split; [done|]].
    assert (C12 : changes (id :: ids ch) s s2).
    { apply (changes_trans _ _ _ _ _ _ C1 C2). intros x. rewrite list_elem_of_singleton, elem_of_cons. done. }
    split.
    { apply (changes_trans _ _ _ _ _ _ C12 C3). intros x. rewrite !elem_of_cons, elem_of_app. tauto. }
    intros x w Hx Ew Hxo Hpw. apply elem_of_cons in Hx as [->|[Hx|Hx]%elem_of_app].
    + apply (changes_new _ _ _ _ C3), (changes_new _ _ _ _ C2). rewrite Hv1. by rewrite Z.eqb_refl.
    + apply (changes_new _ _ _ _ C3). apply (F2 x w Hx Ew).
      { rewrite Hv1. destruct (Z.eqb_spec x id) as [->|]; [|done]. destruct Hid. by left. }
      destruct (Hpar x w Hx Ew) as [|Hw]; [by left|right]. destruct Hpw as [Hpw|[H1 H2]]; [rewrite Hpw in Hw; destruct Hp; tauto|].
      rewrite (changes_outside _ _ _ _ C3) in H2 by (intros ?; by apply (Hncs (parent w))). split; [|done].
      rewrite Hv1. destruct (Z.eqb_spec (parent w) id) as [Ew'|]; [|done]. rewrite Ew' in Hw. destruct Hid. by left.
    + assert (Hout : forall y, y ∈ ids sib -> value s2 y = value s y).
      { intros y Hy. apply (changes_outside _ _ _ _ C12). intros [->|Hc]%elem_of_cons; [destruct Hid; by right|by apply (Hncs y)]. }
      apply (F3 x w Hx Ew); [by rewrite Hout|]. destruct (Hpars x w Hx Ew) as [|Hw]; [by left|].
      destruct Hpw as [?|[H1 H2]]; [by left|right]. by rewrite Hout.
  - rewrite Hfn. cbn [mbind option_bind stops walks_children].
    destruct (IHs p s Hrs Hn2 Hi) as (s3 & -> & Hi3 & C3 & F3).
    { intros x Hx. apply Hsc. right. apply elem_of_app. by right. }
    exists s3. split; [done|split; [done|split]].
    { intros x. destruct (C3 x) as [|(? & ? & ?)]; [by left|right]. rewrite elem_of_cons, elem_of_app. tauto. }
    intros x w Hx Ew Hxo Hpw. apply elem_of_cons in Hx as [->|[Hx|Hx]%elem_of_app]; [done| |].
    + destruct Hpw as [Hpw|[H1 H2]]; [destruct (Hpar x w Hx Ew) as [Hq|Hq]; rewrite Hpw in Hq; destruct Hp; tauto|].
      destruct (Hpar x w Hx Ew) as [Hq|Hq]; [rewrite Hq in H1; done|].
      rewrite (changes_outside _ _ _ _ C3) in H2 by (intros ?; by apply (Hncs (parent w))). congruence.
    + apply (F3 x w Hx Ew Hxo). done.
Qed.

(** The walk below a window [top] of the tree. *)
Lemma TraverseTree_replaces fuel top l ch s : top <> 0 -> windows !! top = Some l -> firstChild l = head_id ch ->
  represents windows top ch -> NoDup (top :: ids ch) -> (length (ids ch) + 1 < fuel)%nat -> inv s ->
  (forall x, x ∈ (top :: ids ch) -> scope x) ->
  exists s', TraverseTree windows func fuel top s = Some (WT_NOMATCH, s') /\ inv s' /\ changes (top :: ids ch) s s' /\
    (value s top = old -> value s' top = new) /\
    forall x w, x ∈ ids ch -> windows !! x = Some w -> value s x = old -> value s (parent w) = old ->
      value s' (parent w) = new -> value s' x = new.
Proof.
  intros H0 E Ef Hr Hn Hfuel Hi Hsc.
  assert (Hlinks : windows !! top = Some {| parent := parent l; nextSib := nextSib l; firstChild := head_id ch |})
    by (rewrite E, <- Ef; by destruct l).
  assert (Hvisit : forall s', visit func (Win top ch NoWindow) s = Some (false, s') ->
    TraverseTree windows func fuel top s = Some (WT_NOMATCH, s')).
  { intros s' Hv. apply NoDup_cons in Hn as [Hnt _].
    exact (TraverseTree_visits windows func fuel top ch _ _ s H0 Hlinks Hr Hnt ltac:(lia) false s' Hv). }
  cbn [visit] in Hvisit. pose proof (func_ok top s Hi ltac:(apply Hsc; by left)) as Hfn.
  destruct (Z.eqb_spec (value s top) old) as [Ho|Ho].
  - destruct Hfn as (s1 & Ef1 & Hi1 & Hv1). rewrite Ef1 in Hvisit. cbn [mbind option_bind stops walks_children] in Hvisit.
    destruct (visit_replaces ch top s1 Hr Hn Hi1) as (s2 & Ev & Hi2 & C2 & F2).
    { intros x Hx. apply Hsc. by right. }
    rewrite Ev in Hvisit. cbn [mbind option_bind] in Hvisit. exists s2. split; [by apply Hvisit|]. split; [done|].
    apply NoDup_cons in Hn as [Hnt _]. split; [|split].
    + apply (changes_trans [top] (ids ch) _ s s1 s2); [|done|intros x; rewrite list_elem_of_singleton, elem_of_cons; done].
      intros x. rewrite Hv1. destruct (Z.eqb_spec x top) as [->|]; [right; split; [done|split; [done|by left]]|by left].
    + intros _. apply (changes_new _ _ _ _ C2). rewrite Hv1. by rewrite Z.eqb_refl.
    + intros x w Hx Ew Hxo Hpo Hpn. assert (x <> top) by (intros ->; done).
      apply (F2 x w Hx Ew); [rewrite Hv1; by rewrite (proj2 (Z.eqb_neq x top))|].
      destruct (Z.eqb_spec (parent w) top) as [|Hne]; [by left|right]. split; [|done].
      rewrite Hv1. by rewrite (proj2 (Z.eqb_neq (parent w) top)).
  - rewrite Hfn in Hvisit. cbn [mbind option_bind stops walks_children] in Hvisit. exists s.
    split; [by apply Hvisit|]. split; [done|]. split; [by left|]. split; [done|]. congruence.
Qed.

End replace.
End tree.

(** C16: Started at any window of a tree, [TraverseTree] comes to its end within as many
    rounds as there are windows, and does what the recursive walk over this window and its
    descendants does: each window before its children, these in the order of the
    siblings, none where the visitor does not ask for them, until it stops the walk. *)
Theorem TraverseTree_is_preorder {S} windows (func : Z -> S -> option (walk_result * S)) p f x s :
  represents windows p f -> NoDup (ids f) -> x ∈ ids f ->
  exists ch, represents windows x ch /\ (forall y, y ∈ ids ch -> y ∈ ids f) /\
    forall fuel stopped s', (size windows < fuel)%nat -> visit func (Win x ch NoWindow) s = Some (stopped, s') ->
    TraverseTree windows func fuel x s = Some (if stopped then WT_STOPWALKING else WT_NOMATCH, s').
Proof.
  intros Hr Hn Hx. destruct (subtree windows p f x Hr Hn Hx) as (ch & l & H0 & E & Ef & Hrc & Hnc & Hin & _).
  exists ch. split; [done|]. split; [intros y Hy; apply Hin; by right|]. intros fuel stopped s' Hfuel Hv.
  pose proof (ids_bound windows (x :: ids ch) Hnc) as Hb. cbn [length] in Hb.
  assert (forall y, y ∈ (x :: ids ch) -> is_Some (windows !! y)) as Hlive.
  { intros y [->|Hy]%elem_of_cons; [by eexists|]. destruct (represents_parent windows p f y Hr ltac:(apply Hin; by right)) as (w & -> & _). by eexists. }
  specialize (Hb Hlive). apply NoDup_cons in Hnc as [Hnx _].
  apply (TraverseTree_visits windows func fuel x ch (parent l) (nextSib l) s); try done; [|lia].
  rewrite E, <- Ef. by destruct l.
Qed.

(** ** On a concrete tree *)

(** Window 1 has the children 2 and 5, window 2 the children 3 and 4; the visitor logs the
    windows and does not look below 2. *)
Definition demo_forest : forest := Win 1 (Win 2 (Win 3 NoWindow (Win 4 NoWindow NoWindow)) (Win 5 NoWindow NoWindow)) NoWindow.

Definition demo_windows : gmap Z WindowLinks :=
  {[ 1 := {| parent := 0; nextSib := 0; firstChild := 2 |}; 2 := {| parent := 1; nextSib := 5; firstChild := 3 |};
     3 := {| parent := 2; nextSib := 4; firstChild := 0 |}; 4 := {| parent := 2; nextSib := 0; firstChild := 0 |};
     5 := {| parent := 1; nextSib := 0; firstChild := 0 |} ]}.

Definition log_all (w : Z) (s : list Z) : option (walk_result * list Z) := Some (WT_WALKCHILDREN, s ++ [w]).
Definition log_above (w : Z) (s : list Z) : option (walk_result * list Z) :=
  Some (if w =? 2 then WT_DONTWALKCHILDREN else WT_WALKCHILDREN, s ++ [w]).

Example demo_walks : TraverseTree demo_windows log_all 6 1 [] = Some (WT_NOMATCH, [1; 2; 3; 4; 5]) /\
  TraverseTree demo_windows log_above 6 1 [] = Some (WT_NOMATCH, [1; 2; 5]).
Proof. split; vm_compute; reflexivity. Qed.

Lemma TraverseTree_is_preorder_witness : exists ch, represents demo_windows 2 ch /\
  forall s', visit log_all (Win 2 ch NoWindow) [] = Some (false, s') ->
  TraverseTree demo_windows log_all 6 2 [] = Some (WT_NOMATCH, s').
Proof.
  destruct (TraverseTree_is_preorder demo_windows log_all 0 demo_forest 2 []) as (ch & Hr & _ & H).
  - repeat split; try discriminate; vm_compute; reflexivity.
  - cbn [demo_forest ids app]. repeat (apply NoDup_cons; split; [rewrite ?elem_of_cons, elem_of_nil; intros ?; lia|]). apply NoDup_nil. exact I.
  - cbn [demo_forest ids app]. rewrite !elem_of_cons. tauto.
  - exists ch. split; [exact Hr|]. intros s' Hv. apply (H 6%nat false s'); [vm_compute; lia|exact Hv].
Defined.
