(* ===== verification/ScreenSize.v ===== *)
(** * Resizing the screen ([lorie/InitOutput.c], [xserver/present], [xserver/exa])

    A screen of another size needs another pixmap. [lorieRRScreenSetSize] takes back the
    flips of the present extension, makes the pixmap, copies what is visible, gives it to
    all windows that showed the old one, and destroys this. Over [Pixmap], [Present] and
    [WindowTree] it is the resize hook that [Randr] asks for. *)

From Stdlib Require Import SpecFloat.
From S2P Require Import Prelude Floats XorgList Buffer Present Pixmap WindowTree Randr.

(** ** Data *)

Definition EXA_PREPARE_SRC : Z := 1.

(** The pixmap that a damage watches, and whether something was drawn to it. *)
Record Damage := { dm_pixmap : Z; dm_region : bool }.

(** The sizes that are kept in different places: of the [ScreenRec], in pixels and
    millimetres, of the root window, of [pvfb->root], of the RandR extension and of the
    desktop. *)
Record Sizes := {
  scr_size : Z * Z; scr_mm : Z * Z; root_size : Z * Z; pvfb_size : Z * Z;
  rr_size : Z * Z; rr_mm : Z * Z; desktop : Z * Z;
}.

(** [pix] has the pixmaps of the screen and the root window; [win_pixmaps] are those of the
    other windows. [refcnts] and [dims] are fields of the pixmaps. The present extension
    keeps the window and the pixmap of a flip that waits for the vertical blank, and of
    the last one. Pointers are addresses, 0 for NULL. *)
Record Display := {
  pix : Screen; win_pixmaps : gmap Z Z; win_links : gmap Z WindowLinks; root : Z;
  refcnts : gmap Z Z; dims : gmap Z (Z * Z);
  flip_pending : option (Z * Z); flip_window : Z; flip_pixmap : Z;
  present : Present; damage : option Damage; sizes : Sizes; shared : Shared;
}.

Definition set_pix x d := {| pix := x; win_pixmaps := win_pixmaps d; win_links := win_links d; root := root d;
  refcnts := refcnts d; dims := dims d; flip_pending := flip_pending d; flip_window := flip_window d;
  flip_pixmap := flip_pixmap d; present := present d; damage := damage d; sizes := sizes d; shared := shared d |}.
Definition set_win_pixmaps m d := {| pix := pix d; win_pixmaps := m; win_links := win_links d; root := root d;
  refcnts := refcnts d; dims := dims d; flip_pending := flip_pending d; flip_window := flip_window d;
  flip_pixmap := flip_pixmap d; present := present d; damage := damage d; sizes := sizes d; shared := shared d |}.
Definition set_table c m d := {| pix := pix d; win_pixmaps := win_pixmaps d; win_links := win_links d; root := root d;
  refcnts := c; dims := m; flip_pending := flip_pending d; flip_window := flip_window d;
  flip_pixmap := flip_pixmap d; present := present d; damage := damage d; sizes := sizes d; shared := shared d |}.
Definition set_present pr d := {| pix := pix d; win_pixmaps := win_pixmaps d; win_links := win_links d; root := root d;
  refcnts := refcnts d; dims := dims d; flip_pending := flip_pending d; flip_window := flip_window d;
  flip_pixmap := flip_pixmap d; present := pr; damage := damage d; sizes := sizes d; shared := shared d |}.
Definition set_damage x d := {| pix := pix d; win_pixmaps := win_pixmaps d; win_links := win_links d; root := root d;
  refcnts := refcnts d; dims := dims d; flip_pending := flip_pending d; flip_window := flip_window d;
  flip_pixmap := flip_pixmap d; present := present d; damage := x; sizes := sizes d; shared := shared d |}.
Definition set_sizes x d := {| pix := pix d; win_pixmaps := win_pixmaps d; win_links := win_links d; root := root d;
  refcnts := refcnts d; dims := dims d; flip_pending := flip_pending d; flip_window := flip_window d;
  flip_pixmap := flip_pixmap d; present := present d; damage := damage d; sizes := x; shared := shared d |}.
Definition set_shared x d := {| pix := pix d; win_pixmaps := win_pixmaps d; win_links := win_links d; root := root d;
  refcnts := refcnts d; dims := dims d; flip_pending := flip_pending d; flip_window := flip_window d;
  flip_pixmap := flip_pixmap d; present := present d; damage := damage d; sizes := sizes d; shared := x |}.

Definition set_screen_pixmap p s := {| world := world s; privs := privs s; ptrs := ptrs s; screen_pixmap := p;
  root_pixmap := root_pixmap s; rootLocks := rootLocks s; conn_fd := conn_fd s; registered := registered s; sent := sent s |}.

(** The answers to one resize: the memory for the new pixmap (its address, 0 for NULL, its
    private data, its buffer and the lock of this), for the damage and the graphics
    context, and the locks on the way. *)
Record ResizeEnv := {
  re_pixmap : Z; re_calloc : bool; re_alloc : BufEnv; re_lock : BufEnv; re_damage : bool; re_gc : bool;
  re_unlock : Z; re_src : BufEnv; re_dst : BufEnv; re_set : BufEnv;
}.

(** ** Windows and their pixmaps *)

Definition GetWindowPixmap (w : Z) (d : Display) : option Z :=
  if w =? root d then Some (root_pixmap (pix d)) else win_pixmaps d !! w.

(** [fbSetWindowPixmap] behind [lorieSetWindowPixmap]. *)
Definition SetWindowPixmap (e : ResizeEnv) (w p : Z) (d : Display) : option Display :=
  if w =? root d then s ← lorieSetWindowPixmap (re_unlock e) (re_set e) p (pix d); Some (set_pix s d)
  else Some (set_win_pixmaps (<[w := p]> (win_pixmaps d)) d).

(** [present_set_tree_pixmap_visit]: a window with the pixmap [old] gets [new]. *)
Definition set_pixmap_visit (e : ResizeEnv) (old new w : Z) (d : Display) : option (walk_result * Display) :=
  p ← GetWindowPixmap w d;
  if p =? old then d ← SetWindowPixmap e w new d; Some (WT_WALKCHILDREN, d) else Some (WT_DONTWALKCHILDREN, d).

(** The fuel of a walk: every window is visited at most once. *)
Definition walk_fuel (d : Display) : nat := S (S (size (win_links d))).

Definition walk_tree (e : ResizeEnv) (old new w : Z) (d : Display) : option Display :=
  r ← TraverseTree (win_links d) (set_pixmap_visit e old new) (walk_fuel d) w d; Some (snd r).

Definition present_set_tree_pixmap (e : ResizeEnv) (window expected pixmap : Z) (d : Display) : option Display :=
  old ← GetWindowPixmap window d;
  if negb (expected =? 0) && negb (old =? expected) then Some d
  else if old =? pixmap then Some d
  else walk_tree e old pixmap window d.

(** [lorieSetPixmapVisitWindow], where the new pixmap is the screen's. *)
Definition lorieSetPixmapVisitWindow (e : ResizeEnv) (old w : Z) (d : Display) : option (walk_result * Display) :=
  p ← GetWindowPixmap w d;
  if p =? old then d ← SetWindowPixmap e w (screen_pixmap (pix d)) d; Some (WT_WALKCHILDREN, d)
  else Some (WT_DONTWALKCHILDREN, d).

(** [CopyArea] from the start of both pixmaps: nothing is accelerated, so that
    [ExaCheckCopyNtoN] lets the processor copy; a pixmap that cannot be accessed ends the
    server with [FatalError]. The pixels are not modelled. *)
Definition copy_area (e : ResizeEnv) (src dst width height : Z) (s : Screen) : option Screen :=
  if (width =? 0) || (height =? 0) then Some s
  else
    r ← loriePrepareAccess (re_src e) src EXA_PREPARE_SRC s;
    if negb (fst r) then None
    else
      r ← loriePrepareAccess (re_dst e) dst EXA_PREPARE_DEST (snd r);
      if negb (fst r) then None
      else s ← lorieFinishAccess (re_unlock e) src EXA_PREPARE_SRC (snd r);
           lorieFinishAccess (re_unlock e) dst EXA_PREPARE_DEST s.

(** The flip that [present_restore_screen_pixmap] takes back: the one that waits, or the
    last one. *)
Definition current_flip (d : Display) : Z * Z :=
  match flip_pending d with Some f => f | None => (flip_window d, flip_pixmap d) end.

(** [assert] ends the server unless the build defines [NDEBUG]; [cpp/CMakeLists.txt] (line 9) sets the
    type RelWithDebInfo, for which CMake defines it. *)
Definition NDEBUG : bool := true.
Definition assert (b : bool) : option unit := if NDEBUG || b then Some tt else None.

(** The assertion says that there is a flip, but [lorieRRScreenSetSize] does not ask for one. *)
Definition present_restore_screen_pixmap (e : ResizeEnv) (d : Display) : option Display :=
  let '(flip_window, flip_pixmap) := current_flip d in
  _ ← assert (negb (flip_pixmap =? 0));
  '(rp : option Z) ← (if root d =? 0 then Some None else Some <$> GetWindowPixmap (root d) d);
  d ← (if bool_decide (rp = Some flip_pixmap) then
         '(size : Z * Z) ← dims d !! flip_pixmap;
         s ← copy_area e flip_pixmap (screen_pixmap (pix d)) (fst size) (snd size) (pix d); Some (set_pix s d)
       else Some d);
  d ← (if negb (flip_window =? 0) then present_set_tree_pixmap e flip_window flip_pixmap (screen_pixmap (pix d)) d
       else Some d);
  if negb (root d =? 0) then present_set_tree_pixmap e (root d) 0 (screen_pixmap (pix d)) d else Some d.

Section resize.
(** The page size and the options of the screen ([Pixmap]), the resolution of the monitor,
    and the vertical blanks: the head of their queue, how deep flips make flips, what the
    present extension does when it is told about an event, and what this does to windows
    and pixmaps. *)
Context (page : Z) (legacyDrawing flip : bool) (monitorResolution : Z).
Context (vblank_queue : Z) (flip_depth : nat) (reaction : Z -> list reply) (flips : Display -> Display).

(** ** Pixmaps of the screen *)

(** [exaCreatePixmap_driver] with the driver's hook; 0 for NULL. *)
Definition exaCreatePixmap (e : ResizeEnv) (width height usage_hint : Z) (d : Display) : option (Z * Display) :=
  if (32767 <? width) || (32767 <? height) || (re_pixmap e =? 0) then Some (0, d)
  else
    r ← lorieCreatePixmap page legacyDrawing flip (re_calloc e) (re_alloc e) (re_lock e) (re_pixmap e) width height usage_hint (pix d);
    let '(ok, _, s) := r in
    if negb ok then Some (0, set_pix s d)
    else Some (re_pixmap e, set_table (<[re_pixmap e := 1]> (refcnts d)) (<[re_pixmap e := (width, height)]> (dims d)) (set_pix s d)).

(** [exaDestroyPixmap_driver]: the last reference frees the pixmap. *)
Definition exaDestroyPixmap (e : ResizeEnv) (x : Z) (d : Display) : option Display :=
  n ← refcnts d !! x;
  if n =? 1 then
    s ← lorieExaDestroyPixmap (re_unlock e) x (pix d);
    Some (set_table (delete x (refcnts d)) (delete x (dims d)) (set_pix s d))
  else Some (set_table (<[x := n - 1]> (refcnts d)) (dims d) d).

(** The fields [mmWidth] and [mmHeight] of the screen are shorts. *)
Definition short_millimetres (n : Z) : option Z := to_int (- 2 ^ 15) (2 ^ 15 - 1) (in_millimetres n monitorResolution).

Definition resized_to (width height mw mh : Z) (s : Sizes) : Sizes :=
  {| scr_size := (swrap 16 width, swrap 16 height); scr_mm := (mw, mh); root_size := (width, height); pvfb_size := (width, height);
     rr_size := rr_size s; rr_mm := rr_mm s; desktop := desktop s |}.

(** [RRScreenSizeNotify] and [update_desktop_dimensions], without the events to clients. *)
Definition sizes_told (s : Sizes) : Sizes :=
  {| scr_size := scr_size s; scr_mm := scr_mm s; root_size := root_size s; pvfb_size := pvfb_size s;
     rr_size := scr_size s; rr_mm := scr_mm s; desktop := scr_size s |}.

Definition move_cursor (sh : Shared) : Shared :=
  {| waitForNextFrame := waitForNextFrame sh; drawRequested := drawRequested sh; surfaceAvailable := surfaceAvailable sh;
     rootWindowTextureID := rootWindowTextureID sh; cursor_moved := true; cursor_updated := cursor_updated sh;
     signals := signals sh |}.

(** The old pixmap leaves the windows and is destroyed. *)
Definition replace_pixmap (e : ResizeEnv) (old new : Z) (d : Display) : option Display :=
  if old =? 0 then Some d
  else
    d ← (if re_gc e then
           '(a : Z * Z) ← dims d !! old; '(b : Z * Z) ← dims d !! new;
           s ← copy_area e old new (Z.min (fst a) (fst b)) (Z.min (snd a) (snd b)) (pix d); Some (set_pix s d)
         else Some d);
    r ← TraverseTree (win_links d) (lorieSetPixmapVisitWindow e old) (walk_fuel d) (root d) d;
    exaDestroyPixmap e old (snd r).

(** [pScreen->devPrivate] is told to the activity. *)
Definition register_screen (d : Display) : option Display :=
  v ← privs (pix d) !! screen_pixmap (pix d); s ← lorieRegisterBuffer (buffer v) (pix d); Some (set_pix s d).

(** Fuel for the vertical blanks: a round for every request, and the flips in reaction to flips. *)
Definition vblank_fuel (pr : Present) : nat := S (flip_depth + size (vblanks pr)).

(** The clip lists and the geometry of the other windows are not modelled. Without memory
    for the pixmap the code uses NULL, without memory for the damage it calls [FatalError]. *)
Definition lorieRRScreenSetSize (e : ResizeEnv) (width height mmWidth mmHeight : Z) (d : Display) : option Display :=
  let width := uwrap 16 width in let height := uwrap 16 height in
  pr ← loriePerformVblanks vblank_queue reaction (vblank_fuel (present d)) (present d);
  let d := flips (set_present pr d) in
  d ← present_restore_screen_pixmap e d;
  mw ← short_millimetres width; mh ← short_millimetres height;
  let d := set_sizes (resized_to width height mw mh (sizes d)) d in
  let old := screen_pixmap (pix d) in
  r ← exaCreatePixmap e width height CREATE_PIXMAP_USAGE_LORIEBUFFER_BACKED d;
  let '(new, d) := r in
  if (new =? 0) || negb (re_damage e) then None
  else
    let d := set_damage (Some {| dm_pixmap := new; dm_region := false |}) (set_pix (set_screen_pixmap new (pix d)) d) in
    d ← replace_pixmap e old new d;
    d ← register_screen d;
    Some (set_shared (move_cursor (shared d)) (set_sizes (sizes_told (sizes d)) d)).

(** ** The start and the end *)

Definition lorieCreateScreenResources (e : ResizeEnv) (d : Display) : option Display :=
  let '(width, height) := scr_size (sizes d) in
  r ← exaCreatePixmap e width height CREATE_PIXMAP_USAGE_LORIEBUFFER_BACKED d;
  let '(new, d) := r in
  if (new =? 0) || negb (re_damage e) then None
  else register_screen (set_damage (Some {| dm_pixmap := new; dm_region := false |}) (set_pix (set_screen_pixmap new (pix d)) d)).

Definition lorieCloseScreen (e : ResizeEnv) (d : Display) : option Display :=
  d ← exaDestroyPixmap e (screen_pixmap (pix d)) d; Some (set_pix (set_screen_pixmap 0 (pix d)) d).

End resize.

(** ** What the hooks leave alone *)

(** The buffer and the memory of a pixmap. *)
Definition attached (s : Screen) (y : Z) : option (Z * Z) := (fun v => (buffer v, mem v)) <$> privs s !! y.

(** Locks come and go, but every pixmap keeps its buffer and its memory. *)
Record frame (s s' : Screen) : Prop := {
  fr_screen : screen_pixmap s' = screen_pixmap s;
  fr_attached : forall y, attached s' y = attached s y;
  fr_bufs : dom (bufs (world s')) = dom (bufs (world s));
}.

#[export] Instance frame_preorder : PreOrder frame.
Proof.
  split; [by split|]. intros s1 s2 s3 [A1 B1 C1] [A2 B2 C2]. split; [congruence| |congruence].
  intros y. by rewrite B2, B1.
Qed.

Lemma frame_upd x v v' s : privs s !! x = Some v -> buffer v' = buffer v -> mem v' = mem v -> frame s (upd_priv x v' s).
Proof.
  intros Hv Hb Hm. split; [done| |done]. intros y. unfold attached. cbn [privs upd_priv set_privs].
  destruct (decide (y = x)) as [->|Hne]; [|by rewrite lookup_insert_ne].
  rewrite lookup_insert_eq, Hv. cbn. by rewrite Hb, Hm.
Qed.

Lemma frame_world w s : dom (bufs w) = dom (bufs (world s)) -> frame s (set_world w s).
Proof. by split. Qed.

Lemma frame_ptrs m s : frame s (set_ptrs m s).
Proof. by split. Qed.

Lemma dom_insert_live {A} (m : gmap Z A) i x y : m !! i = Some x -> dom (<[i := y]> m) = dom m.
Proof. intros H. apply dom_insert_lookup_L. by eexists. Qed.

Lemma lock_frame e x s r : lock_priv e x s = Some r -> frame s r.2.
Proof.
  unfold lock_priv, LorieBuffer_lock. destruct (privs s !! x) as [v|] eqn:Hv; [cbn [mbind option_bind]|done].
  destruct (buffer v =? 0) eqn:E.
  { cbn [mbind option_bind]. intros [= <-]. cbn [snd]. rewrite set_world_same. by apply (frame_upd x v). }
  destruct (bufs (world s) !! buffer v) as [b|] eqn:Hb; [cbn [mbind option_bind]|done].
  destruct (lock_buffer e b) as [[ret out] b']. cbn [mbind option_bind]. intros [= <-]. cbn [snd].
  etrans; [apply (frame_world (set_bufs (<[buffer v := b']> (bufs (world s))) (world s))); by apply (dom_insert_live _ _ b)|].
  by apply (frame_upd x v).
Qed.

Lemma unlock_frame r x s s' : unlock_priv r x s = Some s' -> frame s s'.
Proof.
  unfold unlock_priv, LorieBuffer_unlock. destruct (privs s !! x) as [v|]; [cbn [mbind option_bind]|done].
  destruct (buffer v =? 0); [cbn; intros [= <-]; by rewrite set_world_same|].
  destruct (bufs (world s) !! buffer v) as [b|] eqn:Hb; [cbn [mbind option_bind]|done].
  destruct (unlock_buffer r b) as [ret b']. cbn. intros [= <-]. apply frame_world. by apply (dom_insert_live _ _ b).
Qed.

Lemma put_locked_frame x p s s' : put_locked x p s = Some s' -> frame s s'.
Proof.
  unfold put_locked. destruct (privs s !! x) as [v|] eqn:Hv; [cbn|done]. intros [= <-]. by apply (frame_upd x v).
Qed.

Lemma put_wasLocked_frame x f s s' : put_wasLocked x f s = Some s' -> frame s s'.
Proof.
  unfold put_wasLocked. destruct (privs s !! x) as [v|] eqn:Hv; [cbn|done]. intros [= <-]. by apply (frame_upd x v).
Qed.

(** A bind whose first part keeps the frame. *)
Ltac frame_step H L :=
  let s1 := fresh "s" in let E := fresh "E" in
  apply bind_Some in H as (s1 & E & H); apply L in E.

Lemma unlock_three_frame r x s s' :
  (s1 ← unlock_priv r x s; s2 ← put_locked x 0 s1; put_wasLocked x false s2) = Some s' -> frame s s'.
Proof.
  intros H. frame_step H unlock_frame. frame_step H put_locked_frame. apply put_wasLocked_frame in H.
  etrans; [done|]. by etrans.
Qed.

Lemma hold_frame i x s : frame s (hold_root i x s).
Proof. unfold hold_root. by destruct (_ && _). Qed.

Lemma leave_frame i x s : frame s (leave_root i x s).
Proof. unfold leave_root. by destruct (_ && _). Qed.

Lemma prepare_frame e x i s r : loriePrepareAccess e x i s = Some r -> frame s r.2.
Proof.
  unfold loriePrepareAccess. destruct (privs s !! x) as [v|]; [cbn [mbind option_bind]|done].
  assert (Hready : forall s1, frame s s1 -> (v1 ← privs s1 !! x;
    Some (true, set_ptrs (<[x := if negb (locked v1 =? 0) then locked v1 else mem v1]> (ptrs s1)) s1)) = Some r -> frame s r.2).
  { intros s1 Hs1. destruct (privs s1 !! x); [cbn|done]. intros [= <-]. cbn [snd]. etrans; [done|apply frame_ptrs]. }
  pose proof (hold_frame i x s) as Hh. destruct (_ && _); intros H.
  - apply bind_Some in H as ([err s1] & E & H). apply lock_frame in E. destruct (negb (err =? 0)).
    { injection H as <-. by etrans. }
    frame_step H put_wasLocked_frame. apply Hready in H; [done|]. etrans; [done|]. by etrans.
  - frame_step H put_wasLocked_frame. apply Hready in H; [done|]. by etrans.
Qed.

Lemma finish_frame r x i s s' : lorieFinishAccess r x i s = Some s' -> frame s s'.
Proof.
  unfold lorieFinishAccess. destruct (privs s !! x) as [v|]; [cbn [mbind option_bind]|done].
  destruct (negb (wasLocked v)); intros H.
  - apply unlock_three_frame in H. etrans; [apply leave_frame|done].
  - injection H as <-. apply leave_frame.
Qed.

Lemma set_root_frame r e p s s' : lorieSetWindowPixmap r e p s = Some s' -> frame s s'.
Proof.
  unfold lorieSetWindowPixmap. intros H. apply bind_Some in H as (s1 & E1 & H). apply bind_Some in H as (s2 & E2 & H).
  injection H as <-. assert (frame s s1) as F1.
  { destruct (root_pixmap s =? 0); [by injection E1 as <-|]. destruct (privs s !! root_pixmap s); [cbn [mbind option_bind] in E1|done].
    destruct (_ && _); [by apply unlock_three_frame in E1|by injection E1 as <-]. }
  assert (frame s1 s2) as F2.
  { destruct (p =? 0); [by injection E2 as <-|]. destruct (privs s1 !! p); [cbn [mbind option_bind] in E2|done].
    destruct (_ && _); [|by injection E2 as <-]. apply bind_Some in E2 as ([err t] & Et & E2). apply lock_frame in Et.
    apply put_wasLocked_frame in E2. by etrans. }
  etrans; [exact F1|]. etrans; [exact F2|]. by split.
Qed.

Lemma copy_frame e src dst w h s s' : copy_area e src dst w h s = Some s' -> frame s s'.
Proof.
  unfold copy_area. destruct (_ || _); [by intros [= <-]|]. intros H.
  frame_step H prepare_frame. destruct (negb (fst _)); [done|]. frame_step H prepare_frame. destruct (negb (fst _)); [done|].
  frame_step H finish_frame. apply finish_frame in H. etrans; [done|]. etrans; [done|]. by etrans.
Qed.

Lemma register_frame p s s' : lorieRegisterBuffer p s = Some s' -> frame s s'.
Proof.
  unfold lorieRegisterBuffer. intros H. apply bind_Some in H as (d & _ & H). destruct (_ =? -1); [by injection H as <-|].
  apply bind_Some in H as (q & _ & H). destruct (_ || _); [by injection H as <-|]. apply bind_Some in H as (b & _ & H).
  injection H as <-. by split.
Qed.

Lemma attached_live s s' y : (forall z, attached s' z = attached s z) -> is_Some (privs s !! y) <-> is_Some (privs s' !! y).
Proof. intros H. specialize (H y). unfold attached in H. destruct (privs s !! y), (privs s' !! y); try done; split; by eexists || intros []. Qed.

(** ** The display *)

Definition win_pixmap (d : Display) (w : Z) : Z :=
  if w =? root d then root_pixmap (pix d) else default 0 (win_pixmaps d !! w).

(** The pixmap is the screen's, or that of the flip. *)
Definition on_screen (d : Display) (p : Z) : Prop :=
  p = screen_pixmap (pix d) \/ snd (current_flip d) <> 0 /\ p = snd (current_flip d).

#[export] Instance on_screen_dec d p : Decision (on_screen d p).
Proof. unfold on_screen. apply _. Defined.

(** The windows form a tree below the root window, and have pixmaps. *)
Record tree_ok (d : Display) (ch : forest) : Prop := {
  tr_root : root d <> 0;
  tr_top : exists l, win_links d !! root d = Some l /\ firstChild l = head_id ch;
  tr_links : represents (win_links d) (root d) ch;
  tr_nodup : NoDup (root d :: ids ch);
  tr_pixmaps : forall w, w ∈ ids ch -> is_Some (win_pixmaps d !! w);
}.

(** What the present extension keeps to: it puts the pixmap of the flip in the place of the
    screen's, for the flip's window and the root and below them. *)
Record flip_ok (d : Display) (ch : forest) : Prop := {
  fl_window : (current_flip d).1 <> 0 -> (current_flip d).2 <> 0 /\ (current_flip d).1 ∈ (root d :: ids ch);
  fl_other : (current_flip d).2 <> screen_pixmap (pix d);
  fl_pixmap : (current_flip d).2 <> 0 ->
    is_Some (dims d !! (current_flip d).2) /\
    exists v, privs (pix d) !! (current_flip d).2 = Some v /\ (buffer v <> 0 \/ mem v <> 0);
  fl_root : on_screen d (root_pixmap (pix d));
  fl_up : forall w l, w ∈ ids ch -> win_links d !! w = Some l -> on_screen d (win_pixmap d w) -> on_screen d (win_pixmap d (parent l));
  fl_below : forall w l, w ∈ ids ch -> win_links d !! w = Some l -> (current_flip d).2 <> 0 ->
    win_pixmap d w = (current_flip d).2 -> w = (current_flip d).1 \/ win_pixmap d (parent l) = (current_flip d).2;
}.

(** A walk changes the pixmaps of windows, and locks. *)
Definition same_but_pixmaps (d d' : Display) : Prop :=
  exists s m, d' = set_pix s (set_win_pixmaps m d) /\ frame (pix d) s /\ dom m = dom (win_pixmaps d).

#[export] Instance same_but_pixmaps_preorder : PreOrder same_but_pixmaps.
Proof.
  split.
  - intros d. exists (pix d), (win_pixmaps d). split; [by destruct d|done].
  - intros d1 d2 d3 (s2 & m2 & -> & F2 & E2) (s3 & m3 & -> & F3 & E3). exists s3, m3. cbn in *.
    split; [done|]. split; [by etrans|congruence].
Qed.

Lemma same_pix d s : frame (pix d) s -> same_but_pixmaps d (set_pix s d).
Proof. intros H. exists s, (win_pixmaps d). split; [by destruct d|done]. Qed.

Section walks.
Context (e : ResizeEnv) (base : list resource) (set_grants : grants (re_set e)).

(** The state during a walk that began at [d0]. *)
Definition walking (d0 d : Display) : Prop := pixmaps_ok base (pix d) /\ same_but_pixmaps d0 d.

Lemma SetWindowPixmap_ok d0 w p d : walking d0 d -> w = root d0 \/ is_Some (win_pixmaps d0 !! w) ->
  is_Some (privs (pix d0) !! p) -> exists d', SetWindowPixmap e w p d = Some d' /\ walking d0 d' /\
    forall x, win_pixmap d' x = if x =? w then p else win_pixmap d x.
Proof.
  intros [Hok Hsame] Hw Hp. assert (Hp' : is_Some (privs (pix d) !! p)).
  { destruct Hsame as (s & m & -> & F & _). cbn. by rewrite <- (attached_live (pix d0)) by apply F. }
  assert (Hr : root d = root d0) by by destruct Hsame as (s & m & -> & _).
  unfold SetWindowPixmap. rewrite Hr. destruct (Z.eqb_spec w (root d0)) as [->|Hne].
  - destruct (set_root_ok base (re_unlock e) (re_set e) p (pix d) Hok ltac:(by right) set_grants) as (s' & E & Hok' & Er & _).
    rewrite E. cbn [mbind option_bind]. eexists. split; [done|]. split.
    + split; [done|]. etrans; [exact Hsame|]. apply same_pix. by apply set_root_frame in E.
    + intros x. unfold win_pixmap. cbn. rewrite Hr. destruct (x =? root d0); [done|done].
  - eexists. split; [done|]. split.
    + split; [done|]. etrans; [exact Hsame|]. exists (pix d), (<[w := p]> (win_pixmaps d)). split; [by destruct d|]. split; [done|].
      apply dom_insert_lookup_L. destruct Hw as [?|Hw]; [done|]. destruct Hsame as (s & m & -> & _ & Ed). cbn.
      apply elem_of_dom. rewrite Ed. by apply elem_of_dom.
    + intros x. unfold win_pixmap. cbn. rewrite Hr. destruct (Z.eqb_spec x (root d0)) as [->|Hx].
      { by rewrite (proj2 (Z.eqb_neq (root d0) w)) by done. }
      destruct (Z.eqb_spec x w) as [->|Hxw]; [by rewrite lookup_insert_eq|by rewrite lookup_insert_ne].
Qed.

Lemma visits_replace d0 old new : is_Some (privs (pix d0) !! new) ->
  replaces (set_pixmap_visit e old new) win_pixmap (walking d0) old new (fun w => w = root d0 \/ is_Some (win_pixmaps d0 !! w)).
Proof.
  intros Hnew w d Hd Hw.
  assert (Hget : GetWindowPixmap w d = Some (win_pixmap d w)).
  { destruct Hd as [_ (s & m & -> & _ & Ed)]. unfold GetWindowPixmap, win_pixmap. cbn.
    destruct (Z.eqb_spec w (root d0)) as [|Hne]; [done|]. destruct Hw as [?|Hw]; [done|].
    rewrite <- elem_of_dom, <- Ed, elem_of_dom in Hw. by destruct Hw as [p ->]. }
  unfold set_pixmap_visit. rewrite Hget. cbn [mbind option_bind]. destruct (win_pixmap d w =? old); [|done].
  destruct (SetWindowPixmap_ok d0 w new d Hd Hw Hnew) as (d' & -> & Hd' & Hv). cbn [mbind option_bind]. by exists d'.
Qed.

(** When the new pixmap is the screen's, both visitors are the same. *)
Lemma screen_visits_replace d0 old : is_Some (privs (pix d0) !! screen_pixmap (pix d0)) ->
  replaces (lorieSetPixmapVisitWindow e old) win_pixmap (walking d0) old (screen_pixmap (pix d0))
    (fun w => w = root d0 \/ is_Some (win_pixmaps d0 !! w)).
Proof.
  intros Hnew w d Hd Hw. pose proof (visits_replace d0 old _ Hnew w d Hd Hw) as H.
  assert (screen_pixmap (pix d) = screen_pixmap (pix d0)) as E by (destruct Hd as [_ (s & m & -> & F & _)]; apply F).
  unfold lorieSetPixmapVisitWindow. rewrite E. exact H.
Qed.

(** What a walk from the window [top] makes of the pixmaps [old]. *)
Record walked (ch : forest) (old new top : Z) (d d' : Display) : Prop := {
  wk_walking : walking d d';
  wk_values : forall x, win_pixmap d' x = win_pixmap d x \/ win_pixmap d x = old /\ win_pixmap d' x = new;
  wk_top : win_pixmap d top = old -> win_pixmap d' top = new;
  wk_below : forall x l, x ∈ ids ch -> win_links d !! x = Some l -> win_pixmap d x = old -> win_pixmap d (parent l) = old ->
    win_pixmap d' (parent l) = new -> win_pixmap d' x = new;
}.

Lemma tree_fuel d ch l : tree_ok d ch -> NoDup l -> (forall x, x ∈ l -> x ∈ (root d :: ids ch)) -> (length l < walk_fuel d)%nat.
Proof.
  intros Ht Hn Hl. apply (Nat.le_lt_trans _ (size (win_links d))); [|unfold walk_fuel; lia].
  apply ids_bound; [done|]. intros x [->|Hx]%Hl%elem_of_cons.
  - destruct (tr_top d ch Ht) as (lk & -> & _). by eexists.
  - destruct (represents_parent _ _ _ x (tr_links d ch Ht) Hx) as (lk & -> & _). by eexists.
Qed.

Lemma walk_replaces func d ch old new top : tree_ok d ch -> pixmaps_ok base (pix d) -> old <> new -> top ∈ (root d :: ids ch) ->
  replaces func win_pixmap (walking d) old new (fun w => w = root d \/ is_Some (win_pixmaps d !! w)) ->
  exists d', TraverseTree (win_links d) func (walk_fuel d) top d = Some (WT_NOMATCH, d') /\ walked ch old new top d d'.
Proof.
  intros Ht Hok Hon Htop Hf. pose proof (tr_nodup d ch Ht) as Hnd. pose proof Hnd as [Hroot Hnc]%NoDup_cons.
  assert (Hsub : exists sub l, top <> 0 /\ win_links d !! top = Some l /\ firstChild l = head_id sub /\
    represents (win_links d) top sub /\ NoDup (top :: ids sub) /\ (forall y, y ∈ (top :: ids sub) -> y ∈ (root d :: ids ch)) /\
    forall y w, y ∈ ids ch -> win_links d !! y = Some w -> parent w ∈ (top :: ids sub) -> y ∈ ids sub).
  { apply elem_of_cons in Htop as [->|Htop].
    - destruct (tr_top d ch Ht) as (l & El & Ef). exists ch, l.
      split; [apply Ht|split; [done|split; [done|split; [apply Ht|split; [done|done]]]]].
    - destruct (subtree _ _ _ top (tr_links d ch Ht) Hnc Htop) as (sub & l & H0 & El & Ef & Hr & Hn & Hin & Hcl).
      exists sub, l. split_and!; try done; [|by apply Hcl]. intros y Hy%Hin. apply elem_of_cons. by right. }
  destruct Hsub as (sub & l & H0 & El & Ef & Hr & Hn & Hin & Hcl).
  assert (Hscope : forall x, x ∈ (top :: ids sub) -> x = root d \/ is_Some (win_pixmaps d !! x)).
  { intros x [->|Hx]%Hin%elem_of_cons; [by left|right]. by apply (tr_pixmaps d ch Ht). }
  pose proof (tree_fuel d ch _ Ht Hn Hin) as Hfuel. cbn [length] in Hfuel.
  destruct (TraverseTree_replaces (win_links d) func win_pixmap (walking d) old new _ Hon Hf (walk_fuel d) top l sub d
    H0 El Ef Hr Hn ltac:(lia)) as (d' & E & Hd' & Hch & Htp & Hbelow); [by split|done|].
  exists d'. split; [done|]. split; [done| |done|].
  - intros x. destruct (Hch x) as [|(? & ? & _)]; [by left|by right].
  - intros x w Hx Ew Hxo Hpo Hpn. apply (Hbelow x w); try done. apply (Hcl x w Hx Ew).
    destruct (Hch (parent w)) as [E1|(_ & _ & ?)]; [congruence|done].
Qed.
End walks.

(** ** The display between the calls *)

(** Every part of the display is in order: the pixmaps with their buffers, the windows with
    pixmaps that exist, the flips, the queue of vertical blanks ([queue_ok]), and the
    screen's pixmap, which has a buffer and the size of the screen. *)
Record display_ok (queue_ok : Present -> Prop) (base : list resource) (d : Display) : Prop := {
  dp_pixmaps : pixmaps_ok base (pix d);
  dp_windows : exists ch, tree_ok d ch /\ flip_ok d ch /\
    forall w, w ∈ (root d :: ids ch) -> is_Some (privs (pix d) !! win_pixmap d w);
  dp_queue : queue_ok (present d);
  dp_screen : screen_pixmap (pix d) <> 0 /\ exists v, privs (pix d) !! screen_pixmap (pix d) = Some v /\ buffer v <> 0;
  dp_refcnt : refcnts d !! screen_pixmap (pix d) = Some 1;
  dp_size : dims d !! screen_pixmap (pix d) = Some (scr_size (sizes d));
}.

(** Memory that can be accessed. *)
Definition drawable (s : Screen) (x : Z) : Prop := exists a, attached s x = Some a /\ (a.1 <> 0 \/ a.2 <> 0).

Lemma drawable_priv s x : drawable s x <-> exists v, privs s !! x = Some v /\ (buffer v <> 0 \/ mem v <> 0).
Proof.
  unfold drawable, attached. destruct (privs s !! x) as [v|]; cbn; split.
  - intros (a & [= <-] & H). by exists v.
  - intros (v' & [= <-] & H). by eexists.
  - by intros (a & ? & _).
  - by intros (v' & ? & _).
Qed.

Lemma drawable_frame s s' x : frame s s' -> drawable s x -> drawable s' x.
Proof. intros F. unfold drawable. by rewrite (fr_attached _ _ F). Qed.

Lemma prepare_drawable base e x i s : pixmaps_ok base s -> drawable s x -> grants e ->
  exists s', loriePrepareAccess e x i s = Some (true, s') /\ pixmaps_ok base s' /\ keeps_pixmaps s s'.
Proof.
  intros Hok (v & Hv & Hm)%drawable_priv Hg.
  destruct (prepare_ok base e x i s Hok ltac:(by eexists) Hg) as ([ok s'] & E & Hok' & Hk).
  pose proof (prepare_spec base e x i s v Hok Hv Hg) as Hspec. cbn zeta in Hspec. rewrite E in Hspec.
  exists s'. split; [|done]. rewrite E. destruct ((locked v =? 0) && (mem v =? 0)) eqn:Eg; [|by injection Hspec as -> ->].
  apply andb_true_iff in Eg as [_ Em%Z.eqb_eq]. rewrite (proj2 (Z.eqb_neq (buffer v) 0)) in Hspec by (destruct Hm; done).
  destruct Hspec as (b & _ & _ & _ & _ & [= -> ->] & _). done.
Qed.

Lemma copy_ok base e src dst w h s : pixmaps_ok base s -> drawable s src -> drawable s dst ->
  grants (re_src e) -> grants (re_dst e) ->
  exists s', copy_area e src dst w h s = Some s' /\ pixmaps_ok base s' /\ root_pixmap s' = root_pixmap s.
Proof.
  intros Hok Hs Hd Gs Gd. unfold copy_area. destruct (_ || _); [by exists s|].
  assert (Hlive : forall t x, drawable t x -> is_Some (privs t !! x)).
  { intros t x (v & Hv & _)%drawable_priv. by eexists. }
  destruct (prepare_drawable base (re_src e) src EXA_PREPARE_SRC s Hok Hs Gs) as (s1 & E1 & H1 & K1).
  pose proof (prepare_frame _ _ _ _ _ E1) as F1. rewrite E1. cbn [mbind option_bind fst snd negb].
  destruct (prepare_drawable base (re_dst e) dst EXA_PREPARE_DEST s1 H1 (drawable_frame _ _ _ F1 Hd) Gd) as (s2 & E2 & H2 & K2).
  pose proof (prepare_frame _ _ _ _ _ E2) as F2. rewrite E2. cbn [mbind option_bind fst snd negb].
  destruct (finish_ok base (re_unlock e) src EXA_PREPARE_SRC s2 H2) as (s3 & E3 & H3 & K3).
  { apply Hlive, (drawable_frame _ _ _ F2), (drawable_frame _ _ _ F1). done. }
  pose proof (finish_frame _ _ _ _ _ E3) as F3. rewrite E3. cbn [mbind option_bind].
  destruct (finish_ok base (re_unlock e) dst EXA_PREPARE_DEST s3 H3) as (s4 & E4 & H4 & K4).
  { apply Hlive, (drawable_frame _ _ _ F3), (drawable_frame _ _ _ F2), (drawable_frame _ _ _ F1). done. }
  exists s4. split; [done|split; [done|]]. destruct K1, K2, K3, K4. congruence.
Qed.


Lemma tree_same d d' ch : same_but_pixmaps d d' -> tree_ok d ch -> tree_ok d' ch.
Proof.
  intros (s & m & -> & F & Ed) [H1 H2 H3 H4 H5]. split; try done. intros w Hw. cbn.
  rewrite <- elem_of_dom, Ed, elem_of_dom. auto.
Qed.

Lemma flip_same d d' : same_but_pixmaps d d' -> current_flip d' = current_flip d /\ root d' = root d /\ win_links d' = win_links d /\
  screen_pixmap (pix d') = screen_pixmap (pix d) /\ dims d' = dims d.
Proof. intros (s & m & -> & F & _). repeat (split; [done|]). split; [apply F|done]. Qed.

Lemma live_same d d' p : same_but_pixmaps d d' -> is_Some (privs (pix d) !! p) -> is_Some (privs (pix d') !! p).
Proof. intros (s & m & -> & F & _) H. cbn. by rewrite <- (attached_live (pix d)) by apply F. Qed.

Lemma GetWindowPixmap_ok d ch w : tree_ok d ch -> w ∈ (root d :: ids ch) -> GetWindowPixmap w d = Some (win_pixmap d w).
Proof.
  intros Ht Hw. unfold GetWindowPixmap, win_pixmap. destruct (Z.eqb_spec w (root d)) as [|Hne]; [done|].
  apply elem_of_cons in Hw as [?|Hw]; [done|]. by destruct (tr_pixmaps d ch Ht w Hw) as [p ->].
Qed.

Section restore.
Context (e : ResizeEnv) (base : list resource).
Hypothesis granted : grants (re_src e) /\ grants (re_dst e) /\ grants (re_set e).

(** Nothing happens, or the pixmap [old] of the window is replaced. *)
Lemma set_tree_ok d ch w expected new : tree_ok d ch -> pixmaps_ok base (pix d) -> w ∈ (root d :: ids ch) ->
  is_Some (privs (pix d) !! new) ->
  exists d', present_set_tree_pixmap e w expected new d = Some d' /\
    (d' = d /\ (win_pixmap d w = new \/ expected <> 0 /\ win_pixmap d w <> expected) \/
     walked base ch (win_pixmap d w) new w d d' /\ win_pixmap d w <> new /\ (expected = 0 \/ win_pixmap d w = expected)).
Proof.
  intros Ht Hok Hw Hnew. unfold present_set_tree_pixmap. rewrite (GetWindowPixmap_ok d ch w Ht Hw). cbn [mbind option_bind].
  destruct (negb (expected =? 0) && negb (win_pixmap d w =? expected)) eqn:Ee.
  { exists d. split; [done|]. left. split; [done|]. right. apply andb_true_iff in Ee as [E1 E2].
    by rewrite negb_true_iff, Z.eqb_neq in E1, E2. }
  destruct (Z.eqb_spec (win_pixmap d w) new) as [|Hne]; [exists d; split; [done|]; left; split; [done|by left]|].
  destruct (walk_replaces base (set_pixmap_visit e (win_pixmap d w) new) d ch (win_pixmap d w) new w Ht Hok Hne Hw) as (d' & E & Hd').
  { apply visits_replace; [apply granted|done]. }
  unfold walk_tree. rewrite E. cbn [mbind option_bind snd]. exists d'. split; [done|]. right. split; [done|]. split; [done|].
  apply andb_false_iff in Ee. rewrite !negb_false_iff, !Z.eqb_eq in Ee. done.
Qed.

(** The pixmap of a window once the flips are taken back. *)
Definition restored (d : Display) (p : Z) : Z :=
  if decide (on_screen d p) then screen_pixmap (pix d) else p.

Lemma restored_same d d' p : current_flip d' = current_flip d -> screen_pixmap (pix d') = screen_pixmap (pix d) ->
  restored d' p = restored d p.
Proof.
  intros C P. assert (on_screen d' p <-> on_screen d p) as H by (unfold on_screen; by rewrite C, P).
  unfold restored. rewrite P. destruct (decide (on_screen d' p)), (decide (on_screen d p)); (done || tauto).
Qed.

(** Two walks, from the window of the flip and from the root, leave no window with the
    pixmap of the flip. *)
Lemma flips_gone d ch d1 d2 : tree_ok d ch -> flip_ok d ch -> (current_flip d).2 <> 0 ->
  let '(fw, fp) := current_flip d in let p0 := screen_pixmap (pix d) in
  (fw = 0 \/ win_pixmap d fw <> fp) /\ d1 = d \/ walked base ch fp p0 fw d d1 /\ fw <> 0 ->
  win_pixmap d1 (root d) = p0 /\ d2 = d1 \/ win_pixmap d1 (root d) = fp /\ walked base ch fp p0 (root d) d1 d2 ->
  forall x, x ∈ (root d :: ids ch) -> win_pixmap d2 x <> fp.
Proof.
  intros Ht Hf Hfp. destruct (current_flip d) as [fw fp] eqn:Ecf. cbn [snd] in Hfp. cbn zeta. set (p0 := screen_pixmap (pix d)).
  intros H1 H2. pose proof (fl_other d ch Hf) as Hp0. rewrite Ecf in Hp0. cbn [snd] in Hp0. fold p0 in Hp0.
  assert (V1 : forall x, win_pixmap d1 x = win_pixmap d x \/ win_pixmap d x = fp /\ win_pixmap d1 x = p0).
  { intros x. destruct H1 as [[_ ->]|[Hw _]]; [by left|apply Hw]. }
  assert (V2 : forall x, win_pixmap d2 x = win_pixmap d1 x \/ win_pixmap d1 x = fp /\ win_pixmap d2 x = p0).
  { intros x. destruct H2 as [[_ ->]|[_ Hw]]; [by left|apply Hw]. }
  assert (Hlinks : win_links d1 = win_links d).
  { destruct H1 as [[_ ->]|[Hw _]]; [done|]. apply (flip_same d d1). apply Hw. }
  assert (Hroot : win_pixmap d2 (root d) <> fp).
  { destruct H2 as [[E ->]|[E Hw]]; [congruence|]. rewrite (wk_top _ _ _ _ _ _ _ Hw E). congruence. }
  intros x [->|Hx]%elem_of_cons; [exact Hroot|]. revert x Hx.
  apply (tree_ind_parent (win_links d) (fun x => win_pixmap d2 x <> fp) (root d) ch (tr_links d ch Ht) Hroot).
  intros x l Hx El Hq E2.
  assert (E1 : win_pixmap d1 x = fp) by (destruct (V2 x) as [|[? ?]]; congruence).
  assert (E0 : win_pixmap d x = fp) by (destruct (V1 x) as [|[? ?]]; congruence).
  destruct (fl_below d ch Hf x l Hx El) as [Hw|Hpar]; rewrite Ecf in *; try done; cbn [fst snd] in *.
  - subst x. destruct H1 as [[[->|?] _]|[Hwk _]]; [|done|].
    + destruct (subtree _ _ _ 0 (tr_links d ch Ht) (proj2 (proj1 (NoDup_cons _ _) (tr_nodup d ch Ht))) Hx) as (? & ? & ? & _). done.
    + pose proof (wk_top _ _ _ _ _ _ _ Hwk E0). congruence.
  - destruct (V1 (parent l)) as [Eq1|[_ Eq1]].
    + assert (win_pixmap d1 (parent l) = fp) as Eq by congruence. destruct H2 as [[_ ->]|[_ Hwk]]; [done|].
      destruct (V2 (parent l)) as [|[_ Eq2]]; [congruence|]. rewrite <- Hlinks in El.
      pose proof (wk_below _ _ _ _ _ _ _ Hwk x l Hx El E1 Eq Eq2). congruence.
    + destruct H1 as [[_ ->]|[Hwk _]]; [congruence|].
      pose proof (wk_below _ _ _ _ _ _ _ Hwk x l Hx El E0 Hpar Eq1). congruence.
Qed.

Lemma screen_only d : (current_flip d).2 = 0 -> forall p, on_screen d p <-> p = screen_pixmap (pix d).
Proof. intros E p. unfold on_screen. rewrite E. tauto. Qed.

(** The contents of a flip are saved. *)
Lemma save_ok d ch : tree_ok d ch -> flip_ok d ch -> pixmaps_ok base (pix d) -> drawable (pix d) (screen_pixmap (pix d)) ->
  exists d', (if bool_decide (Some (win_pixmap d (root d)) = Some (current_flip d).2) then
         '(size : Z * Z) ← dims d !! (current_flip d).2;
         s ← copy_area e (current_flip d).2 (screen_pixmap (pix d)) (fst size) (snd size) (pix d); Some (set_pix s d)
       else Some d) = Some d' /\ walking base d d' /\ forall x, win_pixmap d' x = win_pixmap d x.
Proof.
  intros Ht Hf Hok Hs. case_bool_decide as Eb; [|by exists d].
  injection Eb as Eb. assert (Hrp : win_pixmap d (root d) = root_pixmap (pix d)) by (unfold win_pixmap; by rewrite Z.eqb_refl).
  assert (Hfp : (current_flip d).2 <> 0).
  { intros E0. destruct (fl_root d ch Hf) as [E|[? _]]; [|done]. apply (fl_other d ch Hf). congruence. }
  destruct (fl_pixmap d ch Hf Hfp) as [[size Esize] Hfl]. rewrite Esize. cbn [mbind option_bind].
  destruct (copy_ok base e (current_flip d).2 (screen_pixmap (pix d)) size.1 size.2 (pix d) Hok) as (s & E & Hok' & Er);
    [by apply drawable_priv|done|apply granted|apply granted|].
  rewrite E. cbn [mbind option_bind]. exists (set_pix s d). split; [done|]. split.
  - split; [done|]. apply same_pix. by apply copy_frame in E.
  - intros x. unfold win_pixmap. cbn. by rewrite Er.
Qed.

Lemma flip_ok_same d d' ch : same_but_pixmaps d d' -> (forall x, win_pixmap d' x = win_pixmap d x) -> flip_ok d ch -> flip_ok d' ch.
Proof.
  intros Hs V [H1 H2 H3 H4 H5 H6]. destruct (flip_same d d' Hs) as (C & R & L & P & D).
  assert (Hon : forall p, on_screen d' p <-> on_screen d p) by (intros p; unfold on_screen; by rewrite C, P).
  split; rewrite ?C, ?R, ?L, ?P, ?D; try done.
  - intros Hfp. destruct (H3 Hfp) as [? Hd]. split; [done|]. apply drawable_priv. apply drawable_priv in Hd.
    destruct Hs as (s & m & -> & F & _). by apply (drawable_frame (pix d)).
  - apply Hon. specialize (V (root d)). unfold win_pixmap in V. rewrite R, Z.eqb_refl in V. by rewrite V.
  - intros w l Hw El. rewrite !V, !Hon. by apply H5.
  - intros w l Hw El. rewrite !V. by apply H6.
Qed.

(** The windows after both walks. *)
Lemma restored_values d ch d1 d2 : tree_ok d ch -> flip_ok d ch ->
  let '(fw, fp) := current_flip d in let p0 := screen_pixmap (pix d) in
  (fw = 0 \/ win_pixmap d fw <> fp) /\ d1 = d \/ walked base ch fp p0 fw d d1 /\ fw <> 0 ->
  win_pixmap d1 (root d) = p0 /\ d2 = d1 \/ win_pixmap d1 (root d) = fp /\ walked base ch fp p0 (root d) d1 d2 ->
  forall x, x ∈ (root d :: ids ch) -> win_pixmap d2 x = restored d (win_pixmap d x).
Proof.
  intros Ht Hf. pose proof (flips_gone d ch d1 d2 Ht Hf) as Hgone. pose proof (fl_window d ch Hf) as Hwin.
  pose proof (fl_root d ch Hf) as Hroot. pose proof (fl_other d ch Hf) as Hother.
  unfold on_screen in Hroot. destruct (current_flip d) as [fw fp] eqn:Ecf. cbn [fst snd] in *. cbn zeta in *.
  set (p0 := screen_pixmap (pix d)) in *. intros H1 H2 x Hx.
  assert (V : win_pixmap d2 x = win_pixmap d x \/ win_pixmap d x = fp /\ win_pixmap d2 x = p0).
  { assert (win_pixmap d1 x = win_pixmap d x \/ win_pixmap d x = fp /\ win_pixmap d1 x = p0) as V1
      by (destruct H1 as [[_ ->]|[Hw _]]; [by left|apply Hw]).
    assert (win_pixmap d2 x = win_pixmap d1 x \/ win_pixmap d1 x = fp /\ win_pixmap d2 x = p0) as V2
      by (destruct H2 as [[_ ->]|[_ Hw]]; [by left|apply Hw]).
    destruct V1 as [V1|[V1 V1']], V2 as [V2|[V2 V2']]; [left|right|right|right]; (split || idtac); congruence. }
  unfold restored. fold p0. case_decide as Hon; unfold on_screen in Hon; rewrite Ecf in Hon; cbn [snd] in Hon; fold p0 in Hon.
  - destruct Hon as [E|[Hfp E]]; [destruct V as [V|[_ V]]; congruence|].
    destruct V as [V|[_ V]]; [|done]. by destruct (Hgone Hfp H1 H2 x Hx); rewrite V.
  - destruct V as [V|[E V]]; [done|]. destruct (decide (fp = 0)) as [E0|]; [|tauto].
    (* without a flip nothing is replaced *)
    destruct H1 as [[_ ->]|[_ Hfw]]; [|by destruct (Hwin Hfw)].
    assert (Er : win_pixmap d (root d) = root_pixmap (pix d)) by (unfold win_pixmap; by rewrite Z.eqb_refl).
    destruct H2 as [[_ ->]|[E2 _]]; [done|]. rewrite Er in E2. destruct Hroot as [Hroot|[? _]]; congruence.
Qed.

(** The two calls of [present_set_tree_pixmap]. *)
Lemma restore_walks d ch : tree_ok d ch -> flip_ok d ch -> pixmaps_ok base (pix d) ->
  is_Some (privs (pix d) !! screen_pixmap (pix d)) -> let '(fw, fp) := current_flip d in
  exists d', (d1 ← (if negb (fw =? 0) then present_set_tree_pixmap e fw fp (screen_pixmap (pix d)) d else Some d);
              if negb (root d1 =? 0) then present_set_tree_pixmap e (root d1) 0 (screen_pixmap (pix d1)) d1 else Some d1) = Some d' /\
    walking base d d' /\ forall x, x ∈ (root d :: ids ch) -> win_pixmap d' x = restored d (win_pixmap d x).
Proof.
  intros Ht Hf Hok Hlive. pose proof (restored_values d ch) as Hval. pose proof (fl_window d ch Hf) as Hwin.
  pose proof (fl_root d ch Hf) as Hroot. pose proof (fl_other d ch Hf) as Hother. unfold on_screen in Hroot.
  destruct (current_flip d) as [fw fp] eqn:Ecf. cbn [fst snd] in *. set (p0 := screen_pixmap (pix d)) in *.
  assert (H1 : exists d1, (if negb (fw =? 0) then present_set_tree_pixmap e fw fp p0 d else Some d) = Some d1 /\
    walking base d d1 /\ ((fw = 0 \/ win_pixmap d fw <> fp) /\ d1 = d \/ walked base ch fp p0 fw d d1 /\ fw <> 0)).
  { destruct (Z.eqb_spec fw 0) as [->|Hfw]; cbn [negb].
    { exists d. split; [done|]. split; [by split|]. left. split; [by left|done]. }
    destruct (Hwin Hfw) as [Hfp Hin].
    destruct (set_tree_ok d ch fw fp p0 Ht Hok Hin Hlive) as (d1 & E1 & H1).
    exists d1. split; [done|]. destruct H1 as [[-> Hv]|(Hw & Hne & [?|Eo])]; [|done|].
    - split; [by split|]. left. split; [|done]. right. destruct Hv as [Ev|[_ Hv]]; [congruence|done].
    - split; [apply Hw|]. right. rewrite Eo in Hw. done. }
  destruct H1 as (d1 & E1 & Hd1 & H1). rewrite E1. cbn [mbind option_bind].
  destruct (flip_same d d1 (proj2 Hd1)) as (C1 & R1 & L1 & P1 & _). pose proof (tree_same d d1 ch (proj2 Hd1) Ht) as Ht1.
  rewrite R1, P1, (proj2 (Z.eqb_neq (root d) 0)) by apply Ht. cbn [negb].
  destruct (set_tree_ok d1 ch (root d) 0 p0 Ht1 (proj1 Hd1)) as (d2 & E2 & H2);
    [rewrite R1; by left|by apply (live_same d); [apply Hd1|]|].
  fold p0. rewrite E2. exists d2. split; [done|].
  assert (Hd2 : walking base d1 d2) by (destruct H2 as [[-> _]|[Hw _]]; [split; [apply Hd1|done]|apply Hw]).
  split; [split; [apply Hd2|]; etrans; [apply Hd1|apply Hd2]|].
  apply (Hval d1 d2 Ht Hf H1). destruct H2 as [[-> [Ev|[? _]]]|(Hw & Hne & _)]; [by left|done|]. right.
  assert (win_pixmap d1 (root d) = fp) as E; [|by rewrite E in Hw].
  assert (win_pixmap d (root d) = root_pixmap (pix d)) as Er by (unfold win_pixmap; by rewrite Z.eqb_refl).
  assert (win_pixmap d1 (root d) = win_pixmap d (root d) \/ win_pixmap d1 (root d) = p0) as [E|?]; [| |congruence].
  { destruct H1 as [[_ ->]|[Hw1 _]]; [by left|]. destruct (wk_values _ _ _ _ _ _ _ Hw1 (root d)) as [|[_ ?]]; [by left|by right]. }
  rewrite E, Er in *. destruct Hroot as [?|[_ ?]]; congruence.
Qed.

Lemma restore_ok d ch : tree_ok d ch -> flip_ok d ch -> pixmaps_ok base (pix d) ->
  is_Some (privs (pix d) !! screen_pixmap (pix d)) -> drawable (pix d) (screen_pixmap (pix d)) ->
  exists d', present_restore_screen_pixmap e d = Some d' /\ walking base d d' /\
    forall x, x ∈ (root d :: ids ch) -> win_pixmap d' x = restored d (win_pixmap d x).
Proof.
  intros Ht Hf Hok Hlive Hs. unfold present_restore_screen_pixmap.
  destruct (save_ok d ch Ht Hf Hok Hs) as (d0 & E0 & Hd0 & V0).
  destruct (flip_same d d0 (proj2 Hd0)) as (C0 & R0 & L0 & P0 & _).
  pose proof (restore_walks d0 ch (tree_same d d0 ch (proj2 Hd0) Ht) (flip_ok_same d d0 ch (proj2 Hd0) V0 Hf) (proj1 Hd0)) as Hw.
  rewrite P0 in Hw. specialize (Hw (live_same d d0 _ (proj2 Hd0) Hlive)).
  rewrite C0, R0 in Hw. assert (Hres : forall p, restored d0 p = restored d p) by (intros p; by apply restored_same).
  destruct (current_flip d) as [fw fp] eqn:Ecf. cbn [fst snd] in *.
  rewrite (proj2 (Z.eqb_neq (root d) 0)) by apply Ht.
  rewrite (GetWindowPixmap_ok d ch (root d) Ht ltac:(by left)). cbn [fmap option_fmap option_map mbind option_bind].
  rewrite E0. cbn [mbind option_bind]. rewrite P0.
  destruct Hw as (d' & E & Hd' & Hv). exists d'. split; [exact E|]. split.
  - split; [apply Hd'|]. etrans; [apply Hd0|apply Hd'].
  - intros x Hx. rewrite Hv by done. by rewrite V0, Hres.
Qed.
End restore.

(** ** A new pixmap for the screen *)

(** The system has memory for a buffer that can be shared. *)
Definition memory_granted (e : BufEnv) : Prop :=
  0 < env_ashm e /\ map_ok (env_mmap e) = true /\ env_ahb_err e = 0 /\ env_ahb e <> 0 /\ env_struct e <> 0.

Lemma allocate_granted page e width height format type w p w' : memory_granted e -> acceptable width height format = true ->
  type = LORIEBUFFER_FD \/ type = LORIEBUFFER_AHARDWAREBUFFER ->
  LorieBuffer_allocate page e width height format type w = Some (p, w') -> p = env_struct e.
Proof.
  intros (Ha & Hm & He & Hh & Hs) Hacc Ht. unfold LorieBuffer_allocate, LorieBuffer_createRegion.
  rewrite (proj2 (Z.eqb_neq (env_ashm e) 0)) by lia. rewrite He, (proj2 (Z.eqb_eq 0 0)) by done.
  destruct Ht as [->| ->]; cbn [Z.eqb LORIEBUFFER_FD LORIEBUFFER_AHARDWAREBUFFER Pos.eqb negb mbind option_bind fst snd].
  - rewrite (proj2 (Z.ltb_ge (env_ashm e) 0)) by lia. unfold allocate, allocate_fill. rewrite Hacc.
    cbn [Z.eqb LORIEBUFFER_FD LORIEBUFFER_AHARDWAREBUFFER LORIEBUFFER_REGULAR Pos.eqb negb andb].
    rewrite (proj2 (Z.ltb_ge (env_ashm e) 0)) by lia. rewrite Hm. cbn [negb mbind option_bind].
    rewrite (proj2 (Z.eqb_neq (env_struct e) 0)) by done. by intros [= <- _].
  - unfold allocate, allocate_fill.
    cbn [Z.eqb LORIEBUFFER_FD LORIEBUFFER_AHARDWAREBUFFER LORIEBUFFER_REGULAR Pos.eqb negb andb].
    rewrite (proj2 (Z.eqb_neq (env_ahb e) 0)) by done. destruct (env_describe e) as [[[a b] c] f]. cbn [mbind option_bind].
    rewrite (proj2 (Z.eqb_neq (env_struct e) 0)) by done. by intros [= <- _].
Qed.

Lemma lock_root e x s r : lock_priv e x s = Some r -> root_pixmap r.2 = root_pixmap s.
Proof.
  unfold lock_priv. intros H. apply bind_Some in H as (v & _ & H). apply bind_Some in H as ([[ret out] w] & _ & H).
  by injection H as <-.
Qed.

(** The other pixmaps are not touched. *)
Definition others_kept (x : Z) (s s' : Screen) : Prop := forall y, y <> x -> attached s' y = attached s y.

Section new_pixmap.
Context (page : Z) (legacyDrawing flip : bool) (base : list resource).

Lemma create_screen_ok e el x width height s : pixmaps_ok base s -> privs s !! x = None -> x <> root_pixmap s ->
  fresh_struct e (world s) -> memory_granted e -> grants el -> 1 <= width -> 1 <= height ->
  exists pitch s', lorieCreatePixmap page legacyDrawing flip true e el x width height CREATE_PIXMAP_USAGE_LORIEBUFFER_BACKED s
      = Some (true, pitch, s') /\ pixmaps_ok base s' /\ others_kept x s s' /\ screen_pixmap s' = screen_pixmap s /\
    root_pixmap s' = root_pixmap s /\ exists v, privs s' !! x = Some v /\ buffer v <> 0.
Proof.
  intros Hok Hx Hroot Hf Hg Hl Hw Hh. pose proof Hg as (Hashm & _ & _ & Hahb & Hs).
  destruct (pixmap_create_ok page legacyDrawing flip base true e el x width height CREATE_PIXMAP_USAGE_LORIEBUFFER_BACKED s)
    as ([[ok pitch] s'] & E & Hok' & Hiff); try done; [lia|lia|lia|]. cbn [fst snd] in Hok', Hiff.
  pose proof E as E'. unfold lorieCreatePixmap in E'. cbn [negb] in E'.
  rewrite (proj2 (Z.eqb_neq width 0)), (proj2 (Z.eqb_neq height 0)) in E' by lia. cbn [orb] in E'.
  change (CREATE_PIXMAP_USAGE_LORIEBUFFER_BACKED =? CREATE_PIXMAP_USAGE_LORIEBUFFER_BACKED) with true in E'. cbn [negb] in E'.
  apply bind_Some in E' as ([p w] & Ea & E'). apply bind_Some in E' as (dsc & _ & E'). apply bind_Some in E' as (r & Er & E').
  assert (p = env_struct e) as ->.
  { apply (allocate_granted page e width height (screen_format flip) (shared_type legacyDrawing) (world s) p w Hg); [| |done].
    - unfold acceptable, screen_format. destruct flip; cbn; apply andb_true_iff; rewrite !Z.ltb_lt; lia.
    - unfold shared_type. destruct legacyDrawing; [by left|by right]. }
  rewrite (proj2 (Z.eqb_neq (env_struct e) 0)) in E' by done. injection E' as <- <- <-.
  exists (i32 (dsc_stride dsc * 4)), r.2. pose proof (lock_frame _ _ _ _ Er) as F. pose proof (lock_root _ _ _ _ Er) as R.
  split; [done|]. split; [done|]. split; [|split; [by rewrite (fr_screen _ _ F)|split; [done|]]].
  - intros y Hy. rewrite (fr_attached _ _ F). unfold attached. cbn [privs upd_priv set_privs set_world].
    by rewrite lookup_insert_ne.
  - pose proof (fr_attached _ _ F x) as Fx. unfold attached in Fx. cbn [privs upd_priv set_privs set_world] in Fx.
    rewrite lookup_insert_eq in Fx. cbn in Fx. destruct (privs r.2 !! x) as [v|]; [|done]. exists v. split; [done|].
    injection Fx as Eb _. by rewrite Eb.
Qed.

(** The answers to a resize at [d]: there is memory for everything, where nothing is yet. *)
Definition resize_granted (e : ResizeEnv) (d : Display) : Prop :=
  re_pixmap e <> 0 /\ privs (pix d) !! re_pixmap e = None /\ re_calloc e = true /\ re_damage e = true /\
  memory_granted (re_alloc e) /\ bufs (world (pix d)) !! env_struct (re_alloc e) = None /\
  grants (re_lock e) /\ grants (re_src e) /\ grants (re_dst e) /\ grants (re_set e).

Lemma exaCreatePixmap_ok e width height d : pixmaps_ok base (pix d) -> resize_granted e d ->
  1 <= width <= 32767 -> 1 <= height <= 32767 -> exists s,
  exaCreatePixmap page legacyDrawing flip e width height CREATE_PIXMAP_USAGE_LORIEBUFFER_BACKED d =
    Some (re_pixmap e, set_table (<[re_pixmap e := 1]> (refcnts d)) (<[re_pixmap e := (width, height)]> (dims d)) (set_pix s d)) /\
  pixmaps_ok base s /\ others_kept (re_pixmap e) (pix d) s /\ screen_pixmap s = screen_pixmap (pix d) /\
  root_pixmap s = root_pixmap (pix d) /\ exists v, privs s !! re_pixmap e = Some v /\ buffer v <> 0.
Proof.
  intros Hok (H0 & Hnone & Hc & _ & Hm & Hb & Hl & _) Hw Hh. unfold exaCreatePixmap. rewrite Hc.
  rewrite (proj2 (Z.ltb_ge 32767 width)), (proj2 (Z.ltb_ge 32767 height)), (proj2 (Z.eqb_neq (re_pixmap e) 0)) by (lia || done).
  cbn [orb]. destruct (create_screen_ok (re_alloc e) (re_lock e) (re_pixmap e) width height (pix d)) as (pitch & s & -> & H);
    try done; [|by right|lia|lia|].
  - intros E. destruct (po_root _ _ Hok) as [?|[v Hv]]; congruence.
  - cbn [mbind option_bind negb]. by exists s.
Qed.

(** ** The old pixmap goes *)

Lemma unregister_set_world p s s' : lorieUnregisterBuffer p s = Some s' -> screen_pixmap s' = screen_pixmap s.
Proof.
  unfold lorieUnregisterBuffer. destruct (p =? 0); [by intros [= <-]|]. intros H.
  apply bind_Some in H as (dsc & _ & H). apply bind_Some in H as (q & _ & H). destruct (_ || _); by injection H as <-.
Qed.

Lemma destroy_frame r x s s' : lorieExaDestroyPixmap r x s = Some s' -> others_kept x s s' /\ screen_pixmap s' = screen_pixmap s.
Proof.
  unfold lorieExaDestroyPixmap. intros H. apply bind_Some in H as (v & _ & H). apply bind_Some in H as (s1 & E1 & H).
  injection H as <-. split.
  - intros y Hy. unfold attached. cbn [privs set_privs]. by rewrite lookup_delete_ne.
  - cbn [screen_pixmap set_privs]. destruct (negb (buffer v =? 0)); [|by injection E1 as <-].
    apply bind_Some in E1 as (s2 & E2 & E1). apply bind_Some in E1 as (s3 & E3 & E1). apply unregister_set_world in E3.
    unfold release_buffer in E1. apply bind_Some in E1 as (w & _ & E1). injection E1 as <-. cbn. rewrite E3.
    destruct (negb (locked v =? 0)); [|by injection E2 as <-]. apply unlock_frame in E2. apply E2.
Qed.

Lemma exaDestroyPixmap_ok e x d : pixmaps_ok base (pix d) -> is_Some (privs (pix d) !! x) -> x <> root_pixmap (pix d) ->
  refcnts d !! x = Some 1 -> exists s,
  exaDestroyPixmap e x d = Some (set_table (delete x (refcnts d)) (delete x (dims d)) (set_pix s d)) /\
  pixmaps_ok base s /\ others_kept x (pix d) s /\ screen_pixmap s = screen_pixmap (pix d) /\
  root_pixmap s = root_pixmap (pix d) /\ privs s !! x = None.
Proof.
  intros Hok Hx Hr Hn. unfold exaDestroyPixmap. rewrite Hn. cbn [mbind option_bind Z.eqb Pos.eqb].
  destruct (destroy_ok base (re_unlock e) x (pix d) Hok Hx Hr) as (s & E & Hok' & Er & Ex). rewrite E. cbn [mbind option_bind].
  exists s. split; [done|]. apply destroy_frame in E as [? ?]. done.
Qed.

(** All windows with the old pixmap are reached when their parents have it too. *)
Lemma replace_pixmap_ok e old d ch : let new := screen_pixmap (pix d) in
  tree_ok d ch -> pixmaps_ok base (pix d) -> old <> 0 -> old <> new -> drawable (pix d) old -> drawable (pix d) new ->
  is_Some (dims d !! old) -> is_Some (dims d !! new) -> refcnts d !! old = Some 1 ->
  grants (re_src e) /\ grants (re_dst e) /\ grants (re_set e) -> win_pixmap d (root d) = old ->
  (forall w l, w ∈ ids ch -> win_links d !! w = Some l -> win_pixmap d w = old -> win_pixmap d (parent l) = old) ->
  exists s m, let d' := set_table (delete old (refcnts d)) (delete old (dims d)) (set_pix s (set_win_pixmaps m d)) in
    replace_pixmap e old new d = Some d' /\ pixmaps_ok base s /\ others_kept old (pix d) s /\ screen_pixmap s = new /\
    privs s !! old = None /\ dom m = dom (win_pixmaps d) /\
    forall x, x ∈ (root d :: ids ch) -> win_pixmap d' x = if win_pixmap d x =? old then new else win_pixmap d x.
Proof.
  intros new Ht Hok H0 Hne Hold Hnew [a Ha] [b Hb] Hrc (Gs & Gd & Gr) Hroot Hup. unfold replace_pixmap.
  rewrite (proj2 (Z.eqb_neq old 0)) by done.
  assert (Hcopy : exists s, (if re_gc e then
           '(a : Z * Z) ← dims d !! old; '(b : Z * Z) ← dims d !! new;
           s ← copy_area e old new (Z.min (fst a) (fst b)) (Z.min (snd a) (snd b)) (pix d); Some (set_pix s d)
         else Some d) = Some (set_pix s d) /\ pixmaps_ok base s /\ frame (pix d) s /\ root_pixmap s = root_pixmap (pix d)).
  { destruct (re_gc e); [|exists (pix d); split; [by destruct d|done]]. rewrite Ha, Hb. cbn [mbind option_bind].
    destruct (copy_ok base e old new (Z.min a.1 b.1) (Z.min a.2 b.2) (pix d) Hok Hold Hnew Gs Gd) as (s & E & Hok' & Er).
    rewrite E. cbn [mbind option_bind]. exists s. apply copy_frame in E. done. }
  destruct Hcopy as (s1 & -> & Hok1 & F1 & Er1). cbn [mbind option_bind]. set (d1 := set_pix s1 d).
  assert (Hs1 : same_but_pixmaps d d1) by by apply same_pix. pose proof (tree_same d d1 ch Hs1 Ht) as Ht1.
  assert (V1 : forall x, win_pixmap d1 x = win_pixmap d x) by (intros x; unfold win_pixmap; cbn; by rewrite Er1).
  assert (P1 : screen_pixmap (pix d1) = new) by apply F1.
  assert (Hlive : is_Some (privs (pix d1) !! screen_pixmap (pix d1))).
  { rewrite P1. apply (live_same d); [done|]. apply drawable_priv in Hnew as (v & -> & _). by eexists. }
  pose proof (screen_visits_replace e base Gr d1 old Hlive) as Hvis. rewrite P1 in Hvis.
  destruct (walk_replaces base (lorieSetPixmapVisitWindow e old) d1 ch old new (root d1) Ht1 Hok1 Hne ltac:(by left) Hvis) as (d2 & E2 & W2).
  rewrite E2. cbn [mbind option_bind snd]. destruct W2 as [[Hok2 Hs2] Vals Vtop Vbelow].
  destruct Hs2 as (s2 & m & -> & F2 & Em). cbn [pix set_pix set_win_pixmaps] in Hok2, F2.
  specialize (Vtop ltac:(by rewrite V1)).
  assert (Hgone : forall x, x ∈ (root d :: ids ch) -> win_pixmap (set_pix s2 (set_win_pixmaps m d1)) x <> old).
  { assert (Hr : win_pixmap (set_pix s2 (set_win_pixmaps m d1)) (root d) <> old).
    { change (root d) with (root d1). congruence. }
    intros x [->|Hx]%elem_of_cons; [done|]. revert x Hx. apply (tree_ind_parent (win_links d) _ (root d) ch (tr_links d ch Ht) Hr).
    intros x l Hx El Hq Ex. assert (Eo : win_pixmap d1 x = old) by (destruct (Vals x) as [|[? ?]]; congruence).
    rewrite V1 in Eo. pose proof (Hup x l Hx El Eo) as Ep.
    destruct (Vals (parent l)) as [Eq|[_ Eq]]; [rewrite V1 in Eq; congruence|].
    pose proof (Vbelow x l Hx El ltac:(by rewrite V1) ltac:(by rewrite V1) Eq). congruence. }
  destruct (exaDestroyPixmap_ok e old (set_pix s2 (set_win_pixmaps m d1)) Hok2) as (s3 & E3 & Hok3 & K3 & P3 & R3 & N3).
  { cbn. apply drawable_priv in Hold as (v & Hv & _). rewrite <- (attached_live s1), <- (attached_live (pix d)) by (apply F1 || apply F2).
    by eexists. }
  { intros E. apply (Hgone (root d)); [by left|]. unfold win_pixmap. cbn. by rewrite Z.eqb_refl. }
  { done. }
  rewrite E3. exists s3, m. cbn zeta. split; [done|]. split; [done|]. split; [|split; [|split; [done|split; [done|]]]].
  - intros y Hy. rewrite K3 by done. cbn. by rewrite (fr_attached _ _ F2), (fr_attached _ _ F1).
  - rewrite P3. cbn. rewrite (fr_screen _ _ F2). exact P1.
  - intros x Hx. assert (win_pixmap (set_table (delete old (refcnts d)) (delete old (dims d)) (set_pix s3 (set_win_pixmaps m d))) x
      = win_pixmap (set_pix s2 (set_win_pixmaps m d1)) x) as ->.
    { unfold win_pixmap. cbn. destruct (x =? root d); [exact R3|done]. }
    specialize (Hgone x Hx). destruct (Vals x) as [E|[E E']]; rewrite V1 in E.
    + destruct (Z.eqb_spec (win_pixmap d x) old); [congruence|done].
    + by rewrite E, Z.eqb_refl.
Qed.
End new_pixmap.

Section resizing.
Context (page : Z) (legacyDrawing flip : bool) (monitorResolution : Z).
Context (vblank_queue : Z) (flip_depth : nat) (reaction : Z -> list reply) (flips : Display -> Display).
Context (queue_ok : Present -> Prop) (base : list resource).

Lemma short_millimetres_ok n : 0 <= n <= 32767 -> 26 <= monitorResolution <= 1000000 ->
  is_Some (short_millimetres monitorResolution n).
Proof.
  intros Hn Hd. unfold short_millimetres.
  destruct (in_millimetres_int (- 2 ^ 15) (2 ^ 15 - 1) 32767 n monitorResolution) as (z & -> & _); [lia..|by exists z].
Qed.

(** [d1] became [d5]: the screen's pixmap is [new] now, all windows that showed the screen or
    a flip show it, and the old one is gone. *)
Record resized (new : Z) (size : Z * Z) (d1 d5 : Display) (ch : forest) : Prop := {
  rs_screen : screen_pixmap (pix d5) = new;
  rs_new : new <> 0 /\ privs (pix d1) !! new = None /\ exists v, privs (pix d5) !! new = Some v /\ buffer v <> 0;
  rs_others : forall y, y <> new -> y <> screen_pixmap (pix d1) -> attached (pix d5) y = attached (pix d1) y;
  rs_table : refcnts d5 = delete (screen_pixmap (pix d1)) (<[new := 1]> (refcnts d1)) /\
             dims d5 = delete (screen_pixmap (pix d1)) (<[new := size]> (dims d1));
  rs_links : win_links d5 = win_links d1 /\ root d5 = root d1 /\ dom (win_pixmaps d5) = dom (win_pixmaps d1);
  rs_flips : flip_pending d5 = flip_pending d1 /\ flip_window d5 = flip_window d1 /\ flip_pixmap d5 = flip_pixmap d1;
  rs_present : present d5 = present d1;
  rs_sizes : let z := sizes d5 in scr_size z = size /\ root_size z = size /\ pvfb_size z = size /\ rr_size z = size /\ desktop z = size;
  rs_windows : forall x, x ∈ (root d1 :: ids ch) ->
    win_pixmap d5 x = if decide (on_screen d1 (win_pixmap d1 x)) then new else win_pixmap d1 x;
}.

Lemma resized_display new size d1 d5 ch : resized new size d1 d5 ch -> display_ok queue_ok base d1 ->
  tree_ok d1 ch -> flip_ok d1 ch -> (forall w, w ∈ (root d1 :: ids ch) -> is_Some (privs (pix d1) !! win_pixmap d1 w)) ->
  pixmaps_ok base (pix d5) -> display_ok queue_ok base d5.
Proof.
  intros R [_ _ Hq [Hs0 (vs & Hvs & _)] _ _] Ht Hf Hlive Hok.
  destruct (rs_new _ _ _ _ _ R) as (Hn0 & Hnone & Hnew). destruct (rs_links _ _ _ _ _ R) as (El & Er & Ed).
  destruct (rs_table _ _ _ _ _ R) as [Erc Edm]. destruct (rs_flips _ _ _ _ _ R) as (Ef1 & Ef2 & Ef3).
  pose proof (rs_windows _ _ _ _ _ R) as V. pose proof (rs_screen _ _ _ _ _ R) as Es.
  assert (Ecf : current_flip d5 = current_flip d1) by (unfold current_flip; by rewrite Ef1, Ef2, Ef3).
  assert (Hne : screen_pixmap (pix d1) <> new) by (intros E; congruence).
  assert (Hkeep : forall p, is_Some (privs (pix d1) !! p) -> p <> screen_pixmap (pix d1) -> is_Some (privs (pix d5) !! p)).
  { intros p [v Hp] Hps. pose proof (rs_others _ _ _ _ _ R p ltac:(congruence) Hps) as Ha. unfold attached in Ha.
    rewrite Hp in Ha. destruct (privs (pix d5) !! p); [by eexists|done]. }
  assert (Hfp : (current_flip d1).2 <> new).
  { intros E. destruct (fl_pixmap d1 ch Hf) as (_ & v & Hv & _); congruence. }
  (* what a window shows now *)
  assert (Hon : forall w, w ∈ (root d1 :: ids ch) -> on_screen d5 (win_pixmap d5 w) <-> on_screen d1 (win_pixmap d1 w)).
  { intros w Hw. rewrite (V w Hw). case_decide as Hd; [split; [done|]; intros _; left; by rewrite Es|].
    split; [|done]. intros [E|[H1 E]]; [|right; by rewrite Ecf in *]. rewrite Es in E.
    destruct (Hlive w Hw) as [v Hv]. congruence. }
  assert (Hpar : forall w l, w ∈ ids ch -> win_links d1 !! w = Some l -> parent l ∈ (root d1 :: ids ch)).
  { intros w l Hw E. destruct (represents_parent _ _ _ w (tr_links d1 ch Ht) Hw) as (l' & E' & H). apply elem_of_cons.
    destruct H as [?|?]; [left|right]; congruence. }
  split; [done| |by rewrite (rs_present _ _ _ _ _ R)|by rewrite Es| |].
  2: { by rewrite Es, Erc, lookup_delete_ne, lookup_insert_eq. }
  2: { rewrite Es, Edm, lookup_delete_ne, lookup_insert_eq by done. f_equal. symmetry. apply (rs_sizes _ _ _ _ _ R). }
  exists ch. split; [|split].
  - destruct Ht as [T1 T2 T3 T4 T5]. split; rewrite ?El, ?Er; try done.
    intros w Hw. rewrite <- elem_of_dom, Ed, elem_of_dom. auto.
  - split; rewrite ?Ecf, ?El, ?Er.
    + apply Hf.
    + by rewrite Es.
    + intros Hfp0. destruct (fl_pixmap d1 ch Hf Hfp0) as [Hdim Hdr]. pose proof (fl_other d1 ch Hf) as Ho. split.
      * by rewrite Edm, lookup_delete_ne, lookup_insert_ne.
      * apply drawable_priv. apply drawable_priv in Hdr. unfold drawable. by rewrite (rs_others _ _ _ _ _ R).
    + assert (root_pixmap (pix d5) = win_pixmap d5 (root d1)) as -> by (unfold win_pixmap; by rewrite Er, Z.eqb_refl).
      apply Hon; [by left|]. unfold win_pixmap. rewrite Z.eqb_refl. apply Hf.
    + intros w l Hw E. rewrite !Hon; [by apply (fl_up d1 ch Hf)|by apply (Hpar w)|by right].
    + intros w l Hw E Hfp0 Ew. rewrite (V w ltac:(by right)) in Ew. case_decide as Hd; [congruence|].
      destruct Hd. by right.
  - intros w Hw. rewrite Er in Hw. rewrite (V w Hw). case_decide as Hd.
    + destruct Hnew as (v & -> & _). by eexists.
    + apply Hkeep; [by apply Hlive|]. intros E. apply Hd. by left.
Qed.

Lemma others_trans x s1 s2 s3 : others_kept x s1 s2 -> (forall y, attached s3 y = attached s2 y) -> others_kept x s1 s3.
Proof. intros H1 H2 y Hy. by rewrite H2, H1. Qed.

Lemma register_screen_ok d v : pixmaps_ok base (pix d) -> privs (pix d) !! screen_pixmap (pix d) = Some v -> buffer v <> 0 ->
  exists s, register_screen d = Some (set_pix s d) /\ pixmaps_ok base s /\ frame (pix d) s /\ root_pixmap s = root_pixmap (pix d).
Proof.
  intros Hok Hv Hb. unfold register_screen. rewrite Hv. cbn [mbind option_bind].
  destruct (po_tracks _ _ Hok _ v Hv Hb) as (b & Hlive & _).
  destruct (register_ok base (buffer v) (pix d) Hok ltac:(by eexists)) as (s & E & Hok' & K & _). rewrite E. cbn [mbind option_bind].
  exists s. apply register_frame in E. done.
Qed.

(** The last part of the resize: the new pixmap takes the place of the old one. *)
Lemma install_ok e ch size d : let new := re_pixmap e in let old := screen_pixmap (pix d) in
  let d1 := set_damage (Some {| dm_pixmap := new; dm_region := false |}) (set_pix (set_screen_pixmap new (pix d)) d) in
  tree_ok d ch -> pixmaps_ok base (pix d) -> new <> 0 -> old <> 0 -> old <> new -> drawable (pix d) old ->
  (exists v, privs (pix d) !! new = Some v /\ buffer v <> 0) -> is_Some (dims d !! old) -> dims d !! new = Some size ->
  refcnts d !! old = Some 1 -> grants (re_src e) /\ grants (re_dst e) /\ grants (re_set e) -> win_pixmap d (root d) = old ->
  (forall w l, w ∈ ids ch -> win_links d !! w = Some l -> win_pixmap d w = old -> win_pixmap d (parent l) = old) ->
  exists s m, let d2 := set_table (delete old (refcnts d)) (delete old (dims d)) (set_pix s (set_win_pixmaps m d1)) in
    (d' ← replace_pixmap e old new d1; register_screen d') = Some d2 /\ pixmaps_ok base s /\ others_kept old (pix d) s /\
    screen_pixmap s = new /\ privs s !! old = None /\ dom m = dom (win_pixmaps d) /\
    forall x, x ∈ (root d :: ids ch) -> win_pixmap d2 x = if win_pixmap d x =? old then new else win_pixmap d x.
Proof.
  intros new old d1 Ht Hok Hn0 Ho0 Hne Hdo (v & Hv & Hvb) Hdim Hdn Hrc Hg Hroot Hup.
  assert (Hok1 : pixmaps_ok base (pix d1)) by (apply (pixmaps_frame base (pix d)); try done; apply Hok).
  assert (Hdn1 : drawable (pix d1) new) by (apply drawable_priv; exists v; split; [done|by left]).
  assert (Ht1 : tree_ok d1 ch) by (by destruct Ht).
  destruct (replace_pixmap_ok base e old d1 ch Ht1 Hok1 Ho0 Hne Hdo Hdn1 Hdim ltac:(by eexists) Hrc Hg Hroot Hup)
    as (s & m & E & Hok2 & K2 & P2 & N2 & Em & V2).
  change (screen_pixmap (pix d1)) with new in *. rewrite E. cbn [mbind option_bind].
  set (d2 := set_table _ _ _) in *.
  pose proof (K2 new (not_eq_sym Hne)) as Ka. unfold attached in Ka. cbn in Ka. fold new in Ka. rewrite Hv in Ka. cbn in Ka.
  destruct (privs s !! new) as [v2|] eqn:Ev2; [|done]. injection Ka as Eb _.
  destruct (register_screen_ok d2 v2 Hok2) as (s3 & E3 & Hok3 & F3 & R3); [by cbn; rewrite P2|by rewrite Eb|].
  cbn [pix d2 set_table set_pix] in Hok3, F3, R3. rewrite E3. exists s3, m. cbn zeta.
  split; [done|]. split; [done|]. split; [|split; [|split; [|split; [done|]]]].
  - apply (others_trans _ _ s); [exact K2|apply F3].
  - by rewrite (fr_screen _ _ F3).
  - pose proof (fr_attached _ _ F3 old) as Ha. unfold attached in Ha. rewrite N2 in Ha. by destruct (privs s3 !! old).
  - intros x Hx. transitivity (win_pixmap d2 x); [|exact (V2 x Hx)]. unfold win_pixmap. cbn. by rewrite R3.
Qed.

(** The sizes in between. *)
Definition sized (size : Z * Z) (z : Sizes) : Prop := scr_size z = size /\ root_size z = size /\ pvfb_size z = size.

(** The second half of the resize: [s] are the pixmaps with the new one, and all windows
    that showed the screen or a flip show the screen's old pixmap. *)
Lemma resize_placed e size d1 ch s m z : let new := re_pixmap e in let old := screen_pixmap (pix d1) in
  let d3 := set_table (<[new := 1]> (refcnts d1)) (<[new := size]> (dims d1)) (set_pix s (set_sizes z (set_win_pixmaps m d1))) in
  display_ok queue_ok base d1 -> tree_ok d1 ch -> flip_ok d1 ch ->
  (forall w, w ∈ (root d1 :: ids ch) -> is_Some (privs (pix d1) !! win_pixmap d1 w)) -> resize_granted e d1 ->
  pixmaps_ok base s -> others_kept new (pix d1) s -> screen_pixmap s = old -> dom m = dom (win_pixmaps d1) ->
  (exists v, privs s !! new = Some v /\ buffer v <> 0) -> sized size z ->
  (forall x, x ∈ (root d1 :: ids ch) -> win_pixmap d3 x = restored d1 (win_pixmap d1 x)) ->
  exists d4, (d' ← replace_pixmap e old new (set_damage (Some {| dm_pixmap := new; dm_region := false |})
                (set_pix (set_screen_pixmap new (pix d3)) d3)); register_screen d') = Some d4 /\
    let d5 := set_shared (move_cursor (shared d4)) (set_sizes (sizes_told (sizes d4)) d4) in
    pixmaps_ok base (pix d5) /\ privs (pix d5) !! old = None /\ resized new size d1 d5 ch.
Proof.
  intros new old d3 Hd1 Ht Hf Hlive Hg Hok K P Em Hnew Hz V.
  destruct Hd1 as [Hok1 _ Hq (Hs0 & vs & Hvs & Hvb) Hrc Hdim]. destruct Hg as (Hn0 & Hnone & _ & _ & _ & _ & _ & Gs & Gd & Gr).
  fold new in Hn0, Hnone. fold old in Hs0, Hvs, Hrc, Hdim.
  assert (Hne : old <> new) by (intros E; congruence).
  assert (Hres : forall p, restored d1 p = old <-> on_screen d1 p).
  { intros p. unfold restored. fold old. case_decide as Hon; [done|]. split; [|done]. intros ->. destruct Hon. by left. }
  assert (Hpar : forall w l, w ∈ ids ch -> win_links d1 !! w = Some l -> parent l ∈ (root d1 :: ids ch)).
  { intros w l Hw E. destruct (represents_parent _ _ _ w (tr_links d1 ch Ht) Hw) as (l' & E' & H). apply elem_of_cons.
    destruct H as [?|?]; [left|right]; congruence. }
  assert (Ht3 : tree_ok d3 ch).
  { destruct Ht as [T1 T2 T3 T4 T5]. split; try done. intros w Hw. cbn. rewrite <- elem_of_dom, Em, elem_of_dom. auto. }
  pose proof (install_ok e ch size d3) as I. cbn zeta in I. change (screen_pixmap (pix d3)) with (screen_pixmap s) in I.
  rewrite P in I. fold new in I.
  destruct I as (s4 & m4 & E & Hok4 & K4 & P4 & N4 & Em4 & V4); try done.
  { unfold drawable. cbn. rewrite K by done. apply drawable_priv. exists vs. split; [done|by left]. }
  { exists (scr_size (sizes d1)). cbn. by rewrite lookup_insert_ne. }
  { apply lookup_insert_eq. }
  { cbn. by rewrite lookup_insert_ne. }
  { change (root d3) with (root d1). rewrite V by by left. apply Hres. unfold win_pixmap. rewrite Z.eqb_refl. apply Hf. }
  { intros w l Hw El Ew. change (win_links d3) with (win_links d1) in El. rewrite V in Ew by by right. apply Hres in Ew.
    rewrite V by by apply (Hpar w). apply Hres. by apply (fl_up d1 ch Hf w). }
  eexists. split; [exact E|]. cbn zeta. split; [done|]. split; [done|]. destruct Hz as (Z1 & Z2 & Z3).
  split; cbn; try done.
  - split; [done|]. split; [done|]. destruct Hnew as (v & Hv & Hvb'). pose proof (K4 new (not_eq_sym Hne)) as Ka.
    unfold attached in Ka. cbn in Ka. rewrite Hv in Ka. cbn in Ka. destruct (privs s4 !! new) as [v4|]; [|done].
    injection Ka as Eb _. exists v4. split; [done|]. by rewrite Eb.
  - intros y Hy1 Hy2. rewrite K4 by done. cbn. by rewrite K.
  - split; [done|]. split; [done|]. by rewrite Em4.
  - intros x Hx. transitivity (if win_pixmap d3 x =? old then new else win_pixmap d3 x); [exact (V4 x Hx)|].
    rewrite (V x Hx). destruct (Z.eqb_spec (restored d1 (win_pixmap d1 x)) old) as [E1|E1].
    + apply Hres in E1. by rewrite decide_True.
    + assert (~ on_screen d1 (win_pixmap d1 x)) as Hn by (intros ?; apply E1; by apply Hres). rewrite decide_False by done.
      unfold restored. by rewrite decide_False.
Qed.

Lemma bind_tail {A B C} (x : option A) (f : A -> option B) (h : B -> C) b :
  (a ← x; f a) = Some b -> (a ← x; c ← f a; Some (h c)) = Some (h b).
Proof. destruct x as [a|]; [cbn [mbind option_bind]|done]. by intros ->. Qed.

(** The resize once the vertical blanks are served. *)
Lemma resize_served e width height mw mh d pr : 26 <= monitorResolution <= 1000000 -> 1 <= width <= 32767 -> 1 <= height <= 32767 ->
  loriePerformVblanks vblank_queue reaction (vblank_fuel flip_depth (present d)) (present d) = Some pr ->
  let d1 := flips (set_present pr d) in display_ok queue_ok base d1 -> resize_granted e d1 ->
  exists d5, lorieRRScreenSetSize page legacyDrawing flip monitorResolution vblank_queue flip_depth reaction flips e width height mw mh d
      = Some d5 /\ display_ok queue_ok base d5 /\ privs (pix d5) !! screen_pixmap (pix d1) = None /\
    exists ch, tree_ok d1 ch /\ resized (re_pixmap e) (width, height) d1 d5 ch.
Proof.
  intros Hdpi Hw Hh Epr d1 Hd1 Hg. pose proof Hg as (Hn0 & Hnone & _ & Hdmg & _ & _ & _ & Gs & Gd & Gr).
  pose proof Hd1 as [Hok1 (ch & Ht & Hf & Hlive) Hq (Hs0 & vs & Hvs & Hvb) Hrc Hdim].
  unfold lorieRRScreenSetSize. rewrite !uwrap_small by lia. rewrite Epr. cbn [mbind option_bind]. fold d1.
  assert (Hds : drawable (pix d1) (screen_pixmap (pix d1))) by (apply drawable_priv; exists vs; split; [done|by left]).
  destruct (restore_ok e base (conj Gs (conj Gd Gr)) d1 ch Ht Hf Hok1 ltac:(by eexists) Hds) as (d2 & -> & [Hok2 Hs2] & V2).
  cbn [mbind option_bind]. destruct (short_millimetres_ok width) as [zw ->]; [lia|done|]. cbn [mbind option_bind].
  destruct (short_millimetres_ok height) as [zh ->]; [lia|done|]. cbn [mbind option_bind].
  destruct Hs2 as (s2 & m2 & -> & F2 & Em2). cbn [pix set_pix set_win_pixmaps] in Hok2.
  set (d2 := set_pix s2 (set_win_pixmaps m2 d1)) in *. set (d2' := set_sizes _ d2).
  assert (Hg2 : resize_granted e d2').
  { destruct Hg as (? & ? & ? & ? & ? & Hb & ?). split; [done|split; [|split; [done|split; [done|split; [done|split; [|done]]]]]].
    - pose proof (fr_attached _ _ F2 (re_pixmap e)) as Ha. unfold attached in Ha. rewrite Hnone in Ha.
      change (privs s2 !! re_pixmap e = None). by destruct (privs s2 !! re_pixmap e).
    - change (bufs (world s2) !! env_struct (re_alloc e) = None). apply not_elem_of_dom. rewrite (fr_bufs _ _ F2). by apply not_elem_of_dom. }
  destruct (exaCreatePixmap_ok page legacyDrawing flip base e width height d2' Hok2 Hg2 Hw Hh)
    as (s3 & E3 & Hok3 & K3 & P3 & R3 & Hnew). rewrite E3. cbn [mbind option_bind].
  rewrite (proj2 (Z.eqb_neq (re_pixmap e) 0)), Hdmg by done. cbn [orb negb].
  assert (P2 : screen_pixmap (pix d2') = screen_pixmap (pix d1)) by apply F2. rewrite P2 in P3 |- *.
  destruct (resize_placed e (width, height) d1 ch s3 m2 (resized_to width height zw zh (sizes d1)) Hd1 Ht Hf Hlive Hg Hok3)
    as (d4 & E & Hok5 & N5 & R5); try done.
  { intros y Hy. rewrite K3 by done. apply F2. }
  { unfold sized, resized_to. cbn. by rewrite !swrap_small by lia. }
  { intros x Hx. rewrite <- (V2 x Hx). unfold win_pixmap. cbn. by rewrite R3. }
  eexists. split; [exact (bind_tail _ _ (fun d => set_shared (move_cursor (shared d)) (set_sizes (sizes_told (sizes d)) d)) _ E)|]. split; [by eapply resized_display|]. split; [done|]. by exists ch.
Qed.
(** The loop over the vertical blanks has enough fuel. *)
Lemma vblank_fuel_enough q r d : holds vblank_queue (present d) q -> serve vblank_queue reaction flip_depth q (requests (present d) q) = Some r ->
  exists pr, loriePerformVblanks vblank_queue reaction (vblank_fuel flip_depth (present d)) (present d) = Some pr /\ Present.shows vblank_queue pr r.
Proof.
  intros Hq Hr. apply (vblanks_refine vblank_queue reaction flip_depth _ _ q); [done..|]. unfold vblank_fuel.
  rewrite (holds_size vblank_queue _ _ Hq). lia.
Qed.
End resizing.

(** ** The screen of the RandR extension *)

Section hooks.
Context (page : Z) (legacyDrawing flip : bool) (monitorResolution : Z).
Context (vblank_queue : Z) (flip_depth : nat) (reaction : Z -> list reply) (flips : Display -> Display).
(** What the system answers to a resize of a display. *)
Context (answers : Display -> ResizeEnv).

#[local] Instance display_hooks : ScreenHooks Display := {|
  screen_size d := scr_size (sizes d);
  rrScreenSetSize w h mw mh d :=
    lorieRRScreenSetSize page legacyDrawing flip monitorResolution vblank_queue flip_depth reaction flips (answers d) w h mw mh d;
|}.

Context (base : list resource).

(** The queue of the vertical blanks is a list of requests. *)
Definition queued (pr : Present) : Prop := exists q, holds vblank_queue pr q.

(** What is left to the surroundings when the display is in order: the present extension answers
    the vertical blanks with requests and flips no deeper than [flip_depth], and leaves windows and pixmaps
    in order, and there is memory for the resize. *)
Definition surroundings_ok : Prop := forall d q, display_ok queued base d -> holds vblank_queue (present d) q ->
  exists r, serve vblank_queue reaction flip_depth q (requests (present d) q) = Some r /\
    forall pr, holds vblank_queue pr (rq r) ->
      display_ok queued base (flips (set_present pr d)) /\ resize_granted (answers d) (flips (set_present pr d)).

Hypothesis resolution : 26 <= monitorResolution <= 1000000.
Hypothesis surroundings : surroundings_ok.

#[local] Instance display_laws : ScreenLaws Display.
Proof.
  refine {| screen_ok := display_ok queued base |}. intros w h mw mh d Hd Hw Hh.
  destruct (dp_queue _ _ _ Hd) as [q Hq]. destruct (surroundings d q Hd Hq) as (r & Hr & Hpr).
  destruct (vblank_fuel_enough vblank_queue flip_depth reaction q r d Hq Hr) as (pr & Epr & Hs & _). destruct (Hpr pr Hs) as [Hd1 Hg].
  destruct (resize_served page legacyDrawing flip monitorResolution vblank_queue flip_depth reaction flips queued base
    (answers d) w h mw mh d pr resolution Hw Hh Epr Hd1 Hg) as (d5 & E & H5 & _ & ch & _ & R).
  exists d5. split; [exact E|]. split; [exact H5|]. apply (rs_sizes _ _ _ _ _ R).
Defined.

(** The run of window changes and requests on the whole display. *)
Lemma display_run dpi ops s pv d : 1 <= dpi <= 1000000 -> sound [] s -> display_ok queued base d -> rr_ops_ok dpi ops (s, pv, d) ->
  exists st', run_rr dpi ops (s, pv, d) = Some st' /\ sound [] st'.1.1 /\ display_ok queued base st'.2.
Proof. intros Hdpi Hs Hd Hops. exact (run_rr_ok dpi Hdpi ops (s, pv, d) Hs Hd Hops). Qed.

End hooks.

(** C14: A resize ends with the display in order and with the
    new size everywhere: the screen has a new pixmap of this size, all windows that showed
    the screen or the flip of the present extension show it, the others keep theirs, and
    the old pixmap is destroyed. For this there must be memory for the new pixmap, its buffer and the
    damage ([resize_granted]; without it the code goes on with a NULL pixmap or ends the server), and
    the present extension must answer the vertical blanks that are served first with requests and flips of
    a finite depth, and leave the display in order; that the loop over them ends is part of
    the theorem. *)
Theorem lorieRRScreenSetSize_resizes page legacyDrawing flip monitorResolution vblank_queue flip_depth reaction flips queue_ok base
    e width height mw mh d q r :
  26 <= monitorResolution <= 1000000 -> 1 <= width <= 32767 -> 1 <= height <= 32767 ->
  holds vblank_queue (present d) q -> serve vblank_queue reaction flip_depth q (requests (present d) q) = Some r ->
  (forall pr, holds vblank_queue pr (rq r) -> let d1 := flips (set_present pr d) in display_ok queue_ok base d1 /\ resize_granted e d1) ->
  exists pr d5, loriePerformVblanks vblank_queue reaction (vblank_fuel flip_depth (present d)) (present d) = Some pr /\
    lorieRRScreenSetSize page legacyDrawing flip monitorResolution vblank_queue flip_depth reaction flips e width height mw mh d
      = Some d5 /\ display_ok queue_ok base d5 /\
    screen_pixmap (pix d5) = re_pixmap e /\ dims d5 !! re_pixmap e = Some (width, height) /\
    (scr_size (sizes d5) = (width, height) /\ root_size (sizes d5) = (width, height) /\ desktop (sizes d5) = (width, height)) /\
    let d1 := flips (set_present pr d) in privs (pix d5) !! screen_pixmap (pix d1) = None /\
    exists ch, tree_ok d1 ch /\ tree_ok d5 ch /\ forall w, w ∈ (root d1 :: ids ch) ->
      win_pixmap d5 w = if decide (on_screen d1 (win_pixmap d1 w)) then re_pixmap e else win_pixmap d1 w.
Proof.
  intros Hdpi Hw Hh Hq Hr Hfl. destruct (vblank_fuel_enough vblank_queue flip_depth reaction q r d Hq Hr) as (pr & Epr & Hsh & _).
  destruct (Hfl pr Hsh) as [Hd1 Hg]. set (d1 := flips (set_present pr d)) in *.
  destruct (resize_served page legacyDrawing flip monitorResolution vblank_queue flip_depth reaction flips queue_ok base
    e width height mw mh d pr Hdpi Hw Hh Epr Hd1 Hg) as (d5 & E & H5 & N5 & ch & Ht & R). fold d1 in N5, R, Ht.
  exists pr, d5. split; [done|]. split; [done|]. split; [done|]. pose proof (rs_sizes _ _ _ _ _ R) as (Z1 & Z2 & _ & _ & Z5).
  pose proof (dp_size _ _ _ H5) as Hsize. rewrite (rs_screen _ _ _ _ _ R), Z1 in Hsize.
  split; [apply R|]. split; [done|]. split; [done|]. split; [done|]. exists ch. split; [done|]. split; [|apply R].
  destruct (rs_links _ _ _ _ _ R) as (El & Er & Ed), Ht as [T1 T2 T3 T4 T5]. split; rewrite ?El, ?Er; try done.
  intros w Hin. rewrite <- elem_of_dom, Ed, elem_of_dom. auto.
Qed.

(** C13: Whatever windows of an allowed size and rate are announced and requests arrive, on the whole display - the
    modes with their outputs and crtcs, the windows, the pixmaps, the buffers - nothing is
    used after it was given back: the run reaches its end, the modes count their
    references, the process holds exactly the resources of its live buffers, every window
    has a pixmap that exists, and the screen's pixmap has the size of the screen. This holds as
    long as there is memory for modes ([rr_ops_ok]) and for each resize, and the present extension, when it
    is told of the vertical blanks before a resize, asks for memory that is free, does not abort, makes
    flips of a bounded depth and leaves the windows and pixmaps in order ([surroundings_ok]). *)
Theorem display_accounts page legacyDrawing flip monitorResolution vblank_queue flip_depth reaction flips answers base dpi ops s pv d :
  26 <= monitorResolution <= 1000000 ->
  surroundings_ok vblank_queue flip_depth reaction flips answers base ->
  1 <= dpi <= 1000000 -> accounts [] s -> structure_ok s -> display_ok (queued vblank_queue) base d ->
  @rr_ops_ok _ (display_hooks page legacyDrawing flip monitorResolution vblank_queue flip_depth reaction flips answers) dpi ops (s, pv, d) ->
  exists s' pv' d',
    @run_rr _ (display_hooks page legacyDrawing flip monitorResolution vblank_queue flip_depth reaction flips answers) dpi ops (s, pv, d)
      = Some (s', pv', d') /\ accounts [] s' /\ display_ok (queued vblank_queue) base d'.
Proof.
  intros Hres Hsur Hdpi Ha Hs Hd Hops.
  destruct (display_run page legacyDrawing flip monitorResolution vblank_queue flip_depth reaction flips answers base
    Hres Hsur dpi ops s pv d Hdpi (conj Ha Hs) Hd Hops) as ([[s' pv'] d'] & E & [Ha' _] & Hd').
  by exists s', pv', d'.
Qed.

(** ** On a concrete display *)

(** The present extension shows pixmap 2 on the root window 100 and its child 101; the child
    102 shows the screen's pixmap 1, and its child 103 has the pixmap 3. *)
Definition flipped_ops : list pix_op :=
  [OpCreate true (env_at 0x200) (env_at 0x200) 1 64 64 CREATE_PIXMAP_USAGE_LORIEBUFFER_BACKED;
   OpSetRoot 0 (env_at 0) 1; OpCreate true (env_at 0x400) (env_at 0x400) 2 64 64 0;
   OpCreate true (env_at 0x600) (env_at 0x600) 3 16 16 0;
   OpFlip (env_at 0x500) (env_at 0x500) 64 2 64 64; OpSetRoot 0 (env_at 0) 2].

Lemma flipped_pixmaps_ok : pixmaps_ok [] (run_demo flipped_ops).
Proof. apply (run_demo_ok flipped_ops). unfold flipped_ops. cbn [pix_ops_ok]. check_run. Qed.

Definition square (n : Z) : Sizes :=
  {| scr_size := (n, n); scr_mm := (n, n); root_size := (n, n); pvfb_size := (n, n); rr_size := (n, n); rr_mm := (n, n); desktop := (n, n) |}.

Definition screen_windows : gmap Z WindowLinks :=
  {[ 100 := {| parent := 0; nextSib := 0; firstChild := 101 |}; 101 := {| parent := 100; nextSib := 102; firstChild := 0 |};
     102 := {| parent := 100; nextSib := 0; firstChild := 103 |}; 103 := {| parent := 102; nextSib := 0; firstChild := 0 |} ]}.

Definition demo_display : Display :=
  {| pix := run_demo flipped_ops; win_pixmaps := {[ 101 := 2; 102 := 1; 103 := 3 ]}; win_links := screen_windows; root := 100;
     refcnts := {[ 1 := 1; 2 := 2; 3 := 1 ]}; dims := {[ 1 := (64, 64); 2 := (64, 64); 3 := (16, 16) ]};
     flip_pending := None; flip_window := 101; flip_pixmap := 2;
     present := empty_present; damage := Some {| dm_pixmap := 1; dm_region := true |}; sizes := square 64;
     shared := {| waitForNextFrame := false; drawRequested := false; surfaceAvailable := true; rootWindowTextureID := 0;
                  cursor_moved := false; cursor_updated := false; signals := 0 |} |}.

Definition demo_children : forest := Win 101 NoWindow (Win 102 (Win 103 NoWindow NoWindow) NoWindow).

(** The key after all keys. *)
Definition next_key {A} (m : gmap Z A) : Z := 1 + fold_right Z.max 0 (elements (dom m)).

Lemma next_key_fresh {A} (m : gmap Z A) : 0 < next_key m /\ m !! next_key m = None.
Proof.
  assert (H : forall l x, x ∈ l -> x <= fold_right Z.max 0 l).
  { induction l as [|y l IH]; intros x; [by intros ?%elem_of_nil|]. intros [->|Hx]%elem_of_cons; cbn; [lia|]. specialize (IH x Hx). lia. }
  unfold next_key. split.
  - assert (forall l, 0 <= fold_right Z.max 0 l) as H0 by (induction l; cbn; lia). specialize (H0 (elements (dom m))). lia.
  - apply not_elem_of_dom. intros Hin%elem_of_elements. apply H in Hin. lia.
Qed.

(** A system that always has memory. *)
Definition demo_answers (d : Display) : ResizeEnv :=
  let e := env_at (next_key (bufs (world (pix d)))) in
  {| re_pixmap := next_key (privs (pix d)); re_calloc := true; re_alloc := e; re_lock := e; re_damage := true; re_gc := true;
     re_unlock := 0; re_src := env_at 1; re_dst := env_at 1; re_set := env_at 1 |}.

Lemma demo_granted d : resize_granted (demo_answers d) d.
Proof.
  destruct (next_key_fresh (privs (pix d))) as [K1 K2], (next_key_fresh (bufs (world (pix d)))) as [B1 B2].
  unfold resize_granted, demo_answers, memory_granted, grants. cbn.
  repeat split; try done; try lia; by intros E; lia.
Qed.

(** An extension that is only told. *)
Lemma served_quietly q : forall s, exists r, serve 1 (fun _ => []) 1 q s = Some r.
Proof.
  induction q as [|x q IH]; intros s; cbn [serve]; [by eexists|]. destruct (due (rq_msc s) x); [|apply IH].
  cbn [reported answered mbind option_bind]. apply IH.
Qed.

Lemma present_display_ok queue_ok base pr d : display_ok queue_ok base d -> queue_ok pr -> display_ok queue_ok base (set_present pr d).
Proof.
  intros [H1 (ch & [T1 T2 T3 T4 T5] & [F1 F2 F3 F4 F5 F6] & L) H3 H4 H5 H6] Hq. split; try done.
  exists ch. split; [by split|split; [by split|done]].
Qed.

Lemma demo_surroundings base : surroundings_ok 1 1 (fun _ => []) id demo_answers base.
Proof.
  intros d q Hd Hq. destruct (served_quietly q (requests (present d) q)) as [r Hr]. exists r. split; [done|].
  intros pr Hpr. unfold id. split; [apply present_display_ok; [done|by exists (rq r)]|].
  exact (demo_granted (set_present pr d)).
Qed.

Lemma demo_tree : tree_ok demo_display demo_children.
Proof.
  split.
  - done.
  - eexists. split; vm_compute; reflexivity.
  - repeat split; try discriminate; vm_compute; reflexivity.
  - cbn. repeat (apply NoDup_cons; split; [rewrite ?elem_of_cons, elem_of_nil; intros ?; lia|]). by apply NoDup_nil.
  - intros w Hw. cbn in Hw. rewrite !elem_of_cons, elem_of_nil in Hw.
    destruct Hw as [->|[->|[->|[]]]]; eexists; vm_compute; reflexivity.
Qed.

(** The windows of the tree, one by one. *)
Lemma demo_windows_all (P : Z -> WindowLinks -> Prop) :
  P 101 {| parent := 100; nextSib := 102; firstChild := 0 |} -> P 102 {| parent := 100; nextSib := 0; firstChild := 103 |} ->
  P 103 {| parent := 102; nextSib := 0; firstChild := 0 |} ->
  forall w l, w ∈ ids demo_children -> win_links demo_display !! w = Some l -> P w l.
Proof.
  intros H1 H2 H3 w l Hw El. cbn in Hw. rewrite !elem_of_cons, elem_of_nil in Hw.
  destruct Hw as [->|[->|[->|[]]]]; vm_compute in El; injection El as <-; done.
Qed.

Lemma demo_values : (win_pixmap demo_display 100 = 2 /\ win_pixmap demo_display 101 = 2 /\ win_pixmap demo_display 102 = 1 /\
  win_pixmap demo_display 103 = 3) /\ root_pixmap (pix demo_display) = 2 /\ screen_pixmap (pix demo_display) = 1.
Proof. split; [split; [|split; [|split]]|split]; vm_compute; reflexivity. Qed.

Lemma demo_on_screen p : on_screen demo_display p <-> p = 1 \/ p = 2.
Proof.
  unfold on_screen. destruct demo_values as (_ & _ & ->). change (current_flip demo_display) with (101, 2). cbn. split; [tauto|].
  intros [?|?]; [by left|right; by split].
Qed.

Lemma demo_flip : flip_ok demo_display demo_children.
Proof.
  destruct demo_values as ((V0 & V1 & V2 & V3) & Hroot & Hscreen).
  split; change (current_flip demo_display) with (101, 2); cbn [fst snd].
  - intros _. split; [done|]. right. by left.
  - by rewrite Hscreen.
  - intros _. split; [eexists; vm_compute; reflexivity|]. apply drawable_priv. exists (1024, 0). split; [vm_compute; reflexivity|by left].
  - apply demo_on_screen. rewrite Hroot. by right.
  - intros w l Hw El. revert w l Hw El.
    refine (demo_windows_all (fun w l => on_screen demo_display (win_pixmap demo_display w) ->
      on_screen demo_display (win_pixmap demo_display (parent l))) _ _ _); rewrite !demo_on_screen; cbn [parent]; rewrite ?V0, ?V1, ?V2, ?V3; lia.
  - intros w l Hw El. revert w l Hw El.
    refine (demo_windows_all (fun w l => 2 <> 0 -> win_pixmap demo_display w = 2 -> w = 101 \/ win_pixmap demo_display (parent l) = 2) _ _ _);
      cbn [parent]; rewrite ?V0, ?V1, ?V2, ?V3; lia.
Qed.

Lemma demo_display_ok : display_ok (queued 1) [] demo_display.
Proof.
  destruct demo_values as ((V0 & V1 & V2 & V3) & Hroot & Hscreen).
  split; rewrite ?Hscreen.
  - exact flipped_pixmaps_ok.
  - exists demo_children. split; [exact demo_tree|]. split; [exact demo_flip|].
    assert (H : forall p, p = 1 \/ p = 2 \/ p = 3 -> is_Some (privs (pix demo_display) !! p)).
    { intros p [->|[->| ->]]; eexists; vm_compute; reflexivity. }
    intros w Hw. apply H. cbn in Hw. rewrite !elem_of_cons, elem_of_nil in Hw. destruct Hw as [->|[->|[->|[->|[]]]]]; lia.
  - exists []. exact empty_holds.
  - split; [done|]. eexists. split; [vm_compute; reflexivity|done].
  - vm_compute; reflexivity.
  - vm_compute; reflexivity.
Qed.

Definition demo_resize (w h : Z) (d : Display) : option Display :=
  lorieRRScreenSetSize 4096 false true 96 1 1 (fun _ => []) id (demo_answers d) w h 0 0 d.

Lemma lorieRRScreenSetSize_resizes_witness : exists d5, demo_resize 80 48 demo_display = Some d5 /\
  screen_pixmap (pix d5) = 4 /\ scr_size (sizes d5) = (80, 48).
Proof.
  destruct (lorieRRScreenSetSize_resizes 4096 false true 96 1 1 (fun _ => []) id (queued 1) [] (demo_answers demo_display) 80 48 0 0
    demo_display [] (requests empty_present [])) as (pr & d5 & _ & E & _ & Es & _ & (Ez & _) & _).
  - lia.
  - lia.
  - lia.
  - exact empty_holds.
  - reflexivity.
  - intros pr Hpr. split; [apply present_display_ok; [exact demo_display_ok|by exists []]|exact (demo_granted (set_present pr demo_display))].
  - exists d5. split; [exact E|]. split; [|exact Ez]. rewrite Es. vm_compute. reflexivity.
Defined.

(** The flip is taken back, and the windows that showed the screen or the flip have the new
    pixmap 4; the window 103 keeps its own. *)
Example demo_resize_windows : (fun d => (map (win_pixmap d) [100; 101; 102; 103], desktop (sizes d), dom (privs (pix d)))) <$>
  demo_resize 80 48 demo_display = Some ([4; 4; 4; 3], (80, 48), {[2; 3; 4]}).
Proof. vm_compute. reflexivity. Qed.

Definition display_ops : list rr_op :=
  [OpWindow true (memory_at 2) 1080 2400 120 None; OpSetScreenSize 1280 2400 100 200; OpWindow true (memory_at 3) 800 600 60 None].

Lemma display_ops_ok : @rr_ops_ok _ (display_hooks 4096 false true 96 1 1 (fun _ => []) id demo_answers) 96 display_ops
  (started, started_pvfb, demo_display).
Proof. vm_compute. repeat split; try congruence; eauto. Qed.

Lemma display_accounts_witness : exists s' pv' d',
  @run_rr _ (display_hooks 4096 false true 96 1 1 (fun _ => []) id demo_answers) 96 display_ops (started, started_pvfb, demo_display)
    = Some (s', pv', d') /\ accounts [] s' /\ display_ok (queued 1) [] d'.
Proof.
  apply (display_accounts 4096 false true 96 1 1 (fun _ => []) id demo_answers [] 96 display_ops started started_pvfb demo_display).
  - lia.
  - exact (demo_surroundings []).
  - lia.
  - exact started_accounts.
  - exact started_structure.
  - exact demo_display_ok.
  - exact display_ops_ok.
Defined.
