(* ===== verification/XkbMap.v ===== *)
(** * The keyboard description: key types, symbols, actions

    The part of the X server's XKB map code that [lorie/InputXKB.c] relies on:
    the description record ([include/xkbstr.h]) with its access macros, the
    translation of a keycode to a keysym, the case conversion of keysyms
    ([xkb/xkbUtils.c]) and the operations that give a key a new symbol
    ([XkbChangeTypesOfKey], [XkbResizeKeySyms], [XkbResizeKeyActions]).
    Arrays are lists accessed through [rdz], [wrz], [slice] and [blit]: a
    [None] result is an access outside the array. *)

From S2P Require Import Prelude.

(** ** Data *)

Record XkbKTMapEntry := { active : bool; level : Z; entry_mask : Z }.

(** [map] is empty when the C pointer is NULL or [map_count] is 0;
    [preserve] is NULL or has an entry per map entry. *)
Record XkbKeyType := {
  mods_mask : Z;
  num_levels : Z;
  kt_map : list XkbKTMapEntry;
  preserve : option (list Z);
}.

Record XkbSymMap := { kt_index : list Z; group_info : Z; width : Z; offset : Z }.

Record XkbAction := { act_type : Z; act_flags : Z; act_mask : Z }.

Definition no_action : XkbAction := {| act_type := 0; act_flags := 0; act_mask := 0 |}.

(** [size_syms] and [size_acts] are the lengths of the lists. *)
Record XkbDesc := {
  min_key_code : Z;
  max_key_code : Z;
  types : list XkbKeyType;
  key_sym_map : list XkbSymMap;
  syms : list Z;
  num_syms : Z;
  modmap : list Z;
  acts : list XkbAction;
  num_acts : Z;
  key_acts : list Z;
  ctrls_num_groups : option Z;
  names : option (list (list Z));
}.

Definition set_sym_map f d : XkbDesc :=
  {| min_key_code := min_key_code d; max_key_code := max_key_code d; types := types d;
     key_sym_map := f; syms := syms d; num_syms := num_syms d; modmap := modmap d;
     acts := acts d; num_acts := num_acts d; key_acts := key_acts d;
     ctrls_num_groups := ctrls_num_groups d; names := names d |}.

Definition set_syms s n d : XkbDesc :=
  {| min_key_code := min_key_code d; max_key_code := max_key_code d; types := types d;
     key_sym_map := key_sym_map d; syms := s; num_syms := n; modmap := modmap d;
     acts := acts d; num_acts := num_acts d; key_acts := key_acts d;
     ctrls_num_groups := ctrls_num_groups d; names := names d |}.

Definition set_acts a n k d : XkbDesc :=
  {| min_key_code := min_key_code d; max_key_code := max_key_code d; types := types d;
     key_sym_map := key_sym_map d; syms := syms d; num_syms := num_syms d; modmap := modmap d;
     acts := a; num_acts := n; key_acts := k;
     ctrls_num_groups := ctrls_num_groups d; names := names d |}.

Definition set_ctrls g d : XkbDesc :=
  {| min_key_code := min_key_code d; max_key_code := max_key_code d; types := types d;
     key_sym_map := key_sym_map d; syms := syms d; num_syms := num_syms d; modmap := modmap d;
     acts := acts d; num_acts := num_acts d; key_acts := key_acts d;
     ctrls_num_groups := g; names := names d |}.

Definition set_names n d : XkbDesc :=
  {| min_key_code := min_key_code d; max_key_code := max_key_code d; types := types d;
     key_sym_map := key_sym_map d; syms := syms d; num_syms := num_syms d; modmap := modmap d;
     acts := acts d; num_acts := num_acts d; key_acts := key_acts d;
     ctrls_num_groups := ctrls_num_groups d; names := n |}.

(** ** Constants and access macros *)

Definition NoSymbol : Z := 0.
Definition ShiftMask : Z := 1.
Definition LockMask : Z := 2.
Definition XkbOneLevelIndex : Z := 0.
Definition XkbTwoLevelIndex : Z := 1.
Definition XkbAlphabeticIndex : Z := 2.
Definition XkbNumKbdGroups : Z := 4.
Definition XkbSA_SetMods : Z := 1.
Definition XkbSA_LockMods : Z := 3.
Definition XkbSA_UseModMapMods : Z := 4.
Definition Success : Z := 0.
Definition BadMatch : Z := 8.
Definition BadAlloc : Z := 11.

Definition XkbNumGroups (g : Z) : Z := Z.land g 0x0f.
Definition XkbSetNumGroups (g n : Z) : Z := Z.lor (Z.land g 0xf0) (Z.land n 0x0f).
Definition XkbOutOfRangeGroupAction (g : Z) : Z := Z.land g 0xc0.
Definition XkbOutOfRangeGroupNumber (g : Z) : Z := Z.shiftr (Z.land g 0x30) 4.
Definition XkbGroupForCoreState (s : Z) : Z := Z.land (Z.shiftr s 13) 3.

Definition XkbKeyGroupInfo d key : option Z := group_info <$> rdz (key_sym_map d) key.
Definition XkbKeyNumGroups d key : option Z := XkbNumGroups <$> XkbKeyGroupInfo d key.
Definition XkbKeyGroupsWidth d key : option Z := width <$> rdz (key_sym_map d) key.
Definition XkbKeySymsOffset d key : option Z := offset <$> rdz (key_sym_map d) key.
Definition XkbKeyKeyTypeIndex d key g : option Z :=
  m ← rdz (key_sym_map d) key; rdz (kt_index m) (Z.land g 3).
Definition XkbKeyKeyType d key g : option XkbKeyType :=
  i ← XkbKeyKeyTypeIndex d key g; rdz (types d) i.
Definition XkbKeyNumSyms d key : option Z :=
  w ← XkbKeyGroupsWidth d key; n ← XkbKeyNumGroups d key; Some (w * n).
Definition XkbKeyHasActions d key : option bool :=
  a ← rdz (key_acts d) key; Some (negb (a =? 0)).
Definition XkbKeyNumActions d key : option Z :=
  h ← XkbKeyHasActions d key; if (h : bool) then XkbKeyNumSyms d key else Some 1.
Definition XkbKeycodeInRange d key : bool := (min_key_code d <=? key) && (key <=? max_key_code d).

(** ** Translation of a keycode *)

(** The group a key is in under the core state [mods]; [ng] is the key's
    number of groups and [info] its group info. *)
Definition effective_group (mods ng info : Z) : Z :=
  let g := XkbGroupForCoreState mods in
  if ng <=? g then
    if XkbOutOfRangeGroupAction info =? 0x40 then ng - 1
    else if XkbOutOfRangeGroupAction info =? 0x80 then
      let r := XkbOutOfRangeGroupNumber info in if ng <=? r then 0 else r
    else g mod ng
  else g.

Definition entry_matches (mods : Z) (type : XkbKeyType) (e : XkbKTMapEntry) : bool :=
  active e && (Z.land mods (mods_mask type) =? entry_mask e).

(** The first map entry that matches, with its index. *)
Fixpoint find_entry (mods : Z) (type : XkbKeyType) (i : Z) (m : list XkbKTMapEntry)
  : option (Z * XkbKTMapEntry) :=
  match m with
  | [] => None
  | e :: m' => if entry_matches mods type e then Some (i, e) else find_entry mods type (i + 1) m'
  end.

(** [(result, mods_rtrn, keysym_rtrn)]. *)
Definition XkbTranslateKeyCode (d : XkbDesc) (key mods : Z) : option (bool * Z * Z) :=
  ng ← XkbKeyNumGroups d key;
  if negb (XkbKeycodeInRange d key) || (ng =? 0) then Some (false, 0, NoSymbol)
  else
    info ← XkbKeyGroupInfo d key;
    w ← XkbKeyGroupsWidth d key;
    off ← XkbKeySymsOffset d key;
    let g := effective_group mods ng info in
    type ← XkbKeyKeyType d key g;
    p ← match find_entry mods type 0 (kt_map type) with
        | Some (i, e) =>
            match preserve type with
            | Some p => m ← rdz p i; Some (level e, m)
            | None => Some (level e, 0)
            end
        | None => Some (0, 0)
        end;
    s ← rdz (syms d) (off + (g * w + p.1));
    Some (negb (s =? NoSymbol), Z.ldiff (mods_mask type) p.2, s).

(** The index into [acts] of the action of [key], [None] for NULL. *)
Definition XkbKeyActionPtr (d : XkbDesc) (key mods : Z) : option (option Z) :=
  h ← XkbKeyHasActions d key;
  if negb h then Some None
  else
    ng ← XkbKeyNumGroups d key;
    if negb (XkbKeycodeInRange d key) || (ng =? 0) then Some None
    else
      info ← XkbKeyGroupInfo d key;
      w ← XkbKeyGroupsWidth d key;
      a ← rdz (key_acts d) key;
      let g := effective_group mods ng info in
      type ← XkbKeyKeyType d key g;
      let l := match find_entry mods type 0 (kt_map type) with
               | Some (_, e) => level e
               | None => 0
               end in
      Some (Some (a + (g * w + l))).

Definition XkbKeyEffectiveGroup (d : XkbDesc) (key mods : Z) : option Z :=
  ng ← XkbKeyNumGroups d key;
  if negb (XkbKeycodeInRange d key) || (ng =? 0) then Some 0
  else info ← XkbKeyGroupInfo d key; Some (effective_group mods ng info).

(** ** Case conversion of keysyms *)

Definition between (a s b : Z) : bool := (a <=? s) && (s <=? b).

(** [(lower, upper)]; the keysym values are those of [keysymdef.h]. *)
Definition XkbConvertCase (sym : Z) : Z * Z :=
  match Z.shiftr sym 8 with
  | 0 =>
      if between 0x41 sym 0x5a then (sym + (0x61 - 0x41), sym)
      else if between 0x61 sym 0x7a then (sym, sym - (0x61 - 0x41))
      else if between 0xc0 sym 0xd6 then (sym + (0xe0 - 0xc0), sym)
      else if between 0xe0 sym 0xf6 then (sym, sym - (0xe0 - 0xc0))
      else if between 0xd8 sym 0xde then (sym + (0xf8 - 0xd8), sym)
      else if between 0xf8 sym 0xfe then (sym, sym - (0xf8 - 0xd8))
      else (sym, sym)
  | 1 =>
      if sym =? 0x1a1 then (0x1b1, sym)
      else if between 0x1a3 sym 0x1a6 then (sym + (0x1b3 - 0x1a3), sym)
      else if between 0x1a9 sym 0x1ac then (sym + (0x1b9 - 0x1a9), sym)
      else if between 0x1ae sym 0x1af then (sym + (0x1be - 0x1ae), sym)
      else if sym =? 0x1b1 then (sym, 0x1a1)
      else if between 0x1b3 sym 0x1b6 then (sym, sym - (0x1b3 - 0x1a3))
      else if between 0x1b9 sym 0x1bc then (sym, sym - (0x1b9 - 0x1a9))
      else if between 0x1be sym 0x1bf then (sym, sym - (0x1be - 0x1ae))
      else if between 0x1c0 sym 0x1de then (sym + (0x1e0 - 0x1c0), sym)
      else if between 0x1e0 sym 0x1fe then (sym, sym - (0x1e0 - 0x1c0))
      else (sym, sym)
  | 2 =>
      if between 0x2a1 sym 0x2a6 then (sym + (0x2b1 - 0x2a1), sym)
      else if between 0x2ab sym 0x2ac then (sym + (0x2bb - 0x2ab), sym)
      else if between 0x2b1 sym 0x2b6 then (sym, sym - (0x2b1 - 0x2a1))
      else if between 0x2bb sym 0x2bc then (sym, sym - (0x2bb - 0x2ab))
      else if between 0x2c5 sym 0x2de then (sym + (0x2e5 - 0x2c5), sym)
      else if between 0x2e5 sym 0x2fe then (sym, sym - (0x2e5 - 0x2c5))
      else (sym, sym)
  | 3 =>
      if between 0x3a3 sym 0x3ac then (sym + (0x3b3 - 0x3a3), sym)
      else if between 0x3b3 sym 0x3bc then (sym, sym - (0x3b3 - 0x3a3))
      else if sym =? 0x3bd then (0x3bf, sym)
      else if sym =? 0x3bf then (sym, 0x3bd)
      else if between 0x3c0 sym 0x3de then (sym + (0x3e0 - 0x3c0), sym)
      else if between 0x3e0 sym 0x3fe then (sym, sym - (0x3e0 - 0x3c0))
      else (sym, sym)
  | 6 =>
      if between 0x6b1 sym 0x6bf then (sym - (0x6b1 - 0x6a1), sym)
      else if between 0x6a1 sym 0x6af then (sym, sym + (0x6b1 - 0x6a1))
      else if between 0x6e0 sym 0x6ff then (sym - (0x6e0 - 0x6c0), sym)
      else if between 0x6c0 sym 0x6df then (sym, sym + (0x6e0 - 0x6c0))
      else (sym, sym)
  | 7 =>
      if between 0x7a1 sym 0x7ab then (sym + (0x7b1 - 0x7a1), sym)
      else if between 0x7b1 sym 0x7bb && negb (sym =? 0x7b6) && negb (sym =? 0x7ba)
      then (sym, sym - (0x7b1 - 0x7a1))
      else if between 0x7c1 sym 0x7d9 then (sym + (0x7e1 - 0x7c1), sym)
      else if between 0x7e1 sym 0x7f9 && negb (sym =? 0x7f3)
      then (sym, sym - (0x7e1 - 0x7c1))
      else (sym, sym)
  | _ => (sym, sym)
  end.

(** ** Giving a key new symbols *)

Definition set_offset (f : list XkbSymMap) key off : option (list XkbSymMap) :=
  m ← rdz f key;
  wrz f key {| kt_index := kt_index m; group_info := group_info m; width := width m;
               offset := u16 off |}.

Definition set_group_info (f : list XkbSymMap) key g : option (list XkbSymMap) :=
  m ← rdz f key;
  wrz f key {| kt_index := kt_index m; group_info := u8 g; width := width m; offset := offset m |}.

Definition set_width (f : list XkbSymMap) key w : option (list XkbSymMap) :=
  m ← rdz f key;
  wrz f key {| kt_index := kt_index m; group_info := group_info m; width := u8 w;
               offset := offset m |}.

Definition set_kt_index (f : list XkbSymMap) key i t : option (list XkbSymMap) :=
  m ← rdz f key;
  k ← wrz (kt_index m) i (u8 t);
  wrz f key {| kt_index := k; group_info := group_info m; width := width m; offset := offset m |}.

Definition zeros (n : Z) : list Z := replicate (Z.to_nat n) 0.

(** One round of the copy into the new symbol array: [(newSyms, key_sym_map, nSyms)]. *)
Definition resize_syms_step (d : XkbDesc) (key needed : Z)
    (acc : list Z * list XkbSymMap * Z) (i : Z) : option (list Z * list XkbSymMap * Z) :=
  let '(ns, f, nSyms) := acc in
  nCopy ← XkbKeyNumSyms d i;
  if (nCopy =? 0) && negb (i =? key) then Some (ns, f, nSyms)
  else
    let nKeySyms := if i =? key then needed else nCopy in
    off ← XkbKeySymsOffset d i;
    old ← (if nCopy =? 0 then Some [] else slice (syms d) off nCopy);
    ns1 ← blit ns nSyms old;
    ns2 ← (if nCopy <? nKeySyms then blit ns1 (nSyms + nCopy) (zeros (nKeySyms - nCopy)) else Some ns1);
    f' ← set_offset f i nSyms;
    Some (ns2, f', nSyms + nKeySyms).

(** The keycodes of a description, in the order of the loops. *)
Definition keycodes (d : XkbDesc) : list Z :=
  seqZ (min_key_code d) (max_key_code d - min_key_code d + 1).

Fixpoint foldM {A B} (f : A -> B -> option A) (a : A) (l : list B) : option A :=
  match l with
  | [] => Some a
  | b :: l' => a' ← f a b; foldM f a' l'
  end.

(** The new description with the offset of the key's symbols; [inr d'] when the
    allocation fails ([alloc] says whether [calloc] succeeds). The enlarged
    [size_syms] of a failed allocation is not modelled. *)
Definition XkbResizeKeySyms (alloc : bool) (d : XkbDesc) (key needed : Z)
  : option (XkbDesc * option Z) :=
  if needed =? 0 then
    f ← set_offset (key_sym_map d) key 0; Some (set_sym_map f d, Some 0)
  else
    nOldSyms ← XkbKeyNumSyms d key;
    off ← XkbKeySymsOffset d key;
    if needed <=? nOldSyms then Some (d, Some off)
    else
      let size := Z.of_nat (length (syms d)) in
      if needed <=? size - num_syms d then
        old ← (if 0 <? nOldSyms then slice (syms d) off nOldSyms else Some []);
        s1 ← blit (syms d) (num_syms d) old;
        s2 ← blit s1 (num_syms d + nOldSyms) (zeros (needed - nOldSyms));
        f ← set_offset (key_sym_map d) key (num_syms d);
        off' ← offset <$> rdz f key;
        Some (set_syms s2 (num_syms d + needed) (set_sym_map f d), Some off')
      else if negb alloc then Some (d, None)
      else
        let new_size := size + (if 32 <? needed then needed else 32) in
        r ← foldM (resize_syms_step d key needed) (zeros new_size, key_sym_map d, 1) (keycodes d);
        let '(ns, f, nSyms) := r in
        off' ← offset <$> rdz f key;
        Some (set_syms ns nSyms (set_sym_map f d), Some off').

Definition resize_acts_step (d : XkbDesc) (key needed : Z)
    (acc : list XkbAction * list Z * Z) (i : Z) : option (list XkbAction * list Z * Z) :=
  let '(na, k, nActs) := acc in
  a ← rdz (key_acts d) i;
  if (a =? 0) && negb (i =? key) then Some (na, k, nActs)
  else
    n ← XkbKeyNumActions d i;
    let nKeyActs := if i =? key then needed else n in
    let nCopy := if (i =? key) && (needed <? n) then needed else n in
    old ← (if 0 <? nCopy then slice (acts d) a nCopy else Some []);
    na1 ← blit na nActs old;
    na2 ← (if nCopy <? nKeyActs
           then blit na1 (nActs + nCopy) (replicate (Z.to_nat (nKeyActs - nCopy)) no_action)
           else Some na1);
    k' ← wrz k i (u16 nActs);
    Some (na2, k', nActs + nKeyActs).

Definition XkbResizeKeyActions (alloc : bool) (d : XkbDesc) (key needed : Z)
  : option (XkbDesc * option Z) :=
  if needed =? 0 then
    k ← wrz (key_acts d) key 0; Some (set_acts (acts d) (num_acts d) k d, None)
  else
    h ← XkbKeyHasActions d key;
    n ← XkbKeyNumSyms d key;
    a ← rdz (key_acts d) key;
    if (h : bool) && (needed <=? n) then Some (d, Some a)
    else if needed <=? Z.of_nat (length (acts d)) - num_acts d then
      k ← wrz (key_acts d) key (u16 (num_acts d));
      Some (set_acts (acts d) (num_acts d + needed) k d, Some (u16 (num_acts d)))
    else if negb alloc then Some (d, None)
    else
      let new_size := num_acts d + needed + 8 in
      r ← foldM (resize_acts_step d key needed)
            (replicate (Z.to_nat new_size) no_action, key_acts d, 1) (keycodes d);
      let '(na, k, nActs) := r in
      a' ← rdz k key;
      Some (set_acts na nActs k d, Some a').

(** [XkbMapChangesRec], the fields of a change of symbols. *)
Record XkbMapChanges := { syms_changed : bool; first_key_sym : Z; num_key_syms : Z }.

Definition _XkbAddKeyChange (first num newKey : Z) : Z * Z :=
  let last := u8 (first + num) in
  if newKey <? first then (newKey, u8 (last - newKey + 1))
  else if last <? newKey then (first, u8 (last - first + 1))
  else (first, num).

(** The new type of group [i] of a key that had [nOld] groups. *)
Definition new_type_of (d : XkbDesc) (key groups nOld : Z) (newTypesIn : list Z) (i : Z) : option Z :=
  if Z.testbit groups i then rdz newTypesIn i
  else if i <? nOld then XkbKeyKeyTypeIndex d key i
  else if 0 <? nOld then XkbKeyKeyTypeIndex d key 0
  else Some XkbTwoLevelIndex.

(** The loop over the groups: [inr] is the [BadMatch] return. *)
Definition new_types_step (d : XkbDesc) (key groups nOld : Z) (newTypesIn : list Z)
    (acc : list Z * Z + Z) (i : Z) : option (list Z * Z + Z) :=
  match acc with
  | inr e => Some (inr e)
  | inl (ts, w) =>
      t ← new_type_of d key groups nOld newTypesIn i;
      if Z.of_nat (length (types d)) <? t then Some (inr BadMatch)
      else type ← rdz (types d) t; Some (inl (ts ++ [t], Z.max w (num_levels type)))
  end.

(** Copying the old columns of the groups kept, from a saved copy [old] of the
    key's cells to the block at [base] of the array [a]. *)
Definition copy_groups_step {A} (d : XkbDesc) (key width oldWidth base : Z) (newTypes : list Z)
    (old : list A) (a : list A) (i : Z) : option (list A) :=
  o ← XkbKeyKeyType d key i;
  t ← rdz newTypes i;
  n ← rdz (types d) t;
  let nCopy := if num_levels o <? num_levels n then num_levels o else num_levels n in
  c ← slice old (i * oldWidth) nCopy;
  blit a (base + i * width) c.

Definition set_types_step key (newTypes : list Z) (f : list XkbSymMap) (i : Z) : option (list XkbSymMap) :=
  t ← rdz newTypes i; set_kt_index f key i t.

(** The symbols and actions of a key with groups when its width or its number of
    groups changes: [inr] is the [BadAlloc] return. *)
Definition rewrite_key (alloc : bool) (d : XkbDesc) (key nGroups nOld width oldWidth : Z)
    (newTypes : list Z) : option (XkbDesc + XkbDesc * Z) :=
  off ← XkbKeySymsOffset d key;
  n ← XkbKeyNumSyms d key;
  oldSyms ← slice (syms d) off n;
  r ← XkbResizeKeySyms alloc d key (width * nGroups);
  match r with
  | (d1, None) => Some (inr (d1, BadAlloc))
  | (d1, Some p) =>
      s1 ← blit (syms d1) p (zeros (width * nGroups));
      s2 ← foldM (copy_groups_step d1 key width oldWidth p newTypes oldSyms) s1
             (seqZ 0 (Z.min nGroups nOld));
      let d2 := set_syms s2 (num_syms d1) d1 in
      h ← XkbKeyHasActions d2 key;
      d3 ← (if negb h then Some (inl d2)
            else
              a ← rdz (key_acts d2) key;
              n2 ← XkbKeyNumSyms d2 key;
              oldActs ← slice (acts d2) a n2;
              ra ← XkbResizeKeyActions alloc d2 key (width * nGroups);
              match ra with
              | (d3, None) => Some (inr (d3, BadAlloc))
              | (d3, Some q) =>
                  a1 ← blit (acts d3) q (replicate (Z.to_nat (width * nGroups)) no_action);
                  a2 ← foldM (copy_groups_step d3 key width oldWidth q newTypes oldActs) a1
                         (seqZ 0 (Z.min nGroups nOld));
                  Some (inl (set_acts a2 (num_acts d3) (key_acts d3) d3))
              end);
      match d3 with
      | inr e => Some (inr e)
      | inl d3 =>
          g ← XkbKeyGroupInfo d3 key;
          f1 ← set_group_info (key_sym_map d3) key (XkbSetNumGroups g nGroups);
          f2 ← set_width f1 key width;
          Some (inl (set_sym_map f2 d3))
      end
  end.

(** [(status, description, changes)]. *)
Definition XkbChangeTypesOfKey (alloc : bool) (d : XkbDesc) (key nGroups groups : Z)
    (newTypesIn : list Z) (changes : XkbMapChanges) : option (Z * XkbDesc * XkbMapChanges) :=
  if negb (XkbKeycodeInRange d key) || (Z.land groups 0x0f =? 0) || (XkbNumKbdGroups <? nGroups)
  then Some (BadMatch, d, changes)
  else if nGroups =? 0 then
    m ← rdz (key_sym_map d) key;
    f ← wrz (key_sym_map d) key
          {| kt_index := replicate 4 XkbOneLevelIndex;
             group_info := u8 (XkbSetNumGroups (group_info m) 0);
             width := width m; offset := offset m |};
    r ← XkbResizeKeySyms alloc (set_sym_map f d) key 0;
    r' ← XkbResizeKeyActions alloc (r.1) key 0;
    Some (Success, r'.1, changes)
  else
    nOld ← XkbKeyNumGroups d key;
    oldWidth ← XkbKeyGroupsWidth d key;
    t ← foldM (new_types_step d key groups nOld newTypesIn) (inl ([], 0)) (seqZ 0 nGroups);
    match t with
    | inr e => Some (e, d, changes)
    | inl (newTypes, w) =>
        let d1 := match ctrls_num_groups d with
                  | Some c => if c <? nGroups then set_ctrls (Some nGroups) d else d
                  | None => d
                  end in
        if (negb (w =? oldWidth) || negb (nGroups =? nOld)) && (nOld =? 0) then
          r ← XkbResizeKeySyms alloc d1 key (w * nGroups);
          match r with
          | (d2, None) => Some (BadAlloc, d2, changes)
          | (d2, Some _) =>
              g ← XkbKeyGroupInfo d2 key;
              f1 ← set_group_info (key_sym_map d2) key (XkbSetNumGroups g nGroups);
              f2 ← set_width f1 key w;
              f3 ← foldM (set_types_step key newTypes) f2 (seqZ 0 nGroups);
              Some (Success, set_sym_map f3 d2, changes)
          end
        else
          k ← (if negb (w =? oldWidth) || negb (nGroups =? nOld)
               then rewrite_key alloc d1 key nGroups nOld w oldWidth newTypes
               else Some (inl d1));
          match k with
          | inr (d2, e) => Some (e, d2, changes)
          | inl d2 =>
              f1 ← foldM (set_types_step key newTypes) (key_sym_map d2) (seqZ 0 nGroups);
              f2 ← set_width f1 key w;
              let changes' :=
                if syms_changed changes then
                  let '(first, num) := _XkbAddKeyChange (first_key_sym changes) (num_key_syms changes) key in
                  {| syms_changed := true; first_key_sym := first; num_key_syms := num |}
                else {| syms_changed := true; first_key_sym := key; num_key_syms := 1 |} in
              Some (Success, set_sym_map f2 d2, changes')
          end
    end.

(** ** Well-formed descriptions *)

(** The number of cells of a key's block of symbols, and the block. *)
Definition num_syms_of (m : XkbSymMap) : Z := width m * XkbNumGroups (group_info m).

Definition size_of (f : list XkbSymMap) (k : Z) : Z := from_option num_syms_of 0 (rdz f k).

Fixpoint sum_of (f : Z -> Z) (l : list Z) : Z :=
  match l with [] => 0 | k :: l' => f k + sum_of f l' end.

Definition key_syms (d : XkbDesc) (key : Z) : option (list Z) :=
  m ← rdz (key_sym_map d) key;
  if num_syms_of m =? 0 then Some [] else slice (syms d) (offset m) (num_syms_of m).

Record wf_type (t : XkbKeyType) : Prop := {
  wf_levels : 1 <= num_levels t < 256;
  wf_mask : 0 <= mods_mask t < 256;
  wf_entries : Forall (fun e => 0 <= level e < num_levels t) (kt_map t);
  wf_preserve : forall p, preserve t = Some p -> length p = length (kt_map t);
}.

Record wf_sym_map (d : XkbDesc) (m : XkbSymMap) : Prop := {
  wf_kt_length : length (kt_index m) = 4%nat;
  wf_groups : 0 <= group_info m < 256 /\ XkbNumGroups (group_info m) <= 4;
  wf_width : 0 <= width m < 256;
  wf_block : num_syms_of m <> 0 -> 0 <= offset m /\ offset m + num_syms_of m <= num_syms d;
  wf_kt : forall g, 0 <= g < XkbNumGroups (group_info m) ->
    exists i t, rdz (kt_index m) g = Some i /\ rdz (types d) i = Some t /\ num_levels t <= width m;
}.

Record wf_desc (d : XkbDesc) : Prop := {
  wf_min : 0 < min_key_code d <= max_key_code d;
  wf_max : max_key_code d < 256;
  wf_map_length : Z.of_nat (length (key_sym_map d)) = max_key_code d + 1;
  wf_acts_length : Z.of_nat (length (key_acts d)) = max_key_code d + 1;
  wf_modmap_length : Z.of_nat (length (modmap d)) = max_key_code d + 1;
  wf_types : Forall wf_type (types d);
  wf_keys : forall k m, XkbKeycodeInRange d k = true -> rdz (key_sym_map d) k = Some m -> wf_sym_map d m;
  wf_num_syms : 1 <= num_syms d <= Z.of_nat (length (syms d)) /\ Z.of_nat (length (syms d)) < 65536;
  wf_packed : 1 + sum_of (size_of (key_sym_map d)) (keycodes d) <= num_syms d;
}.

(** The standard ALPHABETIC type: Shift or Lock select the second level. *)
Definition alphabetic_type : XkbKeyType :=
  {| mods_mask := 3; num_levels := 2;
     kt_map := [{| active := true; level := 1; entry_mask := 1 |};
                {| active := true; level := 1; entry_mask := 2 |}];
     preserve := None |}.

(** A small description used by the witnesses: keycode 8 is the letter a, 9 Shift,
    10 the level three shift, 11 e/E/EuroSign, 12 has no symbol. *)
Definition demo_types : list XkbKeyType :=
  [ {| mods_mask := 0; num_levels := 1; kt_map := []; preserve := None |};
    {| mods_mask := 1; num_levels := 2; kt_map := [{| active := true; level := 1; entry_mask := 1 |}];
       preserve := None |};
    alphabetic_type;
    {| mods_mask := 0x81; num_levels := 4;
       kt_map := [{| active := true; level := 1; entry_mask := 1 |};
                  {| active := true; level := 2; entry_mask := 0x80 |};
                  {| active := true; level := 3; entry_mask := 0x81 |}];
       preserve := None |} ].

Definition demo_key t w off : XkbSymMap :=
  {| kt_index := [t; 0; 0; 0]; group_info := 1; width := w; offset := off |}.

Definition demo_empty : XkbSymMap :=
  {| kt_index := [0; 0; 0; 0]; group_info := 0; width := 0; offset := 0 |}.

Definition demo_desc : XkbDesc :=
  {| min_key_code := 8; max_key_code := 12; types := demo_types;
     key_sym_map := replicate 8 demo_empty ++
       [demo_key 2 2 1; demo_key 0 1 3; demo_key 0 1 4; demo_key 3 4 5; demo_empty];
     syms := [0; 0x61; 0x41; 0xffe1; 0xfe03; 0x65; 0x45; 0x20ac; 0]; num_syms := 9;
     modmap := replicate 9 0 ++ [1; 0x80; 0; 0];
     acts := [no_action; {| act_type := 1; act_flags := 0; act_mask := 1 |};
              {| act_type := 1; act_flags := 0; act_mask := 0x80 |}];
     num_acts := 3;
     key_acts := replicate 9 0 ++ [1; 2; 0; 0];
     ctrls_num_groups := Some 1;
     names := Some (replicate 13 [65; 69; 48; 49]) |}.

(** ** Lemmas on groups and columns *)

Lemma land_range x m : 0 <= m -> 0 <= Z.land x m <= m.
Proof.
  intros Hm. split; [apply Z.land_nonneg; lia|].
  destruct (decide (m = 0)) as [->|]; [by rewrite Z.land_0_r|].
  apply Z.ldiff_le; [done|]. rewrite Z.land_comm.
  apply Z.bits_inj'. intros i Hi. rewrite Z.ldiff_spec, Z.land_spec, Z.bits_0.
  destruct (Z.testbit m i), (Z.testbit x i); done.
Qed.

Lemma XkbNumGroups_range g : 0 <= XkbNumGroups g <= 15.
Proof. apply land_range. lia. Qed.

Lemma effective_group_range mods ng info :
  0 < ng -> 0 <= effective_group mods ng info < ng.
Proof.
  intros Hng. unfold effective_group.
  pose proof (land_range (Z.shiftr mods 13) 3). fold (XkbGroupForCoreState mods) in *.
  destruct (Z.leb_spec ng (XkbGroupForCoreState mods)); [|lia].
  destruct (Z.eqb_spec (XkbOutOfRangeGroupAction info) 0x40); [lia|].
  destruct (Z.eqb_spec (XkbOutOfRangeGroupAction info) 0x80).
  - assert (0 <= XkbOutOfRangeGroupNumber info).
    { apply Z.shiftr_nonneg. apply land_range. lia. }
    destruct (Z.leb_spec ng (XkbOutOfRangeGroupNumber info)); lia.
  - apply Z.mod_pos_bound. lia.
Qed.

Lemma effective_group_one mods info : effective_group mods 1 info = 0.
Proof. pose proof (effective_group_range mods 1 info). lia. Qed.

Lemma find_entry_Some mods t i m j e :
  find_entry mods t i m = Some (j, e) ->
  i <= j < i + Z.of_nat (length m) /\ rdz m (j - i) = Some e /\ entry_matches mods t e = true.
Proof.
  revert i. induction m as [|x m IH]; intros i; [done|]. simpl.
  destruct (entry_matches mods t x) eqn:E.
  - intros [= <- <-]. rewrite Z.sub_diag. split; [lia|done].
  - intros H. apply IH in H as (Hj & Hr & He). split; [lia|]. split; [|done].
    replace (j - i) with (Z.of_nat (S (Z.to_nat (j - i - 1)))) by lia.
    rewrite rdz_nat. simpl. rewrite <- rdz_nat, <- Hr. f_equal. lia.
Qed.

Lemma keycode_in_range d key : XkbKeycodeInRange d key = true <-> min_key_code d <= key <= max_key_code d.
Proof. unfold XkbKeycodeInRange. lia. Qed.

Lemma elem_of_keycodes d key : key ∈ keycodes d <-> XkbKeycodeInRange d key = true.
Proof. rewrite keycode_in_range. unfold keycodes. rewrite elem_of_seqZ. lia. Qed.

Section wf.
Context (d : XkbDesc) (Hd : wf_desc d).

Lemma wf_key key : XkbKeycodeInRange d key = true ->
  exists m, rdz (key_sym_map d) key = Some m /\ wf_sym_map d m.
Proof.
  intros Hk. pose proof (proj1 (keycode_in_range d key) Hk).
  pose proof (wf_min d Hd). pose proof (wf_map_length d Hd).
  destruct (proj2 (rdz_is_Some (key_sym_map d) key)) as [m Hm]; [lia|].
  exists m. split; [done|]. by eapply wf_keys.
Qed.

Lemma wf_type_of i t : rdz (types d) i = Some t -> wf_type t.
Proof.
  destruct Hd. unfold rdz. destruct (0 <=? i); [|done]. rewrite Forall_lookup in wf_types0. eauto.
Qed.

(** The column selected in a type is one of its levels, and the type's
    preserved modifiers can be read. *)
Lemma wf_column t mods : wf_type t ->
  exists l p, 0 <= l < num_levels t /\
    match find_entry mods t 0 (kt_map t) with
    | Some (i, e) =>
        match preserve t with
        | Some p => m ← rdz p i; Some (level e, m)
        | None => Some (level e, 0)
        end
    | None => Some (0, 0)
    end = Some (l, p).
Proof.
  intros Ht. destruct (find_entry mods t 0 (kt_map t)) as [[i e]|] eqn:E.
  - apply find_entry_Some in E as (Hi & He & _). rewrite Z.sub_0_r in He.
    assert (0 <= level e < num_levels t).
    { pose proof (wf_entries _ Ht) as Hf. rewrite Forall_lookup in Hf.
      unfold rdz in He. destruct (0 <=? i); [|done]. by eapply Hf. }
    destruct (preserve t) as [p|] eqn:Ep.
    + pose proof (wf_preserve _ Ht _ Ep). destruct (proj2 (rdz_is_Some p i)) as [m Hm]; [lia|].
      exists (level e), m. split; [lia|]. by rewrite Hm.
    + eauto.
  - exists 0, 0. pose proof (wf_levels _ Ht). split; [lia|done].
Qed.

Lemma wf_group_type key m mods : rdz (key_sym_map d) key = Some m -> wf_sym_map d m ->
  XkbNumGroups (group_info m) <> 0 ->
  let g := effective_group mods (XkbNumGroups (group_info m)) (group_info m) in
  exists t, XkbKeyKeyType d key g = Some t /\ wf_type t /\ num_levels t <= width m /\
    0 <= g < XkbNumGroups (group_info m).
Proof.
  intros Hm Hw Hng g. pose proof (XkbNumGroups_range (group_info m)).
  assert (Hg : 0 <= g < XkbNumGroups (group_info m)) by (apply effective_group_range; lia).
  destruct (wf_kt _ _ Hw g Hg) as (i & t & Hi & Ht & Hl).
  exists t. split_and!; [| by eapply wf_type_of |done|lia|lia].
  unfold XkbKeyKeyType, XkbKeyKeyTypeIndex. rewrite Hm. cbn.
  replace (Z.land g 3) with g.
  - by rewrite Hi.
  - destruct (wf_groups _ _ Hw). change 3 with (2 ^ 2 - 1). rewrite land_ones_mod by lia.
    rewrite Z.mod_small; lia.
Qed.

(** The cell a translation reads is one of the cells of the key. *)
Lemma column_in_block m g l :
  wf_sym_map d m -> 0 <= g < XkbNumGroups (group_info m) -> 0 <= l < width m ->
  0 <= g * width m + l < num_syms_of m.
Proof. intros Hw Hg Hl. unfold num_syms_of. nia. Qed.

End wf.

Lemma demo_desc_wf : wf_desc demo_desc.
Proof.
  split; try (vm_compute; done); try (by vm_compute; split; discriminate).
  - repeat constructor; simpl; try (vm_compute; intuition discriminate);
      intros ? [= <-]; done.
  - assert (Hone : forall t w i o, 0 <= w < 256 -> 0 <= o -> o + w <= 9 ->
        rdz demo_types i = Some t -> num_levels t <= w -> wf_sym_map demo_desc (demo_key i w o)).
    { intros t w i o Hw Ho Hb Ht Hl.
      assert (Hn : num_syms_of (demo_key i w o) = w) by (unfold num_syms_of; apply Z.mul_1_r).
      split; [done|by split|done|rewrite Hn; intros _; by split|].
      change (XkbNumGroups (group_info (demo_key i w o))) with 1.
      intros g Hg. assert (g = 0) as -> by lia. exists i, t. done. }
    assert (Hno : wf_sym_map demo_desc demo_empty).
    { split; [done|by split|done|done|]. change (XkbNumGroups (group_info demo_empty)) with 0. lia. }
    intros k m Hk Hm. apply keycode_in_range in Hk. simpl in Hk.
    assert (k = 8 \/ k = 9 \/ k = 10 \/ k = 11 \/ k = 12) as Hks by lia.
    destruct Hks as [->|[->|[->|[->| ->]]]]; injection Hm as <-;
      first [apply Hno|eapply Hone; [lia|lia|lia|reflexivity|simpl; lia]].
Qed.

(** The translation of a key with groups: a cell of its block. *)
Lemma XkbTranslateKeyCode_cell d key mods m :
  wf_desc d -> XkbKeycodeInRange d key = true -> rdz (key_sym_map d) key = Some m ->
  XkbNumGroups (group_info m) <> 0 ->
  exists r c s, 0 <= c < num_syms_of m /\ rdz (syms d) (offset m + c) = Some s /\
    XkbTranslateKeyCode d key mods = Some (negb (s =? NoSymbol), r, s).
Proof.
  intros Hd Hk Hm E. pose proof (wf_keys d Hd key m Hk Hm) as Hw.
  unfold XkbTranslateKeyCode, XkbKeyNumGroups, XkbKeyGroupInfo, XkbKeyGroupsWidth, XkbKeySymsOffset.
  rewrite Hm, Hk. cbn. rewrite (proj2 (Z.eqb_neq _ 0)) by done.
  destruct (wf_group_type d Hd key m mods Hm Hw E) as (t & -> & Ht & Hl & Hg). cbn.
  destruct (wf_column t mods Ht) as (l & p & Hlp & ->). cbn.
  pose proof (column_in_block d m _ l Hw Hg) as Hc.
  destruct Hc as [Hc1 Hc2]; [lia|]. destruct (wf_block _ _ Hw) as [Ho Hblk]; [lia|].
  pose proof (wf_num_syms d Hd).
  eexists _, _. destruct (rdz_is_Some (syms d) (offset m + (effective_group mods
    (XkbNumGroups (group_info m)) (group_info m) * width m + l))) as [_ Hs].
  destruct Hs as [s Hs]; [lia|]. exists s. split; [exact (conj Hc1 Hc2)|]. split; [done|].
  by rewrite Hs.
Qed.

Lemma XkbTranslateKeyCode_total d key mods :
  wf_desc d -> XkbKeycodeInRange d key = true -> is_Some (XkbTranslateKeyCode d key mods).
Proof.
  intros Hd Hk. destruct (wf_key d Hd key Hk) as (m & Hm & Hw).
  destruct (decide (XkbNumGroups (group_info m) = 0)) as [E|E].
  - unfold XkbTranslateKeyCode, XkbKeyNumGroups, XkbKeyGroupInfo. rewrite Hm. cbn.
    rewrite E, orb_true_r. eauto.
  - destruct (XkbTranslateKeyCode_cell d key mods m) as (r & c & s & _ & _ & ->); eauto.
Qed.

(** On a well-formed keyboard description, translating any keycode of its range stays
    inside the arrays (types, preserved modifiers, symbols) and answers [NoSymbol] for a key
    without groups and otherwise one of the symbols of the key's own block, with a success
    flag that says whether the symbol is defined. *)
Theorem XkbTranslateKeyCode_in_block d key mods :
  wf_desc d -> XkbKeycodeInRange d key = true ->
  exists r m s b, XkbTranslateKeyCode d key mods = Some (r, m, s) /\ key_syms d key = Some b /\
    (s ∈ b \/ (s = NoSymbol /\ b = [])) /\ r = negb (s =? NoSymbol).
Proof.
  intros Hd Hk. destruct (wf_key d Hd key Hk) as (m & Hm & Hw).
  unfold key_syms. rewrite Hm. cbn. destruct (decide (XkbNumGroups (group_info m) = 0)) as [E|E].
  - assert (num_syms_of m = 0) as -> by (unfold num_syms_of; rewrite E; lia).
    exists false, 0, NoSymbol, []. split_and!; try done; [|by right].
    unfold XkbTranslateKeyCode, XkbKeyNumGroups, XkbKeyGroupInfo. rewrite Hm. cbn. by rewrite E, orb_true_r.
  - destruct (XkbTranslateKeyCode_cell d key mods m) as (r & c & s & Hc & Hs & ->); try done.
    destruct (wf_block _ _ Hw) as [Ho Hblk]; [lia|]. pose proof (wf_num_syms d Hd).
    destruct (proj2 (slice_is_Some (syms d) (offset m) (num_syms_of m))) as [b Hb]; [lia|].
    rewrite (proj2 (Z.eqb_neq (num_syms_of m) 0)), Hb by lia.
    exists (negb (s =? NoSymbol)), r, s, b. split_and!; try done. left.
    pose proof (rdz_slice _ _ _ _ c Hb) as Hr.
    rewrite (proj2 (Z.leb_le 0 c)), (proj2 (Z.ltb_lt c _)), Hs in Hr by lia. unfold rdz in Hr.
    simpl in Hr. destruct (0 <=? c); [|done]. by eapply list_elem_of_lookup_2.
Qed.

Lemma XkbTranslateKeyCode_in_block_witness :
  exists r m s b, XkbTranslateKeyCode demo_desc 8 ShiftMask = Some (r, m, s) /\
    key_syms demo_desc 8 = Some b /\ (s ∈ b \/ (s = NoSymbol /\ b = [])) /\ r = negb (s =? NoSymbol).
Proof. apply (XkbTranslateKeyCode_in_block demo_desc 8 ShiftMask); [apply demo_desc_wf|reflexivity]. Defined.

(** ** Resizing a key's block *)

(** The room a key takes in the rebuilt array. *)
Definition sz (d : XkbDesc) (key needed k : Z) : Z :=
  if k =? key then needed else size_of (key_sym_map d) k.

Definition with_offset (m : XkbSymMap) (o : Z) : XkbSymMap :=
  {| kt_index := kt_index m; group_info := group_info m; width := width m; offset := o |}.

(** What the rebuilt array and map say of a key: its old cells, then zeros. *)
Definition placed (d : XkbDesc) (key needed : Z) (ns : list Z) (f : list XkbSymMap) (lo hi k : Z) : Prop :=
  exists m o, rdz (key_sym_map d) k = Some m /\ rdz f k = Some (with_offset m o) /\
    if (num_syms_of m =? 0) && negb (k =? key) then o = offset m
    else lo <= o /\ o + sz d key needed k <= hi /\
      (forall c, 0 <= c < sz d key needed k ->
         rdz ns (o + c) = if c <? num_syms_of m then rdz (syms d) (offset m + c) else Some 0).

Lemma with_offset_id m : with_offset m (offset m) = m.
Proof. by destruct m. Qed.

Lemma set_offset_Some f k m o : rdz f k = Some m ->
  exists f', set_offset f k o = Some f' /\ length f' = length f /\
    forall j, rdz f' j = if k =? j then Some (with_offset m (u16 o)) else rdz f j.
Proof.
  intros Hm. unfold set_offset. rewrite Hm. cbn.
  pose proof (rdz_Some_range _ _ _ Hm). rewrite wrz_Some by done. eexists. split; [done|].
  split; [apply length_insert|]. intros j. apply rdz_wrz. by apply wrz_Some.
Qed.

Lemma rdz_zeros n i : rdz (zeros n) i = if (0 <=? i) && (i <? n) then Some 0 else None.
Proof.
  unfold rdz, zeros. destruct (Z.leb_spec 0 i), (Z.ltb_spec i n); simpl; try done.
  - rewrite lookup_replicate_2 by lia. done.
  - apply lookup_ge_None. rewrite length_replicate. lia.
Qed.

Lemma length_zeros n : length (zeros n) = Z.to_nat n.
Proof. apply length_replicate. Qed.

Lemma num_syms_of_nonneg d m : wf_sym_map d m -> 0 <= num_syms_of m.
Proof. intros []. unfold num_syms_of in *. pose proof (XkbNumGroups_range (group_info m)). nia. Qed.

Section resize.
Context (d : XkbDesc) (Hd : wf_desc d) (key needed : Z).
Context (Hneeded : forall m, rdz (key_sym_map d) key = Some m -> num_syms_of m <= needed).

Lemma sz_nonneg k : XkbKeycodeInRange d k = true -> 0 <= sz d key needed k.
Proof.
  intros Hk. destruct (wf_key d Hd k Hk) as (m & Hm & Hw). pose proof (num_syms_of_nonneg d m Hw).
  unfold sz, size_of. rewrite Hm. destruct (Z.eqb_spec k key) as [->|]; [|done].
  specialize (Hneeded m Hm). lia.
Qed.

Lemma XkbKeyNumSyms_eq k m : rdz (key_sym_map d) k = Some m -> XkbKeyNumSyms d k = Some (num_syms_of m).
Proof. intros Hm. unfold XkbKeyNumSyms, XkbKeyGroupsWidth, XkbKeyNumGroups, XkbKeyGroupInfo. by rewrite Hm. Qed.

(** The copied block, and the zeros after it. *)
Lemma old_block_spec m : wf_sym_map d m ->
  exists old, (if num_syms_of m =? 0 then Some [] else slice (syms d) (offset m) (num_syms_of m)) = Some old
    /\ Z.of_nat (length old) = num_syms_of m
    /\ forall c, 0 <= c < num_syms_of m -> rdz old c = rdz (syms d) (offset m + c).
Proof.
  intros Hw. pose proof (num_syms_of_nonneg d m Hw). pose proof (wf_num_syms d Hd) as Hns.
  destruct (Z.eqb_spec (num_syms_of m) 0) as [->|E]; [exists []; split_and!; try done; lia|].
  destruct (wf_block d m Hw E) as [Ho Hb].
  destruct (proj2 (slice_is_Some (syms d) (offset m) (num_syms_of m))) as [b Hb']; [lia|].
  exists b. split_and!; [done|rewrite (slice_length _ _ _ _ Hb'); lia|].
  intros c Hc. rewrite (rdz_slice _ _ _ _ _ Hb').
  by rewrite (proj2 (Z.leb_le 0 c)), (proj2 (Z.ltb_lt c _)) by lia.
Qed.

Lemma pad_spec ns1 n lo hi : 0 <= n -> 0 <= lo <= hi -> n + hi <= Z.of_nat (length ns1) ->
  exists ns2, (if lo <? hi then blit ns1 (n + lo) (zeros (hi - lo)) else Some ns1) = Some ns2
    /\ length ns2 = length ns1
    /\ forall i, rdz ns2 i = if (n + lo <=? i) && (i <? n + hi) then Some 0 else rdz ns1 i.
Proof.
  intros Hn Hlo Hhi. destruct (Z.ltb_spec lo hi).
  - destruct (proj2 (blit_is_Some ns1 (zeros (hi - lo)) (n + lo))) as [ns2 H2]; [rewrite length_zeros; lia|].
    exists ns2. split_and!; [done|by eapply blit_length|]. intros i.
    rewrite (rdz_blit _ _ _ _ i H2), length_zeros, rdz_zeros.
    replace (Z.of_nat (Z.to_nat _)) with (hi - lo) by lia.
    destruct (Z.leb_spec (n + lo) i), (Z.ltb_spec i (n + hi)), (Z.ltb_spec i (n + lo + (hi - lo)));
      simpl; try done; try lia.
    by rewrite (proj2 (Z.leb_le 0 _)), (proj2 (Z.ltb_lt _ _)) by lia.
  - exists ns1. split_and!; try done. intros i.
    destruct (Z.leb_spec (n + lo) i), (Z.ltb_spec i (n + hi)); simpl; try done; lia.
Qed.

(** One round writes the key's block at [n] and touches nothing below. *)
Lemma resize_step_spec ns f n k :
  XkbKeycodeInRange d k = true -> rdz f k = rdz (key_sym_map d) k ->
  0 <= n -> n + sz d key needed k <= Z.of_nat (length ns) -> Z.of_nat (length ns) < 65536 ->
  exists ns' f', resize_syms_step d key needed (ns, f, n) k = Some (ns', f', n + sz d key needed k) /\
    length ns' = length ns /\
    (forall i, i < n -> rdz ns' i = rdz ns i) /\
    (forall j, j <> k -> rdz f' j = rdz f j) /\
    placed d key needed ns' f' n (n + sz d key needed k) k.
Proof.
  intros Hk Hf Hn Hlen Hu. destruct (wf_key d Hd k Hk) as (m & Hm & Hw).
  pose proof (num_syms_of_nonneg d m Hw) as Hnn. pose proof (sz_nonneg k Hk) as Hs.
  unfold resize_syms_step. rewrite (XkbKeyNumSyms_eq k m Hm). cbn.
  destruct ((num_syms_of m =? 0) && negb (k =? key)) eqn:Eskip.
  - assert (sz d key needed k = 0) as ->.
    { unfold sz, size_of. rewrite Hm. destruct (Z.eqb_spec k key); simpl in *; lia. }
    exists ns, f. split_and!; try done; [do 3 f_equal; lia|].
    exists m, (offset m). rewrite with_offset_id, Hf. split_and!; try done. by rewrite Eskip.
  - assert (Hle : num_syms_of m <= sz d key needed k).
    { unfold sz, size_of. rewrite Hm. destruct (Z.eqb_spec k key) as [->|]; simpl; [by apply Hneeded|lia]. }
    assert (Hsz : (if k =? key then needed else num_syms_of m) = sz d key needed k).
    { unfold sz, size_of. by rewrite Hm. }
    rewrite Hsz. unfold XkbKeySymsOffset. rewrite Hm. cbn.
    destruct (old_block_spec m Hw) as (old & -> & Hol & Hor).
    cbn. destruct (proj2 (blit_is_Some ns old n)) as [ns1 H1]; [lia|]. rewrite H1. cbn.
    pose proof (blit_length _ _ _ _ H1) as L1.
    destruct (pad_spec ns1 n (num_syms_of m) (sz d key needed k)) as (ns2 & -> & L2 & H2); [lia..|].
    cbn. destruct (set_offset_Some f k m n) as (f' & -> & _ & Hf'); [by rewrite Hf|]. cbn.
    exists ns2, f'. split_and!; [done|congruence| | |].
    + intros i Hi. rewrite H2, (rdz_blit _ _ _ _ i H1).
      destruct (Z.leb_spec (n + num_syms_of m) i), (Z.leb_spec n i); simpl; try lia; done.
    + intros j Hj. rewrite Hf'. by rewrite (proj2 (Z.eqb_neq k j)) by done.
    + exists m, n. rewrite Hf', Z.eqb_refl, Eskip, uwrap_small by lia.
      split_and!; try done; try lia. intros c Hc. rewrite H2, (rdz_blit _ _ _ _ _ H1), Hol.
      destruct (Z.ltb_spec c (num_syms_of m)).
      * rewrite (proj2 (Z.leb_gt (n + num_syms_of m) (n + c))) by lia. simpl.
        rewrite (proj2 (Z.leb_le n (n + c))), (proj2 (Z.ltb_lt (n + c) _)) by lia. simpl.
        rewrite <- Hor by lia. f_equal. lia.
      * by rewrite (proj2 (Z.leb_le (n + num_syms_of m) (n + c))), (proj2 (Z.ltb_lt (n + c) (n + sz d key needed k))) by lia.
Qed.

Lemma placed_mono ns f ns' f' lo hi hi' lo' k :
  placed d key needed ns f lo hi k -> lo' <= lo -> hi <= hi' ->
  (forall i, lo <= i < hi -> rdz ns' i = rdz ns i) -> rdz f' k = rdz f k ->
  placed d key needed ns' f' lo' hi' k.
Proof.
  intros (m & o & Hm & Hf & Hp) Hlo Hhi Hns Hf'. exists m, o. rewrite Hf'. split_and!; try done.
  destruct (_ && _)%bool; [done|]. destruct Hp as (H1 & H2 & H3). split_and!; try lia.
  intros c Hc. rewrite Hns by lia. by apply H3.
Qed.

Lemma sum_of_nonneg (f : Z -> Z) l : (forall k, k ∈ l -> 0 <= f k) -> 0 <= sum_of f l.
Proof.
  induction l as [|k l IH]; intros H; cbn [sum_of]; [lia|].
  assert (0 <= f k) by (apply H; by left). assert (0 <= sum_of f l); [|lia].
  apply IH. intros j Hj. apply H. by right.
Qed.

Lemma resize_fold_spec l : forall ns f n,
  NoDup l -> (forall k, k ∈ l -> XkbKeycodeInRange d k = true /\ rdz f k = rdz (key_sym_map d) k) ->
  0 <= n -> n + sum_of (sz d key needed) l <= Z.of_nat (length ns) -> Z.of_nat (length ns) < 65536 ->
  exists ns' f', foldM (resize_syms_step d key needed) (ns, f, n) l
      = Some (ns', f', n + sum_of (sz d key needed) l) /\
    length ns' = length ns /\ n <= n + sum_of (sz d key needed) l /\
    (forall i, i < n -> rdz ns' i = rdz ns i) /\
    (forall j, j ∉ l -> rdz f' j = rdz f j) /\
    (forall k, k ∈ l -> placed d key needed ns' f' n (n + sum_of (sz d key needed) l) k).
Proof.
  induction l as [|k l IH]; intros ns f n Hnd Hl Hn Hlen Hu.
  { exists ns, f. simpl. rewrite Z.add_0_r. split_and!; try done. by intros k Hk%elem_of_nil. }
  cbn [foldM sum_of] in *. apply NoDup_cons in Hnd as [Hk Hnd].
  destruct (Hl k) as [Hkr Hkf]; [by left|]. pose proof (sz_nonneg k Hkr).
  assert (0 <= sum_of (sz d key needed) l).
  { apply sum_of_nonneg. intros j Hj. apply sz_nonneg, Hl. by right. }
  destruct (resize_step_spec ns f n k Hkr Hkf) as (ns1 & f1 & -> & L1 & A1 & B1 & P1); [lia..|].
  cbn. destruct (IH ns1 f1 (n + sz d key needed k)) as (ns' & f' & -> & L' & G' & A' & B' & P'); try lia; try done.
  { intros j Hj. destruct (Hl j) as [? <-]; [by right|]. split; [done|]. apply B1. by intros ->. }
  exists ns', f'. rewrite <- Z.add_assoc. split_and!; [done|congruence|lia| | |].
  - intros i Hi. rewrite A' by lia. by apply A1.
  - intros j [Hjk Hj]%not_elem_of_cons. rewrite B' by done. by apply B1.
  - intros j [->|Hj]%elem_of_cons.
    + eapply placed_mono; [exact P1|lia|lia| |by apply B'].
      intros i Hi. apply A'. lia.
    + eapply placed_mono; [by apply P'|lia|lia|done|done].
Qed.

(** The blocks of two keys never overlap in the rebuilt array. *)
Lemma placed_block ns f lo hi k m : placed d key needed ns f lo hi k -> rdz f k = Some m ->
  sz d key needed k <> 0 -> lo <= offset m /\ offset m + sz d key needed k <= hi.
Proof.
  intros (mk & o & Hm & Hf & Hp) Hf' Hne. rewrite Hf in Hf'. simplify_eq. cbn.
  revert Hp. unfold sz, size_of in *. rewrite Hm in *. cbn in *.
  destruct (Z.eqb_spec k key) as [->|].
  - rewrite andb_false_r. intros (? & ? & _). lia.
  - rewrite andb_true_r. rewrite (proj2 (Z.eqb_neq (num_syms_of mk) 0)) by done. intros (? & ? & _). lia.
Qed.

Lemma resize_fold_disjoint l : forall ns f n ns' f' n',
  NoDup l -> (forall k, k ∈ l -> XkbKeycodeInRange d k = true /\ rdz f k = rdz (key_sym_map d) k) ->
  0 <= n -> n + sum_of (sz d key needed) l <= Z.of_nat (length ns) -> Z.of_nat (length ns) < 65536 ->
  foldM (resize_syms_step d key needed) (ns, f, n) l = Some (ns', f', n') ->
  forall k1 k2 m1 m2, k1 ∈ l -> k2 ∈ l -> k1 <> k2 -> rdz f' k1 = Some m1 -> rdz f' k2 = Some m2 ->
    sz d key needed k1 <> 0 -> sz d key needed k2 <> 0 ->
    offset m1 + sz d key needed k1 <= offset m2 \/ offset m2 + sz d key needed k2 <= offset m1.
Proof.
  induction l as [|k l IH]; intros ns f n ns' f' n' Hnd Hl Hn Hlen Hu HF k1 k2 m1 m2; [by intros ?%elem_of_nil|].
  cbn [foldM sum_of] in *. apply NoDup_cons in Hnd as [Hk Hnd].
  destruct (Hl k) as [Hkr Hkf]; [by left|]. pose proof (sz_nonneg k Hkr).
  assert (Hs : 0 <= sum_of (sz d key needed) l).
  { apply sum_of_nonneg. intros j Hj. apply sz_nonneg, Hl. by right. }
  destruct (resize_step_spec ns f n k Hkr Hkf) as (ns1 & f1 & E1 & L1 & A1 & B1 & P1); [lia..|].
  rewrite E1 in HF. cbn in HF.
  assert (Hl1 : forall j, j ∈ l -> XkbKeycodeInRange d j = true /\ rdz f1 j = rdz (key_sym_map d) j).
  { intros j Hj. destruct (Hl j) as [? <-]; [by right|]. split; [done|]. apply B1. by intros ->. }
  destruct (resize_fold_spec l ns1 f1 (n + sz d key needed k)) as (ns2 & f2 & E2 & _ & _ & A2 & B2 & P2);
    try lia; try done. rewrite E2 in HF. simplify_eq.
  assert (Hfirst : forall m1 m2 k2, k2 ∈ l -> rdz f' k = Some m1 -> rdz f' k2 = Some m2 ->
    sz d key needed k <> 0 -> sz d key needed k2 <> 0 -> offset m1 + sz d key needed k <= offset m2).
  { intros u1 u2 j Hj Hu1 Hu2 Z1 Z2. rewrite B2 in Hu1 by done.
    destruct (placed_block _ _ _ _ _ _ P1 Hu1 Z1). destruct (placed_block _ _ _ _ _ _ (P2 j Hj) Hu2 Z2). lia. }
  intros [->|Hk1]%elem_of_cons [->|Hk2]%elem_of_cons Hne Hm1 Hm2 Z1 Z2; [done| | |].
  - left. by eapply Hfirst.
  - right. by eapply Hfirst.
  - eapply (IH ns1 f1 (n + sz d key needed k)); try done; lia.
Qed.

End resize.

Lemma set_offset_length f k o f' : set_offset f k o = Some f' -> length f' = length f.
Proof. unfold set_offset. destruct (rdz f k); [|done]. cbn. apply wrz_length. Qed.

Lemma resize_fold_length d key needed l ns f n ns' f' n' :
  foldM (resize_syms_step d key needed) (ns, f, n) l = Some (ns', f', n') -> length f' = length f.
Proof.
  revert ns f n. induction l as [|k l IH]; intros ns f n; cbn [foldM]; [by intros [= <- <- <-]|].
  unfold mbind, option_bind. destruct (resize_syms_step d key needed (ns, f, n) k) as [[[ns1 f1] n1]|] eqn:E; [|done].
  intros H%IH. rewrite H. revert E. unfold resize_syms_step, mbind, option_bind.
  repeat case_match; try done; intros; simplify_eq; try done; by eapply set_offset_length.
Qed.

(** What [XkbResizeKeySyms] promises when it answers the address [p] of a block of
    [needed] cells for [key]. *)
Record resized (d : XkbDesc) (key needed : Z) (m : XkbSymMap) (d' : XkbDesc) (p : Z) : Prop := {
  rs_frame : d' = set_syms (syms d') (num_syms d') (set_sym_map (key_sym_map d') d);
  rs_length : length (key_sym_map d') = length (key_sym_map d);
  rs_size : Z.of_nat (length (syms d)) <= Z.of_nat (length (syms d')) /\ 0 <= p /\
            p + needed <= num_syms d' <= Z.of_nat (length (syms d'));
  rs_bound : Z.of_nat (length (syms d')) <= Z.of_nat (length (syms d)) + Z.max 32 needed;
  rs_packed : 1 + sum_of (sz d key needed) (keycodes d) <= num_syms d';
  rs_key : rdz (key_sym_map d') key = Some (with_offset m p);
  rs_block : forall c, 0 <= c < needed ->
    rdz (syms d') (p + c) = if c <? num_syms_of m then rdz (syms d) (offset m + c) else Some 0;
  rs_other : forall k mk, k <> key -> XkbKeycodeInRange d k = true -> rdz (key_sym_map d) k = Some mk ->
    exists o, rdz (key_sym_map d') k = Some (with_offset mk o) /\
      (num_syms_of mk <> 0 -> 0 <= o /\ o + num_syms_of mk <= num_syms d') /\
      (forall c, 0 <= c < num_syms_of mk -> rdz (syms d') (o + c) = rdz (syms d) (offset mk + c)) /\
      (num_syms_of mk <> 0 -> o + num_syms_of mk <= p \/ p + needed <= o);
}.

Lemma sum_sz_le d key needed m l :
  rdz (key_sym_map d) key = Some m -> num_syms_of m <= needed -> NoDup l ->
  sum_of (sz d key needed) l <= sum_of (size_of (key_sym_map d)) l + (needed - num_syms_of m).
Proof.
  intros Hm Hle. induction l as [|k l IH]; intros Hnd; cbn [sum_of]; [lia|].
  apply NoDup_cons in Hnd as [Hk Hnd]. specialize (IH Hnd). unfold sz at 1.
  destruct (Z.eqb_spec k key) as [->|]; [|lia].
  assert (sum_of (sz d key needed) l = sum_of (size_of (key_sym_map d)) l) as ->.
  { clear IH Hnd. induction l as [|x l IH]; [done|]. cbn [sum_of]. apply not_elem_of_cons in Hk as [? Hk].
    rewrite IH by done. unfold sz. by rewrite (proj2 (Z.eqb_neq x key)) by done. }
  assert (size_of (key_sym_map d) key = num_syms_of m) by (unfold size_of; by rewrite Hm). lia.
Qed.

(** The block moves to the free end of the array. *)
Lemma resize_append d key needed m :
  wf_desc d -> XkbKeycodeInRange d key = true -> rdz (key_sym_map d) key = Some m ->
  num_syms_of m < needed ->
  needed <= Z.of_nat (length (syms d)) - num_syms d -> 0 < needed ->
  exists d', XkbResizeKeySyms true d key needed = Some (d', Some (num_syms d)) /\
    resized d key needed m d' (num_syms d).
Proof.
  intros Hd Hk Hm Hlt Hroom Hpos. pose proof (wf_keys d Hd key m Hk Hm) as Hw.
  pose proof (wf_num_syms d Hd) as Hns. pose proof (num_syms_of_nonneg d m Hw) as Hnn.
  destruct (old_block_spec d Hd m Hw) as (old & Hold & Lo & Hor).
  destruct (proj2 (blit_is_Some (syms d) old (num_syms d))) as [s1 H1]; [lia|].
  pose proof (blit_length _ _ _ _ H1) as L1.
  destruct (pad_spec s1 (num_syms d) (num_syms_of m) needed) as (s2 & Hp & L2 & H2); [lia..|].
  rewrite (proj2 (Z.ltb_lt (num_syms_of m) needed)) in Hp by lia.
  destruct (set_offset_Some (key_sym_map d) key m (num_syms d) Hm) as (f & Hf & Lf & Hff).
  assert (E : (if 0 <? num_syms_of m then slice (syms d) (offset m) (num_syms_of m) else Some []) = Some old).
  { revert Hold. destruct (Z.ltb_spec 0 (num_syms_of m)), (Z.eqb_spec (num_syms_of m) 0); done || lia. }
  unfold XkbResizeKeySyms, XkbKeySymsOffset. rewrite Hm, (XkbKeyNumSyms_eq d key m Hm).
  rewrite (proj2 (Z.eqb_neq needed 0)) by lia. cbn.
  rewrite (proj2 (Z.leb_gt needed (num_syms_of m))), (proj2 (Z.leb_le needed _)), E by lia. cbn.
  rewrite H1. cbn. rewrite Hp. cbn. rewrite Hf. cbn. rewrite Hff, Z.eqb_refl, uwrap_small by lia. cbn.
  eexists. split; [done|]. split; cbn; try done; try lia.
  - pose proof (sum_sz_le d key needed m (keycodes d) Hm ltac:(lia) (NoDup_seqZ _ _)).
    pose proof (wf_packed d Hd). lia.
  - by rewrite Hff, Z.eqb_refl, uwrap_small by lia.
  - intros c Hc. rewrite H2, (rdz_blit _ _ _ _ _ H1), Lo.
    destruct (Z.ltb_spec c (num_syms_of m)).
    + rewrite (proj2 (Z.leb_gt (num_syms d + num_syms_of m) _)) by lia. simpl.
      rewrite (proj2 (Z.leb_le (num_syms d) _)), (proj2 (Z.ltb_lt (num_syms d + c) _)) by lia. simpl.
      rewrite <- Hor by lia. f_equal. lia.
    + by rewrite (proj2 (Z.leb_le (num_syms d + num_syms_of m) _)), (proj2 (Z.ltb_lt (num_syms d + c) _)) by lia.
  - intros k mk Hne Hkr Hmk. exists (offset mk). rewrite Hff, (proj2 (Z.eqb_neq key k)), with_offset_id by done.
    pose proof (wf_keys d Hd k mk Hkr Hmk) as Hwk. split_and!; [done| | |].
    + intros E0. destruct (wf_block d mk Hwk E0). lia.
    + intros c Hc. destruct (wf_block d mk Hwk) as [O1 O2]; [lia|]. rewrite H2, (rdz_blit _ _ _ _ _ H1).
      by rewrite (proj2 (Z.leb_gt (num_syms d + num_syms_of m) _)), (proj2 (Z.leb_gt (num_syms d) _)) by lia.
    + intros E0. left. by apply (wf_block d mk Hwk).
Qed.

(** The whole array is rebuilt. *)
Lemma resize_rebuild d key needed m :
  wf_desc d -> XkbKeycodeInRange d key = true -> rdz (key_sym_map d) key = Some m -> num_syms_of m < needed ->
  Z.of_nat (length (syms d)) - num_syms d < needed -> 0 < needed ->
  Z.of_nat (length (syms d)) + Z.max 32 needed < 65536 ->
  exists d' p, XkbResizeKeySyms true d key needed = Some (d', Some p) /\ resized d key needed m d' p.
Proof.
  intros Hd Hk Hm Hlt Hroom Hpos Hmax.
  pose proof (wf_num_syms d Hd) as Hns. pose proof (wf_packed d Hd) as Hpk.
  pose proof (sum_sz_le d key needed m (keycodes d) Hm ltac:(lia) (NoDup_seqZ _ _)) as Hsum.
  pose proof (num_syms_of_nonneg d m (wf_keys d Hd key m Hk Hm)) as Hnn.
  set (N := Z.of_nat (length (syms d)) + (if 32 <? needed then needed else 32)).
  assert (HN : Z.of_nat (length (syms d)) + needed <= N < 65536 /\
      N <= Z.of_nat (length (syms d)) + Z.max 32 needed)
    by (subst N; destruct (Z.ltb_spec 32 needed); lia).
  assert (Hle : forall m', rdz (key_sym_map d) key = Some m' -> num_syms_of m' <= needed).
  { intros m' Hm'. rewrite Hm in Hm'. simplify_eq. lia. }
  destruct (resize_fold_spec d Hd key needed Hle (keycodes d) (zeros N) (key_sym_map d) 1)
    as (ns & f & HF & L & G & A & B & P); try (rewrite length_zeros); try lia.
  { apply NoDup_seqZ. }
  { intros k Hkk. by apply elem_of_keycodes in Hkk. }
  rewrite length_zeros in L.
  assert (Hkey : key ∈ keycodes d) by by apply elem_of_keycodes.
  destruct (P key Hkey) as (m' & p & Hm' & Hf' & Hp). rewrite Hm in Hm'. simplify_eq.
  rewrite Z.eqb_refl, andb_false_r in Hp. destruct Hp as (Hp1 & Hp2 & Hp3).
  assert (Hszk : sz d key needed key = needed) by (unfold sz; by rewrite Z.eqb_refl).
  rewrite Hszk in Hp2, Hp3.
  unfold XkbResizeKeySyms, XkbKeySymsOffset. rewrite Hm, (XkbKeyNumSyms_eq d key m' Hm).
  rewrite (proj2 (Z.eqb_neq needed 0)) by lia. cbn.
  rewrite (proj2 (Z.leb_gt needed (num_syms_of m'))), (proj2 (Z.leb_gt needed _)) by lia. cbn.
  fold N. rewrite HF. cbn. rewrite Hf'. cbn. eexists _, p. split; [done|].
  assert (Lf : length f = length (key_sym_map d)) by (by eapply resize_fold_length).
  split; cbn; try done; try lia.
  intros k mk Hne Er Hmk.
  destruct (P k) as (m2 & o & Hm2 & Hf2 & Ho); [by apply elem_of_keycodes|].
  rewrite Hmk in Hm2. simplify_eq. exists o. rewrite (proj2 (Z.eqb_neq k key)) in Ho by done.
  split; [done|]. destruct (Z.eqb_spec (num_syms_of m2) 0) as [E|E]; simpl in Ho; [split_and!; try done; lia|].
  assert (Hszo : sz d key needed k = num_syms_of m2)
    by (unfold sz, size_of; rewrite (proj2 (Z.eqb_neq k key)), Hmk by done; done).
  rewrite Hszo in Ho. destruct Ho as (O1 & O2 & O3). split; [lia|]. split.
  - intros c Hc. rewrite O3 by done. by rewrite (proj2 (Z.ltb_lt c _)) by lia.
  - intros _. rewrite <- Hszk, <- Hszo.
    eapply (resize_fold_disjoint d Hd key needed Hle (keycodes d) (zeros N) (key_sym_map d) 1 ns f _) with
      (m1 := with_offset m2 o) (m2 := with_offset m' p); try done; rewrite ?length_zeros; try lia.
    + apply NoDup_seqZ.
    + intros j Hj. by apply elem_of_keycodes in Hj.
    + by apply elem_of_keycodes.
Qed.

Lemma XkbResizeKeySyms_resized d key needed m :
  wf_desc d -> XkbKeycodeInRange d key = true -> rdz (key_sym_map d) key = Some m ->
  num_syms_of m < needed -> Z.of_nat (length (syms d)) + Z.max 32 needed < 65536 ->
  exists d' p, XkbResizeKeySyms true d key needed = Some (d', Some p) /\ resized d key needed m d' p.
Proof.
  intros Hd Hk Hm Hlt Hmax. pose proof (num_syms_of_nonneg d m (wf_keys d Hd key m Hk Hm)).
  destruct (Z.leb_spec needed (Z.of_nat (length (syms d)) - num_syms d)).
  - destruct (resize_append d key needed m) as (d' & ? & ?); try done; [lia|eauto].
  - by apply resize_rebuild; try lia.
Qed.

(** The cells of another key are the same before and after. *)
Lemma resized_key_syms d key needed m d' p k :
  wf_desc d -> resized d key needed m d' p -> k <> key -> XkbKeycodeInRange d k = true ->
  key_syms d' k = key_syms d k.
Proof.
  intros Hd Hr Hne Hk. destruct (wf_key d Hd k Hk) as (mk & Hmk & Hw).
  destruct (rs_other _ _ _ _ _ _ Hr k mk Hne Hk Hmk) as (o & Ho & H1 & H2 & _).
  destruct (rs_size _ _ _ _ _ _ Hr) as (S1 & S2 & S3). pose proof (wf_num_syms d Hd).
  pose proof (num_syms_of_nonneg d mk Hw). unfold key_syms. rewrite Ho, Hmk. cbn.
  change (num_syms_of (with_offset mk o)) with (num_syms_of mk).
  destruct (Z.eqb_spec (num_syms_of mk) 0) as [E|E]; [done|].
  destruct (wf_block d mk Hw E). apply slice_ext; try lia. apply H2.
Qed.

(** Giving a key a larger block of symbols never fails when memory is available, keeps
    the key's old symbols at the front of the new block with [NoSymbol] after them, and
    leaves the symbols of every other key as they were, whether the block moves to the free
    end of the array or the whole array is rebuilt. *)
Theorem XkbResizeKeySyms_preserves d key needed m :
  wf_desc d -> XkbKeycodeInRange d key = true -> rdz (key_sym_map d) key = Some m ->
  num_syms_of m < needed -> Z.of_nat (length (syms d)) + Z.max 32 needed < 65536 ->
  exists d' p old, XkbResizeKeySyms true d key needed = Some (d', Some p) /\
    key_syms d key = Some old /\
    slice (syms d') p needed = Some (old ++ zeros (needed - num_syms_of m)) /\
    forall k, k <> key -> XkbKeycodeInRange d k = true -> key_syms d' k = key_syms d k.
Proof.
  intros Hd Hk Hm Hlt Hmax.
  destruct (XkbResizeKeySyms_resized d key needed m) as (d' & p & E & Hr); try done.
  pose proof (wf_keys d Hd key m Hk Hm) as Hw. pose proof (num_syms_of_nonneg d m Hw).
  pose proof (wf_num_syms d Hd). destruct (rs_size _ _ _ _ _ _ Hr) as (S1 & S2 & S3).
  destruct (old_block_spec d Hd m Hw) as (old & Ho & Lo & Hor).
  destruct (proj2 (slice_is_Some (syms d') p needed)) as [new Hnew]; [lia|].
  exists d', p, old. split_and!; [done|unfold key_syms; by rewrite Hm| |].
  - rewrite Hnew. f_equal. apply list_eq. intros i.
    rewrite <- (rdz_nat new), (rdz_slice _ _ _ _ _ Hnew), (proj2 (Z.leb_le 0 _)) by lia. cbn.
    destruct (Z.ltb_spec (Z.of_nat i) needed).
    + rewrite (rs_block _ _ _ _ _ _ Hr) by lia. destruct (Z.ltb_spec (Z.of_nat i) (num_syms_of m)).
      * rewrite lookup_app_l by lia. by rewrite <- (rdz_nat old), Hor by lia.
      * rewrite lookup_app_r by lia. unfold zeros. by rewrite lookup_replicate_2 by lia.
    + symmetry. apply lookup_ge_None. rewrite length_app, length_zeros. lia.
  - intros k Hne Hkr. by eapply resized_key_syms.
Qed.

Lemma XkbResizeKeySyms_preserves_witness :
  exists d' p old, XkbResizeKeySyms true demo_desc 9 2 = Some (d', Some p) /\
    key_syms demo_desc 9 = Some old /\
    slice (syms d') p 2 = Some (old ++ zeros (2 - num_syms_of (demo_key 0 1 3))) /\
    forall k, k <> 9 -> XkbKeycodeInRange demo_desc k = true -> key_syms d' k = key_syms demo_desc k.
Proof.
  apply (XkbResizeKeySyms_preserves demo_desc 9 2 (demo_key 0 1 3));
    [apply demo_desc_wf|reflexivity|reflexivity|reflexivity|reflexivity].
Defined.

(** ** A fresh key *)

Lemma land_setnumgroups g : 0 <= g < 256 -> XkbNumGroups (XkbSetNumGroups g 1) = 1.
Proof.
  intros Hg. apply Z.eqb_eq.
  apply (byte_forall (fun g => XkbNumGroups (XkbSetNumGroups g 1) =? 1)); [by vm_compute|done].
Qed.

(** What a translation reads of a key. *)
Lemma XkbTranslateKeyCode_ext d d' k mk o mods :
  wf_desc d -> XkbKeycodeInRange d k = true ->
  min_key_code d' = min_key_code d -> max_key_code d' = max_key_code d -> types d' = types d ->
  rdz (key_sym_map d) k = Some mk -> rdz (key_sym_map d') k = Some (with_offset mk o) ->
  (forall c, 0 <= c < num_syms_of mk -> rdz (syms d') (o + c) = rdz (syms d) (offset mk + c)) ->
  XkbTranslateKeyCode d' k mods = XkbTranslateKeyCode d k mods.
Proof.
  intros Hd Hk H1 H2 H3 Hm Hm' Hs. pose proof (wf_keys d Hd k mk Hk Hm) as Hw.
  assert (Hk' : XkbKeycodeInRange d' k = true) by (unfold XkbKeycodeInRange; by rewrite H1, H2).
  unfold XkbTranslateKeyCode, XkbKeyNumGroups, XkbKeyGroupInfo, XkbKeyGroupsWidth, XkbKeySymsOffset.
  rewrite Hm, Hm', Hk, Hk'. cbn. destruct (Z.eqb_spec (XkbNumGroups (group_info mk)) 0) as [E|E]; [done|].
  destruct (wf_group_type d Hd k mk mods Hm Hw E) as (t & Ht & Hwt & Hl & Hg). rewrite Ht.
  assert (XkbKeyKeyType d' k (effective_group mods (XkbNumGroups (group_info mk)) (group_info mk)) = Some t) as ->.
  { revert Ht. unfold XkbKeyKeyType, XkbKeyKeyTypeIndex. by rewrite Hm, Hm', H3. }
  cbn. destruct (wf_column t mods Hwt) as (l & p & Hlp & ->). cbn.
  rewrite Hs; [done|]. eapply column_in_block; [done|lia|lia].
Qed.

(** The state of a key after it got one group of type [t]. *)
Record one_group (d : XkbDesc) (key t : Z) (ty : XkbKeyType) (m : XkbSymMap) : Prop := {
  og_map : rdz (key_sym_map d) key = Some m;
  og_groups : XkbNumGroups (group_info m) = 1;
  og_type : rdz (kt_index m) 0 = Some t /\ rdz (types d) t = Some ty;
  og_width : width m = num_levels ty;
}.

(** Nothing but the symbols and the symbol map differs. *)
Definition same_rest (d d' : XkbDesc) : Prop :=
  min_key_code d' = min_key_code d /\ max_key_code d' = max_key_code d /\ types d' = types d /\
  modmap d' = modmap d /\ acts d' = acts d /\ key_acts d' = key_acts d /\ names d' = names d.

Lemma same_rest_keycodes d d' : same_rest d d' -> keycodes d' = keycodes d.
Proof. intros (H1 & H2 & _). unfold keycodes. by rewrite H1, H2. Qed.

Lemma same_rest_range d d' k : same_rest d d' -> XkbKeycodeInRange d' k = XkbKeycodeInRange d k.
Proof. intros (H1 & H2 & _). unfold XkbKeycodeInRange. by rewrite H1, H2. Qed.

Lemma sum_of_ext f g l : (forall k, k ∈ l -> f k = g k) -> sum_of f l = sum_of g l.
Proof.
  induction l as [|k l IH]; intros H; [done|]. cbn [sum_of]. rewrite (H k) by by left.
  rewrite IH; [done|]. intros j Hj. apply H. by right.
Qed.

(** A symbol map whose key got a block and one group is well formed again. *)
Lemma resized_one_group_wf d key m d' p f2 m' ty :
  wf_desc d -> XkbKeycodeInRange d key = true -> rdz (types d) 2 = Some ty ->
  resized d key (num_levels ty) m d' p -> Z.of_nat (length (syms d')) < 65536 ->
  length f2 = length (key_sym_map d') ->
  (forall j, rdz f2 j = if key =? j then Some m' else rdz (key_sym_map d') j) ->
  one_group (set_sym_map f2 d') key 2 ty m' -> 0 <= group_info m' < 256 ->
  length (kt_index m') = 4%nat -> offset m' = p ->
  wf_desc (set_sym_map f2 d') /\ same_rest d (set_sym_map f2 d').
Proof.
  intros Hd Hk Hty Hr Hu Lf Hf [Ho1 Ho2 [Ho3 Ho4] Ho5] Hg Hl4 Hp.
  destruct (rs_size _ _ _ _ _ _ Hr) as (S1 & S2 & S3). pose proof (rs_packed _ _ _ _ _ _ Hr) as Hpk.
  pose proof (rs_frame _ _ _ _ _ _ Hr) as Efr.
  pose proof (wf_levels ty (wf_type_of d Hd 2 ty Hty)) as Hlv.
  assert (Hsame : same_rest d (set_sym_map f2 d')) by (rewrite Efr; split_and!; done).
  assert (Hn : num_syms_of m' = num_levels ty) by (unfold num_syms_of; rewrite Ho2, Ho5; lia).
  split; [|done]. pose proof Hsame as (E1 & E2 & E3 & E4 & E5 & E6 & _).
  assert (Hsz : forall k, k ∈ keycodes d -> size_of f2 k = sz d key (num_levels ty) k).
  { intros k Hkk%elem_of_keycodes. unfold size_of, sz. rewrite Hf, Z.eqb_sym.
    destruct (Z.eqb_spec k key); [done|]. unfold size_of.
    destruct (wf_key d Hd k Hkk) as (mk & Hmk & _).
    destruct (rs_other _ _ _ _ _ _ Hr k mk) as (o & -> & _); try done. by rewrite Hmk. }
  destruct Hd as [Wmin Wmax Wmap Wact Wmod Wty Wkeys Wn Wp].
  split; rewrite ?E1, ?E2, ?E3, ?E4, ?E6; try done; cbn.
  - rewrite Lf, (rs_length _ _ _ _ _ _ Hr). done.
  - intros k mk Hkr. rewrite (same_rest_range _ _ _ Hsame) in Hkr. rewrite Hf.
    destruct (Z.eqb_spec key k) as [<-|Hne].
    + intros [= <-]. split; cbn; try done; try lia.
      intros g Hg'. assert (g = 0) as -> by lia. exists 2, ty. split_and!; [done|done|lia].
    + intros Hmk'. destruct (proj2 (rdz_is_Some (key_sym_map d) k)) as [m0 Hm0].
      { apply keycode_in_range in Hkr. lia. }
      destruct (rs_other _ _ _ _ _ _ Hr k m0) as (o & Ho & Hoff & _); try done.
      rewrite Hmk' in Ho. simplify_eq. destruct (Wkeys k m0 Hkr Hm0) as [K1 K2 K3 K4 K5].
      split; try done. cbn. rewrite (E3 : types d' = types d). done.
  - split; [|done]. lia.
  - rewrite (same_rest_keycodes d), (sum_of_ext _ _ _ Hsz) by done. done.
Qed.

Lemma upd_key_Some f key m (h : XkbSymMap -> XkbSymMap) : rdz f key = Some m ->
  exists f', (m ← rdz f key; wrz f key (h m)) = Some f' /\ length f' = length f /\
    forall j, rdz f' j = if key =? j then Some (h m) else rdz f j.
Proof.
  intros Hm. rewrite Hm. cbn. pose proof (rdz_Some_range _ _ _ Hm).
  rewrite wrz_Some by done. eexists. split; [done|]. split; [apply length_insert|].
  intros j. apply rdz_wrz. by apply wrz_Some.
Qed.

(** The three updates of the symbol map after the block was found. *)
Lemma one_group_updates f key m w :
  rdz f key = Some m -> length (kt_index m) = 4%nat -> 0 <= group_info m < 256 -> 0 <= w < 256 ->
  exists f1 f2 f3 m', set_group_info f key (XkbSetNumGroups (group_info m) 1) = Some f1 /\
    set_width f1 key w = Some f2 /\ set_kt_index f2 key 0 XkbAlphabeticIndex = Some f3 /\
    length f3 = length f /\ (forall j, rdz f3 j = if key =? j then Some m' else rdz f j) /\
    XkbNumGroups (group_info m') = 1 /\ 0 <= group_info m' < 256 /\ width m' = w /\
    length (kt_index m') = 4%nat /\ rdz (kt_index m') 0 = Some XkbAlphabeticIndex /\ offset m' = offset m.
Proof.
  intros Hm Hl Hg Hw. set (g := XkbSetNumGroups (group_info m) 1).
  assert (Hg' : 0 <= g < 256 /\ XkbNumGroups g = 1).
  { split; [|by apply land_setnumgroups]. split; [apply Z.lor_nonneg; split; apply land_range; lia|].
    apply Z.ltb_lt, (byte_forall (fun x => XkbSetNumGroups x 1 <? 256)); [by vm_compute|done]. }
  destruct Hg' as [Hg1 Hg2].
  destruct (upd_key_Some f key m (fun m => {| kt_index := kt_index m; group_info := u8 g;
    width := width m; offset := offset m |}) Hm) as (f1 & E1 & L1 & H1). cbv beta in *.
  pose proof (H1 key) as K1. rewrite Z.eqb_refl in K1.
  destruct (upd_key_Some f1 key _ (fun m => {| kt_index := kt_index m; group_info := group_info m;
    width := u8 w; offset := offset m |}) K1) as (f2 & E2 & L2 & H2). cbn in *.
  pose proof (H2 key) as K2. rewrite Z.eqb_refl in K2.
  destruct (wrz (kt_index m) 0 (u8 XkbAlphabeticIndex)) as [k|] eqn:Ek; cycle 1.
  { rewrite wrz_Some in Ek by lia. done. }
  pose proof (wrz_length _ _ _ _ Ek) as Lk. pose proof (rdz_wrz _ _ _ 0 _ Ek) as Hk0. cbn in Hk0.
  destruct (upd_key_Some f2 key _ (fun m => {| kt_index := k; group_info := group_info m;
    width := width m; offset := offset m |}) K2) as (f3 & E3 & L3 & H3). cbn in *.
  rewrite K2 in E3. cbn in E3.
  eexists f1, f2, f3, _. split; [exact E1|]. split; [exact E2|]. split.
  { unfold set_kt_index. rewrite K2. cbn. rewrite Ek. cbn. exact E3. }
  split; [congruence|]. split.
  { intros j. rewrite H3, H2, H1. by destruct (key =? j). }
  cbn. rewrite !uwrap_small by lia. split_and!; try done; try lia.
Qed.

Lemma wf_set_names d n : wf_desc d -> wf_desc (set_names n d).
Proof.
  intros []. split; try done. intros k m Hk Hm. destruct (wf_keys0 k m Hk Hm). by split.
Qed.

(** Writing symbols in place keeps the description well formed. *)
Lemma wf_set_syms d s : wf_desc d -> length s = length (syms d) -> wf_desc (set_syms s (num_syms d) d).
Proof.
  intros [] L. split; try done; cbn; rewrite ?L; try done.
  intros k m Hk Hm. destruct (wf_keys0 k m Hk Hm). by split.
Qed.

Lemma new_types_fresh d key ty nOld : rdz (types d) XkbAlphabeticIndex = Some ty -> 0 <= num_levels ty ->
  foldM (new_types_step d key 1 nOld [XkbAlphabeticIndex]) (inl ([], 0)) (seqZ 0 1)
  = Some (inl ([XkbAlphabeticIndex], num_levels ty)).
Proof.
  intros Hty Hl. pose proof (rdz_Some_range _ _ _ Hty). unfold XkbAlphabeticIndex in *.
  change (seqZ 0 1) with [0]. cbn [foldM new_types_step]. unfold new_type_of. simpl Z.testbit. cbv iota.
  change (rdz [2] 0) with (Some 2). cbn [mbind option_bind].
  rewrite (proj2 (Z.ltb_ge (Z.of_nat (length (types d))) 2)) by lia. rewrite Hty. cbn [mbind option_bind].
  by rewrite Z.max_r by lia.
Qed.

Lemma set_types_one key t f f' : set_kt_index f key 0 t = Some f' ->
  foldM (set_types_step key [t]) f (seqZ 0 1) = Some f'.
Proof.
  intros H. change (seqZ 0 1) with [0]. cbn [foldM]. unfold set_types_step.
  change (rdz [t] 0) with (Some t). cbn [mbind option_bind]. by rewrite H.
Qed.

Lemma wf_set_ctrls d g : wf_desc d -> wf_desc (set_ctrls g d).
Proof.
  intros []. split; try done. intros k m Hk Hm. destruct (wf_keys0 k m Hk Hm). by split.
Qed.

(** Giving a key without symbols one alphabetic group, as is done for an unknown keysym,
    succeeds when memory is available; the description stays well formed, the key gets one
    group of that type with a block of its width, and every other key of the keyboard still
    translates to the same keysym with the same modifiers in every state, also after the
    cells of the new block were written. *)
Lemma XkbChangeTypesOfKey_fresh d key m ty ch :
  wf_desc d -> XkbKeycodeInRange d key = true -> rdz (key_sym_map d) key = Some m ->
  XkbNumGroups (group_info m) = 0 -> rdz (types d) XkbAlphabeticIndex = Some ty ->
  Z.of_nat (length (syms d)) + 256 < 65536 ->
  exists d' m', XkbChangeTypesOfKey true d key 1 1 [XkbAlphabeticIndex] ch = Some (Success, d', ch) /\
    wf_desc d' /\ same_rest d d' /\ one_group d' key XkbAlphabeticIndex ty m' /\
    forall k mods s, k <> key -> XkbKeycodeInRange d k = true ->
      length s = length (syms d') ->
      (forall i, i < offset m' \/ offset m' + num_levels ty <= i -> rdz s i = rdz (syms d') i) ->
      XkbTranslateKeyCode (set_syms s (num_syms d') d') k mods = XkbTranslateKeyCode d k mods.
Proof.
  intros Hd Hk Hm Hng Hty Hu.
  pose proof (wf_levels ty (wf_type_of d Hd _ ty Hty)) as Hlv.
  assert (Hn0 : num_syms_of m = 0) by (unfold num_syms_of; rewrite Hng; lia).
  set (d1 := match ctrls_num_groups d with
             | Some c => if c <? 1 then set_ctrls (Some 1) d else d
             | None => d end).
  assert (H1 : wf_desc d1 /\ same_rest d d1 /\ key_sym_map d1 = key_sym_map d /\ syms d1 = syms d).
  { subst d1. repeat case_match; split_and!; try done. by apply wf_set_ctrls. }
  destruct H1 as (Hd1 & Hs1 & Em & Es).
  assert (Hk1 : XkbKeycodeInRange d1 key = true) by by rewrite (same_rest_range d).
  pose proof (proj1 (proj2 (proj2 Hs1))) as Et.
  destruct (XkbResizeKeySyms_resized d1 key (num_levels ty) m) as (d2 & p & Hres & Hr);
    rewrite ?Em, ?Es; try done; try lia.
  pose proof (wf_keys d1 Hd1 key m Hk1 (eq_trans (f_equal (fun f => rdz f key) Em) Hm)) as Hw.
  pose proof (rs_key _ _ _ _ _ _ Hr) as Hkey.
  destruct (one_group_updates (key_sym_map d2) key (with_offset m p) (num_levels ty) Hkey)
    as (f1 & f2 & f3 & m' & E1 & E2 & E3 & L3 & H3 & G1 & G2 & G3 & G4 & G5 & G6).
  { apply Hw. } { apply Hw. } { lia. }
  destruct (resized_one_group_wf d1 key m d2 p f3 m' ty) as [Hwf Hrest]; try done.
  { by rewrite Et. }
  { pose proof (rs_bound _ _ _ _ _ _ Hr). rewrite Es in *. lia. }
  { split; try done; cbn. - by rewrite H3, Z.eqb_refl.
    - rewrite (rs_frame _ _ _ _ _ _ Hr). cbn. by rewrite Et. }
  exists (set_sym_map f3 d2), m'. split_and!; [|done| | |].
  - unfold XkbChangeTypesOfKey, XkbKeyNumGroups, XkbKeyGroupInfo, XkbKeyGroupsWidth. rewrite Hk, Hm. cbn.
    rewrite Hng, (new_types_fresh d key ty 0 Hty) by lia.
    cbn. rewrite orb_true_r, Z.mul_1_r. cbn. fold d1. rewrite Hres. cbn.
    rewrite Hkey. cbn in E1 |- *. rewrite E1. cbn. rewrite E2. cbn.
    by rewrite (set_types_one _ _ _ _ E3).
  - destruct Hs1 as (?&?&?&?&?&?&?), Hrest as (?&?&?&?&?&?&?). split_and!; congruence.
  - split; try done; cbn. + by rewrite H3, Z.eqb_refl.
    + rewrite (rs_frame _ _ _ _ _ _ Hr). cbn. by rewrite Et.
  - intros k mods s Hne Hkr Ls Hsame. destruct (wf_key d Hd k Hkr) as (mk & Hmk & _).
    destruct (rs_other _ _ _ _ _ _ Hr k mk Hne) as (o & Ho & _ & Hc & Hdj).
    { by rewrite (same_rest_range d). } { by rewrite Em. }
    destruct Hs1 as (?&?&?&?&?&?&?), Hrest as (?&?&?&?&?&?&?).
    apply (XkbTranslateKeyCode_ext d _ k mk o mods); cbn in *; try done; try congruence.
    + by rewrite H3, (proj2 (Z.eqb_neq key k)), Ho by done.
    + intros c Hcr. rewrite Hsame; [by rewrite <- Es; apply Hc|]. cbn in G6. rewrite G6. lia.
Qed.

(** The case pair of a keysym is stable: lower and upper have the same pair, so that
    converting twice is converting once and the two keysyms differ only in case; the keysyms
    of three unassigned codes in the Greek block are the only exception. *)
Theorem XkbConvertCase_stable sym l u :
  0 <= sym < 2 ^ 32 -> sym ∉ [0x7a6; 0x7aa; 0x7d3] -> XkbConvertCase sym = (l, u) ->
  XkbConvertCase l = (l, u) /\ XkbConvertCase u = (l, u).
Proof.
  intros Hs Hex E.
  assert (H8 : sym < 0x800 \/ (l = sym /\ u = sym)).
  { destruct (decide (sym < 0x800)) as [|Hge]; [by left|right].
    assert (Hq : 8 <= Z.shiftr sym 8).
    { rewrite Z.shiftr_div_pow2 by lia. apply Z.div_le_lower_bound; lia. }
    revert E. unfold XkbConvertCase. destruct (Z.shiftr sym 8) as [|p|p]; try lia.
    do 3 (destruct p as [p|p|]; try lia; try (by intros [= <- <-])). }
  destruct H8 as [H8|[-> ->]]; [|done].
  set (P := fun s => let '(l, u) := XkbConvertCase s in
    bool_decide (s ∈ [0x7a6; 0x7aa; 0x7d3]) || bool_decide (XkbConvertCase l = (l, u) /\ XkbConvertCase u = (l, u))).
  assert (HP : forallb P (seqZ 0 0x800) = true) by by vm_compute.
  rewrite forallb_forall in HP. specialize (HP sym). unfold P in HP. rewrite E in HP.
  assert (Hor : bool_decide (sym ∈ [0x7a6; 0x7aa; 0x7d3])
    || bool_decide (XkbConvertCase l = (l, u) /\ XkbConvertCase u = (l, u)) = true).
  { apply HP. apply list_elem_of_In, elem_of_seqZ. lia. }
  rewrite bool_decide_eq_false_2 in Hor by done. by apply bool_decide_eq_true in Hor.
Qed.

Lemma XkbConvertCase_stable_witness :
  XkbConvertCase 0xc9 = (0xe9, 0xc9) /\ XkbConvertCase 0xe9 = (0xe9, 0xc9).
Proof.
  destruct (XkbConvertCase_stable 0xc9 0xe9 0xc9) as [H1 H2];
    [split; [discriminate|reflexivity]|by apply (proj1 (bool_decide_eq_false _))|reflexivity|by split].
Defined.
