(* ===== verification/Keyboard.v ===== *)
(** * Keysyms to key events ([lorie/InputXKB.c])

    A client sends keysyms; the server turns each into presses and releases of
    keycodes of its keyboard, faking Shift and the level three shift when the
    keysym needs them, and binding unknown keysyms to unused keycodes. The model
    keeps the keyboard description, the queue of key events, the list of bound
    keysyms in the order of their use and the table of pressed keysyms. *)

From S2P Require Import Prelude XkbMap.

(** ** Data *)

Definition fakeKeys : list Z := [92; 203; 204; 205; 206; 207].

(** [struct altKeysym_t]. *)
Definition altKeysym : list (Z * Z) :=
  [ (0xffe1, 0xffe2); (0xffe3, 0xffe4); (0xffe7, 0xffe8); (0xffe9, 0xffea); (0xffeb, 0xffec);
    (0xffed, 0xffee); (0xff80, 0x20); (0xff89, 0xff09); (0xff8d, 0xff0d); (0xff91, 0xffbe);
    (0xff92, 0xffbf); (0xff93, 0xffc0); (0xff94, 0xffc1); (0xff95, 0xff50); (0xff96, 0xff51);
    (0xff97, 0xff52); (0xff98, 0xff53); (0xff99, 0xff54); (0xff9a, 0xff55); (0xff9b, 0xff56);
    (0xff9c, 0xff57); (0xff9d, 0xff58); (0xff9e, 0xff63); (0xff9f, 0xffff); (0xffbd, 0x3d);
    (0xffaa, 0x2a); (0xffab, 0x2b); (0xffac, 0x2c); (0xffad, 0x2d); (0xffae, 0x2e); (0xffaf, 0x2f);
    (0xffb0, 0x30); (0xffb1, 0x31); (0xffb2, 0x32); (0xffb3, 0x33); (0xffb4, 0x34); (0xffb5, 0x35);
    (0xffb6, 0x36); (0xffb7, 0x37); (0xffb8, 0x38); (0xffb9, 0x39); (0xfe03, 0xff7e) ].

Definition XK_ISO_Level3_Shift : Z := 0xfe03.
Definition XK_Mode_switch : Z := 0xff7e.
Definition XK_Num_Lock : Z := 0xff7f.
Definition XK_Tab : Z := 0xff09.

Inductive kev := KeyPress (k : Z) | KeyRelease (k : Z).

#[export] Instance kev_eq_dec : EqDecision kev.
Proof. solve_decision. Defined.

Record AddedKeySym := { ak_keysym : Z; ak_keycode : Z }.

(** [queued] is the event queue of [QueueKeyboardEvents], [processed] what
    [mieqProcessInputEvents] has delivered to the device, oldest first. *)
Record Keyboard := {
  kbd_desc : XkbDesc;
  queued : list kev;
  processed : list kev;
  addedKeysyms : list AddedKeySym;
  pressedKeys : list Z;
}.

Definition QueueKeyboardEvents (es : list kev) (w : Keyboard) : Keyboard :=
  {| kbd_desc := kbd_desc w; queued := queued w ++ es; processed := processed w;
     addedKeysyms := addedKeysyms w; pressedKeys := pressedKeys w |}.

Definition mieqProcessInputEvents (w : Keyboard) : Keyboard :=
  {| kbd_desc := kbd_desc w; queued := []; processed := processed w ++ queued w;
     addedKeysyms := addedKeysyms w; pressedKeys := pressedKeys w |}.

Definition set_added d a w : Keyboard :=
  {| kbd_desc := d; queued := queued w; processed := processed w;
     addedKeysyms := a; pressedKeys := pressedKeys w |}.

Definition set_pressed p w : Keyboard :=
  {| kbd_desc := kbd_desc w; queued := queued w; processed := processed w;
     addedKeysyms := addedKeysyms w; pressedKeys := p |}.

(** ** Finding a keycode *)

(** The keysym [key] generates in [state], [NoSymbol] when it generates none. *)
Definition generated (d : XkbDesc) (state key : Z) : option Z :=
  r ← XkbTranslateKeyCode d key state;
  let '(_, state_out, ks) := r in
  if ks =? NoSymbol then Some NoSymbol
  else if Z.land (Z.ldiff state state_out) LockMask =? 0 then Some ks
  else Some (XkbConvertCase ks).2.

(** The loop over the keycodes; [fallback] is the first fake key found so far. *)
Fixpoint scan (d : XkbDesc) (keysym state : Z) (keys : list Z) (fallback : Z) : option Z :=
  match keys with
  | [] => Some fallback
  | key :: keys' =>
      ks ← generated d state key;
      if (ks =? NoSymbol) || negb (ks =? keysym) then scan d keysym state keys' fallback
      else if bool_decide (key ∈ fakeKeys)
      then scan d keysym state keys' (if fallback =? 0 then key else fallback)
      else Some key
  end.

(** [lorieKeysymToKeycode] with a NULL [new_state]. *)
Definition keysym_to_keycode (d : XkbDesc) (keysym state : Z) : option Z :=
  scan d keysym state (keycodes d) 0.

Definition action_mask (d : XkbDesc) (key : Z) (act : XkbAction) : option Z :=
  if negb (Z.land (act_flags act) XkbSA_UseModMapMods =? 0) then rdz (modmap d) key
  else Some (act_mask act).

(** The action of a key, [None] inside when the key has none. *)
Definition key_action (d : XkbDesc) (key state : Z) : option (option XkbAction) :=
  p ← XkbKeyActionPtr d key state;
  match p with
  | None => Some None
  | Some i => a ← rdz (acts d) i; Some (Some a)
  end.

(** The key that types the level three shift, or the mode switch, in [state]. *)
Definition level_three_key (d : XkbDesc) (state : Z) : option Z :=
  keycode ← keysym_to_keycode d XK_ISO_Level3_Shift state;
  if keycode =? 0 then keysym_to_keycode d XK_Mode_switch state else Some keycode.

(** [kbd_state] is the core state of the keyboard, [lorieGetKeyboardState ()]. *)
Definition lorieGetLevelThreeMask (d : XkbDesc) (kbd_state : Z) : option Z :=
  let state := Z.ldiff kbd_state 0xff in
  keycode ← level_three_key d state;
  if keycode =? 0 then Some 0
  else
    act ← key_action d keycode state;
    match act with
    | None => Some 0
    | Some act => if negb (act_type act =? XkbSA_SetMods) then Some 0 else action_mask d keycode act
    end.

(** Flip the modifiers [m] of [s]: clear them if any is set, set them otherwise. *)
Definition toggle (s m : Z) : Z := Z.lor (Z.ldiff s m) (if Z.land s m =? 0 then m else 0).

(** [(keycode, new_state)]. *)
Definition lorieKeysymToKeycode (d : XkbDesc) (kbd_state keysym state : Z) : option (Z * Z) :=
  key ← keysym_to_keycode d keysym state;
  if negb (key =? 0) then Some (key, state)
  else
    let s1 := toggle state ShiftMask in
    key ← keysym_to_keycode d keysym s1;
    if negb (key =? 0) then Some (key, s1)
    else
      mask ← lorieGetLevelThreeMask d kbd_state;
      if mask =? 0 then Some (0, s1)
      else
        let s2 := toggle state mask in
        key ← keysym_to_keycode d keysym s2;
        if negb (key =? 0) then Some (key, s2)
        else
          let s3 := Z.lor (Z.lor (Z.ldiff state (Z.lor ShiftMask mask))
                             (if Z.land state ShiftMask =? 0 then ShiftMask else 0))
                          (if Z.land state mask =? 0 then mask else 0) in
          key ← keysym_to_keycode d keysym s3;
          Some (key, s3).

(** ** Faking modifiers *)

(** The modifiers set by the action of a key, 0 when it sets none. *)
Definition set_mods_mask (d : XkbDesc) (key state : Z) : option Z :=
  act ← key_action d key state;
  match act with
  | None => Some 0
  | Some act => if negb (act_type act =? XkbSA_SetMods) then Some 0
                else m ← action_mask d key act; Some (u8 m)
  end.

Fixpoint press_shift_loop (d : XkbDesc) (state : Z) (keys : list Z) : option Z :=
  match keys with
  | [] => Some 0
  | key :: keys' =>
      mask ← set_mods_mask d key state;
      if Z.land mask ShiftMask =? ShiftMask then Some key else press_shift_loop d state keys'
  end.

Definition loriePressShift (d : XkbDesc) (state : Z) : option Z :=
  if negb (Z.land state ShiftMask =? 0) then Some 0 else press_shift_loop d state (keycodes d).

(** The keys held down whose action sets one of the modifiers [mods], at most
    [maxKeys] of them: [None] inside is the overflow return. *)
Fixpoint release_loop (d : XkbDesc) (down : Z -> bool) (state mods : Z) (maxKeys : nat)
    (keys : list Z) (acc : list Z) : option (list Z) :=
  match keys with
  | [] => Some acc
  | key :: keys' =>
      if negb (down key) then release_loop d down state mods maxKeys keys' acc
      else
        mask ← set_mods_mask d key state;
        if Z.land mask mods =? 0 then release_loop d down state mods maxKeys keys' acc
        else if (maxKeys <=? length acc)%nat then Some []
        else release_loop d down state mods maxKeys keys' (acc ++ [key])
  end.

Definition lorieReleaseShift (d : XkbDesc) (down : Z -> bool) (state : Z) (maxKeys : nat) : option (list Z) :=
  if Z.land state ShiftMask =? 0 then Some []
  else release_loop d down state ShiftMask maxKeys (keycodes d) [].

Definition loriePressLevelThree (d : XkbDesc) (state : Z) : option Z :=
  mask ← lorieGetLevelThreeMask d state;
  if (mask =? 0) || negb (Z.land state mask =? 0) then Some 0
  else
    keycode ← level_three_key d state;
    if keycode =? 0 then Some 0
    else
      act ← key_action d keycode state;
      match act with
      | None => Some 0
      | Some act => if negb (act_type act =? XkbSA_SetMods) then Some 0 else Some keycode
      end.

Definition lorieReleaseLevelThree (d : XkbDesc) (down : Z -> bool) (state : Z) (maxKeys : nat)
  : option (list Z) :=
  mask ← lorieGetLevelThreeMask d state;
  if (mask =? 0) || (Z.land state mask =? 0) then Some []
  else release_loop d down state mask maxKeys (keycodes d) [].

Definition lorieIsAffectedByNumLock (d : XkbDesc) (kbd_state keycode : Z) : option bool :=
  let state := Z.ldiff kbd_state 0xff in
  numlock_keycode ← keysym_to_keycode d XK_Num_Lock state;
  if numlock_keycode =? 0 then Some false
  else
    act ← key_action d numlock_keycode state;
    match act with
    | None => Some false
    | Some act =>
        if negb (act_type act =? XkbSA_LockMods) then Some false
        else
          numlock_mask ← action_mask d keycode act;
          g ← XkbKeyEffectiveGroup d keycode state;
          type ← XkbKeyKeyType d keycode g;
          Some (negb (Z.land (mods_mask type) numlock_mask =? 0))
    end.

(** ** Binding unknown keysyms *)

Definition saveAddedKeysym (malloc_ok : bool) (code sym : Z) (l : list AddedKeySym) : list AddedKeySym :=
  if malloc_ok then {| ak_keysym := sym; ak_keycode := code |} :: l else l.

(** Move the first item of the keycode to the front. *)
Fixpoint take_out (code : Z) (l : list AddedKeySym) : option (AddedKeySym * list AddedKeySym) :=
  match l with
  | [] => None
  | it :: l' =>
      if ak_keycode it =? code then Some (it, l')
      else r ← take_out code l'; Some (r.1, it :: r.2)
  end.

Definition vncOnKeyUsed (code : Z) (l : list AddedKeySym) : list AddedKeySym :=
  match l with
  | [] => []
  | it :: _ =>
      if ak_keycode it =? code then l
      else match take_out code l with Some (it, l') => it :: l' | None => l end
  end.

(** Is the key of the item still bound the way the server bound it? *)
Definition still_ours (d : XkbDesc) (it : AddedKeySym) : option bool :=
  ng ← XkbKeyNumGroups d (ak_keycode it);
  if negb (0 <? ng) then Some false
  else
    off ← XkbKeySymsOffset d (ak_keycode it);
    s ← rdz (syms d) off;
    if negb (s =? ak_keysym it) then Some false
    else match names d with
         | None => Some true
         | Some n => nm ← rdz n (ak_keycode it); c ← rdz nm 0; Some (c =? 84)
         end.

(** The loop of [getReusableKeycode] from the end of the list ([r] is the list
    reversed): the keycode found and the items that remain, reversed. *)
Fixpoint reuse_loop (d : XkbDesc) (r : list AddedKeySym) : option (Z * list AddedKeySym) :=
  match r with
  | [] => Some (0, [])
  | last :: r' =>
      ours ← still_ours d last;
      let result := if (ours : bool) then ak_keycode last else 0 in
      if result =? 0 then reuse_loop d r' else Some (result, r')
  end.

Definition getReusableKeycode (d : XkbDesc) (l : list AddedKeySym) : option (Z * list AddedKeySym) :=
  r ← reuse_loop d (rev l); Some (r.1, rev r.2).

(** The highest keycode without groups, [min_key_code - 1] when there is none. *)
Fixpoint unused_key (d : XkbDesc) (keys : list Z) : option Z :=
  match keys with
  | [] => Some (min_key_code d - 1)
  | key :: keys' => ng ← XkbKeyNumGroups d key; if ng =? 0 then Some key else unused_key d keys'
  end.

(** ['T'] and the three last decimal digits of the keycode. *)
Definition key_name (key : Z) : list Z :=
  [84; 48 + (key / 100) mod 10; 48 + (key / 10) mod 10; 48 + key mod 10].

Definition name_key (d : XkbDesc) (key : Z) : option XkbDesc :=
  match names d with
  | None => Some d
  | Some n => n' ← wrz n key (key_name key); Some (set_names (Some n') d)
  end.

(** [lorieAddKeysym]: the keycode, the description and the list; [syms_ok] and
    [item_ok] say whether the two allocations succeed. *)
Definition lorieAddKeysym (syms_ok item_ok : bool) (d : XkbDesc) (l : list AddedKeySym) (keysym : Z)
  : option (Z * XkbDesc * list AddedKeySym) :=
  k0 ← unused_key d (rev (keycodes d));
  r ← (if k0 <? min_key_code d then getReusableKeycode d l else Some (k0, l));
  let '(key, l1) := r in
  if key =? 0 then Some (0, d, l1)
  else
    d1 ← name_key d key;
    let '(lower, upper) := XkbConvertCase keysym in
    c ← XkbChangeTypesOfKey syms_ok d1 key 1 1 [XkbAlphabeticIndex]
          {| syms_changed := false; first_key_sym := 0; num_key_syms := 0 |};
    let d2 := c.1.2 in
    off ← XkbKeySymsOffset d2 key;
    s1 ← wrz (syms d2) off lower;
    s2 ← wrz s1 (off + 1) upper;
    let d3 := set_syms s2 (num_syms d2) d2 in
    Some (key, d3, saveAddedKeysym item_ok key lower l1).

(** ** Key events *)

(** The other keysym of an entry of [altKeysym] that holds [keysym]. *)
Definition alt_of (keysym : Z) (p : Z * Z) : option Z :=
  if p.1 =? keysym then Some p.2 else if p.2 =? keysym then Some p.1 else None.

(** The first alternative keysym that [f] accepts; [new_state] is what the
    variable holds after the attempts that failed. *)
Fixpoint first_alt {A} (f : Z -> option (option A)) (keysym : Z) (tbl : list (Z * Z))
  : option (option A) :=
  match tbl with
  | [] => Some None
  | p :: tbl' =>
      match alt_of keysym p with
      | None => first_alt f keysym tbl'
      | Some altsym =>
          r ← f altsym;
          match r with Some a => Some (Some a) | None => first_alt f keysym tbl' end
      end
  end.

Section keyboard.
(** The device is not code of this directory: its core modifier and group state,
    and which keys are down, after it was fed a sequence of events. *)
Context (core_state : XkbDesc -> list kev -> Z) (key_is_down : list kev -> Z -> bool).

Definition lorieGetKeyboardState (w : Keyboard) : Z := core_state (kbd_desc w) (processed w).

Definition lookup_in (w : Keyboard) (state keysym : Z) : option (Z * Z) :=
  lorieKeysymToKeycode (kbd_desc w) (lorieGetKeyboardState w) keysym state.

Definition nonzero (r : Z * Z) : option (Z * Z) := if r.1 =? 0 then None else Some r.

(** The keycode for a keysym: itself, an equivalent one, or a new binding. The
    result is [None] inside for the early return. *)
Definition find_or_add (syms_ok item_ok : bool) (w : Keyboard) (state keysym : Z)
  : option (Keyboard * option (Z * Z)) :=
  r ← lookup_in w state keysym;
  alt ← (if r.1 =? 0
         then first_alt (fun s => r ← lookup_in w state s; Some (nonzero r)) keysym altKeysym
         else Some (Some r));
  match alt with
  | Some r => Some (w, Some r)
  | None =>
      a ← lorieAddKeysym syms_ok item_ok (kbd_desc w) (addedKeysyms w) keysym;
      let '(key, d, l) := a in
      let w1 := set_added d l w in
      if key =? 0 then Some (w1, None)
      else r ← lookup_in w1 state keysym; Some (w1, nonzero r)
  end.

Definition shift_differs (s s' : Z) : bool := negb (Z.land s ShiftMask =? Z.land s' ShiftMask).

(** Avoid a fake shift on the numeric pad by an equivalent keysym. *)
Definition avoid_fake_shift (w : Keyboard) (state keysym : Z) (r : Z * Z) : option (Z * Z) :=
  let numlock := lorieIsAffectedByNumLock (kbd_desc w) (lorieGetKeyboardState w) in
  aff ← (if shift_differs state r.2 then numlock r.1 else Some false);
  if negb aff then Some r
  else
    alt ← first_alt (fun s =>
            r2 ← lookup_in w state s;
            if r2.1 =? 0 then Some None
            else
              aff2 ← (if shift_differs state r2.2 then numlock r2.1 else Some false);
              Some (if (aff2 : bool) then None else Some r2)) keysym altKeysym;
    Some (default r alt).

(** The events that fake Shift: [None] inside is the error return. *)
Definition fake_shift (w : Keyboard) (state new_state : Z) : option (option (list kev)) :=
  let d := kbd_desc w in
  let kbd := lorieGetKeyboardState w in
  if (Z.land state ShiftMask =? 0) && negb (Z.land new_state ShiftMask =? 0) then
    k ← loriePressShift d kbd; Some (if k =? 0 then None else Some [KeyPress k])
  else if negb (Z.land state ShiftMask =? 0) && (Z.land new_state ShiftMask =? 0) then
    ks ← lorieReleaseShift d (key_is_down (processed w)) kbd 8;
    Some (if bool_decide (ks = []) then None else Some (map KeyRelease ks))
  else Some (Some []).

Definition fake_level_three (w : Keyboard) (state new_state mask : Z) : option (option (list kev)) :=
  let d := kbd_desc w in
  let kbd := lorieGetKeyboardState w in
  if (Z.land state mask =? 0) && negb (Z.land new_state mask =? 0) then
    k ← loriePressLevelThree d kbd; Some (if k =? 0 then None else Some [KeyPress k])
  else if negb (Z.land state mask =? 0) && (Z.land new_state mask =? 0) then
    ks ← lorieReleaseLevelThree d (key_is_down (processed w)) kbd 8;
    Some (if bool_decide (ks = []) then None else Some (map KeyRelease ks))
  else Some (Some []).

(** The opposite event, used to undo a fake one. *)
Definition undo (e : kev) : kev :=
  match e with KeyPress k => KeyRelease k | KeyRelease k => KeyPress k end.

(** The table after a press: the keysym is held by [keycode] only. *)
Definition store_pressed (p : list Z) (keysym keycode : Z) : option (list Z) :=
  wrz (map (fun s => if s =? keysym then NoSymbol else s) p) keycode keysym.

(** Press of a keysym whose keycode and state are known; the new state is
    adjusted for the Tab key. *)
Definition press_key (w : Keyboard) (keysym state keycode new_state : Z) : option Keyboard :=
  let new_state := if (keysym =? XK_Tab) && negb (Z.land state ShiftMask =? 0)
                   then Z.lor new_state ShiftMask else new_state in
  mask ← (if Z.ldiff new_state ShiftMask =? Z.ldiff state ShiftMask then Some 0
          else lorieGetLevelThreeMask (kbd_desc w) (lorieGetKeyboardState w));
  sh ← fake_shift w state new_state;
  match sh with
  | None => Some w
  | Some sh =>
      let w1 := QueueKeyboardEvents sh w in
      l3 ← fake_level_three w1 state new_state mask;
      match l3 with
      | None => Some w1
      | Some l3 =>
          let w2 := QueueKeyboardEvents (l3 ++ [KeyPress keycode]) w1 in
          let w3 := set_added (kbd_desc w2) (vncOnKeyUsed keycode (addedKeysyms w2)) w2 in
          p ← store_pressed (pressedKeys w3) keysym keycode;
          let w4 := set_pressed p w3 in
          Some (mieqProcessInputEvents (QueueKeyboardEvents (map undo l3 ++ map undo sh) w4))
      end
  end.

(** Release: the key whose press was recorded for the keysym. *)
Definition release_key (w : Keyboard) (keysym : Z) : Keyboard :=
  match list_find (fun s => s = keysym) (pressedKeys w) with
  | None => w
  | Some (i, _) =>
      mieqProcessInputEvents (QueueKeyboardEvents [KeyRelease (Z.of_nat i)]
        (set_pressed (<[i:=NoSymbol]> (pressedKeys w)) w))
  end.

Definition lorieKeysymKeyboardEvent (syms_ok item_ok : bool) (w : Keyboard) (keysym : Z) (down : bool)
  : option Keyboard :=
  if negb down then Some (release_key w keysym)
  else
    let w0 := mieqProcessInputEvents w in
    let state := lorieGetKeyboardState w0 in
    r ← find_or_add syms_ok item_ok w0 state keysym;
    match r with
    | (w1, None) => Some w1
    | (w1, Some r) => r' ← avoid_fake_shift w1 state keysym r; press_key w1 keysym state r'.1 r'.2
    end.

End keyboard.

(** ** Specifications *)

(** [key] types [keysym] in [state]. *)
Definition types_keysym (d : XkbDesc) (state keysym key : Z) : bool :=
  match generated d state key with
  | Some ks => negb (ks =? NoSymbol) && (ks =? keysym)
  | None => false
  end.

(** The keycodes that type [keysym] in [state], the ones no real keyboard has last. *)
Definition candidates (d : XkbDesc) (keysym state : Z) : list Z :=
  let m := filter (fun k => types_keysym d state keysym k = true) (keycodes d) in
  filter (fun k => k ∉ fakeKeys) m ++ filter (fun k => k ∈ fakeKeys) m.

(** The action of a key with actions is inside the action array. *)
Definition wf_actions (d : XkbDesc) : Prop :=
  forall k m a, XkbKeycodeInRange d k = true -> rdz (key_sym_map d) k = Some m ->
    rdz (key_acts d) k = Some a -> a <> 0 -> 0 <= a /\ a + num_syms_of m <= Z.of_nat (length (acts d)).

(** The states tried for a keysym, in order, when [mask] is the level three shift. *)
Definition tried (state mask : Z) : list Z :=
  [state; toggle state ShiftMask] ++
  (if mask =? 0 then [] else
   [toggle state mask;
    Z.lor (Z.lor (Z.ldiff state (Z.lor ShiftMask mask))
             (if Z.land state ShiftMask =? 0 then ShiftMask else 0))
          (if Z.land state mask =? 0 then mask else 0)]).

(** The table of pressed keysyms holds a keysym at most once. *)
Record pressed_ok (p : list Z) : Prop := {
  pr_length : length p = 256%nat;
  pr_unique : forall i j s, s <> NoSymbol -> rdz p i = Some s -> rdz p j = Some s -> i = j;
}.

(** What an event does to the state of key [j], and what a sequence does. *)
Definition key_after (j : Z) (b : bool) (e : kev) : bool :=
  match e with
  | KeyPress k => (j =? k) || b
  | KeyRelease k => negb (j =? k) && b
  end.

(** Fake events: one press, or releases of keys that are down. *)
Definition fakes (down : Z -> bool) (es : list kev) : Prop :=
  (exists k, es = [KeyPress k]) \/ (forall e, e ∈ es -> exists k, e = KeyRelease k /\ down k = true).

(** The level of an alphabetic key: Shift and Lock cancel each other. *)
Definition alpha_level (state : Z) : Z :=
  if (Z.land state 3 =? 1) || (Z.land state 3 =? 2) then 1 else 0.

(** A device for the witnesses: a key is down after its press until its release, keycode 9
    sets Shift and keycode 10 the fifth modifier; and the keyboard of [demo_desc]. *)
Definition demo_down (h : list kev) (j : Z) : bool := fold_left (key_after j) h false.

Definition demo_state (d : XkbDesc) (h : list kev) : Z :=
  Z.lor (if demo_down h 9 then 1 else 0) (if demo_down h 10 then 0x80 else 0).

Definition demo_keyboard : Keyboard :=
  {| kbd_desc := demo_desc; queued := []; processed := []; addedKeysyms := [];
     pressedKeys := replicate 256 NoSymbol |}.

(** A keyboard whose level three key types something else under Lock, with Lock on. *)
Definition lock_desc : XkbDesc :=
  {| min_key_code := 8; max_key_code := 11;
     types := demo_types ++ [{| mods_mask := 2; num_levels := 2;
       kt_map := [{| active := true; level := 1; entry_mask := 2 |}]; preserve := None |}];
     key_sym_map := replicate 8 demo_empty ++
       [demo_key 2 2 1; demo_key 0 1 3; demo_key 4 2 4; demo_key 3 4 6];
     syms := [0; 0x61; 0x41; 0xffe1; 0xfe03; 0xff67; 0x65; 0x45; 0x20ac; 0x1002122]; num_syms := 10;
     modmap := replicate 9 0 ++ [1; 0x80; 0];
     acts := [no_action; {| act_type := 1; act_flags := 0; act_mask := 1 |};
              {| act_type := 1; act_flags := 0; act_mask := 0x80 |}; no_action];
     num_acts := 4;
     key_acts := replicate 9 0 ++ [1; 2; 0];
     ctrls_num_groups := Some 1; names := None |}.

Definition lock_keyboard : Keyboard :=
  {| kbd_desc := lock_desc; queued := []; processed := []; addedKeysyms := [];
     pressedKeys := replicate 256 NoSymbol |}.

(** ** Looking a keysym up *)

Section lookup.
Context (d : XkbDesc) (Hd : wf_desc d).

Lemma generated_Some key state : XkbKeycodeInRange d key = true -> is_Some (generated d state key).
Proof.
  intros Hk. destruct (XkbTranslateKeyCode_total d key state Hd Hk) as [[[r m] s] E].
  unfold generated. rewrite E. cbn. repeat case_match; eauto.
Qed.

Lemma keycode_nonzero key : XkbKeycodeInRange d key = true -> key <> 0.
Proof. rewrite keycode_in_range. pose proof (wf_min d Hd). lia. Qed.

Lemma scan_spec keysym state keys fb :
  (forall k, k ∈ keys -> XkbKeycodeInRange d k = true) ->
  let m := filter (fun k => types_keysym d state keysym k = true) keys in
  scan d keysym state keys fb =
    Some (hd (if fb =? 0 then hd 0 (filter (fun k => k ∈ fakeKeys) m) else fb)
             (filter (fun k => k ∉ fakeKeys) m)).
Proof.
  revert fb. induction keys as [|k keys IH]; intros fb Hk; simpl.
  { by destruct (Z.eqb_spec fb 0) as [->|]. }
  assert (Hk' : forall k, k ∈ keys -> XkbKeycodeInRange d k = true) by (intros; apply Hk; by right).
  assert (Hkk : XkbKeycodeInRange d k = true) by (apply Hk; by left).
  destruct (generated_Some k state Hkk) as [ks E].
  assert (Ht : types_keysym d state keysym k = negb ((ks =? NoSymbol) || negb (ks =? keysym))).
  { unfold types_keysym. rewrite E. by destruct (ks =? NoSymbol), (ks =? keysym). }
  rewrite E. cbn [mbind option_bind]. rewrite filter_cons, Ht.
  destruct ((ks =? NoSymbol) || negb (ks =? keysym)) eqn:Em; cbn [negb].
  - rewrite decide_False by done. by apply IH.
  - rewrite decide_True by done. rewrite !filter_cons. case_bool_decide as Hf.
    + rewrite (decide_False (P := k ∉ fakeKeys)), (decide_True (P := k ∈ fakeKeys)) by tauto.
      rewrite IH by done. cbn [hd]. destruct (Z.eqb_spec fb 0) as [->|]; [|by rewrite (proj2 (Z.eqb_neq fb 0))].
      by rewrite (proj2 (Z.eqb_neq k 0)) by by apply keycode_nonzero.
    + by rewrite (decide_True (P := k ∉ fakeKeys)) by tauto.
Qed.

Lemma elem_of_candidates keysym state k :
  k ∈ candidates d keysym state <-> types_keysym d state keysym k = true /\ XkbKeycodeInRange d k = true.
Proof.
  unfold candidates. rewrite elem_of_app, !list_elem_of_filter, elem_of_keycodes.
  destruct (decide (k ∈ fakeKeys)); tauto.
Qed.

Lemma keysym_to_keycode_hd keysym state :
  keysym_to_keycode d keysym state = Some (hd 0 (candidates d keysym state)).
Proof.
  unfold keysym_to_keycode. rewrite scan_spec by (intros k; apply elem_of_keycodes).
  unfold candidates. by destruct (filter (fun k => k ∉ fakeKeys) _).
Qed.

(** A nonzero result is a key that types the keysym, and 0 means there is none. *)
Lemma keysym_to_keycode_cases keysym state :
  exists k, keysym_to_keycode d keysym state = Some k /\
    (k <> 0 -> XkbKeycodeInRange d k = true /\ types_keysym d state keysym k = true) /\
    (k = 0 -> forall key, XkbKeycodeInRange d key = true -> types_keysym d state keysym key = false).
Proof.
  rewrite keysym_to_keycode_hd. eexists. split; [done|].
  pose proof (elem_of_candidates keysym state) as Hc.
  destruct (candidates d keysym state) as [|k l]; cbn [hd]; split; try done.
  - intros _ key Hkey. destruct (types_keysym d state keysym key) eqn:E; [|done].
    assert (key ∈ ([] : list Z)) as Hin by by apply Hc. by apply elem_of_nil in Hin.
  - intros _. destruct (proj1 (Hc k)); [by left|done].
  - intros ->. destruct (proj1 (Hc 0)) as [_ H0]; [by left|]. by apply keycode_nonzero in H0.
Qed.

End lookup.

(** ** Actions *)

Lemma XkbKeyActionPtr_total d key state : wf_desc d -> wf_actions d -> XkbKeycodeInRange d key = true ->
  exists act, key_action d key state = Some act.
Proof.
  intros Hd Ha Hk. destruct (wf_key d Hd key Hk) as (m & Hm & Hw).
  destruct (proj2 (rdz_is_Some (key_acts d) key)) as [a Hak].
  { pose proof (wf_acts_length d Hd). pose proof (wf_min d Hd). apply keycode_in_range in Hk. lia. }
  unfold key_action, XkbKeyActionPtr, XkbKeyHasActions, XkbKeyNumGroups, XkbKeyGroupInfo, XkbKeyGroupsWidth.
  rewrite Hak, Hm, Hk. cbn. destruct (Z.eqb_spec a 0) as [|Ea]; cbn; [eauto|].
  destruct (Z.eqb_spec (XkbNumGroups (group_info m)) 0) as [|E]; cbn; [eauto|].
  destruct (wf_group_type d Hd key m state Hm Hw E) as (t & -> & Ht & Hl & Hg). cbn.
  set (l := match find_entry state t 0 (kt_map t) with Some (_, e) => level e | None => 0 end).
  assert (Hlr : 0 <= l < width m).
  { pose proof (wf_levels t Ht). subst l. destruct (find_entry state t 0 (kt_map t)) as [[i e]|] eqn:Ef; [|lia].
    apply find_entry_Some in Ef as (_ & He & _). rewrite Z.sub_0_r in He.
    pose proof (wf_entries t Ht) as Hf. rewrite Forall_lookup in Hf. unfold rdz in He.
    destruct (0 <=? i); [|done]. specialize (Hf _ _ He). simpl in Hf. lia. }
  pose proof (column_in_block d m _ l Hw Hg Hlr). destruct (Ha key m a Hk Hm Hak Ea).
  destruct (proj2 (rdz_is_Some (acts d) (a + (effective_group state (XkbNumGroups (group_info m))
    (group_info m) * width m + l)))) as [x Hx]; [lia|]. rewrite Hx. cbn. eauto.
Qed.

Lemma action_mask_total d key act : wf_desc d -> XkbKeycodeInRange d key = true ->
  exists m, action_mask d key act = Some m.
Proof.
  intros Hd Hk. unfold action_mask. case_match; [|eauto].
  apply rdz_is_Some. pose proof (wf_modmap_length d Hd). pose proof (wf_min d Hd).
  apply keycode_in_range in Hk. lia.
Qed.

Lemma level_three_key_cases d state : wf_desc d ->
  exists k, level_three_key d state = Some k /\ (k <> 0 -> XkbKeycodeInRange d k = true).
Proof.
  intros Hd. unfold level_three_key.
  destruct (keysym_to_keycode_cases d Hd XK_ISO_Level3_Shift state) as (k & -> & Hk & _). cbn.
  destruct (Z.eqb_spec k 0); [|exists k; split; [done|]; intros; by apply Hk].
  destruct (keysym_to_keycode_cases d Hd XK_Mode_switch state) as (k' & -> & Hk' & _).
  exists k'. split; [done|]. intros. by apply Hk'.
Qed.

Lemma lorieGetLevelThreeMask_total d s : wf_desc d -> wf_actions d ->
  exists m, lorieGetLevelThreeMask d s = Some m.
Proof.
  intros Hd Ha. unfold lorieGetLevelThreeMask.
  destruct (level_three_key_cases d (Z.ldiff s 0xff) Hd) as (k & -> & Hk). cbn.
  destruct (Z.eqb_spec k 0) as [|E]; [eauto|]. specialize (Hk E).
  destruct (XkbKeyActionPtr_total d k (Z.ldiff s 0xff) Hd Ha Hk) as (act & ->). cbn.
  destruct act as [act|]; [|eauto]. destruct (negb _); [eauto|]. by apply action_mask_total.
Qed.

Lemma demo_desc_wf_actions : wf_actions demo_desc.
Proof.
  intros k m a Hk Hm Ha Hne. apply keycode_in_range in Hk. simpl in Hk.
  assert (k = 8 \/ k = 9 \/ k = 10 \/ k = 11 \/ k = 12) as Hks by lia.
  destruct Hks as [->|[->|[->|[->| ->]]]]; injection Hm as <-; injection Ha as <-;
    first [done|by split; vm_compute; discriminate].
Qed.

(** ** The keycode of a keysym *)

(** The scan for a keysym without touching the state answers the first keycode, in the
    order of the keyboard, that types the keysym in that state, considers the keycodes no
    real keyboard sends only when no other one does, and answers 0 when there is none. *)
Theorem keysym_to_keycode_spec d keysym state :
  wf_desc d -> keysym_to_keycode d keysym state = Some (hd 0 (candidates d keysym state)).
Proof. intros Hd. by apply keysym_to_keycode_hd. Qed.

Lemma keysym_to_keycode_spec_witness :
  keysym_to_keycode demo_desc 0x41 ShiftMask = Some (hd 0 (candidates demo_desc 0x41 ShiftMask)) /\
  candidates demo_desc 0x41 ShiftMask = [8].
Proof. split; [apply (keysym_to_keycode_spec demo_desc 0x41 ShiftMask), demo_desc_wf|by vm_compute]. Defined.

(** C9: finding a keycode for a keysym never leaves the arrays of a well-formed keyboard; a
    nonzero keycode types the keysym in the state that is returned with it, which is the
    given state or differs from it by Shift, by the level three shift or by both; 0 means
    that no key types the keysym in any of these states. *)
Theorem lorieKeysymToKeycode_spec d kbd_state keysym state :
  wf_desc d -> wf_actions d ->
  exists mask key new_state, lorieGetLevelThreeMask d kbd_state = Some mask /\
    lorieKeysymToKeycode d kbd_state keysym state = Some (key, new_state) /\
    (key <> 0 -> XkbKeycodeInRange d key = true /\ types_keysym d new_state keysym key = true /\
                 new_state ∈ tried state mask) /\
    (key = 0 -> forall s k, s ∈ tried state mask -> XkbKeycodeInRange d k = true ->
                 types_keysym d s keysym k = false).
Proof.
  intros Hd Ha. destruct (lorieGetLevelThreeMask_total d kbd_state Hd Ha) as [mask Em].
  unfold lorieKeysymToKeycode, tried. rewrite Em.
  set (s3 := Z.lor (Z.lor (Z.ldiff state (Z.lor ShiftMask mask))
               (if Z.land state ShiftMask =? 0 then ShiftMask else 0)) (if Z.land state mask =? 0 then mask else 0)).
  destruct (keysym_to_keycode_cases d Hd keysym state) as (k0 & -> & P0 & N0). cbn [mbind option_bind].
  destruct (Z.eqb_spec k0 0) as [E0|]; cbn [negb];
    [|exists mask, k0, state; split_and!; try done; intros H; destruct (P0 H); split_and!; try done; by left].
  destruct (keysym_to_keycode_cases d Hd keysym (toggle state ShiftMask)) as (k1 & -> & P1 & N1).
  cbn [mbind option_bind].
  destruct (Z.eqb_spec k1 0) as [E1|]; cbn [negb];
    [|exists mask, k1, (toggle state ShiftMask); split_and!; try done; intros H; destruct (P1 H);
      split_and!; try done; by right; left].
  destruct (Z.eqb_spec mask 0) as [->|].
  { eexists 0, 0, _. split_and!; try done. intros _ s k Hs. rewrite app_nil_r in Hs.
    apply elem_of_cons in Hs as [->|[->|Hs%elem_of_nil]%elem_of_cons]; [by apply N0|by apply N1|done]. }
  destruct (keysym_to_keycode_cases d Hd keysym (toggle state mask)) as (k2 & -> & P2 & N2).
  cbn [mbind option_bind].
  destruct (Z.eqb_spec k2 0) as [E2|]; cbn [negb];
    [|exists mask, k2, (toggle state mask); rewrite (proj2 (Z.eqb_neq mask 0)) by done; split_and!; try done; intros H; destruct (P2 H);
      split_and!; try done; by do 2 right; left].
  fold s3. destruct (keysym_to_keycode_cases d Hd keysym s3) as (k3 & -> & P3 & N3). cbn [mbind option_bind].
  exists mask, k3, s3. rewrite (proj2 (Z.eqb_neq mask 0)) by done. split_and!; try done.
  - intros n3. destruct (P3 n3). split_and!; try done. by do 3 right; left.
  - intros E3 s k [->|[->|[->|[->|Hs%elem_of_nil]%elem_of_cons]%elem_of_cons]%elem_of_cons]%elem_of_cons;
      [by apply N0|by apply N1|by apply N2|by apply N3|done].
Qed.

Lemma lorieKeysymToKeycode_spec_witness :
  exists mask key new_state, lorieGetLevelThreeMask demo_desc 0 = Some mask /\
    lorieKeysymToKeycode demo_desc 0 0x20ac 0 = Some (key, new_state) /\
    (key <> 0 -> XkbKeycodeInRange demo_desc key = true /\ types_keysym demo_desc new_state 0x20ac key = true /\
                 new_state ∈ tried 0 mask) /\
    (key = 0 -> forall s k, s ∈ tried 0 mask -> XkbKeycodeInRange demo_desc k = true ->
                 types_keysym demo_desc s 0x20ac k = false).
Proof. apply (lorieKeysymToKeycode_spec demo_desc 0 0x20ac 0); [apply demo_desc_wf|apply demo_desc_wf_actions]. Defined.

Example demo_euro : lorieKeysymToKeycode demo_desc 0 0x20ac 0 = Some (11, 0x80).
Proof. by vm_compute. Qed.

(** ** Binding a keysym *)

Lemma unused_key_spec d keys : wf_desc d -> (forall k, k ∈ keys -> XkbKeycodeInRange d k = true) ->
  exists k, unused_key d keys = Some k /\
    ((k ∈ keys /\ XkbKeyNumGroups d k = Some 0) \/
     (k = min_key_code d - 1 /\ forall j, j ∈ keys -> XkbKeyNumGroups d j <> Some 0)).
Proof.
  intros Hd. induction keys as [|k keys IH]; intros Hk.
  { exists (min_key_code d - 1). split; [done|]. right. split; [done|]. by intros j Hj%elem_of_nil. }
  cbn [unused_key]. destruct (wf_key d Hd k) as (m & Hm & _); [apply Hk; by left|].
  assert (E : XkbKeyNumGroups d k = Some (XkbNumGroups (group_info m))).
  { unfold XkbKeyNumGroups, XkbKeyGroupInfo. by rewrite Hm. }
  rewrite E. cbn. destruct (Z.eqb_spec (XkbNumGroups (group_info m)) 0) as [E0|E0].
  - exists k. split; [done|]. left. split; [by left|]. by rewrite E, E0.
  - destruct IH as (k' & -> & H); [intros; apply Hk; by right|].
    exists k'. split; [done|]. destruct H as [[? ?]|[? H]]; [left; split; [by right|done]|].
    right. split; [done|]. intros j [->|Hj]%elem_of_cons; [rewrite E; congruence|by apply H].
Qed.

Lemma toggle_shift_bits s : 0 <= s -> Z.land (toggle s ShiftMask) 3 = Z.lxor (Z.land s 3) 1.
Proof.
  intros Hs. unfold toggle, ShiftMask. apply Z.bits_inj'. intros i Hi.
  assert (H3 : Z.testbit 3 i = (i <? 2)).
  { change 3 with (Z.ones 2). destruct (Z.ltb_spec i 2); [apply Z.ones_spec_low|apply Z.ones_spec_high]; lia. }
  assert (H1 : Z.testbit 1 i = (i =? 0)).
  { destruct (Z.eqb_spec i 0) as [->|]; [done|]. change 1 with (Z.ones 1). apply Z.ones_spec_high. lia. }
  assert (E1 : (Z.land s 1 =? 0) = negb (Z.testbit s 0)).
  { change 1 with (Z.ones 1). rewrite Z.land_ones by lia. change (2 ^ 1) with 2. rewrite <- Z.bit0_mod.
    by destruct (Z.testbit s 0). }
  rewrite E1. rewrite !Z.land_spec, Z.lxor_spec, Z.lor_spec, Z.ldiff_spec, Z.land_spec, H3, H1.
  destruct (Z.eqb_spec i 0) as [->|].
  - by destruct (Z.testbit s 0).
  - assert (Z.testbit (if negb (Z.testbit s 0) then 1 else 0) i = false) as ->.
    { destruct (negb _); [done|apply Z.bits_0]. }
    by destruct (Z.testbit s i), (i <? 2).
Qed.

Lemma alpha_level_toggle s : 0 <= s -> alpha_level (toggle s ShiftMask) = 1 - alpha_level s.
Proof.
  intros Hs. unfold alpha_level. rewrite toggle_shift_bits by done.
  pose proof (land_range s 3 ltac:(lia)) as H.
  assert (Z.land s 3 = 0 \/ Z.land s 3 = 1 \/ Z.land s 3 = 2 \/ Z.land s 3 = 3) as Hc by lia.
  by destruct Hc as [->|[->|[->| ->]]].
Qed.

Lemma ldiff_lock state : Z.land (Z.ldiff state (Z.ldiff 3 0)) LockMask = 0.
Proof.
  apply Z.bits_inj'. intros i Hi. rewrite Z.land_spec, Z.ldiff_spec, Z.bits_0.
  change (Z.ldiff 3 0) with (Z.ones 2). destruct (decide (i < 2)).
  - rewrite (Z.ones_spec_low 2) by lia. by destruct (Z.testbit state i).
  - assert (Z.testbit LockMask i = false) as ->; [|by rewrite andb_false_r].
    apply Z.bits_above_log2; [done|]. change (Z.log2 LockMask) with 1. lia.
Qed.

(** An alphabetic key types its first symbol at level 0 and its second one at level 1. *)
Lemma generated_alphabetic d key m state s :
  XkbKeycodeInRange d key = true -> one_group d key XkbAlphabeticIndex alphabetic_type m ->
  rdz (syms d) (offset m + alpha_level state) = Some s -> generated d state key = Some s.
Proof.
  intros Hk [Hm Hg [Ht Hty] Hw] Hs.
  assert (HT : XkbKeyKeyType d key 0 = Some alphabetic_type).
  { unfold XkbKeyKeyType, XkbKeyKeyTypeIndex. rewrite Hm. change (Z.land 0 3) with 0.
    cbn [mbind option_bind]. rewrite Ht. cbn [mbind option_bind]. done. }
  unfold generated, XkbTranslateKeyCode, XkbKeyNumGroups, XkbKeyGroupInfo, XkbKeyGroupsWidth, XkbKeySymsOffset.
  rewrite Hm. cbn. rewrite Hk, Hg. cbn. rewrite effective_group_one, HT. cbn.
  assert (E : find_entry state alphabetic_type 0 (kt_map alphabetic_type) =
      if Z.land state 3 =? 1 then Some (0, {| active := true; level := 1; entry_mask := 1 |})
      else if Z.land state 3 =? 2 then Some (1, {| active := true; level := 1; entry_mask := 2 |}) else None) by done.
  cbn in E. rewrite E. clear E. revert Hs. unfold alpha_level.
  destruct (Z.land state 3 =? 1), (Z.land state 3 =? 2); cbn;
    rewrite ?Z.mul_0_l, ?Z.add_0_l; intros Hs; rewrite Hs; cbn; change 3 with (Z.ldiff 3 0); rewrite ldiff_lock; by destruct (Z.eqb_spec s NoSymbol) as [->|].
Qed.

Lemma XkbConvertCase_keeps s : (XkbConvertCase s).1 = s \/ (XkbConvertCase s).2 = s.
Proof. unfold XkbConvertCase. repeat case_match; simpl; auto. Qed.

Lemma key_name_first key : rdz (key_name key) 0 = Some 84.
Proof. done. Qed.

Lemma name_key_Some d key :
  (forall n, names d = Some n -> Z.of_nat (length n) = max_key_code d + 1) ->
  0 < min_key_code d -> XkbKeycodeInRange d key = true ->
  exists n, name_key d key = Some (set_names n d).
Proof.
  intros Hn Hmin Hk. apply keycode_in_range in Hk. unfold name_key.
  destruct (names d) as [n|] eqn:E.
  - rewrite wrz_Some by (rewrite (Hn n); [lia|done]). cbn. eauto.
  - exists None. destruct d; simpl in *. by subst.
Qed.

(** The keysym is typed by the alphabetic key that holds its case pair, either in the
    state itself or with Shift flipped. *)
Lemma alphabetic_generates d key m keysym state :
  wf_desc d -> XkbKeycodeInRange d key = true -> one_group d key XkbAlphabeticIndex alphabetic_type m ->
  keysym <> NoSymbol -> 0 <= state ->
  rdz (syms d) (offset m) = Some (XkbConvertCase keysym).1 ->
  rdz (syms d) (offset m + 1) = Some (XkbConvertCase keysym).2 ->
  types_keysym d state keysym key = true \/ types_keysym d (toggle state ShiftMask) keysym key = true.
Proof.
  intros Hd Hk Hog Hne Hs H0 H1.
  assert (Hgen : forall s, generated d s key =
    Some (if alpha_level s =? 0 then (XkbConvertCase keysym).1 else (XkbConvertCase keysym).2)).
  { intros s. apply (generated_alphabetic d key m); [done|done|]. unfold alpha_level.
    destruct (_ || _); simpl; [done|by rewrite Z.add_0_r]. }
  assert (Ht : forall s, (if alpha_level s =? 0 then (XkbConvertCase keysym).1 else (XkbConvertCase keysym).2) = keysym ->
    types_keysym d s keysym key = true).
  { intros s E. unfold types_keysym. rewrite Hgen, E, Z.eqb_refl. by rewrite (proj2 (Z.eqb_neq keysym NoSymbol)). }
  assert (Hl : alpha_level state = 0 \/ alpha_level state = 1) by (unfold alpha_level; destruct (_ || _); auto).
  pose proof (alpha_level_toggle state Hs) as Hf.
  destruct (XkbConvertCase_keeps keysym) as [E|E], Hl as [L|L].
  - left. apply Ht. by rewrite L.
  - right. apply Ht. by rewrite Hf, L.
  - right. apply Ht. by rewrite Hf, L.
  - left. apply Ht. by rewrite L.
Qed.

Lemma lookup_of_types d kbd keysym state key : wf_desc d -> XkbKeycodeInRange d key = true ->
  (types_keysym d state keysym key = true \/ types_keysym d (toggle state ShiftMask) keysym key = true) ->
  exists key' ns, lorieKeysymToKeycode d kbd keysym state = Some (key', ns) /\ key' <> 0 /\
    XkbKeycodeInRange d key' = true /\ types_keysym d ns keysym key' = true.
Proof.
  intros Hd Hk Ht. unfold lorieKeysymToKeycode.
  destruct (keysym_to_keycode_cases d Hd keysym state) as (k0 & -> & P0 & N0). cbn [mbind option_bind].
  destruct (Z.eqb_spec k0 0) as [E0|E0]; cbn [negb].
  2: { exists k0, state. split_and!; try done; by apply P0. }
  destruct (keysym_to_keycode_cases d Hd keysym (toggle state ShiftMask)) as (k1 & -> & P1 & N1).
  cbn [mbind option_bind].
  destruct (Z.eqb_spec k1 0) as [E1|E1]; cbn [negb].
  2: { exists k1, (toggle state ShiftMask). split_and!; try done; by apply P1. }
  destruct Ht as [Ht|Ht]; [rewrite (N0 E0 key Hk) in Ht|rewrite (N1 E1 key Hk) in Ht]; done.
Qed.

(** Both symbols of a key with two of them are stored. *)
Lemma store_two d key m lower upper : wf_desc d -> XkbKeycodeInRange d key = true ->
  rdz (key_sym_map d) key = Some m -> num_syms_of m = 2 ->
  exists s1 s2, wrz (syms d) (offset m) lower = Some s1 /\ wrz s1 (offset m + 1) upper = Some s2 /\
    length s2 = length (syms d) /\
    forall i, rdz s2 i = (if i =? offset m then Some lower else if i =? offset m + 1 then Some upper else rdz (syms d) i).
Proof.
  intros Hd Hin Hm Hn. destruct (wf_block d m (wf_keys d Hd key m Hin Hm) ltac:(lia)) as [B1 B2].
  pose proof (wf_num_syms d Hd).
  assert (W1 : wrz (syms d) (offset m) lower = Some (<[Z.to_nat (offset m):=lower]> (syms d))) by (apply wrz_Some; lia).
  assert (W2 : wrz (<[Z.to_nat (offset m):=lower]> (syms d)) (offset m + 1) upper
    = Some (<[Z.to_nat (offset m + 1):=upper]> (<[Z.to_nat (offset m):=lower]> (syms d)))).
  { apply wrz_Some. rewrite length_insert. lia. }
  do 2 eexists. split_and!; [exact W1|exact W2|by rewrite !length_insert|].
  intros i. rewrite (rdz_wrz _ _ _ _ _ W2), (rdz_wrz _ _ _ _ _ W1), !(Z.eqb_sym i).
  destruct (Z.eqb_spec (offset m) i), (Z.eqb_spec (offset m + 1) i); try done. lia.
Qed.

(** A key that has no symbols yet, whichever way it is found. *)
Lemma unused_key_found d : wf_desc d -> (exists k, XkbKeycodeInRange d k = true /\ XkbKeyNumGroups d k = Some 0) ->
  exists key, unused_key d (rev (keycodes d)) = Some key /\ XkbKeycodeInRange d key = true /\
    XkbKeyNumGroups d key = Some 0.
Proof.
  intros Hd [kx [Hkx Hgx]]. destruct (unused_key_spec d (rev (keycodes d)) Hd) as (key & Huk & Hor).
  { intros k Hk%list_elem_of_In%in_rev%list_elem_of_In. by apply elem_of_keycodes. }
  destruct Hor as [[Hin Hng]|[_ Hno]].
  - exists key. split_and!; [done| |done].
    by apply list_elem_of_In, in_rev, list_elem_of_In, elem_of_keycodes in Hin.
  - destruct (Hno kx); [|done]. apply list_elem_of_In, in_rev. rewrite rev_involutive.
    by apply list_elem_of_In, elem_of_keycodes.
Qed.

(** A keysym that no key types is bound to the highest key without symbols: when memory is
    available the binding succeeds, the keyboard stays well formed, every other key types what
    it typed before, the binding is recorded, and the keysym can then be typed from any state
    of the modifiers with at most a change of Shift. *)
Theorem lorieAddKeysym_generates d l keysym item_ok :
  wf_desc d -> rdz (types d) XkbAlphabeticIndex = Some alphabetic_type ->
  (exists k, XkbKeycodeInRange d k = true /\ XkbKeyNumGroups d k = Some 0) ->
  (forall n, names d = Some n -> Z.of_nat (length n) = max_key_code d + 1) ->
  Z.of_nat (length (syms d)) + 256 < 65536 -> keysym <> NoSymbol ->
  exists key d', lorieAddKeysym true item_ok d l keysym
      = Some (key, d', saveAddedKeysym item_ok key (XkbConvertCase keysym).1 l) /\
    XkbKeycodeInRange d key = true /\ XkbKeyNumGroups d key = Some 0 /\ wf_desc d' /\
    (forall k mods, k <> key -> XkbKeycodeInRange d k = true ->
       XkbTranslateKeyCode d' k mods = XkbTranslateKeyCode d k mods) /\
    forall kbd state, 0 <= state -> exists key' ns,
      lorieKeysymToKeycode d' kbd keysym state = Some (key', ns) /\ key' <> 0 /\
      XkbKeycodeInRange d' key' = true /\ types_keysym d' ns keysym key' = true.
Proof.
  intros Hd Hty Hk0 Hnm Hu Hne. destruct (unused_key_found d Hd Hk0) as (key & Huk & Hin & Hng).
  destruct (name_key_Some d key Hnm ltac:(apply Hd) Hin) as [n En].
  destruct (wf_key d Hd key Hin) as (m & Hm & _).
  assert (Hg0 : XkbNumGroups (group_info m) = 0).
  { revert Hng. unfold XkbKeyNumGroups, XkbKeyGroupInfo. rewrite Hm. by intros [= ->]. }
  destruct (XkbChangeTypesOfKey_fresh (set_names n d) key m alphabetic_type
    {| syms_changed := false; first_key_sym := 0; num_key_syms := 0 |})
    as (d2 & m' & Ech & Hd2 & Hrest & Hog & Htr); try done. { by apply wf_set_names. }
  assert (Hin2 : XkbKeycodeInRange d2 key = true) by by rewrite (same_rest_range _ _ _ Hrest).
  pose proof Hog as [Hm' Hg1 _ Hw1].
  assert (Hn2 : num_syms_of m' = 2) by (unfold num_syms_of; rewrite Hg1, Hw1; done).
  destruct (store_two d2 key m' (XkbConvertCase keysym).1 (XkbConvertCase keysym).2 Hd2 Hin2 Hm' Hn2)
    as (s1 & s2 & W1 & W2 & Hl & Hs).
  set (d3 := set_syms s2 (num_syms d2) d2).
  assert (Hd3 : wf_desc d3) by by apply wf_set_syms.
  exists key, d3. split_and!; try done.
  - unfold lorieAddKeysym. rewrite Huk. cbn [mbind option_bind].
    pose proof (proj1 (keycode_in_range d key) Hin). pose proof (wf_min d Hd).
    rewrite (proj2 (Z.ltb_ge key (min_key_code d))) by lia. cbn [mbind option_bind].
    rewrite (proj2 (Z.eqb_neq key 0)), En by lia. cbn [mbind option_bind].
    rewrite (surjective_pairing (XkbConvertCase keysym)), Ech. cbn [mbind option_bind fst snd].
    unfold XkbKeySymsOffset. rewrite Hm'. cbn [mbind option_bind fmap option_fmap option_map].
    rewrite W1. cbn [mbind option_bind]. rewrite W2. done.
  - intros k mods Hk Hkr. apply (Htr k mods s2); [done|done|done|].
    change (num_levels alphabetic_type) with 2. intros i Hi. rewrite Hs.
    by rewrite (proj2 (Z.eqb_neq i (offset m' + 1))), (proj2 (Z.eqb_neq i (offset m'))) by lia.
  - intros kbd state Hst. apply (lookup_of_types d3 kbd keysym state key); try done.
    apply (alphabetic_generates d3 key m'); try done.
    + destruct Hog. by split.
    + change (rdz s2 (offset m') = Some (XkbConvertCase keysym).1). by rewrite Hs, Z.eqb_refl.
    + change (rdz s2 (offset m' + 1) = Some (XkbConvertCase keysym).2). rewrite Hs, Z.eqb_refl.
      by rewrite (proj2 (Z.eqb_neq (offset m' + 1) _)) by lia.
Qed.

Lemma lorieAddKeysym_generates_witness :
  exists key d', lorieAddKeysym true true demo_desc [] 0x7e1
      = Some (key, d', saveAddedKeysym true key (XkbConvertCase 0x7e1).1 []) /\
    XkbKeycodeInRange demo_desc key = true /\ XkbKeyNumGroups demo_desc key = Some 0 /\ wf_desc d' /\
    (forall k mods, k <> key -> XkbKeycodeInRange demo_desc k = true ->
       XkbTranslateKeyCode d' k mods = XkbTranslateKeyCode demo_desc k mods) /\
    forall kbd state, 0 <= state -> exists key' ns,
      lorieKeysymToKeycode d' kbd 0x7e1 state = Some (key', ns) /\ key' <> 0 /\
      XkbKeycodeInRange d' key' = true /\ types_keysym d' ns 0x7e1 key' = true.
Proof.
  apply (lorieAddKeysym_generates demo_desc [] 0x7e1 true);
    [apply demo_desc_wf|reflexivity|exists 12; split; reflexivity|intros n [= <-]; reflexivity|reflexivity|discriminate].
Defined.

(** ** Fake modifiers are undone *)

Lemma after_undo j es b : KeyPress j ∉ es ->
  fold_left (key_after j) (map undo es) b = if bool_decide (KeyRelease j ∈ es) then true else b.
Proof.
  revert b. induction es as [|e es IH]; intros b Hn; [done|].
  apply not_elem_of_cons in Hn as [Hne Hn]. cbn [map fold_left]. rewrite IH by done.
  destruct e as [k|k]; cbn [undo key_after].
  - destruct (Z.eqb_spec j k) as [->|]; [done|]. simpl.
    rewrite (bool_decide_ext (KeyRelease j ∈ KeyPress k :: es) (KeyRelease j ∈ es)); [done|].
    rewrite elem_of_cons. split; [by intros [?|?]|by right].
  - destruct (Z.eqb_spec j k) as [->|]; simpl.
    + rewrite (bool_decide_eq_true_2 (KeyRelease k ∈ KeyRelease k :: es)) by by left. by case_bool_decide.
    + rewrite (bool_decide_ext (KeyRelease j ∈ KeyRelease k :: es) (KeyRelease j ∈ es)); [done|].
      rewrite elem_of_cons. split; [|by right]. by intros [?|?]; simplify_eq.
Qed.

Lemma after_fakes j es b : KeyPress j ∉ es ->
  fold_left (key_after j) es b = if bool_decide (KeyRelease j ∈ es) then false else b.
Proof.
  revert b. induction es as [|e es IH]; intros b Hn; [done|].
  apply not_elem_of_cons in Hn as [Hne Hn]. cbn [fold_left]. rewrite IH by done.
  destruct e as [k|k]; cbn [key_after].
  - destruct (Z.eqb_spec j k) as [->|]; [done|]. simpl.
    rewrite (bool_decide_ext (KeyRelease j ∈ KeyPress k :: es) (KeyRelease j ∈ es)); [done|].
    rewrite elem_of_cons. split; [by intros [?|?]|by right].
  - destruct (Z.eqb_spec j k) as [->|]; simpl.
    + rewrite (bool_decide_eq_true_2 (KeyRelease k ∈ KeyRelease k :: es)) by by left. by case_bool_decide.
    + rewrite (bool_decide_ext (KeyRelease j ∈ KeyRelease k :: es) (KeyRelease j ∈ es)); [done|].
      rewrite elem_of_cons. split; [|by right]. by intros [?|?]; simplify_eq.
Qed.

Lemma fakes_release down es j : fakes down es -> KeyRelease j ∈ es -> down j = true.
Proof.
  intros [[k ->]|H] Hj; [apply list_elem_of_singleton in Hj; discriminate|].
  destruct (H _ Hj) as (k & Hk & ?). by injection Hk as <-.
Qed.

Lemma release_loop_down d down state mods n keys acc ks :
  release_loop d down state mods n keys acc = Some ks -> (forall k, k ∈ acc -> down k = true) ->
  forall k, k ∈ ks -> down k = true.
Proof.
  revert acc. induction keys as [|key keys IH]; intros acc; cbn [release_loop]; [by intros [= <-]|].
  destruct (down key) eqn:E; cbn [negb]; [|by apply IH].
  unfold mbind, option_bind. destruct (set_mods_mask d key state) as [m|]; [|done].
  destruct (Z.land m mods =? 0); [by apply IH|]. destruct (n <=? length acc)%nat.
  - by intros [= <-] _ k ?%elem_of_nil.
  - intros H Hacc. apply (IH _ H). intros k [?| ->%list_elem_of_singleton]%elem_of_app; auto.
Qed.

Section events.
Context (core_state : XkbDesc -> list kev -> Z) (key_is_down : list kev -> Z -> bool).

Lemma map_release_fakes down ks : (forall k, k ∈ ks -> down k = true) -> fakes down (map KeyRelease ks).
Proof.
  intros H. right. intros e (k & <- & Hk)%list_elem_of_In%in_map_iff.
  exists k. split; [done|]. apply H. by apply list_elem_of_In.
Qed.

Lemma fakes_nil down : fakes down [].
Proof. right. by intros e ?%elem_of_nil. Qed.

Lemma fake_shift_fakes w s s' es :
  fake_shift core_state key_is_down w s s' = Some (Some es) -> fakes (key_is_down (processed w)) es.
Proof.
  unfold fake_shift, mbind, option_bind. destruct (_ && _)%bool.
  { destruct (loriePressShift _ _) as [k|]; [|done]. destruct (k =? 0); [done|]. intros [= <-]. left. eauto. }
  destruct (_ && _)%bool; [|intros [= <-]; apply fakes_nil].
  destruct (lorieReleaseShift _ _ _ _) as [ks|] eqn:E; [|done]. case_bool_decide; [done|]. intros [= <-].
  apply map_release_fakes. unfold lorieReleaseShift in E.
  destruct (_ =? 0); [by simplify_eq|]. apply (release_loop_down _ _ _ _ _ _ _ _ E). by intros k ?%elem_of_nil.
Qed.

Lemma fake_level_three_fakes w s s' m es :
  fake_level_three core_state key_is_down w s s' m = Some (Some es) -> fakes (key_is_down (processed w)) es.
Proof.
  unfold fake_level_three, mbind, option_bind. destruct (_ && _)%bool.
  { destruct (loriePressLevelThree _ _) as [k|]; [|done]. destruct (k =? 0); [done|]. intros [= <-]. left. eauto. }
  destruct (_ && _)%bool; [|intros [= <-]; apply fakes_nil].
  destruct (lorieReleaseLevelThree _ _ _ _) as [ks|] eqn:E; [|done]. case_bool_decide; [done|]. intros [= <-].
  apply map_release_fakes. unfold lorieReleaseLevelThree, mbind, option_bind in E.
  destruct (lorieGetLevelThreeMask _ _); [|done].
  destruct (_ || _)%bool; [by simplify_eq|]. apply (release_loop_down _ _ _ _ _ _ _ _ E). by intros k ?%elem_of_nil.
Qed.

(** The outcomes of the last part of a press. *)
Lemma press_key_cases w keysym state keycode ns w' :
  queued w = [] -> press_key core_state key_is_down w keysym state keycode ns = Some w' ->
  w' = w \/
  (exists sh mask ns', w' = QueueKeyboardEvents sh w /\ fakes (key_is_down (processed w)) sh /\
     fake_level_three core_state key_is_down w' state ns' mask = Some None) \/
  (exists sh l3 p, fakes (key_is_down (processed w)) sh /\ fakes (key_is_down (processed w)) l3 /\
     store_pressed (pressedKeys w) keysym keycode = Some p /\
     processed w' = processed w ++ sh ++ l3 ++ [KeyPress keycode] ++ map undo l3 ++ map undo sh /\
     queued w' = [] /\ pressedKeys w' = p /\ kbd_desc w' = kbd_desc w /\
     addedKeysyms w' = vncOnKeyUsed keycode (addedKeysyms w)).
Proof.
  intros Hq. unfold press_key, mbind, option_bind.
  set (ns' := if (keysym =? XK_Tab) && negb (Z.land state ShiftMask =? 0) then Z.lor ns ShiftMask else ns).
  cbv zeta. destruct (if Z.ldiff ns' ShiftMask =? _ then _ else _) as [mask|]; [|done].
  destruct (fake_shift core_state key_is_down w state ns') as [[sh|]|] eqn:Esh; [| |done].
  2: { intros [= <-]. by left. }
  apply fake_shift_fakes in Esh.
  destruct (fake_level_three _ _ _ _ _ _) as [[l3|]|] eqn:El3; [| |done].
  2: { intros [= <-]. right. left. eauto 10. }
  apply fake_level_three_fakes in El3. cbn in El3 |- *.
  destruct (store_pressed _ _ _) as [p|] eqn:Ep; [|done]. intros [= <-]. right. right.
  exists sh, l3, p. cbn. rewrite Hq. split_and!; try done. by rewrite <- !app_assoc.
Qed.

Lemma find_or_add_frame ok1 ok2 w state keysym w' r :
  find_or_add core_state ok1 ok2 w state keysym = Some (w', r) ->
  queued w' = queued w /\ processed w' = processed w /\ pressedKeys w' = pressedKeys w.
Proof.
  unfold find_or_add, mbind, option_bind.
  destruct (lookup_in core_state w state keysym) as [[k ns]|]; [|done].
  destruct (if (k, ns).1 =? 0 then _ else _) as [[r0|]|]; [| |done].
  { by intros [= <- <-]. }
  destruct (lorieAddKeysym _ _ _ _ _) as [[[key d] l]|]; [|done].
  destruct (key =? 0); [by intros [= <- <-]|].
  destruct (lookup_in core_state _ state keysym); [|done]. by intros [= <- <-].
Qed.

(** [key_is_down] follows the events the device was fed. *)
Context (Hdown : forall h e j, key_is_down (h ++ [e]) j = key_after j (key_is_down h j) e).

Lemma down_after h es j : key_is_down (h ++ es) j = fold_left (key_after j) es (key_is_down h j).
Proof.
  revert h. induction es as [|e es IH]; intros h; [by rewrite app_nil_r|].
  cbn [fold_left]. rewrite <- Hdown. rewrite <- IH, <- app_assoc. done.
Qed.

(** A key after fake events, and after their opposites. *)
Lemma fakes_after down es j b : fakes down es ->
  fold_left (key_after j) es b =
    if bool_decide (KeyPress j ∈ es) then true else if bool_decide (KeyRelease j ∈ es) then false else b.
Proof.
  intros Hf. case_bool_decide as Hp; [|by apply after_fakes]. destruct Hf as [[k ->]|H].
  - apply list_elem_of_singleton in Hp as [= ->]. cbn. by rewrite Z.eqb_refl.
  - destruct (H _ Hp) as (k & ? & _). done.
Qed.

Lemma fakes_undone down es j b : fakes down es ->
  fold_left (key_after j) (map undo es) b =
    if bool_decide (KeyPress j ∈ es) then false else if bool_decide (KeyRelease j ∈ es) then true else b.
Proof.
  intros Hf. case_bool_decide as Hp; [|by apply after_undo]. destruct Hf as [[k ->]|H].
  - apply list_elem_of_singleton in Hp as [= ->]. cbn. by rewrite Z.eqb_refl.
  - destruct (H _ Hp) as (k & ? & _). done.
Qed.

(** The state of every key after a press: the modifiers that were faked by a press are
    up, the key itself is down and all others are as they were. *)
Lemma balanced_down h sh l3 keycode j : fakes (key_is_down h) sh -> fakes (key_is_down h) l3 ->
  key_is_down (h ++ sh ++ l3 ++ [KeyPress keycode] ++ map undo l3 ++ map undo sh) j =
    if bool_decide (KeyPress j ∈ sh \/ KeyPress j ∈ l3 /\ KeyRelease j ∉ sh) then false
    else (j =? keycode) || key_is_down h j.
Proof.
  intros Hsh Hl3. rewrite down_after, !fold_left_app.
  rewrite (fakes_undone _ sh j _ Hsh), (fakes_undone _ l3 j _ Hl3). cbn [fold_left key_after].
  rewrite (fakes_after _ l3 j _ Hl3), (fakes_after _ sh j _ Hsh).
  pose proof (fakes_release _ _ j Hsh) as H1. pose proof (fakes_release _ _ j Hl3) as H2.
  destruct (decide (KeyPress j ∈ sh)) as [A|A], (decide (KeyRelease j ∈ sh)) as [B|B],
    (decide (KeyPress j ∈ l3)) as [C|C], (decide (KeyRelease j ∈ l3)) as [D|D];
    rewrite ?(bool_decide_eq_true_2 (KeyPress j ∈ sh)), ?(bool_decide_eq_false_2 (KeyPress j ∈ sh)),
      ?(bool_decide_eq_true_2 (KeyRelease j ∈ sh)), ?(bool_decide_eq_false_2 (KeyRelease j ∈ sh)),
      ?(bool_decide_eq_true_2 (KeyPress j ∈ l3)), ?(bool_decide_eq_false_2 (KeyPress j ∈ l3)),
      ?(bool_decide_eq_true_2 (KeyRelease j ∈ l3)), ?(bool_decide_eq_false_2 (KeyRelease j ∈ l3)) by done;
    rewrite ?H1, ?H2 by done; rewrite ?orb_true_r;
    first [rewrite bool_decide_eq_true_2 by tauto|rewrite bool_decide_eq_false_2 by tauto]; done.
Qed.

End events.

(** The three outcomes of pressing a keysym. *)
Definition nothing_pressed (w w' : Keyboard) : Prop :=
  processed w' = processed w ++ queued w /\ queued w' = [] /\ pressedKeys w' = pressedKeys w.

(** The handler returned because no key was found for the level three shift: its fake
    events for Shift are left in the queue. *)
Definition left_in_queue core_state key_is_down (w w' : Keyboard) : Prop :=
  processed w' = processed w ++ queued w /\ fakes (key_is_down (processed w ++ queued w)) (queued w') /\
  pressedKeys w' = pressedKeys w /\
  exists state new_state mask, fake_level_three core_state key_is_down w' state new_state mask = Some None.

Definition key_pressed (key_is_down : list kev -> Z -> bool) (keysym : Z) (w w' : Keyboard) : Prop :=
  let h := processed w ++ queued w in
  exists sh l3 keycode, fakes (key_is_down h) sh /\ fakes (key_is_down h) l3 /\
    processed w' = h ++ sh ++ l3 ++ [KeyPress keycode] ++ map undo l3 ++ map undo sh /\ queued w' = [] /\
    store_pressed (pressedKeys w) keysym keycode = Some (pressedKeys w') /\
    forall j, key_is_down (processed w') j =
      if bool_decide (KeyPress j ∈ sh \/ KeyPress j ∈ l3 /\ KeyRelease j ∉ sh) then false
      else (j =? keycode) || key_is_down h j.

(** C4: pressing a keysym has one of three outcomes. Nothing is sent and recorded. Or exactly one
    key press is sent between fake modifier events (one press, or releases of keys that were
    down) and their opposites, the keysym is recorded under that keycode, and of every key the
    state is known: the modifiers that were faked by a press are up, the key is down unless it
    is one of them, and all others are as they were. Or the key for the level three shift cannot
    be found, and then the fake events for Shift stay in the queue and are not undone. *)
Theorem lorieKeysymKeyboardEvent_press core_state key_is_down ok1 ok2 w keysym w' :
  (forall h e j, key_is_down (h ++ [e]) j = key_after j (key_is_down h j) e) ->
  lorieKeysymKeyboardEvent core_state key_is_down ok1 ok2 w keysym true = Some w' ->
  nothing_pressed w w' \/ key_pressed key_is_down keysym w w' \/ left_in_queue core_state key_is_down w w'.
Proof.
  intros Hdown. unfold lorieKeysymKeyboardEvent, mbind, option_bind. cbn [negb].
  destruct (find_or_add _ _ _ _ _ _) as [[w1 r]|] eqn:E; [|done].
  apply find_or_add_frame in E as (Eq & Ep & Epk). cbn in Eq, Ep, Epk.
  destruct r as [r|]; [|by intros [= <-]; left].
  destruct (avoid_fake_shift _ _ _ _ _) as [r'|]; [|done]. intros H.
  apply press_key_cases in H; [|done]. rewrite Ep in H. destruct H as [->|[(sh & mask & ns & -> & Hf & Hl3)|H]].
  - by left.
  - right. right. unfold left_in_queue. cbn [processed queued pressedKeys QueueKeyboardEvents]. rewrite Eq. eauto 10.
  - right. left. destruct H as (sh & l3 & p & Hsh & Hl3 & Hst & Hpr & Hq & Hpk & _).
    exists sh, l3, r'.1. rewrite <- Epk, Hpk. split_and!; try done.
    intros j. rewrite Hpr. by apply balanced_down.
Qed.

(** ** The table of pressed keysyms *)

Lemma rdz_map {A B} (f : A -> B) l i : rdz (map f l) i = f <$> rdz l i.
Proof. unfold rdz. destruct (0 <=? i); [|done]. apply list_lookup_fmap. Qed.

Lemma store_pressed_ok p keysym keycode p' :
  pressed_ok p -> store_pressed p keysym keycode = Some p' ->
  pressed_ok p' /\ rdz p' keycode = Some keysym.
Proof.
  intros [Hl Hu] Hst. unfold store_pressed in Hst.
  assert (Hr : forall j, rdz p' j = if keycode =? j then Some keysym
      else (fun s => if s =? keysym then NoSymbol else s) <$> rdz p j).
  { intros j. rewrite (rdz_wrz _ _ _ _ _ Hst). by rewrite rdz_map. }
  split; [|by rewrite Hr, Z.eqb_refl].
  split; [rewrite (wrz_length _ _ _ _ Hst), length_map; done|].
  assert (Hold : forall j s, s <> NoSymbol -> keycode <> j -> rdz p' j = Some s -> rdz p j = Some s /\ s <> keysym).
  { intros j s Hs Hj. rewrite Hr, (proj2 (Z.eqb_neq keycode j)) by done.
    destruct (rdz p j) as [t|]; [|done]. cbn. destruct (Z.eqb_spec t keysym); intros [= <-]; done. }
  intros i j s Hs Hi Hj. destruct (decide (keycode = i)) as [<-|Hki], (decide (keycode = j)) as [<-|Hkj]; try done.
  - rewrite Hr, Z.eqb_refl in Hi. injection Hi as <-. by destruct (Hold j keysym Hs Hkj Hj).
  - rewrite Hr, Z.eqb_refl in Hj. injection Hj as <-. by destruct (Hold i keysym Hs Hki Hi).
  - eapply Hu; [exact Hs| |]; eapply Hold; done.
Qed.

Lemma release_key_cases w keysym :
  pressed_ok (pressedKeys w) -> keysym <> NoSymbol ->
  (exists k, rdz (pressedKeys w) k = Some keysym /\ queued (release_key w keysym) = [] /\
     processed (release_key w keysym) = processed w ++ queued w ++ [KeyRelease k] /\
     wrz (pressedKeys w) k NoSymbol = Some (pressedKeys (release_key w keysym))) \/
  ((forall k, rdz (pressedKeys w) k <> Some keysym) /\ release_key w keysym = w).
Proof.
  intros Hok Hne. unfold release_key. destruct (list_find _ _) as [[i s]|] eqn:E.
  - apply list_find_Some in E as (Hi & -> & _). left. exists (Z.of_nat i).
    rewrite rdz_nat. cbn. split_and!; try done. pose proof (lookup_lt_Some _ _ _ Hi).
    rewrite wrz_Some by lia. by rewrite Nat2Z.id.
  - right. split; [|done]. apply list_find_None in E. rewrite Forall_lookup in E.
    intros k Hk. unfold rdz in Hk. destruct (0 <=? k); [|done]. by apply (E _ _ Hk).
Qed.

(** A release is sent for the key whose press was recorded for the keysym and for no other
    key, the record is then gone, and nothing happens for a keysym that is not recorded; since
    a press records its keysym under one keycode only, each press is released once. *)
Theorem lorieKeysymKeyboardEvent_release core_state key_is_down ok1 ok2 w keysym :
  pressed_ok (pressedKeys w) -> keysym <> NoSymbol ->
  exists w', lorieKeysymKeyboardEvent core_state key_is_down ok1 ok2 w keysym false = Some w' /\
    (forall k, rdz (pressedKeys w') k <> Some keysym) /\
    ((exists k, rdz (pressedKeys w) k = Some keysym /\ queued w' = [] /\
        processed w' = processed w ++ queued w ++ [KeyRelease k] /\
        forall j, j <> k -> rdz (pressedKeys w') j = rdz (pressedKeys w) j) \/
     ((forall k, rdz (pressedKeys w) k <> Some keysym) /\ w' = w)).
Proof.
  intros Hok Hne. exists (release_key w keysym). split; [done|].
  destruct (release_key_cases w keysym Hok Hne) as [(k & Hk & Hq & Hp & Hw)|[Hno ->]]; [|auto].
  split; cycle 1.
  - left. exists k. split_and!; try done. intros j Hj.
    by rewrite (rdz_wrz _ _ _ _ _ Hw), (proj2 (Z.eqb_neq k j)).
  - intros j. rewrite (rdz_wrz _ _ _ _ _ Hw). destruct (Z.eqb_spec k j) as [|Hj]; [congruence|].
    intros Hj'. by apply Hj, (pr_unique _ Hok _ _ keysym).
Qed.

(** Whatever is pressed and released, no keysym is ever recorded under two keycodes, so
    the key a release goes to is determined. *)
Theorem lorieKeysymKeyboardEvent_pressed_ok core_state key_is_down ok1 ok2 w keysym down w' :
  pressed_ok (pressedKeys w) -> keysym <> NoSymbol ->
  lorieKeysymKeyboardEvent core_state key_is_down ok1 ok2 w keysym down = Some w' ->
  pressed_ok (pressedKeys w').
Proof.
  intros Hok Hne. unfold lorieKeysymKeyboardEvent, mbind, option_bind. destruct down; cbn [negb].
  - destruct (find_or_add _ _ _ _ _ _) as [[w1 r]|] eqn:E; [|done].
    apply find_or_add_frame in E as (Eq & Ep & Epk). cbn in Eq, Ep, Epk.
    destruct r as [r|]; [|by intros [= <-]; rewrite Epk].
    destruct (avoid_fake_shift _ _ _ _ _) as [r'|]; [|done]. intros H.
    apply press_key_cases in H; [|done].
    destruct H as [->|[(sh & mask & ns & -> & _)|(sh & l3 & p & _ & _ & Hst & _ & _ & -> & _)]].
    + by rewrite Epk.
    + cbn. by rewrite Epk.
    + rewrite Epk in Hst. by apply (store_pressed_ok _ _ _ _ Hok Hst).
  - intros [= <-]. destruct (release_key_cases w keysym Hok Hne) as [(k & Hk & _ & _ & Hw)|[_ ->]]; [|done].
    destruct Hok as [Hl Hu]. split; [by rewrite (wrz_length _ _ _ _ Hw)|].
    intros i j s Hs. rewrite !(rdz_wrz _ _ _ _ _ Hw).
    destruct (Z.eqb_spec k i), (Z.eqb_spec k j); try (intros; congruence). by apply Hu.
Qed.

Lemma demo_down_law h e j : demo_down (h ++ [e]) j = key_after j (demo_down h j) e.
Proof. unfold demo_down. by rewrite fold_left_app. Qed.

Lemma demo_pressed_ok : pressed_ok (pressedKeys demo_keyboard).
Proof.
  split; [by vm_compute|]. intros i j s Hs Hi. destruct Hs. unfold rdz in Hi. destruct (0 <=? i); [|done].
  by apply lookup_replicate in Hi as [<- _].
Qed.

(** The euro sign of [demo_desc] needs the level three shift, which is pressed and released. *)
Definition after_euro : Keyboard :=
  default demo_keyboard (lorieKeysymKeyboardEvent demo_state demo_down true true demo_keyboard 0x20ac true).

Example after_euro_events : processed after_euro = [KeyPress 10; KeyPress 11; KeyRelease 10].
Proof. by vm_compute. Qed.

Lemma lorieKeysymKeyboardEvent_press_witness :
  nothing_pressed demo_keyboard after_euro \/ key_pressed demo_down 0x20ac demo_keyboard after_euro \/
  left_in_queue demo_state demo_down demo_keyboard after_euro.
Proof.
  apply (lorieKeysymKeyboardEvent_press demo_state demo_down true true demo_keyboard 0x20ac after_euro);
    [intros; apply demo_down_law|by vm_compute].
Defined.

Lemma lorieKeysymKeyboardEvent_release_witness :
  exists w', lorieKeysymKeyboardEvent demo_state demo_down true true demo_keyboard 0x61 false = Some w' /\
    (forall k, rdz (pressedKeys w') k <> Some 0x61) /\
    ((exists k, rdz (pressedKeys demo_keyboard) k = Some 0x61 /\ queued w' = [] /\
        processed w' = processed demo_keyboard ++ queued demo_keyboard ++ [KeyRelease k] /\
        forall j, j <> k -> rdz (pressedKeys w') j = rdz (pressedKeys demo_keyboard) j) \/
     ((forall k, rdz (pressedKeys demo_keyboard) k <> Some 0x61) /\ w' = demo_keyboard)).
Proof.
  apply (lorieKeysymKeyboardEvent_release demo_state demo_down true true demo_keyboard 0x61);
    [apply demo_pressed_ok|discriminate].
Defined.

Lemma lorieKeysymKeyboardEvent_pressed_ok_witness : pressed_ok (pressedKeys after_euro).
Proof.
  apply (lorieKeysymKeyboardEvent_pressed_ok demo_state demo_down true true demo_keyboard 0x20ac true after_euro);
    [apply demo_pressed_ok|discriminate|by vm_compute].
Defined.

(** When Shift was faked and the level three key cannot be found in the current state, the
    handler returns with the press of Shift still in the queue: it is delivered with the next
    event and nothing releases it. *)
Example shift_stays_pressed :
  lorieKeysymKeyboardEvent (fun _ _ => 2) demo_down true true lock_keyboard 0x1002122 true
  = Some (QueueKeyboardEvents [KeyPress 9] lock_keyboard).
Proof. by vm_compute. Qed.

(** ** The order of the bound keysyms *)

Lemma take_out_spec code l it l' : take_out code l = Some (it, l') ->
  ak_keycode it = code /\ l ≡ₚ it :: l' /\
  filter (fun x => ak_keycode x <> code) l' = filter (fun x => ak_keycode x <> code) l.
Proof.
  revert l'. induction l as [|x l IH]; intros l'; [done|]. cbn [take_out].
  destruct (Z.eqb_spec (ak_keycode x) code) as [E|E].
  - intros [= <- <-]. split_and!; [done|done|]. rewrite filter_cons_False; [done|]. tauto.
  - destruct (take_out code l) as [[y r]|]; [|done]. cbn. intros [= -> <-].
    destruct (IH r eq_refl) as (H1 & H2 & H3). split_and!; [done| |].
    + rewrite H2. apply Permutation_swap.
    + rewrite !filter_cons. destruct (decide (ak_keycode x <> code)); [by rewrite H3|done].
Qed.

Lemma take_out_None code l : take_out code l = None -> forall x, x ∈ l -> ak_keycode x <> code.
Proof.
  induction l as [|y l IH]; [by intros _ x ?%elem_of_nil|]. cbn [take_out].
  destruct (Z.eqb_spec (ak_keycode y) code); [done|]. destruct (take_out code l) eqn:E; [done|].
  intros _ x [->|Hx]%elem_of_cons; [done|by apply IH].
Qed.

Lemma reuse_loop_spec d r k r' : reuse_loop d r = Some (k, r') ->
  (k = 0 /\ r' = [] /\ forall x, x ∈ r -> still_ours d x = Some true -> ak_keycode x = 0) \/
  (k <> 0 /\ exists r1 it, r = r1 ++ it :: r' /\ ak_keycode it = k /\ still_ours d it = Some true /\
     forall x, x ∈ r1 -> still_ours d x = Some true -> ak_keycode x = 0).
Proof.
  revert k r'. induction r as [|x r IH]; intros k r'; cbn [reuse_loop].
  { intros [= <- <-]. left. split_and!; try done. by intros x ?%elem_of_nil. }
  destruct (still_ours d x) as [o|] eqn:Eo; [|done]. cbn [mbind option_bind].
  destruct (Z.eqb_spec (if o then ak_keycode x else 0) 0) as [E0|E0].
  - intros H. assert (Hx : still_ours d x = Some true -> ak_keycode x = 0)
      by (rewrite Eo; intros [= ->]; done).
    destruct (IH _ _ H) as [(-> & -> & Hall)|(Hk & r1 & it & -> & Hit & Ho & Hall)].
    + left. split_and!; try done. intros y [->|Hy]%elem_of_cons; [done|by apply Hall].
    + right. split; [done|]. exists (x :: r1), it. split_and!; try done.
      intros y [->|Hy]%elem_of_cons; [done|by apply Hall].
  - intros [= <- <-]. right. split; [done|]. destruct o; [|done].
    exists [], x. split_and!; try done. by intros y ?%elem_of_nil.
Qed.

(** The list of bound keysyms is kept in the order of use: using a keycode brings its
    binding to the front and keeps the order of the others. *)
Theorem vncOnKeyUsed_lru code l :
  vncOnKeyUsed code l ≡ₚ l /\
  filter (fun x => ak_keycode x <> code) (vncOnKeyUsed code l) = filter (fun x => ak_keycode x <> code) l /\
  ((exists it r, vncOnKeyUsed code l = it :: r /\ ak_keycode it = code) \/
   (vncOnKeyUsed code l = l /\ forall x, x ∈ l -> ak_keycode x <> code)).
Proof.
  unfold vncOnKeyUsed. destruct l as [|x l].
  { split_and!; try done. right. split; [done|]. by intros y ?%elem_of_nil. }
  destruct (Z.eqb_spec (ak_keycode x) code) as [E|E]; [split_and!; eauto|].
  destruct (take_out code (x :: l)) as [[it l']|] eqn:Et.
  - destruct (take_out_spec _ _ _ _ Et) as (H1 & H2 & H3). split_and!; [done| |eauto].
    rewrite filter_cons_False; [done|tauto].
  - split_and!; try done. right. split; [done|]. by apply take_out_None.
Qed.

(** When every keycode is taken, the one to reuse is that of the least recently used
    binding that nobody has changed since; the stale bindings used before it are forgotten and
    the ones used after it are kept. *)
Theorem getReusableKeycode_oldest d l k l' : getReusableKeycode d l = Some (k, l') ->
  (k = 0 /\ l' = [] /\ forall x, x ∈ l -> still_ours d x = Some true -> ak_keycode x = 0) \/
  (k <> 0 /\ exists it l2, l = l' ++ it :: l2 /\ ak_keycode it = k /\ still_ours d it = Some true /\
     forall x, x ∈ l2 -> still_ours d x = Some true -> ak_keycode x = 0).
Proof.
  unfold getReusableKeycode. destruct (reuse_loop d (rev l)) as [[k0 r0]|] eqn:E; [|done]. cbn.
  intros [= <- <-]. assert (Hrev : forall x, x ∈ rev l <-> x ∈ l).
  { intros x. rewrite !list_elem_of_In. symmetry. apply in_rev. }
  destruct (reuse_loop_spec _ _ _ _ E) as [(-> & -> & Hall)|(Hk & r1 & it & Hr & Hit & Ho & Hall)].
  - left. split_and!; try done. intros x Hx. apply Hall. by apply Hrev.
  - right. split; [done|]. exists it, (rev r1). split_and!; try done.
    + rewrite <- (rev_involutive l), Hr, rev_app_distr. cbn. by rewrite <- app_assoc.
    + intros x Hx. apply Hall. rewrite list_elem_of_In in Hx |- *. by apply in_rev.
Qed.

Lemma getReusableKeycode_oldest_witness :
  let l := [{| ak_keysym := 0x61; ak_keycode := 8 |}; {| ak_keysym := 0x62; ak_keycode := 8 |}] in
  let d := set_names None demo_desc in
  (8 = 0 /\ [] = ([] : list AddedKeySym) /\ forall x, x ∈ l -> still_ours d x = Some true -> ak_keycode x = 0) \/
  (8 <> 0 /\ exists it l2, l = [] ++ it :: l2 /\ ak_keycode it = 8 /\ still_ours d it = Some true /\
     forall x, x ∈ l2 -> still_ours d x = Some true -> ak_keycode x = 0).
Proof. intros l d. apply (getReusableKeycode_oldest d l 8 []). by vm_compute. Defined.
