(* ===== verification/Server.v ===== *)
(** * The server's side of the connection ([lorie/cmdentrypoint.c])

    The input thread reads the events of the activity from the socket and passes
    them on: pointer, key and text events to the devices, everything that belongs
    to the server thread to the work queue. What the handler calls is the class
    [ServerParts]; the instance at the end puts the keyboard, the clipboard and
    the touch device together. *)

From Stdlib Require Import SpecFloat.
From S2P Require Import Prelude Floats Wire KeysymUcs Clipboard Keyboard Touch.

(** ** Data *)

Inductive device := lorieMouse | loriePen | lorieEraser.

#[export] Instance device_eq_dec : EqDecision device.
Proof. solve_decision. Defined.

Inductive pointer_type := MotionNotify | ButtonPress | ButtonRelease.

#[export] Instance pointer_type_eq_dec : EqDecision pointer_type.
Proof. solve_decision. Defined.

Definition POINTER_RELATIVE : Z := 2.
Definition POINTER_ABSOLUTE : Z := 4.
Definition POINTER_ACCELERATE : Z := 8.
Definition POINTER_SCREEN : Z := 16.
Definition POINTER_NORAW : Z := 32.
Definition POINTER_DESKTOP : Z := 128.

(** The arguments of [QueuePointerEvents]. *)
Record pointer_event := {
  pe_device : device; pe_type : pointer_type; pe_button : Z; pe_flags : Z; pe_mask : mask;
}.

(** The closures of [QueueWorkProc] ([sendConfigureNotify], [handleTouchEvent],
    [handleClipboardAnnounce], [handleClipboardData]). *)
Inductive work_item :=
  | WConfigure (width height framerate : Z) (name : option (list Z))
  | WTouch (type id x y : Z)
  | WAnnounce
  | WClipboard (data : list Z).

(** ** What the handler calls *)

(** The button [b] of a device after a pointer event. *)
Definition button_after (d : device) (b : Z) (e : pointer_event) (was : bool) : bool :=
  if bool_decide (pe_device e = d) && (pe_button e =? b) then
    match pe_type e with ButtonPress => true | ButtonRelease => false | MotionNotify => was end
  else was.

Class ServerParts (P : Type) := {
  sp_screen : P -> Z * Z;
  sp_pointer : pointer_event -> P -> P;
  sp_key : bool -> Z -> P -> P;
  sp_keysym : Z -> bool -> P -> option P;
  sp_clipboard_sync : bool -> P -> P;
  sp_work : work_item -> P -> option P;
  (** Which buttons are down, and that nothing but the pointer events of the
      device changes them. *)
  sp_button : device -> Z -> P -> bool;
  sp_button_pointer : forall d b e p, sp_button d b (sp_pointer e p) = button_after d b e (sp_button d b p);
  sp_button_key : forall d b down k p, sp_button d b (sp_key down k p) = sp_button d b p;
  sp_button_keysym : forall d b ks down p p', sp_keysym ks down p = Some p' -> sp_button d b p' = sp_button d b p;
  sp_button_sync : forall d b en p, sp_button d b (sp_clipboard_sync en p) = sp_button d b p;
  sp_screen_pointer : forall e p, sp_screen (sp_pointer e p) = sp_screen p;
}.

(** An event with its text, as a sender writes them. *)
Abbreviation message := (lorieEvent * list Z)%type.

Section server.
Context {P : Type} `{!ServerParts P}.
(** [reverse_keysymtab] of [ucs2keysym]. *)
Context (reverse_keysymtab : list (Z * Z)).

(** [buttons_prev] is static in the handler; [stylus] says that [loriePen] and
    [lorieEraser] exist. *)
Record Core := { buttons_prev : Z; stylus : bool; work : list work_item; parts : P }.

Definition set_parts (p : P) (c : Core) : Core :=
  {| buttons_prev := buttons_prev c; stylus := stylus c; work := work c; parts := p |}.
Definition QueueWork (w : work_item) (c : Core) : Core :=
  {| buttons_prev := buttons_prev c; stylus := stylus c; work := work c ++ [w]; parts := parts c |}.
Definition QueuePointerEvents (d : device) (t : pointer_type) (button flags : Z) (m : mask) (c : Core) : Core :=
  set_parts (sp_pointer {| pe_device := d; pe_type := t; pe_button := button; pe_flags := flags; pe_mask := m |}
               (parts c)) c.

(** ** The events *)

(** Where the handler puts a coordinate into the mask. *)
Definition clamp_coord (v : float32) (size : Z) : double :=
  f64_of_f32 (fmax (fmin v (f32_of_int size)) (f32_of_int 0)).

(** For the mouse the arguments of [max] and [min] are the other way round. *)
Definition clamp_mouse (v : float32) (size : Z) : float32 :=
  fmax (f32_of_int 0) (fmin v (f32_of_int size)).

(** The loop over the three buttons from [i] on. *)
Fixpoint stylus_buttons (n : nat) (i : Z) (d : device) (released pressed : Z) (c : Core) : Core :=
  match n with
  | O => c
  | S n =>
      let c := if Z.testbit released 0 then QueuePointerEvents d ButtonRelease (i + 1) POINTER_RELATIVE ∅ c else c in
      let c := if Z.testbit pressed 0 then QueuePointerEvents d ButtonPress (i + 1) POINTER_RELATIVE ∅ c else c in
      stylus_buttons n (i + 1) d (Z.shiftr released 1) (Z.shiftr pressed 1) c
  end.

Definition stylus_mask (d : device) (x y : float32) (pressure tilt_x tilt_y orientation : Z)
    (screen : Z * Z) (m : mask) : mask :=
  let m := <[1 := clamp_coord y screen.2]> (<[0 := clamp_coord x screen.1]> m) in
  if bool_decide (d = lorieMouse) then m
  else <[5 := f64_of_int orientation]> (<[4 := f64_of_int tilt_y]>
         (<[3 := f64_of_int tilt_x]> (<[2 := f64_of_int pressure]> m))).

Definition handle_stylus (x y : float32) (pressure tilt_x tilt_y orientation buttons eraser mouse : Z)
    (m : mask) (c : Core) : mask * Core :=
  let d := if negb (mouse =? 0) then lorieMouse else if negb (eraser =? 0) then lorieEraser else loriePen in
  if bool_decide (d <> lorieMouse) && negb (stylus c) then (m, c)
  else
    let m := stylus_mask d x y pressure tilt_x tilt_y orientation (sp_screen (parts c)) m in
    let flags := Z.lor (Z.lor POINTER_ABSOLUTE POINTER_DESKTOP) (if bool_decide (d = lorieMouse) then POINTER_NORAW else 0) in
    let c := QueuePointerEvents d MotionNotify 0 flags m c in
    let diff := Z.lxor (buttons_prev c) buttons in
    let released := Z.land diff (Z.lnot buttons) in
    let pressed := Z.land diff buttons in
    let c := stylus_buttons 3 0 d released pressed c in
    (m, {| buttons_prev := buttons; stylus := stylus c; work := work c; parts := parts c |}).

Definition scroll (axis : Z) (v : float32) (m : mask) (c : Core) : mask * Core :=
  if negb (SFeqb v (f32_of_int 0)) then
    let m := <[axis := f64_div (f64_of_f32 v) (f64_of_int 120)]> ∅ in
    (m, QueuePointerEvents lorieMouse MotionNotify 0 POINTER_RELATIVE m c)
  else (m, c).

Definition handle_mouse (x y : float32) (detail down relative : Z) (m : mask) (c : Core) : mask * Core :=
  if detail =? 0 then
    let '(w, h) := sp_screen (parts c) in
    let flags := if negb (relative =? 0) then Z.lor POINTER_RELATIVE POINTER_ACCELERATE
                 else Z.lor (Z.lor POINTER_ABSOLUTE POINTER_SCREEN) POINTER_NORAW in
    let x := if negb (relative =? 0) then x else clamp_mouse x w in
    let y := if negb (relative =? 0) then y else clamp_mouse y h in
    let m := <[1 := f64_of_f32 y]> (<[0 := f64_of_f32 x]> m) in
    (m, QueuePointerEvents lorieMouse MotionNotify 0 flags m c)
  else if (detail =? 1) || (detail =? 2) || (detail =? 3) then
    (m, QueuePointerEvents lorieMouse (if negb (down =? 0) then ButtonPress else ButtonRelease) detail POINTER_RELATIVE ∅ c)
  else if detail =? 4 then
    let '(m, c) := scroll 2 x m c in scroll 3 y m c
  else (m, c).

Definition handle_unicode (code : Z) (c : Core) : option Core :=
  ks ← ucs2keysym reverse_keysymtab code;
  p ← sp_keysym (u32 (i32 ks)) true (parts c);
  p ← sp_keysym (u32 (i32 ks)) false p;
  Some (set_parts p c).

(** The bytes that follow an event. *)
Definition payload_size (e : lorieEvent) : nat :=
  match e with
  | EVENT_SCREEN_SIZE _ _ _ n => Z.to_nat n
  | EVENT_CLIPBOARD_SEND n => Z.to_nat n
  | _ => 0%nat
  end.

(** The zeroed buffer of [calloc] with what [read] put in front. *)
Definition into_buffer (n : nat) (payload : list Z) : list Z := payload ++ replicate (n - length payload) 0.

(** One event with the bytes that were read behind it, for the mask of the call. *)
Definition handle_event (e : lorieEvent) (payload : list Z) (m : mask) (c : Core) : option (mask * Core) :=
  match e with
  | EVENT_SCREEN_SIZE w h f n =>
      let name := if n =? 0 then None else Some (into_buffer (Z.to_nat n + 1) payload) in
      Some (m, QueueWork (WConfigure w h f name) c)
  | EVENT_TOUCH type id x y => Some (m, QueueWork (WTouch type id x y) c)
  | EVENT_STYLUS x y p tx ty o b er mo =>
      Some (handle_stylus (f32_of_bits x) (f32_of_bits y) p tx ty o b er mo m c)
  | EVENT_STYLUS_ENABLE en =>
      Some (m, {| buttons_prev := buttons_prev c; stylus := negb (en =? 0); work := work c; parts := parts c |})
  | EVENT_MOUSE x y d dn r => Some (handle_mouse (f32_of_bits x) (f32_of_bits y) d dn r m c)
  | EVENT_KEY k st => Some (m, set_parts (sp_key (negb (st =? 0)) k (parts c)) c)
  | EVENT_UNICODE code => c ← handle_unicode code c; Some (m, c)
  | EVENT_CLIPBOARD_ENABLE en => Some (m, set_parts (sp_clipboard_sync (negb (en =? 0)) (parts c)) c)
  | EVENT_CLIPBOARD_ANNOUNCE => Some (m, QueueWork WAnnounce c)
  | EVENT_CLIPBOARD_SEND n => Some (m, QueueWork (WClipboard (into_buffer (Z.to_nat n + 1) payload)) c)
  | _ => Some (m, c)
  end.

(** ** The byte stream *)

(** A socket: the bytes that have arrived, and those on their way in the pieces that
    arrive at once (one [write] of the sender each, as long as it fits the socket). *)
Record Stream := { avail : list Z; coming : list (list Z) }.

(** [inputs] has the sockets; [ticks] says how many pieces arrive before each of the
    next system calls. *)
Record Server := { conn_fd : Z; inputs : gmap Z Stream; ticks : list nat; registered : list Z; core : Core }.

Definition stream_of (fd : Z) (s : Server) : Stream := default {| avail := []; coming := [] |} (inputs s !! fd).

Definition set_stream (fd : Z) (l : Stream) (s : Server) : Server :=
  {| conn_fd := conn_fd s; inputs := <[fd := l]> (inputs s); ticks := ticks s; registered := registered s; core := core s |}.
Definition set_core (c : Core) (s : Server) : Server :=
  {| conn_fd := conn_fd s; inputs := inputs s; ticks := ticks s; registered := registered s; core := c |}.

Definition arrive (n : nat) (l : Stream) : Stream :=
  {| avail := avail l ++ concat (take n (coming l)); coming := drop n (coming l) |}.

(** What arrives before a system call on [fd]. *)
Definition tick (fd : Z) (s : Server) : Server :=
  set_stream fd (arrive (hd 0%nat (ticks s)) (stream_of fd s))
    {| conn_fd := conn_fd s; inputs := inputs s; ticks := tl (ticks s); registered := registered s; core := core s |}.

(** A blocking call waits for the next piece when nothing has arrived. *)
Definition wait (l : Stream) : Stream := match avail l with [] => arrive 1 l | _ => l end.

(** [read] of at most [n] bytes from a blocking socket: it returns what is there, which
    may be less than [n]. *)
Definition read (fd : Z) (n : nat) (s : Server) : list Z * Server :=
  let s := tick fd s in
  match n with
  | O => ([], s)
  | _ => let l := wait (stream_of fd s) in
         (take n (avail l), set_stream fd {| avail := drop n (avail l); coming := coming l |} s)
  end.

(** [ioctl] of [FIONREAD]. *)
Definition readable (fd : Z) (s : Server) : nat * Server :=
  let s := tick fd s in (length (avail (stream_of fd s)), s).

(** The text of a clipboard event is read from [conn_fd], not from [fd]. *)
Definition payload_fd (fd : Z) (e : lorieEvent) (s : Server) : Z :=
  match e with EVENT_CLIPBOARD_SEND _ => conn_fd s | _ => fd end.

(** The rounds of [again]; [None] when [fuel] rounds are not enough or a handler fails. *)
Fixpoint events_loop (fuel : nat) (fd : Z) (m : mask) (s : Server) : option Server :=
  match fuel with
  | O => None
  | S fuel =>
      let '(b, s) := read fd event_size s in
      if decide (length b = event_size) then
        let e := decode b in
        let '(payload, s) := read (payload_fd fd e s) (payload_size e) s in
        r ← handle_event e payload m (core s);
        let s := set_core r.2 s in
        let '(n, s) := readable fd s in
        if decide (event_size < n)%nat then events_loop fuel fd r.1 s else Some s
      else Some s
  end.

(** The bytes of a socket: no call handles more events than there are bytes. *)
Definition bytes_left (fd : Z) (s : Server) : nat :=
  length (avail (stream_of fd s)) + length (concat (coming (stream_of fd s))).

(** The callback of the input thread; [error] is [ready & X_NOTIFY_ERROR]. The loop
    over the registered buffers takes each one out of its list. *)
Definition handleLorieEvents (fd : Z) (error : bool) (s : Server) : option Server :=
  if error then
    Some {| conn_fd := -1; inputs := delete fd (inputs s); ticks := ticks s; registered := [];
            core := set_parts (sp_clipboard_sync false (parts (core s))) (core s) |}
  else events_loop (S (bytes_left fd s)) fd ∅ s.

(** The input thread polls the socket, and calls back as long as bytes are readable or
    on their way. *)
Fixpoint input_thread (fuel : nat) (fd : Z) (s : Server) : option Server :=
  let s := tick fd s in
  match avail (wait (stream_of fd s)) with
  | [] => Some s
  | _ => match fuel with
         | O => None
         | S fuel => s ← handleLorieEvents fd false s; input_thread fuel fd s
         end
  end.

(** [addFd]: the connection of a new activity. *)
Definition addFd (fd : Z) (s : Server) : Server :=
  {| conn_fd := fd; inputs := <[fd := {| avail := []; coming := [] |}]> (inputs s); ticks := ticks s;
     registered := registered s; core := core s |}.

(** The server thread runs the queued procedures in order. *)
Fixpoint run_work (ws : list work_item) (p : P) : option P :=
  match ws with
  | [] => Some p
  | w :: ws => p ← sp_work w p; run_work ws p
  end.

Definition ProcessWork (c : Core) : option Core :=
  p ← run_work (work c) (parts c);
  Some {| buttons_prev := buttons_prev c; stylus := stylus c; work := []; parts := p |}.

(** ** Messages *)


Definition message_ok (m : message) : Prop := fits m.1 /\ length m.2 = payload_size m.1.

(** The sender writes an event and then its text, if it has one. *)
Definition writes (ms : list message) : list (list Z) :=
  concat (map (fun m => encode m.1 :: (if decide (m.2 = []) then [] else [m.2])) ms).

(** Nothing of these pieces was read; some of them may have arrived. *)
Definition unread (ws : list (list Z)) (l : Stream) : Prop :=
  exists k, avail l = concat (take k ws) /\ coming l = drop k ws.

(** The messages are handled in order, each one once, the first one with the mask
    [m] and the others with the mask that the one before left or with an empty one. *)
Inductive handled : mask -> list message -> Core -> Core -> Prop :=
  | handled_nil m c : handled m [] c c
  | handled_cons m e p ms m1 m2 c c1 c2 :
      handle_event e p m c = Some (m1, c1) -> m2 = m1 \/ m2 = ∅ ->
      handled m2 ms c1 c2 -> handled m ((e, p) :: ms) c c2.

(** Handling the messages in order fails at the first one whose handler fails, which
    only the handler of a character can. *)
Inductive fails : mask -> list message -> Core -> Prop :=
  | fails_here m code p ms c : handle_unicode code c = None -> fails m ((EVENT_UNICODE code, p) :: ms) c
  | fails_later m e p ms m1 m2 c c1 :
      handle_event e p m c = Some (m1, c1) -> m2 = m1 \/ m2 = ∅ -> fails m2 ms c1 -> fails m ((e, p) :: ms) c.

(** ** Lemmas on the stream *)

Lemma stream_set fd l s : stream_of fd (set_stream fd l s) = l.
Proof. unfold stream_of, set_stream. cbn. by rewrite lookup_insert_eq. Qed.

Lemma stream_set_ne fd fd' l s : fd' <> fd -> stream_of fd' (set_stream fd l s) = stream_of fd' s.
Proof. intros H. unfold stream_of, set_stream. cbn. by rewrite lookup_insert_ne. Qed.

(** What a system call on [fd] leaves alone. *)
Record same (fd : Z) (s s' : Server) : Prop := {
  same_conn : conn_fd s' = conn_fd s;
  same_core : core s' = core s;
  same_other : forall fd', fd' <> fd -> stream_of fd' s' = stream_of fd' s;
}.

Lemma same_trans fd s1 s2 s3 : same fd s1 s2 -> same fd s2 s3 -> same fd s1 s3.
Proof. intros [C1 D1 O1] [C2 D2 O2]. split; [congruence..|]. intros fd' H. rewrite O2 by done. by apply O1. Qed.

Lemma tick_same fd s : same fd s (tick fd s).
Proof. split; [done..|]. intros fd' H. unfold tick. by rewrite stream_set_ne. Qed.

Lemma set_stream_same fd l s : same fd s (set_stream fd l s).
Proof. split; [done..|]. intros fd' H. by rewrite stream_set_ne. Qed.

Lemma arrive_unread n ws l : unread ws l -> unread ws (arrive n l).
Proof.
  intros (k & Ha & Hc). exists (k + n)%nat. cbn [avail coming arrive]. rewrite Ha, Hc, drop_drop. split; [|done].
  by rewrite <- concat_app, take_take_drop.
Qed.

Lemma tick_unread fd ws s : unread ws (stream_of fd s) -> unread ws (stream_of fd (tick fd s)).
Proof. intros H. unfold tick. rewrite stream_set. by apply arrive_unread. Qed.

Lemma wait_unread ws l : unread ws l -> unread ws (wait l).
Proof. intros H. unfold wait. destruct (avail l); [by apply arrive_unread|done]. Qed.

(** The piece that is next is there after waiting. *)
Lemma wait_piece c ws l : c <> [] -> unread (c :: ws) l ->
  exists rest, avail (wait l) = c ++ rest /\ unread ws {| avail := rest; coming := coming (wait l) |}.
Proof.
  intros Hc Hu.
  assert (exists k, avail (wait l) = concat (take (S k) (c :: ws)) /\ coming (wait l) = drop (S k) (c :: ws)) as (k & Ha & Hd).
  { destruct Hu as ([|k] & Ha & Hd).
    - exists 0%nat. cbn in Ha, Hd. unfold wait. rewrite Ha. cbn. by rewrite Ha, Hd.
    - exists k. unfold wait. destruct (avail l) eqn:E; [|by rewrite E].
      destruct c; [done|]. discriminate. }
  exists (concat (take k ws)). split; [by rewrite Ha|]. by exists k.
Qed.

Lemma wait_empty ws l : Forall (fun c => c <> []) ws -> unread ws l -> avail (wait l) = [] -> ws = [].
Proof.
  intros Hw Hu He. destruct ws as [|c ws]; [done|]. apply Forall_cons in Hw as [Hc _].
  destruct (wait_piece c ws l Hc Hu) as (r & Hr & _). rewrite He in Hr. by destruct c.
Qed.

Lemma read_piece fd c ws s : c <> [] -> unread (c :: ws) (stream_of fd s) ->
  exists s', read fd (length c) s = (c, s') /\ unread ws (stream_of fd s') /\ same fd s s'.
Proof.
  intros Hc Hu. apply tick_unread in Hu. destruct (wait_piece c ws _ Hc Hu) as (rest & Ha & Hr).
  unfold read. destruct (length c) eqn:El; [by destruct c|]. rewrite <- El, Ha, take_app_length, drop_app_length.
  eexists. split; [done|]. split; [by rewrite stream_set|]. eapply same_trans; [apply tick_same|apply set_stream_same].
Qed.

Lemma read_nothing fd ws s : unread ws (stream_of fd s) ->
  exists s', read fd 0 s = ([], s') /\ unread ws (stream_of fd s') /\ same fd s s'.
Proof. intros Hu. eexists. split; [done|]. split; [by apply tick_unread|apply tick_same]. Qed.

Lemma encode_piece e : encode e <> [].
Proof. intros H. apply (f_equal length) in H. by rewrite encode_length in H. Qed.

Lemma writes_cons e p ms : writes ((e, p) :: ms) = encode e :: (if decide (p = []) then [] else [p]) ++ writes ms.
Proof. done. Qed.

Lemma writes_pieces ms : Forall (fun c => c <> []) (writes ms).
Proof.
  induction ms as [|[e p] ms IH]; [constructor|]. rewrite writes_cons. constructor; [apply encode_piece|].
  case_decide; [done|]. by constructor.
Qed.

Lemma writes_length ms : (length ms <= length (concat (writes ms)))%nat.
Proof.
  induction ms as [|[e p] ms IH]; [simpl; lia|]. rewrite writes_cons. cbn [concat length].
  rewrite length_app, encode_length, concat_app, length_app. unfold event_size. lia.
Qed.

Lemma unread_length ws l : unread ws l -> (length (avail l) + length (concat (coming l)) = length (concat ws))%nat.
Proof. intros (k & -> & ->). by rewrite <- length_app, <- concat_app, take_drop. Qed.

Lemma unread_nil l : unread [] l -> avail l = [] /\ coming l = [].
Proof. intros (k & -> & ->). by rewrite take_nil, drop_nil. Qed.

Lemma payload_fd_conn fd e s : conn_fd s = fd -> payload_fd fd e s = fd.
Proof. by destruct e. Qed.

(** The two reads of a round, when a whole message is to come. *)
Lemma read_message fd e p ms s : message_ok (e, p) -> conn_fd s = fd -> unread (writes ((e, p) :: ms)) (stream_of fd s) ->
  exists s1 s2, read fd event_size s = (encode e, s1) /\
    read (payload_fd fd (decode (encode e)) s1) (payload_size (decode (encode e))) s1 = (p, s2) /\
    unread (writes ms) (stream_of fd s2) /\ same fd s s2.
Proof.
  intros [Hf Hp] Hc Hu. cbn [fst snd] in Hf, Hp. rewrite writes_cons in Hu.
  destruct (read_piece fd _ _ s (encode_piece e) Hu) as (s1 & H1 & Hu1 & Hs1). rewrite encode_length in H1.
  exists s1. rewrite decode_encode, payload_fd_conn, <- Hp by (done || by rewrite (same_conn _ _ _ Hs1)).
  case_decide as Hd.
  - subst p. cbn [app] in Hu1. destruct (read_nothing fd _ s1 Hu1) as (s2 & H2 & Hu2 & Hs2).
    exists s2. split_and!; [done..|by eapply same_trans].
  - cbn [app] in Hu1. destruct (read_piece fd _ _ s1 Hd Hu1) as (s2 & H2 & Hu2 & Hs2).
    exists s2. split_and!; [done..|by eapply same_trans].
Qed.

Lemma handle_event_fails e p m c : handle_event e p m c = None ->
  exists code, e = EVENT_UNICODE code /\ handle_unicode code c = None.
Proof.
  destruct e; try done. cbn [handle_event]. destruct (handle_unicode code c) eqn:E; [done|]. by eexists.
Qed.

(** What some rounds of the handler leave: the messages [ms] are handled up to [rest]. *)
Record progress (fd : Z) (m : mask) (ms rest : list message) (s s' : Server) : Prop := {
  pr_suffix : exists d, ms = d ++ rest /\ d <> [];
  pr_unread : unread (writes rest) (stream_of fd s');
  pr_conn : conn_fd s' = conn_fd s;
  pr_other : forall fd', fd' <> fd -> stream_of fd' s' = stream_of fd' s;
  pr_handled : forall c, handled ∅ rest (core s') c -> handled m ms (core s) c;
  pr_fails : fails ∅ rest (core s') -> fails m ms (core s);
}.

Lemma events_loop_progress fuel fd ms m s : Forall message_ok ms -> ms <> [] -> (length ms <= fuel)%nat ->
  conn_fd s = fd -> unread (writes ms) (stream_of fd s) ->
  match events_loop fuel fd m s with
  | Some s' => exists rest, progress fd m ms rest s s'
  | None => fails m ms (core s)
  end.
Proof.
  intros Hms. revert fuel m s. induction Hms as [|[e p] ms Hm Hms IH]; intros fuel m s Hne Hf Hc Hu; [done|].
  destruct fuel as [|fuel]; [simpl in Hf; lia|].
  destruct (read_message fd e p ms s Hm Hc Hu) as (s1 & s2 & H1 & H2 & Hu2 & Hs).
  cbn [events_loop]. rewrite H1, decide_True by apply encode_length. rewrite H2. rewrite decode_encode by apply Hm.
  rewrite (same_core _ _ _ Hs).
  destruct (handle_event e p m (core s)) as [[m1 c1]|] eqn:E; cbn [mbind option_bind fst snd]; cycle 1.
  { apply handle_event_fails in E as (code & -> & E). by constructor. }
  unfold readable. set (s3 := tick fd (set_core c1 s2)).
  assert (Hu3 : unread (writes ms) (stream_of fd s3)) by (by apply tick_unread).
  assert (Hc3 : conn_fd s3 = conn_fd s) by apply (same_conn _ _ _ Hs).
  assert (Ho3 : forall fd', fd' <> fd -> stream_of fd' s3 = stream_of fd' s).
  { intros fd' Hne'. rewrite (same_other _ _ _ (tick_same fd (set_core c1 s2))) by done. by apply (same_other _ _ _ Hs). }
  case_decide as Hd; cycle 1.
  { exists ms. split; [by exists [(e, p)]|done..| |].
    - intros c Hh. eapply handled_cons; [exact E|by right|exact Hh].
    - intros Hh. eapply fails_later; [exact E|by right|exact Hh]. }
  specialize (IH fuel m1 s3). destruct ms as [|mm ms]; [destruct (unread_nil _ Hu3) as [Hn _]; rewrite Hn in Hd; simpl in Hd; lia|].
  destruct (events_loop fuel fd m1 s3) as [s'|].
  - destruct IH as (rest & [(d & Hsd & Hdn) Hr Hcc Ho Hh Hfl]); [done|simpl in Hf |- *; lia|congruence|done|].
    exists rest. split; [exists ((e, p) :: d); by rewrite Hsd|done|congruence|intros fd' Hn; rewrite Ho by done; by apply Ho3| |].
    + intros c Hx. eapply handled_cons; [exact E|by left|by apply Hh].
    + intros Hx. eapply fails_later; [exact E|by left|by apply Hfl].
  - eapply fails_later; [exact E|by left|]. apply IH; [done|simpl in Hf |- *; lia|congruence|done].
Qed.

(** ** Lemmas on the buttons of the stylus *)

(** The buttons 1 to 3 of a device are those of the last event. *)
Definition buttons_tracked (d : device) (c : Core) : Prop :=
  forall b, 1 <= b <= 3 -> sp_button d b (parts c) = Z.testbit (buttons_prev c) (b - 1).

(** Messages that leave the pen to the pen: no other stylus device, no device removed. *)
Definition pen_only (ms : list message) : Prop :=
  Forall (fun m => match m.1 with
                   | EVENT_STYLUS _ _ _ _ _ _ _ er mo => er = 0 /\ mo = 0
                   | EVENT_STYLUS_ENABLE _ => False
                   | _ => True
                   end) ms.

Lemma button_queue d b d' t n fl m c :
  sp_button d b (parts (QueuePointerEvents d' t n fl m c))
  = button_after d b {| pe_device := d'; pe_type := t; pe_button := n; pe_flags := fl; pe_mask := m |}
      (sp_button d b (parts c)).
Proof. apply sp_button_pointer. Qed.

Lemma button_other d b d' t n fl m c : d' <> d ->
  sp_button d b (parts (QueuePointerEvents d' t n fl m c)) = sp_button d b (parts c).
Proof. intros H. rewrite button_queue. unfold button_after. cbn [pe_device]. by rewrite bool_decide_eq_false_2. Qed.

Lemma stylus_button_step n i d released pressed c b :
  sp_button d b (parts (stylus_buttons (S n) i d released pressed c))
  = sp_button d b (parts (stylus_buttons n (i + 1) d (Z.shiftr released 1) (Z.shiftr pressed 1) 
      (let c := if Z.testbit released 0 then QueuePointerEvents d ButtonRelease (i + 1) POINTER_RELATIVE ∅ c else c in
       if Z.testbit pressed 0 then QueuePointerEvents d ButtonPress (i + 1) POINTER_RELATIVE ∅ c else c))).
Proof. done. Qed.

Lemma stylus_button_pair d released pressed i c b :
  sp_button d b (parts (let c := if released : bool then QueuePointerEvents d ButtonRelease i POINTER_RELATIVE ∅ c else c in
       if pressed : bool then QueuePointerEvents d ButtonPress i POINTER_RELATIVE ∅ c else c))
  = if i =? b then (if pressed then true else if released then false else sp_button d b (parts c))
    else sp_button d b (parts c).
Proof.
  destruct released, pressed; cbn zeta iota; rewrite ?button_queue; unfold button_after; cbn [pe_device pe_button pe_type];
    rewrite ?bool_decide_eq_true_2 by done; cbn [andb]; by destruct (i =? b).
Qed.

Lemma stylus_buttons_result d released pressed c b : 1 <= b <= 3 ->
  sp_button d b (parts (stylus_buttons 3 0 d released pressed c))
  = if Z.testbit pressed (b - 1) then true
    else if Z.testbit released (b - 1) then false else sp_button d b (parts c).
Proof.
  intros Hb. rewrite !stylus_button_step. cbn [stylus_buttons]. rewrite !stylus_button_pair.
  rewrite !Z.shiftr_spec by lia. assert (b = 1 \/ b = 2 \/ b = 3) as [-> | [-> | ->]] by lia; reflexivity.
Qed.

Lemma stylus_buttons_prev n i d released pressed c : buttons_prev (stylus_buttons n i d released pressed c) = buttons_prev c.
Proof. revert i released pressed c. induction n as [|n IH]; intros; [done|]. cbn [stylus_buttons]. rewrite IH. by repeat case_match. Qed.

Lemma stylus_tracked x y p tx ty o b m c : buttons_tracked loriePen c ->
  buttons_tracked loriePen (handle_stylus x y p tx ty o b 0 0 m c).2.
Proof.
  intros H. unfold handle_stylus. cbn [Z.eqb negb]. case_match; [done|]. intros k Hk. cbn [snd parts buttons_prev].
  rewrite stylus_buttons_result by done. rewrite button_queue. unfold button_after. cbn [pe_type pe_device pe_button].
  rewrite (H k Hk). rewrite !Z.land_spec, Z.lnot_spec, Z.lxor_spec by lia. cbn [buttons_prev QueuePointerEvents set_parts].
  by destruct (Z.testbit (buttons_prev c) (k - 1)), (Z.testbit b (k - 1)), (bool_decide _), (0 =? k).
Qed.

Lemma mouse_tracked x y d dn r m c : buttons_tracked loriePen c ->
  buttons_tracked loriePen (handle_mouse x y d dn r m c).2.
Proof.
  intros H k Hk. specialize (H k Hk). unfold handle_mouse, scroll. destruct (sp_screen (parts c)).
  repeat case_match; simplify_eq; cbn [snd fst]; rewrite ?button_other by done; done.
Qed.

Lemma event_tracked e p m c m1 c1 : handle_event e p m c = Some (m1, c1) -> pen_only [(e, p)] ->
  buttons_tracked loriePen c -> buttons_tracked loriePen c1.
Proof.
  intros H Hp Hc. apply Forall_cons in Hp as [Hp _]. cbn [fst] in Hp.
  destruct e; cbn [handle_event] in H; try (by injection H as <- <-); try done.
  - injection H as H. replace c1 with (handle_mouse (f32_of_bits x) (f32_of_bits y) detail down relative m c).2 by by rewrite H.
    by apply mouse_tracked.
  - injection H as <- <-. intros b Hb. cbn [parts set_parts]. rewrite sp_button_key. by apply Hc.
  - destruct Hp as [-> ->]. injection H as H.
    replace c1 with (handle_stylus (f32_of_bits x) (f32_of_bits y) pressure tilt_x tilt_y orientation buttons 0 0 m c).2 by by rewrite H.
    by apply stylus_tracked.
  - unfold handle_unicode in H. destruct (ucs2keysym _ _) as [ks|]; [|done]. cbn [mbind option_bind] in H.
    destruct (sp_keysym _ true _) as [p1|] eqn:E1; [|done]. cbn [mbind option_bind] in H.
    destruct (sp_keysym _ false p1) as [p2|] eqn:E2; [|done]. injection H as <- <-.
    intros b Hb. cbn [parts set_parts]. rewrite (sp_button_keysym _ _ _ _ _ _ E2), (sp_button_keysym _ _ _ _ _ _ E1). by apply Hc.
  - injection H as <- <-. intros b Hb. cbn [parts set_parts]. rewrite sp_button_sync. by apply Hc.
Qed.

(** ** Theorems *)

(** C1: whatever messages come over the current connection, and whenever their pieces (each
    event and each text arrives at once) arrive before, between and during the calls of the
    handler, the input thread reads them without losing the boundaries, handles each one once
    and in the order of sending, and leaves nothing unread; it stops early exactly when handling
    the messages in order meets a character whose handler fails. *)
Theorem input_thread_delivers fuel fd ms s :
  Forall message_ok ms -> conn_fd s = fd -> unread (writes ms) (stream_of fd s) -> (length ms <= fuel)%nat ->
  match input_thread fuel fd s with
  | Some s' => stream_of fd s' = {| avail := []; coming := [] |} /\ handled ∅ ms (core s) (core s') /\
      (forall fd', fd' <> fd -> stream_of fd' s' = stream_of fd' s)
  | None => fails ∅ ms (core s)
  end.
Proof.
  revert ms s. induction fuel as [|fuel IH]; intros ms s Hms Hc Hu Hf;
    (assert (Hu1 : unread (writes ms) (stream_of fd (tick fd s))) by (by apply tick_unread));
    cbn [input_thread]; destruct (avail (wait (stream_of fd (tick fd s)))) as [|b l] eqn:Ea;
    try (destruct ms as [|[e p] ms]; [clear Hf|apply (wait_empty _ _ (writes_pieces _) Hu1) in Ea; discriminate]);
    try (simpl in Hf; lia).
  1,3: destruct (unread_nil _ Hu1) as [H1 H2]; split_and!;
    [destruct (stream_of fd (tick fd s)); cbn in *; congruence|constructor|apply tick_same].
  { exfalso. destruct ms; [|simpl in Hf; lia]. destruct (unread_nil _ Hu1) as [H1 H2]. unfold wait in Ea.
    rewrite H1 in Ea. cbn in Ea. by rewrite H1, H2 in Ea. }
  assert (Hne : ms <> []).
  { intros ->. destruct (unread_nil _ Hu1) as [H1 H2]. unfold wait in Ea. rewrite H1 in Ea. cbn in Ea. by rewrite H1, H2 in Ea. }
  assert (Hlen : (length ms <= S (bytes_left fd (tick fd s)))%nat).
  { unfold bytes_left. rewrite (unread_length _ _ Hu1). pose proof (writes_length ms). lia. }
  pose proof (events_loop_progress _ fd ms ∅ (tick fd s) Hms Hne Hlen Hc Hu1) as E. unfold handleLorieEvents.
  destruct (events_loop _ fd ∅ (tick fd s)) as [s1|]; cbn [mbind option_bind]; [|done].
  destruct E as (rest & [(d & -> & Hd) Hr Hcc Ho Hh Hfl]). apply Forall_app in Hms as [_ Hms].
  specialize (IH rest s1 Hms ltac:(by rewrite Hcc) Hr). destruct d; [done|]. rewrite length_app in Hf. cbn [length] in Hf.
  destruct (input_thread fuel fd s1) as [s'|].
  - destruct IH as (H1 & H2 & H3); [lia|]. split_and!; [done|by apply Hh|].
    intros fd' Hn. rewrite H3, Ho by done. by apply (same_other _ _ _ (tick_same fd s)).
  - apply Hfl, IH. lia.
Qed.

(** C0: as long as only the pen is used, its buttons 1 to 3 are down in the X server exactly when
    the last stylus event says so, whatever other messages come in between. *)
Theorem pen_buttons_follow ms m c c' :
  handled m ms c c' -> pen_only ms -> buttons_tracked loriePen c -> buttons_tracked loriePen c'.
Proof.
  induction 1 as [|m e p ms m1 m2 c c1 c2 H _ _ IH]; intros Hp Hc; [done|].
  apply Forall_cons in Hp as [Hp Hps]. apply IH; [done|]. eapply event_tracked; [done| |done]. by repeat constructor.
Qed.

(** The mask is not cleared between the events of one call: a motion that arrives together
    with the scroll event before it scrolls once more by the same amount, and one that is
    handled in a call of its own does not. *)
Theorem motion_repeats_scroll y dx dy dn dn' r r' c :
  SFeqb (f32_of_bits y) (f32_of_int 0) = false ->
  let scroll_ev := EVENT_MOUSE 0 y 4 dn r in
  let move_ev := EVENT_MOUSE dx dy 0 dn' r' in
  exists m1 c1, handle_event scroll_ev [] ∅ c = Some (m1, c1) /\
    (exists e m2, handle_event move_ev [] m1 c1 = Some (m2, set_parts (sp_pointer e (parts c1)) c1) /\
       pe_type e = MotionNotify /\ pe_mask e !! 3 = Some (f64_div (f64_of_f32 (f32_of_bits y)) (f64_of_int 120))) /\
    (exists e m2, handle_event move_ev [] ∅ c1 = Some (m2, set_parts (sp_pointer e (parts c1)) c1) /\
       pe_type e = MotionNotify /\ pe_mask e !! 3 = None).
Proof.
  intros Hy scroll_ev move_ev. unfold scroll_ev, move_ev. cbn [handle_event handle_mouse Z.eqb Pos.eqb orb].
  unfold scroll. change (SFeqb (f32_of_bits 0) (f32_of_int 0)) with true. rewrite Hy. cbn [negb].
  eexists _, _. split; [done|]. unfold QueuePointerEvents.
  destruct (sp_screen _) as [w h]. split; eexists _, _; (split; [done|]); cbn [pe_type pe_mask]; (split; [done|]).
  - by rewrite !lookup_insert_ne, lookup_insert_eq by done.
  - by rewrite !lookup_insert_ne by done.
Qed.

End server.

(** ** The parts of the display server put together *)

(** The rest of the X server, as the components take it: the keyboard state, the
    atoms, the clock and the access checks of the clipboard. *)
Record XServer := {
  core_state : XkbMap.XkbDesc -> list kev -> Z; key_is_down : list kev -> Z -> bool;
  xaTIMESTAMP : Z; xaTEXT : Z; xaCLIPBOARD : Z; xaTARGETS : Z; xaSTRING : Z; xaUTF8_STRING : Z;
  root : Z; now : Z;
  sel_access : Z -> Z -> Z; lookup_window : Z -> Z -> Z; change_property : Z -> Z -> Z;
}.

Record Parts := {
  kbd : Keyboard; clipboard : Clip; touch : TouchDevice; screen : Z * Z;
  pointer : list pointer_event; configured : list work_item;
}.

Definition set_kbd k p := {| kbd := k; clipboard := clipboard p; touch := touch p; screen := screen p;
  pointer := pointer p; configured := configured p |}.
Definition set_clipboard c p := {| kbd := kbd p; clipboard := c; touch := touch p; screen := screen p;
  pointer := pointer p; configured := configured p |}.
Definition set_touch t p := {| kbd := kbd p; clipboard := clipboard p; touch := t; screen := screen p;
  pointer := pointer p; configured := configured p |}.

Section parts.
Context (X : XServer).

(** [GetKeyboardEvents] refuses key codes outside of 8 to 255. *)
Definition queue_key (down : bool) (k : Z) (p : Parts) : Parts :=
  if (k <? 8) || (255 <? k) then p
  else set_kbd (QueueKeyboardEvents [if down then KeyPress k else KeyRelease k] (kbd p)) p.

Definition do_work (w : work_item) (p : Parts) : option Parts :=
  match w with
  | WConfigure _ _ _ _ =>
      Some {| kbd := kbd p; clipboard := clipboard p; touch := touch p; screen := screen p;
              pointer := pointer p; configured := configured p ++ [w] |}
  | WTouch type id x y =>
      Some (set_touch (handleTouchEvent true (screen p).1 (screen p).2 (type, id, x, y) (touch p)) p)
  | WAnnounce =>
      c ← lorieHandleClipboardAnnounce (xaCLIPBOARD X) (xaTARGETS X) (root X) (now X) (sel_access X) true (clipboard p);
      Some (set_clipboard c p)
  | WClipboard data =>
      c ← lorieHandleClipboardData (xaTIMESTAMP X) (xaTEXT X) (xaTARGETS X) (xaSTRING X) (xaUTF8_STRING X)
            (sel_access X) (lookup_window X) (change_property X) (length (pending (clipboard p))) true (Some data) (clipboard p);
      Some (set_clipboard c p)
  end.

#[export] Program Instance display_parts : ServerParts Parts := {|
  sp_screen := screen;
  sp_pointer e p := {| kbd := kbd p; clipboard := clipboard p; touch := touch p; screen := screen p;
                       pointer := pointer p ++ [e]; configured := configured p |};
  sp_key := queue_key;
  sp_keysym ks down p := k ← lorieKeysymKeyboardEvent (core_state X) (key_is_down X) true true (kbd p) ks down;
                         Some (set_kbd k p);
  sp_clipboard_sync enable p := set_clipboard (lorieEnableClipboardSync enable (clipboard p)) p;
  sp_work := do_work;
  sp_button d b p := foldl (fun was e => button_after d b e was) false (pointer p);
|}.
Next Obligation. intros d b e p. cbn. by rewrite foldl_snoc. Qed.
Next Obligation. intros d b down k p. unfold queue_key. by case_match. Qed.
Next Obligation.
  intros d b ks down p p' H. cbn beta in H.
  destruct (lorieKeysymKeyboardEvent (core_state X) (key_is_down X) true true (kbd p) ks down); [|done]. by injection H as <-.
Qed.
Next Obligation. done. Qed.
Next Obligation. done. Qed.

End parts.

(** ** Witnesses *)

Definition demo_x : XServer :=
  {| core_state := demo_state; key_is_down := demo_down;
     xaTIMESTAMP := 2; xaTEXT := 3; xaCLIPBOARD := 1; xaTARGETS := 4; xaSTRING := 5; xaUTF8_STRING := 6;
     root := 100; now := 0; sel_access := yes; lookup_window := yes; change_property := yes |}.

#[local] Instance demo_instance : ServerParts Parts := display_parts demo_x.

Definition demo_parts : Parts :=
  {| kbd := demo_keyboard; clipboard := demo_clip; touch := demo_device; screen := (1280, 720);
     pointer := []; configured := [] |}.

Definition demo_core : Core := {| buttons_prev := 0; stylus := true; work := []; parts := demo_parts |}.

(** A window change, the key A, a character, a scroll by 120, a motion and a text for
    the clipboard. *)
Definition demo_messages : list message :=
  [(EVENT_SCREEN_SIZE 1280 720 60 3, [119; 105; 110]); (EVENT_KEY 38 1, []); (EVENT_UNICODE 97, []);
   (EVENT_MOUSE 0 0x42f00000 4 0 0, []); (EVENT_MOUSE 0x41200000 0x41200000 0 0 1, []); (EVENT_CLIPBOARD_SEND 2, [104; 105])].

(** The first event has arrived without its text, and the other pieces come one by one,
    two at once, and while the handler runs. *)
Definition demo_server : Server :=
  {| conn_fd := 5; inputs := {[5 := {| avail := concat (take 1 (writes demo_messages)); coming := drop 1 (writes demo_messages) |}]};
     ticks := [0; 0; 0; 0; 2; 0; 1; 0; 0; 1]%nat; registered := []; core := demo_core |}.

Lemma input_thread_delivers_witness :
  match input_thread sorted_by_ucs 6 5 demo_server with
  | Some s' => stream_of 5 s' = {| avail := []; coming := [] |} /\ handled sorted_by_ucs ∅ demo_messages demo_core (core s') /\
      (forall fd', fd' <> 5 -> stream_of fd' s' = stream_of fd' demo_server)
  | None => fails sorted_by_ucs ∅ demo_messages demo_core
  end.
Proof.
  apply (input_thread_delivers sorted_by_ucs 6 5 demo_messages demo_server);
    [|reflexivity|by exists 1%nat|simpl; lia].
  repeat constructor; cbn; lia.
Defined.

(** The run of the witness ends, with two works queued and the scroll not repeated, since
    the motion is handled by a call of its own. *)
Example demo_run :
  match input_thread sorted_by_ucs 6 5 demo_server with
  | Some s' => length (work (core s')) = 2%nat /\
      map (fun e => bool_decide (is_Some (pe_mask e !! 3))) (pointer (parts (core s'))) = [true; false]
  | None => False
  end.
Proof. by vm_compute. Qed.

(** A text that arrives in two pieces (one larger than what the socket takes at once) is cut
    short, and its second piece is taken for an event. *)
Example late_piece_desynchronises :
  let p1 := [104; 105] in let p2 := encode (EVENT_KEY 38 1) in
  let s := {| conn_fd := 5; inputs := {[5 := {| avail := []; coming := [encode (EVENT_CLIPBOARD_SEND 26); p1; p2] |}]};
              ticks := []; registered := []; core := demo_core |} in
  exists s', input_thread sorted_by_ucs 5 5 s = Some s' /\
    work (core s') = [WClipboard (p1 ++ replicate 25 0)] /\ Keyboard.queued (kbd (parts (core s'))) = [KeyPress 38].
Proof. eexists. split; [by vm_compute|]. by vm_compute. Qed.

Definition pen_messages : list message :=
  [(EVENT_STYLUS 0x42c80000 0x42c80000 500 0 0 0 1 0 0, []); (EVENT_KEY 38 1, []);
   (EVENT_STYLUS 0x42c80000 0x42c80000 500 0 0 0 2 0 0, [])].

Lemma pen_run : { c | handled sorted_by_ucs ∅ pen_messages demo_core c }.
Proof.
  eexists. eapply handled_cons; [by vm_compute|by right|]. eapply handled_cons; [reflexivity|by right|].
  eapply handled_cons; [reflexivity|by left|]. apply handled_nil.
Defined.

Lemma pen_buttons_follow_witness : buttons_tracked loriePen (proj1_sig pen_run).
Proof.
  apply (pen_buttons_follow sorted_by_ucs pen_messages ∅ demo_core (proj1_sig pen_run));
    [exact (proj2_sig pen_run)|repeat constructor|].
  intros b Hb. assert (b = 1 \/ b = 2 \/ b = 3) as [-> | [-> | ->]] by lia; reflexivity.
Defined.

Lemma motion_repeats_scroll_witness :
  exists m1 c1, handle_event sorted_by_ucs (EVENT_MOUSE 0 0x42f00000 4 0 0) [] ∅ demo_core = Some (m1, c1) /\
    (exists e m2, handle_event sorted_by_ucs (EVENT_MOUSE 0 0 0 0 1) [] m1 c1 = Some (m2, set_parts (sp_pointer e (parts c1)) c1) /\
       pe_type e = MotionNotify /\ pe_mask e !! 3 = Some (f64_div (f64_of_f32 (f32_of_bits 0x42f00000)) (f64_of_int 120))) /\
    (exists e m2, handle_event sorted_by_ucs (EVENT_MOUSE 0 0 0 0 1) [] ∅ c1 = Some (m2, set_parts (sp_pointer e (parts c1)) c1) /\
       pe_type e = MotionNotify /\ pe_mask e !! 3 = None).
Proof. by apply (motion_repeats_scroll sorted_by_ucs 0x42f00000 0 0 0 0 0 1). Defined.

(** [buttons_prev] is shared by the devices: the pen is pressed, then the eraser
    comes without a button; the eraser is released and the pen stays pressed. *)
Example pen_stays_pressed :
  let press := handle_stylus (f32_of_int 1) (f32_of_int 1) 500 0 0 0 1 0 0 ∅ demo_core in
  let erase := handle_stylus (f32_of_int 1) (f32_of_int 1) 500 0 0 0 0 1 0 ∅ press.2 in
  sp_button loriePen 1 (parts erase.2) = true /\ buttons_prev erase.2 = 0.
Proof. by vm_compute. Qed.

(** The error on a connection that was replaced closes the new one as well. *)
Example old_error_closes_new :
  let s := addFd 7 demo_server in
  conn_fd s = 7 /\ (exists s', handleLorieEvents sorted_by_ucs 5 true s = Some s' /\ conn_fd s' = -1).
Proof. split; [done|]. eexists. by split. Qed.
