(* ===== verification/ExactDoubles.v ===== *)
(** * Exact arithmetic of doubles

    The multiples [n * 2^e] of a power of two, with [n] between [- 2^53] and [2^53], as
    doubles: their sums, differences, absolute values and comparisons are those of the
    integers [n], without rounding. Integers are the case [e = 0]. *)

From Stdlib Require Import SpecFloat QArith Qpower Lqa.
From S2P Require Import Prelude Floats.

#[local] Open Scope Z_scope.

Abbreviation nonneg64 := (nonneg_float 53 1024).

Definition f0 : double := S754_zero false.
Definition f1 : double := f64_of_int 1.

Lemma emin_64 : emin 53 1024 = -1074.
Proof. done. Qed.

(** ** Canonical floats *)

(** A float of the format is determined by its value. *)
Lemma nonneg_unique x y : nonneg64 x -> nonneg64 y -> (val x == val y)%Q -> x = y.
Proof.
  assert (forall m e, (0 < dy (Zpos m) e)%Q) as Hpos by (intros; by apply dy_pos).
  intros [->|(m1 & e1 & -> & N1 & B1 & E1)] [->|(m2 & e2 & -> & N2 & B2 & E2)] Hv; cbn [val cond_Zopp] in Hv; [done|..].
  - specialize (Hpos m2 e2). lra.
  - specialize (Hpos m1 e1). lra.
  - rewrite emin_64 in *. change (2 ^ (53 - 1)) with (2 ^ 52) in *.
    assert (forall a e b f, (dy (Zpos a) e == dy (Zpos b) f)%Q -> e <= f -> (f = -1074 \/ 2 ^ 52 <= Zpos b) -> Zpos a < 2 ^ 53 -> -1074 <= e -> a = b /\ e = f) as H.
    { intros a e b f Hd Hef Hf Ha He. rewrite (dy_shift _ e f) in Hd by done.
      assert (Zpos a = Zpos b * 2 ^ (f - e)) as E by (apply Z.le_antisymm; apply (dy_le _ _ e); rewrite Hd; apply Qle_refl).
      destruct (decide (e = f)) as [<-|Hne]; [rewrite Z.sub_diag in E; split; [lia|done]|].
      destruct Hf as [->|Hf]; [lia|]. replace (f - e) with (Z.succ (f - e - 1)) in E by lia. rewrite Z.pow_succ_r in E by lia.
      assert (0 < 2 ^ (f - e - 1)) by (apply Z.pow_pos_nonneg; lia). exfalso. nia. }
    destruct (Z.le_ge_cases e1 e2) as [Hle|Hle].
    + by destruct (H m1 e1 m2 e2 Hv Hle N2 B1 ltac:(lia)) as [-> ->].
    + destruct (H m2 e2 m1 e1 ltac:(by symmetry) Hle N1 B2 ltac:(lia)) as [-> ->]. done.
Qed.

(** Comparison is that of the values. *)
Lemma nonneg_compare x y : nonneg64 x -> nonneg64 y -> SFcompare x y = Some (val x ?= val y)%Q.
Proof.
  assert (forall m e, (0 < dy (Zpos m) e)%Q) as Hpos by (intros; by apply dy_pos).
  intros [->|(m1 & e1 & -> & N1 & B1 & E1)] [->|(m2 & e2 & -> & N2 & B2 & E2)]; cbn [val cond_Zopp].
  - done.
  - specialize (Hpos m2 e2). cbn [SFcompare]. f_equal. symmetry. by apply Qlt_alt.
  - specialize (Hpos m1 e1). cbn [SFcompare]. f_equal. symmetry. by apply Qgt_alt.
  - cbn [SFcompare]. f_equal. rewrite emin_64 in *. change (2 ^ (53 - 1)) with (2 ^ 52) in *.
    assert (forall a e b f, e < f -> (f = -1074 \/ 2 ^ 52 <= Zpos b) -> Zpos a < 2 ^ 53 -> -1074 <= e -> (dy (Zpos a) e < dy (Zpos b) f)%Q) as H.
    { intros a e b f Hef Hf Ha He. rewrite (dy_shift _ e f) by lia. apply dy_lt. destruct Hf as [->|Hf]; [lia|].
      replace (f - e) with (Z.succ (f - e - 1)) by lia. rewrite Z.pow_succ_r by lia.
      assert (0 < 2 ^ (f - e - 1)) by (apply Z.pow_pos_nonneg; lia). nia. }
    destruct (Z.compare_spec e1 e2) as [->|Hlt|Hgt].
    + symmetry. change (Pos.compare_cont Eq m1 m2) with (Pos.compare m1 m2). destruct (Pos.compare_spec m1 m2) as [->|Hlt|Hgt].
      * by apply Qeq_alt.
      * apply Qlt_alt, dy_lt. lia.
      * apply Qgt_alt, dy_lt. lia.
    + symmetry. apply Qlt_alt. by apply H; try done; lia.
    + symmetry. apply Qgt_alt. by apply H; try done; lia.
Qed.

Lemma dy_plus a b e : (dy (a + b) e == dy a e + dy b e)%Q.
Proof. unfold dy. rewrite inject_Z_plus. ring. Qed.

Lemma dy_minus a b e : (dy (a - b) e == dy a e - dy b e)%Q.
Proof. unfold dy. rewrite inject_Z_sub. ring. Qed.

Lemma dy_compare a b e : (dy a e ?= dy b e)%Q = (a ?= b).
Proof.
  destruct (Z.compare_spec a b) as [->|H|H]; [by apply Qeq_alt|by apply Qlt_alt, dy_lt|by apply Qgt_alt, dy_lt].
Qed.

Lemma dy_neq a b e : a <> b -> ~ (dy a e == dy b e)%Q.
Proof. intros Hne H. apply Hne, Z.compare_eq_iff. rewrite <- (dy_compare a b e). by apply Qeq_alt. Qed.

Lemma normalize_opp n e s s' : n <> 0 -> binary_normalize 53 1024 (- n) e s = SFopp (binary_normalize 53 1024 n e s').
Proof.
  assert (forall b p e, binary_round 53 1024 (negb b) p e = SFopp (binary_round 53 1024 b p e)) as H.
  { intros b p e'. unfold binary_round, binary_round_aux. destruct (shl_align _ _ _) as [mz ez]. destruct (shr_fexp _ _ _ _ _) as [r f].
    destruct (shr_fexp _ _ _ _ _) as [r' f']. destruct (shr_m r'); [done| |done]. by destruct (f' <=? _). }
  intros Hn. destruct n as [|p|p]; [done| |]; cbn [Z.opp binary_normalize]; [apply (H false)|apply (H true)].
Qed.

Lemma SFopp_involutive x : SFopp (SFopp x) = x.
Proof. destruct x as [b|b| |b m e]; cbn [SFopp]; by rewrite ?negb_involutive. Qed.

(** ** Multiples of a power of two *)

(** [n * 2^e] as a double. *)
Definition dyad (e n : Z) : double := binary_normalize 53 1024 n e false.

Definition small (n : Z) : Prop := - 2 ^ 53 < n < 2 ^ 53.

(** A result between equal bounds is exact. *)
Lemma rounded_exact q x : rounded64 q q x -> nonneg64 x /\ (val x == q)%Q.
Proof. intros [[H1 H2] Hx]. split; [done|]. lra. Qed.

Section grid.
Context (e : Z) (He : -1074 <= e <= 0).
Local Abbreviation dyad := (dyad e).

Lemma exact_bounds n q : 0 <= n < 2 ^ 53 -> -1074 <= q <= 971 -> bounds_ok 53 1024 n q n q.
Proof. intros Hn Hq. unfold bounds_ok. rewrite emin_64. lia. Qed.

Lemma grid_nonneg n : 0 <= n < 2 ^ 53 -> nonneg64 (dyad n) /\ (val (dyad n) == dy n e)%Q.
Proof.
  intros Hn. destruct (decide (n = 0)) as [->|]; [split; [by left|by rewrite dy_zero]|].
  apply rounded_exact. apply (normalize_between 53 1024 ltac:(lia)); [lia|apply exact_bounds; lia|split; apply Qle_refl].
Qed.

Lemma grid_opp n : n <> 0 -> dyad (- n) = SFopp (dyad n).
Proof. apply normalize_opp. Qed.

Lemma grid_unique x n : 0 <= n < 2 ^ 53 -> nonneg64 x -> (val x == dy n e)%Q -> x = dyad n.
Proof. intros Hn Hx Hv. destruct (grid_nonneg n Hn) as [H1 H2]. apply nonneg_unique; [done..|]. by rewrite Hv, H2. Qed.

(** A positive multiple is a finite float. *)
Lemma grid_pos n : 0 < n < 2 ^ 53 -> exists m q, dyad n = S754_finite false m q.
Proof.
  intros Hn. destruct (grid_nonneg n) as [[E|(m & q & -> & _)] Hv]; [lia| |by eauto].
  rewrite E in Hv. pose proof (dy_pos n e ltac:(lia)). cbn in Hv. lra.
Qed.

Lemma add_pos a b : 0 < a -> 0 < b -> a + b < 2 ^ 53 -> f64_add (dyad a) (dyad b) = dyad (a + b).
Proof.
  intros Ha Hb Hab. destruct (grid_nonneg a) as [_ Va]; [lia|]. destruct (grid_nonneg b) as [_ Vb]; [lia|].
  destruct (grid_pos a) as (m1 & e1 & E1); [lia|]. destruct (grid_pos b) as (m2 & e2 & E2); [lia|]. rewrite E1, E2 in *.
  destruct (rounded_exact (dy (a + b) e) (f64_add (S754_finite false m1 e1) (S754_finite false m2 e2))) as [Hn Hv].
  { apply (float_add_between 53 1024 ltac:(lia)); [apply exact_bounds; lia|]. rewrite Va, Vb, dy_plus. split; apply Qle_refl. }
  apply grid_unique; [lia|done..].
Qed.

Lemma sub_pos a b : 0 < b -> b < a -> a < 2 ^ 53 -> f64_sub (dyad a) (dyad b) = dyad (a - b).
Proof.
  intros Hb Hba Ha. destruct (grid_nonneg a) as [_ Va]; [lia|]. destruct (grid_nonneg b) as [_ Vb]; [lia|].
  destruct (grid_pos a) as (m1 & e1 & E1); [lia|]. destruct (grid_pos b) as (m2 & e2 & E2); [lia|]. rewrite E1, E2 in *.
  destruct (rounded_exact (dy (a - b) e) (f64_sub (S754_finite false m1 e1) (S754_finite false m2 e2))) as [Hn Hv].
  { apply (sub_between 53 1024 ltac:(lia)); [apply exact_bounds; lia|rewrite Va, Vb, dy_lt; lia|].
    rewrite Va, Vb, dy_minus. split; apply Qle_refl. }
  apply grid_unique; [lia|done..].
Qed.

Lemma sub_swap m1 e1 m2 e2 :
  ~ (dy (Zpos m1) e1 == dy (Zpos m2) e2)%Q ->
  f64_sub (S754_finite false m1 e1) (S754_finite false m2 e2) = SFopp (f64_sub (S754_finite false m2 e2) (S754_finite false m1 e1)).
Proof.
  intros Hne. unfold f64_sub. cbn [SFsub cond_Zopp]. rewrite (Z.min_comm e2 e1).
  destruct (aligned m1 e1 m2 e2) as (z1 & z2 & -> & -> & H1 & H2). cbn [Z.opp].
  rewrite <- (normalize_opp _ _ false false); [f_equal; lia|]. intros E. apply Hne. rewrite H1, H2. replace (Zpos z1) with (Zpos z2) by lia. done.
Qed.

Lemma sub_self m q : f64_sub (S754_finite false m q) (S754_finite false m q) = f0.
Proof. unfold f64_sub. cbn [SFsub cond_Zopp]. by rewrite Z.sub_diag. Qed.

Lemma sub_pos_any a b : 0 < a < 2 ^ 53 -> 0 < b < 2 ^ 53 -> f64_sub (dyad a) (dyad b) = dyad (a - b).
Proof.
  intros Ha Hb. destruct (Z.lt_trichotomy a b) as [Hlt|[->|Hgt]]; [|..|apply sub_pos; lia].
  - destruct (grid_pos a) as (m1 & e1 & E1); [lia|]. destruct (grid_pos b) as (m2 & e2 & E2); [lia|].
    destruct (grid_nonneg a) as [_ Va]; [lia|]. destruct (grid_nonneg b) as [_ Vb]; [lia|]. rewrite E1 in Va. rewrite E2 in Vb. cbn [val cond_Zopp] in Va, Vb.
    rewrite E1, E2, sub_swap, <- E1, <- E2, sub_pos, <- grid_opp by (lia || (rewrite Va, Vb; apply dy_neq; lia)). f_equal; lia.
  - destruct (grid_pos b) as (m & q & ->); [lia|]. rewrite sub_self, Z.sub_diag. done.
Qed.

Lemma add_opp x y : f64_add x (SFopp y) = f64_sub x y.
Proof.
  destruct x as [sx|sx| |sx mx ex], y as [sy|sy| |sy my ey]; try done; try (by destruct sx, sy).
Qed.

Lemma add_comm m1 e1 m2 e2 s1 s2 :
  f64_add (S754_finite s1 m1 e1) (S754_finite s2 m2 e2) = f64_add (S754_finite s2 m2 e2) (S754_finite s1 m1 e1).
Proof. unfold f64_add. cbn [SFadd]. rewrite (Z.min_comm e2 e1). f_equal; lia. Qed.

Lemma grid_add a b : small a -> small b -> small (a + b) -> f64_add (dyad a) (dyad b) = dyad (a + b).
Proof.
  unfold small. intros Ha Hb Hab. destruct (Z.lt_trichotomy a 0) as [Ha0|[->|Ha0]], (Z.lt_trichotomy b 0) as [Hb0|[->|Hb0]].
  - destruct (grid_pos (- a)) as (m1 & e1 & E1); [lia|]. destruct (grid_pos (- b)) as (m2 & e2 & E2); [lia|].
    rewrite <- (Z.opp_involutive a), <- (Z.opp_involutive b), !(grid_opp (- _)), E1, E2 by lia.
    transitivity (SFopp (f64_add (S754_finite false m1 e1) (S754_finite false m2 e2))).
    + unfold f64_add. cbn [SFopp SFadd cond_Zopp negb]. rewrite <- (normalize_opp _ _ false false) by lia. f_equal; lia.
    + rewrite <- E1, <- E2, add_pos, <- grid_opp by lia. f_equal; lia.
  - rewrite Z.add_0_r. destruct (grid_pos (- a)) as (m1 & e1 & E1); [lia|]. by rewrite <- (Z.opp_involutive a), (grid_opp (- a)), E1 by lia.
  - destruct (grid_pos (- a)) as (m1 & e1 & E1); [lia|]. destruct (grid_pos b) as (m2 & e2 & E2); [lia|].
    rewrite <- (Z.opp_involutive a), (grid_opp (- a)), E1, E2 by lia. cbn [SFopp]. rewrite add_comm. change (S754_finite (negb false) m1 e1) with (SFopp (S754_finite false m1 e1)).
    rewrite add_opp, <- E1, <- E2, sub_pos_any by lia. f_equal; lia.
  - rewrite Z.add_0_l. destruct (grid_pos (- b)) as (m1 & e1 & E1); [lia|]. by rewrite <- (Z.opp_involutive b), (grid_opp (- b)), E1 by lia.
  - done.
  - rewrite Z.add_0_l. destruct (grid_pos b) as (m1 & e1 & ->); [lia|]. done.
  - rewrite <- (Z.opp_involutive b), (grid_opp (- b)), add_opp, sub_pos_any by lia. f_equal; lia.
  - rewrite Z.add_0_r. destruct (grid_pos a) as (m1 & e1 & ->); [lia|]. done.
  - apply add_pos; lia.
Qed.

Lemma grid_sub a b : small a -> small b -> small (a - b) -> f64_sub (dyad a) (dyad b) = dyad (a - b).
Proof.
  intros Ha Hb Hab. destruct (decide (b = 0)) as [->|Hb0].
  - rewrite Z.sub_0_r. destruct (Z.lt_trichotomy a 0) as [H|[->|H]]; [|done|]; unfold small in *.
    + destruct (grid_pos (- a)) as (m1 & e1 & E1); [lia|]. by rewrite <- (Z.opp_involutive a), (grid_opp (- a)), E1 by lia.
    + destruct (grid_pos a) as (m1 & e1 & ->); [lia|]. done.
  - rewrite <- add_opp, <- grid_opp by done. rewrite grid_add by (unfold small in *; lia). f_equal; lia.
Qed.

(** ** Comparisons *)

Lemma grid_compare a b : small a -> small b -> SFcompare (dyad a) (dyad b) = Some (a ?= b).
Proof.
  assert (forall a b, 0 <= a < 2 ^ 53 -> 0 <= b < 2 ^ 53 -> SFcompare (dyad a) (dyad b) = Some (a ?= b)) as H.
  { intros x y Hx Hy. destruct (grid_nonneg x Hx) as [H1 V1], (grid_nonneg y Hy) as [H2 V2]. rewrite nonneg_compare by done. f_equal.
    rewrite V1, V2. apply dy_compare. }
  unfold small. intros Ha Hb. destruct (Z.lt_ge_cases a 0) as [Ha0|Ha0], (Z.lt_ge_cases b 0) as [Hb0|Hb0]; [..|apply H; lia].
  - destruct (grid_pos (- a)) as (m1 & e1 & E1); [lia|]. destruct (grid_pos (- b)) as (m2 & e2 & E2); [lia|].
    specialize (H (- b) (- a) ltac:(lia) ltac:(lia)). rewrite E1, E2 in H.
    replace (a ?= b) with (- b ?= - a) by (rewrite Z.compare_opp; done). rewrite <- H. clear H.
    rewrite <- (Z.opp_involutive a), <- (Z.opp_involutive b), !(grid_opp (- _)), E1, E2 by lia. cbn [SFopp negb SFcompare].
    rewrite (Z.compare_antisym e1 e2). change (Pos.compare_cont Eq m2 m1) with (Pos.compare m2 m1).
    change (Pos.compare_cont Eq m1 m2) with (Pos.compare m1 m2). rewrite (Pos.compare_antisym m1 m2). by destruct (e1 ?= e2), (m1 ?= m2)%positive.
  - destruct (grid_pos (- a)) as (m1 & e1 & E1); [lia|]. rewrite <- (Z.opp_involutive a), (grid_opp (- a)), E1 by lia.
    rewrite (proj2 (Z.compare_lt_iff _ _)) by lia. destruct (decide (b = 0)) as [->|]; [done|]. by destruct (grid_pos b) as (m2 & e2 & ->); [lia|].
  - destruct (grid_pos (- b)) as (m1 & e1 & E1); [lia|]. rewrite <- (Z.opp_involutive b), (grid_opp (- b)), E1 by lia.
    rewrite (proj2 (Z.compare_gt_iff _ _)) by lia. destruct (decide (a = 0)) as [->|]; [done|]. by destruct (grid_pos a) as (m2 & e2 & ->); [lia|].
Qed.

Lemma grid_ltb a b : small a -> small b -> SFltb (dyad a) (dyad b) = (a <? b).
Proof. intros Ha Hb. unfold SFltb, Z.ltb. rewrite grid_compare by done. by destruct (a ?= b). Qed.

Lemma grid_leb a b : small a -> small b -> SFleb (dyad a) (dyad b) = (a <=? b).
Proof. intros Ha Hb. unfold SFleb, Z.leb. rewrite grid_compare by done. by destruct (a ?= b). Qed.

Lemma grid_eqb a b : small a -> small b -> SFeqb (dyad a) (dyad b) = (a =? b).
Proof. intros Ha Hb. unfold SFeqb. rewrite grid_compare by done. destruct (Z.compare_spec a b); bcase; done || lia. Qed.

Lemma grid_abs n : small n -> SFabs (dyad n) = dyad (Z.abs n).
Proof.
  unfold small. intros Hn. destruct (Z.lt_trichotomy n 0) as [H|[->|H]]; [|done|].
  - destruct (grid_pos (- n)) as (m & q & E); [lia|]. rewrite Z.abs_neq by lia. by rewrite <- (Z.opp_involutive n), (grid_opp (- n)), Z.opp_involutive, E by lia.
  - destruct (grid_pos n) as (m & q & E); [lia|]. rewrite Z.abs_eq by lia. by rewrite E.
Qed.

End grid.

(** A multiple of a coarser power of two. *)
Lemma dyad_refine e k n : -1074 <= e <= 0 -> e <= k <= 0 -> small (n * 2 ^ (k - e)) -> dyad k n = dyad e (n * 2 ^ (k - e)).
Proof.
  unfold small. intros He Hk Hn. assert (0 < 2 ^ (k - e)) as Hp by (apply Z.pow_pos_nonneg; lia).
  assert (forall n, 0 <= n * 2 ^ (k - e) < 2 ^ 53 -> dyad k n = dyad e (n * 2 ^ (k - e))) as H.
  { intros m Hm. destruct (grid_nonneg k ltac:(lia) m) as [H1 H2]; [nia|]. apply grid_unique; [done..|]. by rewrite H2, (dy_shift _ e k) by lia. }
  destruct (Z.le_gt_cases 0 n) as [|Hneg]; [apply H; nia|].
  assert (dyad k (- n) = dyad e (- n * 2 ^ (k - e))) as E by (apply H; nia).
  rewrite Z.mul_opp_l, (grid_opp e), (grid_opp k) in E by nia. apply (f_equal SFopp) in E. by rewrite !SFopp_involutive in E.
Qed.
