(* ===== verification/PointerEvents.v ===== *)
(** * The events of a pointer

    [GetPointerEvents] of [xserver/dix/getevents.c]: how the motions, buttons and turns of the
    wheel that [handleLorieEvents] reports ([Server]) become the events of the queue, with
    the transformations of coordinates and the scrolling axes that are turned into clicks of
    buttons for old clients, on the masks of [xserver/dix/inpututils.c]. Doubles are exact
    where they are multiples of a power of two ([ExactDoubles]).

    The pointer ([miPointerSetPosition] of [xserver/mi/mipointer.c]) is kept within its limits and on the
    crtcs of the screen. Not modelled are the history of motions, values that were not accelerated,
    which lorie does not report, and a second screen; the barriers of clients, the areas of the
    crtcs and the acceleration of a device are arguments of the definitions, and the theorems hold
    for every choice or name what they need of it. *)

From Stdlib Require Import SpecFloat QArith Lqa.
From S2P Require Import Prelude Floats ExactDoubles Touch Server.

#[local] Open Scope Z_scope.

(** ** Doubles *)

Definition nonzero (x : double) : bool := negb (SFeqb x f0).
Definition gt (x y : double) : bool := SFltb y x.
Definition INT_MAX : double := f64_of_int (2 ^ 31 - 1).
Definition INT_MIN : double := f64_of_int (- 2 ^ 31).

(** ** Masks

    A list of [MAX_VALUATORS] values; the size is behind the last one that is set. *)
Definition MAX_VALUATORS : nat := 36.
Definition ValuatorMask : Type := list (option double).

Definition valuator_mask_zero : ValuatorMask := replicate MAX_VALUATORS None.
Fixpoint valuator_mask_size (m : ValuatorMask) : nat :=
  match m with
  | [] => 0
  | v :: m => match valuator_mask_size m with 0 => match v with Some _ => 1 | None => 0 end | S n => S (S n) end
  end%nat.
Fixpoint valuator_mask_num_valuators (m : ValuatorMask) : Z :=
  match m with [] => 0 | v :: m => (match v with Some _ => 1 | None => 0 end) + valuator_mask_num_valuators m end.
Definition valuator_mask_isset (m : ValuatorMask) (i : nat) : bool := match m !! i with Some (Some _) => true | _ => false end.
Definition valuator_mask_get_double (m : ValuatorMask) (i : nat) : double := match m !! i with Some (Some v) => v | _ => f0 end.
Definition valuator_mask_set_double (m : ValuatorMask) (i : nat) (v : double) : ValuatorMask := <[i := Some v]> m.
Definition valuator_mask_unset (m : ValuatorMask) (i : nat) : ValuatorMask := <[i := None]> m.
Definition valuator_mask_copy (src : option ValuatorMask) : ValuatorMask := default valuator_mask_zero src.

(** ** Devices and screens *)

Inductive ScrollType := SCROLL_TYPE_NONE | SCROLL_TYPE_VERTICAL | SCROLL_TYPE_HORIZONTAL.

Record Axis := {
  min_value : Z; max_value : Z; resolution : Z; absolute : bool; scroll_type : ScrollType; increment : double;
}.

(** [-1] is no axis. *)
Record Valuator := { axes : list Axis; h_scroll_axis : Z; v_scroll_axis : Z; axisVal : list double }.

(** Rows of a transformation. *)
Definition matrix : Type := list (list double).

(** [miPointerRec] of the master: the place of the pointer, and the box to which it is confined. *)
Record Sprite := { sprite_x : Z; sprite_y : Z; lim_x1 : Z; lim_y1 : Z; lim_x2 : Z; lim_y2 : Z }.

(** A slave device, with what the events need of its master. *)
Record Dev := {
  enabled : bool; attached : bool; has_button : bool; valuator : option Valuator; relative_transform : matrix;
  scale_and_transform : matrix; last_valuators : list double; last_scroll : ValuatorMask; postdown : list Z;
  master_x : double; master_y : double; is_last_slave : bool; sprite : Sprite;
}.

Definition with_last (v : list double) (d : Dev) : Dev :=
  {| enabled := enabled d; attached := attached d; has_button := has_button d; valuator := valuator d; relative_transform := relative_transform d;
     scale_and_transform := scale_and_transform d; last_valuators := v; last_scroll := last_scroll d; postdown := postdown d;
     master_x := master_x d; master_y := master_y d; is_last_slave := is_last_slave d; sprite := sprite d |}.
Definition with_scroll (m : ValuatorMask) (d : Dev) : Dev :=
  {| enabled := enabled d; attached := attached d; has_button := has_button d; valuator := valuator d; relative_transform := relative_transform d;
     scale_and_transform := scale_and_transform d; last_valuators := last_valuators d; last_scroll := m; postdown := postdown d;
     master_x := master_x d; master_y := master_y d; is_last_slave := is_last_slave d; sprite := sprite d |}.
Definition with_postdown (l : list Z) (d : Dev) : Dev :=
  {| enabled := enabled d; attached := attached d; has_button := has_button d; valuator := valuator d; relative_transform := relative_transform d;
     scale_and_transform := scale_and_transform d; last_valuators := last_valuators d; last_scroll := last_scroll d; postdown := l;
     master_x := master_x d; master_y := master_y d; is_last_slave := is_last_slave d; sprite := sprite d |}.
Definition with_master (x y : double) (b : bool) (d : Dev) : Dev :=
  {| enabled := enabled d; attached := attached d; has_button := has_button d; valuator := valuator d; relative_transform := relative_transform d;
     scale_and_transform := scale_and_transform d; last_valuators := last_valuators d; last_scroll := last_scroll d; postdown := postdown d;
     master_x := x; master_y := y; is_last_slave := b; sprite := sprite d |}.

Definition with_sprite (s : Sprite) (d : Dev) : Dev :=
  {| enabled := enabled d; attached := attached d; has_button := has_button d; valuator := valuator d; relative_transform := relative_transform d;
     scale_and_transform := scale_and_transform d; last_valuators := last_valuators d; last_scroll := last_scroll d; postdown := postdown d;
     master_x := master_x d; master_y := master_y d; is_last_slave := is_last_slave d; sprite := s |}.

Definition last_valuator (d : Dev) (i : nat) : double := nth i (last_valuators d) f0.
Definition numAxes (d : Dev) : nat := match valuator d with Some v => length (axes v) | None => 0 end.
Definition axis (d : Dev) (i : nat) : option Axis := v ← valuator d; axes v !! i.

(** [screenInfo] and the screen of the device. *)
Record Rect := { rx : Z; ry : Z; rwidth : Z; rheight : Z }.

(** The area that a crtc shows. *)
Record Bounds := { left : Z; right : Z; top : Z; bottom : Z }.

(** What surrounds the pointer: the barriers of clients (where a relative motion ends, and how
    many events it makes), whether the crtcs leave gaps, the areas of those with a mode, and what
    a conversion to [int] makes of a value that has no room in it, which C leaves open. *)
Record Surroundings := {
  input_constrain_cursor : Sprite -> Z -> Z -> Z * Z * Z; discontiguous : bool; crtc_bounds : list Bounds; out_of_int : double -> Z;
}.

(** A raw event has the values as reported and as transformed; the other ones the values with
    those of the unset axes, and the position on the screen, which is then split. *)
Inductive Event :=
  | DeviceChanged
  | Barrier (n : Z)
  | Raw (type : pointer_type) (button : Z) (emulated : bool) (data_raw data : ValuatorMask)
  | Device (type : pointer_type) (button : Z) (emulated : bool) (root_x root_y : double) (valuators : list (option (double * bool) * double)).

(** ** Flags *)

Definition POINTER_EMULATED : Z := 64.
Definition POINTER_RAWONLY : Z := 256.
Definition has (flags f : Z) : bool := negb (Z.land flags f =? 0).

(** ** Transformations *)

Definition entry (m : matrix) (j i : nat) : double := nth i (nth j m []) f0.

Definition row (m : matrix) (j : nat) (v : list double) : double :=
  foldl (fun a i => f64_add a (f64_mul (entry m j i) (nth i v f0))) f0 [0; 1; 2]%nat.

Definition transform (m : matrix) (x y : double) : double * double :=
  let v := [x; y; f1] in
  let w := row m 2 v in
  if nonzero w then (f64_div (row m 0 v) w, f64_div (row m 1 v) w) else (x, y).

Definition pixman_f_transform_invert (m : matrix) : option matrix :=
  let a i := nth i [2; 2; 1]%nat 0%nat in
  let b i := nth i [1; 0; 0]%nat 0%nat in
  let det := foldl (fun det i =>
    let p := f64_mul (entry m i 0) (f64_sub (f64_mul (entry m (a i) 2) (entry m (b i) 1)) (f64_mul (entry m (a i) 1) (entry m (b i) 2))) in
    f64_add det (if Nat.eqb i 1 then SFopp p else p)) f0 [0; 1; 2]%nat in
  if nonzero det then
    let det := f64_div f1 det in
    Some (map (fun j => map (fun i =>
      let p := f64_sub (f64_mul (entry m (a i) (a j)) (entry m (b i) (b j))) (f64_mul (entry m (a i) (b j)) (entry m (b i) (a j))) in
      f64_mul det (if Nat.odd (i + j) then SFopp p else p)) [0; 1; 2]%nat) [0; 1; 2]%nat)
  else None.

Definition transformRelative (d : Dev) (m : ValuatorMask) : ValuatorMask :=
  let '(x, y) := transform (relative_transform d) (valuator_mask_get_double m 0) (valuator_mask_get_double m 1) in
  let m := if nonzero x then valuator_mask_set_double m 0 x else valuator_mask_unset m 0 in
  if nonzero y then valuator_mask_set_double m 1 y else valuator_mask_unset m 1.

(** [None] when the matrix that is inverted is singular: the inverse is not initialised. *)
Definition transformAbsolute (d : Dev) (m : ValuatorMask) : option ValuatorMask :=
  let has_x := valuator_mask_isset m 0 in
  let has_y := valuator_mask_isset m 1 in
  if negb has_x && negb has_y then Some m
  else
    '((ox, oy) : double * double) ←
      (if negb has_x || negb has_y then
         inv ← pixman_f_transform_invert (scale_and_transform d); Some (transform inv (last_valuator d 0) (last_valuator d 1))
       else Some (f0, f0));
    let ox := if has_x then valuator_mask_get_double m 0 else ox in
    let oy := if has_y then valuator_mask_get_double m 1 else oy in
    let '(x, y) := transform (scale_and_transform d) ox oy in
    let m := if has_x || negb (SFeqb ox x) then valuator_mask_set_double m 0 x else m in
    Some (if has_y || negb (SFeqb oy y) then valuator_mask_set_double m 1 y else m).

Definition axis_range (a : option Axis) (lo hi : double) : double * double :=
  match a with
  | Some a => if min_value a <? max_value a then (f64_of_int (min_value a), f64_of_int (swrap 32 (max_value a + 1))) else (lo, hi)
  | None => (lo, hi)
  end.

Definition rescaleValuatorAxis (coord : double) (from to : option Axis) (defmin defmax : double) : double :=
  let '(fmin, fmax) := axis_range from defmin defmax in
  let '(tmin, tmax) := axis_range to defmin defmax in
  if SFeqb fmin tmin && SFeqb fmax tmax then coord
  else if SFeqb fmax fmin then f0
  else f64_add (f64_div (f64_mul (f64_sub coord fmin) (f64_sub tmax tmin)) (f64_sub fmax fmin)) tmin.

(** ** Ranges *)

Definition clipAxis (d : Dev) (i : nat) (val : double) : double :=
  match axis d i with
  | None => val
  | Some a =>
      if max_value a <=? min_value a then val
      else
        let val := if SFltb val (f64_of_int (min_value a)) then f64_of_int (min_value a) else val in
        if gt val (f64_of_int (max_value a)) then f64_of_int (max_value a) else val
  end.

Definition clip_one (d : Dev) (i : nat) (m : ValuatorMask) : ValuatorMask :=
  valuator_mask_set_double m i (clipAxis d i (valuator_mask_get_double m i)).

(** [clipValuators] and [clipAbsolute]. *)
Definition clipValuators (d : Dev) (m : ValuatorMask) : ValuatorMask :=
  foldl (fun m i => if valuator_mask_isset m i then clip_one d i m else m) m (seq 0 (valuator_mask_size m)).

(** ** Motions *)

(** A turn that would leave the range of [int] starts again at 0. *)
Definition add_to_scroll_valuator (d : Dev) (m : ValuatorMask) (i : nat) (value : double) : Dev * ValuatorMask :=
  if valuator_mask_isset m i then
    let v := valuator_mask_get_double m i in
    if gt value f0 && gt v (f64_sub INT_MAX value) || SFltb value f0 && SFltb v (f64_sub INT_MIN value)
    then (with_scroll (valuator_mask_set_double (last_scroll d) i f0) d, valuator_mask_set_double m i f0)
    else (d, valuator_mask_set_double m i (f64_add v value))
  else (d, m).

Section screens.
(** The desktop, the screen, the acceleration of the device, and what surrounds the pointer. *)
Context (screenInfo scr : Rect) (AccelSchemeProc : option (Dev -> ValuatorMask -> ValuatorMask))
  (env : Surroundings).

Definition scale_for_device_resolution (d : Dev) (m : ValuatorMask) : ValuatorMask :=
  match axis d 0, axis d 1 with
  | Some a0, Some a1 =>
      if valuator_mask_isset m 1 then
        let xrange := swrap 32 (max_value a0 - min_value a0 + 1) in
        let yrange := swrap 32 (max_value a1 - min_value a1 + 1) in
        let ratio_of a b := f64_div (f64_mul f1 (f64_of_int a)) (f64_of_int b) in
        let screen_ratio := ratio_of (rwidth screenInfo) (rheight screenInfo) in
        let device_ratio := ratio_of xrange yrange in
        let resolution_ratio :=
          if negb (resolution a0 =? 0) && negb (resolution a1 =? 0) then ratio_of (resolution a0) (resolution a1) else f1 in
        let ratio := f64_div (f64_div device_ratio resolution_ratio) screen_ratio in
        valuator_mask_set_double m 1 (f64_div (valuator_mask_get_double m 1) ratio)
      else m
  | _, _ => m
  end.

Definition ranged (a : option Axis) : bool := match a with Some a => min_value a <? max_value a | None => false end.

(** One axis; [None] for a device without axes. *)
Definition move_axis (dm : Dev * ValuatorMask) (i : nat) : option (Dev * ValuatorMask) :=
  let '(d, m) := dm in
  if valuator_mask_isset m i then
    let '(d, m) := add_to_scroll_valuator d m i (last_valuator d i) in
    a ← axis d i;
    Some (d, if absolute a && (negb ((i =? 0) || (i =? 1))%nat || attached d) then clip_one d i m else m)
  else Some (d, m).

Fixpoint foldM {A B} (f : B -> A -> option B) (b : B) (l : list A) : option B :=
  match l with [] => Some b | a :: l => b ← f b a; foldM f b l end.

Definition moveRelative (flags : Z) (d : Dev) (m : ValuatorMask) : option (Dev * ValuatorMask) :=
  let m := if negb (has flags POINTER_ABSOLUTE) && ranged (axis d 0) && ranged (axis d 1) then scale_for_device_resolution d m else m in
  foldM move_axis (d, m) (seq 0 (valuator_mask_size m)).

Definition scale_from_screen (flags : Z) (d : Dev) (m : ValuatorMask) : ValuatorMask :=
  let one i (off origin size : Z) m :=
    if valuator_mask_isset m i then
      let scaled := valuator_mask_get_double m i in
      let scaled := if has flags POINTER_SCREEN then f64_add scaled (f64_of_int off) else scaled in
      valuator_mask_set_double m i (rescaleValuatorAxis scaled None (axis d i) (f64_of_int origin) (f64_of_int size))
    else m in
  one 1%nat (ry scr) (ry screenInfo) (rheight screenInfo) (one 0%nat (rx scr) (rx screenInfo) (rwidth screenInfo) m).

(** A position in the coordinates of the device and of the desktop. *)
Record Position := { devx : double; devy : double; screenx : double; screeny : double }.

Definition scale_to_desktop (d : Dev) (m : ValuatorMask) : Position :=
  if (numAxes d <? 2)%nat then
    {| devx := last_valuator d 0; devy := last_valuator d 1; screenx := last_valuator d 0; screeny := last_valuator d 1 |}
  else
    let x := if valuator_mask_isset m 0 then valuator_mask_get_double m 0 else last_valuator d 0 in
    let y := if valuator_mask_isset m 1 then valuator_mask_get_double m 1 else last_valuator d 1 in
    {| devx := x; devy := y;
       screenx := rescaleValuatorAxis x (axis d 0) None (f64_of_int (rx screenInfo)) (f64_of_int (rwidth screenInfo));
       screeny := rescaleValuatorAxis y (axis d 1) None (f64_of_int (ry screenInfo)) (f64_of_int (rheight screenInfo)) |}.

(** [(int) floor(x)]. *)
Definition floor_int (x : double) : Z :=
  let fits z := if (- 2 ^ 31 <=? z) && (z <=? 2 ^ 31 - 1) then z else out_of_int env x in
  match x with
  | S754_zero _ => 0
  | S754_finite s m e =>
      let z := if s then Zneg m else Zpos m in fits (if 0 <=? e then z * 2 ^ e else z / 2 ^ (- e))
  | _ => out_of_int env x
  end.

(** A coordinate is kept from [lo] to [hi - 1]. *)
Definition confine (lo hi z : Z) : Z := let z := if z <? lo then lo else z in if hi <=? z then hi - 1 else z.

Definition inside (x y : Z) (b : Bounds) : bool := (left b <=? x) && (x <? right b) && (top b <=? y) && (y <? bottom b).

(** A position that no crtc shows is moved to the crtc that the pointer comes from. *)
Definition RRConstrainCursorHarder (s : Sprite) (x y : Z) : Z * Z :=
  if discontiguous env then (x, y)
  else if existsb (inside x y) (crtc_bounds env) then (x, y)
  else match List.find (inside (sprite_x s) (sprite_y s)) (crtc_bounds env) with
       | Some b => (confine (left b) (right b) x, confine (top b) (bottom b) y)
       | None => (x, y)
       end.

Definition miPointerMoveNoEvent (x y : Z) (s : Sprite) : Sprite :=
  {| sprite_x := x; sprite_y := y; lim_x1 := lim_x1 s; lim_y1 := lim_y1 s; lim_x2 := lim_x2 s; lim_y2 := lim_y2 s |}.

(** The position on the desktop, the number of events of barriers, and the pointer. A position off
    the screen is no special case: [CursorOffScreen] of lorie does nothing. *)
Definition miPointerSetPosition (abs : bool) (s : Sprite) (screenx screeny : double) : double * double * Z * Sprite :=
  let fx := floor_int screenx in
  let fy := floor_int screeny in
  let '(x, y) := (swrap 32 (fx - rx scr), swrap 32 (fy - ry scr)) in
  let '(x, y, n) := if abs then (x, y, 0) else input_constrain_cursor env s x y in
  let '(x, y) := RRConstrainCursorHarder s (confine (lim_x1 s) (lim_x2 s) x) (confine (lim_y1 s) (lim_y2 s) y) in
  let s := miPointerMoveNoEvent x y s in
  let '(x, y) := (swrap 32 (x + rx scr), swrap 32 (y + ry scr)) in
  (if x =? fx then screenx else f64_of_int x, if y =? fy then screeny else f64_of_int y, n, s).

(** The new position, the mask, the number of events of barriers, and the pointer. *)
Definition positionSprite (abs : bool) (d : Dev) (m : ValuatorMask) (p : Position) : Position * ValuatorMask * Z * Sprite :=
  if (numAxes d <? 2)%nat then (p, m, 0, sprite d)
  else
    let '(sx, sy, n, s) := miPointerSetPosition abs (sprite d) (screenx p) (screeny p) in
    let p := {|
      devx := if SFeqb (screenx p) sx then devx p
              else rescaleValuatorAxis sx None (axis d 0) (f64_of_int (rx screenInfo)) (f64_of_int (rwidth screenInfo));
      devy := if SFeqb (screeny p) sy then devy p
              else rescaleValuatorAxis sy None (axis d 1) (f64_of_int (ry screenInfo)) (f64_of_int (rheight screenInfo));
      screenx := sx; screeny := sy |} in
    let m := if valuator_mask_isset m 0 then
               valuator_mask_set_double m 0 (rescaleValuatorAxis (f64_sub sx (f64_of_int (rx scr))) None (axis d 0) f0 (f64_of_int (rwidth scr)))
             else m in
    let m := if valuator_mask_isset m 1 then
               valuator_mask_set_double m 1 (rescaleValuatorAxis (f64_sub sy (f64_of_int (ry scr))) None (axis d 1) f0 (f64_of_int (rheight scr)))
             else m in
    (p, m, n, s).

Definition storeLastValuators (m : ValuatorMask) (p : Position) (d : Dev) : Dev :=
  let l := last_valuators d in
  let l := if valuator_mask_isset m 0 then <[0%nat := devx p]> l else l in
  let l := if valuator_mask_isset m 1 then <[1%nat := devy p]> l else l in
  with_last (foldl (fun l i => if negb ((i =? 0) || (i =? 1))%nat && valuator_mask_isset m i then <[i := valuator_mask_get_double m i]> l else l)
    l (seq 0 (valuator_mask_size m))) d.

(** The values of an event: those of the mask, with the mode of the axis; [None] for a device
    without axes. *)
Definition set_valuators (d : Dev) (m : ValuatorMask) : option (list (option (double * bool) * double)) :=
  foldM (fun l i =>
    v ← valuator d;
    if valuator_mask_isset m i then
      a ← axes v !! i;
      let x := valuator_mask_get_double m i in Some (l ++ [(Some (x, absolute a), x)])
    else x ← axisVal v !! i; Some (l ++ [(None, x)])) [] (seq 0 (valuator_mask_size m)).

(** ** Events *)

Definition set_button_down (b : Z) (d : Dev) : Dev := with_postdown (b :: postdown d) d.
Definition set_button_up (b : Z) (d : Dev) : Dev := with_postdown (filter (fun x => x <> b) (postdown d)) d.

(** Whether the event is refused. *)
Definition refused (d : Dev) (type : pointer_type) (buttons : Z) (mask_in : option ValuatorMask) : bool :=
  match type with
  | MotionNotify =>
      bool_decide (valuator d = None) || match mask_in with Some m => valuator_mask_num_valuators m <=? 0 | None => true end
  | _ =>
      negb (has_button d) || (buttons =? 0) ||
      match mask_in with Some m => (0 <? valuator_mask_size m)%nat && bool_decide (valuator d = None) | None => false end
  end.

(** What [fill_pointer_events] does with the mask before the position is known: the integer
    coordinates of an event in those of the screen, the device, the mask, and the data of the
    raw event. *)
Definition device_values (flags : Z) (d : Dev) (m : ValuatorMask) : option (Z * Z * Dev * ValuatorMask * ValuatorMask) :=
  if has flags POINTER_ABSOLUTE then
    '((sx, sy, m) : Z * Z * ValuatorMask) ←
      (if has flags (Z.lor POINTER_SCREEN POINTER_DESKTOP) then
         sx ← to_int (- 2 ^ 31) (2 ^ 31 - 1) (valuator_mask_get_double m 0);
         sy ← to_int (- 2 ^ 31) (2 ^ 31 - 1) (valuator_mask_get_double m 1);
         Some (sx, sy, scale_from_screen flags d m)
       else Some (0, 0, m));
    m ← transformAbsolute d m;
    let m := clipValuators d m in
    Some (sx, sy, d, m, m)
  else
    let m := transformRelative d m in
    let m := if has flags POINTER_ACCELERATE then match AccelSchemeProc with Some f => f d m | None => m end else m in
    '((d', m') : Dev * ValuatorMask) ← moveRelative flags d m;
    Some (0, 0, d', m', m).

Definition fill_pointer_events (d : Dev) (type : pointer_type) (buttons flags : Z) (mask_in : option ValuatorMask) : option (list Event * Dev) :=
  if refused d type buttons mask_in then Some ([], d)
  else
    let mask := valuator_mask_copy mask_in in
    let emulated := has flags POINTER_EMULATED in
    '((sx, sy, d, m, data) : Z * Z * Dev * ValuatorMask * ValuatorMask) ← device_values flags d mask;
    let raw := if has flags POINTER_NORAW then [] else [Raw type buttons emulated mask data] in
    let p := scale_to_desktop d m in
    let p := if has flags POINTER_SCREEN
             then {| devx := devx p; devy := devy p; screenx := f64_of_int (swrap 32 (sx + rx scr)); screeny := f64_of_int (swrap 32 (sy + ry scr)) |}
             else p in
    let '(p, m, barriers, s) := positionSprite (has flags POINTER_ABSOLUTE) d m p in
    let m := clipValuators d m in
    let d := storeLastValuators m p (with_sprite s d) in
    let d := if attached d then with_master (screenx p) (screeny p) (is_last_slave d) d else d in
    let events := raw ++ (Barrier <$> seqZ 0 barriers) in
    if has flags POINTER_RAWONLY then Some (events, d)
    else
      let d := match type with MotionNotify => d | ButtonPress => set_button_down buttons d | ButtonRelease => set_button_up buttons d end in
      l ← set_valuators d m;
      Some (events ++ [Device type (match type with MotionNotify => 0 | _ => buttons end) emulated
                         (f64_sub (screenx p) (f64_of_int (rx scr))) (f64_sub (screeny p) (f64_of_int (ry scr))) l], d).

Definition GetMaximumEventsNum : Z := 100.

(** The loop over the clicks: whether it has ended ([fuel] bounds its rounds), the rest of the
    turn, the list so far and the device. *)
Fixpoint scroll_loop (fuel : nat) (type : pointer_type) (b flags max_events : Z) (incr delta : double) (events : list Event) (d : Dev)
  : option (bool * double * list Event * Dev) :=
  if SFleb (SFabs incr) (SFabs delta) then
    match fuel with
    | O => Some (false, delta, events, d)
    | S fuel =>
        let delta := if gt delta f0 then f64_sub delta (SFabs incr) else if SFltb delta f0 then f64_add delta (SFabs incr) else delta in
        '((events, d) : list Event * Dev) ←
          (if Z.of_nat (length events) + 4 <? max_events then
             '((e1, d) : list Event * Dev) ← (if decide (type = ButtonRelease) then Some ([], d) else fill_pointer_events d ButtonPress b flags None);
             '((e2, d) : list Event * Dev) ← (if decide (type = ButtonPress) then Some ([], d) else fill_pointer_events d ButtonRelease b flags None);
             Some (events ++ e1 ++ e2, d)
           else Some (events, d));
        scroll_loop fuel type b flags max_events incr delta events d
    end
  else Some (true, delta, events, d).

(** Whether the loop has ended, the events and the device; [mask] is the state of the axes behind
    the event. *)
Definition emulate_scroll_button_events (fuel : nat) (d : Dev) (type : pointer_type) (i : nat) (mask : ValuatorMask) (max_events : Z)
  : option (bool * list Event * Dev) :=
  a ← axis d i;
  match scroll_type a with
  | SCROLL_TYPE_NONE => Some (true, [], d)
  | t =>
      if negb (valuator_mask_isset mask i) || negb (nonzero (increment a)) then Some (true, [], d)
      else
        let incr := increment a in
        let flags := match type with MotionNotify => POINTER_EMULATED | _ => 0 end in
        let d := if valuator_mask_isset (last_scroll d) i then d else with_scroll (valuator_mask_set_double (last_scroll d) i f0) d in
        let total := f64_sub (valuator_mask_get_double mask i) (valuator_mask_get_double (last_scroll d) i) in
        let b := match t with SCROLL_TYPE_VERTICAL => 5 | _ => 7 end in
        let b := if gt incr f0 && SFltb total f0 || SFltb incr f0 && gt total f0 then b - 1 else b in
        '((ended, delta, events, d) : bool * double * list Event * Dev) ← scroll_loop fuel type b flags max_events incr total [] d;
        Some (ended, events,
          if negb ended || SFeqb total delta then d
          else with_scroll (valuator_mask_set_double (last_scroll d) i
                 (f64_add (valuator_mask_get_double (last_scroll d) i) (f64_sub total delta))) d)
  end.

Definition updateSlaveDeviceCoords (d : Dev) : Dev :=
  let l := <[1%nat := master_y d]> (<[0%nat := master_x d]> (last_valuators d)) in
  let one i (origin size : Z) l :=
    if (i <? numAxes d)%nat
    then <[i := rescaleValuatorAxis (nth i l f0) None (axis d i) (f64_of_int origin) (f64_of_int size)]> l else l in
  with_last (one 1%nat (ry screenInfo) (rheight screenInfo) (one 0%nat (rx screenInfo) (rwidth screenInfo) l)) d.

Definition UpdateFromMaster (d : Dev) : list Event * Dev :=
  if attached d && negb (is_last_slave d) then
    let d := updateSlaveDeviceCoords d in ([DeviceChanged], with_master (master_x d) (master_y d) true d)
  else ([], d).

(** A press of a button of the wheel becomes a turn: the type, the button, the flags, the
    device and the mask. *)
Definition wheel_button (d : Dev) (type : pointer_type) (buttons flags : Z) (m : ValuatorMask)
  : option (pointer_type * Z * Z * Dev * ValuatorMask) :=
  match type with
  | ButtonPress =>
      let h := match valuator d with Some v => h_scroll_axis v | None => -1 end in
      let v := match valuator d with Some v => v_scroll_axis v | None => -1 end in
      let '(up, i) := if buttons =? 4 then (true, v) else if buttons =? 5 then (false, v)
                      else if buttons =? 6 then (true, h) else if buttons =? 7 then (false, h) else (false, -1) in
      if i =? -1 then Some (type, buttons, flags, d, m)
      else
        let i := Z.to_nat i in
        a ← axis d i;
        let adj := f64_mul (if up : bool then f64_of_int (-1) else f1) (increment a) in
        let m := if valuator_mask_isset m i then m else valuator_mask_set_double m i f0 in
        let '(d, m) := add_to_scroll_valuator d m i adj in
        Some (MotionNotify, 0, Z.lor flags POINTER_EMULATED, d, m)
  | _ => Some (type, buttons, flags, d, m)
  end.

(** The clicks of the axes, [scroll] being the state of those that were looked at. *)
Fixpoint scroll_axes (fuel : nat) (realtype : pointer_type) (mask : ValuatorMask) (l : list nat) (scroll : ValuatorMask) (events : list Event) (d : Dev)
  : option (bool * list Event * Dev) :=
  match l with
  | [] => Some (true, events, d)
  | i :: l =>
      if (numAxes d <=? i)%nat then Some (true, events, d)
      else if negb (valuator_mask_isset mask i) then scroll_axes fuel realtype mask l scroll events d
      else
        let scroll := valuator_mask_set_double scroll i (last_valuator d i) in
        '((ended, e, d) : bool * list Event * Dev) ←
          emulate_scroll_button_events fuel d realtype i scroll (GetMaximumEventsNum - Z.of_nat (length events));
        if ended then scroll_axes fuel realtype mask l scroll (events ++ e) d else Some (false, events ++ e, d)
  end.

Definition MAX_BUTTONS : Z := 256.

(** Whether it has returned, the list and the device: [None] is undefined behaviour. [on_screen]: the
    device has a screen; [fuel] bounds the rounds of the loop over the clicks of an axis. *)
Definition GetPointerEvents (fuel : nat) (on_screen : bool) (d : Dev) (realtype : pointer_type) (buttons flags : Z) (mask_in : option ValuatorMask)
  : option (bool * list Event * Dev) :=
  if (MAX_BUTTONS <=? buttons) || negb (enabled d) || negb on_screen then Some (true, [], d)
  else
    let '(e0, d) := UpdateFromMaster d in
    '((type, buttons, flags, d, mask) : pointer_type * Z * Z * Dev * ValuatorMask) ←
      wheel_button d realtype buttons flags (valuator_mask_copy mask_in);
    '((e1, d) : list Event * Dev) ← fill_pointer_events d type buttons flags (Some mask);
    scroll_axes fuel realtype mask (seq 0 (valuator_mask_size mask)) valuator_mask_zero (e0 ++ e1) d.

(** The mask of a report. *)
Definition to_mask (m : mask) : ValuatorMask := map (fun i => m !! Z.of_nat i) (seq 0 MAX_VALUATORS).

(** The events that [QueuePointerEvents] appends to the queue. *)
Definition queued_events (fuel : nat) (d : Dev) (e : pointer_event) : option (bool * list Event * Dev) :=
  GetPointerEvents fuel true d (pe_type e) (pe_button e) (pe_flags e) (Some (to_mask (pe_mask e))).
End screens.

(** ** The mouse *)

(** [NO_AXIS_LIMITS] is -1. *)
Definition mouse_axis (t : ScrollType) (incr : double) : Axis :=
  {| min_value := -1; max_value := -1; resolution := 0; absolute := false; scroll_type := t; increment := incr |}.

(** What [lorieMouseProc] sets up. *)
Definition mouse_valuator (axisVal : list double) : Valuator := {|
  axes := [mouse_axis SCROLL_TYPE_NONE f0; mouse_axis SCROLL_TYPE_NONE f0;
           mouse_axis SCROLL_TYPE_HORIZONTAL f1; mouse_axis SCROLL_TYPE_VERTICAL f1];
  h_scroll_axis := 2; v_scroll_axis := 3; axisVal := axisVal;
|}.

(** The transformation of a new device. *)
Definition identity : matrix := map (fun j => map (fun i => if Nat.eqb i j then f1 else f0) [0; 1; 2]%nat) [0; 1; 2]%nat.

(** The mouse is on, with its own transformation of relative values. *)
Definition mouse (d : Dev) : Prop :=
  enabled d = true /\ has_button d = true /\ relative_transform d = identity /\
  (exists v, length v = 4%nat /\ valuator d = Some (mouse_valuator v)) /\
  length (last_valuators d) = MAX_VALUATORS /\ length (last_scroll d) = MAX_VALUATORS.

(** What clients without raw events are told: the types and the buttons. *)
Definition posted (l : list Event) : list (pointer_type * Z) :=
  omap (fun e => match e with Device t b _ _ _ _ => Some (t, b) | _ => None end) l.

(** ** The number of events *)

Section bounds.
Context (screenInfo scr : Rect) (AccelSchemeProc : option (Dev -> ValuatorMask -> ValuatorMask))
  (env : Surroundings).
Context (B : Z) (HB : 0 <= B) (Hbarriers : forall s x y, (input_constrain_cursor env s x y).2 <= B).

Local Abbreviation fill := (fill_pointer_events screenInfo scr AccelSchemeProc env).

Lemma miPointerSetPosition_barriers abs s x y : (miPointerSetPosition scr env abs s x y).1.2 <= B.
Proof.
  unfold miPointerSetPosition. destruct abs; [by destruct (RRConstrainCursorHarder _ _ _ _)|].
  match goal with |- context [input_constrain_cursor env s ?a ?b] => specialize (Hbarriers s a b) end.
  destruct (input_constrain_cursor _ _ _ _) as [[u v] n]. by destruct (RRConstrainCursorHarder _ _ _ _).
Qed.

Lemma positionSprite_barriers abs d m p : (positionSprite screenInfo scr env abs d m p).1.2 <= B.
Proof.
  unfold positionSprite. destruct (_ <? _)%nat; [done|]. pose proof (miPointerSetPosition_barriers abs (sprite d) (screenx p) (screeny p)) as H.
  by destruct (miPointerSetPosition _ _ _ _ _ _) as [[[sx sy] n] s].
Qed.

Lemma fill_length d t b fl m l d' : fill d t b fl m = Some (l, d') -> Z.of_nat (length l) <= 2 + B.
Proof.
  unfold fill_pointer_events. destruct (refused _ _ _ _); [intros [= <- <-]; cbn; lia|].
  intros H. apply bind_Some in H as ([[[[sx sy] d1] m1] data] & _ & H).
  match type of H with context [positionSprite ?a ?b ?c ?d ?e ?f ?g] => pose proof (positionSprite_barriers d e f g) as Hn; destruct (positionSprite a b c d e f g) as [[[p m2] n] s2] end.
  cbn [fst snd] in Hn.
  assert (forall r : list Event, (length r <= 1)%nat -> Z.of_nat (length (r ++ (Barrier <$> seqZ 0 n))) <= 1 + B) as Hl.
  { intros r Hr. rewrite length_app, length_fmap, length_seqZ. lia. }
  specialize (Hl (if has fl POINTER_NORAW then [] else [Raw t b (has fl POINTER_EMULATED) (valuator_mask_copy m) data])
    ltac:(destruct (has fl POINTER_NORAW); cbn; lia)).
  destruct (has fl POINTER_RAWONLY).
  - injection H as <- _. lia.
  - apply bind_Some in H as (v & _ & [= <- _]). rewrite length_app. cbn [length]. lia.
Qed.

Lemma scroll_loop_length fuel : forall t b fl M incr delta l d ended x l' d',
  scroll_loop screenInfo scr AccelSchemeProc env fuel t b fl M incr delta l d = Some (ended, x, l', d') ->
  Z.of_nat (length l) <= Z.max 0 (M - 1 + 2 * B) -> Z.of_nat (length l') <= Z.max 0 (M - 1 + 2 * B).
Proof.
  induction fuel as [|fuel IH]; intros t b fl M incr delta l d ended x l' d'; cbn [scroll_loop].
  { destruct (SFleb _ _); by intros [= _ _ <- _]. }
  destruct (SFleb _ _); [|by intros [= _ _ <- _]].
  intros H Hl. apply bind_Some in H as ([l1 d1] & H1 & H). apply (IH _ _ _ _ _ _ _ _ _ _ _ _ H). clear H.
  destruct (Z.ltb_spec (Z.of_nat (length l) + 4) M); [|by injection H1 as <- _].
  apply bind_Some in H1 as ([e1 d2] & He1 & H1). apply bind_Some in H1 as ([e2 d3] & He2 & [= <- _]).
  assert (forall (P : Prop) `{!Decision P} t e d d', (if decide P then Some ([], d) else fill d t b fl None) = Some (e, d') -> Z.of_nat (length e) <= 2 + B) as Hs.
  { intros P ? t' e e' e''. destruct (decide P); [intros [= <- _]; cbn; lia|apply fill_length]. }
  apply Hs in He1. apply Hs in He2. rewrite !length_app. lia.
Qed.

Lemma emulate_length fuel d t i m M ended l d' :
  emulate_scroll_button_events screenInfo scr AccelSchemeProc env fuel d t i m M = Some (ended, l, d') ->
  Z.of_nat (length l) <= Z.max 0 (M - 1 + 2 * B).
Proof.
  unfold emulate_scroll_button_events. intros H. apply bind_Some in H as (a & _ & H).
  destruct (scroll_type a); [injection H as _ <- _; cbn; lia|..].
  all: destruct (_ || _); [injection H as _ <- _; cbn; lia|].
  all: apply bind_Some in H as ([[[en x] e] d1] & H & [= _ <- _]); apply scroll_loop_length in H; [done|cbn; lia].
Qed.

Lemma scroll_axes_length fuel t m l : forall s evs d ended evs' d',
  scroll_axes screenInfo scr AccelSchemeProc env fuel t m l s evs d = Some (ended, evs', d') ->
  Z.of_nat (length evs) <= GetMaximumEventsNum - 1 + 2 * B -> Z.of_nat (length evs') <= GetMaximumEventsNum - 1 + 2 * B.
Proof.
  induction l as [|i l IH]; intros s evs d ended evs' d'; cbn [scroll_axes]; [by intros [= _ <- _]|].
  destruct (_ <=? _)%nat; [by intros [= _ <- _]|]. destruct (negb _); [apply IH|].
  intros H Hl. apply bind_Some in H as ([[en e] d1] & He & H). apply emulate_length in He.
  destruct en; [apply IH in H; [done|]|injection H as _ <- _]; rewrite length_app; lia.
Qed.

(** C38: [GetPointerEvents] has at all times written fewer events than the list has places,
    [GetMaximumEventsNum], and two more for every barrier that a step of the pointer can meet, whatever
    the report, the axes and the state of the device, and however many clicks a turn of the wheel stands
    for: after any number of rounds of the loops over the clicks, whether they have ended or not. *)
Theorem GetPointerEvents_fits fuel on_screen d t b fl m ended evs d' :
  GetPointerEvents screenInfo scr AccelSchemeProc env fuel on_screen d t b fl m = Some (ended, evs, d') ->
  Z.of_nat (length evs) < GetMaximumEventsNum + 2 * B.
Proof.
  intros H. enough (Z.of_nat (length evs) <= GetMaximumEventsNum - 1 + 2 * B) by lia. revert H.
  unfold GetPointerEvents, GetMaximumEventsNum. destruct (_ || _); [intros [= _ <- _]; cbn; lia|].
  destruct (UpdateFromMaster screenInfo d) as [e0 d0] eqn:E0. intros H.
  apply bind_Some in H as ([[[[t1 b1] fl1] d1] m1] & _ & H). apply bind_Some in H as ([e1 d2] & He1 & H).
  apply scroll_axes_length in H; [done|]. apply fill_length in He1. rewrite length_app.
  assert (length e0 <= 1)%nat by (revert E0; unfold UpdateFromMaster; destruct (_ && _); intros [= <- _]; cbn; lia).
  unfold GetMaximumEventsNum. lia.
Qed.
End bounds.

(** ** The mouse, away from barriers *)

(** A turn of one axis. *)
Definition turn (i : nat) (v : double) : ValuatorMask := valuator_mask_set_double valuator_mask_zero i v.

Lemma storeLastValuators_length m p d : length (last_valuators (storeLastValuators m p d)) = length (last_valuators d).
Proof.
  unfold storeLastValuators. cbn [last_valuators with_last].
  assert (forall l v, length (foldl (fun l i => if negb ((i =? 0) || (i =? 1))%nat && valuator_mask_isset m i then <[i := valuator_mask_get_double m i]> l else l) v l) = length v) as ->.
  { intros l. induction l as [|i l IH]; intros v; cbn [foldl]; [done|]. rewrite IH. destruct (_ && _); [apply length_insert|done]. }
  destruct (valuator_mask_isset m 0), (valuator_mask_isset m 1); by rewrite ?length_insert.
Qed.

Lemma storeLastValuators_pos m p q d :
  valuator_mask_isset m 0 = false -> valuator_mask_isset m 1 = false -> storeLastValuators m p d = storeLastValuators m q d.
Proof. intros H0 H1. unfold storeLastValuators. by rewrite H0, H1. Qed.

Lemma mouse_last l d : mouse d -> length l = length (last_valuators d) -> mouse (with_last l d).
Proof. unfold mouse. cbn. intros (H1 & H2 & H3 & H4 & H5 & H6) E. by rewrite E. Qed.

Lemma mouse_scroll m d : mouse d -> length m = length (last_scroll d) -> mouse (with_scroll m d).
Proof. unfold mouse. cbn. intros (H1 & H2 & H3 & H4 & H5 & H6) E. by rewrite E. Qed.

Lemma mouse_axis_ranged d i : mouse d -> ranged (axis d i) = false.
Proof. intros (_ & _ & _ & (v & _ & E) & _). unfold axis. rewrite E. destruct i as [|[|[|[|i]]]]; reflexivity. Qed.

Lemma mouse_clipAxis d i x : mouse d -> clipAxis d i x = x.
Proof. intros H. apply (mouse_axis_ranged d i) in H. unfold clipAxis. destruct (axis d i) as [a|]; [|done]. cbn in H. by rewrite (proj2 (Z.leb_le _ _)) by lia. Qed.

Lemma mouse_clip d m : mouse d -> clipValuators d m = m.
Proof.
  intros H. unfold clipValuators. induction (seq 0 (valuator_mask_size m)) as [|i l IH]; cbn [foldl]; [done|].
  destruct (valuator_mask_isset m i) eqn:E; [|done].
  enough (clip_one d i m = m) as -> by done. unfold clip_one, valuator_mask_set_double. rewrite mouse_clipAxis by done.
  unfold valuator_mask_isset in E. unfold valuator_mask_get_double. apply list_insert_id. unfold ValuatorMask in *. destruct (m !! i) as [[x|]|]; done.
Qed.

Section wheel.
Context (screenInfo scr : Rect) (AccelSchemeProc : option (Dev -> ValuatorMask -> ValuatorMask))
  (env : Surroundings).
Context (Hbarriers : forall s x y, (input_constrain_cursor env s x y).2 = 0).

Local Abbreviation fill := (fill_pointer_events screenInfo scr AccelSchemeProc env).

Lemma positionSprite_keeps abs d m p : valuator_mask_isset m 0 = false -> valuator_mask_isset m 1 = false ->
  exists p' s, positionSprite screenInfo scr env abs d m p = (p', m, 0, s).
Proof.
  intros H0 H1. unfold positionSprite. destruct (_ <? _)%nat; [by eexists _, _|].
  assert ((miPointerSetPosition scr env abs (sprite d) (screenx p) (screeny p)).1.2 = 0) as Hn.
  { unfold miPointerSetPosition. destruct abs; [by destruct (RRConstrainCursorHarder _ _ _ _)|].
    match goal with |- context [input_constrain_cursor env ?s ?a ?b] => specialize (Hbarriers s a b) end.
    destruct (input_constrain_cursor _ _ _ _) as [[u v] n]. by destruct (RRConstrainCursorHarder _ _ _ _). }
  destruct (miPointerSetPosition _ _ _ _ _ _) as [[[sx sy] n] s]. cbn [fst snd] in Hn. rewrite H0, H1, Hn. by eexists _, _.
Qed.

(** Nothing but the values and the buttons of the device changes. *)
Definition same_wheels (d d' : Dev) : Prop := mouse d' /\ last_scroll d' = last_scroll d.

Lemma fill_mouse d t b fl m0 m1 data L : mouse d -> refused d t b m0 = false ->
  has fl POINTER_NORAW = false -> has fl POINTER_SCREEN = false -> has fl POINTER_RAWONLY = false ->
  device_values screenInfo scr AccelSchemeProc fl d (valuator_mask_copy m0) = Some (0, 0, d, m1, data) ->
  valuator_mask_isset m1 0 = false -> valuator_mask_isset m1 1 = false -> set_valuators d m1 = Some L ->
  exists x y d', fill d t b fl m0 =
    Some ([Raw t b (has fl POINTER_EMULATED) (valuator_mask_copy m0) data;
           Device t (match t with MotionNotify => 0 | _ => b end) (has fl POINTER_EMULATED) x y L], d') /\
    same_wheels d d' /\ forall p, last_valuators d' = last_valuators (storeLastValuators m1 p d).
Proof.
  intros Hd Hr Hn Hs Ho Hv H0 H1 HL. unfold fill_pointer_events. rewrite Hr, Hv, Hn, Hs, Ho. cbn [mbind option_bind].
  edestruct positionSprite_keeps as (p & s & ->); [done..|]. rewrite mouse_clip by done. cbn [seqZ Z.to_nat seq fmap list_fmap app].
  set (d1 := storeLastValuators m1 p (with_sprite s d)). set (d2 := if attached d1 then with_master _ _ _ d1 else d1).
  assert (mouse d1) as Hd1 by (apply mouse_last; [done|exact (storeLastValuators_length m1 p (with_sprite s d))]).
  assert (mouse d2) as Hd2 by (unfold d2; by destruct (attached d1)).
  assert (last_scroll d2 = last_scroll d) as Es by (unfold d2; by destruct (attached d1)).
  assert (last_valuators d2 = last_valuators d1) as El by (unfold d2; by destruct (attached d1)).
  assert (valuator d2 = valuator d) as Ev by (unfold d2; by destruct (attached d1)).
  set (d3 := match t with MotionNotify => d2 | ButtonPress => set_button_down b d2 | ButtonRelease => set_button_up b d2 end).
  assert (valuator d3 = valuator d /\ last_valuators d3 = last_valuators d1 /\ same_wheels d d3) as (E3 & El3 & Hw)
    by (unfold d3, same_wheels; destruct t; by split).
  assert (set_valuators d3 m1 = Some L) as -> by (rewrite <- HL; unfold set_valuators; by rewrite E3).
  eexists _, _, d3. split; [done|split; [done|]]. intros q. rewrite El3. unfold d1. by rewrite (storeLastValuators_pos m1 p q).
Qed.

Lemma set_valuators_turn d i v : mouse d -> i = 2%nat \/ i = 3%nat -> exists L, set_valuators d (turn i v) = Some L.
Proof.
  intros (_ & _ & _ & (av & Hl & E) & _) Hi. destruct av as [|a [|b [|c [|e [|]]]]]; try done.
  unfold set_valuators. rewrite E. destruct Hi as [->| ->]; by eexists.
Qed.

Lemma transformRelative_turn d i v : mouse d -> i = 2%nat \/ i = 3%nat -> transformRelative d (turn i v) = turn i v.
Proof. intros (_ & _ & E & _) Hi. unfold transformRelative. rewrite E. by destruct Hi as [->| ->]. Qed.

(** Whether [add_to_scroll_valuator] starts again at 0. *)
Definition overflows (v value : double) : bool :=
  gt value f0 && gt v (f64_sub INT_MAX value) || SFltb value f0 && SFltb v (f64_sub INT_MIN value).

Lemma moveRelative_turn d i v : mouse d -> i = 2%nat \/ i = 3%nat -> overflows v (last_valuator d i) = false ->
  moveRelative screenInfo POINTER_RELATIVE d (turn i v) = Some (d, turn i (f64_add v (last_valuator d i))).
Proof.
  intros Hd Hi Ho. unfold moveRelative. rewrite (mouse_axis_ranged d 0 Hd). cbn [andb]. rewrite andb_false_r. cbn [andb].
  destruct Hd as (_ & _ & _ & (av & _ & E) & _).
  assert (valuator_mask_size (turn i v) = S i) as -> by (by destruct Hi as [->| ->]).
  assert (exists a, axis d i = Some a /\ absolute a = false) as (a & Ea & Eb)
    by (unfold axis; rewrite E; destruct Hi as [->| ->]; by eexists).
  assert (move_axis (d, turn i v) i = Some (d, turn i (f64_add v (last_valuator d i)))) as Hm.
  { unfold move_axis, add_to_scroll_valuator.
    assert (valuator_mask_isset (turn i v) i = true) as -> by (by destruct Hi as [->| ->]).
    assert (valuator_mask_get_double (turn i v) i = v) as -> by (by destruct Hi as [->| ->]).
    unfold overflows in Ho. rewrite Ho, Ea. cbn [mbind option_bind]. rewrite Eb. cbn [andb].
    unfold turn, valuator_mask_set_double. by destruct Hi as [->| ->]. }
  assert (forall j, valuator_mask_isset (turn i v) j = false -> move_axis (d, turn i v) j = Some (d, turn i v)) as Hn
    by (intros j Ej; unfold move_axis; by rewrite Ej).
  destruct Hi as [->| ->]; cbn [seq foldM]; repeat (rewrite Hn by done; cbn [mbind option_bind foldM]); by rewrite Hm.
Qed.

Lemma fill_turn d i v : mouse d -> i = 2%nat \/ i = 3%nat -> overflows v (last_valuator d i) = false ->
  exists x y L d', fill d MotionNotify 0 POINTER_RELATIVE (Some (turn i v)) =
    Some ([Raw MotionNotify 0 false (turn i v) (turn i v); Device MotionNotify 0 false x y L], d') /\
    same_wheels d d' /\ last_valuators d' = <[i := f64_add v (last_valuator d i)]> (last_valuators d).
Proof.
  intros Hd Hi Ho. destruct (set_valuators_turn d i (f64_add v (last_valuator d i)) Hd Hi) as (L & HL).
  edestruct (fill_mouse d MotionNotify 0 POINTER_RELATIVE (Some (turn i v)) (turn i (f64_add v (last_valuator d i))) (turn i v) L)
    as (x & y & d' & Hf & Hw & Hl); [done| |done..| | | |done|].
  - destruct Hd as (_ & _ & _ & (av & _ & E) & _). unfold refused. rewrite E. by destruct Hi as [->| ->].
  - unfold device_values. change (has POINTER_RELATIVE POINTER_ABSOLUTE) with false. change (has POINTER_RELATIVE POINTER_ACCELERATE) with false.
    change (valuator_mask_copy (Some (turn i v))) with (turn i v). rewrite transformRelative_turn, moveRelative_turn by done. done.
  - by destruct Hi as [->| ->].
  - by destruct Hi as [->| ->].
  - exists x, y, L, d'. split; [done|split; [done|]]. rewrite (Hl {| devx := f0; devy := f0; screenx := f0; screeny := f0 |}).
    by destruct Hi as [->| ->].
Qed.

Lemma fill_click d t b : mouse d -> t <> MotionNotify -> b <> 0 ->
  exists x y d', fill d t b POINTER_EMULATED None =
    Some ([Raw t b true valuator_mask_zero valuator_mask_zero; Device t b true x y []], d') /\
    same_wheels d d' /\ last_valuators d' = last_valuators d.
Proof.
  intros Hd Ht Hb. edestruct (fill_mouse d t b POINTER_EMULATED None valuator_mask_zero valuator_mask_zero [])
    as (x & y & d' & Hf & Hw & Hl); [done| |done..| |done|done|done|].
  - destruct Hd as (_ & E & _). unfold refused. rewrite E, (proj2 (Z.eqb_neq b 0)) by done. by destruct t.
  - destruct Hd as (_ & _ & E & (av & _ & Ev) & _). unfold device_values, transformRelative, moveRelative. change (valuator_mask_copy None) with valuator_mask_zero.
    rewrite E. change (has POINTER_EMULATED POINTER_ABSOLUTE) with false. change (has POINTER_EMULATED POINTER_ACCELERATE) with false.
    unfold axis, ranged. rewrite Ev. reflexivity.
  - exists x, y, d'. rewrite (Hl {| devx := f0; devy := f0; screenx := f0; screeny := f0 |}). split; [|by split]. by destruct t.
Qed.

(** [n] clicks. *)
Fixpoint clicks (b : Z) (n : nat) : list (pointer_type * Z) :=
  match n with O => [] | S n => (ButtonPress, b) :: (ButtonRelease, b) :: clicks b n end.

Lemma posted_app l l' : posted (l ++ l') = posted l ++ posted l'.
Proof. apply omap_app. Qed.

(** The values of the axes are multiples of [2^e]; an increment is [D] of them. *)
Context (e : Z) (He : -21 <= e <= 0).
Local Abbreviation D := (2 ^ (- e)).
Local Abbreviation dyad := (dyad e).

Lemma D_bounds : 1 <= D <= 2 ^ 21.
Proof. split; [apply (Z.pow_le_mono_r 2 0); lia|apply Z.pow_le_mono_r; lia]. Qed.

Lemma f1_grid : f1 = dyad D.
Proof.
  pose proof D_bounds. unfold f1. change (f64_of_int 1) with (ExactDoubles.dyad 0 1).
  rewrite (dyad_refine e 0 1) by (rewrite ?Z.sub_0_l, ?Z.mul_1_l; unfold small; lia). by rewrite Z.sub_0_l, Z.mul_1_l.
Qed.

Lemma click_step d evs j b : mouse d -> b <> 0 -> length evs = (4 * j)%nat ->
  exists e1 d1 e2 d2, fill d ButtonPress b POINTER_EMULATED None = Some (e1, d1) /\ fill d1 ButtonRelease b POINTER_EMULATED None = Some (e2, d2) /\
    same_wheels d d2 /\ last_valuators d2 = last_valuators d /\ length (evs ++ e1 ++ e2) = (4 * S j)%nat /\
    posted (evs ++ e1 ++ e2) = posted evs ++ [(ButtonPress, b); (ButtonRelease, b)].
Proof.
  intros Hd Hb Hl. destruct (fill_click d ButtonPress b) as (x1 & y1 & d1 & E1 & [Hd1 Hs1] & Hl1); [done..|].
  destruct (fill_click d1 ButtonRelease b) as (x2 & y2 & d2 & E2 & [Hd2 Hs2] & Hl2); [done..|].
  eexists _, _, _, _. split; [done|split; [done|]]. rewrite Hl2, Hl1, !length_app, posted_app, Hl.
  split; [split; [done|congruence]|split; [done|split; [cbn; lia|done]]].
Qed.

(** A step of the loop makes the rest smaller by an increment. *)
Lemma delta_step t : small t -> D <= Z.abs t ->
  exists t', (if gt (dyad t) f0 then f64_sub (dyad t) (SFabs f1) else if SFltb (dyad t) f0 then f64_add (dyad t) (SFabs f1) else dyad t) = dyad t' /\
    small t' /\ Z.abs t / D = Z.abs t' / D + 1 /\ Z.rem t' D = Z.rem t D.
Proof.
  pose proof D_bounds as HD. unfold small. intros Ht Hle. change f0 with (dyad 0).
  rewrite f1_grid, grid_abs, (Z.abs_eq D) by (unfold small in *; lia). unfold gt. rewrite !grid_ltb by (unfold small in *; lia).
  assert (forall x, Z.abs x = Z.abs t - D -> Z.abs t / D = Z.abs x / D + 1) as Hq.
  { intros x Hx. replace (Z.abs t) with (Z.abs x + 1 * D) by lia. apply Z.div_add. lia. }
  destruct (Z.ltb_spec 0 t) as [Hp|Hp].
  - exists (t - D). rewrite grid_sub by (unfold small in *; lia). split; [done|split; [lia|split; [apply Hq; lia|]]].
    replace (t - D) with (t + (-1) * D) by lia. apply Z.rem_add; nia.
  - destruct (Z.ltb_spec t 0) as [Hn|Hn]; [|lia]. exists (t + D). rewrite grid_add by (unfold small in *; lia).
    split; [done|split; [lia|split; [apply Hq; lia|]]].
    replace (t + D) with (t + 1 * D) by lia. apply Z.rem_add; nia.
Qed.

(** The loop over the clicks ends, with all the clicks there is room for. *)
Lemma scroll_loop_turn b M : b <> 0 -> 97 <= M <= 98 -> forall n fuel t evs d j,
  mouse d -> small t -> Z.abs t / D = Z.of_nat n -> (n <= fuel)%nat -> length evs = (4 * j)%nat -> (j <= 24)%nat ->
  exists evs' d', scroll_loop screenInfo scr AccelSchemeProc env fuel MotionNotify b POINTER_EMULATED M f1 (dyad t) evs d =
      Some (true, dyad (Z.rem t D), evs', d') /\
    posted evs' = posted evs ++ clicks b (Nat.min n (24 - j)) /\ same_wheels d d' /\ last_valuators d' = last_valuators d.
Proof.
  intros Hb HM. pose proof D_bounds as HD. induction n as [|n IH]; intros fuel t evs d j Hd Ht Hn Hf Hl Hj.
  all: assert (SFleb (SFabs f1) (SFabs (dyad t)) = (D <=? Z.abs t)) as Hc
    by (rewrite f1_grid, !grid_abs, (Z.abs_eq D), grid_leb by (unfold small in *; lia); done).
  - assert (Z.abs t < D) by (apply Z.div_small_iff in Hn; lia).
    exists evs, d. rewrite (proj2 (Z.rem_small_iff t D ltac:(lia))) by lia. cbn [Nat.min clicks]. rewrite app_nil_r.
    split; [|done]. destruct fuel; cbn [scroll_loop]; rewrite Hc, (proj2 (Z.leb_gt _ _)) by lia; done.
  - assert (D <= Z.abs t) as Hle. { apply Z.nlt_ge. intros Hlt. rewrite Z.div_small in Hn by lia. lia. }
    destruct fuel as [|fuel]; [lia|]. cbn [scroll_loop]. rewrite Hc, (proj2 (Z.leb_le _ _)) by lia.
    destruct (delta_step t Ht Hle) as (t' & -> & Ht' & Hdiv & <-).
    rewrite (decide_False (P := MotionNotify = ButtonRelease)) by done.
    destruct (Z.ltb_spec (Z.of_nat (length evs) + 4) M) as [Hlt|Hge].
    + destruct (click_step d evs j b Hd Hb Hl) as (e1 & d1 & e2 & d2 & -> & E2 & [Hd2 Hs2] & Hl2 & Hlen & Hp).
      cbn [mbind option_bind]. rewrite decide_False, E2 by done. cbn [mbind option_bind].
      destruct (IH fuel t' (evs ++ e1 ++ e2) d2 (S j)) as (evs' & d' & -> & Hp' & [Hd' Hs'] & Hl'); [done|done|lia|lia|done|lia|].
      exists evs', d'. split; [done|]. split; [|split; [split; congruence|congruence]].
      rewrite Hp', Hp. replace (Nat.min (S n) (24 - j)) with (S (Nat.min n (24 - S j))) by lia. by rewrite <- app_assoc.
    + cbn [mbind option_bind]. destruct (IH fuel t' evs d j) as (evs' & d' & -> & Hp' & Hw & Hl'); [done|done|lia|lia|done|done|].
      exists evs', d'. split; [done|split; [|done]]. by replace (Nat.min (S n) (24 - j)) with (Nat.min n (24 - j)) by lia.
Qed.

(** The button of the clicks of an axis that moves by [t]. *)
Definition wheel_click (i : nat) (t : Z) : Z := (if (i =? 2)%nat then 7 else 5) - (if t <? 0 then 1 else 0).

(** The device with a state of the clicks of its axis. *)
Definition opened (i : nat) (d : Dev) : Dev :=
  if valuator_mask_isset (last_scroll d) i then d else with_scroll (valuator_mask_set_double (last_scroll d) i f0) d.

Lemma get_set m i v : (i < length m)%nat -> valuator_mask_get_double (valuator_mask_set_double m i v) i = v.
Proof. intros Hi. unfold valuator_mask_get_double, valuator_mask_set_double, ValuatorMask in *. by rewrite list_lookup_insert_eq. Qed.

Lemma get_unset m i : valuator_mask_isset m i = false -> valuator_mask_get_double m i = f0.
Proof.
  unfold valuator_mask_isset, valuator_mask_get_double, ValuatorMask in *. intros H.
  destruct (m !! i) as [[v|]|]; done.
Qed.

Lemma mouse_scroll_axis d i : mouse d -> i = 2%nat \/ i = 3%nat -> (i < length (last_scroll d))%nat /\ (i < length (last_valuators d))%nat.
Proof. intros (_ & _ & _ & _ & E1 & E2) Hi. rewrite E1, E2. unfold MAX_VALUATORS. lia. Qed.

Lemma opened_ok d i : mouse d -> i = 2%nat \/ i = 3%nat ->
  mouse (opened i d) /\ last_valuators (opened i d) = last_valuators d /\
  valuator_mask_get_double (last_scroll (opened i d)) i = valuator_mask_get_double (last_scroll d) i.
Proof.
  intros Hd Hi. unfold opened. destruct (valuator_mask_isset _ _) eqn:E; [done|].
  split; [apply mouse_scroll; [done|apply length_insert]|split; [done|]].
  cbn [last_scroll with_scroll]. rewrite get_set by (by apply mouse_scroll_axis). by rewrite get_unset.
Qed.

Lemma emulate_eq fuel d i s M t : mouse d -> i = 2%nat \/ i = 3%nat -> valuator_mask_isset s i = true -> small t ->
  f64_sub (valuator_mask_get_double s i) (valuator_mask_get_double (last_scroll d) i) = dyad t ->
  emulate_scroll_button_events screenInfo scr AccelSchemeProc env fuel d MotionNotify i s M =
    ('((ended, delta, events, d) : bool * double * list Event * Dev) ←
       scroll_loop screenInfo scr AccelSchemeProc env fuel MotionNotify (wheel_click i t) POINTER_EMULATED M f1 (dyad t) [] (opened i d);
     Some (ended, events,
       if negb ended || SFeqb (dyad t) delta then d
       else with_scroll (valuator_mask_set_double (last_scroll d) i
              (f64_add (valuator_mask_get_double (last_scroll d) i) (f64_sub (dyad t) delta))) d)).
Proof.
  intros Hd Hi Hs Ht Hsub. destruct (opened_ok d i Hd Hi) as (_ & _ & Hc).
  assert (SFltb (dyad t) f0 = (t <? 0)) as Hlt by (change f0 with (dyad 0); rewrite grid_ltb by (unfold small in *; lia); done).
  unfold emulate_scroll_button_events.
  assert (exists a, axis d i = Some a /\ increment a = f1 /\ scroll_type a = if (i =? 2)%nat then SCROLL_TYPE_HORIZONTAL else SCROLL_TYPE_VERTICAL)
    as (a & -> & Ei & Et) by (destruct Hd as (_ & _ & _ & (av & _ & E) & _); unfold axis; rewrite E; destruct Hi as [->| ->]; by eexists).
  fold (opened i d). cbn [mbind option_bind]. rewrite Et, Ei, Hs, Hc, Hsub, Hlt.
  change (nonzero f1) with true. change (gt f1 f0) with true. change (SFltb f1 f0) with false. cbn [negb orb andb]. rewrite orb_false_r.
  unfold wheel_click. destruct Hi as [->| ->]; cbn [Nat.eqb]; by destruct (t <? 0).
Qed.

(** Dividing towards zero does not leave the range between the two values. *)
Lemma quot_between c t : small c -> small t -> small (c + t) ->
  small (t - Z.rem t D) /\ small (c + (t - Z.rem t D)) /\ Z.abs (Z.rem t D) <= Z.abs t /\ t - Z.rem t D = Z.quot t D * D.
Proof.
  pose proof D_bounds as HD. unfold small. intros Hc Ht Hct. split; [|split; [|split; [|pose proof (Z.quot_rem t D ltac:(lia)); lia]]].
  all: destruct (Z.le_ge_cases 0 t) as [H|H]; [pose proof (Z.rem_nonneg t D ltac:(lia) H)|pose proof (Z.rem_nonpos t D ltac:(lia) H)].
  all: assert (Z.abs (Z.rem t D) <= Z.abs t)
    by (rewrite <- Z.rem_abs by lia; rewrite Z.rem_mod_nonneg by lia; apply Z.mod_le; lia); lia.
Qed.

Lemma emulate_turn fuel d i s M x c : mouse d -> i = 2%nat \/ i = 3%nat -> 97 <= M <= 98 ->
  valuator_mask_isset s i = true -> valuator_mask_get_double s i = dyad x -> valuator_mask_get_double (last_scroll d) i = dyad c ->
  small x -> small c -> small (x - c) -> Z.abs (x - c) / D <= Z.of_nat fuel ->
  exists evs d', emulate_scroll_button_events screenInfo scr AccelSchemeProc env fuel d MotionNotify i s M = Some (true, evs, d') /\
    posted evs = clicks (wheel_click i (x - c)) (Nat.min (Z.to_nat (Z.abs (x - c) / D)) 24) /\ mouse d' /\
    last_valuators d' = last_valuators d /\ valuator_mask_get_double (last_scroll d') i = dyad (c + Z.quot (x - c) D * D).
Proof.
  intros Hd Hi HM Hs Hx Hc Hsx Hsc Hst Hf. pose proof D_bounds as HD.
  rewrite (emulate_eq fuel d i s M (x - c)) by (done || (rewrite Hx, Hc; apply grid_sub; unfold small in *; lia)).
  destruct (opened_ok d i Hd Hi) as (Hd1 & Hl1 & Hc1). set (t := x - c) in *.
  destruct (scroll_loop_turn (wheel_click i t) M) with (n := Z.to_nat (Z.abs t / D)) (fuel := fuel) (t := t) (evs := @nil Event) (d := opened i d) (j := 0%nat)
    as (evs & d2 & -> & Hp & [Hd2 Hs2] & Hl2); [|done|done|done| |lia|done|lia|].
  { unfold wheel_click. destruct (_ =? _)%nat, (_ <? _); lia. }
  { rewrite Z2Nat.id by (apply Z.div_pos; lia). done. }
  destruct (quot_between c t) as (H1 & H2 & H3 & <-); [done|done|by replace (c + t) with x by lia|].
  assert (small (Z.rem t D)) by (unfold small in *; lia). cbn [mbind option_bind].
  cbn [negb orb]. rewrite grid_eqb, Hs2, Hc1, Hc, grid_sub, grid_add by (done || lia).
  eexists _, _. split; [done|split; [done|]]. assert (length (last_scroll d2) = MAX_VALUATORS) as E2 by apply Hd2.
  destruct (Z.eqb_spec t (Z.rem t D)) as [E|E].
  - rewrite Hs2, Hc1, Hc, Hl2, Hl1. replace (c + (t - Z.rem t D)) with c by lia. done.
  - cbn [last_scroll last_valuators with_scroll]. rewrite get_set by (rewrite <- Hs2; by apply mouse_scroll_axis). rewrite Hl2, Hl1.
    split; [apply mouse_scroll; [done|]|done]. rewrite <- Hs2. apply length_insert.
Qed.

(** ** Turns of the wheel *)

Lemma UpdateFromMaster_wheel d : mouse d -> exists e0 d0, UpdateFromMaster screenInfo d = (e0, d0) /\ mouse d0 /\ posted e0 = [] /\
  (length e0 <= 1)%nat /\ last_scroll d0 = last_scroll d /\ forall i, i = 2%nat \/ i = 3%nat -> last_valuator d0 i = last_valuator d i.
Proof.
  intros Hd. unfold UpdateFromMaster. destruct (_ && _); [|exists [], d; split; [done|split; [done|split; [done|split; [cbn; lia|done]]]]].
  eexists _, _. split; [done|].
  assert (mouse (updateSlaveDeviceCoords screenInfo d)) as H.
  { apply mouse_last; [done|]. destruct (_ <? _)%nat, (_ <? _)%nat; by rewrite !length_insert. }
  split; [exact H|split; [done|split; [done|split; [done|]]]].
  intros i Hi. unfold last_valuator, updateSlaveDeviceCoords. cbn [last_valuators with_last with_master].
  assert (forall l j v, (j < 2)%nat -> nth i (<[j := v]> l) f0 = nth i l f0) as Hn.
  { intros l j v Hj. rewrite !nth_lookup, list_lookup_insert_ne; [done|lia]. }
  destruct (_ <? _)%nat, (_ <? _)%nat; by rewrite !Hn by lia.
Qed.

(** The values that 32.32 fixed point has room for. *)
Definition in_range (x : Z) : Prop := - 2 ^ 31 * D <= x <= (2 ^ 31 - 1) * D.

Lemma in_range_small x y : in_range x -> in_range y -> small x /\ small (x - y).
Proof. pose proof D_bounds. unfold in_range, small. lia. Qed.

Lemma in_range_no_overflow a k : in_range a -> in_range (a + k) -> overflows (dyad k) (dyad a) = false.
Proof.
  pose proof D_bounds as HD. intros Ha Hak. destruct (in_range_small _ _ Hak Ha) as [_ Hk]. replace (a + k - a) with k in Hk by lia.
  destruct (in_range_small a a Ha Ha) as [Hsa _]. unfold in_range in *. unfold overflows, gt.
  assert (INT_MAX = dyad ((2 ^ 31 - 1) * D)) as ->.
  { change INT_MAX with (ExactDoubles.dyad 0 (2 ^ 31 - 1)). rewrite (dyad_refine e 0); replace (0 - e) with (- e) by lia; unfold small; done || lia. }
  assert (INT_MIN = dyad (- 2 ^ 31 * D)) as ->.
  { change INT_MIN with (ExactDoubles.dyad 0 (- 2 ^ 31)). rewrite (dyad_refine e 0); replace (0 - e) with (- e) by lia; unfold small; done || lia. }
  change f0 with (dyad 0). rewrite (grid_ltb e ltac:(lia) 0 a), (grid_ltb e ltac:(lia) a 0) by (unfold small in *; lia).
  destruct (Z.ltb_spec 0 a), (Z.ltb_spec a 0); cbn [andb orb]; try lia; try done.
  - rewrite grid_sub, grid_ltb by (unfold small in *; lia). rewrite orb_false_r. apply Z.ltb_ge. lia.
  - rewrite grid_sub, grid_ltb by (unfold small in *; lia). apply Z.ltb_ge. lia.
Qed.

(** What [handleLorieEvents] reports for a turn of the wheel. *)
Definition wheel_event (i : nat) (v : double) : pointer_event := {|
  pe_device := lorieMouse; pe_type := MotionNotify; pe_button := 0; pe_flags := POINTER_RELATIVE; pe_mask := <[Z.of_nat i := v]> ∅;
|}.

Lemma to_mask_wheel i v : i = 2%nat \/ i = 3%nat -> to_mask (pe_mask (wheel_event i v)) = turn i v.
Proof. by intros [->| ->]. Qed.

(** An increment less than 2^54 is 2^54. *)
Lemma scroll_loop_stuck b M fuel : b <> 0 -> forall evs d j, mouse d -> length evs = (4 * j)%nat ->
  exists evs' d', scroll_loop screenInfo scr AccelSchemeProc env fuel MotionNotify b POINTER_EMULATED M f1 (f64_of_int (2 ^ 54)) evs d =
    Some (false, f64_of_int (2 ^ 54), evs', d').
Proof.
  intros Hb. induction fuel as [|fuel IH]; intros evs d j Hd Hl; cbn [scroll_loop].
  all: change (SFleb (SFabs f1) (SFabs (f64_of_int (2 ^ 54)))) with true; cbn match.
  { by eexists _, _. }
  change (gt (f64_of_int (2 ^ 54)) f0) with true. cbn match.
  assert (f64_sub (f64_of_int (2 ^ 54)) (SFabs f1) = f64_of_int (2 ^ 54)) as -> by (by vm_compute).
  rewrite (decide_False (P := MotionNotify = ButtonRelease)) by done.
  destruct (_ <? _); [|by apply (IH evs d j)].
  destruct (click_step d evs j b Hd Hb Hl) as (e1 & d1 & e2 & d2 & -> & E2 & [Hd2 _] & _ & Hlen & _).
  cbn [mbind option_bind]. rewrite decide_False, E2 by done. cbn [mbind option_bind]. by apply (IH _ d2 (S j)).
Qed.

Local Abbreviation events := (queued_events screenInfo scr AccelSchemeProc env).

Lemma scroll_axes_turn fuel d i v pre : mouse d -> i = 2%nat \/ i = 3%nat ->
  scroll_axes screenInfo scr AccelSchemeProc env fuel MotionNotify (turn i v) (seq 0 (valuator_mask_size (turn i v))) valuator_mask_zero pre d =
    ('((ended, e, d) : bool * list Event * Dev) ←
       emulate_scroll_button_events screenInfo scr AccelSchemeProc env fuel d MotionNotify i (turn i (last_valuator d i)) (GetMaximumEventsNum - Z.of_nat (length pre));
     Some (ended, pre ++ e, d)).
Proof.
  intros Hd Hi. assert (numAxes d = 4%nat) as En by (destruct Hd as (_ & _ & _ & (av & _ & E) & _); unfold numAxes; by rewrite E).
  assert (forall j, (j < i)%nat -> valuator_mask_isset (turn i v) j = false) as Hn by (intros j Hj; destruct Hi as [->| ->]; do 3 (destruct j as [|j]; [done || lia|]); lia).
  assert (valuator_mask_isset (turn i v) i = true) as Hs by (by destruct Hi as [->| ->]).
  assert (valuator_mask_size (turn i v) = S i) as -> by (by destruct Hi as [->| ->]).
  destruct Hi as [->| ->]; cbn [seq scroll_axes]; rewrite En; cbn [Nat.leb]; rewrite !Hn, Hs by lia; cbn [negb]; destruct (emulate_scroll_button_events _ _ _ _ _ _ _ _ _ _) as [[[[|] e0] d0]|]; reflexivity.
Qed.

(** The report of a turn, up to the clicks. *)
Lemma turn_events fuel d i v w : mouse d -> i = 2%nat \/ i = 3%nat ->
  overflows v (last_valuator d i) = false -> w = f64_add v (last_valuator d i) ->
  exists pre d2, posted pre = [(MotionNotify, 0)] /\ (2 <= length pre <= 3)%nat /\ mouse d2 /\ last_valuator d2 i = w /\ last_scroll d2 = last_scroll d /\
    events fuel d (wheel_event i v) =
      ('((ended, e, d) : bool * list Event * Dev) ←
         emulate_scroll_button_events screenInfo scr AccelSchemeProc env fuel d2 MotionNotify i (turn i w) (GetMaximumEventsNum - Z.of_nat (length pre));
       Some (ended, pre ++ e, d)).
Proof.
  intros Hd Hi Ho ->. destruct (UpdateFromMaster_wheel d Hd) as (e0 & d0 & E0 & Hd0 & Hp0 & Hl0 & Hs0 & Hv0). specialize (Hv0 i Hi).
  rewrite <- Hv0 in Ho |- *. destruct (fill_turn d0 i v Hd0 Hi Ho) as (x & y & L & d2 & Hf & [Hd2 Hs2] & Hl2).
  set (e1 := [Raw MotionNotify 0 false (turn i v) (turn i v); Device MotionNotify 0 false x y L]) in *.
  exists (e0 ++ e1), d2.
  assert (last_valuator d2 i = f64_add v (last_valuator d0 i)) as Hv2.
  { unfold last_valuator. rewrite Hl2, nth_lookup, list_lookup_insert_eq by (by apply mouse_scroll_axis). done. }
  split; [by rewrite posted_app, Hp0|]. split; [rewrite length_app; cbn [length e1]; lia|].
  split; [done|split; [done|split; [congruence|]]].
  unfold queued_events. rewrite to_mask_wheel by done. unfold GetPointerEvents. cbn [pe_type pe_button pe_flags wheel_event].
  assert (enabled d = true) as -> by apply Hd. cbn [negb orb MAX_BUTTONS Z.leb Z.compare]. rewrite E0.
  cbn [wheel_button mbind option_bind]. change (valuator_mask_copy (Some (turn i v))) with (turn i v). rewrite Hf. cbn [mbind option_bind].
  rewrite scroll_axes_turn by done. by rewrite Hv2.
Qed.

(** C27: the wheel of the mouse, in steps of [2^e] for any [e] down to -21. A turn by [k] steps
    is told as one motion, with the axis [k] steps further, and as clicks of the
    buttons 4 and 5, or 6 and 7, one for every whole increment between the state of the axis and what earlier
    clicks have told, up to 24; the rest that is less than an increment stays for the next
    turn. The loop over the clicks ends. This needs that the state of the axis before ([a]) and
    behind the turn and what clicks have told ([c]) are within [int]: [huge_turn_hangs] is a turn where
    they are not. *)
Theorem wheel_turns_click fuel d i a k c :
  mouse d -> i = 2%nat \/ i = 3%nat -> last_valuator d i = dyad a -> valuator_mask_get_double (last_scroll d) i = dyad c ->
  in_range a -> in_range c -> in_range (a + k) -> Z.abs (a + k - c) / D <= Z.of_nat fuel ->
  exists evs d', events fuel d (wheel_event i (dyad k)) = Some (true, evs, d') /\
    posted evs = (MotionNotify, 0) :: clicks (wheel_click i (a + k - c)) (Nat.min (Z.to_nat (Z.abs (a + k - c) / D)) 24) /\
    mouse d' /\ last_valuator d' i = dyad (a + k) /\
    valuator_mask_get_double (last_scroll d') i = dyad (c + Z.quot (a + k - c) D * D).
Proof.
  intros Hd Hi Ha Hc Ra Rc Rak Hf. destruct (in_range_small _ _ Rak Rc) as [S1 S2]. destruct (in_range_small _ _ Rak Ra) as [_ S3].
  destruct (in_range_small _ _ Ra Rc) as [S4 _]. destruct (in_range_small _ _ Rc Rc) as [S5 _]. replace (a + k - a) with k in S3 by lia.
  destruct (turn_events fuel d i (dyad k) (dyad (a + k)) Hd Hi) as (pre & d2 & Hp & Hl & Hd2 & Hv & Hs & ->).
  { rewrite Ha. by apply in_range_no_overflow. }
  { rewrite Ha, grid_add by (done || lia || (unfold small in *; lia)). f_equal; lia. }
  destruct (emulate_turn fuel d2 i (turn i (dyad (a + k))) (GetMaximumEventsNum - Z.of_nat (length pre)) (a + k) c)
    as (evs & d' & -> & Hp' & Hd' & Hl' & Hs'); [done|done|unfold GetMaximumEventsNum; lia| | |by rewrite Hs|done..|].
  { by destruct Hi as [->| ->]. }
  { by destruct Hi as [->| ->]. }
  eexists _, d'. split; [done|]. rewrite posted_app, Hp, Hp'. split; [done|split; [done|split; [|done]]].
  rewrite <- Hv. unfold last_valuator. by rewrite Hl'.
Qed.

(** C39: a turn of 2^54 increments, of a wheel that was not moved before, is not answered:
    an increment less than 2^54 is rounded to 2^54 again, so the loop over the clicks has not
    ended after whatever number of rounds. The protection of [add_to_scroll_valuator] is not reached
    since it looks at the old value only. *)
Theorem huge_turn_hangs fuel d i :
  mouse d -> i = 2%nat \/ i = 3%nat -> last_valuator d i = f0 -> valuator_mask_get_double (last_scroll d) i = f0 ->
  exists evs d', events fuel d (wheel_event i (f64_of_int (2 ^ 54))) = Some (false, evs, d').
Proof.
  intros Hd Hi Ha Hc. set (huge := f64_of_int (2 ^ 54)).
  destruct (turn_events fuel d i huge huge Hd Hi) as (pre & d2 & _ & _ & Hd2 & Hv & Hs & ->); [by rewrite Ha|by rewrite Ha|].
  destruct (opened_ok d2 i Hd2 Hi) as (Hd3 & _ & Ho). rewrite Hs, Hc in Ho.
  unfold emulate_scroll_button_events.
  assert (exists a, axis d2 i = Some a /\ increment a = f1 /\ scroll_type a <> SCROLL_TYPE_NONE) as (a & -> & Ei & Et)
    by (destruct Hd2 as (_ & _ & _ & (av & _ & E) & _); unfold axis; rewrite E; destruct Hi as [->| ->]; by eexists).
  assert (valuator_mask_isset (turn i huge) i = true) as Hset by (by destruct Hi as [->| ->]).
  assert (valuator_mask_get_double (turn i huge) i = huge) as Hget by (by destruct Hi as [->| ->]).
  fold (opened i d2). cbn [mbind option_bind]. rewrite Ei, Hset, Hget, Ho. change (nonzero f1) with true. change (f64_sub huge f0) with huge. cbn [negb orb].
  destruct (scroll_type a); [done|..].
  all: match goal with |- context [scroll_loop _ _ _ _ _ _ ?b _ ?M _ _ _ _] =>
    destruct (scroll_loop_stuck b M fuel ltac:(done) [] (opened i d2) 0 Hd3 eq_refl) as (evs & d' & E) end.
  all: fold huge in E; cbn match; rewrite E; by eexists _, _.
Qed.
End wheel.

(** ** Where the pointer is put *)

Section motion.
Context (screenInfo scr : Rect) (AccelSchemeProc : option (Dev -> ValuatorMask -> ValuatorMask))
  (env : Surroundings).

(** Both coordinates. *)
Definition both (x y : double) : ValuatorMask := valuator_mask_set_double (valuator_mask_set_double valuator_mask_zero 0 x) 1 y.

(** What [handleLorieEvents] reports for a position of the mouse. *)
Definition POINTER_AT : Z := Z.lor (Z.lor POINTER_ABSOLUTE POINTER_SCREEN) POINTER_NORAW.
Definition motion_event (x y : double) : pointer_event := {|
  pe_device := lorieMouse; pe_type := MotionNotify; pe_button := 0; pe_flags := POINTER_AT; pe_mask := <[1 := y]> (<[0 := x]> ∅);
|}.

Definition int32 (z : Z) : Prop := - 2 ^ 31 <= z <= 2 ^ 31 - 1.

Lemma set_both_0 x y v : valuator_mask_set_double (both x y) 0 v = both v y.
Proof. done. Qed.

Lemma set_both_1 x y v : valuator_mask_set_double (both x y) 1 v = both x v.
Proof. done. Qed.

Lemma scale_from_screen_both fl d x y : exists u v, scale_from_screen screenInfo scr fl d (both x y) = both u v.
Proof.
  unfold scale_from_screen. change (valuator_mask_isset (both x y) 0) with true. cbn match. rewrite set_both_0.
  match goal with |- context [both ?u y] => change (valuator_mask_isset (both u y) 1) with true end. cbn match. rewrite set_both_1. by eexists _, _.
Qed.

Lemma transformAbsolute_both d x y : exists u v, transformAbsolute d (both x y) = Some (both u v).
Proof.
  unfold transformAbsolute. change (valuator_mask_isset (both x y) 0) with true. change (valuator_mask_isset (both x y) 1) with true.
  cbn [negb andb orb mbind option_bind]. destruct (transform _ _ _) as [u v]. exists u, v. by rewrite set_both_0, set_both_1.
Qed.

(** The floor of an integer. *)
Lemma floor_int_of_int z : int32 z -> floor_int env (f64_of_int z) = z.
Proof.
  unfold int32. intros Hz.
  assert (forall n, 0 < n < 2 ^ 53 -> exists m q, f64_of_int n = S754_finite false m q /\
    (if 0 <=? q then Zpos m * 2 ^ q else Zpos m / 2 ^ (- q)) = n /\ (if 0 <=? q then Zneg m * 2 ^ q else Zneg m / 2 ^ (- q)) = - n) as Hp.
  { intros n Hn. destruct (grid_pos 0 ltac:(lia) n Hn) as (m & q & E). destruct (grid_nonneg 0 ltac:(lia) n ltac:(lia)) as [_ Hv].
    rewrite E in Hv. cbn [val cond_Zopp] in Hv. exists m, q. split; [exact E|]. destruct (Z.leb_spec 0 q) as [Hq|Hq].
    - rewrite (dy_shift (Zpos m) 0 q) in Hv by done. rewrite Z.sub_0_r in Hv.
      assert (Zpos m * 2 ^ q = n) as Em by (apply Z.le_antisymm; apply (dy_le _ _ 0); rewrite Hv; apply Qle_refl).
      change (Zneg m) with (- Zpos m). by rewrite Z.mul_opp_l, Em.
    - rewrite (dy_shift n q 0) in Hv by lia. rewrite Z.sub_0_l in Hv.
      assert (Zpos m = n * 2 ^ (- q)) as Em by (apply Z.le_antisymm; apply (dy_le _ _ q); rewrite Hv; apply Qle_refl).
      assert (2 ^ (- q) <> 0) by (apply Z.pow_nonzero; lia). change (Zneg m) with (- Zpos m). rewrite Em, <- Z.mul_opp_l, !Z.div_mul by done. done. }
  assert (forall n, 0 < n < 2 ^ 53 -> f64_of_int (- n) = SFopp (f64_of_int n)) as Ho by (intros n Hn; apply (grid_opp 0); lia).
  unfold floor_int. destruct (Z.lt_trichotomy z 0) as [Hn|[->|Hn]]; [|done|].
  - destruct (Hp (- z) ltac:(lia)) as (m & q & E & _ & En). rewrite <- (Z.opp_involutive z), Ho, E by lia. cbn [SFopp negb]. rewrite En.
    rewrite (proj2 (Z.leb_le _ _)), (proj2 (Z.leb_le _ _)) by lia. done.
  - destruct (Hp z ltac:(lia)) as (m & q & E & En & _). rewrite E, En. rewrite (proj2 (Z.leb_le _ _)), (proj2 (Z.leb_le _ _)) by lia. done.
Qed.

(** Where the pointer may be put: within its limits, and on a crtc. *)
Definition allowed (s : Sprite) (x y : Z) : Z * Z :=
  RRConstrainCursorHarder env s (confine (lim_x1 s) (lim_x2 s) x) (confine (lim_y1 s) (lim_y2 s) y).

(** The ends of the areas are positions of the desktop. *)
Definition limits_ok (s : Sprite) : Prop :=
  let ok o lo hi := int32 (lo + o) /\ int32 (hi - 1 + o) in
  ok (rx scr) (lim_x1 s) (lim_x2 s) /\ ok (ry scr) (lim_y1 s) (lim_y2 s) /\
  Forall (fun b => ok (rx scr) (left b) (right b) /\ ok (ry scr) (top b) (bottom b)) (crtc_bounds env).

Lemma confine_int32 o lo hi z : int32 (lo + o) /\ int32 (hi - 1 + o) -> int32 (z + o) -> int32 (confine lo hi z + o).
Proof. unfold confine. intros [H1 H2] H. destruct (z <? lo); by destruct (hi <=? _). Qed.

Lemma allowed_int32 s x y : limits_ok s -> int32 (x + rx scr) -> int32 (y + ry scr) ->
  int32 ((allowed s x y).1 + rx scr) /\ int32 ((allowed s x y).2 + ry scr).
Proof.
  intros (Hx & Hy & Hb) Rx Ry. pose proof (confine_int32 _ _ _ x Hx Rx) as Cx. pose proof (confine_int32 _ _ _ y Hy Ry) as Cy.
  unfold allowed, RRConstrainCursorHarder. destruct (discontiguous env); [done|]. destruct (existsb _ _); [done|].
  destruct (List.find _ _) as [b|] eqn:E; [|done]. apply find_some in E as [Hin _]. rewrite Forall_forall in Hb.
  destruct (Hb b) as [Bx By]; [by apply list_elem_of_In|]. split; by apply confine_int32.
Qed.

Lemma miPointerSetPosition_absolute s x y : limits_ok s -> int32 x -> int32 y -> int32 (x + rx scr) -> int32 (y + ry scr) ->
  miPointerSetPosition scr env true s (f64_of_int (x + rx scr)) (f64_of_int (y + ry scr)) =
    (f64_of_int ((allowed s x y).1 + rx scr), f64_of_int ((allowed s x y).2 + ry scr), 0, miPointerMoveNoEvent (allowed s x y).1 (allowed s x y).2 s).
Proof.
  intros Hs Hx Hy Rx Ry. destruct (allowed_int32 s x y Hs Rx Ry) as [Ax Ay]. unfold miPointerSetPosition. cbv zeta.
  rewrite !floor_int_of_int, !Z.add_simpl_r, !swrap_small by (done || (unfold int32 in *; lia)).
  change (RRConstrainCursorHarder env s (confine (lim_x1 s) (lim_x2 s) x) (confine (lim_y1 s) (lim_y2 s) y)) with (allowed s x y).
  destruct (allowed s x y) as [u v]. cbn [fst snd] in *. rewrite !swrap_small by (unfold int32 in *; lia).
  destruct (Z.eqb_spec (u + rx scr) (x + rx scr)) as [->|], (Z.eqb_spec (v + ry scr) (y + ry scr)) as [->|]; done.
Qed.

(** A position within the limits that a crtc shows, or behind the last column of the limits. *)
Lemma allowed_inside s x y : lim_x1 s <= x < lim_x2 s -> lim_y1 s <= y < lim_y2 s -> existsb (inside x y) (crtc_bounds env) = true ->
  allowed s x y = (x, y).
Proof.
  intros Hx Hy Hc. unfold allowed, confine. rewrite (proj2 (Z.ltb_ge _ _)), (proj2 (Z.leb_gt _ _)) by lia.
  rewrite (proj2 (Z.ltb_ge y _)), (proj2 (Z.leb_gt _ y)) by lia. unfold RRConstrainCursorHarder. rewrite Hc. by destruct (discontiguous env).
Qed.

Lemma positionSprite_both abs d x y p sx sy s :
  (2 <= numAxes d)%nat -> miPointerSetPosition scr env abs (sprite d) (screenx p) (screeny p) = (sx, sy, 0, s) ->
  exists p' u v, positionSprite screenInfo scr env abs d (both x y) p = (p', both u v, 0, s) /\ screenx p' = sx /\ screeny p' = sy.
Proof.
  intros Hn E. unfold positionSprite. rewrite E, (proj2 (Nat.ltb_ge _ _)) by done.
  change (valuator_mask_isset (both x y) 0) with true. cbn match. rewrite set_both_0.
  match goal with |- context [both ?u y] => change (valuator_mask_isset (both u y) 1) with true end. cbn match. rewrite set_both_1. by eexists _, _, _.
Qed.

Lemma set_valuators_both d x y : mouse d -> exists L, set_valuators d (both x y) = Some L.
Proof. intros (_ & _ & _ & (av & _ & E) & _). unfold set_valuators. rewrite E. by eexists. Qed.

Lemma to_int_range lo hi x z : to_int lo hi x = Some z -> lo <= z <= hi.
Proof.
  unfold to_int. destruct (trunc x) as [t|]; [|done]. cbn [mbind option_bind].
  destruct (Z.leb_spec lo t), (Z.leb_spec t hi); intros [= <-]; lia.
Qed.

Lemma fill_position d x y sx sy : mouse d -> to_int (- 2 ^ 31) (2 ^ 31 - 1) x = Some sx -> to_int (- 2 ^ 31) (2 ^ 31 - 1) y = Some sy ->
  int32 (sx + rx scr) -> int32 (sy + ry scr) -> int32 (rx scr) -> int32 (ry scr) -> limits_ok (sprite d) ->
  let at_ := allowed (sprite d) sx sy in
  exists L d', fill_pointer_events screenInfo scr AccelSchemeProc env d MotionNotify 0 POINTER_AT (Some (both x y)) =
      Some ([Device MotionNotify 0 false (f64_of_int at_.1) (f64_of_int at_.2) L], d') /\ mouse d' /\ attached d' = attached d /\
    sprite d' = miPointerMoveNoEvent at_.1 at_.2 (sprite d) /\
    (attached d = true -> master_x d' = f64_of_int (at_.1 + rx scr) /\ master_y d' = f64_of_int (at_.2 + ry scr)).
Proof.
  intros Hd Hx Hy Rx Ry Ox Oy Hlim at_. assert (int32 sx /\ int32 sy) as [Ix Iy] by (split; [by eapply to_int_range|by eapply to_int_range]).
  destruct (allowed_int32 (sprite d) sx sy Hlim Rx Ry) as [Ax Ay]. fold at_ in Ax, Ay.
  pose proof (miPointerSetPosition_absolute (sprite d) sx sy Hlim Ix Iy Rx Ry) as Hpos. fold at_ in Hpos. assert (valuator d <> None /\ (2 <= numAxes d)%nat) as [Hv Hn]
    by (destruct Hd as (_ & _ & _ & (av & _ & E) & _); unfold numAxes; rewrite E; cbn; split; [done|lia]).
  unfold fill_pointer_events, refused. rewrite bool_decide_eq_false_2 by done. change (valuator_mask_num_valuators (both x y) <=? 0) with false.
  cbn [orb]. change (valuator_mask_copy (Some (both x y))) with (both x y). unfold device_values.
  change (has POINTER_AT POINTER_ABSOLUTE) with true. change (has POINTER_AT (Z.lor POINTER_SCREEN POINTER_DESKTOP)) with true.
  change (has POINTER_AT POINTER_SCREEN) with true. change (has POINTER_AT POINTER_NORAW) with true. change (has POINTER_AT POINTER_RAWONLY) with false.
  change (valuator_mask_get_double (both x y) 0) with x. change (valuator_mask_get_double (both x y) 1) with y. rewrite Hx, Hy. cbn [mbind option_bind].
  destruct (scale_from_screen_both POINTER_AT d x y) as (u & v & ->). destruct (transformAbsolute_both d u v) as (u1 & v1 & ->).
  cbn [mbind option_bind]. rewrite mouse_clip by done. rewrite !swrap_small by (unfold int32 in *; lia).
  edestruct (positionSprite_both true d u1 v1) as (p & u2 & v2 & -> & Ex & Ey); [done|exact Hpos|]. rewrite mouse_clip by done.
  rewrite Ex, Ey. set (sp := miPointerMoveNoEvent _ _ _). set (d1 := storeLastValuators _ p (with_sprite sp d)). assert (mouse d1) as Hd1 by (apply mouse_last; [done|exact (storeLastValuators_length (both u2 v2) p (with_sprite sp d))]).
  cbn [seqZ Z.to_nat seq fmap list_fmap app].
  destruct (set_valuators_both d1 u2 v2 Hd1) as (L & HL). exists L. eexists. split; [|split; [|split; [|split]]].
  - assert (forall d2, valuator d2 = valuator d1 -> set_valuators d2 (both u2 v2) = Some L) as H by (intros d2 E; rewrite <- HL; unfold set_valuators; by rewrite E).
    rewrite H by (by destruct (attached d1)). cbn [mbind option_bind].
    change f64_of_int with (dyad 0). rewrite !grid_sub by (unfold small, int32 in *; lia). rewrite !Z.add_simpl_r. reflexivity.
  - by destruct (attached d1).
  - by destruct (attached d1) eqn:E.
  - by destruct (attached d1).
  - change (attached d1) with (attached d). intros ->. done.
Qed.

(** The positions that clients are told. *)
Definition positions (l : list Event) : list (pointer_type * Z * double * double) :=
  omap (fun e => match e with Device t b _ x y _ => Some (t, b, x, y) | _ => None end) l.

Lemma UpdateFromMaster_mouse d : mouse d -> exists e0 d0, UpdateFromMaster screenInfo d = (e0, d0) /\ mouse d0 /\ attached d0 = attached d /\
  sprite d0 = sprite d /\ positions e0 = [].
Proof.
  intros Hd. unfold UpdateFromMaster. destruct (_ && _); [|by exists [], d].
  eexists _, _. split; [done|split; [|done]].
  assert (mouse (updateSlaveDeviceCoords screenInfo d)) as H; [|exact H].
  apply mouse_last; [done|]. destruct (_ <? _)%nat, (_ <? _)%nat; by rewrite !length_insert.
Qed.

(** The coordinates are not axes of the wheel. *)
Lemma no_clicks fuel d x y pre : mouse d ->
  scroll_axes screenInfo scr AccelSchemeProc env fuel MotionNotify (both x y) (seq 0 (valuator_mask_size (both x y))) valuator_mask_zero pre d =
    Some (true, pre, d).
Proof.
  intros (_ & _ & _ & (av & _ & E) & _). change (valuator_mask_size (both x y)) with 2%nat.
  assert (numAxes d = 4%nat) as En by (unfold numAxes; by rewrite E).
  assert (forall s M i, (i < 2)%nat -> emulate_scroll_button_events screenInfo scr AccelSchemeProc env fuel d MotionNotify i s M = Some (true, [], d)) as He.
  { intros s M i Hi. unfold emulate_scroll_button_events, axis. rewrite E. destruct i as [|[|i]]; [done..|lia]. }
  cbn [seq scroll_axes]. rewrite En. cbn [Nat.leb]. change (valuator_mask_isset (both x y) 0) with true. change (valuator_mask_isset (both x y) 1) with true.
  cbn [negb]. rewrite He by lia. cbn [mbind option_bind]. rewrite En, He by lia. cbn [mbind option_bind]. by rewrite !app_nil_r.
Qed.

(** C28: a position of the mouse that the activity reports, with fractions that are cut off, is
    confined to the limits of the pointer and, outside of every crtc, to the crtc it comes from
    ([allowed]); there is the pointer then, and this is the position on the screen of the one
    motion that clients are told, and on the desktop that of the master device, whatever transformation
    the device has. A position that the limits allow and a crtc shows is told as it is. *)
Theorem absolute_motion_lands fuel d x y sx sy :
  mouse d -> limits_ok (sprite d) -> to_int (- 2 ^ 31) (2 ^ 31 - 1) x = Some sx -> to_int (- 2 ^ 31) (2 ^ 31 - 1) y = Some sy ->
  int32 (sx + rx scr) -> int32 (sy + ry scr) -> int32 (rx scr) -> int32 (ry scr) ->
  exists lx ly evs d', queued_events screenInfo scr AccelSchemeProc env fuel d (motion_event x y) = Some (true, evs, d') /\
    (lx, ly) = allowed (sprite d) sx sy /\
    positions evs = [(MotionNotify, 0, f64_of_int lx, f64_of_int ly)] /\ mouse d' /\
    sprite d' = miPointerMoveNoEvent lx ly (sprite d) /\
    (attached d = true -> master_x d' = f64_of_int (lx + rx scr) /\ master_y d' = f64_of_int (ly + ry scr)) /\
    (lim_x1 (sprite d) <= sx < lim_x2 (sprite d) -> lim_y1 (sprite d) <= sy < lim_y2 (sprite d) ->
     existsb (inside sx sy) (crtc_bounds env) = true -> (lx, ly) = (sx, sy)).
Proof.
  intros Hd Hlim Hx Hy Rx Ry Ox Oy. destruct (UpdateFromMaster_mouse d Hd) as (e0 & d0 & E0 & Hd0 & Ha0 & Hs0 & Hp0). rewrite <- Hs0 in Hlim |- *.
  destruct (fill_position d0 x y sx sy Hd0 Hx Hy Rx Ry Ox Oy Hlim) as (L & d' & Hf & Hd' & Ha' & Hs' & Hm).
  eexists (allowed (sprite d0) sx sy).1, (allowed (sprite d0) sx sy).2, _, d'. unfold queued_events, GetPointerEvents.
  cbn [pe_type pe_button pe_flags motion_event].
  assert (enabled d = true) as -> by apply Hd. cbn [negb orb MAX_BUTTONS Z.leb Z.compare]. rewrite E0.
  change (to_mask (pe_mask (motion_event x y))) with (both x y). change (valuator_mask_copy (Some (both x y))) with (both x y).
  cbn [wheel_button mbind option_bind]. rewrite Hf. cbn [mbind option_bind]. rewrite no_clicks by done.
  split; [done|split; [by destruct (allowed _ _ _)|split; [unfold positions in *; by rewrite omap_app, Hp0|split; [done|split; [done|]]]]].
  split; [by rewrite <- Ha0|]. intros Lx Ly Hc. by rewrite allowed_inside.
Qed.
End motion.

(** ** The reports of the handler *)

(** Turns. *)
Lemma scroll_reports {P} `{!ServerParts P} i v m (c : Core) :
  SFeqb v (f32_of_int 0) = false ->
  (scroll (Z.of_nat i) v m c).2 = set_parts (sp_pointer (wheel_event i (f64_div (f64_of_f32 v) (f64_of_int 120))) (parts c)) c.
Proof. intros H. unfold scroll. by rewrite H. Qed.

(** Positions. *)
Lemma handle_mouse_reports {P} `{!ServerParts P} x y down (c : Core) w h :
  sp_screen (parts c) = (w, h) ->
  (handle_mouse x y 0 down 0 ∅ c).2 =
    set_parts (sp_pointer (motion_event (f64_of_f32 (clamp_mouse x w)) (f64_of_f32 (clamp_mouse y h))) (parts c)) c.
Proof. intros H. unfold handle_mouse. cbn [Z.eqb]. by rewrite H. Qed.

(** ** A mouse *)

Definition demo_mouse : Dev := {|
  enabled := true; attached := true; has_button := true; valuator := Some (mouse_valuator (replicate 4 f0)); relative_transform := identity;
  scale_and_transform := identity; last_valuators := replicate MAX_VALUATORS f0; last_scroll := valuator_mask_zero; postdown := [];
  master_x := f64_of_int 640; master_y := f64_of_int 360; is_last_slave := false;
  sprite := {| sprite_x := 640; sprite_y := 360; lim_x1 := 0; lim_y1 := 0; lim_x2 := 1280; lim_y2 := 720 |};
|}.
Definition demo_screen : Rect := {| rx := 0; ry := 0; rwidth := 1280; rheight := 720 |}.

(** One crtc that shows the screen, and no barriers. *)
Definition demo_surroundings : Surroundings := {|
  input_constrain_cursor := fun _ x y => (x, y, 0); discontiguous := false;
  crtc_bounds := [{| left := 0; right := 1280; top := 0; bottom := 720 |}]; out_of_int := fun _ => - 2 ^ 31;
|}.

Lemma demo_mouse_ok : mouse demo_mouse.
Proof. unfold mouse. do 3 (split; [done|]). split; [by exists (replicate 4 f0)|by split]. Qed.

Definition demo_events (fuel : nat) (d : Dev) (e : pointer_event) : option (bool * list Event * Dev) :=
  queued_events demo_screen demo_screen None demo_surroundings fuel d e.

(** Three eighths of a turn, three times: a click after the third. *)
Example three_turns :
  let e := wheel_event 3 (f64_div (f64_of_f32 (f32_of_int 45)) (f64_of_int 120)) in
  (r ← demo_events 1 demo_mouse e; s ← demo_events 1 r.2 e; t ← demo_events 1 s.2 e;
   Some (posted r.1.2, posted s.1.2, posted t.1.2, valuator_mask_get_double (last_scroll t.2) 3)) =
  Some ([(MotionNotify, 0)], [(MotionNotify, 0)], [(MotionNotify, 0); (ButtonPress, 5); (ButtonRelease, 5)], f1).
Proof. by vm_compute. Qed.

(** A press of a button of the wheel is a turn by an increment. *)
Example press_of_button_4 :
  (r ← demo_events 1 demo_mouse {| pe_device := lorieMouse; pe_type := ButtonPress; pe_button := 4; pe_flags := POINTER_RELATIVE; pe_mask := ∅ |};
   Some (posted r.1.2, last_valuator r.2 3)) = Some ([(MotionNotify, 0); (ButtonPress, 4)], f64_of_int (-1)).
Proof. by vm_compute. Qed.

Lemma wheel_turns_click_witness :
  exists evs d', demo_events 30 demo_mouse (wheel_event 3 (dyad (-2) (-107))) = Some (true, evs, d') /\
    posted evs = (MotionNotify, 0) :: clicks 4 24 /\ mouse d' /\ last_valuator d' 3 = dyad (-2) (-107) /\
    valuator_mask_get_double (last_scroll d') 3 = dyad (-2) (-104).
Proof.
  apply (wheel_turns_click demo_screen demo_screen None demo_surroundings (fun _ _ _ => eq_refl) (-2) ltac:(lia) 30 demo_mouse 3 0 (-107) 0).
  - exact demo_mouse_ok.
  - by right.
  - reflexivity.
  - reflexivity.
  - unfold in_range; cbn; lia.
  - unfold in_range; cbn; lia.
  - unfold in_range; cbn; lia.
  - by vm_compute.
Defined.

Lemma huge_turn_hangs_witness : exists evs d',
  demo_events 1000 demo_mouse (wheel_event 3 (f64_div (f64_of_f32 (f32_of_int (120 * 2 ^ 54))) (f64_of_int 120))) = Some (false, evs, d').
Proof.
  change (f64_div (f64_of_f32 (f32_of_int (120 * 2 ^ 54))) (f64_of_int 120)) with (f64_of_int (2 ^ 54)).
  apply (huge_turn_hangs demo_screen demo_screen None demo_surroundings (fun _ _ _ => eq_refl) 1000 demo_mouse 3 demo_mouse_ok); [by right|reflexivity|reflexivity].
Defined.

(** The list is full of clicks, and the loop has not ended. *)
Lemma GetPointerEvents_fits_witness : exists evs d',
  demo_events 30 demo_mouse (wheel_event 3 (f64_of_int (2 ^ 54))) = Some (false, evs, d') /\ Z.of_nat (length evs) < GetMaximumEventsNum + 2 * 0.
Proof.
  destruct (demo_events 30 demo_mouse (wheel_event 3 (f64_of_int (2 ^ 54)))) as [[[[|] evs] d']|] eqn:E; [vm_compute in E; discriminate| |vm_compute in E; discriminate].
  exists evs, d'. split; [reflexivity|].
  exact (GetPointerEvents_fits demo_screen demo_screen None demo_surroundings 0 (Z.le_refl 0) (fun _ _ _ => Z.le_refl 0) 30 true demo_mouse _ _ _ _ _ _ _ E).
Defined.

Lemma demo_limits_ok : limits_ok demo_screen demo_surroundings (sprite demo_mouse).
Proof. unfold limits_ok, int32. cbn. split_and!; [lia..|]. repeat constructor; cbn; lia. Qed.

(** The column behind the last one, which [handleLorieEvents] lets through, is the last one. *)
Lemma absolute_motion_lands_witness :
  exists lx ly evs d', demo_events 0 demo_mouse (motion_event (f64_of_int 1280) (f64_div (f64_of_int 41) (f64_of_int 2))) = Some (true, evs, d') /\
    (lx, ly) = (1279, 20) /\ positions evs = [(MotionNotify, 0, f64_of_int lx, f64_of_int ly)] /\ mouse d'.
Proof.
  destruct (absolute_motion_lands demo_screen demo_screen None demo_surroundings 0 demo_mouse (f64_of_int 1280) (f64_div (f64_of_int 41) (f64_of_int 2)) 1280 20 demo_mouse_ok demo_limits_ok)
    as (lx & ly & evs & d' & E & Ha & Hp & Hd & _).
  - by vm_compute.
  - by vm_compute.
  - unfold int32; cbn; lia.
  - unfold int32; cbn; lia.
  - unfold int32; cbn; lia.
  - unfold int32; cbn; lia.
  - exists lx, ly, evs, d'. split; [exact E|split; [exact Ha|split; [exact Hp|exact Hd]]].
Defined.

Example inside_lands :
  (r ← demo_events 0 demo_mouse (motion_event (f64_div (f64_of_int 1001) (f64_of_int 2)) (f64_of_int 20)); Some (positions r.1.2)) =
  Some [(MotionNotify, 0, f64_of_int 500, f64_of_int 20)].
Proof. by vm_compute. Qed.
