(* ===== verification/Activity.v ===== *)
(** * The server's messages to the activity
    ([lorie/cmdentrypoint.c], [xcallback] and [connect_] of [lorie/activity.c])

    The server tells the activity about its shared state, its buffers, its
    clipboard and the focus; the activity's looper calls [xcallback] when the
    socket is readable. Calls into Java and into the renderer are logged. *)

From S2P Require Import Prelude ClipboardText Wire.

(** ** How a buffer travels *)

(** [LorieBuffer_sendHandleToUnixSocket] and [LorieBuffer_recvHandleFromUnixSocket]:
    the bytes of a handle, and the reception of the buffer at the front of the
    stream; the id stands for the buffer. *)
Class BufferTransport := {
  bt_send : Z -> list Z;
  bt_recv : list Z -> option (Z * list Z);
  bt_received : forall id rest, bt_recv (bt_send id ++ rest) = Some (id, rest);
}.

Section link.
Context `{!BufferTransport}.

(** ** The server's end *)

(** [se_written] is what was written to the socket, [se_fds] the descriptors that
    were passed with it. *)
Record ServerEnd := { se_conn : Z; se_written : list Z; se_fds : list Z; se_registered : list Z }.

Definition write (l : list Z) (s : ServerEnd) : ServerEnd :=
  {| se_conn := se_conn s; se_written := se_written s ++ l; se_fds := se_fds s; se_registered := se_registered s |}.
Definition set_registered (l : list Z) (s : ServerEnd) : ServerEnd :=
  {| se_conn := se_conn s; se_written := se_written s; se_fds := se_fds s; se_registered := l |}.

(** The byte that carries a descriptor. *)
Definition ancil_send_fd (fd : Z) (s : ServerEnd) : ServerEnd :=
  let s := write [33] s in
  {| se_conn := se_conn s; se_written := se_written s; se_fds := se_fds s ++ [fd]; se_registered := se_registered s |}.

Definition lorieSendClipboardData (data : option (list Z)) (s : ServerEnd) : ServerEnd :=
  match data with
  | Some data =>
      if se_conn s =? -1 then s
      else let text := cstr data in
           write text (write (encode (EVENT_CLIPBOARD_SEND (u32 (Z.of_nat (length text))))) s)
  | None => s
  end.

Definition lorieRequestClipboard (s : ServerEnd) : ServerEnd :=
  if se_conn s =? -1 then s else write (encode EVENT_CLIPBOARD_REQUEST) s.

Definition lorieSendSharedServerState (memfd : Z) (s : ServerEnd) : ServerEnd :=
  if se_conn s =? -1 then s else ancil_send_fd memfd (write (encode EVENT_SHARED_SERVER_STATE) s).

Definition lorieRegisterBuffer (id : Z) (s : ServerEnd) : ServerEnd :=
  if (se_conn s =? -1) || bool_decide (id ∈ se_registered s) then s
  else set_registered (id :: se_registered s) (write (bt_send id) (write (encode EVENT_ADD_BUFFER) s)).

(** [None] stands for the NULL pointer. *)
Definition lorieUnregisterBuffer (buffer : option Z) (s : ServerEnd) : ServerEnd :=
  match buffer with
  | None => s
  | Some id =>
      if bool_decide (id ∉ se_registered s) || (se_conn s =? -1) then s
      else set_registered (filter (fun x => x <> id) (se_registered s)) (write (encode (EVENT_REMOVE_BUFFER id)) s)
  end.

Definition DDXNotifyFocusChanged (s : ServerEnd) : ServerEnd :=
  if se_conn s =? -1 then s else write (encode EVENT_WINDOW_FOCUS_CHANGED) s.

(** ** The activity's end *)

Inductive java_call :=
  | clientConnectedStateChanged
  | setClipboardText (text : list Z)
  | requestClipboard
  | resetIme.

(** [ac_input] and [ac_fds] are not received yet; [ac_state] is the shared state
    and [ac_buffers] the buffers that the renderer has. *)
Record Activity := {
  ac_conn : Z; ac_input : list Z; ac_fds : list Z;
  ac_java : list java_call; ac_state : option Z; ac_buffers : list Z;
}.

Definition call (j : java_call) (a : Activity) : Activity :=
  {| ac_conn := ac_conn a; ac_input := ac_input a; ac_fds := ac_fds a; ac_java := ac_java a ++ [j];
     ac_state := ac_state a; ac_buffers := ac_buffers a |}.
Definition set_ac_input (l : list Z) (a : Activity) : Activity :=
  {| ac_conn := ac_conn a; ac_input := l; ac_fds := ac_fds a; ac_java := ac_java a;
     ac_state := ac_state a; ac_buffers := ac_buffers a |}.
Definition rendererSetSharedState (st : option Z) (a : Activity) : Activity :=
  {| ac_conn := ac_conn a; ac_input := ac_input a; ac_fds := ac_fds a; ac_java := ac_java a;
     ac_state := st; ac_buffers := ac_buffers a |}.
Definition set_buffers (l : list Z) (a : Activity) : Activity :=
  {| ac_conn := ac_conn a; ac_input := ac_input a; ac_fds := ac_fds a; ac_java := ac_java a;
     ac_state := ac_state a; ac_buffers := l |}.

(** [ancil_recv_fd]: one byte with a descriptor; [None] for an error. *)
Definition ancil_recv_fd (a : Activity) : option Z * Activity :=
  let a1 := set_ac_input (drop 1 (ac_input a)) a in
  match ac_fds a with
  | [] => (None, a1)
  | fd :: fds => (Some fd, {| ac_conn := ac_conn a1; ac_input := ac_input a1; ac_fds := fds; ac_java := ac_java a1;
                              ac_state := ac_state a1; ac_buffers := ac_buffers a1 |})
  end.

(** The cases of the switch, behind the header; [mmap_ok] says whether the shared
    state can be mapped. [None] when a NULL buffer is used. *)
Definition activity_event (mmap_ok : bool) (e : lorieEvent) (a : Activity) : option Activity :=
  match e with
  | EVENT_CLIPBOARD_SEND count =>
      if count =? 0 then Some a
      else
        (* clipboard[count + 1] is read whole, then its last byte is set to 0 *)
        let n := (Z.to_nat count + 1)%nat in
        let clipboard := take n (ac_input a) ++ replicate (n - length (ac_input a)) 0 in
        let clipboard := take (Z.to_nat count) clipboard ++ [0] in
        Some (call (setClipboardText (cstr clipboard)) (set_ac_input (drop n (ac_input a)) a))
  | EVENT_CLIPBOARD_REQUEST => Some (call requestClipboard a)
  | EVENT_SHARED_SERVER_STATE =>
      let '(fd, a) := ancil_recv_fd a in
      match fd with
      | None => Some a
      | Some fd => Some (rendererSetSharedState (if mmap_ok then Some fd else None) a)
      end
  | EVENT_ADD_BUFFER =>
      r ← bt_recv (ac_input a);
      Some (set_buffers (ac_buffers a ++ [r.1]) (set_ac_input r.2 a))
  | EVENT_REMOVE_BUFFER id => Some (set_buffers (filter (fun x => x <> id) (ac_buffers a)) a)
  | EVENT_WINDOW_FOCUS_CHANGED => Some (call resetIme a)
  | _ => Some a
  end.

Fixpoint xcallback_loop (fuel : nat) (mmap_ok : bool) (a : Activity) : option Activity :=
  match fuel with
  | O => None
  | S fuel =>
      let header := take event_size (ac_input a) in
      let a := set_ac_input (drop event_size (ac_input a)) a in
      a ← (if decide (length header = event_size) then activity_event mmap_ok (decode header) a else Some a);
      if decide (event_size < length (ac_input a))%nat then xcallback_loop fuel mmap_ok a else Some a
  end.

(** [hangup] is [ALOOPER_EVENT_ERROR] or [ALOOPER_EVENT_HANGUP]. *)
Definition xcallback (mmap_ok hangup : bool) (a : Activity) : option Activity :=
  if hangup then
    Some {| ac_conn := -1; ac_input := []; ac_fds := []; ac_java := ac_java a ++ [clientConnectedStateChanged];
            ac_state := None; ac_buffers := [] |}
  else if ac_conn a =? -1 then Some a
  else xcallback_loop (S (length (ac_input a))) mmap_ok a.

(** A new connection, or none for [fd] -1. *)
Definition connect_ (fd : Z) (a : Activity) : Activity :=
  let a := if ac_conn a =? -1 then a else set_buffers [] (rendererSetSharedState None a) in
  {| ac_conn := fd; ac_input := []; ac_fds := []; ac_java := ac_java a; ac_state := ac_state a; ac_buffers := ac_buffers a |}.

(** ** Lemmas *)

Lemma xcallback_round fuel mmap_ok e rest a : fits e -> ac_input a = encode e ++ rest ->
  xcallback_loop (S fuel) mmap_ok a =
    a ← activity_event mmap_ok e (set_ac_input rest a);
    if decide (event_size < length (ac_input a))%nat then xcallback_loop fuel mmap_ok a else Some a.
Proof.
  intros He Ha. cbn [xcallback_loop]. rewrite Ha.
  assert (take event_size (encode e ++ rest) = encode e) as -> by (rewrite <- (encode_length e); apply take_app_length).
  assert (drop event_size (encode e ++ rest) = rest) as -> by (rewrite <- (encode_length e); apply drop_app_length).
  rewrite decide_True by apply encode_length. by rewrite decode_encode.
Qed.

Lemma clipboard_event mmap_ok text rest a : Forall is_char text -> text <> [] ->
  ac_input a = text ++ rest ->
  activity_event mmap_ok (EVENT_CLIPBOARD_SEND (Z.of_nat (length text))) a
  = Some (call (setClipboardText text) (set_ac_input (drop 1 rest) a)).
Proof.
  intros Ht Hne Ha. cbn [activity_event]. destruct (Z.eqb_spec (Z.of_nat (length text)) 0) as [E|_]; [by destruct text|].
  rewrite Nat2Z.id, Ha. f_equal.
  rewrite <- drop_drop, drop_app_length. f_equal. f_equal.
  rewrite take_app_le by (rewrite length_take, length_app; lia).
  rewrite take_take, Nat.min_l, take_app_length by lia. by apply cstr_app_nul.
Qed.

(** ** Theorems *)

(** The activity takes a text of the server over exactly; but it reads one byte more than was
    sent, so that a message behind the text loses its first byte. *)
Theorem clipboard_text_eats_next text rest mmap_ok fuel a :
  Forall is_char text -> text <> [] -> Z.of_nat (length text) < 2 ^ 32 -> ac_conn a <> -1 ->
  ac_input a = se_written (lorieSendClipboardData (Some (text ++ [0]))
                 {| se_conn := ac_conn a; se_written := []; se_fds := []; se_registered := [] |}) ++ rest ->
  xcallback_loop (S fuel) mmap_ok a =
    let a1 := call (setClipboardText text) (set_ac_input (drop 1 rest) a) in
    if decide (event_size < length rest - 1)%nat then xcallback_loop fuel mmap_ok a1 else Some a1.
Proof.
  intros Ht Hne Hl Hc Ha. unfold lorieSendClipboardData in Ha. cbn [se_conn] in Ha.
  rewrite (proj2 (Z.eqb_neq _ (-1))), cstr_app_nul in Ha by done. cbn [se_written write app] in Ha.
  rewrite uwrap_small, <- app_assoc in Ha by lia.
  rewrite (xcallback_round _ _ (EVENT_CLIPBOARD_SEND (Z.of_nat (length text))) (text ++ rest)); [|cbn [fits]; lia|done].
  rewrite (clipboard_event _ _ rest) by done. cbn [mbind option_bind]. cbn zeta.
  assert (length (ac_input (call (setClipboardText text) (set_ac_input (drop 1 rest) (set_ac_input (text ++ rest) a))))
          = length rest - 1)%nat as -> by apply length_drop.
  done.
Qed.

End link.

(** ** Witness *)

(** A transport that sends the id itself. *)
#[local] Program Instance id_transport : BufferTransport := {|
  bt_send id := [id]; bt_recv l := match l with [] => None | id :: rest => Some (id, rest) end
|}.
Next Obligation. done. Qed.

Definition demo_activity (input : list Z) : Activity :=
  {| ac_conn := 5; ac_input := input; ac_fds := []; ac_java := []; ac_state := None; ac_buffers := [] |}.

(** The text "hi" and a request for the clipboard: the request is not recognised. *)
Definition demo_stream : list Z := encode (EVENT_CLIPBOARD_SEND 2) ++ [104; 105] ++ encode EVENT_CLIPBOARD_REQUEST.

Lemma clipboard_text_eats_next_witness :
  xcallback_loop 2 true (demo_activity demo_stream)
  = Some (call (setClipboardText [104; 105]) (set_ac_input (drop 1 (encode EVENT_CLIPBOARD_REQUEST)) (demo_activity demo_stream))).
Proof.
  apply (clipboard_text_eats_next [104; 105] (encode EVENT_CLIPBOARD_REQUEST) true 1 (demo_activity demo_stream));
    [repeat constructor; lia|discriminate|simpl; lia|discriminate|reflexivity].
Defined.
