(* ===== verification/CommandLine.v ===== *)
(** * The command line

    [ProcessCommandLine] of [xserver/os/utils.c] with the options of lorie
    ([ddxProcessArgument] of [lorie/InitOutput.c]), of the keyboard and of XDMCP, in the
    configuration of the build (IPv6, XDMCP, DPMS, Xinerama, limits of resources, without
    TCP by default). *)

From Stdlib Require Import String Ascii.
From S2P Require Import Prelude.

(** ** Data *)

Inductive value := Int (z : Z) | Str (s : string).

(** What the options call, in order; log output is left out apart from the usage text. *)
Inductive call :=
  | UseMsg
  | RaiseCoreLimit
  | InitAuthorization (file : string)
  | _XSERVTransNoListen (protocol : string)
  | _XSERVTransListen (protocol : string)
  | EnableDisableExtension (name : string) (enable : bool)
  | EnableDisableExtensionError (name : string) (enable : bool)
  | get_addr_by_name (argtype name : string)
  | Multicast (address : string) (port hopcount : Z)
  | XdmcpRegisterManufacturerDisplayID (name : string)
  | android_shmem_sysv_shm_force (i : Z)
  | QueueDrawSquares.

(** The global variables by name (those with a NULL or a default are missing until they
    are set), and the calls. *)
Record Server := { vars : gmap string value; calls : list call }.

Definition set (x : string) (v : value) (s : Server) : Server := {| vars := <[x := v]> (vars s); calls := calls s |}.
Definition do (c : call) (s : Server) : Server := {| vars := vars s; calls := calls s ++ [c] |}.

Definition set_int (x : string) (z : Z) : Server -> Server := set x (Int z).
Definition set_true (x : string) : Server -> Server := set_int x 1.
Definition set_false (x : string) : Server -> Server := set_int x 0.

(** [Next i s] goes on with [argv[i]]; [Done] is the end of the loop. *)
Inductive outcome := Next (i : Z) (s : Server) | Done (s : Server) | Exit (s : Server) | FatalError (msg : string) (s : Server).

(** What other parts answer: the user, the parser of the font library, the list of the
    extensions, and the network about hosts and addresses for multicast. *)
Record Env := {
  getuid : Z; geteuid : Z; xfont2_parse_glyph_caching_mode : string -> bool; extension_known : string -> bool -> bool;
  host_known : string -> string -> Z -> bool; multicast_address : string -> Z -> bool;
}.

(** ** Strings *)

Definition code (c : ascii) : Z := Z.of_nat (nat_of_ascii c).
Definition isspace (c : ascii) : bool := (code c =? 32) || (9 <=? code c) && (code c <=? 13).
Definition isdigit (c : ascii) : bool := (48 <=? code c) && (code c <=? 57).

(** The first character, NUL at the end. *)
Definition first (s : string) : ascii := match s with EmptyString => zero | String c _ => c end.
Definition rest (s : string) : string := match s with EmptyString => EmptyString | String _ s => s end.

(** [strncmp(a, p, strlen(p)) == 0]. *)
Definition starts (p a : string) : bool := String.prefix p a.

Definition digit (base : Z) (c : ascii) : option Z :=
  let d := if isdigit c then code c - 48
           else if (97 <=? code c) && (code c <=? 122) then code c - 87
           else if (65 <=? code c) && (code c <=? 90) then code c - 55 else base in
  if d <? base then Some d else None.

Fixpoint digits (base acc : Z) (s : string) : Z :=
  match s with
  | EmptyString => acc
  | String c s => match digit base c with Some d => digits base (acc * base + d) s | None => acc end
  end.

Fixpoint skip_space (s : string) : string := match s with String c t => if isspace c then skip_space t else s | EmptyString => s end.

Definition clamp (lo hi x : Z) : Z := Z.max lo (Z.min hi x).

(** The sign in front: whether it is a minus, and what is behind it. *)
Definition sign (s : string) : bool * string :=
  match s with String "-" t => (true, t) | String "+" t => (false, t) | _ => (false, s) end.

(** The prefix [0x] in front of a hexadecimal digit. *)
Definition hex_prefix (base : Z) (s : string) : string :=
  match s with
  | String "0" (String x (String c t)) =>
      if (base =? 16) && ((code x =? 120) || (code x =? 88)) && bool_decide (is_Some (digit 16 c)) then String c t else s
  | _ => s
  end.

(** [long] has 64 bits. *)
Definition strtol (base : Z) (s : string) : Z :=
  let '(neg, s) := sign (skip_space s) in
  let n := digits base 0 (hex_prefix base s) in
  clamp (- 2 ^ 63) (2 ^ 63 - 1) (if neg then - n else n).

Definition atol (s : string) : Z := strtol 10 s.
Definition atoi (s : string) : Z := swrap 32 (strtol 10 s).

(** A count of thousands in an [int]. *)
Definition kilo (n : Z) : Z := if 0 <? n then swrap 32 (n * 1024) else n.

Definition MILLI_PER_MIN : Z := 60000.
Definition minutes (a : string) : Z := u32 (u32 (atoi a) * MILLI_PER_MIN).

(** ** The name of the display *)

(** The loop over the characters; [None] for a name that is refused. *)
Fixpoint display_loop (d : string) (period_found : bool) (after_period : Z) : option (bool * Z) :=
  match d with
  | EmptyString => Some (period_found, after_period)
  | String c d =>
      if negb (isdigit c) then
        if negb (Ascii.eqb c ".") || period_found then None
        else if 2 <? after_period then None else display_loop d true after_period
      else
        let after_period := if period_found then after_period + 1 else after_period in
        if 2 <? after_period then None else display_loop d period_found after_period
  end.

Fixpoint strchr (d : string) (c : ascii) : bool :=
  match d with EmptyString => false | String x d => Ascii.eqb x c || strchr d c end.

Definition VerifyDisplayName (d : string) : bool :=
  if Ascii.eqb (first d) zero || Ascii.eqb (first d) "-" || Ascii.eqb (first d) "." || strchr d "/" then false
  else
    match display_loop d false 0 with
    | None => false
    | Some (period_found, after_period) =>
        if (period_found : bool) && (after_period =? 0) then false else atol d <=? 2 ^ 31 - 1
    end.

(** ** The options *)

#[local] Notation "a === b" := (String.eqb a b) (at level 70, no associativity).

Section command_line.
(** [argc] arguments; an access to another one is undefined. *)
Context (env : Env) (argv : list string).
Let argc : Z := Z.of_nat (length argv).
Let arg (i : Z) : option string := rdz argv i.

(** An option with a value: [if (++i < argc) f(argv[i]); else UseMsg();]. *)
Definition taking (i : Z) (s : Server) (f : string -> Server -> outcome) : option outcome :=
  if i + 1 <? argc then a ← arg (i + 1); Some (f a s) else Some (Next (i + 2) (do UseMsg s)).

Definition valued (i : Z) (s : Server) (f : string -> Server -> Server) : option outcome :=
  taking i s (fun a s => Next (i + 2) (f a s)).

(** The result is the number of arguments taken, 0 for none. *)
Definition ddxProcessArgument (i : Z) (s : Server) : option (Z * Server + string) :=
  a ← arg i;
  if a === "-xstartup" then
    if argc <=? i + 1 then Some (inr "Required argument to -xstartup not specified")
    else v ← arg (i + 1); Some (inl (2, set "xstartup" (Str v) s))
  else if a === "-legacy-drawing" then Some (inl (1, set_true "root.legacyDrawing" s))
  else if a === "-force-bgra" then Some (inl (1, set_true "root.flip" s))
  else if a === "-disable-dri3" then Some (inl (1, set_false "dri3" s))
  else if a === "-force-sysvshm" then Some (inl (1, do (android_shmem_sysv_shm_force 1) s))
  else if a === "-check-drawing" then Some (inl (1, do QueueDrawSquares (set_true "NoListenAll" s)))
  else Some (inl (0, s)).

(** Whether [argv[i]] exists and starts with a digit. *)
Definition digit_at (i : Z) : option bool := if i <? argc then a ← arg i; Some (isdigit (first a)) else Some false.

(** The values of [+accessx]: a number in [argv[i + 1]] is stored and [i] and [j] move on. *)
Definition access_value (x : string) (f : string -> Z) (ijs : Z * Z * Server) : option (Z * Z * Server) :=
  let '(i, j, s) := ijs in
  '(d : bool) ← digit_at (i + 1);
  if d then a ← arg (i + 1); Some (i + 1, j + 1, set_int x (f a) s) else Some (i, j, s).

(** The number of arguments taken, 0 for none, -1 for an error. *)
Definition XkbProcessArguments (i : Z) (s : Server) : option (Z * Server) :=
  a ← arg i;
  if starts "-xkbdir" a then
    if i + 1 <? argc then
      d ← arg (i + 1);
      if negb (getuid env =? geteuid env) then Some (-1, s)
      else if Z.of_nat (String.length d) <? 4096 then Some (2, set "XkbBaseDirectory" (Str d) s) else Some (-1, s)
    else Some (-1, s)
  else if starts "-accessx" a || starts "+accessx" a then
    if Ascii.eqb (first a) "-" then Some (1, set_false "XkbWantAccessX" s)
    else
      let s := set_true "XkbWantAccessX" s in
      '(d : bool) ← digit_at (i + 1);
      if negb d then Some (1, s)
      else
        r ← access_value "XkbDfltAccessXTimeout" (fun a => u16 (atoi a)) (i, 1, s);
        r ← access_value "XkbDfltAccessXTimeoutMask" (fun a => u32 (strtol 16 a)) r;
        r ← access_value "XkbDfltAccessXFeedback" (fun a => if Ascii.eqb (first a) "1" then 256 else 0) r;
        '((_, j, s) : Z * Z * Server) ← access_value "XkbDfltAccessXOptions" (fun a => u16 (strtol 16 a)) r;
        Some (j, s)
  else if (a === "-ardelay") || (a === "-ar1") then
    if argc <=? i + 1 then Some (2, do UseMsg s) else v ← arg (i + 1); Some (2, set_int "XkbDfltRepeatDelay" (atoi v) s)
  else if (a === "-arinterval") || (a === "-ar2") then
    if argc <=? i + 1 then Some (2, do UseMsg s) else v ← arg (i + 1); Some (2, set_int "XkbDfltRepeatInterval" (atoi v) s)
  else Some (0, s).

(** *** XDMCP *)

Definition XDM_UDP_PORT : Z := 177.
Definition xdm_udp_port (s : Server) : Z := match vars s !! "xdm_udp_port" with Some (Int p) => p | _ => XDM_UDP_PORT end.

Definition XDM_DEFAULT_MCAST_ADDR6 : string := "ff02:0:0:0:0:0:0:12b".

Definition xdmcp (state : string) (s : Server) : Server :=
  do (_XSERVTransListen "tcp") (set_false "LocalHostEnabled" (set_true "UsingXdmcp" (set "XDM_INIT_STATE" (Str state) s))).

Definition is_value (i : Z) : option bool :=
  if i <? argc then a ← arg i; Some (negb (Ascii.eqb (first a) "-") && negb (Ascii.eqb (first a) "+")) else Some false.

(** The result is the index behind the options of [-multicast]. *)
Definition get_mcast_options (i : Z) (s : Server) : option (Z * Server + string) :=
  '(d : bool) ← is_value i;
  '((i, address, hops) : Z * string * option string) ←
    (if d then
       address ← arg i;
       '(d : bool) ← is_value (i + 1);
       if d then h ← arg (i + 1); Some (i + 2, address, Some h) else Some (i + 1, address, None)
     else Some (i, XDM_DEFAULT_MCAST_ADDR6, None));
  let hopcount := from_option (fun h => swrap 32 (strtol 10 h)) 1 hops in
  let port := xdm_udp_port s in
  if (hopcount <? 1) || (255 <? hopcount) then Some (inr "multicast hop count out of range")
  else if (port <=? 0) || (65535 <=? port) then Some (inr "port out of range")
  else if negb (multicast_address env address port) then Some (inr "address not supported multicast type")
  else Some (inl (i, do (Multicast address port hopcount) s)).

(** A host that is looked up; an unknown one ends the server. *)
Definition by_name (argtype name : string) (port next : Z) (s : Server) (f : Server -> Server) : Z * Server + string :=
  if host_known env argtype name port then inl (next, f (do (get_addr_by_name argtype name) s)) else inr "unknown host".

Definition missing (i : Z) (s : Server) (f : string -> Server -> Z * Server + string) : option (Z * Server + string) :=
  if i =? argc then Some (inr "missing value in command line") else a ← arg i; Some (f a s).

(** The result is the next index, [i] itself for no option. *)
Definition XdmcpOptions (i : Z) (s : Server) : option (Z * Server + string) :=
  a ← arg i;
  if a === "-query" then missing (i + 1) s (fun h s => by_name a h (xdm_udp_port s) (i + 2) s (xdmcp "XDM_QUERY"))
  else if a === "-broadcast" then Some (inl (i + 1, xdmcp "XDM_BROADCAST" s))
  else if a === "-multicast" then
    r ← get_mcast_options (i + 1) s;
    match r with inl (i, s) => Some (inl (i + 1, xdmcp "XDM_MULTICAST" s)) | inr m => Some (inr m) end
  else if a === "-indirect" then missing (i + 1) s (fun h s => by_name a h (xdm_udp_port s) (i + 2) s (xdmcp "XDM_INDIRECT"))
  else if a === "-port" then missing (i + 1) s (fun v s => inl (i + 2, set_int "xdm_udp_port" (u16 (atoi v)) s))
  else if a === "-from" then missing (i + 1) s (fun h s => by_name a h 0 (i + 2) s (set "xdm_from" (Str h)))
  else if a === "-once" then Some (inl (i + 1, set_true "OneSession" s))
  else if a === "-class" then missing (i + 1) s (fun v s => inl (i + 2, set "defaultDisplayClass" (Str v) s))
  else if a === "-cookie" then missing (i + 1) s (fun v s => inl (i + 2, set "xdmAuthCookie" (Str v) s))
  else if a === "-displayID" then missing (i + 1) s (fun v s => inl (i + 2, do (XdmcpRegisterManufacturerDisplayID v) s))
  else Some (inl (i, s)).

(** *** The loop *)

(** [if (!EnableDisableExtension(..)) EnableDisableExtensionError(..)] *)
Definition toggle_extension (enable : bool) (name : string) (s : Server) : Server :=
  let s := do (EnableDisableExtension name enable) s in
  if extension_known env name enable then s else do (EnableDisableExtensionError name enable) s.

Definition PictureParseCmapPolicy (name : string) : Z :=
  if name === "default" then 0 else if name === "mono" then 1 else if name === "gray" then 2
  else if name === "color" then 3 else if name === "all" then 4 else -1.

Definition PreferBlanking : Z := 1.
Definition DontPreferBlanking : Z := 0.
Definition DE_RESET : Z := 1.
Definition DE_TERMINATE : Z := 2.

(** The value of [-maxbigreqsize], in megabytes. *)
Definition big_request (a : string) (s : Server) : Server :=
  let n := atol a in
  if (0 <? n) && (n <? 128) then set_int "maxBigRequestSize" (n * 1048576 - 1) s else do UseMsg s.

(** The last options of the chain. *)
Definition late_argument (a : string) (i : Z) (s : Server) : option outcome :=
  let flag f := Some (Next (i + 1) (f s)) in
  if a === "-dumbSched" then flag (fun s => set_false "SmartScheduleSignalEnable" (set_false "InputThreadEnable" s))
  else if a === "-schedInterval" then
    valued i s (fun a s => set_int "SmartScheduleSlice" (atoi a) (set_int "SmartScheduleInterval" (atoi a) s))
  else if a === "-schedMax" then valued i s (fun a => set_int "SmartScheduleMaxSlice" (atoi a))
  else if a === "-render" then
    valued i s (fun a s => let policy := PictureParseCmapPolicy a in
                           if policy =? -1 then do UseMsg s else set_int "PictureCmapPolicy" policy s)
  else if a === "-sigstop" then flag (set_true "RunFromSigStopParent")
  else if a === "+extension" then valued i s (toggle_extension true)
  else if a === "-extension" then valued i s (toggle_extension false)
  else Some (FatalError "Unrecognized option" (do UseMsg s)).

(** From [-ld] on. *)
Definition middle_argument (a : string) (i : Z) (s : Server) : option outcome :=
  let flag f := Some (Next (i + 1) (f s)) in
  if a === "-ld" then valued i s (fun a => set_int "limitDataSpace" (kilo (atoi a)))
  else if a === "-lf" then valued i s (fun a => set_int "limitNoFile" (atoi a))
  else if a === "-ls" then valued i s (fun a => set_int "limitStackSpace" (kilo (atoi a)))
  else if a === "-nolock" then flag (if negb (getuid env =? 0) then (fun s => s) else set_true "nolock")
  else if a === "-maxclients" then
    taking i s (fun a s =>
      let s := set_int "LimitClients" (atoi a) s in
      if bool_decide (atoi a ∈ [64; 128; 256; 512; 1024; 2048]) then Next (i + 2) s
      else FatalError "maxclients must be one of 64, 128, 256, 512, 1024 or 2048" s)
  else if a === "-nolisten" then valued i s (fun a => do (_XSERVTransNoListen a))
  else if a === "-listen" then valued i s (fun a => do (_XSERVTransListen a))
  else if a === "-noreset" then flag (set_int "dispatchExceptionAtReset" 0)
  else if a === "-reset" then flag (set_int "dispatchExceptionAtReset" DE_RESET)
  else if a === "-p" then valued i s (fun a => set_int "defaultScreenSaverInterval" (minutes a))
  else if a === "-pogo" then flag (set_int "dispatchException" DE_TERMINATE)
  else if a === "-pn" then flag (set_true "PartialNetwork")
  else if a === "-nopn" then flag (set_false "PartialNetwork")
  else if a === "r" then flag (set_true "defaultKeyboardControl.autoRepeat")
  else if a === "-r" then flag (set_false "defaultKeyboardControl.autoRepeat")
  else if a === "-retro" then flag (set_true "party_like_its_1989")
  else if a === "-s" then valued i s (fun a => set_int "defaultScreenSaverTime" (minutes a))
  else if a === "-seat" then valued i s (fun a => set "SeatId" (Str a))
  else if a === "-t" then valued i s (fun a => set_int "defaultPointerControl.threshold" (atoi a))
  else if a === "-terminate" then
    let s := set_int "dispatchExceptionAtReset" DE_TERMINATE s in
    '(d : bool) ← digit_at (i + 1);
    if d then a ← arg (i + 1); Some (Next (i + 2) (set_int "terminateDelay" (Z.max 0 (atoi a)) s))
    else Some (Next (i + 1) (set_int "terminateDelay" 0 s))
  else if a === "-tst" then flag (set_true "noTestExtensions")
  else if a === "v" then flag (set_int "defaultScreenSaverBlanking" PreferBlanking)
  else if a === "-v" then flag (set_int "defaultScreenSaverBlanking" DontPreferBlanking)
  else if a === "-wr" then flag (set_true "whiteRoot")
  else if a === "-background" then
    if i + 1 <? argc then
      v ← arg (i + 1); Some (Next (i + 2) (if v === "none" then set_true "bgNoneRoot" s else do UseMsg s))
    else Some (Next (i + 2) s)
  else if a === "-maxbigreqsize" then valued i s big_request
  else if a === "+xinerama" then flag (set_false "noPanoramiXExtension")
  else if a === "-xinerama" then flag (set_true "noPanoramiXExtension")
  else if a === "-disablexineramaextension" then flag (set_true "PanoramiXExtensionDisabledHack")
  else if a === "-I" then Some (Done s)
  else if starts "tty" a then Some (Next (i + 1) s)
  else
    r ← XdmcpOptions i s;
    match r with
    | inl (skip, s) => if negb (skip =? i) then Some (Next (skip - 1 + 1) s) else late_argument a i s
    | inr m => Some (FatalError m s)
    end.

(** One round of the loop. *)
Definition argument (i : Z) (s : Server) : option outcome :=
  a ← arg i;
  let flag f := Some (Next (i + 1) (f s)) in
  r ← ddxProcessArgument i s;
  match r with
  | inr m => Some (FatalError m (do UseMsg s))
  | inl (skip, s) =>
  if negb (skip =? 0) then Some (Next (i + (skip - 1) + 1) s)
  else if Ascii.eqb (first a) ":" then
    let s := set_true "explicit_display" (set "display" (Str (rest a)) s) in
    if VerifyDisplayName (rest a) then Some (Next (i + 1) s) else Some (FatalError "Bad display name" (do UseMsg s))
  else if a === "-a" then valued i s (fun a => set_int "defaultPointerControl.num" (atoi a))
  else if a === "-ac" then flag (set_true "defeatAccessControl")
  else if a === "-audit" then valued i s (fun a => set_int "auditTrailLevel" (atoi a))
  else if a === "-auth" then valued i s (fun a => do (InitAuthorization a))
  else if a === "-byteswappedclients" then flag (set_false "AllowByteSwappedClients")
  else if a === "+byteswappedclients" then flag (set_true "AllowByteSwappedClients")
  else if a === "-br" then flag (fun s => s)
  else if a === "+bs" then flag (set_true "enableBackingStore")
  else if a === "-bs" then flag (set_true "disableBackingStore")
  else if a === "c" then valued i s (fun a => set_int "defaultKeyboardControl.click" (atoi a))
  else if a === "-c" then flag (set_int "defaultKeyboardControl.click" 0)
  else if a === "-cc" then valued i s (fun a => set_int "defaultColorVisualClass" (atoi a))
  else if a === "-core" then flag (fun s => set_true "CoreDump" (do RaiseCoreLimit s))
  else if a === "-nocursor" then flag (set_false "EnableCursor")
  else if a === "-dpi" then valued i s (fun a => set_int "monitorResolution" (atoi a))
  else if a === "-displayfd" then valued i s (fun a s => set_true "nolock" (set_int "displayfd" (atoi a) s))
  else if a === "dpms" then flag (fun s => s)
  else if a === "-dpms" then flag (set_true "DPMSDisabledSwitch")
  else if a === "-deferglyphs" then
    if argc <=? i + 1 then Some (Next (i + 2) (do UseMsg s))
    else v ← arg (i + 1); Some (Next (i + 2) (if xfont2_parse_glyph_caching_mode env v then s else do UseMsg s))
  else if a === "-f" then valued i s (fun a => set_int "defaultKeyboardControl.bell" (atoi a))
  else if a === "-fakescreenfps" then
    taking i s (fun a s =>
      let n := u32 (atoi a) in let s := set_int "FakeScreenFps" n s in
      if (n <? 1) || (600 <? n) then FatalError "fakescreenfps must be an integer in [1;600] range" s else Next (i + 2) s)
  else if a === "-fp" then valued i s (fun a => set "defaultFontPath" (Str a))
  else if a === "-help" then Some (Exit (do UseMsg s))
  else if a === "+iglx" then flag (set_true "enableIndirectGLX")
  else if a === "-iglx" then flag (set_false "enableIndirectGLX")
  else
    '((skip, s) : Z * Server) ← XkbProcessArguments i s;
    if negb (skip =? 0) then
      if 0 <? skip then Some (Next (i + (skip - 1) + 1) s) else Some (Next (i + 1) (do UseMsg s))
    else middle_argument a i s
  end.

(** [fuel] bounds the rounds. *)
Fixpoint arguments (fuel : nat) (i : Z) (s : Server) : option outcome :=
  if argc <=? i then Some (Done s)
  else
    match fuel with
    | O => None
    | S fuel =>
        r ← argument i s;
        match r with Next i s => arguments fuel i s | r => Some r end
    end.

Definition initial (s : Server) : Server :=
  do (_XSERVTransNoListen "tcp") (set_true "PartialNetwork" (set_true "defaultKeyboardControl.autoRepeat" s)).

Definition ProcessCommandLine (s : Server) : option outcome := arguments (length argv) 1 (initial s).
End command_line.

(** ** The loop ends *)

Section ends.
Context (env : Env) (argv : list string).
Let argc : Z := Z.of_nat (length argv).

(** A round ends, and goes on behind [i] if at all. *)
Definition progress (i : Z) (o : option outcome) : Prop := exists r, o = Some r /\ match r with Next j _ => i < j | _ => True end.

Lemma arg_in i : 0 <= i < argc -> exists a, rdz argv i = Some a.
Proof. intros H. apply rdz_is_Some in H as [a Ha]. by exists a. Qed.

Lemma progress_next i j s : i < j -> progress i (Some (Next j s)).
Proof. intros H. by eexists. Qed.

Lemma progress_end i r : (forall j s, r <> Next j s) -> progress i (Some r).
Proof. intros H. exists r. split; [done|]. destruct r as [j s| | |]; try done. by destruct (H j s). Qed.

Lemma progress_if i (b : bool) x y : progress i x -> progress i y -> progress i (if b then x else y).
Proof. by destruct b. Qed.

Lemma progress_taking i s f : 0 <= i -> (forall a s, match f a s with Next j _ => i < j | _ => True end) -> progress i (taking argv i s f).
Proof.
  intros Hi Hf. unfold taking. fold argc. destruct (Z.ltb_spec (i + 1) argc); [|by apply progress_next; lia].
  destruct (arg_in (i + 1)) as [a ->]; [lia|]. cbn [mbind option_bind]. eexists. split; [done|]. apply Hf.
Qed.

Lemma progress_valued i s f : 0 <= i -> progress i (valued argv i s f).
Proof. intros Hi. apply progress_taking; [done|]. intros a s'. lia. Qed.

Lemma digit_at_total i : 0 <= i -> exists d, digit_at argv i = Some d /\ (d = true -> i < argc).
Proof.
  intros Hi. unfold digit_at. fold argc. destruct (Z.ltb_spec i argc); [|by exists false].
  destruct (arg_in i) as [a ->]; [lia|]. cbn [mbind option_bind]. by eexists.
Qed.

Lemma access_value_total x f i j s : 0 <= i -> exists i' j' s', access_value argv x f (i, j, s) = Some (i', j', s') /\ i <= i' /\ j <= j'.
Proof.
  intros Hi. unfold access_value. destruct (digit_at_total (i + 1)) as (d & -> & Hd); [lia|]. cbn [mbind option_bind].
  destruct d; [|do 3 eexists; split; [done|lia]]. destruct (arg_in (i + 1)) as [a ->]; [split; [lia|by apply Hd]|].
  cbn [mbind option_bind]. do 3 eexists. split; [done|lia].
Qed.

Lemma ddx_total i s : 0 <= i < argc -> exists r, ddxProcessArgument argv i s = Some r /\ forall n s', r = inl (n, s') -> 0 <= n.
Proof.
  intros Hi. unfold ddxProcessArgument. fold argc. destruct (arg_in i Hi) as [a ->]. cbn [mbind option_bind].
  destruct (a === _); [destruct (Z.leb_spec argc (i + 1)); [by eexists|]|].
  { destruct (arg_in (i + 1)) as [v ->]; [lia|]. cbn [mbind option_bind]. eexists. split; [done|]. intros n s' [= <- _]. lia. }
  repeat (destruct (a === _); [eexists; split; [done|]; intros n s' [= <- _]; lia|]). eexists. split; [done|]. intros n s' [= <- _]. lia.
Qed.

Lemma xkb_total i s : 0 <= i < argc -> exists n s', XkbProcessArguments env argv i s = Some (n, s').
Proof.
  intros Hi. unfold XkbProcessArguments. fold argc. destruct (arg_in i Hi) as [a ->]. cbn [mbind option_bind].
  assert (forall f : string -> option (Z * Server), (forall v, exists n s', f v = Some (n, s')) -> i + 1 < argc ->
    exists n s', (v ← rdz argv (i + 1); f v) = Some (n, s')) as Harg.
  { intros f Hf Hlt. destruct (arg_in (i + 1)) as [v ->]; [lia|]. apply Hf. }
  destruct (starts _ a).
  { destruct (Z.ltb_spec (i + 1) argc); [|by do 2 eexists]. apply Harg; [|done]. intros v.
    destruct (negb _); [by do 2 eexists|]. destruct (_ <? _); by do 2 eexists. }
  destruct (_ || _).
  { destruct (Ascii.eqb _ _); [by do 2 eexists|]. destruct (digit_at_total (i + 1)) as (d & -> & _); [lia|]. cbn [mbind option_bind].
    destruct (negb d); [by do 2 eexists|].
    edestruct (access_value_total "XkbDfltAccessXTimeout" (fun a => u16 (atoi a)) i 1) as (i1 & j1 & s1 & -> & ? & _); [lia|]. cbn [mbind option_bind].
    edestruct (access_value_total "XkbDfltAccessXTimeoutMask" (fun a => u32 (strtol 16 a)) i1 j1) as (i2 & j2 & s2 & -> & ? & _); [lia|]. cbn [mbind option_bind].
    edestruct (access_value_total "XkbDfltAccessXFeedback" (fun a => if Ascii.eqb (first a) "1" then 256 else 0) i2 j2) as (i3 & j3 & s3 & -> & ? & _); [lia|].
    cbn [mbind option_bind]. edestruct (access_value_total "XkbDfltAccessXOptions" (fun a => u16 (strtol 16 a)) i3 j3) as (i4 & j4 & s4 & -> & _); [lia|].
    by do 2 eexists. }
  do 2 (destruct (_ || _); [destruct (Z.leb_spec argc (i + 1)); [by do 2 eexists|]; apply Harg; [by do 2 eexists|lia]|]).
  by do 2 eexists.
Qed.

(** The index that XDMCP returns is [i] or behind it. *)
Definition onward (i : Z) (o : option (Z * Server + string)) : Prop := exists r, o = Some r /\ forall j s, r = inl (j, s) -> i <= j.

Lemma onward_inl i j s : i <= j -> onward i (Some (inl (j, s))).
Proof. intros H. eexists. split; [done|]. by intros j' s' [= <- <-]. Qed.

Lemma onward_inr i m : onward i (Some (inr m)).
Proof. by eexists. Qed.

Lemma onward_missing i s f : 0 <= i < argc -> (forall a s j s', f a s = inl (j, s') -> i <= j) -> onward i (missing argv (i + 1) s f).
Proof.
  intros Hi Hf. unfold missing. fold argc. destruct (Z.eqb_spec (i + 1) argc); [apply onward_inr|].
  destruct (arg_in (i + 1)) as [a ->]; [lia|]. cbn [mbind option_bind]. eexists. split; [done|]. intros j s'. apply Hf.
Qed.

Lemma is_value_total i : 0 <= i -> exists d, is_value argv i = Some d /\ (d = true -> i < argc).
Proof.
  intros Hi. unfold is_value. fold argc. destruct (Z.ltb_spec i argc); [|by exists false].
  destruct (arg_in i) as [a ->]; [lia|]. cbn [mbind option_bind]. by eexists.
Qed.

Lemma onward_mcast i s : 0 <= i -> onward i (get_mcast_options env argv i s).
Proof.
  intros Hi. unfold get_mcast_options. destruct (is_value_total i Hi) as (d & -> & Hd). cbn [mbind option_bind].
  assert (exists j a h, (if d then address ← rdz argv i; '(d0 : bool) ← is_value argv (i + 1);
      if d0 then h ← rdz argv (i + 1); Some (i + 2, address, Some h) else Some (i + 1, address, None)
    else Some (i, XDM_DEFAULT_MCAST_ADDR6, None)) = Some (j, a, h) /\ i <= j) as (j & a & h & -> & Hj).
  { destruct d; [|do 3 eexists; split; [done|lia]]. destruct (arg_in i) as [a ->]; [split; [lia|by apply Hd]|]. cbn [mbind option_bind].
    destruct (is_value_total (i + 1)) as (d & -> & Hd'); [lia|]. cbn [mbind option_bind]. destruct d; [|do 3 eexists; split; [done|lia]].
    destruct (arg_in (i + 1)) as [h ->]; [split; [lia|by apply Hd']|]. cbn [mbind option_bind]. do 3 eexists. split; [done|lia]. }
  cbn [mbind option_bind]. repeat (destruct (_ || _); [apply onward_inr|]). destruct (negb _); [apply onward_inr|]. by apply onward_inl.
Qed.

Lemma onward_xdmcp i s : 0 <= i < argc -> onward i (XdmcpOptions env argv i s).
Proof.
  intros Hi. unfold XdmcpOptions. destruct (arg_in i Hi) as [a ->]. cbn [mbind option_bind].
  assert (forall p k h s f j s', i <= k -> by_name env a h p k s f = inl (j, s') -> i <= j) as Hby.
  { intros p k h s0 f j s' Hk. unfold by_name. destruct (host_known _ _ _ _); [|done]. by intros [= <- _]. }
  assert (forall k (g : string -> Server -> Server), i <= k -> forall v s j s', @inl _ string (k, g v s) = inl (j, s') -> i <= j) as Hinl by by intros k g Hk v s0 j s' [= <- _].
  destruct (a === _); [apply onward_missing; [done|]; intros v s0 j s'; apply Hby; lia|].
  destruct (a === _); [apply onward_inl; lia|].
  destruct (a === _).
  { destruct (onward_mcast (i + 1) s) as (r & -> & Hr); [lia|]. cbn [mbind option_bind]. destruct r as [[j s']|m]; [|apply onward_inr].
    apply onward_inl. specialize (Hr j s' eq_refl). lia. }
  destruct (a === _); [apply onward_missing; [done|]; intros v s0 j s'; apply Hby; lia|].
  destruct (a === _); [apply onward_missing; [done|]; intros v s0 j s' [= <- _]; lia|].
  destruct (a === _); [apply onward_missing; [done|]; intros v s0 j s'; apply Hby; lia|].
  destruct (a === _); [apply onward_inl; lia|].
  do 3 (destruct (a === _); [apply onward_missing; [done|]; intros v s0 j s' [= <- _]; lia|]).
  apply onward_inl. lia.
Qed.


Lemma progress_flag i s : progress i (Some (Next (i + 1) s)).
Proof. apply progress_next. lia. Qed.

(** Walks down a chain of tests. *)
Ltac rounds :=
  repeat first [apply progress_valued; assumption | apply progress_flag | apply progress_end; discriminate | lazymatch goal with |- progress _ (if _ <? _ then _ else _) => fail | |- progress _ (if _ <=? _ then _ else _) => fail | |- progress _ (if _ then _ else _) => apply progress_if end];
  cbv zeta beta.

Lemma progress_late a i s : 0 <= i -> progress i (late_argument env argv a i s).
Proof. intros Hi. unfold late_argument. cbv zeta beta. rounds. Qed.

Lemma progress_middle a i s : 0 <= i < argc -> progress i (middle_argument env argv a i s).
Proof.
  intros [Hi Hlt]. unfold middle_argument. cbv zeta beta. rounds.
  - apply progress_taking; [done|]. intros v s'. cbv zeta. destruct (bool_decide _); [lia|done].
  - destruct (digit_at_total (i + 1)) as (d & -> & Hd); [lia|]. cbn [mbind option_bind]. destruct d; [|by apply progress_next; lia].
    destruct (arg_in (i + 1)) as [v ->]; [split; [lia|by apply Hd]|]. apply progress_next. lia.
  - fold argc. destruct (Z.ltb_spec (i + 1) argc); [|apply progress_next; lia].
    destruct (arg_in (i + 1)) as [v ->]; [lia|]. apply progress_next. lia.
  - destruct (onward_xdmcp i s) as (r & -> & Hr); [lia|]. cbn [mbind option_bind]. destruct r as [[j s']|m]; [|by apply progress_end].
    specialize (Hr j s' eq_refl). destruct (Z.eqb_spec j i); cbn [negb]; [by apply progress_late|]. apply progress_next. lia.
Qed.

Lemma progress_argument i s : 0 <= i < argc -> progress i (argument env argv i s).
Proof.
  intros [Hi Hlt]. unfold argument. destruct (arg_in i) as [a Ha]; [lia|]. rewrite Ha. cbn [mbind option_bind].
  destruct (ddx_total i s) as (r & -> & Hr); [lia|]. cbn [mbind option_bind]. destruct r as [[n s']|m]; [|by apply progress_end].
  specialize (Hr n s' eq_refl). destruct (Z.eqb_spec n 0) as [->|]; cbn [negb]; [|apply progress_next; lia].
  cbv zeta beta. rounds.
  - fold argc. destruct (Z.leb_spec argc (i + 1)); [apply progress_next; lia|].
    destruct (arg_in (i + 1)) as [v ->]; [lia|]. apply progress_next. lia.
  - apply progress_taking; [done|]. intros v s0. cbv zeta. destruct (_ || _); [done|lia].
  - destruct (xkb_total i s') as (k & s0 & ->); [lia|]. cbn [mbind option_bind].
    destruct (Z.eqb_spec k 0); cbn [negb]; [by apply progress_middle|].
    destruct (Z.ltb_spec 0 k); apply progress_next; lia.
Qed.

Lemma arguments_total fuel i s :
  0 <= i -> argc - i <= Z.of_nat fuel -> exists r, arguments env argv fuel i s = Some r /\ forall j s', r <> Next j s'.
Proof.
  revert i s. induction fuel as [|fuel IH]; intros i s Hi Hf; cbn [arguments]; fold argc.
  - rewrite (proj2 (Z.leb_le argc i)); [by eexists|lia].
  - destruct (Z.leb_spec argc i); [by eexists|]. destruct (progress_argument i s) as (r & -> & Hr); [lia|].
    cbn [mbind option_bind]. destruct r as [j s'| | |]; [apply IH; lia|by eexists..].
Qed.
End ends.

(** Whatever the command line holds and whatever the user, the font library, the
    extensions and the network answer, [ProcessCommandLine] ends after at most one round for
    each argument and reads no argument outside [argv]: it comes to the end of the arguments,
    ends the program for [-help], or ends it with a fatal error; options whose value is
    missing at the end of the line included. *)
Theorem ProcessCommandLine_ends (env : Env) (argv : list string) (s : Server) :
  exists r, ProcessCommandLine env argv s = Some r /\ forall i s', r <> Next i s'.
Proof. apply arguments_total; lia. Qed.

(** ** What the options mean

    The options without value and with one value, each with its effect and the values that
    it accepts. Left out are [-multicast], the options of XDMCP that look up a host,
    [+accessx] with numbers, [-I] and [-help]. *)

Inductive opt := Flag (name : string) | Value (name v : string) | Display (d : string).

Definition constantly {A B} (x : B) (_ : A) : B := x.

Section meaning.
Context (env : Env).

Definition flags : list (string * (Server -> Server)) := [
  ("-legacy-drawing", set_true "root.legacyDrawing"); ("-force-bgra", set_true "root.flip"); ("-disable-dri3", set_false "dri3");
  ("-force-sysvshm", do (android_shmem_sysv_shm_force 1)); ("-check-drawing", fun s => do QueueDrawSquares (set_true "NoListenAll" s));
  ("-ac", set_true "defeatAccessControl"); ("-byteswappedclients", set_false "AllowByteSwappedClients");
  ("+byteswappedclients", set_true "AllowByteSwappedClients"); ("-br", id); ("+bs", set_true "enableBackingStore");
  ("-bs", set_true "disableBackingStore"); ("-c", set_int "defaultKeyboardControl.click" 0);
  ("-core", fun s => set_true "CoreDump" (do RaiseCoreLimit s)); ("-nocursor", set_false "EnableCursor"); ("dpms", id);
  ("-dpms", set_true "DPMSDisabledSwitch"); ("+iglx", set_true "enableIndirectGLX"); ("-iglx", set_false "enableIndirectGLX");
  ("-accessx", set_false "XkbWantAccessX"); ("+accessx", set_true "XkbWantAccessX");
  ("-nolock", if getuid env =? 0 then set_true "nolock" else id); ("-noreset", set_int "dispatchExceptionAtReset" 0);
  ("-reset", set_int "dispatchExceptionAtReset" DE_RESET); ("-pogo", set_int "dispatchException" DE_TERMINATE);
  ("-pn", set_true "PartialNetwork"); ("-nopn", set_false "PartialNetwork"); ("r", set_true "defaultKeyboardControl.autoRepeat");
  ("-r", set_false "defaultKeyboardControl.autoRepeat"); ("-retro", set_true "party_like_its_1989");
  ("-terminate", fun s => set_int "terminateDelay" 0 (set_int "dispatchExceptionAtReset" DE_TERMINATE s));
  ("-tst", set_true "noTestExtensions"); ("v", set_int "defaultScreenSaverBlanking" PreferBlanking);
  ("-v", set_int "defaultScreenSaverBlanking" DontPreferBlanking); ("-wr", set_true "whiteRoot");
  ("+xinerama", set_false "noPanoramiXExtension"); ("-xinerama", set_true "noPanoramiXExtension");
  ("-disablexineramaextension", set_true "PanoramiXExtensionDisabledHack"); ("-broadcast", xdmcp "XDM_BROADCAST");
  ("-once", set_true "OneSession");
  ("-dumbSched", fun s => set_false "SmartScheduleSignalEnable" (set_false "InputThreadEnable" s)); ("-sigstop", set_true "RunFromSigStopParent")].

Definition number (x : string) (v : string) : Server -> Server := set_int x (atoi v).

Definition valued_options : list (string * (string -> bool) * (string -> Server -> Server)) := [
  ("-xstartup", constantly true, fun v => set "xstartup" (Str v)); ("-a", constantly true, number "defaultPointerControl.num");
  ("-audit", constantly true, number "auditTrailLevel"); ("-auth", constantly true, fun v => do (InitAuthorization v));
  ("c", constantly true, number "defaultKeyboardControl.click"); ("-cc", constantly true, number "defaultColorVisualClass");
  ("-dpi", constantly true, number "monitorResolution"); ("-displayfd", constantly true, fun v s => set_true "nolock" (number "displayfd" v s));
  ("-deferglyphs", xfont2_parse_glyph_caching_mode env, fun _ s => s); ("-f", constantly true, number "defaultKeyboardControl.bell");
  ("-fakescreenfps", fun v => (1 <=? u32 (atoi v)) && (u32 (atoi v) <=? 600), fun v => set_int "FakeScreenFps" (u32 (atoi v)));
  ("-fp", constantly true, fun v => set "defaultFontPath" (Str v));
  ("-xkbdir", fun v => (getuid env =? geteuid env) && (Z.of_nat (String.length v) <? 4096), fun v => set "XkbBaseDirectory" (Str v));
  ("-ardelay", constantly true, number "XkbDfltRepeatDelay"); ("-ar1", constantly true, number "XkbDfltRepeatDelay");
  ("-arinterval", constantly true, number "XkbDfltRepeatInterval"); ("-ar2", constantly true, number "XkbDfltRepeatInterval");
  ("-ld", constantly true, fun v => set_int "limitDataSpace" (kilo (atoi v))); ("-lf", constantly true, number "limitNoFile");
  ("-ls", constantly true, fun v => set_int "limitStackSpace" (kilo (atoi v)));
  ("-maxclients", fun v => bool_decide (atoi v ∈ [64; 128; 256; 512; 1024; 2048]), number "LimitClients");
  ("-nolisten", constantly true, fun v => do (_XSERVTransNoListen v)); ("-listen", constantly true, fun v => do (_XSERVTransListen v));
  ("-p", constantly true, fun v => set_int "defaultScreenSaverInterval" (minutes v));
  ("-s", constantly true, fun v => set_int "defaultScreenSaverTime" (minutes v)); ("-seat", constantly true, fun v => set "SeatId" (Str v));
  ("-t", constantly true, number "defaultPointerControl.threshold");
  ("-terminate", fun v => isdigit (first v), fun v s => set_int "terminateDelay" (Z.max 0 (atoi v)) (set_int "dispatchExceptionAtReset" DE_TERMINATE s));
  ("-background", fun v => v === "none", fun _ => set_true "bgNoneRoot");
  ("-maxbigreqsize", fun v => (0 <? atol v) && (atol v <? 128), fun v => set_int "maxBigRequestSize" (atol v * 1048576 - 1));
  ("-port", constantly true, fun v => set_int "xdm_udp_port" (u16 (atoi v))); ("-class", constantly true, fun v => set "defaultDisplayClass" (Str v));
  ("-cookie", constantly true, fun v => set "xdmAuthCookie" (Str v)); ("-displayID", constantly true, fun v => do (XdmcpRegisterManufacturerDisplayID v));
  ("-schedInterval", constantly true, fun v s => number "SmartScheduleSlice" v (number "SmartScheduleInterval" v s));
  ("-schedMax", constantly true, number "SmartScheduleMaxSlice");
  ("-render", fun v => negb (PictureParseCmapPolicy v =? -1), fun v => set_int "PictureCmapPolicy" (PictureParseCmapPolicy v));
  ("+extension", fun v => extension_known env v true, fun v => do (EnableDisableExtension v true));
  ("-extension", fun v => extension_known env v false, fun v => do (EnableDisableExtension v false))].

Definition lookup_flag (n : string) : option (Server -> Server) := snd <$> List.find (fun e => fst e === n) flags.
Definition lookup_value (n : string) : option ((string -> bool) * (string -> Server -> Server)) :=
  (fun e : string * (string -> bool) * (string -> Server -> Server) => let '(_, ok, f) := e in (ok, f)) <$> List.find (fun e => fst (fst e) === n) valued_options.

Definition wf_opt (o : opt) : bool :=
  match o with
  | Flag n => bool_decide (is_Some (lookup_flag n))
  | Value n v => match lookup_value n with Some (ok, _) => ok v | None => false end
  | Display d => VerifyDisplayName d
  end.

Definition effect (s : Server) (o : opt) : Server :=
  match o with
  | Flag n => from_option (fun f => f s) s (lookup_flag n)
  | Value n v => from_option (fun '(_, f) => f v s) s (lookup_value n)
  | Display d => set_true "explicit_display" (set "display" (Str d) s)
  end.

Definition render (o : opt) : list string := match o with Flag n => [n] | Value n v => [n; v] | Display d => [String ":" d] end.
End meaning.

Section rounds.
Context (env : Env) (argv : list string).

Lemma has_arg i v : rdz argv i = Some v -> (i <? Z.of_nat (length argv)) = true /\ (Z.of_nat (length argv) <=? i) = false /\ (i =? Z.of_nat (length argv)) = false.
Proof. intros H%rdz_Some_range. split_and!; [apply Z.ltb_lt|apply Z.leb_gt|apply Z.eqb_neq]; lia. Qed.

Lemma next_eq i j s : i = j -> Some (Next i s) = Some (Next j s).
Proof. by intros ->. Qed.

Lemma eqb_behind i k : 0 < k -> (i + k =? i) = false.
Proof. intros H. apply Z.eqb_neq. lia. Qed.

(** Evaluates a round whose option is known. *)
Ltac round Ha :=
  unfold argument, ddxProcessArgument; rewrite Ha; cbn -[Z.add]; unfold XkbProcessArguments; rewrite ?Ha; cbn -[Z.add];
  unfold middle_argument; cbn -[Z.add]; unfold XdmcpOptions; rewrite ?Ha; cbn -[Z.add]; unfold late_argument; cbn -[Z.add];
  rewrite ?Z.eqb_refl; cbn -[Z.add].

Ltac end_round := rewrite ?eqb_behind by lia; cbn -[Z.add]; apply next_eq; lia.

Definition flag_round (e : string * (Server -> Server)) : Prop :=
  forall i s, rdz argv i = Some (fst e) -> digit_at argv (i + 1) = Some false -> argument env argv i s = Some (Next (i + 1) (snd e s)).

Lemma flags_rounds : Forall flag_round (flags env).
Proof.
  unfold flags. repeat apply Forall_cons_2; [..|apply Forall_nil_2]; intros i s Ha Hd; cbn [fst snd] in *.
  all: round Ha; rewrite ?Hd; cbn -[Z.add]; try end_round.
  by destruct (getuid env =? 0).
Qed.

Definition value_round (e : string * (string -> bool) * (string -> Server -> Server)) : Prop :=
  let '(n, ok, f) := e in
  forall i v s, rdz argv i = Some n -> rdz argv (i + 1) = Some v -> ok v = true -> argument env argv i s = Some (Next (i + 2) (f v s)).

Lemma values_rounds : Forall value_round (valued_options env).
Proof.
  unfold valued_options. repeat apply Forall_cons_2; [..|apply Forall_nil_2]; intros i v s Ha Hv Hok; destruct (has_arg _ _ Hv) as (H1 & H2 & H3).
  all: round Ha; unfold valued, taking, digit_at, missing, toggle_extension; rewrite ?H1, ?H2, ?H3, ?Hv; cbn -[Z.add]; try end_round.
  all: rewrite ?Hok; cbn -[Z.add]; try end_round.
  - apply andb_true_iff in Hok as [Hlo%Z.leb_le Hhi%Z.leb_le].
    by rewrite (proj2 (Z.ltb_ge (u32 (atoi v)) 1)), (proj2 (Z.ltb_ge 600 (u32 (atoi v)))) by lia.
  - apply andb_true_iff in Hok as [Huid Hlen]. rewrite Huid, Hlen. cbn -[Z.add]. end_round.
  - unfold big_request. by rewrite Hok.
  - apply negb_true_iff in Hok. by rewrite Hok.
Qed.

Lemma display_round i d s :
  rdz argv i = Some (String ":" d) -> VerifyDisplayName d = true ->
  argument env argv i s = Some (Next (i + 1) (set_true "explicit_display" (set "display" (Str d) s))).
Proof. intros Ha Hok. unfold argument, ddxProcessArgument. rewrite Ha. cbn -[Z.add]. by rewrite Hok. Qed.

Lemma lookup_flag_round n f i s :
  lookup_flag env n = Some f -> rdz argv i = Some n -> digit_at argv (i + 1) = Some false -> argument env argv i s = Some (Next (i + 1) (f s)).
Proof.
  unfold lookup_flag. destruct (List.find _ _) as [[n' f']|] eqn:E; [|done]. intros [= ->].
  apply List.find_some in E as [Hin Hn%String.eqb_eq]. cbn in Hn. subst n'. apply list_elem_of_In in Hin.
  by apply (proj1 (Forall_forall _ _) flags_rounds _ Hin).
Qed.

Lemma lookup_value_round n ok f i v s :
  lookup_value env n = Some (ok, f) -> ok v = true -> rdz argv i = Some n -> rdz argv (i + 1) = Some v ->
  argument env argv i s = Some (Next (i + 2) (f v s)).
Proof.
  unfold lookup_value. destruct (List.find _ _) as [[[n' ok'] f']|] eqn:E; [|done]. intros [= -> ->] Hok Ha Hv.
  apply List.find_some in E as [Hin Hn%String.eqb_eq]. cbn in Hn. subst n'. apply list_elem_of_In in Hin.
  by apply (proj1 (Forall_forall _ _) values_rounds _ Hin).
Qed.

(** The round of a well-formed option. *)
Lemma opt_round o i s :
  wf_opt env o = true -> (forall k x, render o !! k = Some x -> rdz argv (i + Z.of_nat k) = Some x) ->
  digit_at argv (i + Z.of_nat (length (render o))) = Some false ->
  argument env argv i s = Some (Next (i + Z.of_nat (length (render o))) (effect env s o)).
Proof.
  intros Hwf Hr Hd. pose proof (Hr 0%nat) as H0. rewrite Z.add_0_r in H0. destruct o as [n|n v|d]; cbn [wf_opt render effect length] in *.
  - apply bool_decide_eq_true in Hwf as [f Hf]. rewrite Hf. by apply (lookup_flag_round n f i s Hf (H0 _ eq_refl)).
  - destruct (lookup_value env n) as [[ok f]|] eqn:E; [|done].
    by apply (lookup_value_round n ok f i v s E Hwf); [apply H0|apply (Hr 1%nat)].
  - by apply display_round; [apply H0|].
Qed.
End rounds.

(** The name of an option does not start with a digit. *)
Lemma name_no_digit env o : wf_opt env o = true -> exists n l, render o = n :: l /\ isdigit (first n) = false.
Proof.
  assert (Forall (fun e => isdigit (first (fst e)) = false) (flags env)) as Hf by by repeat constructor.
  assert (Forall (fun e => isdigit (first (fst (fst e))) = false) (valued_options env)) as Hv by by repeat constructor.
  destruct o as [n|n v|d]; cbn [wf_opt render]; [|unfold lookup_value|by do 2 eexists].
  - intros [f Hl]%bool_decide_eq_true. unfold lookup_flag in Hl. destruct (List.find _ _) as [[n' f']|] eqn:E; [|done].
    apply List.find_some in E as [Hin Hn%String.eqb_eq]. cbn in Hn. subst n'. apply list_elem_of_In in Hin.
    do 2 eexists. split; [done|]. exact (proj1 (Forall_forall _ _) Hf _ Hin).
  - destruct (List.find _ _) as [[[n' ok] f]|] eqn:E; [|done]. intros _.
    apply List.find_some in E as [Hin Hn%String.eqb_eq]. cbn in Hn. subst n'. apply list_elem_of_In in Hin.
    do 2 eexists. split; [done|]. exact (proj1 (Forall_forall _ _) Hv _ Hin).
Qed.

Definition command (opts : list opt) : list string := mjoin (render <$> opts).

Lemma rdz_middle {A} (l l1 l2 : list A) k x : l1 !! k = Some x -> rdz (l ++ l1 ++ l2) (Z.of_nat (length l) + Z.of_nat k) = Some x.
Proof.
  intros H. rewrite <- Nat2Z.inj_add, rdz_nat, lookup_app_r by lia. replace (length l + k - length l)%nat with k by lia.
  by apply lookup_app_l_Some.
Qed.

(** Behind the words of an option there is no argument with a digit in front. *)
Lemma no_digit_behind env l opts :
  forallb (wf_opt env) opts = true -> digit_at (l ++ command opts) (Z.of_nat (length l)) = Some false.
Proof.
  intros Hwf. unfold digit_at. destruct opts as [|o opts].
  - cbn. by rewrite app_nil_r, Z.ltb_irrefl.
  - cbn [forallb] in Hwf. apply andb_true_iff in Hwf as [Ho _]. destruct (name_no_digit env o Ho) as (n & w & Hr & Hn).
    unfold command. cbn [fmap list_fmap mjoin list_join]. rewrite Hr, <- (Z.add_0_r (Z.of_nat (length l))).
    rewrite (rdz_middle l _ _ 0%nat n) by done. cbn [mbind option_bind]. rewrite Hn. by destruct (_ <? _).
Qed.

Lemma arguments_command env opts l fuel s :
  forallb (wf_opt env) opts = true -> (length (command opts) <= fuel)%nat ->
  arguments env (l ++ command opts) fuel (Z.of_nat (length l)) s = Some (Done (foldl (effect env) s opts)).
Proof.
  revert l fuel s. induction opts as [|o opts IH]; intros l fuel s Hwf Hfuel.
  - unfold command. cbn [fmap list_fmap mjoin list_join foldl]. rewrite app_nil_r.
    destruct fuel; cbn [arguments]; by rewrite (proj2 (Z.leb_le (Z.of_nat (length l)) _)) by done.
  - pose proof Hwf as Hwf'. cbn [forallb] in Hwf'. apply andb_true_iff in Hwf' as [Ho Hopts].
    destruct (name_no_digit env o Ho) as (n & w & Hr & _).
    change (command (o :: opts)) with (render o ++ command opts) in *. rewrite length_app in Hfuel.
    destruct fuel as [|fuel]; [rewrite Hr in Hfuel; cbn in Hfuel; lia|].
    cbn [arguments foldl]. rewrite (proj2 (Z.leb_gt _ (Z.of_nat (length l)))) by (rewrite !length_app, Hr; cbn [length]; lia).
    rewrite (opt_round env _ o); [|done|by intros; apply rdz_middle|].
    + cbn [mbind option_bind]. rewrite <- Nat2Z.inj_add, <- length_app, (assoc_L (++)). apply IH; [done|]. rewrite Hr in Hfuel. cbn in Hfuel. lia.
    + rewrite <- Nat2Z.inj_add, <- length_app, (assoc_L (++)). by apply (no_digit_behind env).
Qed.

(** C29: a command line made of options that the server knows, with values that they accept,
    has the effects of these options one after the other: no option takes a word of the next
    one (an option with an optional number included), none is shadowed by an earlier test of
    the chain or by the tests of a prefix, and a value may look like an option. *)
Theorem ProcessCommandLine_effects (env : Env) (program : string) (opts : list opt) (s : Server) :
  forallb (wf_opt env) opts = true ->
  ProcessCommandLine env (program :: command opts) s = Some (Done (foldl (effect env) (initial s) opts)).
Proof. intros Hwf. apply (arguments_command env opts [program]); [done|]. cbn [length]. lia. Qed.

(** ** The names of displays *)

Fixpoint all_digits (d : string) : bool := match d with EmptyString => true | String c d => isdigit c && all_digits d end.

Lemma append_cons c n d : (String c n ++ d)%string = String c (n ++ d).
Proof. done. Qed.

Lemma append_nil n : (n ++ "")%string = n.
Proof. induction n as [|c n IH]; [done|]. by rewrite append_cons, IH. Qed.

Lemma loop_behind_dot d n :
  0 <= n <= 2 ->
  display_loop d true n = if all_digits d && (n + Z.of_nat (String.length d) <=? 2) then Some (true, n + Z.of_nat (String.length d)) else None.
Proof.
  revert n. induction d as [|c d IH]; intros n Hn.
  - cbn -[Z.add]. rewrite Z.add_0_r. by rewrite (proj2 (Z.leb_le n 2)) by lia.
  - cbn [display_loop all_digits String.length]. rewrite orb_true_r. destruct (isdigit c); cbn [negb andb]; [|done].
    destruct (Z.ltb_spec 2 (n + 1)); [|rewrite IH by lia].
    + rewrite (proj2 (Z.leb_gt _ 2)) by lia. by destruct (all_digits d).
    + by replace (n + 1 + Z.of_nat (String.length d)) with (n + Z.of_nat (S (String.length d))) by lia.
Qed.

Lemma loop_digits n d : all_digits n = true -> display_loop (n ++ d) false 0 = display_loop d false 0.
Proof. induction n as [|c n IH]; [done|]. rewrite append_cons. cbn [all_digits display_loop]. intros [-> Hn]%andb_true_iff. by apply IH. Qed.

Lemma loop_dot d : display_loop (String "." d) false 0 = display_loop d true 0.
Proof. done. Qed.

(** What is in front of the first character that is no digit. *)
Lemma split_digits d :
  exists n t, d = (n ++ t)%string /\ all_digits n = true /\ (t = EmptyString \/ exists c t', t = String c t' /\ isdigit c = false).
Proof.
  induction d as [|c d (n & t & -> & Hn & Ht)]; [exists EmptyString, EmptyString; auto|].
  destruct (isdigit c) eqn:Hc; [|exists EmptyString, (String c (n ++ t)); split_and!; eauto].
  exists (String c n), t. rewrite append_cons. cbn [all_digits]. by rewrite Hc, Hn.
Qed.

Lemma digit_decimal c : isdigit c = true -> digit 10 c = Some (code c - 48).
Proof. intros H. unfold digit. rewrite H. apply andb_true_iff in H as [H1%Z.leb_le H2%Z.leb_le]. by rewrite (proj2 (Z.ltb_lt _ 10)) by lia. Qed.

Lemma digits_dot n t acc : all_digits n = true -> (t = EmptyString \/ exists t', t = String "." t') -> digits 10 acc (n ++ t) = digits 10 acc n.
Proof.
  intros Hn Ht. revert acc Hn. induction n as [|c n IH]; intros acc Hn; [by destruct Ht as [->|[t' ->]]|].
  rewrite append_cons. cbn [digits all_digits] in *.
  apply andb_true_iff in Hn as [Hc Hn]. rewrite (digit_decimal c Hc). by apply IH.
Qed.

Lemma digits_nonneg n acc : 0 <= acc -> all_digits n = true -> 0 <= digits 10 acc n.
Proof.
  revert acc. induction n as [|c n IH]; intros acc Ha Hn; cbn [digits all_digits] in *; [done|]. apply andb_true_iff in Hn as [Hc Hn].
  rewrite (digit_decimal c Hc). apply andb_true_iff in Hc as [H1%Z.leb_le _]. apply IH; [nia|done].
Qed.

Lemma atol_digits c d : isdigit c = true -> atol (String c d) = clamp (- 2 ^ 63) (2 ^ 63 - 1) (digits 10 0 (String c d)).
Proof.
  intros Hc. unfold atol, strtol. assert (skip_space (String c d) = String c d) as ->.
  { cbn. unfold isspace. apply andb_true_iff in Hc as [H1%Z.leb_le H2%Z.leb_le].
    rewrite (proj2 (Z.eqb_neq _ 32)), (proj2 (Z.leb_gt (code c) 13)) by lia. by rewrite andb_false_r. }
  assert (sign (String c d) = (false, String c d)) as -> by by destruct c as [[] [] [] [] [] [] [] []].
  assert (hex_prefix 10 (String c d) = String c d) as ->; [|done].
  destruct c as [[] [] [] [] [] [] [] []]; try done. by destruct d as [|? []].
Qed.

Lemma atol_name n t :
  n <> EmptyString -> all_digits n = true -> (t = EmptyString \/ exists t', t = String "." t') ->
  (atol (n ++ t) <=? 2 ^ 31 - 1) = (digits 10 0 n <=? 2 ^ 31 - 1).
Proof.
  intros He Hn Ht. rewrite <- (digits_dot n t 0 Hn Ht). destruct n as [|c n]; [done|]. rewrite append_cons.
  assert (isdigit c = true) as Hc by by apply andb_true_iff in Hn as [? _]. rewrite (atol_digits c _ Hc).
  assert (0 <= digits 10 0 (String c (n ++ t))).
  { rewrite <- append_cons, digits_dot by done. by apply digits_nonneg. }
  unfold clamp. apply Bool.eq_iff_eq_true. rewrite !Z.leb_le. lia.
Qed.

Lemma strchr_digits n d : all_digits n = true -> strchr (n ++ d) "/" = strchr d "/".
Proof.
  induction n as [|c n IH]; [done|]. rewrite append_cons. cbn [all_digits strchr]. intros [Hc Hn]%andb_true_iff. rewrite IH by done.
  by destruct (Ascii.eqb_spec c "/") as [->|].
Qed.

(** The names [N], [N.D] and [N.DD] with decimal digits and [N] in the range of [int]. *)
Definition display_name (d : string) : Prop :=
  exists n t, d = (n ++ t)%string /\ n <> EmptyString /\ all_digits n = true /\ digits 10 0 n <= 2 ^ 31 - 1 /\
    (t = EmptyString \/ exists b, t = String "." b /\ all_digits b = true /\ (1 <= String.length b <= 2)%nat).

Lemma name_head n t : n <> EmptyString -> all_digits n = true ->
  Ascii.eqb (first (n ++ t)) zero || Ascii.eqb (first (n ++ t)) "-" || Ascii.eqb (first (n ++ t)) "." = false.
Proof.
  destruct n as [|c n]; [done|]. intros _ [Hc _]%andb_true_iff. rewrite append_cons. cbn [first].
  destruct (Ascii.eqb_spec c zero) as [->|]; [done|]. destruct (Ascii.eqb_spec c "-") as [->|]; [done|].
  by destruct (Ascii.eqb_spec c ".") as [->|].
Qed.

Lemma VerifyDisplayName_number n : n <> EmptyString -> all_digits n = true -> VerifyDisplayName n = (digits 10 0 n <=? 2 ^ 31 - 1).
Proof.
  intros He Hn. unfold VerifyDisplayName. pose proof (append_nil n) as En.
  pose proof (name_head n "" He Hn) as Hh. pose proof (strchr_digits n "" Hn) as Hs. pose proof (loop_digits n "" Hn) as Hl.
  pose proof (atol_name n "" He Hn (or_introl eq_refl)) as Ha. rewrite En in *. rewrite Hh, Hs, Hl. cbn. by rewrite Ha.
Qed.

Lemma VerifyDisplayName_dot n b :
  n <> EmptyString -> all_digits n = true ->
  VerifyDisplayName (n ++ String "." b) = all_digits b && (1 <=? Z.of_nat (String.length b)) && (Z.of_nat (String.length b) <=? 2) && (digits 10 0 n <=? 2 ^ 31 - 1).
Proof.
  intros He Hn. unfold VerifyDisplayName. rewrite (name_head n _ He Hn), (strchr_digits n _ Hn), (loop_digits n _ Hn), loop_dot, loop_behind_dot by lia.
  rewrite (atol_name n _ He Hn) by eauto. rewrite Z.add_0_l. cbn [strchr orb]. change (Ascii.eqb "." "/") with false. cbn [orb].
  destruct (all_digits b) eqn:Hb; [|by destruct (strchr b "/")]. replace (strchr b "/") with false; cycle 1.
  { symmetry. by rewrite <- (append_nil b), (strchr_digits b "" Hb). }
  destruct (Z.of_nat (String.length b) <=? 2) eqn:H2; cbn [andb]; [|by rewrite andb_false_r].
  destruct (Z.eqb_spec (Z.of_nat (String.length b)) 0) as [->|]; [done|]. by rewrite (proj2 (Z.leb_le 1 _)) by lia.
Qed.

Lemma VerifyDisplayName_other n c t : all_digits n = true -> isdigit c = false -> c <> "."%char -> VerifyDisplayName (n ++ String c t) = false.
Proof.
  intros Hn Hc Hne. unfold VerifyDisplayName. rewrite (loop_digits n _ Hn). cbn [display_loop]. rewrite Hc. cbn [negb].
  apply Ascii.eqb_neq in Hne. rewrite Hne. cbn [negb orb]. by destruct (_ || _).
Qed.

Lemma VerifyDisplayName_head c t : isdigit c = false -> VerifyDisplayName (String c t) = false.
Proof.
  intros Hc. destruct (Ascii.eqb_spec c ".") as [->|Hne]; [done|]. by apply (VerifyDisplayName_other "").
Qed.

Lemma VerifyDisplayName_accepts d : VerifyDisplayName d = true -> display_name d.
Proof.
  intros H. destruct (split_digits d) as (n & t & -> & Hn & Ht).
  assert (n <> EmptyString) as He.
  { intros ->. destruct Ht as [->|(c & t' & -> & Hc)]; [done|]. change (VerifyDisplayName (String c t') = true) in H. by rewrite VerifyDisplayName_head in H. }
  exists n, t. destruct Ht as [->|(c & t' & -> & Hc)].
  - pose proof (append_nil n) as En.
    rewrite En, (VerifyDisplayName_number n He Hn) in H. apply Z.leb_le in H. by eauto 10.
  - destruct (Ascii.eqb_spec c ".") as [->|Hne].
    + rewrite VerifyDisplayName_dot in H by done. apply andb_true_iff in H as [[[Hb H1%Z.leb_le]%andb_true_iff H2%Z.leb_le]%andb_true_iff H%Z.leb_le].
      split_and!; [done..|]. right. exists t'. split_and!; [done..|lia|lia].
    + by rewrite VerifyDisplayName_other in H.
Qed.

Lemma VerifyDisplayName_takes d : display_name d -> VerifyDisplayName d = true.
Proof.
  intros (n & t & -> & He & Hn & Hmax & Ht). apply Z.leb_le in Hmax. destruct Ht as [->|(b & -> & Hb & Hlen)].
  - rewrite append_nil. by rewrite VerifyDisplayName_number.
  - rewrite VerifyDisplayName_dot by done. by rewrite Hb, Hmax, (proj2 (Z.leb_le 1 _)), (proj2 (Z.leb_le _ 2)) by lia.
Qed.

(** [VerifyDisplayName] accepts exactly the decimal numbers in the range of [int], alone
    or followed by a period and one or two digits; in particular the name, which becomes part
    of the names of files, holds no slash and is neither ["."] nor [".."]. *)
Theorem VerifyDisplayName_spec (d : string) : VerifyDisplayName d = true <-> display_name d.
Proof. split; [apply VerifyDisplayName_accepts|apply VerifyDisplayName_takes]. Qed.

(** ** Examples *)

Definition no_server : Server := {| vars := ∅; calls := [] |}.

Definition plain_env : Env := {|
  getuid := 10001; geteuid := 10001; xfont2_parse_glyph_caching_mode := fun v => v === "none"; extension_known := fun _ _ => true;
  host_known := fun _ _ _ => true; multicast_address := fun _ _ => true |}.

Definition some_options : list opt :=
  [Display "0"; Flag "-ac"; Value "-dpi" "120"; Flag "-terminate"; Value "-terminate" "30"; Value "-listen" "-ac"; Value "-xstartup" "xfce4-session"].

Definition ints (names : list string) (o : option outcome) : option (list (option value) * nat) :=
  match o with Some (Done s) => Some ((fun x => vars s !! x) <$> names, length (calls s)) | _ => None end.

Example ProcessCommandLine_effects_witness :
  ProcessCommandLine plain_env ("termux-x11" :: command some_options) no_server
  = Some (Done (foldl (effect plain_env) (initial no_server) some_options)).
Proof. by apply ProcessCommandLine_effects. Defined.

Example some_options_run :
  ints ["display"; "monitorResolution"; "terminateDelay"; "xstartup"] (ProcessCommandLine plain_env ("termux-x11" :: command some_options) no_server)
  = Some ([Some (Str "0"); Some (Int 120); Some (Int 30); Some (Str "xfce4-session")], 2%nat).
Proof. by vm_compute. Qed.

(** [-multicast] is the one option that takes a word too many: [XdmcpOptions] returns an
    index behind the one that [get_mcast_options] found, and the argument there is lost. *)
Example multicast_loses_an_argument :
  ints ["XDM_INIT_STATE"; "defeatAccessControl"] (ProcessCommandLine plain_env ["X"; "-multicast"; "-ac"] no_server)
  = Some ([Some (Str "XDM_MULTICAST"); None], 3%nat).
Proof. by vm_compute. Qed.

(** The tests of the keyboard options look at a prefix. *)
Example prefixes_of_keyboard_options :
  ints ["XkbWantAccessX"; "XkbBaseDirectory"] (ProcessCommandLine plain_env ["X"; "-accessxyz"; "-xkbdirectory"; "/usr/share/X11/xkb"] no_server)
  = Some ([Some (Int 0); Some (Str "/usr/share/X11/xkb")], 1%nat).
Proof. by vm_compute. Qed.

(** A number of thousands wraps around. *)
Example limit_wraps : ints ["limitDataSpace"] (ProcessCommandLine plain_env ["X"; "-ld"; "4194304"] no_server) = Some ([Some (Int 0)], 1%nat).
Proof. by vm_compute. Qed.

(** An option with a missing value prints the usage text and the server starts all the same;
    [-background] does not even print it; [-xstartup] and the options of XDMCP end the
    server. *)
Example missing_values :
  ints [] (ProcessCommandLine plain_env ["X"; "-dpi"] no_server) = Some ([], 2%nat) /\
  ints [] (ProcessCommandLine plain_env ["X"; "-background"] no_server) = Some ([], 1%nat) /\
  ints [] (ProcessCommandLine plain_env ["X"; "-xstartup"] no_server) = None /\ ints [] (ProcessCommandLine plain_env ["X"; "-query"] no_server) = None.
Proof. by vm_compute. Qed.
