(* ===== verification/StartUp.v ===== *)
(** * The start of the server

    [Java_com_termux_x11_CmdEntryPoint_start] of [lorie/cmdentrypoint.c], which prepares the
    environment; [OsVendorInit], the test picture, the command that is started with the
    server, and [lorieScreenInit] of [lorie/InitOutput.c]; the test of the capabilities of
    [lorie/renderer.c]. *)

From Stdlib Require Import String Ascii.
From S2P Require Import Prelude CommandLine.

#[local] Open Scope string_scope.
#[local] Open Scope Z_scope.

(** ** The environment *)

(** [dirname] of bionic, on the reversed path: the loops stop at the first character. *)
Fixpoint back_while (p : ascii -> bool) (r : list ascii) : list ascii :=
  match r with
  | [] => []
  | c :: r' => match r' with [] => r | _ => if p c then back_while p r' else r end
  end.

Definition slash (c : ascii) : bool := Ascii.eqb c "/".

Definition dirname (path : string) : string :=
  match path with
  | EmptyString => "."
  | _ =>
      let r := back_while slash (rev (list_ascii_of_string path)) in
      match back_while (fun c => negb (slash c)) r with
      | [] => "."
      | [c] => if slash c then "/" else "."
      | _ :: r => string_of_list_ascii (rev (back_while slash r))
      end
  end.

(** [snprintf] into a buffer of [n] bytes. *)
Definition truncated (n : nat) (s : string) : string := String.substring 0 (n - 1) s.

Abbreviation environment := (gmap string string).

(** What the file system answers. *)
Record Files := { access : string -> bool; getcwd : option string; detectTracer : bool }.

Record Start := {
  environ : environment; cwd : option string; xtrans_unix_path_x11 : string; xtrans_unix_dir_x11 : string;
  defaultFontPath : option string; XkbBaseDirectory : option string; running : bool;
}.

Definition setenv (x v : string) (s : Start) : Start :=
  {| environ := <[x := v]> (environ s); cwd := cwd s; xtrans_unix_path_x11 := xtrans_unix_path_x11 s;
     xtrans_unix_dir_x11 := xtrans_unix_dir_x11 s; defaultFontPath := defaultFontPath s; XkbBaseDirectory := XkbBaseDirectory s; running := running s |}.
Definition unsetenv (x : string) (s : Start) : Start :=
  {| environ := delete x (environ s); cwd := cwd s; xtrans_unix_path_x11 := xtrans_unix_path_x11 s;
     xtrans_unix_dir_x11 := xtrans_unix_dir_x11 s; defaultFontPath := defaultFontPath s; XkbBaseDirectory := XkbBaseDirectory s; running := running s |}.
Definition getenv (x : string) (s : Start) : option string := environ s !! x.
Definition unset (x : string) (s : Start) : bool := bool_decide (getenv x s = None).

Definition termux_exec : string := "/data/data/com.termux/files/usr/lib/libtermux-exec.so".
Definition termux_tmp : string := "/data/data/com.termux/files/usr/tmp".
Definition termux_xkb : string := "/data/data/com.termux/files/usr/share/X11/xkb".
Definition system_xkb : string := "/usr/share/X11/xkb".

Section start.
Context (f : Files).

Definition set_preload (s : Start) : Start :=
  if access f termux_exec && negb (detectTracer f) && unset "XSTARTUP_LD_PRELOAD" s then setenv "LD_PRELOAD" termux_exec s else s.

Definition choose_tmpdir (s : Start) : Start :=
  let s := if bool_decide (getenv "TMPDIR" s = Some "/data/local/tmp") then unsetenv "TMPDIR" s else s in
  if unset "TMPDIR" s then
    if access f "/tmp" then setenv "TMPDIR" "/tmp" s
    else if access f termux_tmp then setenv "TMPDIR" termux_tmp s else s
  else s.

Definition enter_tmpdir (tmp : string) (s : Start) : Start :=
  {| environ := environ s; cwd := if from_option (fun d => negb (access f d)) true (getcwd f) then Some tmp else cwd s;
     xtrans_unix_path_x11 := tmp ++ "/.X11-unix/X"; xtrans_unix_dir_x11 := tmp ++ "/.X11-unix/";
     defaultFontPath := defaultFontPath s; XkbBaseDirectory := XkbBaseDirectory s; running := running s |}.

Definition font_dirs : list string := ["/etc/X11/fonts"; "/usr/share/fonts/X11"; "/share/fonts"].

Definition font_path (d : string) : string :=
  truncated 4096 (d ++ "/misc," ++ d ++ "/TTF," ++ d ++ "/OTF," ++ d ++ "/Type1," ++ d ++ "/100dpi," ++ d ++ "/75dpi").

Definition choose_fonts (root_dir : string) (s : Start) : Start :=
  match List.find (access f) ((fun p => truncated 1024 (root_dir ++ p)) <$> font_dirs) with
  | Some d => {| environ := environ s; cwd := cwd s; xtrans_unix_path_x11 := xtrans_unix_path_x11 s; xtrans_unix_dir_x11 := xtrans_unix_dir_x11 s;
                 defaultFontPath := Some (font_path d); XkbBaseDirectory := XkbBaseDirectory s; running := running s |}
  | None => s
  end.

Definition choose_xkb (root_dir : string) (s : Start) : Start :=
  let s :=
    if unset "XKB_CONFIG_ROOT" s then
      let current_path := truncated 1024 (root_dir ++ system_xkb) in
      if access f current_path then setenv "XKB_CONFIG_ROOT" current_path s else s
    else s in
  if unset "XKB_CONFIG_ROOT" s then
    if access f system_xkb then setenv "XKB_CONFIG_ROOT" system_xkb s
    else if access f termux_xkb then setenv "XKB_CONFIG_ROOT" termux_xkb s else s
  else s.

(** The result is what the Java side gets; [running]: the thread of the server is started. *)
Definition Java_com_termux_x11_CmdEntryPoint_start (s : Start) : bool * Start :=
  let s := choose_tmpdir (set_preload s) in
  match getenv "TMPDIR" s with
  | None => (false, s)
  | Some tmp =>
      let s := choose_xkb (dirname tmp) (choose_fonts (dirname tmp) (enter_tmpdir tmp s)) in
      match getenv "XKB_CONFIG_ROOT" s with
      | None => (false, s)
      | Some xkb =>
          let s := {| environ := environ s; cwd := cwd s; xtrans_unix_path_x11 := xtrans_unix_path_x11 s; xtrans_unix_dir_x11 := xtrans_unix_dir_x11 s;
                      defaultFontPath := defaultFontPath s; XkbBaseDirectory := Some xkb; running := running s |} in
          if access f xkb then
            (true, {| environ := environ s; cwd := cwd s; xtrans_unix_path_x11 := xtrans_unix_path_x11 s; xtrans_unix_dir_x11 := xtrans_unix_dir_x11 s;
                      defaultFontPath := defaultFontPath s; XkbBaseDirectory := XkbBaseDirectory s; running := true |})
          else (false, s)
      end
  end.

(** ** What the start needs *)

Fixpoint first_some {A} (l : list (option A)) : option A := match l with [] => None | Some x :: _ => Some x | None :: l => first_some l end.
Definition if_there (p : string) : option string := if access f p then Some p else None.

(** The directories in the order in which they are taken. *)
Definition tmpdir (e : environment) : option string :=
  first_some [(if bool_decide (e !! "TMPDIR" = Some "/data/local/tmp") then None else e !! "TMPDIR"); if_there "/tmp"; if_there termux_tmp].
Definition xkb_root (e : environment) (tmp : string) : option string :=
  first_some [e !! "XKB_CONFIG_ROOT"; if_there (truncated 1024 (dirname tmp ++ system_xkb)); if_there system_xkb; if_there termux_xkb].

Lemma unset_spec x s : unset x s = match environ s !! x with None => true | _ => false end.
Proof. unfold unset, getenv. case_bool_decide as H; destruct (environ s !! x); done. Qed.

Lemma set_preload_keeps x s : x <> "LD_PRELOAD" -> environ (set_preload s) !! x = environ s !! x.
Proof. intros H. unfold set_preload. destruct (_ && _ && _); [|done]. cbn [environ setenv]. by rewrite lookup_insert_ne. Qed.

Lemma choose_tmpdir_spec s :
  environ (choose_tmpdir s) !! "TMPDIR" = tmpdir (environ s) /\
  forall x, x <> "TMPDIR" -> environ (choose_tmpdir s) !! x = environ s !! x.
Proof.
  unfold choose_tmpdir, tmpdir, getenv, if_there. rewrite unset_spec. case_bool_decide as H; cbn [environ unsetenv first_some].
  - rewrite lookup_delete_eq. destruct (access f "/tmp"); [|destruct (access f termux_tmp)]; cbn [environ setenv unsetenv first_some].
    1-2: split; [by rewrite lookup_insert_eq|intros x Hx; by rewrite lookup_insert_ne, lookup_delete_ne].
    split; [by rewrite lookup_delete_eq|intros x Hx; by rewrite lookup_delete_ne].
  - destruct (environ s !! "TMPDIR") as [t|] eqn:E; [by rewrite E|].
    destruct (access f "/tmp"); [|destruct (access f termux_tmp)]; cbn [environ setenv first_some]; [..|by rewrite E].
    1-2: split; [by rewrite lookup_insert_eq|intros x Hx; by rewrite lookup_insert_ne].
Qed.

Lemma choose_fonts_keeps d s :
  environ (choose_fonts d s) = environ s /\ xtrans_unix_path_x11 (choose_fonts d s) = xtrans_unix_path_x11 s /\
  running (choose_fonts d s) = running s.
Proof. unfold choose_fonts. by destruct (List.find _ _). Qed.

Lemma choose_xkb_spec tmp s :
  environ (choose_xkb (dirname tmp) s) !! "XKB_CONFIG_ROOT" = xkb_root (environ s) tmp /\
  (forall x, x <> "XKB_CONFIG_ROOT" -> environ (choose_xkb (dirname tmp) s) !! x = environ s !! x) /\
  xtrans_unix_path_x11 (choose_xkb (dirname tmp) s) = xtrans_unix_path_x11 s /\ running (choose_xkb (dirname tmp) s) = running s.
Proof.
  unfold choose_xkb, xkb_root, if_there. set (p := truncated _ _). rewrite !unset_spec.
  destruct (environ s !! "XKB_CONFIG_ROOT") as [r|] eqn:E; cbn [first_some]; [rewrite E; by rewrite E|].
  destruct (access f p); cbn [environ setenv first_some].
  - rewrite lookup_insert_eq. cbn. split_and!; [by rewrite lookup_insert_eq| |done..]. intros x Hx. by rewrite lookup_insert_ne.
  - rewrite E. destruct (access f system_xkb); [|destruct (access f termux_xkb)]; cbn [environ setenv first_some]; [..|by rewrite E].
    1-2: split_and!; [by rewrite lookup_insert_eq| |done..]; intros x Hx; by rewrite lookup_insert_ne.
Qed.
End start.

(** The start succeeds, and the thread of the server runs, exactly when a directory for
    temporary files and a readable one for the keyboard are found, in the order of their
    lists; the server then works in these: both are in the environment, the sockets are below
    the first, and nothing else in the environment changes but [LD_PRELOAD]. *)
Theorem start_environment (f : Files) (s s' : Start) (ok : bool) :
  running s = false -> Java_com_termux_x11_CmdEntryPoint_start f s = (ok, s') ->
  running s' = ok /\
  (ok = true <-> exists tmp xkb, tmpdir f (environ s) = Some tmp /\ xkb_root f (environ s) tmp = Some xkb /\ access f xkb = true) /\
  (ok = true -> exists tmp xkb, tmpdir f (environ s) = Some tmp /\ xkb_root f (environ s) tmp = Some xkb /\
     environ s' !! "TMPDIR" = Some tmp /\ environ s' !! "XKB_CONFIG_ROOT" = Some xkb /\ XkbBaseDirectory s' = Some xkb /\
     xtrans_unix_path_x11 s' = (tmp ++ "/.X11-unix/X")%string) /\
  (forall x, x <> "TMPDIR" -> x <> "XKB_CONFIG_ROOT" -> x <> "LD_PRELOAD" -> environ s' !! x = environ s !! x).
Proof.
  intros Hr. unfold Java_com_termux_x11_CmdEntryPoint_start. set (s1 := choose_tmpdir f (set_preload f s)).
  assert (environ s1 !! "TMPDIR" = tmpdir f (environ s) /\ running s1 = false /\
    forall x, x <> "TMPDIR" -> x <> "LD_PRELOAD" -> environ s1 !! x = environ s !! x) as (Ht & Hr1 & Hs1).
  { destruct (choose_tmpdir_spec f (set_preload f s)) as [E K]. unfold s1. split; [|split].
    - rewrite E. unfold tmpdir. by rewrite (set_preload_keeps f "TMPDIR").
    - unfold choose_tmpdir, set_preload. by repeat case_match.
    - intros x H1 H2. rewrite K by done. by apply set_preload_keeps. }
  unfold getenv. destruct (environ s1 !! "TMPDIR") as [tmp|] eqn:Etmp; cycle 1.
  { intros [= <- <-]. split_and!; [done|split; [done|]|done|auto]. intros (tmp & xkb & ? & _). congruence. }
  set (s2 := choose_fonts f (dirname tmp) (enter_tmpdir f tmp s1)).
  destruct (choose_fonts_keeps f (dirname tmp) (enter_tmpdir f tmp s1)) as (F1 & F2 & F3). fold s2 in F1, F2, F3.
  destruct (choose_xkb_spec f tmp s2) as (X1 & X2 & X3 & X4).
  assert (xkb_root f (environ s2) tmp = xkb_root f (environ s) tmp) as Hx.
  { unfold xkb_root. rewrite F1. cbn. by rewrite Hs1. }
  rewrite Hx in X1. rewrite X1. symmetry in Ht.
  assert (forall x, x <> "TMPDIR" -> x <> "XKB_CONFIG_ROOT" -> x <> "LD_PRELOAD" -> environ (choose_xkb f (dirname tmp) s2) !! x = environ s !! x) as Ho.
  { intros x H1 H2 H3. rewrite X2, F1 by done. by apply Hs1. }
  destruct (xkb_root f (environ s) tmp) as [xkb|] eqn:Ex; cycle 1.
  { intros [= <- <-]. split_and!; [by rewrite X4, F3|split; [done|]|done|done]. intros (t & x & E1 & E2 & _). congruence. }
  destruct (access f xkb) eqn:Ea; intros [= <- <-]; cbn [environ running XkbBaseDirectory xtrans_unix_path_x11].
  - split_and!; [done|split; eauto 6| |done]. intros _. exists tmp, xkb. rewrite X1, X3, X2, F1, F2 by done. cbn [environ enter_tmpdir xtrans_unix_path_x11]. by rewrite Etmp.
  - split_and!; [by rewrite X4, F3|split; [done|]|done|done]. intros (t & x & E1 & E2 & E3). congruence.
Qed.

(** ** The command that is started with the server *)

(** [sprintf] into a buffer of [n] bytes, [None] for an overflow. *)
Definition sprintf (n : nat) (s : string) : option string := if decide (String.length s < n)%nat then Some s else None.

Definition empty (s : option string) : bool := match s with None | Some EmptyString => true | _ => false end.

(** What [ddxReady] starts: [xstartup] is the option, [NoListenAll] another one. *)
Definition ddxReady (NoListenAll : bool) (xstartup : option string) (e : environment) : option string :=
  if NoListenAll then None
  else if bool_decide (xstartup = Some "") then None
  else
    let xstartup := if empty xstartup then e !! "TERMUX_X11_XSTARTUP" else xstartup in
    if empty xstartup then None else xstartup.

Definition INHERIT_VAR (v : string) (e : environment) : environment :=
  let w := ("XSTARTUP_" ++ v)%string in
  let val := e !! w in
  delete w (if empty val then e else match val with Some x => <[v := x]> e | None => e end).

(** The environment of the child, with the name of the display. *)
Definition child_environment (display : string) (e : environment) : option environment :=
  d ← sprintf 16 (":" ++ display);
  Some (INHERIT_VAR "LD_PRELOAD" (INHERIT_VAR "LD_LIBRARY_PATH" (INHERIT_VAR "CLASSPATH" (<["DISPLAY" := d]> e)))).

Inductive wait_status := Exited (code : Z) | Signaled (sig : Z) | Stopped | Continued.

Definition SIGINT : Z := 2.
Definition SIGKILL : Z := 9.

(** The parent waits; [answers] are those of [waitpid], with [None] for a failure, which
    leaves [status] as it is, undefined at first. The result are the calls of [GiveUp]; [None]
    when an undefined status is read, [Some (l, false)] when the wait goes on. *)
Fixpoint wait_child (status : option wait_status) (answers : list (option wait_status)) : option (list Z * bool) :=
  match answers with
  | [] => Some ([], false)
  | a :: answers =>
      let status := match a with Some s => Some s | None => status end in
      let failed := match a with None => [SIGKILL] | _ => [] end in
      s ← status;
      '((l, ended) : list Z * bool) ←
        match s with Exited _ | Signaled _ => Some ([SIGINT], true) | _ => wait_child (Some s) answers end;
      Some ((failed ++ l)%list, ended)
  end.

(** Only a child that ends, ends the server, with [SIGINT]. *)
Lemma wait_child_ends answers s0 :
  Forall is_Some answers ->
  exists ended, wait_child s0 answers = Some (if ended : bool then [SIGINT] else [], ended) /\
    (ended = true <-> Exists (fun a => match a with Some (Exited _ | Signaled _) => True | _ => False end) answers).
Proof.
  intros H. revert s0. induction H as [|a l [s ->] H IH]; intros s0.
  - exists false. split; [done|]. rewrite Exists_nil. by split.
  - destruct (IH (Some s)) as (b & E & Hb). cbn [wait_child mbind option_bind].
    destruct s; [exists true|exists true|exists b|exists b]; rewrite ?E; cbn [mbind option_bind app]; (split; [by destruct b|]); rewrite Exists_cons; tauto.
Qed.

(** A name without leading zeros. *)
Definition canonical (d : string) : bool := match d with String "0" (String c _) => negb (isdigit c) | _ => true end.

Lemma digits_grow n acc : 0 <= acc -> all_digits n = true -> acc * 10 ^ Z.of_nat (String.length n) <= digits 10 acc n.
Proof.
  revert acc. induction n as [|c n IH]; intros acc Ha Hn; cbn [String.length digits all_digits] in *; [lia|].
  apply andb_true_iff in Hn as [Hc Hn]. rewrite (digit_decimal c Hc). apply andb_true_iff in Hc as [H1%Z.leb_le _].
  etransitivity; [|apply IH; [lia|done]]. rewrite Nat2Z.inj_succ, Z.pow_succ_r by lia. nia.
Qed.

Lemma canonical_length n t :
  n <> EmptyString -> all_digits n = true -> digits 10 0 n <= 2 ^ 31 - 1 -> canonical (n ++ t) = true -> (String.length n <= 10)%nat.
Proof.
  intros He Hn Hmax Hcan. destruct n as [|c n]; [done|]. cbn [all_digits String.length digits] in *.
  apply andb_true_iff in Hn as [Hc Hn]. rewrite (digit_decimal c Hc) in Hmax.
  destruct (decide (c = "0"%char)) as [->|Hne].
  - destruct n as [|x n]; [cbn; lia|]. rewrite !append_cons in Hcan. cbn [canonical] in Hcan. cbn [all_digits] in Hn.
    apply andb_true_iff in Hn as [Hx _]. by rewrite Hx in Hcan.
  - assert (49 <= code c).
    { apply andb_true_iff in Hc as [H1%Z.leb_le _]. destruct (decide (code c = 48)) as [E|]; [|lia]. destruct Hne.
      unfold code in E. rewrite <- (ascii_nat_embedding c). assert (nat_of_ascii c = 48%nat) as -> by lia. done. }
    pose proof (digits_grow n (0 * 10 + (code c - 48)) ltac:(lia) Hn) as Hg.
    assert (10 ^ Z.of_nat (String.length n) < 10 ^ 10) as Hp by (change (10 ^ 10) with 10000000000; change (2 ^ 31) with 2147483648 in Hmax; nia).
    apply Z.pow_lt_mono_r_iff in Hp; lia.
Qed.

Lemma string_length_app a b : String.length (a ++ b) = (String.length a + String.length b)%nat.
Proof. induction a as [|c a IH]; [done|]. rewrite append_cons. cbn. by rewrite IH. Qed.

Lemma inherit_other v e x : x <> v -> x <> ("XSTARTUP_" ++ v)%string -> INHERIT_VAR v e !! x = e !! x.
Proof.
  intros H1 H2. unfold INHERIT_VAR. rewrite lookup_delete_ne by done. destruct (empty _); [done|].
  destruct (e !! _); [|done]. by rewrite lookup_insert_ne.
Qed.

(** C24: for every name of a display that the command line accepts, without leading zeros, the
    name fits the buffer in which the command that is started finds it. *)
Theorem display_fits (d : string) (e : environment) :
  VerifyDisplayName d = true -> canonical d = true ->
  exists e', child_environment d e = Some e' /\ e' !! "DISPLAY" = Some (String ":" d).
Proof.
  intros Hv Hc. assert (String.length d <= 13)%nat as Hlen.
  { apply VerifyDisplayName_accepts in Hv as (n & t & -> & He & Hn & Hmax & Ht). pose proof (canonical_length n t He Hn Hmax Hc).
    rewrite string_length_app. destruct Ht as [->|(b & -> & _ & Hb)]; cbn [String.length]; lia. }
  unfold child_environment, sprintf. rewrite decide_True by (rewrite string_length_app; cbn; lia). cbn [mbind option_bind].
  eexists. split; [done|]. rewrite !inherit_other by done. by rewrite lookup_insert_eq.
Qed.

(** With leading zeros it does not. *)
Example display_overflows : VerifyDisplayName "000000000000000" = true /\ child_environment "000000000000000" ∅ = None.
Proof. by vm_compute. Qed.

(** ** The test picture *)

Section loops.
Context {A : Type}.

(** [n] rounds of [for (k = i; ...; k++)]. *)
Fixpoint for_ (f : Z -> A -> option A) (n : nat) (i : Z) (a : A) : option A :=
  match n with O => Some a | S n => a ← f i a; for_ f n (i + 1) a end.

Lemma for_inv (P : Z -> A -> Prop) f n i a :
  P i a -> (forall k a, i <= k < i + Z.of_nat n -> P k a -> exists a', f k a = Some a' /\ P (k + 1) a') ->
  exists a', for_ f n i a = Some a' /\ P (i + Z.of_nat n) a'.
Proof.
  revert i a. induction n as [|n IH]; intros i a Ha Hf; cbn [for_]; [exists a; by rewrite Z.add_0_r|].
  destruct (Hf i a) as (a1 & -> & H1); [lia|done|]. cbn [mbind option_bind].
  destruct (IH (i + 1) a1 H1) as (a2 & -> & H2); [intros k a0 Hk; apply Hf; lia|].
  exists a2. split; [done|]. by replace (i + Z.of_nat (S n)) with (i + 1 + Z.of_nat n) by lia.
Qed.
End loops.

Definition drawSquare (x y l color stride : Z) (pixels : list Z) : option (list Z) :=
  for_ (fun i => for_ (fun j pixels => wrz pixels (u32 (u32 (u32 (j + y) * stride) + u32 x + u32 i)) color) (Z.to_nat l) 0) (Z.to_nat l) 0 pixels.

(** [d] is the description of the buffer; [pixels] are those of a locked pixmap. *)
Record Desc := { d_width : Z; d_height : Z; d_stride : Z }.

Definition drawSquares (d : Desc) (pixels : option (list Z)) : option (option (list Z)) :=
  match pixels with
  | None => Some None
  | Some p =>
      let l := Z.quot (Z.min (d_width d) (d_height d)) 4 in
      let x := Z.quot (d_width d - l) 2 in
      let y := Z.quot (d_height d - l) 2 in
      p ← drawSquare (x - Z.quot l 3) (y - Z.quot l 3) l 0x00FF0000 (d_stride d) p;
      p ← drawSquare x y l 0x0000FF00 (d_stride d) p;
      p ← drawSquare (x + Z.quot l 3) (y + Z.quot l 3) l 0x000000FF (d_stride d) p;
      Some (Some p)
  end.

Definition in_square (x y l px py : Z) : bool := (x <=? px) && (px <? x + l) && (y <=? py) && (py <? y + l).

Definition in_box (x y w h px py : Z) : bool := (x <=? px) && (px <? x + w) && (y <=? py) && (py <? y + h).

(** A picture with the pixels of [f] in place of those of [p0]. *)
Definition painted (stride height : Z) (p0 p : list Z) (box : Z -> Z -> bool) (color : Z) : Prop :=
  length p = length p0 /\
  forall px py, 0 <= px < stride -> 0 <= py < height ->
    rdz p (py * stride + px) = if box px py then Some color else rdz p0 (py * stride + px).

Lemma pixel_inj stride px py px' py' :
  0 <= px < stride -> 0 <= px' < stride -> py * stride + px = py' * stride + px' -> px = px' /\ py = py'.
Proof. intros H H' E. assert (py = py') by nia. subst. lia. Qed.

Section square.
Context (stride height : Z) (p0 : list Z).
Hypothesis (Hs : 0 <= stride) (Hh : 0 <= height).
Hypothesis (Hlen : Z.of_nat (length p0) = stride * height) (Hmax : stride * height <= 2 ^ 32).

Lemma pixel_index x y : 0 <= x < stride -> 0 <= y < height -> 0 <= y * stride + x < Z.of_nat (length p0).
Proof. intros. rewrite Hlen. nia. Qed.

(** One more pixel. *)
Lemma paint_pixel p box color x y i j :
  painted stride height p0 p box color -> 0 <= x -> 0 <= i -> x + i < stride -> 0 <= y -> 0 <= j -> y + j < height ->
  exists p', wrz p (u32 (u32 (u32 (j + y) * stride) + u32 x + u32 i)) color = Some p' /\
    painted stride height p0 p' (fun px py => box px py || (px =? x + i) && (py =? y + j)) color.
Proof.
  intros [Hl Hp] Hx Hi Hxi Hy Hj Hyj.
  assert (stride <= 2 ^ 32 /\ height <= 2 ^ 32) as [? ?] by nia.
  assert (u32 (u32 (u32 (j + y) * stride) + u32 x + u32 i) = (y + j) * stride + (x + i)) as ->.
  { pose proof (pixel_index (x + i) (y + j) ltac:(lia) ltac:(lia)). rewrite (uwrap_small 32 (j + y)), (uwrap_small 32 x), (uwrap_small 32 i) by lia.
    rewrite (uwrap_small 32 ((j + y) * stride)) by nia. rewrite uwrap_small by nia. ring. }
  pose proof (wrz_Some p ((y + j) * stride + (x + i)) color) as Hp'.
  rewrite Hl in Hp'. specialize (Hp' (pixel_index (x + i) (y + j) ltac:(lia) ltac:(lia))).
  eexists. split; [done|]. split; [by rewrite (wrz_length _ _ _ _ Hp')|]. intros px py Hpx Hpy. rewrite (rdz_wrz _ _ _ _ _ Hp').
  destruct (Z.eqb_spec ((y + j) * stride + (x + i)) (py * stride + px)) as [E|E].
  - apply pixel_inj in E as [<- <-]; [|lia..]. by rewrite !Z.eqb_refl, orb_true_r.
  - rewrite Hp by done. destruct (Z.eqb_spec px (x + i)) as [->|], (Z.eqb_spec py (y + j)) as [->|]; try done; by rewrite orb_false_r.
Qed.

Lemma painted_ext p box box' color :
  painted stride height p0 p box color -> (forall px py, box px py = box' px py) -> painted stride height p0 p box' color.
Proof. intros [Hl Hp] E. split; [done|]. intros px py. rewrite <- E. apply Hp. Qed.

Lemma drawSquare_paints x y l color :
  0 <= l -> 0 <= x -> x + l <= stride -> 0 <= y -> y + l <= height ->
  exists p, drawSquare x y l color stride p0 = Some p /\ painted stride height p0 p (in_square x y l) color.
Proof.
  intros Hl Hx Hxl Hy Hyl. unfold drawSquare.
  destruct (for_inv (fun i p => painted stride height p0 p (in_box x y i l) color)
    (fun i => for_ (fun j pixels => wrz pixels (u32 (u32 (u32 (j + y) * stride) + u32 x + u32 i)) color) (Z.to_nat l) 0) (Z.to_nat l) 0 p0)
    as (p & E & Hp); [| |by exists p; rewrite Z.add_0_l, Z2Nat.id in Hp].
  - split; [done|]. intros px py _ _. replace (in_box x y 0 l px py) with false; [done|]. unfold in_box. symmetry. bcase; lia.
  - intros i p Hi Hp.
    destruct (for_inv (fun j p => painted stride height p0 p (fun px py => in_box x y i l px py || in_box (x + i) y 1 j px py) color)
      (fun j pixels => wrz pixels (u32 (u32 (u32 (j + y) * stride) + u32 x + u32 i)) color) (Z.to_nat l) 0 p) as (p1 & E1 & Hp1).
    + apply (painted_ext p _ _ color Hp). intros px py. unfold in_box. bcase; lia.
    + intros j p1 Hj Hp1. destruct (paint_pixel p1 _ color x y i j Hp1) as (p2 & E2 & Hp2); [lia..|]. exists p2. split; [done|].
      apply (painted_ext p2 _ _ color Hp2). intros px py. unfold in_box. bcase; lia.
    + exists p1. split; [done|]. rewrite Z.add_0_l, Z2Nat.id in Hp1 by done.
      apply (painted_ext p1 _ _ color Hp1). intros px py. unfold in_box. bcase; lia.
Qed.
End square.

(** Whatever the size of the screen's buffer, no pixel of the test picture is outside of
    it (32-bit indices included), and the picture is three squares of a quarter of the shorter
    side, green in the middle, red before and blue behind it on the diagonal, the later ones
    over the earlier ones, on the old contents. *)
Theorem drawSquares_draws (d : Desc) (p : list Z) :
  0 <= d_width d <= d_stride d -> 0 <= d_height d ->
  Z.of_nat (length p) = d_stride d * d_height d -> d_stride d * d_height d <= 2 ^ 32 ->
  let l := Z.min (d_width d) (d_height d) / 4 in
  let x := (d_width d - l) / 2 in
  let y := (d_height d - l) / 2 in
  exists p', drawSquares d (Some p) = Some (Some p') /\ length p' = length p /\
    forall px py, 0 <= px < d_stride d -> 0 <= py < d_height d ->
      rdz p' (py * d_stride d + px) =
        if in_square (x + l / 3) (y + l / 3) l px py then Some 0xFF
        else if in_square x y l px py then Some 0xFF00
        else if in_square (x - l / 3) (y - l / 3) l px py then Some 0xFF0000
        else rdz p (py * d_stride d + px).
Proof.
  intros [Hw Hs] Hh Hlen Hmax. cbv zeta. unfold drawSquares.
  rewrite (Z.quot_div_nonneg (Z.min _ _) 4) by lia. set (l := Z.min (d_width d) (d_height d) / 4).
  assert (0 <= l /\ 4 * l <= d_width d /\ 4 * l <= d_height d) as (Hl & Hlw & Hlh).
  { pose proof (Z.mul_div_le (Z.min (d_width d) (d_height d)) 4 ltac:(lia)). assert (0 <= l) by (apply Z.div_pos; lia). lia. }
  rewrite (Z.quot_div_nonneg (d_width d - l) 2), (Z.quot_div_nonneg (d_height d - l) 2), (Z.quot_div_nonneg l 3) by lia.
  set (x := (d_width d - l) / 2). set (y := (d_height d - l) / 2).
  assert (2 * x <= d_width d - l < 2 * x + 2) as Hx by (split; [apply Z.mul_div_le; lia|unfold x; pose proof (Z.mul_succ_div_gt (d_width d - l) 2); lia]).
  assert (2 * y <= d_height d - l < 2 * y + 2) as Hy by (split; [apply Z.mul_div_le; lia|unfold y; pose proof (Z.mul_succ_div_gt (d_height d - l) 2); lia]).
  assert (0 <= l / 3 /\ 3 * (l / 3) <= l) as [H3 H3l] by (split; [apply Z.div_pos; lia|apply Z.mul_div_le; lia]).
  destruct (drawSquare_paints (d_stride d) (d_height d) p ltac:(lia) Hh Hlen Hmax (x - l / 3) (y - l / 3) l 0xFF0000) as (p1 & -> & L1 & P1); [lia..|].
  cbn [mbind option_bind]. assert (Z.of_nat (length p1) = d_stride d * d_height d) as Hlen1 by by rewrite L1.
  destruct (drawSquare_paints (d_stride d) (d_height d) p1 ltac:(lia) Hh Hlen1 Hmax x y l 0xFF00) as (p2 & -> & L2 & P2); [lia..|].
  cbn [mbind option_bind]. assert (Z.of_nat (length p2) = d_stride d * d_height d) as Hlen2 by by rewrite L2.
  destruct (drawSquare_paints (d_stride d) (d_height d) p2 ltac:(lia) Hh Hlen2 Hmax (x + l / 3) (y + l / 3) l 0xFF) as (p3 & -> & L3 & P3); [lia..|].
  exists p3. split; [done|]. split; [congruence|]. intros px py Hpx Hpy. by rewrite P3, P2, P1.
Qed.

(** ** The test of the capabilities *)

Inductive egl_object := HardwareBuffer | Image | Context | Surface | CurrentContext.

#[export] Instance egl_object_eq : EqDecision egl_object.
Proof. solve_decision. Defined.

(** What EGL and the allocator answer; [pixel] is what is read back. *)
Record Device := {
  has_display : bool; allocates : bool; locks : bool; clientBuffer : bool; image : bool; imageError : Z; chooses_config : bool;
  creates_context : bool; creates_surface : bool; makes_current : bool; pixel : Z;
}.

Definition EGL_BAD_PARAMETER : Z := 0x300C.

Record Capabilities := { legacy_drawing : Z; flip : Z; held : list egl_object }.

Definition force_legacy (c : Capabilities) : Capabilities := {| legacy_drawing := 1; flip := flip c; held := held c |}.
Definition force_flip (c : Capabilities) : Capabilities := {| legacy_drawing := legacy_drawing c; flip := 1; held := held c |}.
Definition take (o : egl_object) (c : Capabilities) : Capabilities :=
  {| legacy_drawing := legacy_drawing c; flip := flip c; held := o :: held c |}.
Definition give (o : egl_object) (c : Capabilities) : Capabilities :=
  {| legacy_drawing := legacy_drawing c; flip := flip c; held := default (held c) (give_back o (held c)) |}.

(** [egl_display]: another call already got the display. *)
Definition rendererTestCapabilities (d : Device) (egl_display : bool) (c : Capabilities) : Capabilities :=
  if negb egl_display && negb (has_display d) then c
  else if negb (allocates d) then force_legacy c
  else
    let c := take HardwareBuffer c in
    if negb (locks d) then give HardwareBuffer (force_legacy c)
    else if negb (clientBuffer d) then give HardwareBuffer (force_legacy c)
    else if negb (image d) then
      give HardwareBuffer (if imageError d =? EGL_BAD_PARAMETER then force_flip c else force_legacy c)
    else
      let c := take Image c in
      if negb (chooses_config d) then c
      else if negb (creates_context d) then c
      else
        let c := take Context c in
        let c := if creates_surface d then take Surface c else c in
        if negb (makes_current d) then c
        else
          let c := take CurrentContext c in
          let c := if pixel d =? 0xAABBCCDD then force_flip c else if negb (pixel d =? 0xAADDCCBB) then force_legacy c else c in
          give HardwareBuffer (give Surface (give Image (give Context (give CurrentContext c)))).

Lemma held_give o c l : held c = o :: l -> held (give o c) = l.
Proof. intros H. unfold give. cbn [held]. by rewrite H, give_back_hd. Qed.

(** What an object behind the head leaves there. *)
Lemma held_give_behind o o' c l : o <> o' -> held c = o' :: o :: l -> held (give o c) = o' :: l.
Proof. intros Ho H. unfold give. cbn [held]. rewrite H. cbn [give_back]. rewrite decide_False by done. rewrite decide_True by done. done. Qed.

(** The test leaves nothing behind unless one of the three calls behind the image fails, and
    then the buffer and the image, at least, and no decision. *)
Lemma rendererTestCapabilities_held d b c :
  held c = [] -> creates_surface d = true ->
  let c' := rendererTestCapabilities d b c in
  held c' = [] \/
  HardwareBuffer ∈ held c' /\ Image ∈ held c' /\ legacy_drawing c' = legacy_drawing c /\ flip c' = flip c /\
    (chooses_config d = false \/ creates_context d = false \/ makes_current d = false).
Proof.
  intros Hc Hsf. cbv zeta. unfold rendererTestCapabilities. destruct (_ && _); [by left|]. destruct (negb (allocates d)); [by left|].
  assert (forall f : Capabilities -> Capabilities, (forall c, held (f c) = held c) -> held (give HardwareBuffer (f (take HardwareBuffer c))) = []) as H1.
  { intros f Hf. apply held_give. rewrite Hf. cbn. by rewrite Hc. }
  destruct (negb (locks d)); [left; by apply (H1 force_legacy)|]. destruct (negb (clientBuffer d)); [left; by apply (H1 force_legacy)|].
  destruct (negb (image d)).
  { left. destruct (_ =? _); [by apply (H1 force_flip)|by apply (H1 force_legacy)]. }
  destruct (chooses_config d); cbn [negb]; [|right; cbn; rewrite Hc, !elem_of_cons; tauto].
  destruct (creates_context d); cbn [negb]; [|right; cbn; rewrite Hc, !elem_of_cons; tauto]. rewrite Hsf.
  destruct (makes_current d); cbn [negb]; [left|right; cbn; rewrite Hc, !elem_of_cons; tauto].
  set (c1 := take Surface _). assert (held c1 = [Surface; Context; Image; HardwareBuffer]) as H2 by (cbn; by rewrite Hc).
  set (c2 := if pixel d =? _ then _ else _). assert (held c2 = [CurrentContext; Surface; Context; Image; HardwareBuffer]) as H3.
  { unfold c2. destruct (_ =? _); [|destruct (negb _)]; cbn; by rewrite Hc. }
  apply held_give, held_give, (held_give_behind _ Surface); [done|]. apply (held_give_behind _ Surface); [done|]. by apply held_give.
Qed.

(** ** The shared state and the screen *)

(** [fd] is -1 when there is no descriptor; [map] is what [mmap] returns, -1 for MAP_FAILED.
    The result is the pair [stateFd], [state]; [inr] ends the program; [None] is the use of
    memory that is not mapped. *)
Definition OsVendorInit (fd map : Z) (s : Z * Z) : option (Z * Z + Z) :=
  if negb (fst s =? -1) then Some (inl s)
  else if fd =? -1 then Some (inr 1)
  else if map =? 0 then Some (inr 1)
  else if map =? -1 then None
  else Some (inl (fd, map)).

(** A second call changes nothing. *)
Lemma OsVendorInit_once fd map fd' map' s s1 : OsVendorInit fd map s = Some (inl s1) -> OsVendorInit fd' map' s1 = Some (inl s1).
Proof.
  unfold OsVendorInit. destruct (Z.eqb_spec (fst s) (-1)) as [|Hs]; cbn [negb]; [|intros [= <-]; by rewrite (proj2 (Z.eqb_neq _ _) Hs)].
  destruct (Z.eqb_spec fd (-1)) as [|Hfd]; [done|]. destruct (map =? 0), (map =? -1); try done. intros [= <-]. cbn. by rewrite (proj2 (Z.eqb_neq _ _) Hfd).
Qed.

(** A failed mapping is not seen. *)
Example map_failed_crashes fd : fd <> -1 -> OsVendorInit fd (-1) (-1, 0) = None.
Proof. intros H. unfold OsVendorInit. cbn. by rewrite (proj2 (Z.eqb_neq fd (-1)) H). Qed.

(** The calls of [lorieScreenInit] that may fail, in order; [dri3] is the option. *)
Definition screen_calls (dri3 : bool) : list string :=
  (["miSetVisualTypesAndMasks"; "miSetPixmapDepths"; "fbScreenInit"] ++ (if dri3 then ["dri3_screen_init"] else []) ++
   ["fbPictureInit"; "exaDriverInit"; "lorieRandRInit"; "miPointerInitialize"; "fbCreateDefColormap"; "present_screen_init"])%list.

Record ScreenState := {
  eventFd : Z; notify : list Z; vblank_interval : Z; called : list string; wrapped : bool;
}.

(** The calls up to the first that fails. *)
Fixpoint call_all (ok : string -> bool) (l : list string) (s : ScreenState) : bool * ScreenState :=
  match l with
  | [] => (true, s)
  | c :: l =>
      let s := {| eventFd := eventFd s; notify := notify s; vblank_interval := vblank_interval s; called := (called s ++ [c])%list; wrapped := wrapped s |} in
      if ok c then call_all ok l s else (false, s)
  end.

(** [new_fd] is the answer of [eventfd]; [None] is a division by zero. *)
Definition lorieScreenInit (ok : string -> bool) (dri3 : bool) (new_fd framerate : Z) (s : ScreenState) : option (bool * ScreenState) :=
  let fd := if eventFd s =? -1 then new_fd else eventFd s in
  if framerate =? 0 then None
  else
    let '(r, s) := call_all ok (screen_calls dri3)
      {| eventFd := fd; notify := fd :: notify s; vblank_interval := Z.quot 1000000 framerate; called := called s; wrapped := wrapped s |} in
    Some (r, if r then {| eventFd := eventFd s; notify := notify s; vblank_interval := vblank_interval s; called := called s; wrapped := true |} else s).

(** The screen is there exactly when every call succeeds, and a reset of the server uses the
    same descriptor to wake up. *)
Lemma call_all_spec ok l s : fst (call_all ok l s) = forallb ok l /\ eventFd (snd (call_all ok l s)) = eventFd s.
Proof. revert s. induction l as [|c l IH]; intros s; [done|]. cbn. destruct (ok c); [|done]. match goal with |- context [call_all ok l ?x] => exact (IH x) end. Qed.

Lemma lorieScreenInit_spec ok dri3 new_fd framerate s :
  framerate <> 0 ->
  exists s', lorieScreenInit ok dri3 new_fd framerate s = Some (forallb ok (screen_calls dri3), s') /\
    (eventFd s <> -1 -> eventFd s' = eventFd s).
Proof.
  intros Hf. unfold lorieScreenInit. rewrite (proj2 (Z.eqb_neq framerate 0)) by done.
  match goal with |- context [call_all ok ?l ?x] => destruct (call_all_spec ok l x) as [E1 E2]; destruct (call_all ok l x) as [r s1] end.
  cbn [fst snd eventFd] in E1, E2. rewrite E1. eexists. split; [done|]. intros H. rewrite (proj2 (Z.eqb_neq _ _) H) in E2. rewrite <- E2. by destruct (forallb _ _).
Qed.

(** ** Examples *)

Definition termux : Files := {| access := fun p => bool_decide (p ∈ [termux_tmp; termux_xkb; termux_exec]); getcwd := Some "/"; detectTracer := false |}.
Definition from_adb : Start :=
  {| environ := {["TMPDIR" := "/data/local/tmp"]}; cwd := None; xtrans_unix_path_x11 := ""; xtrans_unix_dir_x11 := "";
     defaultFontPath := None; XkbBaseDirectory := None; running := false |}.

Lemma start_environment_witness :
  let '(ok, s') := Java_com_termux_x11_CmdEntryPoint_start termux from_adb in
  running s' = ok /\
  (ok = true <-> exists tmp xkb, tmpdir termux (environ from_adb) = Some tmp /\ xkb_root termux (environ from_adb) tmp = Some xkb /\ access termux xkb = true) /\
  (ok = true -> exists tmp xkb, tmpdir termux (environ from_adb) = Some tmp /\ xkb_root termux (environ from_adb) tmp = Some xkb /\
     environ s' !! "TMPDIR" = Some tmp /\ environ s' !! "XKB_CONFIG_ROOT" = Some xkb /\ XkbBaseDirectory s' = Some xkb /\
     xtrans_unix_path_x11 s' = (tmp ++ "/.X11-unix/X")%string) /\
  (forall x, x <> "TMPDIR" -> x <> "XKB_CONFIG_ROOT" -> x <> "LD_PRELOAD" -> environ s' !! x = environ from_adb !! x).
Proof.
  destruct (Java_com_termux_x11_CmdEntryPoint_start termux from_adb) as [ok s'] eqn:E. by apply (start_environment termux from_adb s' ok).
Defined.

Example termux_starts :
  (fun r => (fst r, environ (snd r) !! "TMPDIR", XkbBaseDirectory (snd r), cwd (snd r))) (Java_com_termux_x11_CmdEntryPoint_start termux from_adb)
  = (true, Some termux_tmp, Some termux_xkb, Some termux_tmp).
Proof. by vm_compute. Qed.

Lemma display_fits_witness : exists e', child_environment "12.34" ∅ = Some e' /\ e' !! "DISPLAY" = Some ":12.34".
Proof. by apply display_fits. Defined.

Definition small_screen : Desc := {| d_width := 9; d_height := 8; d_stride := 10 |}.

Lemma drawSquares_draws_witness :
  exists p', drawSquares small_screen (Some (replicate 80 0)) = Some (Some p') /\ length p' = 80%nat /\
    forall px py, 0 <= px < 10 -> 0 <= py < 8 ->
      rdz p' (py * 10 + px) =
        if in_square 3 3 2 px py then Some 0xFF else if in_square 3 3 2 px py then Some 0xFF00
        else if in_square 3 3 2 px py then Some 0xFF0000 else rdz (replicate 80 0) (py * 10 + px).
Proof. apply (drawSquares_draws small_screen (replicate 80 0)); cbn; lia. Defined.

(** [waitpid] fails at once, when there was no child: the server is told to stop, and an
    undefined status is read. *)
Example no_child : wait_child None [None] = None.
Proof. done. Qed.

Example dirnames : map dirname [""; "/"; "tmp"; "/tmp"; "/data/usr/tmp"; "/a//b//"] = ["."; "/"; "."; "/"; "/data/usr"; "/a"].
Proof. by vm_compute. Qed.
